(* ===== verification/_CoqProject ===== *)
-Q . S2P
Prelude.v
StateM.v
Lru.v
Bucket.v
Pool.v
GoStr.v
Charset.v
Keywords.v
Utf8.v
Lexer.v
Preview.v
LexerSafe.v
Hack.v
NumKey.v
Shard.v
ShardMycat.v
Models.v
Manager.v
Rule.v
RuleVerify.v
Router.v
PlanUtil.v
Format.v
SessionVars.v
LexerRound.v
Lex.v
Ast.v
Dml.v
PlanWhere.v
PlanSQL.v
PlanExample.v
PlanRewrite.v
Sequence.v
PlanInsert.v
Encoding.v
Packet.v
PacketOk.v
Stmt.v
TimeWheel.v
Balancer.v
Merge.v
Resultset.v
ResultsetOk.v
MergeSort.v
MergeGroup.v
PlanSelect.v
PlanTable.v
PlanModify.v
Conn.v
Session.v
ConnInv.v
ConnVars.v
SessionInv.v
Sessions.v
History.v
SessionTx.v
Visit.v
BuildPlan.v
PlanSlices.v
