(* ===== verification/Prelude.v ===== *)
(** * A verification of dbproxy, a sharding MySQL proxy

    dbproxy receives SQL statements, decides from the configuration of a
    namespace which backend slices and which physical tables hold the rows a
    statement speaks about, writes a statement for each of them, runs it there
    and merges the results. The development follows that path: the configuration
    is checked (models/) and turned into rules (proxy/router/), the rules compute
    the table index of a key; a statement is read (parser/), planned
    (proxy/plan/) and written again (parser/ast/, the decorators of
    proxy/plan/); a session runs the statements of a plan on connections to the
    slices, alone or in a transaction (proxy/server/, backend/, util/); the
    results are merged (proxy/plan/merge_result.go). Beside the path stand the
    parts a session uses: prepared statements and session variables
    (proxy/server/, mysql/), sequence numbers (proxy/sequence/), packets and
    results on the wire (mysql/, proxy/server/client_conn.go,
    backend/direct_connection.go), the load balancing of slices (backend/), and of
    util/ the wheel that ends idle sessions, the cache and the buffers of packets.

    ** Files

    Foundations:
    - Prelude: machine integers ([i64], [u64], ... are Go's wrap-around at each
      width), the monad [outcome] of Go functions ([Ret], [Err], [Panic]),
      slices with their run-time checks ([index], [reslice], [store]), the
      values of [interface{}], ascending lists.
    - StateM: the monad [M S A] of code that changes shared state: the state it
      leaves, also after an error or a panic, and its [outcome].
    - GoStr: the parts of the Go standard library the code calls: strings,
      strconv (decimal integers), runes, hash/crc32 and the calendar behind
      [time.Parse], [Time.Format] and [time.Unix]. Utf8: unicode/utf8, one rune
      at a time.

    Reading SQL:
    - Keywords, Lexer: parser/misc.go and lexer.go, the reader, the scanner and
      its tables; the state is the [Scanner] with the scanner of a special
      comment inside it. LexerSafe: every call returns. LexerRound: strings and
      names are read back as written.
    - Preview: parser/analyzer.go and comments.go, the margin comments and the kind
      of a statement.
    - Lex: [Scanner.Lex], key words and integers, with [toInt] of yy_parser.go.

    Configuration and routing:
    - Hack: util/hack/hack.go, util/math/compare.go, util/padding.go,
      util/murmur.go.
    - NumKey: proxy/router/numkey.go, key ranges and date ranges.
    - Shard: proxy/router/shard.go, the hash, mod, number range, date, default
      and global algorithms.
    - ShardMycat: proxy/router/shard_mycat.go, the mycat algorithms; the class
      [TreeMap] states what the gods treemap promises.
    - Models: models/shard.go, shard_rule.go, numkey.go, namespace.go, slice.go,
      user.go, the configuration and its checks.
    - Rule: proxy/router/rule.go, rules and their construction.
    - RuleVerify: the checks of models against the construction of rules.
    - Router: proxy/router/router.go, the rules of a namespace.

    Writing SQL:
    - Format: parser/format/format.go, the context a node is restored with; a
      [restored] is the text written so far and how the restore ended.
    - Ast: operators, literals and expressions (parser/opcode/, parser/ast/
      expressions.go and functions.go, tidb-types/parser_driver/value_expr.go),
      with the nodes the planner puts in their place (the decorators of columns,
      IN and BETWEEN).
    - Dml: parser/ast/dml.go, tables, clauses, SELECT, INSERT, UPDATE and DELETE,
      with the decorators of tables and of the rows of an INSERT.

    Plans:
    - PlanUtil: proxy/plan/util.go and route_result.go, sets of table indexes as
      ascending lists and the cursor over a route result.
    - PlanWhere: the routing of conditions: the tables of a statement
      (proxy/plan/plan.go), comparisons, AND and OR (plan_select.go), IN
      (decorator_pattern_in_expr.go), BETWEEN (decorator_between_expr.go); the
      class [RoutesOrdered] states what a condition needs from a rule.
    - PlanSQL: [generateShardingSQLs] of plan.go, the statements by slice and
      database. PlanExample: a router with small tables for the witnesses.
    - PlanRewrite: the meaning of the rewritten condition.
    - Sequence: proxy/sequence/, with the class [Sequence] of the Go interface.
    - PlanInsert: plan_insert.go, against [Sequence].
    - PlanSelect: plan_select.go and plan_select_subquery.go, [HandleSelectStmt]
      as a whole. PlanTable: SELECT on one table. PlanModify: plan_update.go and
      plan_delete.go.
    - Visit: the [Accept] methods of parser/ast, the tables of a statement in the
      order a visitor meets them and the statement with its tables renamed.
    - BuildPlan: the [Checker] and [BuildPlan] of plan.go, plan_unshard.go,
      plan_explain.go and [getPlan] of executor_handle.go, which choose the plan of a
      statement. PlanSlices: the slices a plan sends to, and the sessions of a
      configured proxy.
    - Merge: proxy/plan/merge_result.go, decorator_limit.go and
      mysql/resultset_sort.go, the merging of the results of the shards;
      MergeSort proves ORDER BY and LIMIT, MergeGroup DISTINCT, GROUP BY and the
      aggregate functions.

    Connections:
    - Pool: util/resource_pool.go with the mutex of backend/connection_pool.go:
      threads that take the steps of Get, Put, SetCapacity, Close and of the idle
      timer one at a time, as a step relation.
    - Balancer: backend/balancer.go and the construction of backend/slice.go,
      with [parseSlice] of proxy/server/namespace.go.
    - Conn: backend/direct_connection.go, pooled_connection.go and the getters of
      slice.go; the state [World] has the slices, the pools, the connections and the [log] of
      everything that was sent. ConnInv: what holds of pools and connections. ConnVars:
      the settings a connection is brought to before a statement.

    Sessions:
    - Encoding: mysql/encoding.go, integers and strings in packets. Bucket:
      util/bucketpool, the buffers they are written into. Packet: mysql/conn.go,
      payloads cut into packets. PacketOk: what the writers of packets leave on the
      wire. Resultset: mysql/field.go and result.go with the writers of client_conn.go
      and the readers of direct_connection.go. ResultsetOk: a result that is written
      is read.
    - Manager: proxy/server/manager.go, the users and the namespaces with the two copies
      that a reload prepares and commits; [CalcPassword] of mysql/util.go.
    - Lru: util/cache/lru_cache.go, a linked list and a table that share its elements.
    - SessionVars: mysql/variables.go. Charset: mysql/charset.go, with
      [parseCharset] of namespace.go.
    - Stmt: proxy/server/executor_stmt.go, prepared statements.
    - Session: proxy/server/executor.go and executor_handle.go, the session of a
      client, its transaction and the execution of plans (the [ExecuteIn] of
      proxy/plan/). SessionInv: its connections. Sessions: the proxy with all its
      sessions as a transition system. History: what holds with servers that can always
      be dialled holds with any servers until one could not be; the theorems on the pools
      of the proxy. SessionTx: what the servers are sent.
    - TimeWheel: util/time_wheel.go, the wheel with its channels as a step
      relation.

    Each definition has the name of the Go function it translates; a method
    whose name occurs on several types has the type in front of it
    ([HashShard_FindForKey]). A helper in lower case with underscores is a loop
    or a block of the function named in its comment. The planner of the code
    changes the syntax tree in place; the definitions return the changed tree.

    ** What the theorems show

    - Statements reach their rows: a row that satisfies a WHERE condition lies in
      one of the tables the condition is routed to ([where_finds_rows] for the
      rules with integer keys, [handleWhere_sound] against [RoutesOrdered]), when the
      sharding column is compared with integer literals and the bounds of a NOT BETWEEN
      are in order, and
      the plan of a SELECT, UPDATE or DELETE on one table contains the statement
      of that table, at the slice and database of its rule
      ([select_reaches_rows], [update_reaches_rows], [delete_reaches_rows]).
    - The statements say the right thing: the condition written for a table is
      the text of a syntax tree that means the same for the rows of that table
      ([rewritten_condition_equivalent]); an INSERT writes every row exactly once,
      to its table ([insert_sends_rows]); an UPDATE never moves a row
      ([update_keeps_sharding_column]); every routed table gets one statement
      ([generateShardingSQLs_spec]); added columns are found again
      ([handleExtraFieldList_spec]).
    - Plans are chosen rightly: a statement goes unchanged to the default slice exactly
      when none of its tables is sharded ([BuildPlan_unshard]), no other plan names a slice
      the configuration does not have ([getPlan_slices]; slice-0 need not be configured,
      [unshard_plan_ignores_configuration]), and EXPLAIN lists what would be sent
      ([explain_lists_statements]).
    - Connections are never lost or shared: for every sequence of requests of any
      number of clients and every behaviour of the servers, until the pipe of one breaks
      that cannot be dialled again ([unreachable]; [unreachable_keeps_place] shows what
      happens then), a connection is in its pool or in the transaction of one session, and the
      pools have all their places ([connections_accounted], and with the planner of a
      configuration in place of a parameter [configured_proxy_accounts]); one that waits in a
      pool was last told that it is in no transaction ([idle_connections_clean]; its socket
      may be closed, [closed_socket_is_pooled]); on those of a transaction the proxy says,
      until a pipe breaks, nothing that ends it, and passes on what the clients say
      ([transaction_stays_open]). Inside a pool the same holds in every
      interleaving of its users ([pool_accounts], [connection_exclusive],
      [pool_never_panics]).
    - Users and namespaces follow the configuration: after any sequence of
      prepared and committed reloads and of deletions, whether they succeed or fail, the
      manager has the credentials and the namespaces of two copies of the configurations
      that are prepared and switched ([login_follows_configuration], for names and
      passwords without a colon that one namespace has); a deletion between the two halves
      of a reload is undone ([delete_undone_by_commit]).
    - Prepared statements put each value into the text as its literal
      ([prepared_statement_executes]), and the lexer reads the literal of a value that
      travels as bytes as one token ([parameter_is_one_token]); a connection gets the
      variables and the character set of its session by one statement, which also sets
      back what the session does not have ([initBackendConn_settings],
      [SetEqualsWith_spec], [VerifyCharset_parse]).
    - Text: the lexer returns on every text ([scan_total]) and reads the strings,
      names and integers of a restored statement back
      ([string_literal_roundtrip], [quoted_name_roundtrip],
      [integer_literal_roundtrip]).
    - Rules are well formed: every table index a rule that is parsed from locations that
      are not negative computes has a slice ([parseRule_routes], [parseRule_wf],
      [parseDate_spec]; [negative_location_repeats_table] shows why), a
      router has the rules of its configuration ([NewRouter_rules],
      [NewRouter_targets]), and a configuration that models accepts is built
      without error, a partition with positive lengths provided ([verify_parse]).
    - Each algorithm computes its specification: the murmur ring is consistent,
      the segment table of the long partition equals its reference, the signed
      murmur hash equals murmur3 on unsigned words, ranges of days, months and
      numbers are the sets they write.
    - Merging is right: sorting and limiting the limited results of the shards
      gives the rows of the sorted union ([order_limit_pushdown]), a group has the
      aggregates of all its rows, of int64, uint64, float64 and text columns
      ([group_by_merges], [aggregates_merge]), DISTINCT
      keeps the first row of every key ([distinct_first_rows]).
    - Sequences never give a number twice, whatever the interleaving of the
      proxies ([sequence_numbers_unique]).
    - Packets: integers and strings are read back as written, and a reader on
      arbitrary bytes stays inside the packet except on lengths from [2^63]. A payload
      of any length arrives as it was sent ([packet_roundtrip]), what arrives is read
      without a panic ([ReadPacket_ends]; the model has no socket that stays open and
      silent), a buffer has the length that was asked for ([Get_length]),
      and a merged result, or an error, reaches the other end with its columns, values
      and status ([resultset_roundtrip], [error_roundtrip]).
    - The cache refines a list of bindings in the order of their use, cut to what
      fits ([lru_refines]).
    - The wheel refines abstract countdown timers, is never stuck and fires each
      task at its tick; the round robin is fair to the weights.
    - Where the code loses rows, changes a statement or panics, a theorem shows
      it on the smallest input ([date_less_than_drops_table],
      [not_comparison_same_text], [insert_loses_computed_keys],
      [order_by_beside_wildcard], [version_comment_panics],
      [broken_pipe_loses_transaction], [shrink_blocks_forever],
      [escaped_quote_confuses_params], [column_keeps_logical_database],
      [subquery_keeps_logical_table], [unset_field_panics], [foreign_buffer_panics], ...).

    ** Parameters, bounds and fuel

    Code that is not in the repository, and what the language leaves open, is a
    parameter with named laws: the treemap ([TreeMap] with [TreeMapOk]), the
    local time offset of [time.Unix] ([LocalZone]), the random draws of the
    shuffle ([Intn]), [sort.Sort] ([GoSort] with [GoSortOk], implemented by an
    insertion sort in the witness), the text of floats ([FloatText], [FloatE],
    [FloatV]),
    the entry a loop over a map meets first ([MapFirst] with [MapFirstOk]), the
    database behind a sequence ([fetch], for uniqueness the counter of
    mycat_seq_nextval), the order in which a map is visited ([MapRange] with
    [MapRangeOk]), the letters beyond ASCII ([HighLetters]), the servers with the
    network ([Server]; [Honest] says that they report their status as the protocol
    documents it, [Dials] and [Alive] are only used through [History], which replaces
    them by the condition that the history so far has no broken pipe of that kind), the
    socket of a packet connection ([Wire] with [Healthy]), the content
    of a buffer ([BufPool] with [BufPoolOk], which [Get_length] justifies) and, for a
    session, the grammar and the planner ([parse] and [planners], with [Planners],
    which the planner of a configuration satisfies). The users need a
    hash ([Sha1]), and the manager is written for namespaces of any type with a
    [NewNamespace] that may fail (a panic in it is not told from an error). Recursion that is
    not structural has fuel that is enough: [FormatUint] writes at most 20 digits
    of a 64-bit number, [drain] and [sharding_loop] follow a cursor for at most
    the length of its list, [gcd_loop] counts down from the smallest weight, the
    loops of the scanner have one unit per byte of the text and [scan_fuel] one
    per comment; the loops over packets have one unit per byte that arrives, since every
    packet has a header, [write_loop] one per packet of the greatest size, [check_loop]
    of the cache one per element and [bucket_sizes] 64 since sizes double. The number
    of buckets of a wheel is at most [2^45], what [make]
    accepts. The cursor of a route result is an int, so its list is shorter than
    [2^63].

    ** What is not modelled

    The packets and random salts of the handshake, the binary
    protocol of results, the generated tables of the grammar (the syntax trees are
    where the planner begins: what the tables accept is [parse]), DDL and account
    statements, which the planner passes on as text, the value types of TiDB, of which
    the planner only restores literals, etcd, files and HTTP, statistics, logging and
    the fingerprints of statements they use. Optimizer hints, window specifications
    and UNION are kept as the text they restore to, with the tables in them. Requests
    of different sessions interleave as wholes; what happens inside a pool while they
    overlap is the subject of Pool, and the goroutines of one statement, which use
    different connections, are run in order. Manager replaces configurations, but the
    sessions of Sessions run with one: that a session looks its namespace up by its
    name for every request, and the closing of replaced namespaces, are not modelled. *)

From stdpp Require Export base gmap strings list fin_maps sets sorting.
From Stdlib Require Export ZArith Lia.

#[global] Open Scope Z_scope.
#[global] Open Scope list_scope.

(** * Machine integers

    A Go integer is a [Z] that lies in the range of its type; every operation
    that can leave the range is followed by the conversion of that type. [int]
    is 64 bits wide. *)

Definition min_i64 : Z := - 2 ^ 63.
Definition max_i64 : Z := 2 ^ 63 - 1.
Definition i64 (z : Z) : Z := (z + 2 ^ 63) mod 2 ^ 64 - 2 ^ 63.
Definition u64 (z : Z) : Z := z mod 2 ^ 64.
Definition i32 (z : Z) : Z := (z + 2 ^ 31) mod 2 ^ 32 - 2 ^ 31.
Definition u32 (z : Z) : Z := z mod 2 ^ 32.
Definition u16 (z : Z) : Z := z mod 2 ^ 16.
Definition u8 (z : Z) : Z := z mod 2 ^ 8.

Definition is_i64 (z : Z) : Prop := min_i64 <= z <= max_i64.
Definition is_u64 (z : Z) : Prop := 0 <= z < 2 ^ 64.
Definition is_i32 (z : Z) : Prop := - 2 ^ 31 <= z < 2 ^ 31.
Definition is_u8 (z : Z) : Prop := 0 <= z < 256.

#[global] Instance is_i64_dec z : Decision (is_i64 z).
Proof. unfold is_i64. apply _. Defined.
#[global] Instance is_u64_dec z : Decision (is_u64 z).
Proof. unfold is_u64. apply _. Defined.

(** Unfolds the range predicates and the powers of two they mention. *)
Ltac unfold_int :=
  unfold is_i64, is_u64, is_i32, is_u8, min_i64, max_i64 in *;
  change (2 ^ 64) with 18446744073709551616 in *;
  change (2 ^ 63) with 9223372036854775808 in *;
  change (2 ^ 32) with 4294967296 in *;
  change (2 ^ 31) with 2147483648 in *;
  change (2 ^ 16) with 65536 in *;
  change (2 ^ 8) with 256 in *.

Ltac int_lia :=
  unfold i64, u64, i32, u32, u16, u8 in *; unfold_int;
  Z.div_mod_to_equations; lia.

Lemma i64_id z : is_i64 z -> i64 z = z.
Proof. intros; int_lia. Qed.

Lemma i64_range z : is_i64 (i64 z).
Proof. int_lia. Qed.

Lemma u64_id z : is_u64 z -> u64 z = z.
Proof. intros; int_lia. Qed.

Lemma u64_range z : is_u64 (u64 z).
Proof. int_lia. Qed.

Lemma i32_range z : is_i32 (i32 z).
Proof. int_lia. Qed.

Lemma u8_range z : is_u8 (u8 z).
Proof. int_lia. Qed.

Lemma i64_add_l a b : i64 (i64 a + b) = i64 (a + b).
Proof. int_lia. Qed.

Lemma i64_add_r a b : i64 (a + i64 b) = i64 (a + b).
Proof. int_lia. Qed.

Lemma i64_u64 a : i64 (u64 a) = i64 a.
Proof. int_lia. Qed.

Lemma u64_add_l a b : u64 (u64 a + b) = u64 (a + b).
Proof. int_lia. Qed.

Lemma u64_add_r a b : u64 (a + u64 b) = u64 (a + b).
Proof. int_lia. Qed.

(** * Errors, panics and the monad of Go functions

    A Go function that returns [(T, error)] and may panic is a function into
    [outcome T]: [Ret v] is [(v, nil)], [Err e] is [(_, e)] (no caller of the
    modelled functions looks at the value beside a non-nil error), [Panic p] is
    a run-time panic. A named error of core/errors is [Named]; an error built by
    [fmt.Errorf] keeps its format and the errors it wraps, not the other
    formatted arguments. *)

Inductive error :=
| Named (name : string)
| Errorf (format : string)
| Wrap (format : string) (cause : error).

Inductive outcome (A : Type) : Type :=
| Ret (a : A)
| Err (e : error)
| Panic (msg : string).
Arguments Ret {A} a.
Arguments Err {A} e.
Arguments Panic {A} msg.

#[global] Instance error_eq_dec : EqDecision error.
Proof. solve_decision. Defined.
#[global] Instance outcome_eq_dec `{EqDecision A} : EqDecision (outcome A).
Proof. solve_decision. Defined.

#[global] Instance outcome_ret : MRet outcome := @Ret.
#[global] Instance outcome_bind : MBind outcome := fun A B f m =>
  match m with Ret a => f a | Err e => Err e | Panic p => Panic p end.
#[global] Instance outcome_fmap : FMap outcome := fun A B f m =>
  match m with Ret a => Ret (f a) | Err e => Err e | Panic p => Panic p end.

(** [if err != nil { return fmt.Errorf("...: %v", err) }] *)
Definition wrap {A} (fmt : string) (m : outcome A) : outcome A :=
  match m with Err e => Err (Wrap fmt e) | _ => m end.

(** An [option] where [None] is the given error. *)
Definition or_err {A} (e : error) (o : option A) : outcome A :=
  match o with Some a => Ret a | None => Err e end.

Definition is_some {A} (o : option A) : bool := match o with Some _ => true | None => false end.
Definition is_ret {A} (m : outcome A) : bool :=
  match m with Ret _ => true | _ => false end.
Definition is_panic {A} (m : outcome A) : bool :=
  match m with Panic _ => true | _ => false end.

(** Inversion of a bind that returned. *)
Lemma bind_Ret {A B} (m : outcome A) (f : A -> outcome B) b :
  (m ≫= f) = Ret b <-> exists a, m = Ret a /\ f a = Ret b.
Proof. destruct m; cbn; split; try naive_solver congruence. Qed.

Lemma or_err_Ret {A} e (o : option A) a : or_err e o = Ret a <-> o = Some a.
Proof. destruct o; cbn; naive_solver. Qed.

Lemma wrap_Ret {A} fmt (m : outcome A) a : wrap fmt m = Ret a <-> m = Ret a.
Proof. destruct m; cbn; naive_solver. Qed.

(** Splits every hypothesis that says a monadic computation returned. *)
Ltac invert_ret :=
  repeat match goal with
  | H : (_ ≫= _) = Ret _ |- _ =>
      let a := fresh "a" in let H1 := fresh "H" in
      apply bind_Ret in H; destruct H as (a & H1 & H); cbn beta iota in H
  | H : mbind _ _ = Ret _ |- _ =>
      let a := fresh "a" in let H1 := fresh "H" in
      apply bind_Ret in H; destruct H as (a & H1 & H); cbn beta iota in H
  | H : or_err _ _ = Ret _ |- _ => apply or_err_Ret in H
  | H : wrap _ _ = Ret _ |- _ => apply wrap_Ret in H
  | H : Ret _ = Ret _ |- _ => injection H as H; subst
  | H : Err _ = Ret _ |- _ => discriminate H
  | H : Panic _ = Ret _ |- _ => discriminate H
  | H : (if ?c then _ else _) = Ret _ |- _ =>
      let E := fresh "E" in destruct c eqn:E
  end.

(** * Slices

    [zlen], indexing and re-slicing of a Go slice held as a list, with the
    run-time checks of the language. *)

Definition zlen {A} (l : list A) : Z := Z.of_nat (length l).

Definition index {A} (l : list A) (i : Z) : outcome A :=
  if decide (0 <= i) then
    match l !! Z.to_nat i with
    | Some a => Ret a
    | None => Panic "index out of range"
    end
  else Panic "index out of range".

(** [l[a:b]]; the capacity of the modelled slices is their length. *)
Definition reslice {A} (l : list A) (a b : Z) : outcome (list A) :=
  if decide (0 <= a <= b /\ b <= zlen l)
  then Ret (take (Z.to_nat (b - a)) (drop (Z.to_nat a) l))
  else Panic "slice bounds out of range".

(** [l[i] = x] *)
Definition store {A} (l : list A) (i : Z) (x : A) : outcome (list A) :=
  if decide (0 <= i < zlen l) then Ret (<[Z.to_nat i := x]> l)
  else Panic "index out of range".

Lemma index_Ret {A} (l : list A) i a :
  index l i = Ret a <-> 0 <= i /\ l !! Z.to_nat i = Some a.
Proof.
  unfold index. case_decide; [|naive_solver lia].
  destruct (l !! Z.to_nat i); naive_solver.
Qed.

Lemma index_in_range {A} (l : list A) i :
  0 <= i < zlen l -> exists a, index l i = Ret a /\ l !! Z.to_nat i = Some a.
Proof.
  intros Hi. unfold zlen in Hi.
  destruct (lookup_lt_is_Some_2 l (Z.to_nat i)) as [a Ha]; [lia|].
  exists a. rewrite index_Ret. naive_solver lia.
Qed.

Lemma store_in_range {A} (l : list A) i x :
  0 <= i < zlen l -> store l i x = Ret (<[Z.to_nat i := x]> l).
Proof. intros Hi. unfold store. by rewrite decide_True. Qed.

Lemma zlen_insert {A} (l : list A) (i : nat) x : zlen (<[i := x]> l) = zlen l.
Proof. unfold zlen. by rewrite length_insert. Qed.

Lemma index_oob {A} (l : list A) i :
  ~ (0 <= i < zlen l) -> index l i = Panic "index out of range".
Proof.
  unfold index, zlen. intros Hi. case_decide; [|done].
  rewrite lookup_ge_None_2; [done|lia].
Qed.

Lemma zlen_app {A} (l k : list A) : zlen (l ++ k) = zlen l + zlen k.
Proof. unfold zlen. rewrite length_app. lia. Qed.

Lemma zlen_nonneg {A} (l : list A) : 0 <= zlen l.
Proof. unfold zlen. lia. Qed.

Lemma zlen_cons {A} (a : A) l : zlen (a :: l) = zlen l + 1.
Proof. unfold zlen. cbn [length]. lia. Qed.

Lemma zlen_nil {A} : zlen (@nil A) = 0.
Proof. done. Qed.

Create HintDb dbproxy.
Create Rewrite HintDb zlen.
#[export] Hint Resolve i64_range u64_range i32_range u8_range zlen_nonneg : dbproxy.
#[export] Hint Rewrite @zlen_app @zlen_cons @zlen_nil : zlen.

(** A loop that appends one result per element and stops at the first error. *)
Lemma mapM_Ret {A B} (f : A -> outcome B) l k :
  mapM f l = Ret k <-> Forall2 (fun a b => f a = Ret b) l k.
Proof.
  revert k. induction l as [|a l IH]; intros k.
  - cbn. split; [intros [= <-]; constructor|inversion 1; done].
  - cbn [mapM]. rewrite bind_Ret. split.
    + intros (b & Hb & Hk). apply bind_Ret in Hk as (k' & Hk' & [= <-]).
      constructor; [done|]. by apply IH.
    + inversion 1; subst. eexists. split; [eassumption|]. apply bind_Ret.
      eexists. split; [by apply IH|done].
Qed.

Lemma mapM_pure {A B} (f : A -> outcome B) (g : A -> B) l :
  (forall a, a ∈ l -> f a = Ret (g a)) -> mapM f l = Ret (map g l).
Proof.
  intros H. apply mapM_Ret. apply Forall2_fmap_r, Forall_Forall2_diag.
  rewrite Forall_forall. naive_solver.
Qed.

Lemma filter_all {A} (P : A -> Prop) `{forall x, Decision (P x)} l :
  Forall P l -> filter P l = l.
Proof.
  induction 1 as [|x l Hx Hl IH]; [done|]. rewrite filter_cons_True by done. by rewrite IH.
Qed.

Lemma filter_none {A} (P : A -> Prop) `{forall x, Decision (P x)} l :
  Forall (fun x => ~ P x) l -> filter P l = [].
Proof.
  induction 1 as [|x l Hx Hl IH]; [done|]. by rewrite filter_cons_False.
Qed.

(** * Values of Go's interface{}

    The dynamic types that flow through [interface{}] in the modelled code.
    Floats are IEEE binary formats of the standard library's [SpecFloat]; a
    [[]byte] and a [string] share the byte-string representation. *)

From Stdlib Require Export SpecFloat.

Inductive ikind :=
| KInt | KInt8 | KInt16 | KInt32 | KInt64
| KUint | KUint8 | KUint16 | KUint32 | KUint64.

Inductive gval :=
| GNil
| GInt (k : ikind) (z : Z)
| GFloat32 (f : spec_float)
| GFloat64 (f : spec_float)
| GString (s : string)
| GBytes (s : string)
| GOther (typename : string).

#[global] Instance ikind_eq_dec : EqDecision ikind.
Proof. solve_decision. Defined.
#[global] Instance spec_float_eq_dec : EqDecision spec_float.
Proof. solve_decision. Defined.
#[global] Instance gval_eq_dec : EqDecision gval.
Proof. solve_decision. Defined.

Definition ikind_range (k : ikind) (z : Z) : Prop :=
  match k with
  | KInt | KInt64 => is_i64 z
  | KInt8 => - 128 <= z < 128
  | KInt16 => - 32768 <= z < 32768
  | KInt32 => is_i32 z
  | KUint | KUint64 => is_u64 z
  | KUint8 => is_u8 z
  | KUint16 => 0 <= z < 65536
  | KUint32 => 0 <= z < 2 ^ 32
  end.

(** A value whose integer lies in the range of its type. *)
Definition gval_wf (v : gval) : Prop :=
  match v with GInt k z => ikind_range k z | _ => True end.

#[global] Instance ikind_range_dec k z : Decision (ikind_range k z).
Proof. destruct k; cbn; unfold is_u8, is_i32; apply _. Defined.
#[global] Instance gval_wf_dec v : Decision (gval_wf v).
Proof. destruct v; cbn; apply _. Defined.

(** * Sorted integer lists *)

(** Strictly increasing, the order invariant of route index lists. *)
Definition ascending (l : list Z) : Prop := StronglySorted Z.lt l.

Lemma ascending_nil : ascending [].
Proof. constructor. Qed.

Lemma ascending_cons x l :
  ascending (x :: l) <-> ascending l /\ Forall (fun y => x < y) l.
Proof. unfold ascending. split; [inversion 1; auto|intros []; by constructor]. Qed.

Lemma ascending_app l k :
  ascending (l ++ k) <->
  ascending l /\ ascending k /\ (forall x y, x ∈ l -> y ∈ k -> x < y).
Proof.
  induction l as [|a l IH]; cbn.
  - split; [intros H; repeat split; [constructor|done|set_solver]|naive_solver].
  - rewrite !ascending_cons, IH, Forall_app, !Forall_forall. set_solver.
Qed.

Lemma ascending_NoDup l : ascending l -> NoDup l.
Proof.
  induction l as [|a l IH]; [constructor|].
  rewrite ascending_cons, Forall_forall. intros [Hl Ha]. constructor; [|auto].
  intros Hin. apply Ha in Hin. lia.
Qed.

Lemma ascending_seqZ a n : ascending (seqZ a n).
Proof.
  unfold seqZ. generalize (Z.to_nat n) as m. intros m.
  generalize 0%nat as s.
  induction m as [|m IH]; intros s; cbn; [constructor|].
  apply ascending_cons. split; [apply IH|].
  rewrite Forall_forall. intros y Hy. apply list_elem_of_fmap in Hy.
  destruct Hy as (k & -> & Hk). rewrite elem_of_seq in Hk. lia.
Qed.

(** Two ascending lists with the same elements are equal. *)
Lemma ascending_ext l k :
  ascending l -> ascending k -> (forall x, x ∈ l <-> x ∈ k) -> l = k.
Proof.
  revert k. induction l as [|a l IH]; intros [|b k] Hl Hk Hx.
  - done.
  - exfalso. destruct (Hx b). set_solver.
  - exfalso. destruct (Hx a). set_solver.
  - rewrite ascending_cons, Forall_forall in Hl, Hk.
    destruct Hl as [Hl Ha], Hk as [Hk Hb].
    assert (a = b) as ->.
    { pose proof (proj1 (Hx a) ltac:(left)) as H1.
      pose proof (proj2 (Hx b) ltac:(left)) as H2.
      apply elem_of_cons in H1, H2. destruct H1 as [->|H1]; [done|].
      destruct H2 as [->|H2]; [done|]. apply Hb in H1. apply Ha in H2. lia. }
    f_equal. apply IH; [done|done|]. intros x. specialize (Hx x).
    rewrite !elem_of_cons in Hx. split; intros Hin.
    + destruct Hx as [[->|?] _]; [by right| |done]. apply Ha in Hin. lia.
    + destruct Hx as [_ [->|?]]; [by right| |done]. apply Hb in Hin. lia.
Qed.

(** Sum of a list of integers. *)
Definition zsum (l : list Z) : Z := foldr Z.add 0 l.

Lemma zsum_app l k : zsum (l ++ k) = zsum l + zsum k.
Proof. unfold zsum. induction l as [|a l IH]; cbn; [|rewrite IH]; lia. Qed.

Lemma zsum_nonneg l : Forall (Z.le 0) l -> 0 <= zsum l.
Proof. unfold zsum. induction 1; cbn [foldr] in *; lia. Qed.

Lemma zsum_permutation l k : l ≡ₚ k -> zsum l = zsum k.
Proof. unfold zsum. induction 1; cbn [foldr] in *; lia. Qed.

#[global] Instance zsum_proper : Proper ((≡ₚ) ==> (=)) zsum.
Proof. intros l k. apply zsum_permutation. Qed.

(** * Maps

    [for k, v := range m] visits the entries of a map in some order. *)

Class MapRange := map_range : forall {A}, gmap string A -> list (string * A).

Class MapRangeOk (MR : MapRange) : Prop :=
  map_range_perm : forall A (m : gmap string A), map_range m ≡ₚ map_to_list m.

Lemma elem_of_map_range {MR : MapRange} {MRO : MapRangeOk MR} {A} (m : gmap string A) k v :
  (k, v) ∈ map_range m <-> m !! k = Some v.
Proof. rewrite (MRO _ m). apply elem_of_map_to_list. Qed.

Lemma NoDup_map_range {MR : MapRange} {MRO : MapRangeOk MR} {A} (m : gmap string A) : NoDup (map_range m).*1.
Proof. rewrite (MRO _ m). apply NoDup_fst_map_to_list. Qed.

(** The order of the library, for examples. *)
Definition list_range : MapRange := fun A m => map_to_list m.
Lemma list_range_ok : MapRangeOk list_range.
Proof. by intros A m. Qed.
