(* ===== verification/StateM.v ===== *)
(** Computations with state: a small monad for the Go code that changes shared
    objects. *)

From S2P Require Import Prelude.

(** A Go function that changes shared state: the state it leaves, also when it
    returns an error or panics, and its outcome. *)

Definition M (S A : Type) : Type := S -> S * outcome A.

Section monad.
Context {S : Type}.

Definition ret {A} (a : A) : M S A := fun s => (s, Ret a).
Definition fail {A} (e : error) : M S A := fun s => (s, Err e).
Definition panic {A} (p : string) : M S A := fun s => (s, Panic p).
Definition gets {A} (f : S -> A) : M S A := fun s => (s, Ret (f s)).
Definition modify (f : S -> S) : M S unit := fun s => (f s, Ret tt).
Definition of_outcome {A} (o : outcome A) : M S A := fun s => (s, o).

Definition bind {A B} (m : M S A) (f : A -> M S B) : M S B := fun s =>
  let '(s', o) := m s in
  match o with Ret a => f a s' | Err e => (s', Err e) | Panic p => (s', Panic p) end.

(** [v, err := m()], which goes on with the error. *)
Definition attempt {A} (m : M S A) : M S (outcome A) := fun s =>
  let '(s', o) := m s in
  match o with Panic p => (s', Panic p) | o => (s', Ret o) end.

(** [defer d()] before [m]: [d] runs when [m] has returned or panicked. *)
Definition deferred {A} (m : M S A) (d : M S unit) : M S A := fun s =>
  let '(s1, o) := m s in
  let '(s2, o') := d s1 in
  match o' with Panic p => (s2, Panic p) | _ => (s2, o) end.

(** [if err != nil { return fmt.Errorf("...: %v", err) }] *)
Definition wrapping {A} (fmt : string) (m : M S A) : M S A := fun s => let '(s', o) := m s in (s', wrap fmt o).

(** A computation on a part of the state. *)
Definition on {T A} (get : S -> T) (set : S -> T -> S) (m : M T A) : M S A := fun s =>
  let '(t, o) := m (get s) in (set s t, o).
End monad.

Notation "'let*' x := m 'in' k" := (bind m (fun x => k))
  (at level 10, x pattern, m at level 100, k at level 200,
   format "'[v' 'let*'  x  :=  m  'in' '/' k ']'").
Notation "m ;;* k" := (bind m (fun _ => k)) (at level 199, right associativity).
