(* ===== verification/Lru.v ===== *)
(** util/cache/lru_cache.go: a cache that drops the least recently used entries when
    the sizes of its values exceed its capacity. The elements of the linked list are
    shared with the table and live in a heap; the mutex makes every method one step.
    The cache refines a plain list of bindings in the order of their use. *)

From Stdlib Require Import String.
From S2P Require Import Prelude.

(** The interface [Value] *)
Class Sized (V : Type) := Size : V -> Z.

Section lru.
Context {V : Type} {SV : Sized V}.

Record entry := mk_entry { key : string; value : V; size_ : Z; timeAccessed : Z }.

(** [list] holds the addresses of the elements, the most recently used first. *)
Record LRUCache := mk_LRUCache {
  list_ : list positive;
  heap : gmap positive entry;
  table : gmap string positive;
  size : Z;
  capacity : Z;
  evictions : Z }.

Definition NewLRUCache (cap : Z) : LRUCache := mk_LRUCache [] ∅ ∅ 0 cap 0.

Definition deref (c : LRUCache) (e : positive) : outcome entry :=
  match heap c !! e with Some x => Ret x | None => Panic "nil pointer dereference" end.

(** [list.Remove] with [delete(table, key)] and the size taken off *)
Definition unlink (c : LRUCache) (e : positive) (x : entry) : LRUCache :=
  mk_LRUCache (filter (.≠ e) (list_ c)) (delete e (heap c)) (delete (key x) (table c))
    (i64 (size c - size_ x)) (capacity c) (evictions c).

Definition count_eviction (c : LRUCache) : LRUCache :=
  mk_LRUCache (list_ c) (heap c) (table c) (size c) (capacity c) (i64 (evictions c + 1)).

(** Every turn removes an element and the turn without one panics, so the number of
    elements bounds the loop. *)
Fixpoint check_loop (fuel : nat) (c : LRUCache) : outcome LRUCache :=
  match fuel with
  | O => Panic "out of fuel"
  | S fuel =>
      if capacity c <? size c then
        match last (list_ c) with
        | None => Panic "nil pointer dereference"
        | Some delElem =>
            delValue ← deref c delElem;
            check_loop fuel (count_eviction (unlink c delElem delValue))
        end
      else Ret c
  end.

Definition checkCapacity (c : LRUCache) : outcome LRUCache := check_loop (S (length (list_ c))) c.

Definition moveToFront (now : Z) (c : LRUCache) (e : positive) : outcome LRUCache :=
  x ← deref c e;
  Ret (mk_LRUCache (e :: filter (.≠ e) (list_ c))
         (<[e := mk_entry (key x) (value x) (size_ x) now]> (heap c)) (table c) (size c) (capacity c) (evictions c)).

Definition updateInplace (now : Z) (c : LRUCache) (e : positive) (v : V) : outcome LRUCache :=
  let valueSize := Size v in
  x ← deref c e;
  let sizeDiff := i64 (valueSize - size_ x) in
  let c := mk_LRUCache (list_ c) (<[e := mk_entry (key x) v valueSize (timeAccessed x)]> (heap c)) (table c)
             (i64 (size c + sizeDiff)) (capacity c) (evictions c) in
  c ← moveToFront now c e;
  checkCapacity c.

Definition addNew (now : Z) (c : LRUCache) (k : string) (v : V) : outcome LRUCache :=
  let e := fresh (dom (heap c)) in
  checkCapacity
    (mk_LRUCache (e :: list_ c) (<[e := mk_entry k v (Size v) now]> (heap c)) (<[k := e]> (table c))
       (i64 (size c + Size v)) (capacity c) (evictions c)).

Definition Get (now : Z) (c : LRUCache) (k : string) : outcome (LRUCache * option V) :=
  match table c !! k with
  | None => Ret (c, None)
  | Some e => c ← moveToFront now c e; x ← deref c e; Ret (c, Some (value x))
  end.

Definition Peek (c : LRUCache) (k : string) : outcome (option V) :=
  match table c !! k with
  | None => Ret None
  | Some e => x ← deref c e; Ret (Some (value x))
  end.

Definition Set_ (now : Z) (c : LRUCache) (k : string) (v : V) : outcome LRUCache :=
  match table c !! k with Some e => updateInplace now c e v | None => addNew now c k v end.

Definition SetIfAbsent (now : Z) (c : LRUCache) (k : string) (v : V) : outcome LRUCache :=
  match table c !! k with Some e => moveToFront now c e | None => addNew now c k v end.

Definition Delete (c : LRUCache) (k : string) : outcome (LRUCache * bool) :=
  match table c !! k with
  | None => Ret (c, false)
  | Some e => x ← deref c e; Ret (unlink c e x, true)
  end.

Definition Clear (c : LRUCache) : LRUCache := mk_LRUCache [] ∅ ∅ 0 (capacity c) (evictions c).

Definition SetCapacity (c : LRUCache) (cap : Z) : outcome LRUCache :=
  checkCapacity (mk_LRUCache (list_ c) (heap c) (table c) (size c) cap (evictions c)).

Definition Items (c : LRUCache) : outcome (list (string * V)) :=
  mapM (fun e => x ← deref c e; Ret (key x, value x)) (list_ c).

Definition Keys (c : LRUCache) : outcome (list string) := mapM (fun e => x ← deref c e; Ret (key x)) (list_ c).

(** The time of the element at the back, zero for an empty cache. *)
Definition Oldest (c : LRUCache) : outcome Z :=
  match last (list_ c) with None => Ret 0 | Some e => x ← deref c e; Ret (timeAccessed x) end.

(** * Specification

    The bindings in the order of their use, the latest first. *)

Abbreviation bindings := (list (string * V)).

Fixpoint total (l : bindings) : Z := match l with [] => 0 | p :: l => Size p.2 + total l end.

(** The longest beginning whose sizes fit. *)
Fixpoint fit (cap : Z) (l : bindings) : bindings :=
  match l with
  | [] => []
  | p :: l => if Size p.2 <=? cap then p :: fit (cap - Size p.2) l else []
  end.

Fixpoint assoc (k : string) (l : bindings) : option V :=
  match l with [] => None | p :: l => if decide (p.1 = k) then Some p.2 else assoc k l end.

Definition without (k : string) (l : bindings) : bindings := filter (fun p => p.1 ≠ k) l.

Inductive op :=
  | OGet (k : string) | OPeek (k : string) | OSet (k : string) (v : V) | OSetIfAbsent (k : string) (v : V)
  | ODelete (k : string) | OClear | OSetCapacity (cap : Z).

Inductive reply := RNone | RValue (v : option V) | RBool (b : bool).

Record spec := mk_spec { contents : bindings; limit : Z; dropped : Z }.

Definition shrunk (l : bindings) (cap n : Z) : spec :=
  mk_spec (fit cap l) cap (i64 (n + (zlen l - zlen (fit cap l)))).

Definition spec_step (s : spec) (o : op) : spec * reply :=
  let '(mk_spec l cap n) := s in
  match o with
  | OGet k => match assoc k l with
              | Some v => (mk_spec ((k, v) :: without k l) cap n, RValue (Some v))
              | None => (s, RValue None)
              end
  | OPeek k => (s, RValue (assoc k l))
  | OSet k v => (shrunk ((k, v) :: without k l) cap n, RNone)
  | OSetIfAbsent k v => match assoc k l with
                        | Some v' => (mk_spec ((k, v') :: without k l) cap n, RNone)
                        | None => (shrunk ((k, v) :: l) cap n, RNone)
                        end
  | ODelete k => match assoc k l with
                 | Some _ => (mk_spec (without k l) cap n, RBool true)
                 | None => (s, RBool false)
                 end
  | OClear => (mk_spec [] cap n, RNone)
  | OSetCapacity cap => (shrunk l cap n, RNone)
  end.

Definition step (now : Z) (c : LRUCache) (o : op) : outcome (LRUCache * reply) :=
  match o with
  | OGet k => '(c, v) ← Get now c k; Ret (c, RValue v)
  | OPeek k => v ← Peek c k; Ret (c, RValue v)
  | OSet k v => c ← Set_ now c k v; Ret (c, RNone)
  | OSetIfAbsent k v => c ← SetIfAbsent now c k v; Ret (c, RNone)
  | ODelete k => '(c, b) ← Delete c k; Ret (c, RBool b)
  | OClear => Ret (Clear c, RNone)
  | OSetCapacity cap => c ← SetCapacity c cap; Ret (c, RNone)
  end.

(** Operations with the times at which they run. *)
Fixpoint run (c : LRUCache) (os : list (Z * op)) : outcome (LRUCache * list reply) :=
  match os with
  | [] => Ret (c, [])
  | (now, o) :: os => '(c, r) ← step now c o; '(c, rs) ← run c os; Ret (c, r :: rs)
  end.

Fixpoint spec_run (s : spec) (os : list (Z * op)) : spec * list reply :=
  match os with
  | [] => (s, [])
  | (_, o) :: os => let '(s, r) := spec_step s o in let '(s, rs) := spec_run s os in (s, r :: rs)
  end.

(** Sizes and capacities are small enough for the sums. *)
Definition max_size : Z := 2 ^ 62.
Definition op_ok (o : op) : Prop :=
  match o with
  | OSet _ v | OSetIfAbsent _ v => 0 <= Size v < max_size
  | OSetCapacity cap => 0 <= cap < max_size
  | _ => True
  end.

(** * Representation *)

Definition holds (c : LRUCache) (e : positive) (p : string * V) : Prop :=
  exists t, heap c !! e = Some (mk_entry p.1 p.2 (Size p.2) t).

(** The cache represents the bindings. *)
Record rep (c : LRUCache) (l : bindings) : Prop := {
  rep_nodup : NoDup (list_ c);
  rep_items : Forall2 (holds c) (list_ c) l;
  rep_table : forall k e, table c !! k = Some e <-> e ∈ list_ c /\ key <$> heap c !! e = Some k;
  rep_keys : NoDup l.*1;
  rep_size : size c = total l }.

Definition sized (l : bindings) : Prop := Forall (fun p => 0 <= Size p.2 < max_size) l.

Lemma bindings_total_app l1 l2 : total (l1 ++ l2) = total l1 + total l2.
Proof. induction l1 as [|p l IH]; cbn; [done|]. rewrite IH. lia. Qed.

Lemma bindings_total_nonneg l : sized l -> 0 <= total l.
Proof. induction 1; cbn; lia. Qed.

Lemma without_absent k l : k ∉ l.*1 -> without k l = l.
Proof.
  intros Hk. unfold without. induction l as [|p l IH]; [done|]. cbn in Hk. rewrite not_elem_of_cons in Hk.
  rewrite filter_cons_True by naive_solver. f_equal. naive_solver.
Qed.

Lemma assoc_absent k l : k ∉ l.*1 -> assoc k l = None.
Proof.
  intros Hk. induction l as [|p l IH]; [done|]. cbn in *. rewrite not_elem_of_cons in Hk. rewrite decide_False by naive_solver. naive_solver.
Qed.

(** The binding of a key splits the bindings. *)
Lemma split_at k v l1 l2 : NoDup (l1 ++ (k, v) :: l2).*1 ->
  assoc k (l1 ++ (k, v) :: l2) = Some v /\ without k (l1 ++ (k, v) :: l2) = l1 ++ l2.
Proof.
  rewrite fmap_app, fmap_cons. intros Hn. apply NoDup_app in Hn as (_ & H1 & [H2 _]%NoDup_cons). split.
  - induction l1 as [|p l1 IH]; cbn; [by rewrite decide_True|]. rewrite decide_False; [apply IH; set_solver|].
    intros E. apply (H1 k); [rewrite <- E; set_solver|set_solver].
  - unfold without. rewrite filter_app, filter_cons_False by naive_solver. fold (without k l1) (without k l2).
    rewrite !without_absent; [done|done|]. intros Hk. apply (H1 k Hk). set_solver.
Qed.

Lemma filter_out (e : positive) es1 es2 : NoDup (es1 ++ e :: es2) -> filter (.≠ e) (es1 ++ e :: es2) = es1 ++ es2.
Proof.
  intros Hn. apply NoDup_app in Hn as (_ & H1 & [H2 _]%NoDup_cons).
  assert (forall es : list positive, e ∉ es -> filter (.≠ e) es = es) as K.
  { intros es He. induction es as [|x es IH]; [done|]. rewrite filter_cons_True by set_solver. f_equal. set_solver. }
  rewrite filter_app, filter_cons_False by naive_solver. rewrite !K; [done|done|]. intros He. apply (H1 e He). set_solver.
Qed.

Lemma rep_None c l k : rep c l -> table c !! k = None -> k ∉ l.*1.
Proof.
  intros H Hk Hin. apply list_elem_of_fmap in Hin as (p & -> & Hp). apply list_elem_of_lookup in Hp as (i & Hi).
  destruct (Forall2_lookup_r _ _ _ _ _ (rep_items _ _ H) Hi) as (e & He & t & Ht).
  assert (table c !! p.1 = Some e) by (apply (rep_table _ _ H); split; [by eapply list_elem_of_lookup_2|by rewrite Ht]). congruence.
Qed.

(** The element of a key splits the elements and the bindings at the same place. *)
Lemma rep_Some c l k e : rep c l -> table c !! k = Some e ->
  exists es1 es2 l1 l2 v t, list_ c = es1 ++ e :: es2 /\ l = l1 ++ (k, v) :: l2 /\
    heap c !! e = Some (mk_entry k v (Size v) t) /\ Forall2 (holds c) es1 l1 /\ Forall2 (holds c) es2 l2.
Proof.
  intros H Hk. apply (rep_table _ _ H) in Hk as [He Hx]. apply list_elem_of_split in He as (es1 & es2 & He).
  pose proof (rep_items _ _ H) as Hi. rewrite He in Hi. apply Forall2_app_inv_l in Hi as (l1 & l2' & H1 & H2 & ->).
  apply Forall2_cons_inv_l in H2 as ([k' v] & l2 & [t Ht] & H2 & ->). cbn in Ht. rewrite Ht in Hx. injection Hx as <-.
  by exists es1, es2, l1, l2, v, t.
Qed.

Lemma holds_ext c c' es l : Forall2 (holds c) es l -> (forall e, e ∈ es -> heap c' !! e = heap c !! e) -> Forall2 (holds c') es l.
Proof.
  intros H. induction H as [|e p es l [t He] H IH]; intros Hh; constructor; [|apply IH; set_solver].
  exists t. rewrite Hh by set_solver. done.
Qed.

Lemma NoDup_app_remove {A} (l1 l2 : list A) x : NoDup (l1 ++ x :: l2) -> NoDup (l1 ++ l2).
Proof. rewrite !NoDup_app, NoDup_cons. set_solver. Qed.

Lemma rep_front c es l e k v t tbl sz cap ev :
  NoDup es -> e ∉ es -> Forall2 (holds c) es l -> NoDup l.*1 -> k ∉ l.*1 ->
  (forall k' e', tbl !! k' = Some e' <-> k' = k /\ e' = e \/ e' ∈ es /\ key <$> heap c !! e' = Some k') ->
  sz = Size v + total l ->
  rep (mk_LRUCache (e :: es) (<[e := mk_entry k v (Size v) t]> (heap c)) tbl sz cap ev) ((k, v) :: l).
Proof.
  intros Hn He Hi Hk Hkl Ht Hs. split; cbn [list_ heap table size]; [by constructor| | |by constructor|done].
  - constructor; [exists t; apply lookup_insert_eq|]. apply (holds_ext c); [done|]. intros e' He'. apply lookup_insert_ne. by intros ->.
  - intros k' e'. rewrite Ht, elem_of_cons. destruct (decide (e' = e)) as [->|Hne].
    + rewrite lookup_insert_eq. cbn. naive_solver.
    + rewrite lookup_insert_ne by done. naive_solver.
Qed.

(** The keys of the other elements. *)
Lemma rep_rest c l k e es1 es2 : rep c l -> table c !! k = Some e -> list_ c = es1 ++ e :: es2 ->
  forall k' e', table c !! k' = Some e' <-> k' = k /\ e' = e \/ e' ∈ es1 ++ es2 /\ key <$> heap c !! e' = Some k'.
Proof.
  intros H Hk He k' e'. pose proof (rep_table _ _ H) as Ht. rewrite (Ht k' e'), He.
  apply Ht in Hk as [_ Hk]. rewrite !elem_of_app, elem_of_cons. split; [|naive_solver].
  intros [[?|[->|?]] ?]; [by eauto|left; by simplify_eq|by eauto].
Qed.

Lemma rep_unlink c l k e x :
  rep c l -> sized l -> total l <= max_i64 -> table c !! k = Some e -> heap c !! e = Some x -> rep (unlink c e x) (without k l).
Proof.
  intros H Hz Hl Hk Hx. destruct (rep_Some _ _ _ _ H Hk) as (es1 & es2 & l1 & l2 & v & t & He & -> & Hh & H1 & H2).
  rewrite Hx in Hh. injection Hh as ->. pose proof (rep_nodup _ _ H) as Hn. pose proof (rep_keys _ _ H) as Hkeys.
  destruct (split_at _ _ _ _ Hkeys) as [_ ->]. pose proof (rep_size _ _ H) as Hsz. rewrite !bindings_total_app in *. cbn [total snd] in *.
  pose proof (rep_rest _ _ _ _ _ _ H Hk He) as Hr. rewrite He in Hn.
  assert (e ∉ es1 ++ es2) as Hni by (apply NoDup_app in Hn as (? & ? & [? ?]%NoDup_cons); set_solver).
  apply Forall_app in Hz as [Hz1 [Hv Hz2]%Forall_cons]. apply bindings_total_nonneg in Hz1, Hz2. cbn in Hv.
  split; cbn [list_ heap table size unlink key size_].
  - rewrite He, filter_out by done. by eapply NoDup_app_remove.
  - rewrite He, filter_out by done. apply (holds_ext c); [by apply Forall2_app|]. intros e' He'. apply lookup_delete_ne. set_solver.
  - intros k' e'. rewrite He, filter_out, lookup_delete_Some, Hr by done.
    assert (table c !! k = Some e) as Hk2 by done. apply (rep_table _ _ H) in Hk2 as [_ Hke].
    destruct (decide (e' = e)) as [->|Hne]; [naive_solver|]. rewrite lookup_delete_ne by done. split; [naive_solver|].
    intros [Hin Hkey]. split; [|by eauto]. intros <-.
    assert (table c !! k = Some e') by (apply Hr; by eauto). congruence.
  - rewrite fmap_app in *. cbn in Hkeys. by eapply NoDup_app_remove.
  - rewrite bindings_total_app. rewrite i64_id; [lia|]. unfold max_size in *. unfold_int. lia.
Qed.

(** ** What fits *)

Lemma fit_all cap l : sized l -> total l <= cap -> fit cap l = l.
Proof.
  intros Hz. revert cap. induction Hz as [|p l Hp Hz IH]; intros cap Hl; [done|]. cbn [fit total] in *.
  apply bindings_total_nonneg in Hz. rewrite (proj2 (Z.leb_le _ _)) by lia. f_equal. apply IH. lia.
Qed.

Lemma fit_drop cap l p : sized (l ++ [p]) -> cap < total (l ++ [p]) -> fit cap (l ++ [p]) = fit cap l.
Proof.
  intros [Hz Hp]%Forall_app. revert cap. induction Hz as [|q l Hq Hz IH]; intros cap Hl; cbn [app fit total] in *.
  - rewrite (proj2 (Z.leb_gt _ _)) by lia. done.
  - destruct (_ <=? _); [|done]. f_equal. apply IH. lia.
Qed.

Lemma fit_total cap l : 0 <= cap -> total (fit cap l) <= cap.
Proof.
  revert cap. induction l as [|p l IH]; intros cap Hc; [done|]. cbn [fit]. destruct (_ <=? _) eqn:E; cbn [total]; [|lia].
  specialize (IH (cap - Size p.2)). lia.
Qed.

Lemma fit_prefix cap l : exists k, l = fit cap l ++ k.
Proof.
  revert cap. induction l as [|p l IH]; intros cap; [by exists []|]. cbn [fit]. destruct (_ <=? _); [|by eexists].
  destruct (IH (cap - Size p.2)) as (k & Hk). exists k. cbn. by rewrite <- Hk.
Qed.

Lemma fit_sized cap l : sized l -> sized (fit cap l).
Proof. destruct (fit_prefix cap l) as (k & Hk). intros H. rewrite Hk in H. by apply Forall_app in H as [? _]. Qed.

Lemma check_loop_fit fuel c l :
  rep c l -> sized l -> total l <= max_i64 -> 0 <= capacity c -> is_i64 (evictions c) -> (length l < fuel)%nat ->
  exists c', check_loop fuel c = Ret c' /\ rep c' (fit (capacity c) l) /\ capacity c' = capacity c /\
    evictions c' = i64 (evictions c + (zlen l - zlen (fit (capacity c) l))).
Proof.
  revert c l. induction fuel as [|fuel IH]; intros c l H Hz Hl Hc He Hf; [lia|]. cbn [check_loop]. rewrite (rep_size _ _ H).
  destruct (capacity c <? total l) eqn:E.
  - destruct l as [|p l _] using rev_ind; [cbn in E; lia|]. destruct p as [k v].
    pose proof (rep_items _ _ H) as Hi. apply Forall2_app_inv_r in Hi as (es & es2 & H1 & H2 & Hes).
    apply Forall2_cons_inv_r in H2 as (e & es3 & [t Ht] & H3 & ->). apply Forall2_nil_inv_r in H3 as ->. cbn in Ht.
    rewrite Hes, last_snoc. unfold deref. rewrite Ht. cbn [mbind outcome_bind].
    assert (table c !! k = Some e) as Hk by (apply (rep_table _ _ H); rewrite Hes, Ht; set_solver).
    pose proof (rep_unlink _ _ _ _ _ H Hz Hl Hk Ht) as Hu. destruct (split_at k v l [] (rep_keys _ _ H)) as [_ Ew].
    rewrite app_nil_r in Ew. rewrite Ew in Hu. pose proof (fit_drop (capacity c) l (k, v) Hz ltac:(lia)) as Ed. rewrite Ed.
    apply Forall_app in Hz as [Hz Hv]. rewrite Forall_singleton in Hv. rewrite bindings_total_app in *. cbn [total snd] in *.
    rewrite length_app in Hf. cbn [length] in Hf.
    destruct (IH (count_eviction (unlink c e (mk_entry k v (Size v) t))) l) as (c' & E1 & Hr & Hcap & Hev);
      [by destruct Hu|done|lia|done|apply i64_range|lia|].
    exists c'. split_and!; [done|done|done|]. rewrite Hev. cbn [evictions capacity count_eviction unlink].
    rewrite i64_add_l, zlen_app, zlen_cons. f_equal. change (zlen (@nil (string * V))) with 0. lia.
  - rewrite fit_all by (done || lia). exists c. split_and!; [done|done|done|]. rewrite Z.sub_diag, Z.add_0_r. by rewrite i64_id.
Qed.

Lemma checkCapacity_fit c l :
  rep c l -> sized l -> total l <= max_i64 -> 0 <= capacity c -> is_i64 (evictions c) ->
  exists c', checkCapacity c = Ret c' /\ rep c' (fit (capacity c) l) /\ capacity c' = capacity c /\
    evictions c' = i64 (evictions c + (zlen l - zlen (fit (capacity c) l))).
Proof.
  intros H Hz Hl Hc He. apply check_loop_fit; try done. rewrite (Forall2_length _ _ _ (rep_items _ _ H)). lia.
Qed.

(** ** Steps *)

(** A binding at the front in place of the one of its key. *)
Lemma rep_promote c l k e :
  rep c l -> table c !! k = Some e ->
  exists v t0, heap c !! e = Some (mk_entry k v (Size v) t0) /\ assoc k l = Some v /\
    total l = Size v + total (without k l) /\
    forall v' t sz cap ev, sz = Size v' + total (without k l) ->
      rep (mk_LRUCache (e :: filter (.≠ e) (list_ c)) (<[e := mk_entry k v' (Size v') t]> (heap c)) (table c) sz cap ev)
        ((k, v') :: without k l).
Proof.
  intros H Hk. destruct (rep_Some _ _ _ _ H Hk) as (es1 & es2 & l1 & l2 & v & t0 & He & -> & Hh & H1 & H2).
  pose proof (rep_nodup _ _ H) as Hn. pose proof (rep_keys _ _ H) as Hkeys.
  destruct (split_at _ _ _ _ Hkeys) as [-> ->]. exists v, t0. split_and!; [done|done|rewrite !bindings_total_app; cbn; lia|].
  intros v' t sz cap ev Hsz. rewrite He, filter_out by (by rewrite <- He). pose proof (rep_rest _ _ _ _ _ _ H Hk He) as Hr. rewrite He in Hn.
  rewrite fmap_app, fmap_cons in Hkeys. apply rep_front; try done.
  - by eapply NoDup_app_remove.
  - apply NoDup_app in Hn as (? & ? & [? ?]%NoDup_cons). set_solver.
  - by apply Forall2_app.
  - rewrite fmap_app. by eapply NoDup_app_remove.
  - rewrite fmap_app. apply NoDup_app in Hkeys as (? & ? & [? ?]%NoDup_cons). set_solver.
Qed.

Lemma assoc_elem k l v : assoc k l = Some v -> (k, v) ∈ l.
Proof.
  induction l as [|[k' v'] l IH]; cbn; [done|]. destruct (decide (k' = k)) as [->|]; [intros [= ->]; set_solver|set_solver].
Qed.

Lemma assoc_sized k l v : sized l -> assoc k l = Some v -> 0 <= Size v < max_size.
Proof. intros Hz Ha%assoc_elem. unfold sized in Hz. rewrite Forall_forall in Hz. exact (Hz _ Ha). Qed.

Definition refines (c : LRUCache) (s : spec) : Prop :=
  rep c (contents s) /\ sized (contents s) /\ total (contents s) <= limit s /\ 0 <= limit s < max_size /\
  capacity c = limit s /\ evictions c = dropped s /\ is_i64 (dropped s).

Lemma sized_without k l : sized l -> sized (without k l).
Proof.
  unfold sized. rewrite !Forall_forall. intros H p [_ Hp]%list_elem_of_filter. by apply H.
Qed.

Lemma check_refines c l cap n :
  rep c l -> sized l -> total l < max_size + max_size -> 0 <= cap < max_size -> capacity c = cap -> evictions c = n -> is_i64 n ->
  exists c', checkCapacity c = Ret c' /\ refines c' (shrunk l cap n).
Proof.
  intros H Hz Ht Hc <- <- Hn. destruct (checkCapacity_fit c l H Hz) as (c' & E & Hr & Hcap & Hev); [|lia|done|].
  { unfold max_size in Ht. unfold_int. lia. }
  exists c'. split; [done|]. split_and!; cbn [contents limit dropped shrunk]; try done; try lia; [by apply fit_sized|apply fit_total; lia|apply i64_range].
Qed.

Lemma moveToFront_refines now c s k e :
  refines c s -> table c !! k = Some e ->
  exists c' v t, moveToFront now c e = Ret c' /\ assoc k (contents s) = Some v /\ heap c' !! e = Some (mk_entry k v (Size v) t) /\
    refines c' (mk_spec ((k, v) :: without k (contents s)) (limit s) (dropped s)).
Proof.
  intros (H & Hz & Ht & Hl & Hc & He & Hd) Hk.
  destruct (rep_promote c _ k e H Hk) as (v & t0 & Hh & Ha & Htot & Hr).
  unfold moveToFront, deref. rewrite Hh. cbn [mbind outcome_bind key value size_].
  eexists _, v, now. split_and!; [done|done|apply lookup_insert_eq|]. assert (0 <= Size v < max_size) as Hv by (by eapply assoc_sized).
  split_and!; cbn [contents limit dropped capacity evictions]; try done; try lia.
  - apply Hr. by rewrite (rep_size _ _ H).
  - constructor; [done|by apply sized_without].
  - cbn [total snd]. lia.
Qed.

Lemma addNew_refines now c s k v :
  refines c s -> table c !! k = None -> 0 <= Size v < max_size ->
  assoc k (contents s) = None /\ without k (contents s) = contents s /\
  exists c', addNew now c k v = Ret c' /\ refines c' (shrunk ((k, v) :: contents s) (limit s) (dropped s)).
Proof.
  intros (H & Hz & Ht & Hl & Hc & He & Hd) Hk Hv. pose proof (rep_None _ _ _ H Hk) as Hni.
  split_and!; [by apply assoc_absent|by apply without_absent|]. pose proof (bindings_total_nonneg _ Hz).
  pose proof (is_fresh (dom (heap c))) as Hf. rewrite not_elem_of_dom in Hf. unfold addNew.
  apply check_refines; try done; [|by constructor|cbn [total snd]; lia].
  apply rep_front; try done; try apply H.
  - intros Hin. apply list_elem_of_lookup in Hin as (i & Hi).
    destruct (Forall2_lookup_l _ _ _ _ _ (rep_items _ _ H) Hi) as (p & _ & t & Hp). congruence.
  - intros k' e'. rewrite lookup_insert_Some, <- (rep_table _ _ H). split; [naive_solver|].
    intros [[-> ->]|E]; [by left|]. right. split; [congruence|done].
  - rewrite (rep_size _ _ H), i64_id; [lia|]. unfold max_size in *. unfold_int. lia.
Qed.

Lemma updateInplace_refines now c s k e v :
  refines c s -> table c !! k = Some e -> 0 <= Size v < max_size ->
  exists c', updateInplace now c e v = Ret c' /\ refines c' (shrunk ((k, v) :: without k (contents s)) (limit s) (dropped s)).
Proof.
  intros (H & Hz & Ht & Hl & Hc & He & Hd) Hk Hv. destruct (rep_promote c _ k e H Hk) as (v0 & t0 & Hh & Ha & Htot & Hr).
  unfold updateInplace, moveToFront, deref. rewrite Hh. cbn [mbind outcome_bind key size_ timeAccessed heap].
  rewrite lookup_insert_eq. cbn [mbind outcome_bind list_ heap table size capacity evictions key value size_].
  pose proof (bindings_total_nonneg _ (sized_without k _ Hz)). pose proof (bindings_total_nonneg _ Hz).
  apply check_refines; try done; [|constructor; [done|by apply sized_without]|].
  - rewrite insert_insert_eq. apply Hr. rewrite (rep_size _ _ H), i64_add_r, i64_id; [lia|].
    pose proof (assoc_sized _ _ _ Hz Ha).
    unfold max_size in *. unfold_int. lia.
  - cbn [total snd]. pose proof (assoc_sized _ _ _ Hz Ha). lia.
Qed.

Lemma lru_step_refines now c s o :
  refines c s -> op_ok o ->
  exists c', step now c o = Ret (c', (spec_step s o).2) /\ refines c' (spec_step s o).1.
Proof.
  intros R Ho. pose proof R as (H & Hz & Ht & Hl & Hc & He & Hd). destruct s as [l cap n]. cbn [contents limit dropped] in *.
  pose proof (fun k Hk => assoc_absent k l (rep_None c l k H Hk)) as Hnone.
  destruct o as [k|k|k v|k v|k| |cap']; cbn [step spec_step op_ok] in *.
  - unfold Get. destruct (table c !! k) as [e|] eqn:Hk; [|rewrite (Hnone k Hk); by exists c].
    destruct (moveToFront_refines now c _ k e R Hk) as (c' & v & t & E & Ha & Hh & R'). cbn [contents] in *.
    rewrite E, Ha. unfold deref. cbn [mbind outcome_bind]. rewrite Hh. by exists c'.
  - unfold Peek. destruct (table c !! k) as [e|] eqn:Hk; [|rewrite (Hnone k Hk); by exists c].
    destruct (rep_promote c l k e H Hk) as (v & t & Hh & Ha & _). unfold deref. rewrite Hh, Ha. by exists c.
  - unfold Set_. destruct (table c !! k) as [e|] eqn:Hk.
    + destruct (updateInplace_refines now c _ k e v R Hk Ho) as (c' & -> & R'). by exists c'.
    + destruct (addNew_refines now c _ k v R Hk Ho) as (_ & Hw & c' & -> & R'). cbn [contents] in *. rewrite Hw. by exists c'.
  - unfold SetIfAbsent. destruct (table c !! k) as [e|] eqn:Hk.
    + destruct (moveToFront_refines now c _ k e R Hk) as (c' & v' & t & E & Ha & Hh & R'). cbn [contents] in *. rewrite E, Ha. by exists c'.
    + destruct (addNew_refines now c _ k v R Hk Ho) as (_ & _ & c' & -> & R'). rewrite (Hnone k Hk). by exists c'.
  - unfold Delete. destruct (table c !! k) as [e|] eqn:Hk; [|rewrite (Hnone k Hk); by exists c].
    destruct (rep_promote c l k e H Hk) as (v & t & Hh & Ha & Htot & _). unfold deref. rewrite Hh, Ha.
    exists (unlink c e (mk_entry k v (Size v) t)). split; [done|]. pose proof (assoc_sized _ _ _ Hz Ha).
    split_and!; cbn [contents limit dropped fst]; try done; try lia; [|by apply sized_without].
    apply rep_unlink; try done. unfold max_size in Hl. unfold_int. lia.
  - exists (Clear c). split; [done|]. split_and!; cbn; try done; try lia; [|constructor].
    split; cbn; [constructor|constructor| |constructor|done]. intros k e. rewrite lookup_empty. set_solver.
  - pose proof (bindings_total_nonneg _ Hz).
    destruct (check_refines (mk_LRUCache (list_ c) (heap c) (table c) (size c) cap' (evictions c)) l cap' n) as (c' & E & R');
      try done; [by destruct H|lia|].
    unfold SetCapacity. rewrite E. by exists c'.
Qed.

Lemma lru_run_refines os c s :
  refines c s -> Forall (fun p => op_ok p.2) os ->
  exists c', run c os = Ret (c', (spec_run s os).2) /\ refines c' (spec_run s os).1.
Proof.
  intros R Ho. revert c s R. induction Ho as [|[now o] os Ho Hos IH]; intros c s R; [by exists c|]. cbn [run spec_run].
  destruct (lru_step_refines now c s o R Ho) as (c1 & -> & R1). cbn [mbind outcome_bind].
  destruct (spec_step s o) as [s1 r]. cbn [fst snd] in *.
  destruct (IH c1 s1 R1) as (c2 & -> & R2). destruct (spec_run s1 os) as [s2 rs]. by exists c2.
Qed.

Lemma rep_Items c l : rep c l -> Items c = Ret l.
Proof.
  intros H. apply mapM_Ret. eapply Forall2_impl; [apply (rep_items _ _ H)|]. intros e [k v] [t Ht]. unfold deref. by rewrite Ht.
Qed.

Lemma new_refines cap : 0 <= cap < max_size -> refines (NewLRUCache cap) (mk_spec [] cap 0).
Proof.
  intros Hc. split_and!; cbn; try done; try lia; [|constructor]. split; cbn; [constructor|constructor| |constructor|done].
  intros k e. rewrite lookup_empty. set_solver.
Qed.

(** C17: the cache behaves as a list of bindings in the order of their use: every
    sequence of operations gives the replies of the list, never panics, and leaves the
    longest beginning of the list whose sizes fit the capacity; what is evicted is what
    was used least recently, and every eviction is counted. *)
Theorem lru_refines (cap : Z) (os : list (Z * op)) :
  0 <= cap < max_size -> Forall (fun p => op_ok p.2) os ->
  exists c, run (NewLRUCache cap) os = Ret (c, (spec_run (mk_spec [] cap 0) os).2) /\
    let s := (spec_run (mk_spec [] cap 0) os).1 in
    Items c = Ret (contents s) /\ size c = total (contents s) /\ size c <= capacity c /\
    capacity c = limit s /\ evictions c = dropped s.
Proof.
  intros Hc Ho. destruct (lru_run_refines os _ _ (new_refines cap Hc) Ho) as (c & E & H & Hz & Ht & Hl & Hcap & He & _).
  exists c. split; [done|]. cbn zeta. pose proof (rep_size _ _ H). split_and!; [by apply rep_Items|done|lia|done|done].
Qed.

(** A negative capacity empties the cache and then takes the back of an empty list. *)
Theorem negative_capacity_panics (cap n : Z) :
  n < 0 -> SetCapacity (NewLRUCache cap) n = Panic "nil pointer dereference".
Proof. intros Hn. unfold SetCapacity, checkCapacity. cbn. by rewrite (proj2 (Z.ltb_lt _ _)). Qed.
End lru.

(** StringValue *)
#[export] Instance string_sized : Sized string := fun s => Z.of_nat (String.length s).

(** Three values of sizes 2, 1 and 2 in a cache of capacity 4: the first one was read
    in between, so the second one goes. *)
Lemma lru_refines_witness :
  exists c, run (NewLRUCache 4) [(1, OSet "a" "xx"); (2, OSet "b" "y"); (3, OGet "a"); (4, OSet "c" "zz")]%string =
      Ret (c, [RNone; RNone; RValue (Some "xx"); RNone]%string) /\
    Items c = Ret [("c", "zz"); ("a", "xx")]%string /\ evictions c = 1.
Proof.
  destruct (lru_refines 4 [(1, OSet "a" "xx"); (2, OSet "b" "y"); (3, OGet "a"); (4, OSet "c" "zz")]%string)
    as (c & E & HI & _ & _ & _ & Hev); [split; vm_compute; done|repeat constructor; vm_compute; done|].
  exists c. split; [exact E|]. split; [exact HI|exact Hev].
Defined.
