(* ===== verification/Bucket.v ===== *)
(** util/bucketpool/bucketpool.go: pools of buffers by size, from which packets are
    written and read. A buffer is its bytes up to its capacity. What [sync.Pool] gives
    back is any of the buffers it holds, and it may forget them. *)

From Stdlib Require Import String.
From S2P Require Import Prelude.

Record sizedPool := mk_sizedPool { size : Z; pool : list (list Z) }.

Record Pool := mk_Pool { minSize : Z; maxSize : Z; pools : list sizedPool }.

(** [curSize] doubles, so that 64 turns are enough for the sizes of a machine. *)
Fixpoint bucket_sizes (fuel : nat) (curSize maxSize : Z) : outcome (list Z) :=
  match fuel with
  | O => Panic "out of fuel"
  | S fuel =>
      if curSize <? maxSize then l ← bucket_sizes fuel (curSize * 2) maxSize; Ret (curSize :: l)
      else Ret [maxSize]
  end.

Definition New (minSize maxSize : Z) : outcome Pool :=
  if maxSize <? minSize then Panic "maxSize can't be less than minSize" else
  l ← bucket_sizes 64 minSize maxSize;
  Ret (mk_Pool minSize maxSize (map (fun n => mk_sizedPool n []) l)).

(** [math.Ceil(math.Log2(size / minSize))], not below zero: the exponent of the least
    power of two that is not below the quotient, exactly. The code divides floats; for a
    [minSize] that is a power of two (the code uses 128) the quotients are exact, and for
    any other the float is near enough to give the same number for sizes far below 2^53. *)
Definition ceil_log2 (size minSize : Z) : Z :=
  if size <=? minSize then 0 else Z.log2_up ((size + minSize - 1) / minSize).

(** The index of the pool. *)
Definition findPool (p : Pool) (size : Z) : option nat :=
  if maxSize p <? size then None else
  let idx := ceil_log2 size (minSize p) in
  if zlen (pools p) - 1 <? idx then None else Some (Z.to_nat idx).

Definition makeSlicePointer (size : Z) : list Z := replicate (Z.to_nat size) 0.

(** [( *buf )[:size]] *)
Definition cut_to (b : list Z) (size : Z) : outcome (list Z) :=
  if zlen b <? size then Panic "slice bounds out of range" else Ret (take (Z.to_nat size) b).

Definition take_out (p : Pool) (i : nat) (l : list (list Z)) : Pool :=
  mk_Pool (minSize p) (maxSize p) (alter (fun sp => mk_sizedPool (size sp) l) i (pools p)).

(** [Get] of a size: the buffer [b], of which the caller sees the slice [o], and the
    pool after it. *)
Inductive Get (p : Pool) (n : Z) : list Z -> outcome (list Z) -> Pool -> Prop :=
| Get_made : findPool p n = None -> Get p n (makeSlicePointer n) (Ret (makeSlicePointer n)) p
| Get_new i sp :
    findPool p n = Some i -> pools p !! i = Some sp ->
    Get p n (makeSlicePointer (size sp)) (cut_to (makeSlicePointer (size sp)) n) p
| Get_pooled i sp l1 b l2 :
    findPool p n = Some i -> pools p !! i = Some sp -> pool sp = l1 ++ b :: l2 ->
    Get p n b (cut_to b n) (take_out p i (l1 ++ l2)).

Definition Put (p : Pool) (b : list Z) : Pool :=
  match findPool p (zlen b) with
  | None => p
  | Some i => mk_Pool (minSize p) (maxSize p) (alter (fun sp => mk_sizedPool (size sp) (b :: pool sp)) i (pools p))
  end.

(** ** Runs *)

(** The pool with the buffers that are in use; those are written to, which keeps their
    capacity. *)
Inductive step : Pool * list (list Z) -> Pool * list (list Z) -> Prop :=
| step_get p n b s p' l : 0 <= n -> Get p n b (Ret s) p' -> step (p, l) (p', b :: l)
| step_put p b l1 l2 : step (p, l1 ++ b :: l2) (Put p b, l1 ++ l2)
| step_write p b b' l1 l2 : zlen b' = zlen b -> step (p, l1 ++ b :: l2) (p, l1 ++ b' :: l2)
| step_forget p i sp l l' : pools p !! i = Some sp -> l' ⊆ pool sp -> step (p, l) (take_out p i l', l).

(** * The sizes of the buckets *)

Lemma bucket_sizes_spec fuel cur mx l :
  0 < cur <= mx -> bucket_sizes fuel cur mx = Ret l ->
  exists n, length l = S n /\ (forall i, (i < n)%nat -> l !! i = Some (cur * 2 ^ Z.of_nat i)) /\ l !! n = Some mx /\
    mx <= cur * 2 ^ Z.of_nat n /\ (n = O \/ cur * 2 ^ (Z.of_nat n - 1) < mx).
Proof.
  revert cur l. induction fuel as [|fuel IH]; intros cur l Hc H; [done|]. cbn [bucket_sizes] in H.
  destruct (cur <? mx) eqn:E.
  - destruct (bucket_sizes fuel (cur * 2) mx) as [l'| |] eqn:El; [|done..]. injection H as <-.
    destruct (Z.leb_spec (cur * 2) mx) as [Hle|Hgt].
    + destruct (IH (cur * 2) l' ltac:(lia) El) as (n & Hn & Hl & Hm & Hb & Hlow). exists (S n). split_and!.
      * cbn. lia.
      * intros [|i] Hi; [by rewrite Z.mul_1_r|]. cbn [lookup list_lookup]. rewrite Hl by lia. f_equal. rewrite Nat2Z.inj_succ, Z.pow_succ_r by lia. lia.
      * done.
      * rewrite Nat2Z.inj_succ, Z.pow_succ_r by lia. lia.
      * right. destruct Hlow as [->|Hlow]; [cbn; lia|]. rewrite Nat2Z.inj_succ.
        destruct n as [|n]; [cbn; lia|]. replace (Z.succ (Z.of_nat (S n)) - 1) with (Z.succ (Z.of_nat (S n) - 1)) by lia.
        rewrite Z.pow_succ_r by lia. lia.
    + assert (l' = [mx]) as ->.
      { destruct fuel; [done|]. cbn [bucket_sizes] in El. rewrite (proj2 (Z.ltb_ge _ _)) in El by lia. by injection El as <-. }
      exists 1%nat. split_and!; [done| |done|cbn; lia|right; cbn; lia]. intros [|i] Hi; [by rewrite Z.mul_1_r|lia].
  - injection H as <-. exists O. split_and!; [done|intros; lia|done|cbn; lia|by left].
Qed.

Definition sizes (p : Pool) : list Z := map size (pools p).

(** The buckets hold the smallest size doubled, the last one the greatest size. *)
Record layout (p : Pool) (n : nat) : Prop := {
  layout_min : 0 < minSize p <= maxSize p;
  layout_length : length (sizes p) = S n;
  layout_low i : (i < n)%nat -> sizes p !! i = Some (minSize p * 2 ^ Z.of_nat i);
  layout_last : sizes p !! n = Some (maxSize p);
  layout_enough : maxSize p <= minSize p * 2 ^ Z.of_nat n;
  layout_more : n = O \/ minSize p * 2 ^ (Z.of_nat n - 1) < maxSize p }.

Lemma New_layout mn mx p : 0 < mn -> New mn mx = Ret p -> exists n, layout p n.
Proof.
  intros Hm. unfold New. destruct (mx <? mn) eqn:E; [done|]. destruct (bucket_sizes 64 mn mx) as [l| |] eqn:El; [|done..].
  cbn [mbind outcome_bind]. intros [= <-]. destruct (bucket_sizes_spec 64 mn mx l ltac:(lia) El) as (n & Hn & Hl & Hx & Hb & Hlow).
  assert (sizes (mk_Pool mn mx (map (fun k => mk_sizedPool k []) l)) = l) as Es by (unfold sizes; cbn; rewrite map_map; apply map_id).
  exists n. split; cbn [minSize maxSize]; rewrite ?Es; try done. lia.
Qed.

Lemma ceil_log2_up m mn : 0 < mn -> 0 <= ceil_log2 m mn /\ m <= mn * 2 ^ ceil_log2 m mn.
Proof.
  intros Hn. unfold ceil_log2. destruct (m <=? mn) eqn:E; [cbn; lia|]. split; [apply Z.log2_up_nonneg|].
  pose proof (Z.div_mod (m + mn - 1) mn ltac:(lia)). pose proof (Z.mod_pos_bound (m + mn - 1) mn Hn).
  assert (1 < (m + mn - 1) / mn) as Hq by nia. destruct (Z.log2_up_spec _ Hq). nia.
Qed.

Lemma ceil_log2_unique m mn k : 0 < mn -> 0 < k -> mn * 2 ^ (k - 1) < m <= mn * 2 ^ k -> ceil_log2 m mn = k.
Proof.
  intros Hn Hk Hm. unfold ceil_log2. pose proof (Z.pow_pos_nonneg 2 (k - 1) ltac:(lia) ltac:(lia)).
  rewrite (proj2 (Z.leb_gt _ _)) by nia.
  pose proof (Z.div_mod (m + mn - 1) mn ltac:(lia)). pose proof (Z.mod_pos_bound (m + mn - 1) mn Hn).
  apply Z.log2_up_unique; [done|]. rewrite <- Z.sub_1_r. split; nia.
Qed.

Lemma sizes_lookup p i s : sizes p !! i = Some s <-> exists sp, pools p !! i = Some sp /\ size sp = s.
Proof. unfold sizes. change (map size (pools p)) with (size <$> pools p). rewrite list_lookup_fmap_Some. naive_solver. Qed.

Lemma find_fits p n m i : layout p n -> findPool p m = Some i -> exists s, sizes p !! i = Some s /\ m <= s.
Proof.
  intros L. unfold findPool. destruct (maxSize p <? m) eqn:E1; [done|]. destruct (zlen (pools p) - 1 <? _) eqn:E2; [done|].
  intros [= <-]. pose proof (layout_min _ _ L). destruct (ceil_log2_up m (minSize p)) as [H0 H1]; [lia|].
  assert (zlen (pools p) = Z.of_nat (S n)) as Hz.
  { rewrite <- (layout_length _ _ L). unfold zlen, sizes. by rewrite length_map. }
  destruct (decide (ceil_log2 m (minSize p) = Z.of_nat n)) as [En|En].
  - rewrite En, Nat2Z.id. exists (maxSize p). split; [apply L|lia].
  - exists (minSize p * 2 ^ ceil_log2 m (minSize p)). split; [|done].
    rewrite (layout_low _ _ L) by lia. by rewrite Z2Nat.id.
Qed.

Lemma find_bucket p n i s : layout p n -> sizes p !! i = Some s -> findPool p s = Some i.
Proof.
  intros L Hs. pose proof (layout_min _ _ L) as Hm. pose proof (lookup_lt_Some _ _ _ Hs) as Hi. rewrite (layout_length _ _ L) in Hi.
  assert (zlen (pools p) = Z.of_nat (S n)) as Hz.
  { rewrite <- (layout_length _ _ L). unfold zlen, sizes. by rewrite length_map. }
  enough (s <= maxSize p /\ ceil_log2 s (minSize p) = Z.of_nat i) as [H1 H2].
  { unfold findPool. rewrite (proj2 (Z.ltb_ge _ _)) by lia. rewrite H2, Hz, (proj2 (Z.ltb_ge _ _)) by lia. by rewrite Nat2Z.id. }
  pose proof (layout_more _ _ L) as Hmore. pose proof (layout_enough _ _ L) as Hen.
  destruct (decide (i = n)) as [->|Hne].
  - rewrite (layout_last _ _ L) in Hs. injection Hs as <-. split; [lia|]. destruct n as [|n].
    + unfold ceil_log2. cbn in Hen. rewrite (proj2 (Z.leb_le _ _)) by lia. done.
    + destruct Hmore as [|Hmore]; [done|]. apply ceil_log2_unique; lia.
  - rewrite (layout_low _ _ L) in Hs by lia. injection Hs as <-. destruct Hmore as [->|Hmore]; [lia|].
    assert (2 ^ Z.of_nat i <= 2 ^ (Z.of_nat n - 1)) by (apply Z.pow_le_mono_r; lia). split; [nia|].
    destruct i as [|i]; [unfold ceil_log2; by rewrite Z.mul_1_r, Z.leb_refl|].
    apply ceil_log2_unique; [lia|lia|]. split; [|lia].
    assert (2 ^ (Z.of_nat (S i) - 1) < 2 ^ Z.of_nat (S i)) by (apply Z.pow_lt_mono_r; lia). nia.
Qed.

(** * Invariant *)

(** A buffer is as long as its bucket says; one in use may also be too long for every
    bucket. *)
Definition inv (n : nat) (s : Pool * list (list Z)) : Prop :=
  layout s.1 n /\
  (forall i sp b, pools s.1 !! i = Some sp -> b ∈ pool sp -> zlen b = size sp) /\
  (forall b, b ∈ s.2 -> maxSize s.1 < zlen b \/ exists i, sizes s.1 !! i = Some (zlen b)).

Lemma sizes_alter f i (l : list sizedPool) :
  (forall sp, size (f sp) = size sp) -> map size (alter f i l) = map size l.
Proof.
  intros Hf. revert i. induction l as [|sp l IH]; intros [|i]; cbn; [done|done|by rewrite Hf|f_equal; apply IH].
Qed.

Lemma layout_ext p p' n :
  layout p n -> minSize p' = minSize p -> maxSize p' = maxSize p -> sizes p' = sizes p -> layout p' n.
Proof. intros [] E1 E2 E3. split; by rewrite ?E1, ?E2, ?E3. Qed.

(** The content of a bucket is replaced by buffers of its size. *)
Lemma inv_replace n p l l' i g :
  inv n (p, l) -> (forall sp, pools p !! i = Some sp -> forall b, b ∈ g sp -> zlen b = size sp) ->
  (forall b, b ∈ l' -> maxSize p < zlen b \/ exists i, sizes p !! i = Some (zlen b)) ->
  inv n (mk_Pool (minSize p) (maxSize p) (alter (fun sp => mk_sizedPool (size sp) (g sp)) i (pools p)), l').
Proof.
  intros (L & Hp & Hl) Hg Hl'. assert (forall q, sizes (mk_Pool (minSize p) (maxSize p) q) = map size q) as Es by done.
  unfold inv. cbn [fst snd pools maxSize]. rewrite Es, sizes_alter by done. split_and!; [|intros j sp b|exact Hl'].
  - eapply layout_ext; [exact L|done|done|]. by rewrite Es, sizes_alter.
  - destruct (decide (i = j)) as [<-|Hne].
    + rewrite list_lookup_alter_eq. intros (sp0 & E & ->)%fmap_Some_1 Hb. cbn [pool size] in *. by apply (Hg sp0).
    + rewrite list_lookup_alter_ne by done. intros E Hb. by eapply Hp.
Qed.

Lemma zlen_made n : 0 <= n -> zlen (makeSlicePointer n) = n.
Proof. intros Hn. unfold makeSlicePointer, zlen. rewrite length_replicate. lia. Qed.

Lemma layout_size_nonneg p n i s : layout p n -> sizes p !! i = Some s -> 0 <= s.
Proof.
  intros L Hs. pose proof (layout_min _ _ L). pose proof (lookup_lt_Some _ _ _ Hs) as Hi. rewrite (layout_length _ _ L) in Hi.
  destruct (decide (i = n)) as [->|]; [rewrite (layout_last _ _ L) in Hs; injection Hs as <-; lia|].
  rewrite (layout_low _ _ L) in Hs by lia. injection Hs as <-. pose proof (Z.pow_nonneg 2 (Z.of_nat i)). nia.
Qed.

(** A size without a bucket is a large one. *)
Lemma find_none p n m : layout p n -> findPool p m = None -> maxSize p < m.
Proof.
  intros L. pose proof (layout_min _ _ L) as Hm. unfold findPool. destruct (maxSize p <? m) eqn:E; [intros _; lia|].
  destruct (zlen (pools p) - 1 <? _) eqn:E2; [|done]. intros _. exfalso.
  assert (zlen (pools p) = Z.of_nat (S n)) as Hz by (rewrite <- (layout_length _ _ L); unfold zlen, sizes; by rewrite length_map).
  rewrite Hz in E2. unfold ceil_log2 in E2. revert E2. destruct (m <=? minSize p) eqn:E3; intros E2%Z.ltb_lt; [lia|].
  assert (Z.log2_up ((m + minSize p - 1) / minSize p) <= Z.of_nat n); [|lia].
  rewrite <- (Z.log2_up_pow2 (Z.of_nat n)) by lia. apply Z.log2_up_le_mono.
  pose proof (layout_enough _ _ L). enough ((m + minSize p - 1) / minSize p < 2 ^ Z.of_nat n + 1) by lia.
  apply Z.div_lt_upper_bound; nia.
Qed.

(** What [Get] gives: a buffer of the invariant, of which the caller sees a slice of
    the size it asked for. *)
Lemma Get_spec n p l m b o p' :
  inv n (p, l) -> 0 <= m -> Get p m b o p' -> (exists s, o = Ret s /\ zlen s = m) /\ inv n (p', b :: l).
Proof.
  intros I Hm H. pose proof I as (L & Hp & Hl). cbn [fst snd] in *.
  assert (forall b, m <= zlen b -> exists s, cut_to b m = Ret s /\ zlen s = m) as Hcut.
  { intros b' Hb. unfold cut_to. rewrite (proj2 (Z.ltb_ge _ _)) by lia. eexists. split; [done|]. unfold zlen in *. rewrite length_take. lia. }
  destruct H as [Hf|i sp Hf Hi|i sp l1 b l2 Hf Hi Hb].
  - pose proof (find_none _ _ _ L Hf). split; [exists (makeSlicePointer m); by rewrite zlen_made|].
    split_and!; [done|done|]. cbn [fst snd]. intros b [->|Hb]%elem_of_cons; [left; by rewrite zlen_made|by apply Hl].
  - destruct (find_fits _ _ _ _ L Hf) as (s & Hs & Hms).
    assert (size sp = s) as Esz by (apply sizes_lookup in Hs as (sp' & E & <-); by simplify_eq). pose proof (layout_size_nonneg _ _ _ _ L Hs).
    split; [apply Hcut; rewrite zlen_made; lia|]. split_and!; [done|done|]. cbn [fst snd].
    intros b [->|Hb]%elem_of_cons; [|by apply Hl]. right. exists i. by rewrite zlen_made, Esz by lia.
  - destruct (find_fits _ _ _ _ L Hf) as (s & Hs & Hms).
    assert (size sp = s) as Esz by (apply sizes_lookup in Hs as (sp' & E & <-); by simplify_eq).
    assert (zlen b = s) as Hbs by (rewrite <- Esz; eapply Hp; [exact Hi|rewrite Hb; set_solver]).
    split; [apply Hcut; lia|]. apply (inv_replace n p l _ i (fun _ => l1 ++ l2)); [done| |].
    + intros sp' Hi' b' Hb'. eapply Hp; [exact Hi'|]. assert (sp' = sp) as -> by congruence. rewrite Hb. set_solver.
    + intros b' [->|Hb']%elem_of_cons; [|by apply Hl]. right. exists i. by rewrite Hbs.
Qed.

Lemma bucket_step_inv n s s' : inv n s -> step s s' -> inv n s'.
Proof.
  intros I H. destruct H as [p m b s p' l Hm Hg|p b l1 l2|p b b' l1 l2 Hz|p i sp l l' Hi Hsub].
  - by destruct (Get_spec _ _ _ _ _ _ _ I Hm Hg).
  - pose proof I as (L & Hp & Hl). cbn [fst snd] in *. unfold Put.
    assert (forall b', b' ∈ l1 ++ l2 -> maxSize p < zlen b' \/ exists i, sizes p !! i = Some (zlen b')) as Hrest by (intros b' Hb'; apply Hl; set_solver).
    destruct (Hl b ltac:(set_solver)) as [Hbig|(i & Hi)].
    + unfold findPool. rewrite (proj2 (Z.ltb_lt _ _)) by lia. by split_and!.
    + rewrite (find_bucket _ _ _ _ L Hi). apply (inv_replace n p _ _ i (fun sp => b :: pool sp) I); [|done].
      intros sp Hsp b' [->|Hb']%elem_of_cons; [|by eapply Hp]. apply sizes_lookup in Hi as (sp' & E & <-). by simplify_eq.
  - pose proof I as (L & Hp & Hl). split_and!; [done|done|]. cbn [fst snd] in *. intros b0 Hb0.
    destruct (decide (b0 = b')) as [->|Hne]; [rewrite Hz; apply Hl; set_solver|apply Hl; set_solver].
  - pose proof I as (L & Hp & Hl). apply (inv_replace n p l l i (fun _ => l') I); [|exact Hl].
    intros sp' Hi' b Hb. eapply Hp; [exact Hi'|]. assert (sp' = sp) as -> by congruence. by apply Hsub.
Qed.

Lemma bucket_steps_inv n s s' : inv n s -> rtc step s s' -> inv n s'.
Proof. intros I H. induction H; [done|]. eauto using bucket_step_inv. Qed.

(** * Properties *)

(** C38: whatever buffers were taken, written to, put back and forgotten before, [Get] of a
    size never panics and gives a slice of exactly that size. *)
Theorem Get_length (mn mx : Z) (p0 p : Pool) (l : list (list Z)) (m : Z) :
  0 < mn -> New mn mx = Ret p0 -> rtc step (p0, []) (p, l) -> 0 <= m ->
  (exists b o p', Get p m b o p') /\ forall b o p', Get p m b o p' -> exists s, o = Ret s /\ zlen s = m.
Proof.
  intros Hmn Hnew Hr Hm. destruct (New_layout _ _ _ Hmn Hnew) as (n & L).
  assert (inv n (p0, [])) as I0.
  { split_and!; [done| |set_solver]. cbn [fst]. intros i sp b Hi Hb. exfalso. revert Hnew. unfold New.
    destruct (mx <? mn); [done|]. destruct (bucket_sizes 64 mn mx) as [k| |]; [|done..]. cbn [mbind outcome_bind]. intros [= <-].
    cbn [pools] in Hi. apply (list_lookup_fmap_Some (fun n => mk_sizedPool n [])) in Hi as (? & -> & _). set_solver. }
  assert (inv n (p, l)) as I by (by eapply bucket_steps_inv).
  split; [|intros b o p' Hg; by destruct (Get_spec _ _ _ _ _ _ _ I Hm Hg)].
  destruct (findPool p m) as [i|] eqn:E; [|eexists _, _, _; by apply Get_made].
  destruct I as (L' & _). destruct (find_fits _ _ _ _ L' E) as (s & (sp & Hi & _)%sizes_lookup & _).
  eexists _, _, _. by eapply Get_new.
Qed.

(** [Put] looks for a bucket by the rounded up size: a buffer of another size ends in
    a bucket whose buffers are longer, and a later [Get] panics. *)
Example foreign_buffer_panics :
  exists p b p', New 128 1024 = Ret p /\ Get (Put p (makeSlicePointer 200)) 250 b (Panic "slice bounds out of range") p'.
Proof.
  eexists _, (makeSlicePointer 200), _. split; [reflexivity|].
  change (Panic "slice bounds out of range") with (cut_to (makeSlicePointer 200) 250).
  by eapply (Get_pooled _ _ 1 (mk_sizedPool 256 [makeSlicePointer 200]) [] _ []).
Qed.

(** The pool of the connections: a buffer is put back and taken again. *)
Lemma Get_length_witness :
  exists p b o p', New 128 (2 ^ 24 - 1) = Ret p /\ Get (Put p (makeSlicePointer 256)) 200 b o p' /\
    exists s, o = Ret s /\ zlen s = 200.
Proof.
  destruct (New 128 (2 ^ 24 - 1)) as [p| |] eqn:E; [|vm_compute in E; discriminate..].
  assert (rtc step (p, []) (Put p (makeSlicePointer 256), [])) as R.
  { eapply rtc_l; [|eapply rtc_l; [|apply rtc_refl]].
    - apply (step_get p 200 (makeSlicePointer 256) (makeSlicePointer 200) p []); [done|].
      vm_compute in E. injection E as <-. by apply (Get_new _ 200 1 (mk_sizedPool 256 [])).
    - apply (step_put p (makeSlicePointer 256) [] []). }
  destruct (Get_length 128 (2 ^ 24 - 1) p _ _ 200 ltac:(done) E R ltac:(done)) as [(b & o & p' & Hg) H].
  exists p, b, o, p'. split; [reflexivity|]. split; [exact Hg|exact (H _ _ _ Hg)].
Defined.
