(* ===== verification/Pool.v ===== *)
(** util/resource_pool.go and backend/connection_pool.go: the pool of the
    connections of one server. The goroutines that use a pool interleave at the
    operations of its channel, of its atomic counters and of the lock of the
    connection pool: [thread] is where one of them is in [Get], [Put],
    [SetCapacity], [Close] or in the timer's [closeIdleResources], and a step
    relation for each function moves it. *)

From Stdlib Require Import String.
From stdpp Require Import relations.
From S2P Require Import Prelude.

(** * The pool *)

(** A resource, which is the number of a [PooledConnection], and when it was used. *)
Definition resourceWrapper : Type := option nat * Z.

Definition no_resource : resourceWrapper := (None, 0).

Record ResourcePool := mkResourcePool {
  resources : list resourceWrapper;  (** what is in the channel *)
  MaxCap : Z;                        (** [cap(rp.resources)] *)
  closed : bool;                     (** the channel is closed *)
  capacity : Z; available : Z; active : Z; inUse : Z; waitCount : Z; idleClosed : Z;
  idleTimeout : Z;
  idleTimer : bool;                  (** the timer runs *)
  made : nat;                        (** the resources made by the factory *)
}.

Definition set_resources (p : ResourcePool) (l : list resourceWrapper) : ResourcePool :=
  mkResourcePool l (MaxCap p) (closed p) (capacity p) (available p) (active p) (inUse p)
    (waitCount p) (idleClosed p) (idleTimeout p) (idleTimer p) (made p).
Definition set_closed (p : ResourcePool) : ResourcePool :=
  mkResourcePool (resources p) (MaxCap p) true (capacity p) (available p) (active p) (inUse p)
    (waitCount p) (idleClosed p) (idleTimeout p) (idleTimer p) (made p).
Definition set_capacity (p : ResourcePool) (n : Z) : ResourcePool :=
  mkResourcePool (resources p) (MaxCap p) (closed p) n (available p) (active p) (inUse p)
    (waitCount p) (idleClosed p) (idleTimeout p) (idleTimer p) (made p).
Definition add_available (p : ResourcePool) (d : Z) : ResourcePool :=
  mkResourcePool (resources p) (MaxCap p) (closed p) (capacity p) (available p + d) (active p) (inUse p)
    (waitCount p) (idleClosed p) (idleTimeout p) (idleTimer p) (made p).
Definition add_active (p : ResourcePool) (d : Z) : ResourcePool :=
  mkResourcePool (resources p) (MaxCap p) (closed p) (capacity p) (available p) (active p + d) (inUse p)
    (waitCount p) (idleClosed p) (idleTimeout p) (idleTimer p) (made p).
Definition add_inUse (p : ResourcePool) (d : Z) : ResourcePool :=
  mkResourcePool (resources p) (MaxCap p) (closed p) (capacity p) (available p) (active p) (inUse p + d)
    (waitCount p) (idleClosed p) (idleTimeout p) (idleTimer p) (made p).
Definition add_waitCount (p : ResourcePool) : ResourcePool :=
  mkResourcePool (resources p) (MaxCap p) (closed p) (capacity p) (available p) (active p) (inUse p)
    (waitCount p + 1) (idleClosed p) (idleTimeout p) (idleTimer p) (made p).
Definition add_idleClosed (p : ResourcePool) : ResourcePool :=
  mkResourcePool (resources p) (MaxCap p) (closed p) (capacity p) (available p) (active p) (inUse p)
    (waitCount p) (idleClosed p + 1) (idleTimeout p) (idleTimer p) (made p).
Definition set_timer (p : ResourcePool) (b : bool) : ResourcePool :=
  mkResourcePool (resources p) (MaxCap p) (closed p) (capacity p) (available p) (active p) (inUse p)
    (waitCount p) (idleClosed p) (idleTimeout p) b (made p).
Definition set_idleTimeout (p : ResourcePool) (d : Z) : ResourcePool :=
  mkResourcePool (resources p) (MaxCap p) (closed p) (capacity p) (available p) (active p) (inUse p)
    (waitCount p) (idleClosed p) d (idleTimer p) (made p).
(** A resource of the factory. *)
Definition make (p : ResourcePool) : ResourcePool :=
  mkResourcePool (resources p) (MaxCap p) (closed p) (capacity p) (available p) (active p) (inUse p)
    (waitCount p) (idleClosed p) (idleTimeout p) (idleTimer p) (S (made p)).

Definition NewResourcePool (cap maxCap idle : Z) : outcome ResourcePool :=
  if (cap <=? 0) || (maxCap <=? 0) || (maxCap <? cap) then Panic "invalid/out of range capacity"
  else Ret (mkResourcePool (replicate (Z.to_nat cap) no_resource) maxCap false
              cap cap 0 0 0 0 idle (negb (idle =? 0)) 0).

(** [SetIdleTimeout] of the resource pool. *)
Definition SetIdleTimeout (p : ResourcePool) (d : Z) : outcome ResourcePool :=
  if idleTimer p then Ret (set_idleTimeout p d)
  else Panic "SetIdleTimeout called when timer not initialized".

(** * Threads *)

(** Who changes the capacity: [ConnectionPool.SetCapacity] or [ConnectionPool.Close]. *)
Inductive resizer := BySet | ByClose.

(** Where a goroutine is; what it holds beside is an argument. *)
Inductive thread :=
| Out                                   (** in no call and without a connection *)
| Get0                                  (** [ConnectionPool.Get] *)
| Get1                                  (** [get], at the first [select] *)
| GetWait                               (** at the second [select] *)
| GetRecord (w : option (option nat))   (** received, at [recordWait]; [None] is [!ok] *)
| GetNew                                (** at the call of the factory *)
| GetBack                               (** at the send after its error *)
| GetActive (r : nat) | GetAvailable (r : nat) | GetInUse (r : nat)
| Own (r : nat)                         (** uses the connection *)
| Put0 (o : option nat)                 (** [ConnectionPool.Put] *)
| Put1 (o : option nat)                 (** [Put] *)
| PutSend (o : option nat) | PutInUse | PutAvailable
| Set0 (n : Z)                          (** [ConnectionPool.SetCapacity], waiting for the lock *)
| Close0                                (** [ConnectionPool.Close] *)
| CloseStop                             (** [ResourcePool.Close], at the stop of the timer *)
| Resize (b : resizer) (n : Z)          (** [SetCapacity] *)
| Swap (b : resizer) (old n : Z)        (** at the compare and swap *)
| Shrink (b : resizer) (n : Z) (k : nat)  (** [k] resources are still to be taken out *)
| ShrinkGot (b : resizer) (n : Z) (k : nat) (o : option nat)
| ShrinkAvailable (b : resizer) (n : Z) (k : nat)
| Grow (b : resizer) (n : Z) (k : nat)  (** [k] resources are still to be put in *)
| GrowAvailable (b : resizer) (n : Z) (k : nat)
| Resized (b : resizer) (n : Z) (ok : bool)  (** [SetCapacity] returned *)
| Idle0                                 (** [closeIdleResources] *)
| IdleLoop (k : nat)
| IdleGot (k : nat) (w : resourceWrapper)
| IdleCount (k : nat) (used : Z) | IdleActive (k : nat) (used : Z)
| IdleSend (k : nat) (w : resourceWrapper)
| Panicked.

(** What [get] does with what it received. *)
Definition unwrap (w : option (option nat)) : thread :=
  match w with None => Out | Some None => GetNew | Some (Some r) => GetAvailable r end.

(** [get] *)
Inductive get_step (p : ResourcePool) : thread -> ResourcePool -> thread -> Prop :=
| get_expired : get_step p Get1 p Out
| get_receive w l :
    resources p = w :: l -> get_step p Get1 (set_resources p l) (unwrap (Some w.1))
| get_closed : resources p = [] -> closed p = true -> get_step p Get1 p Out
| get_wait : resources p = [] -> closed p = false -> get_step p Get1 p GetWait
| get_wait_receive w l :
    resources p = w :: l -> get_step p GetWait (set_resources p l) (GetRecord (Some w.1))
| get_wait_closed : resources p = [] -> closed p = true -> get_step p GetWait p (GetRecord None)
| get_timeout : get_step p GetWait p Out
| get_record w : get_step p (GetRecord w) (add_waitCount p) (unwrap w)
| get_factory : get_step p GetNew (make p) (GetActive (made p))
| get_factory_error : get_step p GetNew p GetBack
| get_send_back :
    closed p = false -> zlen (resources p) < MaxCap p ->
    get_step p GetBack (set_resources p (resources p ++ [no_resource])) Out
| get_send_closed : closed p = true -> get_step p GetBack p Panicked
| get_active r : get_step p (GetActive r) (add_active p 1) (GetAvailable r)
| get_available r : get_step p (GetAvailable r) (add_available p (-1)) (GetInUse r)
| get_inUse r : get_step p (GetInUse r) (add_inUse p 1) (Own r).

(** [Put] *)
Inductive put_step (p : ResourcePool) : thread -> ResourcePool -> thread -> Prop :=
| put_resource r : put_step p (Put1 (Some r)) p (PutSend (Some r))
| put_nil : put_step p (Put1 None) (add_active p (-1)) (PutSend None)
| put_send o (now : Z) :
    closed p = false -> zlen (resources p) < MaxCap p ->
    put_step p (PutSend o)
      (set_resources p (resources p ++ [(o, if is_some o then now else 0)])) PutInUse
| put_full o :
    closed p = false -> MaxCap p <= zlen (resources p) -> put_step p (PutSend o) p Panicked
| put_closed o : closed p = true -> put_step p (PutSend o) p Panicked
| put_inUse : put_step p PutInUse (add_inUse p (-1)) PutAvailable
| put_available : put_step p PutAvailable (add_available p 1) Out.

(** [SetCapacity] of the resource pool. *)
Inductive resize_step (p : ResourcePool) (b : resizer) (n : Z) : thread -> ResourcePool -> thread -> Prop :=
| resize_range :
    n < 0 \/ MaxCap p < n -> resize_step p b n (Resize b n) p (Resized b n false)
| resize_closed :
    0 <= n <= MaxCap p -> capacity p = 0 -> resize_step p b n (Resize b n) p (Resized b n false)
| resize_same :
    0 <= n <= MaxCap p -> capacity p <> 0 -> capacity p = n ->
    resize_step p b n (Resize b n) p (Resized b n true)
| resize_load :
    0 <= n <= MaxCap p -> capacity p <> 0 -> capacity p <> n ->
    resize_step p b n (Resize b n) p (Swap b (capacity p) n)
| resize_retry old : capacity p <> old -> resize_step p b n (Swap b old n) p (Resize b n)
| resize_shrink old :
    capacity p = old -> n < old ->
    resize_step p b n (Swap b old n) (set_capacity p n) (Shrink b n (Z.to_nat (old - n)))
| resize_grow old :
    capacity p = old -> old <= n ->
    resize_step p b n (Swap b old n) (set_capacity p n) (Grow b n (Z.to_nat (n - old)))
| shrink_receive k w l :
    resources p = w :: l ->
    resize_step p b n (Shrink b n (S k)) (set_resources p l) (ShrinkGot b n k w.1)
| shrink_closed k :
    resources p = [] -> closed p = true ->
    resize_step p b n (Shrink b n (S k)) p (ShrinkGot b n k None)
| shrink_close k r :
    resize_step p b n (ShrinkGot b n k (Some r)) (add_active p (-1)) (ShrinkAvailable b n k)
| shrink_nil k : resize_step p b n (ShrinkGot b n k None) p (ShrinkAvailable b n k)
| shrink_available k :
    resize_step p b n (ShrinkAvailable b n k) (add_available p (-1)) (Shrink b n k)
| grow_send k :
    closed p = false -> zlen (resources p) < MaxCap p ->
    resize_step p b n (Grow b n (S k)) (set_resources p (resources p ++ [no_resource])) (GrowAvailable b n k)
| grow_closed k : closed p = true -> resize_step p b n (Grow b n (S k)) p Panicked
| grow_available k :
    resize_step p b n (GrowAvailable b n k) (add_available p 1) (Grow b n k)
| grow_done : n <> 0 -> resize_step p b n (Grow b n 0) p (Resized b n true)
| shrink_done : n <> 0 -> resize_step p b n (Shrink b n 0) p (Resized b n true)
| shrink_close_channel :
    n = 0 -> closed p = false -> resize_step p b n (Shrink b n 0) (set_closed p) (Resized b n true)
| shrink_close_closed :
    n = 0 -> closed p = true -> resize_step p b n (Shrink b n 0) p Panicked.

(** The condition of [closeIdleResources]. *)
Definition expired (p : ResourcePool) (w : resourceWrapper) (now : Z) : Prop :=
  is_Some w.1 /\ 0 < idleTimeout p /\ w.2 + idleTimeout p - now < 0.

(** [closeIdleResources], called by the timer while it runs. *)
Inductive idle_step (p : ResourcePool) : thread -> ResourcePool -> thread -> Prop :=
| idle_tick : idleTimer p = true -> idle_step p Out p Idle0
| idle_start : idle_step p Idle0 p (IdleLoop (Z.to_nat (available p)))
| idle_receive k w l :
    resources p = w :: l -> idle_step p (IdleLoop (S k)) (set_resources p l) (IdleGot k w)
| idle_receive_closed k :
    resources p = [] -> closed p = true -> idle_step p (IdleLoop (S k)) p (IdleGot k no_resource)
| idle_empty k : resources p = [] -> closed p = false -> idle_step p (IdleLoop (S k)) p Out
| idle_end : idle_step p (IdleLoop 0) p Out
| idle_expired k w now : expired p w now -> idle_step p (IdleGot k w) p (IdleCount k w.2)
| idle_kept k w now : ~ expired p w now -> idle_step p (IdleGot k w) p (IdleSend k w)
| idle_count k u : idle_step p (IdleCount k u) (add_idleClosed p) (IdleActive k u)
| idle_active k u : idle_step p (IdleActive k u) (add_active p (-1)) (IdleSend k (None, u))
| idle_send k w :
    closed p = false -> zlen (resources p) < MaxCap p ->
    idle_step p (IdleSend k w) (set_resources p (resources p ++ [w])) (IdleLoop k)
| idle_send_closed k w : closed p = true -> idle_step p (IdleSend k w) p Panicked.

(** * The connection pool *)

Record ConnectionPool := mkConnectionPool {
  mu : option nat;        (** the thread that holds the lock *)
  connections : bool;     (** [cp.connections != nil] *)
  cp_capacity : Z;
  pool : ResourcePool;
  threads : list thread;
}.

(** Inside [closeIdleResources]. *)
Definition idling (t : thread) : bool :=
  match t with
  | Idle0 | IdleLoop _ | IdleGot _ _ | IdleCount _ _ | IdleActive _ _ | IdleSend _ _ => true
  | _ => false
  end.

(** The steps of a thread [i] that take or free the lock, or stop the timer, which
    waits until its function has returned. *)
Inductive lock_step (i : nat) (s : ConnectionPool) :
    thread -> option nat -> bool -> Z -> ResourcePool -> thread -> Prop :=
| get_pool :
    mu s = None ->
    lock_step i s Get0 None (connections s) (cp_capacity s) (pool s) (if connections s then Get1 else Out)
| put_pool o o' :
    mu s = None -> connections s = true -> o' = o \/ o' = None ->
    lock_step i s (Put0 o) None true (cp_capacity s) (pool s) (Put1 o')
| put_pool_closed o :
    mu s = None -> connections s = false ->
    lock_step i s (Put0 o) None false (cp_capacity s) (pool s) Panicked
| set_lock n :
    mu s = None -> connections s = true ->
    lock_step i s (Set0 n) (Some i) true (cp_capacity s) (pool s) (Resize BySet n)
| set_lock_closed n :
    mu s = None -> connections s = false ->
    lock_step i s (Set0 n) None false n (pool s) Out
| set_unlock n ok :
    lock_step i s (Resized BySet n ok) None (connections s) (if ok then n else cp_capacity s) (pool s) Out
| close_pool :
    mu s = None ->
    lock_step i s Close0 None (connections s) (cp_capacity s) (pool s) (if connections s then CloseStop else Out)
| close_stop :
    forallb (fun t => negb (idling t)) (threads s) = true \/ idleTimer (pool s) = false ->
    lock_step i s CloseStop (mu s) (connections s) (cp_capacity s) (set_timer (pool s) false) (Resize ByClose 0)
| close_unlock n ok :
    mu s = None ->
    lock_step i s (Resized ByClose n ok) None false (cp_capacity s) (pool s) Out.

(** What a client does beside: it begins a call. *)
Inductive call_step : thread -> thread -> Prop :=
| call_get : call_step Out Get0
| call_put r : call_step (Own r) (Put0 (Some r))
| call_put_closed r : call_step (Own r) (Put0 None)
| call_set n : call_step Out (Set0 n)
| call_close : call_step Out Close0.

Definition move (s : ConnectionPool) (i : nat) (p : ResourcePool) (t : thread) : ConnectionPool :=
  mkConnectionPool (mu s) (connections s) (cp_capacity s) p (<[i := t]> (threads s)).

Inductive pool_step (p : ResourcePool) (t : thread) (p' : ResourcePool) (t' : thread) : Prop :=
| pool_get : get_step p t p' t' -> pool_step p t p' t'
| pool_put : put_step p t p' t' -> pool_step p t p' t'
| pool_resize b n : resize_step p b n t p' t' -> pool_step p t p' t'
| pool_idle : idle_step p t p' t' -> pool_step p t p' t'.

Inductive step (s : ConnectionPool) : ConnectionPool -> Prop :=
| step_pool i t p' t' :
    threads s !! i = Some t -> pool_step (pool s) t p' t' -> step s (move s i p' t')
| step_lock i t m c k p' t' :
    threads s !! i = Some t -> lock_step i s t m c k p' t' ->
    step s (mkConnectionPool m c k p' (<[i := t']> (threads s)))
| step_call i t t' :
    threads s !! i = Some t -> call_step t t' -> step s (move s i (pool s) t').

(** An opened pool and [n] goroutines. *)
Definition opened (p : ResourcePool) (n : nat) : ConnectionPool :=
  mkConnectionPool None true (capacity p) p (replicate n Out).

(** * Accounting

    What a thread adds to the counters: the equations between the counters and the
    channel hold in every state when the threads that are on their way are counted. *)

(** It holds one of the resources of the capacity. *)
Definition holds (t : thread) : Z :=
  match t with
  | GetRecord (Some _) | GetNew | GetBack | GetActive _ | GetAvailable _ | GetInUse _ | Own _
  | Put0 _ | Put1 _ | PutSend _ | IdleGot _ _ | IdleCount _ _ | IdleActive _ _ | IdleSend _ _ => 1
  | _ => 0
  end.

(** What it will still take out of the pool. *)
Definition pending (t : thread) : Z :=
  match t with
  | Shrink _ _ k | ShrinkGot _ _ k _ | ShrinkAvailable _ _ k => Z.of_nat k
  | Grow _ _ k | GrowAvailable _ _ k => - Z.of_nat k
  | _ => 0
  end.

Definition ahead_available (t : thread) : Z :=
  match t with
  | GetRecord (Some _) | GetNew | GetBack | GetActive _ | GetAvailable _
  | IdleGot _ _ | IdleCount _ _ | IdleActive _ _ | IdleSend _ _
  | ShrinkGot _ _ _ _ | ShrinkAvailable _ _ _ => 1
  | PutInUse | PutAvailable | GrowAvailable _ _ _ => -1
  | _ => 0
  end.

Definition in_use (t : thread) : Z :=
  match t with Own _ | Put0 _ | Put1 _ | PutSend _ | PutInUse => 1 | _ => 0 end.

(** Its resource is counted as active. *)
Definition counts_active (t : thread) : Z :=
  match t with
  | GetRecord (Some (Some _)) | GetAvailable _ | GetInUse _ | Own _ | Put0 _ | Put1 _
  | PutSend (Some _) | ShrinkGot _ _ _ (Some _) | IdleGot _ (Some _, _)
  | IdleCount _ _ | IdleActive _ _ | IdleSend _ (Some _, _) => 1
  | _ => 0
  end.

(** It is in a call that changes the capacity. *)
Definition resizing (t : thread) : Z :=
  match t with
  | CloseStop | Resize _ _ | Swap _ _ _ | Shrink _ _ _ | ShrinkGot _ _ _ _ | ShrinkAvailable _ _ _
  | Grow _ _ _ | GrowAvailable _ _ _ | Resized _ _ _ => 1
  | _ => 0
  end.

(** Its change of the capacity is made but not finished. *)
Definition draining (t : thread) : bool :=
  match t with
  | Shrink _ _ _ | ShrinkGot _ _ _ _ | ShrinkAvailable _ _ _ | Grow _ _ _ | GrowAvailable _ _ _ => true
  | _ => false
  end.

Definition live (w : resourceWrapper) : Z := if is_some w.1 then 1 else 0.

Definition total {A} (f : A -> Z) (l : list A) : Z := foldr (fun a n => f a + n) 0 l.

Lemma total_app {A} (f : A -> Z) l k : total f (l ++ k) = total f l + total f k.
Proof. unfold total. induction l as [|a l IH]; cbn; lia. Qed.

Lemma total_insert {A} (f : A -> Z) l i a b :
  l !! i = Some a -> total f (<[i := b]> l) = total f l - f a + f b.
Proof.
  unfold total. revert i. induction l as [|x l IH]; intros [|i]; simpl; try done.
  - intros [= ->]. lia.
  - intros H. rewrite (IH _ H). lia.
Qed.

Lemma total_nonneg {A} (f : A -> Z) l : (forall x, 0 <= f x) -> 0 <= total f l.
Proof. intros Hf. unfold total. induction l as [|x k IH]; cbn; [lia|]. specialize (Hf x). lia. Qed.

Lemma total_le {A} (f : A -> Z) l i a :
  (forall x, 0 <= f x) -> l !! i = Some a -> f a <= total f l.
Proof.
  intros Hf. assert (forall k, 0 <= total f k) as Hn by (intros k; by apply total_nonneg).
  unfold total in *. revert i. induction l as [|x l IH]; intros [|i]; simpl; try done.
  - intros [= ->]. specialize (Hn l). lia.
  - intros H. specialize (IH _ H). specialize (Hf x). lia.
Qed.

Lemma total_replicate {A} (f : A -> Z) n a : total f (replicate n a) = Z.of_nat n * f a.
Proof. unfold total. induction n as [|n IH]; cbn -[Z.mul Z.of_nat]; lia. Qed.

(** Among numbers that are not negative and add up to at most 1, two are not both positive. *)
Lemma total_one {A} (f : A -> Z) l i j a b :
  (forall x, 0 <= f x) -> total f l <= 1 -> i <> j ->
  l !! i = Some a -> l !! j = Some b -> 0 < f a -> f b = 0.
Proof.
  intros Hf Hl Hij Ha Hb Hfa. pose proof (Hf b). enough (f a + f b <= total f l) by lia. clear Hl Hfa.
  unfold total. revert i j Hij Ha Hb. induction l as [|x l IH]; intros [|i] [|j] Hij; simpl; try done.
  - intros [= ->] Hb. pose proof (total_le f l j b Hf Hb). unfold total in *. lia.
  - intros Ha [= ->]. pose proof (total_le f l i a Hf Ha). unfold total in *. lia.
  - intros Ha Hb. specialize (IH i j ltac:(lia) Ha Hb). specialize (Hf x). lia.
Qed.

Lemma holds_nonneg t : 0 <= holds t.
Proof. destruct t; cbn; repeat case_match; lia. Qed.
Lemma resizing_nonneg t : 0 <= resizing t.
Proof. destruct t; cbn; lia. Qed.
Lemma pending_resizing t : resizing t = 0 -> pending t = 0.
Proof. destruct t; cbn; lia. Qed.
#[export] Hint Resolve holds_nonneg resizing_nonneg : dbproxy.

(** What a thread knows of the pool while no other changes the capacity. *)
Definition knows (s : ConnectionPool) (t : thread) : Prop :=
  match t with
  | Swap _ old n => 0 <= n <= MaxCap (pool s) /\ old <> 0
  | Shrink _ n _ | ShrinkGot _ n _ _ | ShrinkAvailable _ n _ | Grow _ n _ | GrowAvailable _ n _ =>
      capacity (pool s) = n /\ closed (pool s) = false
  | Resized ByClose _ _ => closed (pool s) = true
  | _ => True
  end /\
  match t with
  | Resize ByClose n | Swap ByClose _ n | Resized ByClose n _ | Shrink ByClose n _ | ShrinkGot ByClose n _ _
  | ShrinkAvailable ByClose n _ | Grow ByClose n _ | GrowAvailable ByClose n _ =>
      n = 0 /\ idleTimer (pool s) = false
  | Set0 n | Resize BySet n | Swap BySet _ n | Shrink BySet n _ | ShrinkGot BySet n _ _
  | ShrinkAvailable BySet n _ | Grow BySet n _ | GrowAvailable BySet n _ | Resized BySet n _ => n <> 0
  | Panicked => False
  | t => idling t = true -> idleTimer (pool s) = true
  end.

Record accounted (s : ConnectionPool) : Prop := {
  acc_capacity : zlen (resources (pool s)) + total holds (threads s) =
                 capacity (pool s) + total pending (threads s);
  acc_bounds : 0 <= capacity (pool s) <= MaxCap (pool s) /\
               capacity (pool s) + total pending (threads s) <= MaxCap (pool s);
  acc_available : available (pool s) = zlen (resources (pool s)) + total ahead_available (threads s);
  acc_inUse : inUse (pool s) = total in_use (threads s);
  acc_active : active (pool s) = total live (resources (pool s)) + total counts_active (threads s);
  acc_closed : closed (pool s) = true ->
               capacity (pool s) = 0 /\ total pending (threads s) = 0 /\ idleTimer (pool s) = false;
  acc_zero : capacity (pool s) = 0 ->
             closed (pool s) = true \/ exists i t, threads s !! i = Some t /\ draining t = true;
  acc_connections : connections s = false -> closed (pool s) = true;
  acc_threads : forall i t, threads s !! i = Some t -> knows s t;
}.

(** At most one call changes the capacity at a time, and no call of [SetCapacity] sets
    it to 0, which is what [Close] is for. *)
Definition orderly (s : ConnectionPool) : Prop :=
  total resizing (threads s) <= 1 /\ Set0 0 ∉ threads s.

(** ** Every step keeps the account *)

Section preserve.
Context (s : ConnectionPool) (i : nat) (t : thread).
Hypothesis Hacc : accounted s.
Hypothesis Hi : threads s !! i = Some t.

Lemma held_room : holds t = 1 -> zlen (resources (pool s)) < MaxCap (pool s) /\ closed (pool s) = false.
Proof.
  intros Ht. destruct Hacc as [HC HB _ _ _ HX _ _ _].
  pose proof (total_le holds _ _ _ holds_nonneg Hi) as Hh. split; [lia|].
  destruct (closed (pool s)); [|done]. destruct (HX eq_refl) as (? & ? & _).
  pose proof (zlen_nonneg (resources (pool s))). lia.
Qed.

Lemma others_pending : orderly s -> resizing t = 1 -> total pending (threads s) = pending t.
Proof.
  intros [Ho _] Ht. clear Hacc. pose proof resizing_nonneg as Hn.
  revert i Hi Ho. induction (threads s) as [|x l IH]; intros [|j]; cbn; try done.
  - intros [= ->] Ho. enough (total pending l = 0) by (unfold total in *; lia).
    assert (total resizing l <= 0) as Hl by (unfold total in *; lia). clear -Hl Hn.
    induction l as [|x l IH]; [done|]. cbn in *. pose proof (Hn x). pose proof (total_nonneg resizing l Hn).
    unfold total in *. rewrite (pending_resizing x), IH by lia. done.
  - intros Hj Ho. pose proof (Hn x). pose proof (total_le resizing l j t Hn Hj).
    unfold total in *. rewrite (pending_resizing x) by lia. rewrite <- (IH j Hj); lia.
Qed.

Context (m : option nat) (c : bool) (k : Z) (p' : ResourcePool) (t' : thread).
Let s' := mkConnectionPool m c k p' (<[i := t']> (threads s)).
Hypothesis Ho : orderly s.
Hypothesis Ho' : orderly s'.

(** The conditions on the thread that moves. *)
Record moves : Prop := {
  mv_max : MaxCap p' = MaxCap (pool s);
  mv_capacity : zlen (resources p') - zlen (resources (pool s)) + holds t' - holds t =
                capacity p' - capacity (pool s) + pending t' - pending t;
  mv_bounds : 0 <= capacity p' <= MaxCap p' /\
              capacity p' + (total pending (threads s) - pending t + pending t') <= MaxCap p';
  mv_available : available p' - available (pool s) =
                 zlen (resources p') - zlen (resources (pool s)) + ahead_available t' - ahead_available t;
  mv_inUse : inUse p' - inUse (pool s) = in_use t' - in_use t;
  mv_active : active p' - active (pool s) =
              total live (resources p') - total live (resources (pool s)) + counts_active t' - counts_active t;
  mv_closed : closed p' = true -> capacity p' = 0 /\
              total pending (threads s) - pending t + pending t' = 0 /\ idleTimer p' = false;
  mv_open : closed (pool s) = true -> closed p' = true;
  mv_zero : capacity p' = 0 -> closed p' = true \/ draining t' = true \/
            (capacity (pool s) = 0 /\ draining t = false);
  mv_connections : c = false -> closed p' = true;
  mv_swap : capacity p' = capacity (pool s) /\ closed p' = closed (pool s) \/ resizing t = 1;
  mv_timer : idleTimer p' = idleTimer (pool s) \/
             idleTimer p' = false /\ forall j u, threads s !! j = Some u -> idling u = false;
  mv_knows : knows s' t';
}.

Lemma knows_other u :
  moves -> knows s u -> (resizing u = 0 \/ resizing t = 0) -> (exists j, threads s !! j = Some u) -> knows s' u.
Proof.
  intros [HM _ _ _ _ _ HX HX' _ _ HS HT _] Hk Hr [j Hj].
  assert (idling u = true -> idleTimer p' = true) as Hid.
  { intros Hu. destruct HT as [HT|[_ HT]]; [|by rewrite (HT j u Hj) in Hu]. rewrite HT.
    destruct u; cbn in Hu; try done; by apply Hk. }
  assert (idleTimer (pool s) = false -> idleTimer p' = false) as Htm.
  { intros H. destruct HT as [HT|[HT _]]; congruence. }
  unfold knows in *. cbn [pool s']. rewrite HM.
  assert (capacity p' = capacity (pool s) /\ closed p' = closed (pool s) \/ resizing u = 0) as Hc
    by (destruct HS; [by left|right; lia]).
  destruct u as [| | | | | | | | | | | | | | | | | | |[]|[]|[]|[]|[]|[]|[]|[]| | | | | | |]; cbn in Hc, Hid |- *;
    try (destruct Hc as [[-> ->]|Hc]; [|lia]); intuition auto.
Qed.

Lemma moves_accounted : moves -> accounted s'.
Proof.
  intros Hm. pose proof Hm as [HM HC HB HA HU HL HX HX' HZ HN HS HT HK].
  destruct Hacc as [AC AB AA AU AL AX AZ AN AT].
  constructor; cbn [pool threads connections s']; rewrite ?(total_insert _ _ _ _ _ Hi); try lia; try done.
  - intros H0. destruct (HZ H0) as [|[Hr|[H1 H2]]]; [by left|right; exists i, t'|].
    + split; [|done]. apply list_lookup_insert_eq. by eapply lookup_lt_Some.
    + destruct (AZ H1) as [|(j & u & Hj & Hu)]; [left; auto|]. right. exists j, u. split; [|done].
      rewrite list_lookup_insert_ne; [done|]. intros <-. rewrite Hi in Hj. injection Hj as <-. congruence.
  - intros j u Hj. destruct (decide (j = i)) as [->|Hne].
    + rewrite list_lookup_insert_eq in Hj by (by eapply lookup_lt_Some). by injection Hj as <-.
    + rewrite list_lookup_insert_ne in Hj by done. apply knows_other; [done|by eapply AT| |by exists j].
      destruct (decide (resizing t = 0)); [by right|left]. pose proof (resizing_nonneg t).
      eapply (total_one resizing (threads s) i j t u resizing_nonneg (proj1 Ho)); try done; lia.
Qed.

End preserve.

(** ** Steps of one thread *)

Lemma received p w l :
  resources p = w :: l ->
  zlen (resources p) = zlen l + 1 /\ total live (resources p) = live w + total live l.
Proof. intros ->. rewrite zlen_cons. done. Qed.

(** Evaluates what a rule of the step relations does to the pool and its thread. *)
Ltac moved :=
  cbn [set_resources set_closed set_capacity add_available add_active add_inUse add_waitCount add_idleClosed
       set_timer set_idleTimeout make resources MaxCap closed capacity available active inUse waitCount
       idleClosed idleTimeout idleTimer made pool threads connections fst snd is_some
       holds pending ahead_available in_use counts_active resizing draining unwrap idling] in *.

Ltac sent := rewrite ?zlen_app, ?zlen_cons, ?zlen_nil, ?total_app; cbn [total foldr live fst snd no_resource is_some].

(** The conditions of [moves] that do not depend on the rule. *)
Ltac conditions :=
  constructor; moved; sent;
  [ reflexivity | try lia | try lia | try lia | try lia | try lia
  | try (let H := fresh in intros H; match goal with AX : closed _ = true -> _ |- _ => destruct (AX H) as (? & ? & ?) end;
         repeat split; (lia || assumption))
  | try (intros; assumption)
  | try (let H := fresh in intros H; solve [right; right; split; [exact H|reflexivity] | right; left; reflexivity])
  | try assumption
  | try solve [left; split; reflexivity | right; reflexivity]
  | try (left; reflexivity)
  | unfold knows in *; moved; try tauto ].

Ltac account :=
  repeat match goal with
  | H : resources _ = _ :: _ |- _ =>
      let H1 := fresh in let H2 := fresh in destruct (received _ _ _ H) as [H1 H2]; clear H
  end;
  repeat match goal with
  | w : resourceWrapper |- _ => destruct w as [[] ?]
  | w : option (option nat) |- _ => destruct w as [[]|]
  | w : option nat |- _ => destruct w
  end;
  moved; cbn [live fst is_some] in *; conditions.

Section steps.
Context (s : ConnectionPool) (i : nat) (t : thread).
Hypothesis Hacc : accounted s.
Hypothesis Hi : threads s !! i = Some t.
Hypothesis Ho : orderly s.

(** A thread that holds a resource can send it. *)
Ltac room :=
  try match goal with
  | Hroom : 1 = 1 -> _ |- _ => exfalso; destruct (Hroom eq_refl); (lia || congruence)
  end.

Lemma get_accounted p' t' :
  get_step (pool s) t p' t' -> orderly (move s i p' t') -> accounted (move s i p' t').
Proof.
  intros Hst Ho'. pose proof (held_room s i t Hacc Hi) as Hroom.
  pose proof Hacc as [AC AB AA AU AL AX AZ AN AT]. pose proof (AT i t Hi) as HK.
  unfold move. apply (moves_accounted s i t); [done..|].
  inversion Hst; subst; clear Hst; moved; room; account.
Qed.

Lemma put_accounted p' t' :
  put_step (pool s) t p' t' -> orderly (move s i p' t') -> accounted (move s i p' t').
Proof.
  intros Hst Ho'. pose proof (held_room s i t Hacc Hi) as Hroom.
  pose proof Hacc as [AC AB AA AU AL AX AZ AN AT]. pose proof (AT i t Hi) as HK.
  unfold move. apply (moves_accounted s i t); [done..|].
  inversion Hst; subst; clear Hst; moved; room; account.
Qed.

Lemma idle_accounted p' t' :
  idle_step (pool s) t p' t' -> orderly (move s i p' t') -> accounted (move s i p' t').
Proof.
  intros Hst Ho'. pose proof (held_room s i t Hacc Hi) as Hroom.
  pose proof Hacc as [AC AB AA AU AL AX AZ AN AT]. pose proof (AT i t Hi) as HK.
  unfold move. apply (moves_accounted s i t); [done..|].
  assert (closed (pool s) = true -> idling t = true -> False) as Hidle.
  { intros Hc Ht. destruct (AX Hc) as (_ & _ & Hx). destruct t; cbn in Ht; try done;
      destruct HK as [_ HK]; cbn in HK; specialize (HK eq_refl); congruence. }
  inversion Hst; subst; clear Hst; moved; room; try (exfalso; by apply Hidle);
    try match goal with H : expired _ ?w _ |- _ => destruct w as [[r|] u]; [|by destruct H as [[? ?] _]] end; account.
Qed.

Lemma resize_accounted b n p' t' :
  resize_step (pool s) b n t p' t' -> orderly (move s i p' t') -> accounted (move s i p' t').
Proof.
  intros Hst Ho'. pose proof (others_pending s i t Hi Ho) as Hothers.
  pose proof Hacc as [AC AB AA AU AL AX AZ AN AT]. pose proof (AT i t Hi) as HK.
  pose proof (total_nonneg holds (threads s) holds_nonneg) as Hh.
  assert (capacity (pool s) = 0 -> draining t = false -> resizing t = 1 -> closed (pool s) = true) as Hclosed.
  { intros Hc Hd Hr. destruct (AZ Hc) as [|(j & u & Hj & Hu)]; [done|]. exfalso.
    assert (resizing u = 1) as Hru by (by destruct u).
    enough (resizing u = 0) by lia.
    apply (total_one resizing (threads s) i j t u resizing_nonneg (proj1 Ho)); try done; [|lia].
    intros ->. rewrite Hi in Hj. injection Hj as <-. congruence. }
  pose proof (zlen_nonneg (resources (pool s))) as Hz.
  assert (capacity (pool s) <> 0 -> closed (pool s) = false) as Hopen.
  { intros Hc. destruct (closed (pool s)); [|done]. by destruct (AX eq_refl). }
  unfold move. apply (moves_accounted s i t); [done..|].
  inversion Hst; subst; clear Hst; destruct b; unfold knows in HK; moved; specialize (Hothers eq_refl);
    try (exfalso; intuition congruence); account; try (exfalso; intuition congruence).
  all: try done; try lia; intros; try (exfalso; lia).
  all: intuition lia.
Qed.
End steps.

Lemma lock_accounted s i t m c k p' t' :
  accounted s -> orderly s -> threads s !! i = Some t -> lock_step i s t m c k p' t' ->
  let s' := mkConnectionPool m c k p' (<[i := t']> (threads s)) in orderly s' -> accounted s'.
Proof.
  intros Hacc Ho Hi Hst s' Ho'. pose proof Hacc as [AC AB AA AU AL AX AZ AN AT]. pose proof (AT i t Hi) as HK.
  assert (connections s = true \/ connections s = false /\ closed (pool s) = true) as Hcon
    by (destruct (connections s); auto).
  assert (holds t = 1 -> closed (pool s) = false) as Hroom by (intros; by eapply held_room).
  assert (forallb (fun t => negb (idling t)) (threads s) = true \/ idleTimer (pool s) = false ->
          forall j u, threads s !! j = Some u -> idling u = false) as Hidle.
  { intros [Hf|Hf] j u Hj.
    - rewrite forallb_forall in Hf. apply negb_true_iff, Hf, list_elem_of_In. by eapply list_elem_of_lookup_2.
    - destruct (idling u) eqn:Hu; [|done]. destruct (AT j u Hj) as [_ Hk].
      destruct u; cbn in Hu; try done; cbn in Hk; specialize (Hk eq_refl); congruence. }
  apply (moves_accounted s i t); [done..|].
  inversion Hst; subst; clear Hst; unfold knows in HK; moved;
    try (exfalso; intuition congruence); try destruct (connections s) eqn:Ec; account;
    try (right; split; [reflexivity|by apply Hidle]); try (intuition congruence).
Qed.

Lemma call_accounted s i t t' :
  accounted s -> orderly s -> threads s !! i = Some t -> call_step t t' ->
  orderly (move s i (pool s) t') -> accounted (move s i (pool s) t').
Proof.
  intros Hacc Ho Hi Hst Ho'. pose proof Hacc as [AC AB AA AU AL AX AZ AN AT]. pose proof (AT i t Hi) as HK.
  assert (t' <> Set0 0) as Hs0.
  { intros ->. destruct Ho' as [_ Hn]. apply Hn. cbn. eapply list_elem_of_insert, lookup_lt_Some, Hi. }
  unfold move. apply (moves_accounted s i t); [done..|].
  inversion Hst; subst; clear Hst; unfold knows in HK; moved; account. split; [done|]. congruence.
Qed.

Definition orderly_step (s s' : ConnectionPool) : Prop := step s s' /\ orderly s'.

Lemma step_accounted s s' : accounted s -> orderly s -> orderly_step s s' -> accounted s'.
Proof.
  intros Hacc Ho [[i t p' t' Hi Hst|i t m c k p' t' Hi Hst|i t t' Hi Hst] Ho'].
  - destruct Hst as [Hst|Hst|b n Hst|Hst];
      eauto using get_accounted, put_accounted, resize_accounted, idle_accounted.
  - by eapply lock_accounted.
  - by eapply call_accounted.
Qed.

Lemma NewResourcePool_Ret cap max idle p :
  NewResourcePool cap max idle = Ret p ->
  0 < cap <= max /\ p = mkResourcePool (replicate (Z.to_nat cap) no_resource) max false
                          cap cap 0 0 0 0 idle (negb (idle =? 0)) 0.
Proof. unfold NewResourcePool. intros H. destruct (_ || _) eqn:E; [done|]. injection H as <-. split; [lia|done]. Qed.

Lemma opened_accounted cap max idle p n :
  NewResourcePool cap max idle = Ret p -> accounted (opened p n) /\ orderly (opened p n).
Proof.
  intros [Hc ->]%NewResourcePool_Ret. split.
  - constructor; cbn [opened pool threads resources capacity MaxCap available inUse active closed connections];
      rewrite ?total_replicate; unfold zlen; rewrite ?length_replicate; cbn; try lia; try done.
    intros i t [-> _]%lookup_replicate. by split.
  - split; cbn [opened threads]; [rewrite total_replicate; cbn; lia|]. by intros [? _]%elem_of_replicate.
Qed.

Lemma run_accounted s s' :
  rtc orderly_step s s' -> accounted s -> orderly s -> accounted s'.
Proof.
  induction 1 as [|s s1 s' Hst _ IH]; [done|]. intros Ha Ho. apply IH; [by eapply step_accounted|apply Hst].
Qed.

(** * Properties *)

(** No thread is on its way through a call. *)
Definition settled (t : thread) : bool := match t with Out | Own _ => true | _ => false end.

Definition owner (t : thread) : bool := match t with Own _ => true | _ => false end.

Definition owners (s : ConnectionPool) : Z := zlen (List.filter owner (threads s)).

Lemma total_settled f ts :
  f Out = 0 -> forallb settled ts = true ->
  (forall r, f (Own r) = 1) -> total f ts = zlen (List.filter owner ts).
Proof.
  intros H0 Hs H1. unfold total. induction ts as [|t ts IH]; [done|]. cbn in *.
  apply andb_true_iff in Hs as [Ht Hs]. rewrite IH by done.
  destruct t; try done; cbn; rewrite ?zlen_cons, ?H0, ?H1; lia.
Qed.

Lemma total_settled_0 f ts :
  f Out = 0 -> forallb settled ts = true -> (forall r, f (Own r) = 0) -> total f ts = 0.
Proof.
  intros H0 Hs H1. unfold total. induction ts as [|t ts IH]; [done|]. cbn in *.
  apply andb_true_iff in Hs as [Ht Hs]. rewrite IH by done. destruct t; try done; rewrite ?H0, ?H1; lia.
Qed.

(** C13: the account of a pool, whatever the interleaving of its users, of the timer
    and of one change of the capacity at a time: when no call is under way, every
    resource of the capacity is either in the channel or with a user, the counters
    say so, and the capacity is within the channel. *)
Theorem pool_accounts cap max idle p n s :
  NewResourcePool cap max idle = Ret p -> rtc orderly_step (opened p n) s ->
  forallb settled (threads s) = true ->
  zlen (resources (pool s)) + owners s = capacity (pool s) /\ capacity (pool s) <= MaxCap (pool s) /\
  available (pool s) = zlen (resources (pool s)) /\ inUse (pool s) = owners s /\
  active (pool s) = total live (resources (pool s)) + owners s.
Proof.
  intros Hp Hrun Hs. destruct (opened_accounted _ _ _ _ n Hp) as [Ha Ho].
  destruct (run_accounted _ _ Hrun Ha Ho) as [AC AB AA AU AL _ _ _ _]. unfold owners.
  rewrite (total_settled holds), (total_settled_0 pending) in AC by done.
  rewrite (total_settled_0 pending) in AB by done. rewrite (total_settled_0 ahead_available) in AA by done.
  rewrite (total_settled in_use) in AU by done. rewrite (total_settled counts_active) in AL by done. lia.
Qed.

(** No goroutine panics: [Put] never meets a full channel and nobody sends to a
    closed one, as long as the capacity is changed by one call at a time. *)
Theorem pool_never_panics cap max idle p n s :
  NewResourcePool cap max idle = Ret p -> rtc orderly_step (opened p n) s -> Panicked ∉ threads s.
Proof.
  intros Hp Hrun Hin. destruct (opened_accounted _ _ _ _ n Hp) as [Ha Ho].
  destruct (run_accounted _ _ Hrun Ha Ho) as [_ _ _ _ _ _ _ _ AT].
  apply list_elem_of_lookup_1 in Hin as [i Hi]. by destruct (AT i _ Hi).
Qed.

(** ** Exclusive use *)

(** The connection a thread has. *)
Definition holding (t : thread) : option nat :=
  match t with
  | GetRecord (Some o) | Put0 o | Put1 o | PutSend o | ShrinkGot _ _ _ o | IdleGot _ (o, _) | IdleSend _ (o, _) => o
  | GetActive r | GetAvailable r | GetInUse r | Own r => Some r
  | _ => None
  end.

Definition is_r (r : nat) (o : option nat) : Z := if decide (o = Some r) then 1 else 0.

(** In how many places a connection is. *)
Definition places (r : nat) (s : ConnectionPool) : Z :=
  total (fun w => is_r r w.1) (resources (pool s)) + total (fun t => is_r r (holding t)) (threads s).

Definition exclusive (s : ConnectionPool) : Prop :=
  forall r, places r s <= (if decide (r < made (pool s))%nat then 1 else 0).

Lemma is_r_nonneg r o : 0 <= is_r r o.
Proof. unfold is_r. case_decide; lia. Qed.

Lemma is_r_None r : is_r r None = 0.
Proof. done. Qed.

Lemma received_places r p w l :
  resources p = w :: l ->
  total (fun w => is_r r w.1) (resources p) = is_r r w.1 + total (fun w => is_r r w.1) l.
Proof. intros ->. done. Qed.

Lemma is_r_Some r q : is_r r (Some q) = if decide (q = r) then 1 else 0.
Proof. unfold is_r. repeat case_decide; naive_solver. Qed.

Ltac count :=
  repeat match goal with
  | H : resources _ = _ :: _ |- _ => rewrite (received_places _ _ _ _ H); clear H
  end;
  repeat match goal with
  | w : resourceWrapper |- _ => destruct w as [[] ?]
  | w : option (option nat) |- _ => destruct w as [[]|]
  | w : option nat |- _ => destruct w
  end;
  cbn [holding unwrap fst snd no_resource] in *; rewrite ?is_r_None, ?is_r_Some in *;
  repeat case_decide; try lia.

Lemma pool_places p t p' t' r :
  pool_step p t p' t' ->
  total (fun w => is_r r w.1) (resources p') + is_r r (holding t') <=
  total (fun w => is_r r w.1) (resources p) + is_r r (holding t) +
  (if decide (made p' = S (made p) /\ r = made p) then 1 else 0) /\
  (made p <= made p')%nat.
Proof.
  intros Hst. split.
  - destruct Hst as [Hst|Hst|b n Hst|Hst]; inversion Hst; subst; clear Hst; cbn [set_resources set_closed set_capacity
      add_available add_active add_inUse add_waitCount add_idleClosed make resources made];
      rewrite ?total_app; cbn [total foldr fst]; count.
  - destruct Hst as [Hst|Hst|b n Hst|Hst]; inversion Hst; subst; cbn; lia.
Qed.

Lemma places_move r s i t m c k p' t' :
  threads s !! i = Some t ->
  places r (mkConnectionPool m c k p' (<[i := t']> (threads s))) =
  places r s + (total (fun w => is_r r w.1) (resources p') - total (fun w => is_r r w.1) (resources (pool s)))
  + is_r r (holding t') - is_r r (holding t).
Proof.
  intros Hi. unfold places. cbn [pool threads].
  rewrite (total_insert (fun t => is_r r (holding t)) _ _ _ _ Hi). lia.
Qed.

Lemma lock_places i s t m c k p' t' r :
  lock_step i s t m c k p' t' ->
  resources p' = resources (pool s) /\ made p' = made (pool s) /\ is_r r (holding t') <= is_r r (holding t).
Proof.
  intros Hst. inversion Hst; subst; cbn [set_timer resources made]; (split; [done|]); (split; [done|]);
    try destruct (connections s); cbn [holding]; rewrite ?is_r_None; try apply is_r_nonneg; try lia.
  match goal with H : _ \/ _ |- _ => destruct H as [->| ->] end; [lia|apply is_r_nonneg].
Qed.

Lemma step_exclusive s s' : exclusive s -> step s s' -> exclusive s'.
Proof.
  intros Hx Hst r. specialize (Hx r). destruct Hst as [i t p' t' Hi Hst|i t m c k p' t' Hi Hst|i t t' Hi Hst].
  - unfold move. rewrite (places_move _ _ _ _ _ _ _ _ _ Hi). destruct (pool_places _ _ _ _ r Hst) as [H1 H2].
    cbn [pool]. repeat case_decide; lia.
  - rewrite (places_move _ _ _ _ _ _ _ _ _ Hi). destruct (lock_places _ _ _ _ _ _ _ _ r Hst) as (R & M & H).
    cbn [pool]. rewrite R, M. repeat case_decide; lia.
  - unfold move. rewrite (places_move _ _ _ _ _ _ _ _ _ Hi). cbn [pool].
    assert (is_r r (holding t') <= is_r r (holding t)); [|lia].
    destruct Hst; cbn [holding]; rewrite ?is_r_None; try apply is_r_nonneg; lia.
Qed.

Lemma opened_exclusive cap max idle p n : NewResourcePool cap max idle = Ret p -> exclusive (opened p n).
Proof.
  intros [_ ->]%NewResourcePool_Ret r. unfold places. cbn [opened pool threads resources made].
  rewrite !total_replicate. cbn [fst holding no_resource]. rewrite is_r_None. case_decide; lia.
Qed.

(** C26: a connection has one user: in every interleaving, also when calls that change
    the capacity overlap, no two goroutines use the same connection and none that is
    in use is in the pool. *)
Theorem connection_exclusive cap max idle p n s :
  NewResourcePool cap max idle = Ret p -> rtc step (opened p n) s ->
  forall i r, threads s !! i = Some (Own r) ->
    (forall j, threads s !! j = Some (Own r) -> i = j) /\ (forall w, w ∈ resources (pool s) -> w.1 <> Some r).
Proof.
  intros Hp Hrun. assert (exclusive s) as Hx.
  { pose proof (opened_exclusive _ _ _ _ n Hp) as H. clear Hp.
    induction Hrun as [|s1 s2 s3 Hst _ IH]; [done|]. by apply IH, (step_exclusive s1). }
  intros i r Hi. specialize (Hx r). unfold places in Hx.
  pose proof (total_nonneg (fun w : option nat * Z => is_r r w.1) (resources (pool s)) (fun w => is_r_nonneg r w.1)) as Hw.
  pose proof (total_le (fun t => is_r r (holding t)) (threads s) i _ (fun t => is_r_nonneg r _) Hi) as Hh.
  cbn [holding] in Hh. rewrite is_r_Some, decide_True in Hh by done.
  assert (places r s <= 1) as Hp1 by (unfold places; destruct (decide _) in Hx; lia). clear Hx. unfold places in Hp1. split.
  - intros j Hj. destruct (decide (i = j)) as [|Hne]; [done|].
    enough (is_r r (holding (Own r)) = 0) as K
      by (cbn [holding] in K; by rewrite is_r_Some, decide_True in K).
    apply (total_one (fun t => is_r r (holding t)) (threads s) i j (Own r) (Own r)); try done.
    + intros t. apply is_r_nonneg.
    + lia.
    + cbn [holding]. by rewrite is_r_Some, decide_True.
  - intros w [j Hj]%list_elem_of_lookup_1 Hwr.
    pose proof (total_le (fun w : option nat * Z => is_r r w.1) _ _ _ (fun w => is_r_nonneg r w.1) Hj) as H1.
    cbn beta in H1. rewrite Hwr, is_r_Some, decide_True in H1 by done. lia.
Qed.

(** ** Changing the capacity while all connections are in use *)

(** What a thread can be doing while the lock is taken and the channel is empty. *)
Definition waits (t : thread) : bool :=
  match t with
  | Out | Get0 | Get1 | GetWait | Own _ | Put0 _ | Set0 _ | Close0 | Idle0 | IdleLoop _ => true
  | _ => false
  end.

Record stuck (i : nat) (t : thread) (s : ConnectionPool) : Prop := {
  st_lock : mu s = Some i;
  st_thread : threads s !! i = Some t;
  st_empty : resources (pool s) = [];
  st_open : closed (pool s) = false;
  st_others : forall j u, threads s !! j = Some u -> j <> i -> waits u = true;
}.

(** The connection stays with its user. *)
Definition keeps (u u' : thread) : Prop :=
  match u with
  | Own r => u' = Own r \/ u' = Put0 (Some r) \/ u' = Put0 None
  | Put0 o => u' = Put0 o
  | _ => True
  end.

Lemma stuck_move i t s j u p' u' :
  stuck i t s -> threads s !! j = Some u -> j <> i -> waits u' = true ->
  resources p' = [] -> closed p' = false -> stuck i t (move s j p' u').
Proof.
  intros [H1 H2 H3 H4 H5] Hj Hne Hu R C. constructor; cbn; try done.
  - by rewrite list_lookup_insert_ne.
  - intros j' u0 Hj' Hne'. destruct (decide (j' = j)) as [->|Hd].
    + rewrite list_lookup_insert_eq in Hj' by (by eapply lookup_lt_Some). by injection Hj' as <-.
    + rewrite list_lookup_insert_ne in Hj' by done. by eapply H5.
Qed.

Lemma keeps_move s j u p' u' :
  threads s !! j = Some u -> keeps u u' ->
  forall j' v, threads s !! j' = Some v -> exists v', threads (move s j p' u') !! j' = Some v' /\ keeps v v'.
Proof.
  intros Hj Hk j' v Hv. cbn. destruct (decide (j' = j)) as [->|Hd].
  - rewrite Hj in Hv. injection Hv as <-. exists u'. split; [|done].
    apply list_lookup_insert_eq. by eapply lookup_lt_Some.
  - exists v. rewrite list_lookup_insert_ne by done. split; [done|]. destruct v; cbn; auto.
Qed.

Lemma stuck_step i b n k s s' :
  stuck i (Shrink b n (S k)) s -> step s s' ->
  stuck i (Shrink b n (S k)) s' /\
  forall j u, threads s !! j = Some u -> exists u', threads s' !! j = Some u' /\ keeps u u'.
Proof.
  intros Hs Hst. pose proof Hs as [H1 H2 H3 H4 H5].
  destruct Hst as [j t p' t' Hj Hst|j t m c k' p' t' Hj Hst|j t t' Hj Hst]; destruct (decide (j = i)) as [->|Hne].
  - rewrite H2 in Hj. injection Hj as <-. exfalso.
    destruct Hst as [Hst|Hst|b' n' Hst|Hst]; inversion Hst; congruence.
  - pose proof (H5 j t Hj Hne) as Hw. destruct Hst as [Hst|Hst|b' n' Hst|Hst]; inversion Hst; subst;
      cbn in Hw; try done; try congruence;
      (split; [by eapply stuck_move|by eapply keeps_move]).
  - rewrite H2 in Hj. injection Hj as <-. inversion Hst.
  - pose proof (H5 j t Hj Hne) as Hw. inversion Hst; subst; cbn in Hw; congruence.
  - rewrite H2 in Hj. injection Hj as <-. inversion Hst.
  - pose proof (H5 j t Hj Hne) as Hw.
    split; [eapply stuck_move|eapply keeps_move]; try done; destruct Hst; cbn; auto.
Qed.

Lemma keeps_trans u v w : keeps u v -> keeps v w -> keeps u w.
Proof. destruct u; cbn; intros H K; auto; [destruct H as [->|[->| ->]]|subst]; cbn in K; naive_solver. Qed.

Lemma stuck_run i b n k s s' :
  stuck i (Shrink b n (S k)) s -> rtc step s s' ->
  stuck i (Shrink b n (S k)) s' /\
  forall j u, threads s !! j = Some u -> exists u', threads s' !! j = Some u' /\ keeps u u'.
Proof.
  intros Hs Hrun. induction Hrun as [s|s s1 s' Hst _ IH].
  { split; [done|]. intros j u Hj. exists u. split; [done|]. destruct u; cbn; auto. }
  destruct (stuck_step _ _ _ _ _ _ Hs Hst) as [Hs1 K1]. destruct (IH Hs1) as [Hs' K2]. split; [done|].
  intros j u Hj. destruct (K1 j u Hj) as (u1 & Hj1 & Hk1). destruct (K2 j u1 Hj1) as (u2 & Hj2 & Hk2).
  exists u2. eauto using keeps_trans.
Qed.

(** C27: [ConnectionPool.SetCapacity] holds the lock of the pool while it waits for
    connections to come back, and [Put] needs that lock: called when all connections
    are in use it waits for ever, and with it every user of the pool. Whatever
    happens afterwards the channel stays empty and nobody gets rid of a connection. *)
Theorem shrink_blocks_forever s i n :
  threads s !! i = Some (Set0 n) -> mu s = None -> connections s = true ->
  resources (pool s) = [] -> closed (pool s) = false ->
  0 <= n < capacity (pool s) -> capacity (pool s) <= MaxCap (pool s) ->
  (forall j u, threads s !! j = Some u -> waits u = true) ->
  exists s1, rtc step s s1 /\ forall s2, rtc step s1 s2 ->
    mu s2 = Some i /\ resources (pool s2) = [] /\
    forall j r, threads s !! j = Some (Own r) ->
      exists u, threads s2 !! j = Some u /\ keeps (Own r) u.
Proof.
  intros Hi Hmu Hcon Hres Hcl Hn Hmax Hw.
  set (k := Nat.pred (Z.to_nat (capacity (pool s) - n))).
  assert (Z.to_nat (capacity (pool s) - n) = S k) as Hk by (subst k; lia).
  pose proof (lookup_lt_Some _ _ _ Hi) as Hlt.
  exists (mkConnectionPool (Some i) true (cp_capacity s) (set_capacity (pool s) n) (<[i := Shrink BySet n (S k)]> (threads s))).
  split.
  - eapply rtc_l; [by eapply step_lock, (set_lock i s n)|].
    eapply rtc_l; [eapply (step_pool _ i (Resize BySet n));
                   [by apply list_lookup_insert_eq|eapply pool_resize, resize_load; cbn; lia]|].
    eapply rtc_l; [eapply (step_pool _ i (Swap BySet (capacity (pool s)) n));
                   [apply list_lookup_insert_eq; cbn [move threads]; by rewrite length_insert|eapply pool_resize, resize_shrink; cbn; lia]|].
    unfold move. cbn [mu connections cp_capacity pool threads]. rewrite !list_insert_insert_eq, Hk. apply rtc_refl.
  - intros s2 Hrun. eapply (stuck_run i) in Hrun as [[S1 _ S3 _ _] K].
    + split; [done|]. split; [done|]. intros j r Hj. apply K. cbn [threads].
      rewrite list_lookup_insert_ne; [done|]. intros <-. congruence.
    + constructor; cbn; try done; [by apply list_lookup_insert_eq|].
      intros j u Hj Hne. rewrite list_lookup_insert_ne in Hj by done. by eapply Hw.
Qed.

(** ** Concrete pools *)

Definition pool_of (cap max : Z) : ResourcePool :=
  mkResourcePool (replicate (Z.to_nat cap) no_resource) max false cap cap 0 0 0 0 0 false 0.

(** The state a run has reached, evaluated. *)
Ltac evaluated := match goal with |- rtc _ ?s _ => let s' := eval vm_compute in s in change s with s' end.

Ltac orderly_here :=
  split; [by vm_compute|]; cbn [move threads insert list_insert]; rewrite ?not_elem_of_cons; split_and?; try done; apply not_elem_of_nil.

(** One step by the given rule. *)
Ltac go rule := evaluated; eapply rtc_l; [first [solve [rule] | unfold orderly_step; split; [rule|orderly_here]]|].

(** The rules of the relations for thread [i]. *)
Ltac by_call i c := go ltac:(eapply (step_call _ i); [reflexivity|apply c]).
Ltac by_lock i c := go ltac:(eapply (step_lock _ i); [reflexivity|eapply c; first [reflexivity|by left]]).
Ltac by_get i c := go ltac:(eapply (step_pool _ i); [reflexivity|eapply pool_get, c; reflexivity]).
Ltac by_put i c := go ltac:(eapply (step_pool _ i); [reflexivity|eapply pool_put, c; (done || reflexivity)]).
Ltac by_send i := go ltac:(eapply (step_pool _ i); [reflexivity|eapply pool_put, (put_send _ _ 0); (done || reflexivity)]).
Ltac by_resize i c := go ltac:(eapply (step_pool _ i); [reflexivity|eapply pool_resize, c; cbn; (done || lia)]).

(** Thread [i] gets a new connection. *)
Ltac gets i :=
  by_call i call_get; by_lock i get_pool; by_get i get_receive; by_get i get_factory; by_get i get_active;
  by_get i get_available; by_get i get_inUse.

(** It brings it back. *)
Ltac puts i :=
  by_call i call_put; by_lock i put_pool; by_put i put_resource; by_send i; by_put i put_inUse;
  by_put i put_available.

(** Two users and one that changes the capacity. *)
Definition busy : ConnectionPool :=
  mkConnectionPool None true 2 (mkResourcePool [] 2 false 2 0 2 2 0 0 0 false 2) [Own 0; Own 1; Set0 1].

Lemma busy_reached : rtc step (opened (pool_of 2 2) 3) busy.
Proof. gets 0%nat. gets 1%nat. by_call 2%nat (call_set 1). evaluated. apply rtc_refl. Qed.

Lemma shrink_blocks_forever_witness :
  rtc step (opened (pool_of 2 2) 3) busy /\
  exists s1, rtc step busy s1 /\ forall s2, rtc step s1 s2 ->
    mu s2 = Some 2%nat /\ resources (pool s2) = [] /\
    forall j r, threads busy !! j = Some (Own r) -> exists u, threads s2 !! j = Some u /\ keeps (Own r) u.
Proof.
  split; [exact busy_reached|]. apply (shrink_blocks_forever busy 2 1); try reflexivity; cbn; try lia.
  intros [|[|[|j]]] u Hu; cbn in Hu; by simplify_eq.
Defined.

(** Two calls of [SetCapacity] of one resource pool that overlap: the second puts new
    resources in before the first has taken the old ones out, and a user that brings
    its connection back panics. *)
Definition overlapping : ConnectionPool :=
  mkConnectionPool None true 2 (mkResourcePool [] 2 false 2 0 2 2 0 0 0 false 2)
    [Own 0; Own 1; Resize BySet 1; Resize ByClose 2].

Example overlapping_resizes_panic : exists s, rtc step overlapping s /\ Panicked ∈ threads s.
Proof.
  eexists. split.
  - by_resize 2%nat resize_load. by_resize 2%nat resize_shrink.
    by_resize 3%nat resize_load. by_resize 3%nat resize_grow. by_resize 3%nat grow_send.
    puts 0%nat. by_call 1%nat call_put. by_lock 1%nat put_pool. by_put 1%nat put_resource.
    by_put 1%nat put_full. evaluated. apply rtc_refl.
  - cbn. set_solver.
Qed.

(** A pool with one connection in use and one that came back. *)
Definition one_user : ConnectionPool :=
  mkConnectionPool None true 2 (mkResourcePool [(Some 1%nat, 0)] 3 false 2 1 2 1 0 0 0 false 2) [Own 0; Out].

Lemma one_user_reached : rtc orderly_step (opened (pool_of 2 3) 2) one_user.
Proof. gets 0%nat. gets 1%nat. puts 1%nat. evaluated. apply rtc_refl. Qed.

Lemma pool_accounts_witness :
  rtc orderly_step (opened (pool_of 2 3) 2) one_user /\
  zlen (resources (pool one_user)) + owners one_user = capacity (pool one_user) /\
  capacity (pool one_user) <= MaxCap (pool one_user) /\
  available (pool one_user) = zlen (resources (pool one_user)) /\ inUse (pool one_user) = owners one_user /\
  active (pool one_user) = total live (resources (pool one_user)) + owners one_user.
Proof.
  split; [exact one_user_reached|].
  apply (pool_accounts 2 3 0 (pool_of 2 3) 2 one_user); [reflexivity|exact one_user_reached|reflexivity].
Defined.

Lemma pool_never_panics_witness :
  NewResourcePool 2 3 0 = Ret (pool_of 2 3) /\ Panicked ∉ threads one_user.
Proof.
  split; [reflexivity|]. apply (pool_never_panics 2 3 0 (pool_of 2 3) 2 one_user); [reflexivity|exact one_user_reached].
Defined.

Lemma connection_exclusive_witness :
  (forall j, threads busy !! j = Some (Own 1) -> 1%nat = j) /\
  (forall w, w ∈ resources (pool busy) -> w.1 <> Some 1%nat).
Proof.
  apply (connection_exclusive 2 2 0 (pool_of 2 2) 3 busy); [reflexivity|exact busy_reached|reflexivity].
Defined.
