(* ===== verification/GoStr.v ===== *)
(** Strings, numbers and dates of the Go standard library, as far as the
    modelled packages use them: byte strings and their slicing, [strings.Split],
    [SplitN], [Trim], [ToLower], the decimal conversions of [strconv], the UTF-8
    decoding of [[]rune(s)], [crc32.ChecksumIEEE], and the calendar behind
    [time.Parse], [Time.Format] and [time.Unix]. *)

From Stdlib Require Import Ascii String.
From S2P Require Import Prelude.

#[global] Open Scope Z_scope.

(** * Byte strings *)

Definition byte_of (c : ascii) : Z := Z.of_nat (nat_of_ascii c).
Definition of_byte (z : Z) : ascii := ascii_of_nat (Z.to_nat z).

Definition slen (s : string) : Z := Z.of_nat (String.length s).

Fixpoint sbytes (s : string) : list Z :=
  match s with
  | EmptyString => []
  | String c r => byte_of c :: sbytes r
  end.

Fixpoint of_bytes (l : list Z) : string :=
  match l with
  | [] => EmptyString
  | b :: r => String (of_byte b) (of_bytes r)
  end.

(** [s[a:b]] *)
Definition ssub (s : string) (a b : Z) : outcome string :=
  if decide (0 <= a <= b /\ b <= slen s)
  then Ret (String.substring (Z.to_nat a) (Z.to_nat (b - a)) s)
  else Panic "slice bounds out of range".

(** The order [<] on strings: bytewise, a proper prefix is smaller. *)
Fixpoint sltb (s t : string) : bool :=
  match s, t with
  | _, EmptyString => false
  | EmptyString, String _ _ => true
  | String a s', String b t' =>
      if byte_of a <? byte_of b then true
      else if byte_of b <? byte_of a then false else sltb s' t'
  end.

(** [strings.Split(s, sep)] for a one-byte separator. *)
Fixpoint Split (sep : ascii) (s : string) : list string :=
  match s with
  | EmptyString => [EmptyString]
  | String c r =>
      if Ascii.eqb c sep then EmptyString :: Split sep r
      else match Split sep r with
           | h :: t => String c h :: t
           | [] => [String c EmptyString]
           end
  end.

(** [strings.SplitN(s, sep, 2)]: the text before and after the first
    separator, or the whole text. *)
Fixpoint split_first (sep : ascii) (s : string) : option (string * string) :=
  match s with
  | EmptyString => None
  | String c r =>
      if Ascii.eqb c sep then Some (EmptyString, r)
      else match split_first sep r with
           | Some (a, b) => Some (String c a, b)
           | None => None
           end
  end.

Definition SplitN2 (sep : ascii) (s : string) : list string :=
  match split_first sep s with
  | Some (a, b) => [a; b]
  | None => [s]
  end.

(** [strings.Replace(s, c, "", -1)] for a one-byte [c]. *)
Fixpoint remove_char (c : ascii) (s : string) : string :=
  match s with
  | EmptyString => EmptyString
  | String a r => if Ascii.eqb a c then remove_char c r else String a (remove_char c r)
  end.

Fixpoint trim_left (f : ascii -> bool) (s : string) : string :=
  match s with
  | String c r => if f c then trim_left f r else s
  | EmptyString => EmptyString
  end.

Fixpoint trim_right (f : ascii -> bool) (s : string) : string :=
  match s with
  | EmptyString => EmptyString
  | String c r =>
      match trim_right f r with
      | EmptyString => if f c then EmptyString else String c EmptyString
      | r' => String c r'
      end
  end.

(** [strings.TrimFunc] on single-byte characters. *)
Definition trim_func (f : ascii -> bool) (s : string) : string :=
  trim_right f (trim_left f s).

(** ASCII white space, as [strings.TrimSpace] sees it. *)
Definition is_space (c : ascii) : bool :=
  let b := byte_of c in (b =? 32) || ((9 <=? b) && (b <=? 13)).

Definition TrimSpace : string -> string := trim_func is_space.
Definition Trim (cut : ascii) : string -> string := trim_func (Ascii.eqb cut).

(** [strings.ToLower] on ASCII letters; other bytes are unchanged. *)
Definition lower (c : ascii) : ascii :=
  let b := byte_of c in
  if (65 <=? b) && (b <=? 90) then of_byte (b + 32) else c.

Fixpoint ToLower (s : string) : string :=
  match s with
  | EmptyString => EmptyString
  | String c r => String (lower c) (ToLower r)
  end.

(** * Decimal numbers: strconv *)

Definition digit_val (c : ascii) : option Z :=
  let b := byte_of c in
  if (48 <=? b) && (b <=? 57) then Some (b - 48) else None.

(** The digit loop of [ParseUint]: [n = n*10 + d], without the range check. *)
Fixpoint digits_val (acc : Z) (s : string) : option Z :=
  match s with
  | EmptyString => Some acc
  | String c r =>
      match digit_val c with
      | Some d => digits_val (acc * 10 + d) r
      | None => None
      end
  end.

Definition ErrSyntax : error := Named "strconv.ErrSyntax".
Definition ErrRange : error := Named "strconv.ErrRange".

(** The unsigned value of a non-empty digit string. *)
Definition udigits (s : string) : outcome Z :=
  match s with
  | EmptyString => Err ErrSyntax
  | _ => or_err ErrSyntax (digits_val 0 s)
  end.

(** [strconv.ParseUint(s, 10, 64)] *)
Definition ParseUint (s : string) : outcome Z :=
  n ← udigits s; if n <? 2 ^ 64 then Ret n else Err ErrRange.

(** [strconv.ParseInt(s, 10, 64)] *)
Definition ParseInt (s : string) : outcome Z :=
  match s with
  | String "-" r =>
      n ← udigits r; if n <=? 2 ^ 63 then Ret (- n) else Err ErrRange
  | String "+" r =>
      n ← udigits r; if n <? 2 ^ 63 then Ret n else Err ErrRange
  | _ => n ← udigits s; if n <? 2 ^ 63 then Ret n else Err ErrRange
  end.

(** [strconv.Atoi]: [ParseInt] at the width of [int]. *)
Definition Atoi (s : string) : outcome Z := ParseInt s.

Definition digit (d : Z) : ascii := of_byte (48 + d).

(** The digits of [n], least significant first onto [acc]; [fuel] bounds the
    number of digits. *)
Fixpoint fmt_digits (fuel : nat) (n : Z) (acc : string) : string :=
  match fuel with
  | O => acc
  | S f => if n <? 10 then String (digit n) acc
           else fmt_digits f (n / 10) (String (digit (n mod 10)) acc)
  end.

(** [strconv.FormatUint(n, 10)]: 20 digits hold every 64-bit number. *)
Definition FormatUint (n : Z) : string := fmt_digits 20 n "".

(** [strconv.FormatInt(n, 10)] and [strconv.Itoa(n)] *)
Definition FormatInt (n : Z) : string :=
  if n <? 0 then String "-" (FormatUint (- n)) else FormatUint n.

Definition Itoa : Z -> string := FormatInt.

Fixpoint zeros (n : nat) : string :=
  match n with O => "" | S m => String "0" (zeros m) end.

(** A number with at least [w] digits: [%0wd] on non-negative numbers and the
    [appendInt] of package time. *)
Definition zpad (w : nat) (n : Z) : string :=
  let d := FormatUint (Z.abs n) in
  let body := String.append (zeros (w - String.length d)) d in
  if n <? 0 then String "-" body else body.

(** * UTF-8: the conversion []rune(s) *)

Definition rune_error : Z := 65533.
Definition cont (b : Z) : bool := (128 <=? b) && (b <=? 191).
Definition within (a b x : Z) : bool := (a <=? x) && (x <=? b).

Definition utf8_2 (b0 b1 : Z) : option Z :=
  if within 194 223 b0 && cont b1
  then Some (Z.lor (Z.shiftl (Z.land b0 31) 6) (Z.land b1 63)) else None.

Definition utf8_3 (b0 b1 b2 : Z) : option Z :=
  let ok1 := if b0 =? 224 then within 160 191 b1
             else if b0 =? 237 then within 128 159 b1 else cont b1 in
  if within 224 239 b0 && ok1 && cont b2
  then Some (Z.lor (Z.lor (Z.shiftl (Z.land b0 15) 12) (Z.shiftl (Z.land b1 63) 6))
                   (Z.land b2 63)) else None.

Definition utf8_4 (b0 b1 b2 b3 : Z) : option Z :=
  let ok1 := if b0 =? 240 then within 144 191 b1
             else if b0 =? 244 then within 128 143 b1 else cont b1 in
  if within 240 244 b0 && ok1 && cont b2 && cont b3
  then Some (Z.lor (Z.lor (Z.shiftl (Z.land b0 7) 18) (Z.shiftl (Z.land b1 63) 12))
                   (Z.lor (Z.shiftl (Z.land b2 63) 6) (Z.land b3 63))) else None.

(** One rune per well-formed encoding, U+FFFD per ill-formed byte. *)
Fixpoint decode_runes (bs : list Z) : list Z :=
  match bs with
  | [] => []
  | b0 :: r0 =>
      if b0 <? 128 then b0 :: decode_runes r0 else
      match r0 with
      | [] => [rune_error]
      | b1 :: r1 =>
          match utf8_2 b0 b1 with
          | Some c => c :: decode_runes r1
          | None =>
              match r1 with
              | [] => rune_error :: decode_runes r0
              | b2 :: r2 =>
                  match utf8_3 b0 b1 b2 with
                  | Some c => c :: decode_runes r2
                  | None =>
                      match r2 with
                      | [] => rune_error :: decode_runes r0
                      | b3 :: r3 =>
                          match utf8_4 b0 b1 b2 b3 with
                          | Some c => c :: decode_runes r3
                          | None => rune_error :: decode_runes r0
                          end
                      end
                  end
              end
          end
      end
  end.

Definition runes (s : string) : list Z := decode_runes (sbytes s).

(** * hash/crc32: ChecksumIEEE, bit by bit *)

Definition crc32_poly : Z := 3988292384.

Fixpoint crc32_bits (n : nat) (c : Z) : Z :=
  match n with
  | O => c
  | S m => crc32_bits m (if Z.testbit c 0 then Z.lxor (Z.shiftr c 1) crc32_poly
                         else Z.shiftr c 1)
  end.

Definition crc32_byte (c b : Z) : Z := crc32_bits 8 (Z.lxor c b).

Definition ChecksumIEEE (s : string) : Z :=
  Z.lxor (foldl crc32_byte 4294967295 (sbytes s)) 4294967295.

(** * The calendar of package time

    The proleptic Gregorian calendar; days are counted from 1970-01-01. *)

Record date := mk_date { d_year : Z; d_month : Z; d_day : Z }.

#[global] Instance date_eq_dec : EqDecision date.
Proof. solve_decision. Defined.

Definition is_leap (y : Z) : bool :=
  (y mod 4 =? 0) && (negb (y mod 100 =? 0) || (y mod 400 =? 0)).

Definition days_in (m y : Z) : Z :=
  if m =? 2 then (if is_leap y then 29 else 28)
  else if (m =? 4) || (m =? 6) || (m =? 9) || (m =? 11) then 30 else 31.

Definition valid_date (d : date) : Prop :=
  1 <= d_month d <= 12 /\ 1 <= d_day d <= days_in (d_month d) (d_year d).

#[global] Instance valid_date_dec d : Decision (valid_date d).
Proof. unfold valid_date. apply _. Defined.

(** Days of the year before the first of month [m]. *)
Definition days_before_month (m y : Z) : Z :=
  let f := if is_leap y then 29 else 28 in
  if m <=? 1 then 0 else if m =? 2 then 31 else
  if m =? 3 then 31 + f else if m =? 4 then 62 + f else
  if m =? 5 then 92 + f else if m =? 6 then 123 + f else
  if m =? 7 then 153 + f else if m =? 8 then 184 + f else
  if m =? 9 then 215 + f else if m =? 10 then 245 + f else
  if m =? 11 then 276 + f else 306 + f.

(** Days from 1970-01-01 to the first of January of year [y]. *)
Definition days_before_year (y : Z) : Z :=
  365 * (y - 1) + (y - 1) / 4 - (y - 1) / 100 + (y - 1) / 400 - 719162.

Definition day_number (d : date) : Z :=
  days_before_year (d_year d) + days_before_month (d_month d) (d_year d) + d_day d - 1.

(** The following day, as [t.Add(24 * time.Hour)] gives it in UTC. *)
Definition next_day (d : date) : date :=
  if d_day d <? days_in (d_month d) (d_year d)
  then mk_date (d_year d) (d_month d) (d_day d + 1)
  else if d_month d <? 12 then mk_date (d_year d) (d_month d + 1) 1
  else mk_date (d_year d + 1) 1 1.

(** [Add(n * 24 * time.Hour)] *)
Fixpoint add_days (n : nat) (d : date) : date :=
  match n with O => d | S m => add_days m (next_day d) end.

(** [Format("20060102")] and [Format("2006-01-02")] *)
Definition format_ymd (sep : string) (d : date) : string :=
  String.append (zpad 4 (d_year d)) (String.append sep
  (String.append (zpad 2 (d_month d)) (String.append sep (zpad 2 (d_day d))))).

Definition ErrTimeParse : error := Named "time.ParseError".

(** Exactly [n] digits at the front of the text, with the rest. *)
Fixpoint take_digits (n : nat) (acc : Z) (s : string) : option (Z * string) :=
  match n with
  | O => Some (acc, s)
  | S m => match s with
           | String c r => d ← digit_val c; take_digits m (acc * 10 + d) r
           | EmptyString => None
           end
  end.

(** [time.Parse("20060102", s)] *)
Definition ParseDate8 (s : string) : outcome date :=
  '(y, s1) ← or_err ErrTimeParse (take_digits 4 0 s);
  '(m, s2) ← or_err ErrTimeParse (take_digits 2 0 s1);
  '(d, s3) ← or_err ErrTimeParse (take_digits 2 0 s2);
  match s3 with
  | EmptyString =>
      if decide (valid_date (mk_date y m d)) then Ret (mk_date y m d)
      else Err ErrTimeParse
  | _ => Err ErrTimeParse
  end.

(** [time.Parse("200601", s)]: year and month. *)
Definition ParseDate6 (s : string) : outcome (Z * Z) :=
  '(y, s1) ← or_err ErrTimeParse (take_digits 4 0 s);
  '(m, s2) ← or_err ErrTimeParse (take_digits 2 0 s1);
  match s2 with
  | EmptyString => if decide (1 <= m <= 12) then Ret (y, m) else Err ErrTimeParse
  | _ => Err ErrTimeParse
  end.

(** [time.Parse("2006", s)] *)
Definition ParseDate4 (s : string) : outcome Z :=
  '(y, s1) ← or_err ErrTimeParse (take_digits 4 0 s);
  match s1 with EmptyString => Ret y | _ => Err ErrTimeParse end.

(** The date of a day number (era / day-of-era arithmetic on 400-year cycles
    that start on the first of March). *)
Definition civil_of_days (n : Z) : date :=
  let z := n + 719468 in
  let era := z / 146097 in
  let doe := z mod 146097 in
  let yoe := (doe - doe / 1460 + doe / 36524 - doe / 146096) / 365 in
  let doy := doe - (365 * yoe + yoe / 4 - yoe / 100) in
  let mp := (5 * doy + 2) / 153 in
  let d := doy - (153 * mp + 2) / 5 + 1 in
  let m := if mp <? 10 then mp + 3 else mp - 9 in
  mk_date (yoe + era * 400 + (if m <=? 2 then 1 else 0)) m d.

(** Seconds from the absolute zero time of package time to the Unix epoch. *)
Definition unix_to_absolute : Z := 9223372028715321600.

(** The date of [time.Unix(sec, 0)] where the local zone is [offset] seconds
    east at that instant; the additions are those of int64 and the result is
    read as uint64, as [Time.abs] does. *)
Definition unix_date (offset sec : Z) : date :=
  let abs := u64 (sec + offset + unix_to_absolute) in
  civil_of_days (abs / 86400 - unix_to_absolute / 86400).

(** * Facts about strings and numbers *)

Lemma byte_of_range c : is_u8 (byte_of c).
Proof. unfold byte_of, is_u8. pose proof (nat_ascii_bounded c). lia. Qed.

Lemma byte_of_of_byte b : is_u8 b -> byte_of (of_byte b) = b.
Proof.
  unfold is_u8, byte_of, of_byte. intros.
  rewrite nat_ascii_embedding by lia. lia.
Qed.

Lemma of_byte_byte_of c : of_byte (byte_of c) = c.
Proof. unfold byte_of, of_byte. rewrite Nat2Z.id. apply ascii_nat_embedding. Qed.

Lemma sbytes_range s : Forall is_u8 (sbytes s).
Proof. induction s; cbn; constructor; auto using byte_of_range. Qed.

Lemma length_sbytes s : zlen (sbytes s) = slen s.
Proof. induction s; cbn [sbytes]; autorewrite with zlen; unfold slen in *; cbn; lia. Qed.

Lemma of_bytes_sbytes s : of_bytes (sbytes s) = s.
Proof. induction s; cbn; rewrite ?of_byte_byte_of; congruence. Qed.

Lemma slen_nonneg s : 0 <= slen s.
Proof. unfold slen. lia. Qed.

Lemma append_cons c s t : String.append (String c s) t = String c (String.append s t).
Proof. done. Qed.

Lemma slen_cons c s : slen (String c s) = slen s + 1.
Proof. unfold slen. change (String.length (String c s)) with (S (String.length s)). lia. Qed.

Lemma slen_append s t : slen (String.append s t) = slen s + slen t.
Proof.
  induction s as [|c s IH]; [done|]. rewrite append_cons, !slen_cons. lia.
Qed.

Lemma length_substring n m s :
  (n + m <= String.length s)%nat -> String.length (String.substring n m s) = m.
Proof.
  revert n m. induction s as [|c s IH]; intros [|n] [|m]; cbn; intros; try lia.
  - f_equal. apply IH. lia.
  - apply IH. lia.
  - apply IH. lia.
Qed.

Lemma ssub_Ret s a b t :
  ssub s a b = Ret t -> 0 <= a <= b /\ b <= slen s /\ slen t = b - a.
Proof.
  unfold ssub. case_decide as H; intros [= <-].
  unfold slen in *. rewrite length_substring; lia.
Qed.

Lemma ssub_in_range s a b :
  0 <= a <= b -> b <= slen s -> exists t, ssub s a b = Ret t /\ slen t = b - a.
Proof.
  intros Ha Hb. destruct (ssub s a b) eqn:E.
  - eauto using ssub_Ret. eexists. split; [done|]. eapply ssub_Ret; eauto.
  - unfold ssub in E. by case_decide.
  - unfold ssub in E. case_decide; naive_solver.
Qed.

Lemma digit_val_digit d : 0 <= d < 10 -> digit_val (digit d) = Some d.
Proof.
  intros. unfold digit_val, digit. rewrite byte_of_of_byte by (unfold is_u8; lia).
  destruct (48 <=? 48 + d) eqn:?, (48 + d <=? 57) eqn:?; cbn; try lia.
  f_equal. lia.
Qed.

Lemma digit_val_range c d : digit_val c = Some d -> 0 <= d < 10.
Proof. unfold digit_val. case_match; naive_solver lia. Qed.

Lemma digits_val_append acc s t :
  digits_val acc (String.append s t) = (v ← digits_val acc s; digits_val v t).
Proof.
  revert acc. induction s as [|c s IH]; intros acc; [done|].
  rewrite append_cons. cbn. destruct (digit_val c); [apply IH|done].
Qed.

Lemma digits_val_nonneg acc s v : 0 <= acc -> digits_val acc s = Some v -> acc <= v.
Proof.
  revert acc. induction s as [|c s IH]; cbn; intros acc Ha; [naive_solver lia|].
  destruct (digit_val c) as [d|] eqn:E; [|done]. apply digit_val_range in E.
  intros H. apply IH in H; lia.
Qed.

Lemma digits_val_fmt fuel n acc :
  0 <= n < 10 ^ Z.of_nat fuel ->
  digits_val 0 (fmt_digits fuel n acc) = digits_val n acc.
Proof.
  revert n acc. induction fuel as [|f IH]; intros n acc Hn.
  - cbn in *. f_equal. lia.
  - cbn [fmt_digits]. destruct (n <? 10) eqn:E.
    + cbn. rewrite digit_val_digit by lia. done.
    + rewrite Nat2Z.inj_succ, Z.pow_succ_r in Hn by lia.
      rewrite IH by (split; [apply Z.div_pos|apply Z.div_lt_upper_bound]; lia).
      cbn. rewrite digit_val_digit by (apply Z.mod_pos_bound; lia).
      f_equal. pose proof (Z.div_mod n 10). lia.
Qed.

Lemma fmt_digits_cons fuel n acc :
  0 <= n -> exists c r, fmt_digits (S fuel) n acc = String c r /\ is_Some (digit_val c).
Proof.
  revert n acc. induction fuel as [|f IH]; intros n acc Hn.
  - cbn. destruct (n <? 10) eqn:E; eexists _, _; (split; [reflexivity|]).
    + rewrite digit_val_digit by lia. eauto.
    + rewrite digit_val_digit by (apply Z.mod_pos_bound; lia). eauto.
  - cbn [fmt_digits]. destruct (n <? 10) eqn:E.
    + eexists _, _. split; [reflexivity|]. rewrite digit_val_digit by lia. eauto.
    + apply IH. apply Z.div_pos; lia.
Qed.

Lemma digits_val_FormatUint n :
  is_u64 n -> digits_val 0 (FormatUint n) = Some n.
Proof.
  intros. unfold FormatUint. rewrite digits_val_fmt; [done|].
  unfold_int. change (10 ^ Z.of_nat 20) with 100000000000000000000. lia.
Qed.

Lemma udigits_FormatUint n : is_u64 n -> udigits (FormatUint n) = Ret n.
Proof.
  intros H. pose proof (digits_val_FormatUint n H) as Hv.
  destruct (fmt_digits_cons 19 n "") as (c & r & E & _); [unfold_int; lia|].
  unfold FormatUint in *. rewrite E in *. unfold udigits. by rewrite Hv.
Qed.

Lemma ParseUint_FormatUint n : is_u64 n -> ParseUint (FormatUint n) = Ret n.
Proof.
  intros H. unfold ParseUint. rewrite udigits_FormatUint by done. cbn [mbind outcome_bind].
  destruct (n <? 2 ^ 64) eqn:E; [done|]. unfold is_u64 in H. lia.
Qed.

(** A text that starts with a digit is parsed without a sign. *)
Lemma ParseInt_unsigned c r :
  is_Some (digit_val c) ->
  ParseInt (String c r) =
    (n ← udigits (String c r); if n <? 2 ^ 63 then Ret n else Err ErrRange).
Proof.
  intros [d Hd]. unfold ParseInt.
  destruct (Ascii.eqb c "-") eqn:E1; [apply Ascii.eqb_eq in E1; by subst|].
  destruct (Ascii.eqb c "+") eqn:E2; [apply Ascii.eqb_eq in E2; by subst|].
  destruct c as [[] [] [] [] [] [] [] []]; cbn in *; done.
Qed.

Lemma ParseInt_FormatInt n : is_i64 n -> ParseInt (FormatInt n) = Ret n.
Proof.
  intros H. unfold FormatInt. destruct (n <? 0) eqn:E.
  - cbn -[FormatUint udigits Z.pow]. rewrite udigits_FormatUint by (unfold_int; lia). cbn [mbind outcome_bind].
    destruct (- n <=? 2 ^ 63) eqn:?; [f_equal; lia|]. unfold_int; lia.
  - destruct (fmt_digits_cons 19 n "") as (c & r & Ec & Hc); [lia|].
    pose proof (udigits_FormatUint n ltac:(unfold_int; lia)) as Hu.
    unfold FormatUint in *. rewrite Ec in *. rewrite ParseInt_unsigned by done.
    rewrite Hu. cbn [mbind outcome_bind]. destruct (n <? 2 ^ 63) eqn:?; [done|]. unfold_int; lia.
Qed.

Lemma udigits_nonneg s n : udigits s = Ret n -> 0 <= n.
Proof.
  unfold udigits. destruct s; [done|]. rewrite or_err_Ret.
  intros H. by eapply digits_val_nonneg in H.
Qed.

Lemma ParseUint_range s n : ParseUint s = Ret n -> is_u64 n.
Proof.
  unfold ParseUint. intros H. invert_ret. apply udigits_nonneg in H0.
  unfold is_u64. lia.
Qed.

Lemma ParseInt_cases s n :
  ParseInt s = Ret n ->
  exists t m, udigits t = Ret m /\ ((n = m /\ m < 2 ^ 63) \/ (n = - m /\ m <= 2 ^ 63)).
Proof.
  unfold ParseInt. intros H.
  assert (forall t (b : Z -> bool) (f : Z -> Z),
    (m ← udigits t; if b m then Ret (f m) else Err ErrRange) = Ret n ->
    exists m, udigits t = Ret m /\ b m = true /\ n = f m) as K.
  { intros t b f Hm. invert_ret. eauto. }
  repeat case_match; subst;
    first [apply (K _ (fun m => m <=? 2 ^ 63) (fun m => - m)) in H
          |apply (K _ (fun m => m <? 2 ^ 63) (fun m => m)) in H];
    destruct H as (m & Hm & Hb & ->); eexists _, m; (split; [exact Hm|]); lia.
Qed.

Lemma ParseInt_range s n : ParseInt s = Ret n -> is_i64 n.
Proof.
  intros (t & m & Hm & H)%ParseInt_cases. apply udigits_nonneg in Hm. unfold_int. lia.
Qed.

Lemma length_decode_runes bs : zlen (decode_runes bs) <= zlen bs.
Proof.
  remember (length bs) as n eqn:Hn. assert (length bs <= n)%nat as Hl by lia. clear Hn.
  revert bs Hl. induction n as [|n IH]; intros bs Hl.
  { destruct bs; cbn in *; [done|lia]. }
  assert (forall k, (length k < length bs)%nat -> zlen (decode_runes k) <= zlen k) as K.
  { intros k Hk. apply IH. lia. }
  destruct bs as [|b0 [|b1 [|b2 [|b3 r]]]]; cbn [decode_runes]; repeat case_match;
    autorewrite with zlen;
    repeat match goal with
    | |- context [decode_runes ?k] =>
        assert (zlen (decode_runes k) <= zlen k) by (apply K; cbn; lia);
        generalize dependent (decode_runes k); intros
    end; autorewrite with zlen in *; lia.
Qed.

Lemma length_runes s : zlen (runes s) <= slen s.
Proof. unfold runes. rewrite <- length_sbytes. apply length_decode_runes. Qed.

(** * Facts about padded numbers and the calendar *)

Lemma digits_val_shift acc s :
  digits_val acc s = (fun v => acc * 10 ^ slen s + v) <$> digits_val 0 s.
Proof.
  revert acc. induction s as [|c s IH]; intros acc.
  - cbn. f_equal. change (slen "") with 0. lia.
  - cbn [digits_val]. destruct (digit_val c) as [d|]; [|done].
    rewrite (IH (acc * 10 + d)), (IH (0 * 10 + d)).
    destruct (digits_val 0 s) as [v|]; [|done]. cbn. f_equal.
    rewrite slen_cons, Z.pow_add_r by (try apply slen_nonneg; lia).
    change (10 ^ 1) with 10. ring.
Qed.

Lemma slen_fmt_digits fuel n acc (k : nat) :
  0 <= n < 10 ^ Z.of_nat k -> (1 <= k)%nat ->
  slen (fmt_digits fuel n acc) <= Z.of_nat k + slen acc.
Proof.
  revert n acc k. induction fuel as [|f IH]; intros n acc k Hn Hk; cbn [fmt_digits].
  { lia. }
  destruct (n <? 10) eqn:E; [rewrite slen_cons; lia|].
  destruct k as [|[|k]]; [lia| |].
  - change (10 ^ Z.of_nat 1) with 10 in Hn. lia.
  - etrans; [apply (IH _ _ (S k)); [|lia]|rewrite slen_cons; lia].
    rewrite (Nat2Z.inj_succ (S k)), Z.pow_succ_r in Hn by lia.
    split; [apply Z.div_pos|apply Z.div_lt_upper_bound]; lia.
Qed.

Lemma digits_val_zeros n s : digits_val 0 (String.append (zeros n) s) = digits_val 0 s.
Proof. induction n as [|n IH]; [done|]. cbn [zeros]. rewrite append_cons. cbn. apply IH. Qed.

Lemma slen_zeros n : slen (zeros n) = Z.of_nat n.
Proof. induction n; [done|]. cbn [zeros]. rewrite slen_cons. lia. Qed.

Lemma digits_val_zpad acc w n :
  0 <= n < 10 ^ Z.of_nat w -> (1 <= w <= 18)%nat ->
  digits_val acc (zpad w n) = Some (acc * 10 ^ Z.of_nat w + n).
Proof.
  intros Hn Hw.
  assert (is_u64 n) as H64.
  { assert (10 ^ Z.of_nat w <= 10 ^ 18) by (apply Z.pow_le_mono_r; lia).
    unfold_int. change (10 ^ 18) with 1000000000000000000 in *. lia. }
  pose proof (slen_fmt_digits 20 n "" w ltac:(lia) ltac:(lia)) as Hl.
  change (slen "") with 0 in Hl.
  unfold zpad. rewrite Z.abs_eq by lia.
  destruct (n <? 0) eqn:?; [lia|]. fold (FormatUint n) in Hl.
  rewrite digits_val_shift, digits_val_zeros, digits_val_FormatUint by done.
  cbn [fmap option_fmap option_map]. f_equal. rewrite slen_append, slen_zeros. unfold slen in *.
  f_equal. f_equal. f_equal. lia.
Qed.

Lemma digits_val_zpad_app acc w n t :
  0 <= n < 10 ^ Z.of_nat w -> (1 <= w <= 18)%nat ->
  digits_val acc (String.append (zpad w n) t) = digits_val (acc * 10 ^ Z.of_nat w + n) t.
Proof. intros. rewrite digits_val_append, digits_val_zpad; done. Qed.

Lemma append_empty s : String.append "" s = s.
Proof. done. Qed.

(** The eight-digit number of a date. *)
Definition ymd (d : date) : Z := d_year d * 10000 + d_month d * 100 + d_day d.

Lemma days_in_range m y : 28 <= days_in m y <= 31.
Proof. unfold days_in. repeat case_match; lia. Qed.

Lemma zpad_head w n : 0 <= n -> (1 <= w)%nat ->
  exists c r, zpad w n = String c r /\ is_Some (digit_val c).
Proof.
  intros Hn Hw. unfold zpad. rewrite Z.abs_eq by lia. destruct (n <? 0) eqn:?; [lia|].
  destruct (w - _)%nat.
  - destruct (fmt_digits_cons 19 n "") as (c & r & E & Hc); [lia|].
    unfold FormatUint. rewrite E. eauto.
  - cbn [zeros]. rewrite append_cons. eexists _, _. split; [done|]. eexists; reflexivity.
Qed.

Lemma Atoi_format_ymd d :
  valid_date d -> 0 <= d_year d <= 9999 -> Atoi (format_ymd "" d) = Ret (ymd d).
Proof.
  intros [Hm Hd] Hy. pose proof (days_in_range (d_month d) (d_year d)).
  assert (digits_val 0 (format_ymd "" d) = Some (ymd d)) as Hv.
  { unfold format_ymd. rewrite !append_empty, !digits_val_zpad_app, digits_val_zpad by (cbn; lia).
    f_equal. unfold ymd. change (Z.of_nat 4) with 4. change (Z.of_nat 2) with 2. lia. }
  destruct (zpad_head 4 (d_year d)) as (c & r & E & Hc); [lia|lia|].
  unfold format_ymd in *. rewrite E, append_cons in *.
  unfold Atoi. rewrite ParseInt_unsigned by done.
  unfold udigits. rewrite Hv. cbn [or_err mbind outcome_bind].
  destruct (ymd d <? 2 ^ 63) eqn:?; [done|]. unfold ymd in *. lia.
Qed.

Lemma next_day_valid d : valid_date d -> valid_date (next_day d).
Proof.
  unfold valid_date, next_day. intros [Hm Hd].
  destruct (_ <? _) eqn:E; cbn; [lia|].
  destruct (d_month d <? 12) eqn:E2; cbn;
    [pose proof (days_in_range (d_month d + 1) (d_year d))
    |pose proof (days_in_range 1 (d_year d + 1))]; lia.
Qed.

Lemma next_day_ymd d : valid_date d -> ymd d < ymd (next_day d).
Proof.
  unfold valid_date, next_day, ymd. intros [Hm Hd].
  pose proof (days_in_range (d_month d) (d_year d)).
  destruct (_ <? _) eqn:E; cbn; [lia|]. destruct (d_month d <? 12) eqn:E2; cbn; lia.
Qed.

Lemma days_in_before m y :
  1 <= m < 12 -> days_before_month (m + 1) y = days_before_month m y + days_in m y.
Proof.
  intros Hm. assert (m = 1 \/ m = 2 \/ m = 3 \/ m = 4 \/ m = 5 \/ m = 6 \/ m = 7 \/
    m = 8 \/ m = 9 \/ m = 10 \/ m = 11) as C by lia.
  unfold days_before_month, days_in. destruct (is_leap y).
  all: decompose [or] C; subst; reflexivity.
Qed.

Lemma leap_year_days y :
  days_before_year (y + 1) = days_before_year y + (if is_leap y then 366 else 365).
Proof.
  unfold days_before_year, is_leap.
  destruct (y mod 4 =? 0) eqn:E4, (y mod 100 =? 0) eqn:E1, (y mod 400 =? 0) eqn:E400;
    cbn; Z.div_mod_to_equations; lia.
Qed.

(** The calendar step advances the day count by one. *)
Lemma day_number_next d : valid_date d -> day_number (next_day d) = day_number d + 1.
Proof.
  intros [Hm Hd]. unfold next_day, day_number.
  destruct (_ <? _) eqn:E; cbn [d_year d_month d_day]; [lia|].
  destruct (d_month d <? 12) eqn:E2; cbn [d_year d_month d_day].
  - rewrite days_in_before by lia. lia.
  - replace (d_month d) with 12 in * by lia. rewrite leap_year_days.
    change (days_before_month 1 (d_year d + 1)) with 0.
    unfold days_before_month, days_in in *. cbn in *. destruct (is_leap (d_year d)); lia.
Qed.

(** ** The day count orders dates as their eight-digit numbers do *)

Lemma days_before_month_mono m m' y :
  1 <= m -> m < m' -> m' <= 12 -> days_before_month m y + days_in m y <= days_before_month m' y.
Proof.
  intros H1 H2 H3. rewrite <- days_in_before by lia.
  assert (exists k : nat, m' = m + 1 + Z.of_nat k) as [k ->]
    by (exists (Z.to_nat (m' - m - 1)); lia). clear H2.
  induction k as [|k IH]; [rewrite Z.add_0_r; lia|].
  replace (m + 1 + Z.of_nat (S k)) with (m + 1 + Z.of_nat k + 1) by lia.
  rewrite (days_in_before (m + 1 + Z.of_nat k)) by lia.
  pose proof (days_in_range (m + 1 + Z.of_nat k) y). specialize (IH ltac:(lia)). lia.
Qed.

Lemma day_of_year_bound m d y :
  1 <= m <= 12 -> 1 <= d <= days_in m y ->
  0 <= days_before_month m y /\
  days_before_month m y + d <= if is_leap y then 366 else 365.
Proof.
  intros Hm Hd.
  assert (0 <= days_before_month m y) by (unfold days_before_month; repeat case_match; lia).
  split; [done|]. destruct (Z.eq_dec m 12) as [->|].
  - unfold days_before_month, days_in in *. cbn in *. destruct (is_leap y); lia.
  - pose proof (days_before_month_mono m 12 y ltac:(lia) ltac:(lia) ltac:(lia)).
    unfold days_before_month at 2 in H0. cbn in H0. destruct (is_leap y); lia.
Qed.

Lemma days_before_year_mono y y' : y <= y' -> days_before_year y <= days_before_year y'.
Proof. unfold days_before_year. intros. Z.div_mod_to_equations. lia. Qed.

Lemma day_number_lt d e :
  valid_date d -> valid_date e -> ymd d < ymd e -> day_number d < day_number e.
Proof.
  intros [Hm Hd] [Hm' Hd'] Hlt. unfold ymd in Hlt. unfold day_number.
  pose proof (days_in_range (d_month d) (d_year d)).
  pose proof (days_in_range (d_month e) (d_year e)).
  destruct (day_of_year_bound _ _ _ Hm Hd), (day_of_year_bound _ _ _ Hm' Hd').
  destruct (Z.lt_trichotomy (d_year d) (d_year e)) as [Hy|[Hy|Hy]]; [| |lia].
  - pose proof (days_before_year_mono (d_year d + 1) (d_year e) ltac:(lia)) as Hb.
    rewrite leap_year_days in Hb. destruct (is_leap (d_year d)); lia.
  - rewrite <- Hy in *. destruct (Z.lt_trichotomy (d_month d) (d_month e)) as [Hmm|[Hmm|Hmm]].
    + pose proof (days_before_month_mono (d_month d) (d_month e) (d_year d) ltac:(lia) Hmm ltac:(lia)). lia.
    + rewrite <- Hmm. lia.
    + lia.
Qed.

Lemma ymd_inj d e : valid_date d -> valid_date e -> ymd d = ymd e -> d = e.
Proof.
  destruct d as [y m d], e as [y' m' e]. unfold valid_date, ymd. cbn. intros [Hm Hd] [Hm' Hd'] H.
  pose proof (days_in_range m y). pose proof (days_in_range m' y').
  f_equal; lia.
Qed.

Lemma day_number_inj d e :
  valid_date d -> valid_date e -> day_number d = day_number e -> d = e.
Proof.
  intros Hd He H. apply ymd_inj; [done|done|].
  destruct (Z.lt_trichotomy (ymd d) (ymd e)) as [Hl|[Hl|Hl]]; [|done|];
    apply day_number_lt in Hl; (done || lia).
Qed.

Lemma add_days_valid n d : valid_date d -> valid_date (add_days n d).
Proof. revert d. induction n; cbn; auto using next_day_valid. Qed.

Lemma day_number_add n d :
  valid_date d -> day_number (add_days n d) = day_number d + Z.of_nat n.
Proof.
  revert d. induction n as [|n IH]; intros d Hd; cbn [add_days]; [lia|].
  rewrite IH by auto using next_day_valid. rewrite day_number_next by done. lia.
Qed.

(** The date [n] days after [d] is the only valid date with that day count. *)
Lemma add_days_unique n d e :
  valid_date d -> valid_date e -> day_number e = day_number d + Z.of_nat n -> e = add_days n d.
Proof.
  intros Hd He H. apply day_number_inj; auto using add_days_valid.
  by rewrite day_number_add.
Qed.

Lemma day_number_ymd_le d e :
  valid_date d -> valid_date e -> day_number d <= day_number e <-> ymd d <= ymd e.
Proof.
  intros Hd He. split; intros H.
  - destruct (Z.le_gt_cases (ymd d) (ymd e)) as [|Hg]; [done|].
    apply day_number_lt in Hg; (done || lia).
  - destruct (Z.le_gt_cases (day_number d) (day_number e)) as [|Hg]; [done|].
    destruct (Z.eq_dec (ymd d) (ymd e)) as [E|E].
    + apply ymd_inj in E; [subst; lia|done|done].
    + pose proof (day_number_lt d e Hd He ltac:(lia)). lia.
Qed.

Lemma take_digits_range n acc s v r :
  0 <= acc -> take_digits n acc s = Some (v, r) -> 0 <= v < (acc + 1) * 10 ^ Z.of_nat n.
Proof.
  revert acc s. induction n as [|n IH]; intros acc s Ha H; cbn [take_digits] in H.
  - injection H as -> ->. cbn. lia.
  - destruct s as [|c s]; [done|]. destruct (digit_val c) as [d|] eqn:E; [|done].
    apply digit_val_range in E. cbn in H. apply IH in H; [|lia].
    rewrite Nat2Z.inj_succ, Z.pow_succ_r by lia. nia.
Qed.

Lemma ParseDate8_valid s d :
  ParseDate8 s = Ret d -> valid_date d /\ 0 <= d_year d <= 9999.
Proof.
  unfold ParseDate8. intros H. invert_ret.
  destruct a as [y s1]. invert_ret. destruct a as [m s2]. invert_ret. destruct a as [dd s3].
  destruct s3; [|done]. case_decide; [|done]. invert_ret. split; [done|].
  apply take_digits_range in H0; cbn in *; lia.
Qed.

Lemma take_digits_slen n acc s v r :
  take_digits n acc s = Some (v, r) -> slen s = Z.of_nat n + slen r.
Proof.
  revert acc s. induction n as [|n IH]; intros acc s H; cbn [take_digits] in H.
  - injection H as -> ->. lia.
  - destruct s as [|c s]; [done|]. destruct (digit_val c) as [d|]; [|done].
    apply IH in H. rewrite slen_cons. lia.
Qed.

(** The digits a date field consumed are the decimal number of that prefix. *)
Lemma take_digits_split n acc s v r :
  take_digits n acc s = Some (v, r) ->
  exists p, s = String.append p r /\ String.length p = n /\ digits_val acc p = Some v.
Proof.
  revert acc s. induction n as [|n IH]; intros acc s H; cbn [take_digits] in H.
  - injection H as -> ->. by exists "".
  - destruct s as [|c s]; [done|]. destruct (digit_val c) as [d|] eqn:E; [|done].
    apply IH in H as (p & -> & Hp & Hv). exists (String c p).
    split; [done|]. split; [by cbn; f_equal|]. cbn. by rewrite E.
Qed.

Lemma substring_prefix p r : String.substring 0 (String.length p) (String.append p r) = p.
Proof.
  induction p as [|c p IH]; [by destruct r|]. rewrite append_cons.
  cbn [String.length String.substring]. by rewrite IH.
Qed.

Lemma substring_all s : String.substring 0 (String.length s) s = s.
Proof. induction s as [|c s IH]; [done|]. cbn. by rewrite IH. Qed.

Lemma substring_suffix p r :
  String.substring (String.length p) (String.length r) (String.append p r) = r.
Proof.
  induction p as [|c p IH]; [apply substring_all|]. rewrite append_cons.
  cbn [String.length String.substring]. apply IH.
Qed.

Lemma ssub_prefix p r : ssub (String.append p r) 0 (slen p) = Ret p.
Proof.
  unfold ssub. rewrite decide_True.
  - f_equal. rewrite Z.sub_0_r. unfold slen. rewrite Nat2Z.id. apply substring_prefix.
  - rewrite slen_append. pose proof (slen_nonneg p). pose proof (slen_nonneg r). lia.
Qed.

Lemma ssub_suffix p r :
  ssub (String.append p r) (slen p) (slen (String.append p r)) = Ret r.
Proof.
  unfold ssub. rewrite decide_True.
  - f_equal. rewrite slen_append. replace (slen p + slen r - slen p) with (slen r) by lia.
    unfold slen. rewrite !Nat2Z.id. apply substring_suffix.
  - rewrite slen_append. pose proof (slen_nonneg p). pose proof (slen_nonneg r). lia.
Qed.

Lemma Atoi_digits p v :
  (1 <= String.length p)%nat -> digits_val 0 p = Some v -> v < 2 ^ 63 -> Atoi p = Ret v.
Proof.
  intros Hl Hv Hr. destruct p as [|c p]; [cbn in Hl; lia|].
  assert (is_Some (digit_val c)) by (cbn in Hv; destruct (digit_val c); [eauto|done]).
  unfold Atoi. rewrite ParseInt_unsigned by done. unfold udigits. rewrite Hv.
  cbn [or_err mbind outcome_bind]. destruct (v <? 2 ^ 63) eqn:?; [done|lia].
Qed.

Lemma ParseDate8_slen s d : ParseDate8 s = Ret d -> slen s = 8.
Proof.
  unfold ParseDate8. intros H. invert_ret. destruct a as [y s1]. invert_ret.
  destruct a as [m s2]. invert_ret. destruct a as [dd s3]. destruct s3; [|done].
  apply take_digits_slen in H0, H1, H2. change (slen "") with 0 in *. lia.
Qed.

(** A six-digit year and month, and the numbers of its two slices. *)
Lemma ParseDate6_fields s y m :
  ParseDate6 s = Ret (y, m) ->
  slen s = 6 /\ 1 <= m <= 12 /\ 0 <= y <= 9999 /\
  (ys ← ssub s 0 4; Atoi ys) = Ret y /\ (ms ← ssub s 4 (slen s); Atoi ms) = Ret m.
Proof.
  unfold ParseDate6. intros H. invert_ret. destruct a as [y' s1]. invert_ret.
  destruct a as [m' s2]. destruct s2; [|done]. case_decide; [|done]. injection H as -> ->.
  pose proof H0 as Hy. apply take_digits_range in Hy; [|lia].
  apply take_digits_split in H0 as (p & -> & Hp & Hv), H1 as (q & -> & Hq & Hw).
  change (0 + 1) with 1 in Hy. change (1 * 10 ^ Z.of_nat 4) with 10000 in Hy.
  assert (slen p = 4) as Hp4 by (unfold slen; lia).
  assert (slen (String.append q "") = 2) as Hq2
    by (rewrite slen_append; unfold slen; rewrite Hq; done).
  split_and!; [rewrite slen_append; lia|lia|lia|lia|lia| |].
  - rewrite <- Hp4, ssub_prefix. cbn [mbind outcome_bind]. apply Atoi_digits; [lia|done|lia].
  - rewrite <- Hp4 at 1. rewrite ssub_suffix. cbn [mbind outcome_bind].
    apply Atoi_digits; [unfold slen in Hq2; lia| |lia].
    by rewrite digits_val_append, Hw.
Qed.
