(* ===== verification/Keywords.v ===== *)
(** parser/misc.go: the key words of SQL and the tokens they stand for, by the names
    of the constants of the grammar. *)

From Stdlib Require Import Ascii String.
From S2P Require Import Prelude GoStr.

(** Key words *)
Definition tokenMap : list (string * string) :=
  [("ACTION", "action"); ("ADD", "add"); ("ADDDATE", "addDate"); ("ADMIN", "admin");
   ("AFTER", "after"); ("ALL", "all"); ("ALGORITHM", "algorithm"); ("ALTER", "alter");
   ("ALWAYS", "always"); ("ANALYZE", "analyze"); ("AND", "and"); ("ANY", "any"); ("AS", "as");
   ("ASC", "asc"); ("ASCII", "ascii"); ("AUTO_INCREMENT", "autoIncrement"); ("AVG", "avg");
   ("AVG_ROW_LENGTH", "avgRowLength"); ("BEGIN", "begin"); ("BETWEEN", "between");
   ("BIGINT", "bigIntType"); ("BINARY", "binaryType"); ("BINLOG", "binlog"); ("BIT", "bitType");
   ("BIT_AND", "bitAnd"); ("BIT_OR", "bitOr"); ("BIT_XOR", "bitXor"); ("BLOB", "blobType");
   ("BOOL", "boolType"); ("BOOLEAN", "booleanType"); ("BOTH", "both"); ("BTREE", "btree");
   ("BUCKETS", "buckets"); ("BY", "by"); ("BYTE", "byteType"); ("CANCEL", "cancel");
   ("CASCADE", "cascade"); ("CASCADED", "cascaded"); ("CASE", "caseKwd"); ("CAST", "cast");
   ("CHANGE", "change"); ("CHAR", "charType"); ("CHARACTER", "character");
   ("CHARSET", "charsetKwd"); ("CHECK", "check"); ("CHECKSUM", "checksum");
   ("CLEANUP", "cleanup"); ("CLIENT", "client"); ("COALESCE", "coalesce");
   ("COLLATE", "collate"); ("COLLATION", "collation"); ("COLUMN", "column");
   ("COLUMNS", "columns"); ("COMMENT", "comment"); ("COMMIT", "commit");
   ("COMMITTED", "committed"); ("COMPACT", "compact"); ("COMPRESSED", "compressed");
   ("COMPRESSION", "compression"); ("CONNECTION", "connection"); ("CONSISTENT", "consistent");
   ("CONSTRAINT", "constraint"); ("CONVERT", "convert"); ("COPY", "copyKwd");
   ("COUNT", "count"); ("CREATE", "create"); ("CROSS", "cross"); ("CURRENT", "current");
   ("CURRENT_DATE", "currentDate"); ("CURRENT_TIME", "currentTime");
   ("CURRENT_TIMESTAMP", "currentTs"); ("CURRENT_USER", "currentUser"); ("CURTIME", "curTime");
   ("DATA", "data"); ("DATABASE", "database"); ("DATABASES", "databases"); ("DATE", "dateType");
   ("DATE_ADD", "dateAdd"); ("DATE_SUB", "dateSub"); ("DATETIME", "datetimeType");
   ("DAY", "day"); ("DAY_HOUR", "dayHour"); ("DAY_MICROSECOND", "dayMicrosecond");
   ("DAY_MINUTE", "dayMinute"); ("DAY_SECOND", "daySecond"); ("DDL", "ddl");
   ("DEALLOCATE", "deallocate"); ("DEC", "decimalType"); ("DECIMAL", "decimalType");
   ("DEFAULT", "defaultKwd"); ("DEFINER", "definer"); ("DELAY_KEY_WRITE", "delayKeyWrite");
   ("DELAYED", "delayed"); ("DELETE", "deleteKwd"); ("DESC", "desc"); ("DESCRIBE", "describe");
   ("DISABLE", "disable"); ("DISTINCT", "distinct"); ("DISTINCTROW", "distinct");
   ("DIV", "div"); ("DO", "do"); ("DOUBLE", "doubleType"); ("DRAINER", "drainer");
   ("DROP", "drop"); ("DUAL", "dual"); ("DUPLICATE", "duplicate"); ("DYNAMIC", "dynamic");
   ("ELSE", "elseKwd"); ("ENABLE", "enable"); ("ENCLOSED", "enclosed"); ("END", "end");
   ("ENGINE", "engine"); ("ENGINES", "engines"); ("ENUM", "enum"); ("ESCAPE", "escape");
   ("ESCAPED", "escaped"); ("EVENT", "event"); ("EVENTS", "events"); ("EXCLUSIVE", "exclusive");
   ("EXCEPT", "except"); ("EXECUTE", "execute"); ("EXISTS", "exists"); ("EXPLAIN", "explain");
   ("EXTRACT", "extract"); ("FALSE", "falseKwd"); ("FIELDS", "fields"); ("FIRST", "first");
   ("FIXED", "fixed"); ("FLOAT", "floatType"); ("FLUSH", "flush"); ("FOLLOWING", "following");
   ("FOR", "forKwd"); ("FORCE", "force"); ("FOREIGN", "foreign"); ("FORMAT", "format");
   ("FROM", "from"); ("FULL", "full"); ("FULLTEXT", "fulltext"); ("FUNCTION", "function");
   ("GENERATED", "generated"); ("GET_FORMAT", "getFormat"); ("GLOBAL", "global");
   ("GRANT", "grant"); ("GRANTS", "grants"); ("GROUP", "group");
   ("GROUP_CONCAT", "groupConcat"); ("HASH", "hash"); ("HAVING", "having");
   ("HIGH_PRIORITY", "highPriority"); ("HOUR", "hour"); ("HOUR_MICROSECOND", "hourMicrosecond");
   ("HOUR_MINUTE", "hourMinute"); ("HOUR_SECOND", "hourSecond"); ("IDENTIFIED", "identified");
   ("IF", "ifKwd"); ("IGNORE", "ignore"); ("IN", "in"); ("INDEX", "index");
   ("INDEXES", "indexes"); ("INFILE", "infile"); ("INNER", "inner"); ("INPLACE", "inplace");
   ("INSTANT", "instant"); ("INSERT", "insert"); ("INT", "intType"); ("INT1", "int1Type");
   ("INT2", "int2Type"); ("INT3", "int3Type"); ("INT4", "int4Type"); ("INT8", "int8Type");
   ("INTEGER", "integerType"); ("INTERVAL", "interval"); ("INTERNAL", "internal");
   ("INTO", "into"); ("INVOKER", "invoker"); ("IS", "is"); ("ISOLATION", "isolation");
   ("JOBS", "jobs"); ("JOB", "job"); ("JOIN", "join"); ("JSON", "jsonType"); ("KEY", "key");
   ("KEY_BLOCK_SIZE", "keyBlockSize"); ("KEYS", "keys"); ("KILL", "kill"); ("LAST", "last");
   ("LEADING", "leading"); ("LEFT", "left"); ("LESS", "less"); ("LEVEL", "level");
   ("LIKE", "like"); ("LIMIT", "limit"); ("LINES", "lines"); ("LOAD", "load");
   ("LOCAL", "local"); ("LOCALTIME", "localTime"); ("LOCALTIMESTAMP", "localTs");
   ("LOCK", "lock"); ("LONG", "long"); ("LONGBLOB", "longblobType");
   ("LONGTEXT", "longtextType"); ("LOW_PRIORITY", "lowPriority"); ("MASTER", "master");
   ("MAX", "max"); ("MAX_CONNECTIONS_PER_HOUR", "maxConnectionsPerHour");
   ("MAX_EXECUTION_TIME", "maxExecutionTime"); ("MAX_QUERIES_PER_HOUR", "maxQueriesPerHour");
   ("MAX_ROWS", "maxRows"); ("MAX_UPDATES_PER_HOUR", "maxUpdatesPerHour");
   ("MAX_USER_CONNECTIONS", "maxUserConnections"); ("MAXVALUE", "maxValue");
   ("MEDIUMBLOB", "mediumblobType"); ("MEDIUMINT", "mediumIntType");
   ("MEDIUMTEXT", "mediumtextType"); ("MERGE", "merge"); ("MICROSECOND", "microsecond");
   ("MIN", "min"); ("MIN_ROWS", "minRows"); ("MINUTE", "minute");
   ("MINUTE_MICROSECOND", "minuteMicrosecond"); ("MINUTE_SECOND", "minuteSecond");
   ("MOD", "mod"); ("MODE", "mode"); ("MODIFY", "modify"); ("MONTH", "month");
   ("NAMES", "names"); ("NATIONAL", "national"); ("NATURAL", "natural");
   ("NEXT_ROW_ID", "next_row_id"); ("NO", "no"); ("NO_WRITE_TO_BINLOG", "noWriteToBinLog");
   ("NONE", "none"); ("NOT", "not"); ("NOW", "now"); ("NULL", "null"); ("NULLS", "nulls");
   ("NUMERIC", "numericType"); ("NVARCHAR", "nvarcharType"); ("OFFSET", "offset"); ("ON", "on");
   ("ONLY", "only"); ("OPTION", "option"); ("OPTIONALLY", "optionally"); ("OR", "or");
   ("ORDER", "order"); ("OUTER", "outer"); ("PACK_KEYS", "packKeys");
   ("PARTITION", "partition"); ("PARTITIONS", "partitions"); ("PASSWORD", "password");
   ("PLUGINS", "plugins"); ("POSITION", "position"); ("PRECEDING", "preceding");
   ("PRECISION", "precisionType"); ("PREPARE", "prepare"); ("PRIMARY", "primary");
   ("PRIVILEGES", "privileges"); ("PROCEDURE", "procedure"); ("PROCESS", "process");
   ("PROCESSLIST", "processlist"); ("PROFILES", "profiles"); ("PUMP", "pump");
   ("QUARTER", "quarter"); ("QUERY", "query"); ("QUERIES", "queries"); ("QUICK", "quick");
   ("SHARD_ROW_ID_BITS", "shardRowIDBits"); ("RANGE", "rangeKwd"); ("RECOVER", "recover");
   ("READ", "read"); ("REAL", "realType"); ("RECENT", "recent"); ("REDUNDANT", "redundant");
   ("REFERENCES", "references"); ("REGEXP", "regexpKwd"); ("RELOAD", "reload");
   ("RENAME", "rename"); ("REPEAT", "repeat"); ("REPEATABLE", "repeatable");
   ("REPLACE", "replace"); ("RESPECT", "respect"); ("REPLICATION", "replication");
   ("RESTRICT", "restrict"); ("RESTORE", "restore"); ("REVERSE", "reverse");
   ("REVOKE", "revoke"); ("RIGHT", "right"); ("RLIKE", "rlike"); ("ROLE", "role");
   ("ROLLBACK", "rollback"); ("ROUTINE", "routine"); ("ROW", "row"); ("ROW_COUNT", "rowCount");
   ("ROW_FORMAT", "rowFormat"); ("SAVEPOINT", "savepoint"); ("RELEASE", "release");
   ("SCHEMA", "database"); ("SCHEMAS", "databases"); ("SECOND", "second");
   ("SECOND_MICROSECOND", "secondMicrosecond"); ("SECURITY", "security");
   ("SELECT", "selectKwd"); ("SERIALIZABLE", "serializable"); ("SESSION", "session");
   ("SET", "set"); ("SEPARATOR", "separator"); ("SHARE", "share"); ("SHARED", "shared");
   ("SHOW", "show"); ("SIGNED", "signed"); ("SLAVE", "slave"); ("SLOW", "slow");
   ("SMALLINT", "smallIntType"); ("SNAPSHOT", "snapshot"); ("SOME", "some"); ("SQL", "sql");
   ("SQL_CACHE", "sqlCache"); ("SQL_CALC_FOUND_ROWS", "sqlCalcFoundRows");
   ("SQL_NO_CACHE", "sqlNoCache"); ("START", "start"); ("STARTING", "starting");
   ("STATS", "stats"); ("STATS_BUCKETS", "statsBuckets");
   ("STATS_HISTOGRAMS", "statsHistograms"); ("STATS_HEALTHY", "statsHealthy");
   ("STATS_META", "statsMeta"); ("STATS_PERSISTENT", "statsPersistent"); ("STATUS", "status");
   ("STD", "stddevPop"); ("STDDEV", "stddevPop"); ("STDDEV_POP", "stddevPop");
   ("STDDEV_SAMP", "stddevSamp"); ("STORED", "stored"); ("STRAIGHT_JOIN", "straightJoin");
   ("SUBDATE", "subDate"); ("SUBPARTITION", "subpartition"); ("SUBPARTITIONS", "subpartitions");
   ("SUBSTR", "substring"); ("SUBSTRING", "substring"); ("SUM", "sum"); ("SUPER", "super");
   ("TABLE", "tableKwd"); ("TABLES", "tables"); ("TABLESPACE", "tablespace");
   ("TEMPORARY", "temporary"); ("TEMPTABLE", "temptable"); ("TERMINATED", "terminated");
   ("TEXT", "textType"); ("THAN", "than"); ("THEN", "then"); ("TIDB", "tidb");
   ("TIDB_HJ", "tidbHJ"); ("TIDB_INLJ", "tidbINLJ"); ("TIDB_SMJ", "tidbSMJ");
   ("TIME", "timeType"); ("TIMESTAMP", "timestampType"); ("TIMESTAMPADD", "timestampAdd");
   ("TIMESTAMPDIFF", "timestampDiff"); ("TINYBLOB", "tinyblobType"); ("TINYINT", "tinyIntType");
   ("TINYTEXT", "tinytextType"); ("TO", "to"); ("TOP", "top"); ("TRACE", "trace");
   ("TRAILING", "trailing"); ("TRANSACTION", "transaction"); ("TRIGGER", "trigger");
   ("TRIGGERS", "triggers"); ("TRIM", "trim"); ("TRUE", "trueKwd"); ("TRUNCATE", "truncate");
   ("UNBOUNDED", "unbounded"); ("UNCOMMITTED", "uncommitted"); ("UNDEFINED", "undefined");
   ("UNION", "union"); ("UNIQUE", "unique"); ("UNKNOWN", "unknown"); ("UNLOCK", "unlock");
   ("UNSIGNED", "unsigned"); ("UPDATE", "update"); ("USAGE", "usage"); ("USE", "use");
   ("USER", "user"); ("USING", "using"); ("UTC_DATE", "utcDate"); ("UTC_TIME", "utcTime");
   ("UTC_TIMESTAMP", "utcTimestamp"); ("VALUE", "value"); ("VALUES", "values");
   ("VARBINARY", "varbinaryType"); ("VARCHAR", "varcharType"); ("VARIABLES", "variables");
   ("VARIANCE", "varPop"); ("VAR_POP", "varPop"); ("VAR_SAMP", "varSamp"); ("VIEW", "view");
   ("VIRTUAL", "virtual"); ("WARNINGS", "warnings"); ("ERRORS", "identSQLErrors");
   ("WEEK", "week"); ("WHEN", "when"); ("WHERE", "where"); ("WITH", "with"); ("WRITE", "write");
   ("XOR", "xor"); ("YEAR", "yearType"); ("YEAR_MONTH", "yearMonth"); ("ZEROFILL", "zerofill");
   ("BINDING", "binding"); ("BINDINGS", "bindings")]%string.

(** Built-in functions, which are key words before a parenthesis only *)
Definition btFuncTokenMap : list (string * string) :=
  [("ADDDATE", "builtinAddDate"); ("BIT_AND", "builtinBitAnd"); ("BIT_OR", "builtinBitOr");
   ("BIT_XOR", "builtinBitXor"); ("CAST", "builtinCast"); ("COUNT", "builtinCount");
   ("CURDATE", "builtinCurDate"); ("CURTIME", "builtinCurTime"); ("DATE_ADD", "builtinDateAdd");
   ("DATE_SUB", "builtinDateSub"); ("EXTRACT", "builtinExtract");
   ("GROUP_CONCAT", "builtinGroupConcat"); ("MAX", "builtinMax"); ("MID", "builtinSubstring");
   ("MIN", "builtinMin"); ("NOW", "builtinNow"); ("POSITION", "builtinPosition");
   ("SESSION_USER", "builtinUser"); ("STD", "builtinStddevPop"); ("STDDEV", "builtinStddevPop");
   ("STDDEV_POP", "builtinStddevPop"); ("STDDEV_SAMP", "builtinStddevSamp");
   ("SUBDATE", "builtinSubDate"); ("SUBSTR", "builtinSubstring");
   ("SUBSTRING", "builtinSubstring"); ("SUM", "builtinSum"); ("SYSDATE", "builtinSysDate");
   ("SYSTEM_USER", "builtinUser"); ("TRIM", "builtinTrim"); ("VARIANCE", "builtinVarPop");
   ("VAR_POP", "builtinVarPop"); ("VAR_SAMP", "builtinVarSamp")]%string.

(** Key words of window functions, when these are enabled *)
Definition windowFuncTokenMap : list (string * string) :=
  [("CUME_DIST", "cumeDist"); ("DENSE_RANK", "denseRank"); ("FIRST_VALUE", "firstValue");
   ("GROUPS", "groups"); ("LAG", "lag"); ("LAST_VALUE", "lastValue"); ("LEAD", "lead");
   ("NTH_VALUE", "nthValue"); ("NTILE", "ntile"); ("OVER", "over");
   ("PERCENT_RANK", "percentRank"); ("RANK", "rank"); ("ROWS", "rows");
   ("ROW_NUMBER", "rowNumber"); ("WINDOW", "window")]%string.

(** [m[key]]; a key that is absent has the token 0, which is no key word. *)
Fixpoint token_named (key : string) (m : list (string * string)) : option string :=
  match m with
  | [] => None
  | (k, v) :: m => if String.eqb k key then Some v else token_named key m
  end.
