(* ===== verification/Utf8.v ===== *)
(** unicode/utf8 of the Go library, one rune at a time, and the prefixes and suffixes
    of byte strings: what the scanner of SQL reads and writes. *)

From Stdlib Require Import Ascii String.
From S2P Require Import Prelude GoStr.

(** The text without its first [n] bytes. *)
Fixpoint sdrop (n : nat) (s : string) : string :=
  match n, s with
  | S n, String _ s => sdrop n s
  | _, _ => s
  end.

(** Its first [n] bytes. *)
Definition stake (n : nat) (s : string) : string := String.substring 0 n s.

(** [utf8.DecodeRuneInString]: the rune and its width *)
Definition DecodeRuneInString (s : string) : Z * Z :=
  match sbytes s with
  | [] => (rune_error, 0)
  | b0 :: bs =>
      if b0 <? 128 then (b0, 1) else
      match bs with
      | [] => (rune_error, 1)
      | b1 :: bs =>
          match utf8_2 b0 b1 with
          | Some c => (c, 2)
          | None =>
              match bs with
              | [] => (rune_error, 1)
              | b2 :: bs =>
                  match utf8_3 b0 b1 b2 with
                  | Some c => (c, 3)
                  | None =>
                      match bs with
                      | [] => (rune_error, 1)
                      | b3 :: _ =>
                          match utf8_4 b0 b1 b2 b3 with
                          | Some c => (c, 4)
                          | None => (rune_error, 1)
                          end
                      end
                  end
              end
          end
      end
  end.

(** [WriteRune] and [string(rune)]: the UTF-8 encoding; what is no Unicode scalar
    value is written as U+FFFD. *)
Definition EncodeRune (c : Z) : string :=
  let c := if within 0 1114111 c && negb (within 55296 57343 c) then c else rune_error in
  of_bytes
    (if c <? 128 then [c]
     else if c <? 2048 then [192 + c / 64; 128 + c mod 64]
     else if c <? 65536 then [224 + c / 4096; 128 + c / 64 mod 64; 128 + c mod 64]
     else [240 + c / 262144; 128 + c / 4096 mod 64; 128 + c / 64 mod 64; 128 + c mod 64]).

(** * Bytes *)

Lemma sdrop_length n s : slen (sdrop n s) = Z.max 0 (slen s - Z.of_nat n).
Proof.
  revert s. induction n as [|n IH]; intros s; [cbn; pose proof (slen_nonneg s); lia|].
  destruct s as [|c s]; cbn [sdrop]; [unfold slen; cbn; lia|]. rewrite IH, slen_cons. lia.
Qed.

Lemma stake_sdrop n s : String.append (stake n s) (sdrop n s) = s.
Proof.
  unfold stake. revert s. induction n as [|n IH]; intros s; [by destruct s|].
  destruct s as [|c s]; [done|]. cbn [String.substring sdrop]. by rewrite append_cons, IH.
Qed.

Lemma byte_range c : 0 <= byte_of c < 256.
Proof. unfold byte_of. pose proof (nat_ascii_bounded c). lia. Qed.

Lemma sbytes_length s : zlen (sbytes s) = slen s.
Proof.
  unfold zlen, slen. f_equal. induction s as [|c s IH]; [done|]. cbn. by rewrite IH.
Qed.

Lemma of_byte_byte c : of_byte (byte_of c) = c.
Proof. unfold of_byte, byte_of. rewrite Nat2Z.id. apply ascii_nat_embedding. Qed.

Lemma of_sbytes s : of_bytes (sbytes s) = s.
Proof. induction s as [|c s IH]; [done|]. cbn. by rewrite of_byte_byte, IH. Qed.

Lemma stake_bytes n s : stake n s = of_bytes (take n (sbytes s)).
Proof.
  unfold stake. revert s. induction n as [|n IH]; intros s; [by destruct s|].
  destruct s as [|c s]; [done|]. cbn. by rewrite of_byte_byte, IH.
Qed.

(** * Values of well-formed sequences *)

Lemma lor_shiftl_add a b n : 0 <= n -> 0 <= b < 2 ^ n -> Z.lor (Z.shiftl a n) b = a * 2 ^ n + b.
Proof.
  intros Hn Hb. pose proof (Z.add_lor_land (Z.shiftl a n) b) as E.
  assert (Z.land (Z.shiftl a n) b = 0) as H0.
  { apply Z.bits_inj'. intros k Hk. rewrite Z.land_spec, Z.bits_0, Z.shiftl_spec by lia.
    destruct (decide (k < n)); [by rewrite Z.testbit_neg_r by lia|].
    assert (Z.testbit b k = false) as ->; [|by rewrite andb_false_r].
    destruct (decide (b = 0)) as [->|]; [apply Z.bits_0|]. apply Z.bits_above_log2; [lia|].
    apply Z.log2_lt_pow2; [lia|]. apply Z.lt_le_trans with (2 ^ n); [lia|]. apply Z.pow_le_mono_r; lia. }
  rewrite Z.shiftl_mul_pow2 in * by lia. lia.
Qed.

(** Linear arithmetic with quotients and remainders *)
Ltac div_mod := Z.to_euclidean_division_equations; lia.

(** The payload of a leading byte and of a continuation byte *)
Lemma land_31 b : 192 <= b < 224 -> Z.land b 31 = b - 192.
Proof. intros. change 31 with (Z.ones 5). rewrite Z.land_ones by lia. change (2 ^ 5) with 32. div_mod. Qed.
Lemma land_15 b : 224 <= b < 240 -> Z.land b 15 = b - 224.
Proof. intros. change 15 with (Z.ones 4). rewrite Z.land_ones by lia. change (2 ^ 4) with 16. div_mod. Qed.
Lemma land_7 b : 240 <= b < 248 -> Z.land b 7 = b - 240.
Proof. intros. change 7 with (Z.ones 3). rewrite Z.land_ones by lia. change (2 ^ 3) with 8. div_mod. Qed.
Lemma land_63 b : 128 <= b < 192 -> Z.land b 63 = b - 128.
Proof. intros. change 63 with (Z.ones 6). rewrite Z.land_ones by lia. change (2 ^ 6) with 64. div_mod. Qed.

Lemma utf8_2_value b0 b1 c :
  utf8_2 b0 b1 = Some c ->
  194 <= b0 <= 223 /\ 128 <= b1 <= 191 /\ c = (b0 - 192) * 64 + (b1 - 128).
Proof.
  unfold utf8_2, within, cont. destruct (_ && _) eqn:E; [|done]. intros [= <-].
  assert (194 <= b0 <= 223) by lia. assert (128 <= b1 <= 191) by lia.
  rewrite land_31, land_63, lor_shiftl_add by (cbn; lia). change (2 ^ 6) with 64. lia.
Qed.

Lemma utf8_3_value b0 b1 b2 c :
  utf8_3 b0 b1 b2 = Some c ->
  224 <= b0 <= 239 /\ 128 <= b1 <= 191 /\ 128 <= b2 <= 191 /\
  (b0 = 224 -> 160 <= b1) /\ (b0 = 237 -> b1 <= 159) /\
  c = (b0 - 224) * 4096 + (b1 - 128) * 64 + (b2 - 128).
Proof.
  unfold utf8_3, within, cont. destruct (_ && _) eqn:E; [|done]. intros [= <-].
  assert (224 <= b0 <= 239 /\ 128 <= b1 <= 191 /\ 128 <= b2 <= 191 /\
          (b0 = 224 -> 160 <= b1) /\ (b0 = 237 -> b1 <= 159)) as (H0 & H1 & H2 & H3 & H4).
  { destruct (b0 =? 224) eqn:E1; [lia|]. destruct (b0 =? 237) eqn:E2; lia. }
  split_and!; try lia. rewrite land_15, !land_63 by lia.
  replace (Z.shiftl (b0 - 224) 12) with (Z.shiftl (Z.shiftl (b0 - 224) 6) 6)
    by (rewrite Z.shiftl_shiftl by lia; done).
  rewrite <- Z.shiftl_lor, !lor_shiftl_add by (cbn; lia). change (2 ^ 6) with 64. lia.
Qed.

Lemma utf8_4_value b0 b1 b2 b3 c :
  utf8_4 b0 b1 b2 b3 = Some c ->
  240 <= b0 <= 244 /\ 128 <= b1 <= 191 /\ 128 <= b2 <= 191 /\ 128 <= b3 <= 191 /\
  (b0 = 240 -> 144 <= b1) /\ (b0 = 244 -> b1 <= 143) /\
  c = (b0 - 240) * 262144 + (b1 - 128) * 4096 + (b2 - 128) * 64 + (b3 - 128).
Proof.
  unfold utf8_4, within, cont. destruct (_ && _) eqn:E; [|done]. intros [= <-].
  assert (240 <= b0 <= 244 /\ 128 <= b1 <= 191 /\ 128 <= b2 <= 191 /\ 128 <= b3 <= 191 /\
          (b0 = 240 -> 144 <= b1) /\ (b0 = 244 -> b1 <= 143)) as (H0 & H1 & H2 & H3 & H4 & H5).
  { destruct (b0 =? 240) eqn:E1; [lia|]. destruct (b0 =? 244) eqn:E2; lia. }
  split_and!; try lia. rewrite land_7, !land_63 by lia.
  replace (Z.shiftl (b0 - 240) 18) with (Z.shiftl (Z.shiftl (b0 - 240) 6) 12)
    by (rewrite Z.shiftl_shiftl by lia; done).
  rewrite <- Z.shiftl_lor, (lor_shiftl_add (b2 - 128)), (lor_shiftl_add (b0 - 240)) by (cbn; lia).
  change (2 ^ 6) with 64. rewrite lor_shiftl_add by (cbn; lia). change (2 ^ 12) with 4096. lia.
Qed.

(** * One rune *)

(** What [DecodeRuneInString] reads of a text that is not empty: one byte, which is
    the rune when it is ASCII and ill-formed otherwise; or a sequence of several bytes
    above ASCII, which is the encoding of the rune. *)
Inductive decoded (s : string) : Z -> Z -> Prop :=
| decoded_ascii c t : s = String c t -> byte_of c < 128 -> decoded s (byte_of c) 1
| decoded_ill c t : s = String c t -> 128 <= byte_of c -> decoded s rune_error 1
| decoded_seq v w :
    2 <= w <= slen s -> 128 <= v -> EncodeRune v = stake (Z.to_nat w) s ->
    Forall (fun b => 128 <= b) (take (Z.to_nat w) (sbytes s)) -> decoded s v w.

Lemma encode_2 c :
  128 <= c < 2048 -> EncodeRune c = of_bytes [192 + c / 64; 128 + c mod 64].
Proof.
  intros H. unfold EncodeRune, within. replace (_ && _) with true by lia.
  replace (c <? 128) with false by lia. by replace (c <? 2048) with true by lia.
Qed.

Lemma encode_3 c :
  2048 <= c < 65536 -> ~ (55296 <= c <= 57343) ->
  EncodeRune c = of_bytes [224 + c / 4096; 128 + c / 64 mod 64; 128 + c mod 64].
Proof.
  intros H Hs. unfold EncodeRune, within. replace (_ && _) with true by lia.
  replace (c <? 128) with false by lia. replace (c <? 2048) with false by lia.
  by replace (c <? 65536) with true by lia.
Qed.

Lemma encode_4 c :
  65536 <= c <= 1114111 -> EncodeRune c =
    of_bytes [240 + c / 262144; 128 + c / 4096 mod 64; 128 + c / 64 mod 64; 128 + c mod 64].
Proof.
  intros H. unfold EncodeRune, within. replace (_ && _) with true by lia.
  replace (c <? 128) with false by lia. replace (c <? 2048) with false by lia.
  by replace (c <? 65536) with false by lia.
Qed.

Lemma cons_eq {A} (a b : A) l k : a = b -> l = k -> a :: l = b :: k.
Proof. congruence. Qed.

Lemma DecodeRune_decoded s :
  s <> EmptyString -> decoded s (DecodeRuneInString s).1 (DecodeRuneInString s).2.
Proof.
  intros Hne. destruct s as [|c t]; [done|]. unfold DecodeRuneInString. cbn [sbytes].
  destruct (byte_of c <? 128) eqn:Ec; [by eapply decoded_ascii; [|lia]|].
  assert (decoded (String c t) rune_error 1) as Hill by (eapply decoded_ill; [reflexivity|lia]).
  destruct t as [|c1 t1]; [done|]. cbn [sbytes].
  destruct (utf8_2 (byte_of c) (byte_of c1)) as [v|] eqn:E2.
  { apply utf8_2_value in E2 as (H0 & H1 & ->). cbn [fst snd]. apply decoded_seq.
    - rewrite !slen_cons. pose proof (slen_nonneg t1). lia.
    - lia.
    - rewrite encode_2, stake_bytes by lia. apply f_equal. apply cons_eq; [div_mod|]. apply cons_eq; [div_mod|done].
    - cbn. repeat constructor; lia. }
  destruct t1 as [|c2 t2]; [done|]. cbn [sbytes].
  destruct (utf8_3 _ _ _) as [v|] eqn:E3.
  { apply utf8_3_value in E3 as (H0 & H1 & H2 & H3 & H4 & ->). cbn [fst snd].
    assert (byte_of c <= 236 \/ byte_of c = 237 \/ 238 <= byte_of c) by lia. apply decoded_seq.
    - rewrite !slen_cons. pose proof (slen_nonneg t2). lia.
    - lia.
    - rewrite encode_3, stake_bytes by lia. apply f_equal. apply cons_eq; [div_mod|].
      apply cons_eq; [div_mod|]. apply cons_eq; [div_mod|done].
    - cbn. repeat constructor; lia. }
  destruct t2 as [|c3 t3]; [done|]. cbn [sbytes].
  destruct (utf8_4 _ _ _ _) as [v|] eqn:E4; [|done].
  apply utf8_4_value in E4 as (H0 & H1 & H2 & H3 & H4 & H5 & ->). cbn [fst snd]. apply decoded_seq.
  - rewrite !slen_cons. pose proof (slen_nonneg t3). lia.
  - lia.
  - rewrite encode_4, stake_bytes by lia. apply f_equal. apply cons_eq; [div_mod|].
    apply cons_eq; [div_mod|]. apply cons_eq; [div_mod|]. apply cons_eq; [div_mod|done].
  - cbn. repeat constructor; lia.
Qed.

(** * Encoding and decoding *)

(** Unicode scalar values *)
Definition scalar (c : Z) : Prop := 0 <= c <= 1114111 /\ ~ (55296 <= c <= 57343).

Lemma byte_of_byte b : 0 <= b < 256 -> byte_of (of_byte b) = b.
Proof. intros H. unfold byte_of, of_byte. rewrite nat_ascii_embedding by lia. lia. Qed.

Lemma sbytes_of_bytes l s :
  Forall (fun b => 0 <= b < 256) l -> sbytes (String.append (of_bytes l) s) = l ++ sbytes s.
Proof.
  induction 1 as [|b l Hb _ IH]; [done|]. cbn [of_bytes]. rewrite append_cons. cbn [sbytes app].
  by rewrite IH, byte_of_byte.
Qed.

Lemma encode_ascii c : 0 <= c < 128 -> EncodeRune c = String (of_byte c) EmptyString.
Proof.
  intros H. unfold EncodeRune, within. replace (_ && _) with true by lia.
  by replace (c <? 128) with true by lia.
Qed.

Lemma decode_encode c t :
  scalar c -> DecodeRuneInString (String.append (EncodeRune c) t) = (c, slen (EncodeRune c)).
Proof.
  intros [Hc Hs]. unfold DecodeRuneInString.
  destruct (decide (c < 128)) as [H1|H1].
  { rewrite encode_ascii by lia. rewrite append_cons. cbn [sbytes]. rewrite byte_of_byte by lia.
    by replace (c <? 128) with true by lia. }
  destruct (decide (c < 2048)) as [H2|H2].
  { rewrite encode_2, sbytes_of_bytes by (lia || (repeat constructor; div_mod)). cbn [app].
    replace (192 + c / 64 <? 128) with false by div_mod.
    unfold utf8_2, within, cont. replace (_ && _) with true by div_mod.
    rewrite land_31, land_63, lor_shiftl_add by (cbn; div_mod). change (2 ^ 6) with 64.
    change (slen _) with 2. f_equal. div_mod. }
  destruct (decide (c < 65536)) as [H3|H3].
  { rewrite encode_3, sbytes_of_bytes by (lia || (repeat constructor; div_mod)). cbn [app].
    replace (224 + c / 4096 <? 128) with false by div_mod.
    unfold utf8_2 at 1, within at 1. replace (_ && _) with false by div_mod.
    destruct (utf8_3 (224 + c / 4096) (128 + c / 64 mod 64) (128 + c mod 64)) as [v|] eqn:E.
    - apply utf8_3_value in E as (_ & _ & _ & _ & _ & ->). change (slen _) with 3. f_equal. div_mod.
    - exfalso. unfold utf8_3, within, cont in E. revert E. replace (_ && _) with true; [done|].
      symmetry. destruct (224 + c / 4096 =? 224) eqn:E1; [|destruct (224 + c / 4096 =? 237) eqn:E2]; div_mod. }
  rewrite encode_4, sbytes_of_bytes by (lia || (repeat constructor; div_mod)). cbn [app].
  replace (240 + c / 262144 <? 128) with false by div_mod.
  unfold utf8_2 at 1, within at 1. replace (_ && _) with false by div_mod.
  unfold utf8_3 at 1, within at 1. replace (_ && _) with false by div_mod.
  destruct (utf8_4 _ _ _ _) as [v|] eqn:E.
  - apply utf8_4_value in E as (_ & _ & _ & _ & _ & _ & ->). change (slen _) with 4. f_equal. div_mod.
  - exfalso. unfold utf8_4, within, cont in E. revert E. replace (_ && _) with true; [done|].
    symmetry. destruct (240 + c / 262144 =? 240) eqn:E1; [|destruct (240 + c / 262144 =? 244) eqn:E2]; div_mod.
Qed.

Lemma encode_high c :
  scalar c -> 128 <= c -> 2 <= slen (EncodeRune c) /\ Forall (fun b => 128 <= b) (sbytes (EncodeRune c)).
Proof.
  intros [Hc Hs] Hhigh. assert (forall l, Forall (fun b => 0 <= b < 256) l -> sbytes (of_bytes l) = l) as Hb.
  { induction 1 as [|b l Hb _ IH]; [done|]. cbn. by rewrite IH, byte_of_byte. }
  destruct (decide (c < 2048)); [|destruct (decide (c < 65536))].
  - rewrite encode_2 by lia. split; [by compute|]. rewrite Hb; repeat constructor; div_mod.
  - rewrite encode_3 by lia. split; [by compute|]. rewrite Hb; repeat constructor; div_mod.
  - rewrite encode_4 by lia. split; [by compute|]. rewrite Hb; repeat constructor; div_mod.
Qed.
