(* ===== verification/Lexer.v ===== *)
(** parser/lexer.go and the character classes of parser/misc.go: the scanner of SQL.

    The reader is the text, the position and the width of the rune peeked last.
    The scanner's [buf] is reset by every function that uses it and is the buffer
    those functions return; [specialComment] is the scanner of a comment that holds
    SQL. A function that indexes the text past its end panics. *)

From Stdlib Require Import Ascii String.
From S2P Require Import Prelude GoStr Keywords Utf8.

(** * The reader *)

Record Pos := mk_Pos { Line : Z; Col : Z; Offset : Z }.
Record reader := mk_reader { r_s : string; r_p : Pos; r_w : Z }.

#[export] Instance Pos_eq_dec : EqDecision Pos.
Proof. solve_decision. Defined.

Definition rest (r : reader) : string := sdrop (Z.to_nat (Offset (r_p r))) (r_s r).

Definition eof (r : reader) : bool := slen (r_s r) <=? Offset (r_p r).

(** An ill-formed byte is read as the rune of its value. *)
Definition peek_rune (s : string) : Z * Z :=
  match s with
  | EmptyString => (rune_error, 0)
  | String b _ =>
      if byte_of b <? 128 then (byte_of b, 1) else
      let '(v, w) := DecodeRuneInString s in
      if (v =? rune_error) && (w =? 1) then (byte_of b, w) else (v, w)
  end.

Definition peek (r : reader) : Z * reader :=
  if eof r then (rune_error, r)
  else let '(v, w) := peek_rune (rest r) in (v, mk_reader (r_s r) (r_p r) w).

Definition inc (r : reader) : outcome reader :=
  match rest r with
  | EmptyString => Panic "index out of range"
  | String b _ =>
      let p := r_p r in
      let '(line, col) := if byte_of b =? 10 then (Line p + 1, 0) else (Line p, Col p) in
      Ret (mk_reader (r_s r) (mk_Pos line (col + 1) (Offset p + r_w r)) (r_w r))
  end.

Fixpoint incN (n : nat) (r : reader) : outcome reader :=
  match n with O => Ret r | S n => r ← inc r; incN n r end.

Definition readByte (r : reader) : outcome (Z * reader) :=
  let '(ch, r) := peek r in
  if (ch =? rune_error) && eof r then Ret (ch, r) else r ← inc r; Ret (ch, r).

(** [r.s[from.Offset:r.p.Offset]] *)
Definition data (r : reader) (from : Pos) : outcome string :=
  ssub (r_s r) (Offset from) (Offset (r_p r)).

(** Running out of fuel is an error of the model that does not occur. *)
Definition no_fuel {A} : outcome A := Err (Named "out of fuel").

Fixpoint inc_loop (fuel : nat) (fn : Z -> bool) (r : reader) : outcome (Z * reader) :=
  match fuel with
  | O => no_fuel
  | S fuel =>
      let '(ch, r) := peek r in
      if negb (fn ch) then Ret (ch, r)
      else if (ch =? rune_error) && eof r then Ret (0, r)
      else r ← inc r; inc_loop fuel fn r
  end.

Definition fuel_of (r : reader) : nat := S (String.length (rest r)).

Definition incAsLongAs (fn : Z -> bool) (r : reader) : outcome (Z * reader) :=
  inc_loop (fuel_of r) fn r.

(** * Character classes *)

Definition isLetter (ch : Z) : bool := within 97 122 ch || within 65 90 ch.
Definition isDigit (ch : Z) : bool := within 48 57 ch.
Definition isIdentExtend (ch : Z) : bool := within 128 65535 ch.
Definition isIdentChar (ch : Z) : bool :=
  isLetter ch || isDigit ch || (ch =? 95) || (ch =? 36) || isIdentExtend ch.
Definition isUserVarChar (ch : Z) : bool :=
  isLetter ch || isDigit ch || (ch =? 95) || (ch =? 36) || (ch =? 46) || isIdentExtend ch.

(** [unicode.IsSpace] *)
Definition IsSpace (ch : Z) : bool :=
  within 9 13 ch || (ch =? 32) || (ch =? 133) || (ch =? 160) || (ch =? 5760) ||
  within 8192 8202 ch || (ch =? 8232) || (ch =? 8233) || (ch =? 8239) || (ch =? 8287) ||
  (ch =? 12288).

(** * Tokens

    A rune that is its own token, or a constant of the grammar by its name; 0 is the
    end of the text. *)
Inductive token := TChar (ch : Z) | TName (name : string).

#[export] Instance token_eq_dec : EqDecision token.
Proof. solve_decision. Defined.

Definition identifier : token := TName "identifier".
Definition quotedIdentifier : token := TName "quotedIdentifier".
Definition stringLit : token := TName "stringLit".
Definition intLit : token := TName "intLit".
Definition decLit : token := TName "decLit".
Definition floatLit : token := TName "floatLit".
Definition hexLit : token := TName "hexLit".
Definition bitLit : token := TName "bitLit".
Definition underscoreCS : token := TName "underscoreCS".
Definition singleAtIdentifier : token := TName "singleAtIdentifier".
Definition doubleAtIdentifier : token := TName "doubleAtIdentifier".
Definition hintBegin : token := TName "hintBegin".
Definition hintEnd : token := TName "hintEnd".
Definition invalid : token := TName "invalid".
Definition replacementChar : token := TChar rune_error.

(** What a function of the scanner returns: token, position, literal and reader. *)
Definition scanned : Type := token * Pos * string * reader.

(** * SQL modes of constants.go *)

Definition SQLMode : Type := Z.
Definition has_mode (bit : Z) (m : SQLMode) : bool := Z.land m (Z.shiftl 1 bit) =? Z.shiftl 1 bit.
Definition HasPipesAsConcatMode : SQLMode -> bool := has_mode 2.
Definition HasANSIQuotesMode : SQLMode -> bool := has_mode 3.
Definition HasIgnoreSpaceMode : SQLMode -> bool := has_mode 4.
Definition HasNoBackslashEscapesMode : SQLMode -> bool := has_mode 21.
Definition HasHighNotPrecedenceMode : SQLMode -> bool := has_mode 30.

(** * Identifiers *)

Definition skipWhitespace (r : reader) : outcome (Z * reader) := incAsLongAs IsSpace r.

(** [tok, lit = t, s.r.data(&pos)] *)
Definition token_data (t : token) (pos : Pos) (r : reader) : outcome scanned :=
  lit ← data r pos; Ret (t, pos, lit, r).

Definition scanIdentifier (r : reader) : outcome scanned :=
  let pos := r_p r in
  r ← inc r; '(_, r) ← incAsLongAs isIdentChar r; token_data identifier pos r.

Fixpoint quoted_loop (fuel : nat) (pos : Pos) (buf : string) (r : reader) : outcome scanned :=
  match fuel with
  | O => no_fuel
  | S fuel =>
      '(ch, r) ← readByte r;
      if (ch =? rune_error) && eof r then Ret (replacementChar, pos, EmptyString, r) else
      if ch =? 96 then
        let '(ch1, r) := peek r in
        if negb (ch1 =? 96) then Ret (quotedIdentifier, pos, buf, r)
        else r ← inc r; quoted_loop fuel pos (String.append buf (EncodeRune ch)) r
      else quoted_loop fuel pos (String.append buf (EncodeRune ch)) r
  end.

Definition scanQuotedIdent (r : reader) : outcome scanned :=
  let pos := r_p r in r ← inc r; quoted_loop (fuel_of r) pos EmptyString r.

(** * Strings

    lazyBuf: [None] while the literal is a part of the text, [Some] of the buffer
    after [setUseBuf]. *)

Definition lazyBuf : Type := option string.

Definition setUseBuf (mb : lazyBuf) (str : string) : lazyBuf :=
  match mb with None => Some str | Some _ => mb end.

Definition writeRune (mb : lazyBuf) (c w : Z) : lazyBuf :=
  match mb with
  | None => None
  | Some b => Some (String.append b (if 1 <? w then EncodeRune c
                                     else String (of_byte (c mod 256)) EmptyString))
  end.

Definition lazy_data (mb : lazyBuf) (r : reader) (pos : Pos) : outcome string :=
  match mb with
  | Some b => Ret b
  | None => lit ← data r pos; ssub lit 1 (slen lit - 1)
  end.

(** The escaped rune; a kept backslash goes to the buffer. *)
Definition handleEscape (mb : lazyBuf) (r : reader) : outcome (Z * lazyBuf * reader) :=
  r ← inc r;
  let '(ch0, r) := peek r in
  let '(ch, keep) :=
    if ch0 =? 110 then (10, false)          (* n *)
    else if ch0 =? 48 then (0, false)       (* 0 *)
    else if ch0 =? 98 then (8, false)       (* b *)
    else if ch0 =? 90 then (26, false)      (* Z *)
    else if ch0 =? 114 then (13, false)     (* r *)
    else if ch0 =? 116 then (9, false)      (* t *)
    else if (ch0 =? 37) || (ch0 =? 95) then (ch0, true)
    else (ch0, false) in
  Ret (ch, if (keep : bool) then writeRune mb 92 1 else mb, r).

(** The part of the loop body after the branches: write the rune, and move on to the
    next one unless the text has ended. *)
Definition string_next (mb : lazyBuf) (ch0 : Z) (r : reader) : outcome (lazyBuf * Z * reader) :=
  let mb := writeRune mb ch0 (r_w r) in
  if eof r then Ret (mb, ch0, r)
  else r ← inc r; let '(ch0, r) := peek r in Ret (mb, ch0, r).

Fixpoint string_loop (fuel : nat) (mode : SQLMode) (pos : Pos) (ending ch0 : Z) (mb : lazyBuf)
    (r : reader) : outcome scanned :=
  match fuel with
  | O => no_fuel
  | S fuel =>
      if eof r then Ret (replacementChar, pos, EmptyString, r) else
      if ch0 =? ending then
        r ← inc r;
        let '(ch1, r) := peek r in
        if negb (ch1 =? ending) then lit ← lazy_data mb r pos; Ret (stringLit, pos, lit, r)
        else
          str ← data r pos;
          inner ← ssub str 1 (slen str - 1);
          '(mb, ch0, r) ← string_next (setUseBuf mb inner) ch0 r;
          string_loop fuel mode pos ending ch0 mb r
      else if (ch0 =? 92) && negb (HasNoBackslashEscapesMode mode) then
        str ← data r pos;
        inner ← ssub str 1 (slen str);
        '(ch0, mb, r) ← handleEscape (setUseBuf mb inner) r;
        '(mb, ch0, r) ← string_next mb ch0 r;
        string_loop fuel mode pos ending ch0 mb r
      else
        '(mb, ch0, r) ← string_next mb ch0 r;
        string_loop fuel mode pos ending ch0 mb r
  end.

Definition scanString (mode : SQLMode) (r : reader) : outcome scanned :=
  let pos := r_p r in
  '(ending, r) ← readByte r;
  let '(ch0, r) := peek r in
  string_loop (fuel_of r) mode pos ending ch0 None r.

(** * Numbers *)

Definition scanOct (r : reader) : outcome reader := '(_, r) ← incAsLongAs (within 48 55) r; Ret r.
Definition isHexDigit (ch : Z) : bool := within 48 57 ch || within 97 102 ch || within 65 70 ch.
Definition scanHex (r : reader) : outcome reader := '(_, r) ← incAsLongAs isHexDigit r; Ret r.
Definition scanBit (r : reader) : outcome reader :=
  '(_, r) ← incAsLongAs (fun ch => (ch =? 48) || (ch =? 49)) r; Ret r.
Definition scanDigits (r : reader) : outcome reader := '(_, r) ← incAsLongAs isDigit r; Ret r.

Definition set_pos (r : reader) (p : Pos) : reader := mk_reader (r_s r) p (r_w r).

Definition is_e (ch : Z) : bool := (ch =? 101) || (ch =? 69).

(** [float = D1 . D2 e D3] *)
Definition scanFloat (beg : Pos) (r : reader) : outcome scanned :=
  r ← scanDigits (set_pos r beg);
  let '(ch0, r) := peek r in
  '(ch0, r) ←
    (if ch0 =? 46 then
       r ← inc r; r ← scanDigits r; let '(ch0, r) := peek r in Ret (ch0, r)
     else Ret (ch0, r));
  if is_e ch0 then
    r ← inc r;
    let '(ch0, r) := peek r in
    if (ch0 =? 45) || (ch0 =? 43) || isDigit ch0
    then r ← inc r; r ← scanDigits r; token_data floatLit beg r
    else '(_, r) ← incAsLongAs isIdentChar r; token_data identifier beg r
  else token_data decLit beg r.

(** The rest of a word that began like a number. *)
Definition word_data (pos : Pos) (r : reader) : outcome scanned :=
  '(_, r) ← incAsLongAs isIdentChar r; token_data identifier pos r.

(** The end of [startWithNumber], with the token so far. *)
Definition number_end (tok : token) (pos : Pos) (r : reader) : outcome scanned :=
  r ← scanDigits r;
  let '(ch0, r) := peek r in
  if (ch0 =? 46) || is_e ch0 then scanFloat pos r
  else if negb (eof r) && isIdentChar ch0 then word_data pos r
  else token_data tok pos r.

(** [0x] and [0b]: no digits or a digit after them make a word. *)
Definition radix_end (tok : token) (pos : Pos) (scan_ : reader -> outcome reader) (r : reader) :
    outcome scanned :=
  r ← inc r;
  let p1 := r_p r in
  r ← scan_ r;
  let p2 := r_p r in
  let '(ch, r) := peek r in
  if bool_decide (p1 = p2) || isDigit ch then word_data pos r else number_end tok pos r.

Definition startWithNumber (r : reader) : outcome scanned :=
  let pos := r_p r in
  '(ch0, r) ← readByte r;
  if ch0 =? 48 then
    let '(ch1, r) := peek r in
    if within 48 55 ch1 then r ← inc r; r ← scanOct r; number_end intLit pos r
    else if (ch1 =? 120) || (ch1 =? 88) then radix_end hexLit pos scanHex r
    else if ch1 =? 98 then radix_end bitLit pos scanBit r
    else if ch1 =? 46 then scanFloat pos r
    else if ch1 =? 66 then word_data pos r
    else number_end intLit pos r
  else number_end intLit pos r.

Definition startWithDot (r : reader) : outcome scanned :=
  let pos := r_p r in
  r ← inc r;
  let save := r_p r in
  let '(ch, r) := peek r in
  let dot r := Ret (TChar 46, pos, "."%string, r) in
  if isDigit ch then
    '(tok, _, lit, r) ← scanFloat pos r;
    if eof r then Ret (tok, pos, lit, r)
    else let '(ch, r) := peek r in
         if negb (isIdentChar ch) then Ret (tok, pos, lit, r) else dot (set_pos r save)
  else dot r.

(** * Words that begin a literal *)

(** [x'...'] and [b'...'] *)
Definition quoted_digits (tok : token) (scan_ : reader -> outcome reader) (r : reader) : outcome scanned :=
  let pos := r_p r in
  r ← inc r;
  let '(ch, r) := peek r in
  if ch =? 39 then
    r ← inc r;
    r ← scan_ r;
    let '(ch, r) := peek r in
    if ch =? 39 then r ← inc r; token_data tok pos r
    else Ret (replacementChar, pos, EmptyString, r)
  else word_data pos r.

Definition startWithXx (r : reader) : outcome scanned := quoted_digits hexLit scanHex r.
Definition startWithBb (r : reader) : outcome scanned := quoted_digits bitLit scanBit r.

Definition startWithNn (r : reader) : outcome scanned :=
  '(tok, pos, lit, r) ← scanIdentifier r;
  if String.eqb lit "N" || String.eqb lit "n" then
    let '(ch, r) := peek r in
    if ch =? 39 then Ret (underscoreCS, pos, "utf8"%string, r) else Ret (tok, pos, lit, r)
  else Ret (tok, pos, lit, r).

(** * Variables *)

Definition scanIdentifierOrString (mode : SQLMode) (r : reader) : outcome (token * string * reader) :=
  let '(ch1, r) := peek r in
  if (ch1 =? 39) || (ch1 =? 34) then '(tok, _, lit, r) ← scanString mode r; Ret (tok, lit, r)
  else if ch1 =? 96 then '(tok, _, lit, r) ← scanQuotedIdent r; Ret (tok, lit, r)
  else if isUserVarChar ch1 then
    let pos := r_p r in
    '(_, r) ← incAsLongAs isUserVarChar r;
    '(tok, _, lit, r) ← token_data identifier pos r; Ret (tok, lit, r)
  else Ret (TChar ch1, EmptyString, r).

(** [strings.EqualFold(stream[:len(v)], v)] for an ASCII [v] *)
Fixpoint fold_prefix (v s : string) : bool :=
  match v, s with
  | EmptyString, _ => true
  | String a v, String b s => Ascii.eqb (lower a) (lower b) && fold_prefix v s
  | _, EmptyString => false
  end.

Definition scope_prefix (stream : string) : string :=
  match find (fun v => fold_prefix v stream) ["global."; "session."; "local."]%string with
  | Some v => v
  | None => EmptyString
  end.

Definition startWithAt (mode : SQLMode) (r : reader) : outcome scanned :=
  let pos := r_p r in
  r ← inc r;
  '(tok, lit, r) ← scanIdentifierOrString mode r;
  if bool_decide (tok = TChar 64) then
    r ← inc r;
    stream ← ssub (r_s r) (Offset pos + 2) (slen (r_s r));
    let prefix := scope_prefix stream in
    r ← incN (String.length prefix) r;
    '(tok, lit, r) ← scanIdentifierOrString mode r;
    if bool_decide (tok = stringLit) || bool_decide (tok = quotedIdentifier)
    then Ret (doubleAtIdentifier, pos, String.append "@@" (String.append prefix lit), r)
    else if bool_decide (tok = identifier) then token_data doubleAtIdentifier pos r
    else Ret (tok, pos, lit, r)
  else if bool_decide (tok = replacementChar) then Ret (tok, pos, lit, r)
  else Ret (singleAtIdentifier, pos, lit, r).

(** * Operators

    The trie of misc.go: a node is the text read so far. *)

Definition operators : list (string * token) :=
  map (fun c => (String c EmptyString, TChar (byte_of c)))
     ["*"; "/"; "+"; ">"; "<"; "("; ")"; ";"; ","; "&"; "%"; ":"; "|"; "!"; "^"; "~"; "\"; "{"; "}"]%char
  ++ [("?", TName "paramMarker"); ("=", TName "eq"); ("||", TName "pipes"); ("&&", TName "andand");
       ("&^", TName "andnot"); (":=", TName "assignmentEq"); ("<=>", TName "nulleq");
       (">=", TName "ge"); ("<=", TName "le"); ("!=", TName "neq"); ("<>", TName "neqSynonym");
       ("<<", TName "lsh"); (">>", TName "rsh"); ("\N", TName "null")]%string.

Definition trie_child (node : string) (c : ascii) : bool :=
  existsb (fun e => String.prefix (String.append node (String c EmptyString)) e.1) operators.

Definition trie_token (node : string) : token :=
  match node with
  | EmptyString => invalid
  | _ => match find (fun e => String.eqb e.1 node) operators with
         | Some e => e.2
         | None => TChar 0
         end
  end.

Fixpoint trie_loop (fuel : nat) (node : string) (ch0 : Z) (r : reader) : outcome (string * reader) :=
  match fuel with
  | O => no_fuel
  | S fuel =>
      if within 0 255 ch0 && trie_child node (of_byte ch0) && negb (eof r)
      then r ← inc r;
           let '(ch, r) := peek r in
           trie_loop fuel (String.append node (String (of_byte ch0) EmptyString)) ch r
      else Ret (node, r)
  end.

(** * Comments *)

Definition has_prefix (p s : string) : bool := String.prefix p s.

Definition startWithDash (r : reader) : outcome (option scanned * reader) :=
  let pos := r_p r in
  let text := rest r in
  let comment :=
    match text with
    | String _ (String _ EmptyString) => true
    | String _ (String _ (String c _)) => IsSpace (byte_of c)
    | _ => false
    end in
  if has_prefix "--" text && comment then
    '(_, r) ← incAsLongAs (fun ch => negb (ch =? 10)) r; Ret (None, r)
  else if has_prefix "->>" text then
    r ← incN 3 r; Ret (Some (TName "juss", pos, EmptyString, r), r)
  else if has_prefix "->" text then
    r ← incN 2 r; Ret (Some (TName "jss", pos, EmptyString, r), r)
  else r ← inc r; Ret (Some (TChar 45, pos, "-"%string, r), r).

(** The loop over a comment: whether its end was found. *)
Fixpoint comment_loop (fuel : nat) (asterisk : bool) (r : reader) : outcome (bool * reader) :=
  match fuel with
  | O => no_fuel
  | S fuel =>
      '(ch0, r) ← readByte r;
      if asterisk && (ch0 =? 47) then Ret (true, r)
      else if (ch0 =? rune_error) && eof r then Ret (false, r)
      else comment_loop fuel (ch0 =? 42) r
  end.

(** The first position after the blanks that follow the first blank. *)
Fixpoint skip_blanks (fuel : nat) (comment : list Z) (offset : Z) : outcome Z :=
  match fuel with
  | O => no_fuel
  | S fuel =>
      if offset <? zlen comment then
        let offset := offset + 1 in
        b ← index comment offset;
        if negb (IsSpace b) then Ret offset else skip_blanks fuel comment offset
      else Ret offset
  end.

Fixpoint first_space (i : Z) (bs : list Z) {struct bs} : Z :=
  match bs with
  | [] => 0
  | b :: bs => if IsSpace b then i else first_space (i + 1) bs
  end.

Definition sqlOffsetInComment (comment : string) : outcome Z :=
  let bs := sbytes comment in skip_blanks (S (length bs)) bs (first_space 0 bs).

Definition is_blank (c : ascii) : bool := (byte_of c =? 32) || (byte_of c =? 9).

(** The version number [M?[0-9]{5,6}] a text may begin with is dropped. *)
Fixpoint count_digits (s : string) : nat :=
  match s with
  | String c s => if isDigit (byte_of c) then S (count_digits s) else O
  | EmptyString => O
  end.

Definition drop_digits (s t : string) : string :=
  let n := count_digits t in if (n <? 5)%nat then s else sdrop (Nat.min n 6) t.

Definition drop_version (s : string) : string :=
  match s with
  | String c t => if Ascii.eqb c "M" then drop_digits s t else drop_digits s s
  | EmptyString => s
  end.

(** [TrimComment] of a comment [/*!...*/]: the pattern [specCodePattern] matches the
    comment as a whole, because its end is the first [*/] of the text. *)
Definition TrimComment (comment : string) : string :=
  let txt := if has_prefix "/*!" comment
             then trim_left is_blank (drop_version (sdrop 3 comment)) else comment in
  let n := String.length txt in
  if (2 <=? n)%nat && String.eqb (sdrop (n - 2) txt) "*/"
  then trim_right is_blank (String.substring 0 (n - 2) txt) else txt.

(** * The scanner *)

Inductive Scanner := mk_Scanner
  (s_r : reader) (s_errs : list error) (specialComment : option special) (sqlMode : SQLMode)
with special : Type :=
| mysqlSpecificCode (sc : Scanner) (p : Pos)
| optimizerHint (sc : Scanner) (p : Pos) (end_ : bool).

Definition NewScanner (s : string) : Scanner := mk_Scanner (mk_reader s (mk_Pos 0 0 0) 0) [] None 0.

(** [reset], which keeps the SQL mode *)
Definition reset (sc : Scanner) (sql : string) : Scanner :=
  match sc with mk_Scanner _ _ _ m => mk_Scanner (mk_reader sql (mk_Pos 1 0 0) 0) [] None m end.

Definition add_pos (p q : Pos) : Pos := mk_Pos (Line p + Line q) (Col p + Col q) (Offset p + Offset q).

(** The function of the first level of the trie, for the bytes that have one and are
    no comment. *)
Definition first_fn (mode : SQLMode) (ch0 : Z) : option (reader -> outcome scanned) :=
  if ch0 =? 64 then Some (startWithAt mode)
  else if (ch0 =? 88) || (ch0 =? 120) then Some startWithXx
  else if (ch0 =? 78) || (ch0 =? 110) then Some startWithNn
  else if (ch0 =? 66) || (ch0 =? 98) then Some startWithBb
  else if ch0 =? 46 then Some startWithDot
  else if isLetter ch0 || (ch0 =? 95) || (ch0 =? 36) then Some scanIdentifier
  else if ch0 =? 96 then Some scanQuotedIdent
  else if isDigit ch0 then Some startWithNumber
  else if (ch0 =? 39) || (ch0 =? 34) then Some (scanString mode)
  else None.

Definition scan_result : Type := token * Pos * string * Scanner.

(** A function of the reader, in the scanner without a special comment. *)
Definition with_reader (errs : list error) (mode : SQLMode) (m : outcome scanned) : outcome scan_result :=
  '(tok, pos, lit, r) ← m; Ret (tok, pos, lit, mk_Scanner r errs None mode).

(** A comment has been read: the scanner, with the SQL of the comment. [None] when
    the comment is no token. *)
Definition comment_end (r : reader) (errs : list error) (mode : SQLMode) (pos : Pos) :
    outcome (option (token * Pos * string) * Scanner) :=
  comment ← data r pos;
  if has_prefix "/*+" comment then
    begin ← sqlOffsetInComment comment;
    sql ← ssub comment begin (slen comment - 2);
    Ret (Some (hintBegin, pos, EmptyString),
         mk_Scanner r errs (Some (optimizerHint (NewScanner sql)
           (mk_Pos (Line pos) (Col pos) (Offset pos + begin)) false)) mode)
  else if has_prefix "/*!" comment then
    begin ← sqlOffsetInComment comment;
    Ret (None, mk_Scanner r errs (Some (mysqlSpecificCode (NewScanner (TrimComment comment))
                 (mk_Pos (Line pos) (Col pos) (Offset pos + begin)))) mode)
  else Ret (None, mk_Scanner r errs None mode).

(** [fmt.Errorf("near '%-.80s' at line %d", ...)] *)
Definition ParseErrorWith : error := Errorf "near '%-.80s' at line %d".

(** The body of [scan] after the special comment; [again] is the recursive call of the
    comments. *)
Definition scan_text (again : Scanner -> outcome scan_result) (r : reader) (errs : list error)
    (mode : SQLMode) : outcome scan_result :=
  let '(ch0, r) := peek r in
  '(ch0, r) ← (if IsSpace ch0 then skipWhitespace r else Ret (ch0, r));
  let pos := r_p r in
  if eof r then Ret (TChar 0, pos, EmptyString, mk_Scanner r errs None mode) else
  if isIdentExtend ch0 then with_reader errs mode (scanIdentifier r) else
  if ch0 =? 35 then
    '(_, r) ← incAsLongAs (fun ch => negb (ch =? 10)) r; again (mk_Scanner r errs None mode)
  else if ch0 =? 45 then
    '(o, r) ← startWithDash r;
    match o with
    | Some t => with_reader errs mode (Ret t)
    | None => again (mk_Scanner r errs None mode)
    end
  else if ch0 =? 47 then
    r ← inc r;
    let '(ch0, r) := peek r in
    if ch0 =? 42 then
      r ← inc r;
      '(closed, r) ← comment_loop (S (fuel_of r)) false r;
      if (closed : bool) then
        '(o, sc) ← comment_end r errs mode pos;
        match o with Some (tok, p, lit) => Ret (tok, p, lit, sc) | None => again sc end
      else Ret (TChar 0, pos, EmptyString, mk_Scanner r (errs ++ [ParseErrorWith]) None mode)
    else Ret (TChar 47, pos, EmptyString, mk_Scanner r errs None mode)
  else match first_fn mode ch0 with
       | Some fn => with_reader errs mode (fn r)
       | None =>
           '(node, r) ← trie_loop (S (fuel_of r)) EmptyString ch0 r;
           lit ← data r pos;
           Ret (trie_token node, pos, lit, mk_Scanner r errs None mode)
       end.

Fixpoint scan (fuel : nat) (sc : Scanner) : outcome scan_result :=
  match fuel with
  | O => no_fuel
  | S fuel =>
      match sc with
      | mk_Scanner r errs None mode => scan_text (scan fuel) r errs mode
      | mk_Scanner r errs (Some (mysqlSpecificCode inner p)) mode =>
          '(tok, pos, lit, inner) ← scan fuel inner;
          if bool_decide (tok = TChar 0) then scan_text (scan fuel) r errs mode
          else Ret (tok, add_pos pos p, lit, mk_Scanner r errs (Some (mysqlSpecificCode inner p)) mode)
      | mk_Scanner r errs (Some (optimizerHint inner p end_)) mode =>
          '(tok, pos, lit, inner) ← scan fuel inner;
          if bool_decide (tok = TChar 0) then
            if (end_ : bool) then scan_text (scan fuel) r errs mode
            else Ret (hintEnd, add_pos pos p, lit,
                      mk_Scanner r errs (Some (optimizerHint inner p true)) mode)
          else Ret (tok, add_pos pos p, lit, mk_Scanner r errs (Some (optimizerHint inner p end_)) mode)
      end
  end.
