(* ===== verification/Preview.v ===== *)
(** parser/analyzer.go and parser/comments.go: the kind of a statement from its first
    words, and the comments around it. *)

From Stdlib Require Import Ascii String.
From S2P Require Import Prelude GoStr Keywords Utf8 Lexer.

(** * The strings package, by runes *)

(** The runes of a text with the bytes of each; a byte that begins no rune is one by
    itself. *)
Fixpoint chunks_fuel (fuel : nat) (s : string) : list (Z * string) :=
  match fuel, s with
  | O, _ | _, EmptyString => []
  | S fuel, _ =>
      let '(r, w) := DecodeRuneInString s in
      (r, stake (Z.to_nat w) s) :: chunks_fuel fuel (sdrop (Z.to_nat w) s)
  end.

Definition chunks (s : string) : list (Z * string) := chunks_fuel (String.length s) s.

Fixpoint joined (l : list (Z * string)) : string :=
  match l with [] => "" | (_, s) :: l => s +:+ joined l end.

Fixpoint drop_while (f : Z -> bool) (l : list (Z * string)) : list (Z * string) :=
  match l with
  | [] => []
  | (r, s) :: l' => if f r then drop_while f l' else l
  end.

Definition drop_while_end (f : Z -> bool) (l : list (Z * string)) : list (Z * string) :=
  rev (drop_while f (rev l)).

Fixpoint take_until (f : Z -> bool) (l : list (Z * string)) : list (Z * string) :=
  match l with
  | [] => []
  | (r, s) :: l' => if f r then [] else (r, s) :: take_until f l'
  end.

Definition TrimLeftFunc (f : Z -> bool) (s : string) : string := joined (drop_while f (chunks s)).
Definition TrimRightFunc (f : Z -> bool) (s : string) : string := joined (drop_while_end f (chunks s)).
Definition TrimFunc (f : Z -> bool) (s : string) : string := TrimRightFunc f (TrimLeftFunc f s).

(** The text before the first rune of the kind: [s[:strings.IndexFunc(s, f)]], or [s]
    when there is none. *)
Definition before_first (f : Z -> bool) (s : string) : string := joined (take_until f (chunks s)).

(** [strings.Index] and [strings.LastIndex]; -1 is none. *)
Definition Index (s sub : string) : Z :=
  match String.index 0 sub s with Some n => Z.of_nat n | None => -1 end.

Fixpoint last_index (n : nat) (s sub : string) : Z :=
  if String.prefix sub (sdrop n s) then Z.of_nat n
  else match n with O => -1 | S n => last_index n s sub end.

Definition LastIndex (s sub : string) : Z := last_index (String.length s - String.length sub) s sub.

(** [unicode.IsLetter] beyond ASCII. *)
Class HighLetters := high_letter : Z -> bool.

Definition IsLetter {HL : HighLetters} (r : Z) : bool :=
  if r <? 128 then within 65 90 r || within 97 122 r else high_letter r.

(** * Comments *)

Definition isNonSpace (r : Z) : bool := negb (IsSpace r).

(** One round of [leadingCommentEnd] from the given text; the length of the blanks and
    the comment it begins with. *)
Definition leading_comment (text : string) : option nat :=
  let remaining := TrimLeftFunc IsSpace text in
  let blanks := (String.length text - String.length remaining)%nat in
  if (slen remaining <? 4) || negb (String.prefix "/*" remaining) then None else
  let commentLength := 4 + Index (sdrop 2 remaining) "*/" in
  if commentLength <? 4 then None else Some (blanks + Z.to_nat commentLength)%nat.

(** The loop; [pos] counts what was passed, the position returned without a comment
    ahead is behind the blanks. *)
Fixpoint leading_loop (fuel : nat) (text : string) (pos : nat) (hasComment : bool) : nat :=
  match fuel with
  | O => if hasComment then pos else O
  | S fuel =>
      match leading_comment text with
      | Some n => leading_loop fuel (sdrop n text) (pos + n) true
      | None =>
          if hasComment
          then if String.eqb (TrimLeftFunc IsSpace text) "" then pos
               else (pos + (String.length text - String.length (TrimLeftFunc IsSpace text)))%nat
          else O
      end
  end.

Definition leadingCommentEnd (text : string) : nat := leading_loop (S (String.length text)) text 0 false.

(** The loop of [trailingCommentStart] on [text[:reducedLen]]. *)
Fixpoint trailing_loop (fuel : nat) (text : string) (hasComment : bool) (all : nat) : nat :=
  let stop (n : nat) := if hasComment then n else all in
  match fuel with
  | O => stop (String.length text)
  | S fuel =>
      let reduced := TrimRightFunc IsSpace text in
      if String.eqb reduced "" then stop (String.length text)
      else if (slen reduced <? 4) || negb (String.eqb (sdrop (String.length reduced - 2) reduced) "*/")
      then stop (String.length reduced)
      else
        let startCommentPos := LastIndex (stake (String.length reduced - 2) reduced) "/*" in
        if startCommentPos <? 0 then stop (String.length reduced)
        else trailing_loop fuel (stake (Z.to_nat startCommentPos) reduced) true all
  end.

Definition trailingCommentStart (text : string) : nat :=
  trailing_loop (S (String.length text)) text false (String.length text).

Record MarginComments := mk_MarginComments { Leading : string; Trailing : string }.

Definition SplitMarginComments (sql : string) : string * MarginComments :=
  let trailingStart := trailingCommentStart sql in
  let leadingEnd := leadingCommentEnd (stake trailingStart sql) in
  (TrimFunc IsSpace (sdrop leadingEnd (stake trailingStart sql)),
   mk_MarginComments (TrimLeftFunc IsSpace (stake leadingEnd sql))
     (TrimRightFunc IsSpace (sdrop trailingStart sql))).

Definition hasCommentPrefix (sql : string) : bool := String.prefix "/*" sql || String.prefix "--" sql.

(** The loop of [StripLeadingComments]. *)
Fixpoint strip_loop (fuel : nat) (sql : string) : string :=
  match fuel with
  | O => sql
  | S fuel =>
      if negb (hasCommentPrefix sql) then sql
      else if String.prefix "/" sql then
        let index := Index sql "*/" in
        if index <=? 1 then sql
        else if String.prefix "/*!" sql then sql
        else strip_loop fuel (TrimFunc IsSpace (sdrop (Z.to_nat index + 2) sql))
      else
        let index := Index sql (String "010" "") in
        if index =? -1 then ""
        else strip_loop fuel (TrimFunc IsSpace (sdrop (Z.to_nat index + 1) sql))
  end.

Definition StripLeadingComments (sql : string) : string :=
  let sql := TrimFunc IsSpace sql in strip_loop (S (String.length sql)) sql.

(** * Kinds of statements *)

Inductive stmtType :=
| StmtSelect | StmtStream | StmtInsert | StmtReplace | StmtUpdate | StmtDelete | StmtDDL
| StmtBegin | StmtCommit | StmtRollback | StmtSavepoint | StmtReleaseSavepoint
| StmtSet | StmtShow | StmtUse | StmtOther | StmtUnknown | StmtComment.

#[global] Instance stmtType_eq_dec : EqDecision stmtType.
Proof. solve_decision. Defined.

(** A [switch] on strings. *)
Definition switch {A} (s : string) (cases : list (string * A)) : option A :=
  snd <$> List.find (fun c => String.eqb s c.1) cases.

Definition first_words : list (string * stmtType) :=
  [("select", StmtSelect); ("stream", StmtStream); ("insert", StmtInsert); ("replace", StmtReplace);
   ("update", StmtUpdate); ("delete", StmtDelete)]%string.

Definition whole_texts : list (string * stmtType) :=
  [("begin", StmtBegin); ("start transaction", StmtBegin); ("commit", StmtCommit);
   ("rollback", StmtRollback); ("savepoint", StmtSavepoint); ("release", StmtReleaseSavepoint)]%string.

Definition later_words : list (string * stmtType) :=
  [("create", StmtDDL); ("alter", StmtDDL); ("rename", StmtDDL); ("drop", StmtDDL); ("truncate", StmtDDL);
   ("flush", StmtDDL); ("set", StmtSet); ("show", StmtShow); ("use", StmtUse); ("analyze", StmtOther);
   ("describe", StmtOther); ("desc", StmtOther); ("explain", StmtOther); ("repair", StmtOther);
   ("optimize", StmtOther)]%string.

Section preview.
Context {HL : HighLetters}.

Definition Preview (sql : string) : stmtType :=
  let trimmed := StripLeadingComments sql in
  let firstWord := before_first IsSpace trimmed in
  let loweredFirstWord := ToLower (TrimLeftFunc (fun r => negb (IsLetter r)) firstWord) in
  match switch loweredFirstWord first_words with
  | Some t => t
  | None =>
      match switch (ToLower (SplitMarginComments trimmed).1) whole_texts with
      | Some t => t
      | None =>
          match switch loweredFirstWord later_words with
          | Some t => t
          | None => if String.prefix "/*!" trimmed then StmtComment else StmtUnknown
          end
      end
  end.
End preview.

(** [canHandleWithoutPlan] of proxy/server/executor.go. *)
Definition canHandleWithoutPlan (t : stmtType) : bool :=
  match t with
  | StmtShow | StmtSet | StmtBegin | StmtCommit | StmtRollback | StmtSavepoint | StmtUse => true
  | _ => false
  end.

(** * Examples *)

#[local] Instance ascii_letters : HighLetters := fun _ => false.

Example preview_comment : Preview " /* a */ -- b
 (SELECT 1)" = StmtSelect.
Proof. by vm_compute. Qed.

Example preview_begin : Preview "BEGIN /* x */" = StmtBegin.
Proof. by vm_compute. Qed.

(** Only the bare words are recognised: a savepoint with its name is no savepoint. *)
Example preview_savepoint : Preview "SAVEPOINT a" = StmtUnknown /\ Preview "ROLLBACK TO a" = StmtUnknown.
Proof. by vm_compute. Qed.

Example split_margin :
  SplitMarginComments "/*a*/ /*master*/ select 1 /*b*/ " = ("select 1"%string, mk_MarginComments "/*a*/ /*master*/ " " /*b*/").
Proof. by vm_compute. Qed.
