(* ===== verification/LexerSafe.v ===== *)
(** The scanner of SQL returns a token for every text: it never indexes the text out
    of range, and its loops and the scanners of comments end. *)

From Stdlib Require Import Ascii String.
From S2P Require Import Prelude GoStr Keywords Utf8 Lexer.

(** * The reader stays inside its text *)

Abbreviation off r := (Offset (r_p r)).

Definition ok (r : reader) : Prop := 0 <= off r <= slen (r_s r).

(** The rune at the position has been peeked, so [inc] may be called. *)
Definition peeked (r : reader) : Prop :=
  0 <= off r < slen (r_s r) /\ 1 <= r_w r <= slen (r_s r) - off r.

(** [r'] is [r] or a later position in the same text. *)
Definition later (r r' : reader) : Prop :=
  r_s r' = r_s r /\ off r <= off r' <= slen (r_s r).

Definition sooner (r r' : reader) : Prop :=
  r_s r' = r_s r /\ off r < off r' <= slen (r_s r).

Lemma later_ok r r' : ok r -> later r r' -> ok r'.
Proof. unfold ok, later. intros [] [-> ?]. lia. Qed.

Lemma later_refl r : ok r -> later r r.
Proof. unfold ok, later. intuition lia. Qed.

Lemma later_trans r1 r2 r3 : later r1 r2 -> later r2 r3 -> later r1 r3.
Proof. unfold later. intros [E1 ?] [E2 ?]. rewrite E1 in *. split; [congruence|lia]. Qed.

Lemma peeked_ok r : peeked r -> ok r.
Proof. unfold peeked, ok. lia. Qed.

Lemma eof_false r : eof r = false <-> off r < slen (r_s r).
Proof. unfold eof. rewrite Z.leb_gt. done. Qed.

Lemma eof_true r : eof r = true <-> slen (r_s r) <= off r.
Proof. unfold eof. rewrite Z.leb_le. done. Qed.

(** ** Texts *)

Lemma rest_length r : ok r -> slen (rest r) = slen (r_s r) - off r.
Proof. unfold ok, rest. intros ?. rewrite sdrop_length. lia. Qed.

Lemma rest_cons r : ok r -> eof r = false -> exists c t, rest r = String c t.
Proof.
  intros Hr He%eof_false. pose proof (rest_length r Hr) as Hl.
  destruct (rest r) as [|c t]; [unfold slen in Hl; cbn in Hl; unfold ok, slen in *; lia|eauto].
Qed.

(** ** UTF-8 *)

Lemma DecodeRune_width s : s <> EmptyString -> 1 <= (DecodeRuneInString s).2 <= slen s.
Proof.
  intros Hne. unfold DecodeRuneInString. rewrite <- sbytes_length.
  destruct (sbytes s) as [|b0 [|b1 [|b2 [|b3 bs]]]] eqn:E; [by destruct s|..];
    destruct (b0 <? 128); cbn [snd]; unfold zlen; cbn [length]; try lia.
  - destruct (utf8_2 b0 b1); cbn [snd]; lia.
  - destruct (utf8_2 b0 b1); cbn [snd]; [lia|]. destruct (utf8_3 b0 b1 b2); cbn [snd]; lia.
  - destruct (utf8_2 b0 b1); cbn [snd]; [lia|]. destruct (utf8_3 b0 b1 b2); cbn [snd]; [lia|].
    destruct (utf8_4 b0 b1 b2 b3); cbn [snd]; lia.
Qed.

Lemma peek_rune_width s : s <> EmptyString -> 1 <= (peek_rune s).2 <= slen s.
Proof.
  intros Hne. pose proof (DecodeRune_width s Hne). destruct s as [|b s]; [done|].
  unfold peek_rune. destruct (byte_of b <? 128); [rewrite slen_cons; pose proof (slen_nonneg s); cbn; lia|].
  destruct (DecodeRuneInString (String b s)) as [v w]. cbn [snd] in *.
  destruct ((v =? rune_error) && (w =? 1)); cbn; lia.
Qed.

(** ** The operations of the reader *)

Lemma peek_eof r : eof r = true -> peek r = (rune_error, r).
Proof. unfold peek. by intros ->. Qed.

Lemma peek_ok r :
  ok r -> exists ch r', peek r = (ch, r') /\ r_s r' = r_s r /\ r_p r' = r_p r /\
    (eof r = true /\ ch = rune_error /\ r' = r \/ eof r = false /\ peeked r').
Proof.
  intros Hr. destruct (eof r) eqn:He; [rewrite peek_eof by done; eauto 10|].
  destruct (rest_cons r Hr He) as (c & t & Hc). pose proof (rest_length r Hr) as Hl.
  unfold peek. rewrite He. pose proof (peek_rune_width (rest r) ltac:(by rewrite Hc)) as Hw.
  destruct (peek_rune (rest r)) as [v w]. cbn [snd] in Hw. eexists _, _. split; [reflexivity|].
  split_and!; [done..|]. right. apply eof_false in He. unfold peeked, ok in *. cbn. lia.
Qed.

Lemma inc_ok r :
  peeked r -> exists r', inc r = Ret r' /\ r_s r' = r_s r /\ off r' = off r + r_w r /\ r_w r' = r_w r.
Proof.
  intros Hp. assert (ok r) as Hr by (by apply peeked_ok). unfold peeked in Hp.
  destruct (rest_cons r Hr) as (c & t & Hc); [apply eof_false; lia|].
  unfold inc. rewrite Hc. destruct (byte_of c =? 10); eexists; (split; [reflexivity|done]).
Qed.

Lemma inc_sooner r : peeked r -> exists r', inc r = Ret r' /\ sooner r r'.
Proof.
  intros Hp. destruct (inc_ok r Hp) as (r' & H1 & H2 & H3 & _). exists r'. split; [done|].
  unfold sooner, peeked in *. rewrite H2, H3. split; [done|]. lia.
Qed.

Lemma same_pos_later r r' : ok r -> r_s r' = r_s r -> r_p r' = r_p r -> later r r'.
Proof. unfold ok, later. intros ? -> ->. split; [done|lia]. Qed.

Lemma sooner_later r r' : sooner r r' -> later r r'.
Proof. unfold sooner, later. intuition lia. Qed.

Lemma later_sooner r1 r2 r3 : later r1 r2 -> sooner r2 r3 -> sooner r1 r3.
Proof. unfold later, sooner. intros [E1 ?] [E2 ?]. rewrite E1 in *. split; [congruence|lia]. Qed.

Lemma sooner_trans r1 r2 r3 : sooner r1 r2 -> later r2 r3 -> sooner r1 r3.
Proof. unfold later, sooner. intros [E1 ?] [E2 ?]. rewrite E1 in *. split; [congruence|lia]. Qed.

Lemma sooner_ok r r' : ok r -> sooner r r' -> ok r'.
Proof. intros ? ?%sooner_later. by eapply later_ok. Qed.

Lemma peek_not_eof r ch r' :
  ok r -> peek r = (ch, r') -> ch <> rune_error -> later r r' /\ peeked r'.
Proof.
  intros Hr E Hch. destruct (peek_ok r Hr) as (c & r1 & E1 & Hs & Hp & H). rewrite E in E1.
  injection E1 as <- <-. split; [by apply same_pos_later|]. destruct H as [(_ & ? & _)|[_ ?]]; [congruence|done].
Qed.

Lemma peek_later r ch r' : ok r -> peek r = (ch, r') -> later r r' /\ ok r'.
Proof.
  intros Hr E. destruct (peek_ok r Hr) as (c & r1 & E1 & Hs & Hp & H). rewrite E in E1.
  injection E1 as <- <-. pose proof (same_pos_later r r' Hr Hs Hp). eauto using later_ok.
Qed.

Lemma readByte_ok r :
  ok r -> exists ch r', readByte r = Ret (ch, r') /\
    (eof r = true /\ ch = rune_error /\ r' = r \/ eof r = false /\ sooner r r').
Proof.
  intros Hr. unfold readByte. destruct (peek_ok r Hr) as (ch & r1 & -> & Hs & Hp & [(He & -> & ->)|[He Hpk]]).
  - exists rune_error, r. rewrite He. cbn. split; [done|]. by left.
  - destruct (inc_sooner r1 Hpk) as (r2 & -> & H2).
    assert (eof r1 = false) as -> by (unfold eof in *; by rewrite Hs, Hp). rewrite andb_false_r.
    exists ch, r2. split; [done|]. right. split; [done|].
    eapply later_sooner; [|done]. by apply same_pos_later.
Qed.

Definition remaining (r : reader) : Z := slen (r_s r) - off r.

Lemma fuel_enough r : ok r -> remaining r < Z.of_nat (fuel_of r).
Proof.
  intros Hr. pose proof (rest_length r Hr) as H. unfold remaining, fuel_of. unfold slen in H at 1. lia.
Qed.

Lemma sooner_remaining r r' : sooner r r' -> remaining r' < remaining r.
Proof. unfold sooner, remaining. intros [-> ?]. lia. Qed.

Lemma later_remaining r r' : later r r' -> remaining r' <= remaining r.
Proof. unfold later, remaining. intros [-> ?]. lia. Qed.

(** The loop ends, at the end of the text or where the next rune has been peeked. *)
Lemma inc_loop_ok fuel fn r :
  ok r -> remaining r < Z.of_nat fuel -> exists ch r', inc_loop fuel fn r = Ret (ch, r') /\
    later r r' /\ (eof r' = true \/ peeked r').
Proof.
  revert r. induction fuel as [|fuel IH]; intros r Hr Hf; [unfold remaining, ok in *; lia|].
  cbn [inc_loop]. destruct (peek_ok r Hr) as (ch & r1 & -> & Hs & Hp & H).
  assert (later r r1) as Hl by (by apply same_pos_later).
  destruct (negb (fn ch)).
  { exists ch, r1. split_and!; [done..|]. destruct H as [(? & _ & ->)|[_ ?]]; auto. }
  destruct H as [(He & -> & ->)|[He Hpk]].
  - rewrite He. cbn. exists 0, r. auto.
  - assert (eof r1 = false) as -> by (unfold eof in *; by rewrite Hs, Hp). rewrite andb_false_r.
    destruct (inc_sooner r1 Hpk) as (r2 & -> & H2). cbn [mbind outcome_bind].
    assert (sooner r r2) as H3 by (by eapply later_sooner).
    destruct (IH r2) as (c & r3 & -> & H4 & H5); [by eapply sooner_ok| |].
    { apply sooner_remaining in H3. lia. }
    exists c, r3. split_and!; [done| |done]. eapply later_trans; [by apply sooner_later|done].
Qed.

Lemma incAsLongAs_ok fn r :
  ok r -> exists ch r', incAsLongAs fn r = Ret (ch, r') /\ later r r' /\ (eof r' = true \/ peeked r').
Proof. intros Hr. apply inc_loop_ok; [done|]. by apply fuel_enough. Qed.

Lemma data_ok r pos :
  ok r -> 0 <= Offset pos <= off r ->
  exists lit, data r pos = Ret lit /\ slen lit = off r - Offset pos.
Proof.
  unfold data, ssub, ok. intros. rewrite decide_True by lia. eexists. split; [done|].
  unfold slen in *. rewrite length_substring; lia.
Qed.

Lemma ssub_ok s a b : 0 <= a <= b -> b <= slen s -> exists t, ssub s a b = Ret t /\ slen t = b - a.
Proof.
  unfold ssub. intros. rewrite decide_True by lia. eexists. split; [done|].
  unfold slen in *. rewrite length_substring; lia.
Qed.

Create HintDb reader.
#[export] Hint Resolve later_ok later_refl later_trans peeked_ok same_pos_later sooner_later later_sooner
  sooner_trans sooner_ok : reader.

(** A function of the reader returns, at a later position. *)
Definition returns (r : reader) (m : outcome scanned) : Prop :=
  exists tok pos lit r', m = Ret (tok, pos, lit, r') /\ later r r'.

(** ** Steps of a function, seen from the position [r0] it began at *)

Lemma peek_from r0 r :
  ok r0 -> later r0 r -> exists ch r1, peek r = (ch, r1) /\ later r0 r1 /\ r_p r1 = r_p r /\
    (ch = rune_error \/ peeked r1) /\ (eof r1 = false -> peeked r1).
Proof.
  intros H0 Hl. assert (ok r) as Hr by eauto with reader.
  destruct (peek_ok r Hr) as (ch & r1 & -> & Hs & Hp & H). exists ch, r1.
  split_and!; [done|eauto with reader|done| |]; destruct H as [(He & -> & ->)|[He ?]]; auto. congruence.
Qed.

Lemma inc_from r0 r :
  later r0 r -> peeked r -> exists r1, inc r = Ret r1 /\ later r0 r1 /\ sooner r r1.
Proof. intros Hl Hp. destruct (inc_sooner r Hp) as (r1 & -> & H). eauto 6 with reader. Qed.

Lemma loop_from r0 fn r :
  ok r0 -> later r0 r -> exists ch r1, incAsLongAs fn r = Ret (ch, r1) /\ later r0 r1.
Proof.
  intros H0 Hl. destruct (incAsLongAs_ok fn r) as (ch & r1 & -> & H1 & _); eauto with reader.
Qed.

Lemma token_data_returns r0 t pos r :
  ok r0 -> later r0 r -> 0 <= Offset pos <= off r0 -> returns r0 (token_data t pos r).
Proof.
  intros H0 Hl Hpos. unfold token_data. destruct (data_ok r pos) as (lit & -> & _); [eauto with reader| |].
  { destruct Hl as [_ ?]. lia. }
  by exists t, pos, lit, r.
Qed.

Lemma Ret_returns r0 t pos lit r : later r0 r -> returns r0 (Ret (t, pos, lit, r)).
Proof. intros H. by exists t, pos, lit, r. Qed.

(** The rune that was compared is not the one of the end of the text. *)
Ltac solve_peeked :=
  match goal with
  | H : ?ch = rune_error \/ peeked ?r |- peeked ?r =>
      destruct H as [H|H]; [exfalso; unfold is_e, isDigit, within, rune_error in *; lia|exact H]
  | H : peeked ?r |- peeked ?r => exact H
  end.

(** The next step of a function from [r0]. *)
Ltac lex_step :=
  lazymatch goal with
  | |- returns ?r0 (let '(_, _) := peek ?r in _) =>
      let E := fresh in
      destruct (peek_from r0 r ltac:(assumption) ltac:(eauto with reader))
        as (? & ? & E & ? & ? & ? & ?); rewrite E; clear E
  | |- returns ?r0 (mbind _ (inc ?r)) =>
      let E := fresh in
      destruct (inc_from r0 r ltac:(eauto with reader) ltac:(solve_peeked)) as (? & E & ? & ?);
      rewrite E; clear E; cbn [mbind outcome_bind]
  | |- returns ?r0 (mbind _ (incAsLongAs ?fn ?r)) =>
      let E := fresh in
      destruct (loop_from r0 fn r ltac:(assumption) ltac:(eauto with reader)) as (? & ? & E & ?);
      rewrite E; clear E; cbn [mbind outcome_bind]
  | |- returns _ (if ?b then _ else _) => destruct b eqn:?
  | |- returns _ (token_data _ _ _) => apply token_data_returns; eauto with reader
  | |- returns _ (Ret _) => apply Ret_returns; eauto with reader
  end.

Lemma scanIdentifier_returns r : peeked r -> returns r (scanIdentifier r).
Proof.
  intros Hp. assert (ok r) by eauto with reader. assert (later r r) by eauto with reader.
  unfold scanIdentifier. repeat lex_step. unfold ok in *. lia.
Qed.

(** ** Numbers *)

(** A loop over digits *)
Definition scans (f : reader -> outcome reader) : Prop :=
  forall r0 r, ok r0 -> later r0 r -> exists r1, f r = Ret r1 /\ later r0 r1.

Lemma scans_loop fn : scans (fun r => '(_, r) ← incAsLongAs fn r; Ret r).
Proof.
  intros r0 r H0 Hl. destruct (loop_from r0 fn r H0 Hl) as (ch & r1 & -> & H). by exists r1.
Qed.

Lemma scans_Digits : scans scanDigits.
Proof. exact (scans_loop isDigit). Qed.
Lemma scans_Oct : scans scanOct.
Proof. exact (scans_loop (within 48 55)). Qed.
Lemma scans_Hex : scans scanHex.
Proof. exact (scans_loop isHexDigit). Qed.
Lemma scans_Bit : scans scanBit.
Proof. exact (scans_loop _). Qed.

Ltac scan_step H :=
  lazymatch goal with
  | |- returns ?r0 (mbind _ (_ ?r)) =>
      let E := fresh in
      destruct (H r0 r ltac:(assumption) ltac:(eauto with reader)) as (? & E & ?);
      rewrite E; clear E; cbn [mbind outcome_bind]
  end.

Section numbers.
Context (r0 : reader).
Hypothesis Hok : ok r0.

#[local] Abbreviation pos := (r_p r0).

Lemma start_bounds : 0 <= Offset pos <= off r0.
Proof. unfold ok in *. lia. Qed.
#[local] Hint Resolve start_bounds : reader.

Lemma word_data_returns r : later r0 r -> returns r0 (word_data pos r).
Proof. intros Hl. unfold word_data. repeat lex_step. Qed.

(** The digits after the point *)
Lemma fraction_ok ch r :
  later r0 r -> (ch = rune_error \/ peeked r) ->
  exists ch1 r1, (if ch =? 46 then
       r ← inc r; r ← scanDigits r; let '(ch0, r) := peek r in Ret (ch0, r)
     else Ret (ch, r)) = Ret (ch1, r1) /\ later r0 r1 /\ (ch1 = rune_error \/ peeked r1).
Proof.
  intros Hl Hp. destruct (ch =? 46) eqn:E; [|eauto].
  destruct (inc_from r0 r Hl ltac:(solve_peeked)) as (r1 & -> & H1 & _). cbn [mbind outcome_bind].
  destruct (scans_Digits r0 r1 Hok H1) as (r2 & -> & H2).
  cbn [mbind outcome_bind]. destruct (peek_from r0 r2 Hok H2) as (c & r3 & -> & H3 & _ & H4 & _). eauto.
Qed.

Lemma scanFloat_returns r : r_s r = r_s r0 -> returns r0 (scanFloat pos r).
Proof.
  intros Hs. assert (later r0 (set_pos r pos)) by (unfold later, ok in *; cbn; split; [done|lia]).
  unfold scanFloat. scan_step scans_Digits. lex_step.
  match goal with H : later r0 ?r, K : ?ch = rune_error \/ peeked ?r |- _ =>
    destruct (fraction_ok ch r H K) as (ch1 & r1 & E & Hf1 & Hf2) end.
  rewrite E. cbn [mbind outcome_bind]. repeat lex_step.
  scan_step scans_Digits. lex_step.
Qed.

Lemma number_end_returns tok r : later r0 r -> returns r0 (number_end tok pos r).
Proof.
  intros Hl. unfold number_end. scan_step scans_Digits. repeat lex_step.
  - apply scanFloat_returns. match goal with H : later r0 _ |- _ => apply H end.
  - by apply word_data_returns.
Qed.

Lemma radix_end_returns tok f r :
  scans f -> later r0 r -> peeked r -> returns r0 (radix_end tok pos f r).
Proof.
  intros Hf Hl Hp. unfold radix_end. lex_step. scan_step Hf. repeat lex_step.
  - by apply word_data_returns.
  - by apply number_end_returns.
Qed.

Lemma startWithNumber_returns : returns r0 (startWithNumber r0).
Proof.
  unfold startWithNumber. destruct (readByte_ok r0 Hok) as (ch & r1 & -> & H). cbn [mbind outcome_bind].
  assert (later r0 r1) by (destruct H as [(_ & _ & ->)|[_ ?]]; eauto with reader).
  repeat lex_step.
  - scan_step scans_Oct. by apply number_end_returns.
  - apply radix_end_returns; [apply scans_Hex|done|solve_peeked].
  - apply radix_end_returns; [apply scans_Bit|done|solve_peeked].
  - apply scanFloat_returns. match goal with H : later r0 _ |- _ => apply H end.
  - by apply word_data_returns.
  - by apply number_end_returns.
  - by apply number_end_returns.
Qed.

Lemma startWithDot_returns : peeked r0 -> returns r0 (startWithDot r0).
Proof.
  intros Hp. assert (later r0 r0) by eauto with reader. unfold startWithDot. repeat lex_step.
  match goal with H : later r0 ?r |- returns _ (mbind _ (scanFloat _ ?r)) =>
    destruct (scanFloat_returns r) as (tok & p & lit & r2 & -> & Hf); [apply H|] end.
  cbn [mbind outcome_bind]. repeat lex_step.
  match goal with H : later r0 ?r |- later r0 (set_pos _ (r_p ?r)) => destruct H end.
  match goal with |- later r0 (set_pos ?r _) => assert (later r0 r) as [K _] by done end.
  split; [exact K|cbn; lia].
Qed.

End numbers.

(** ** Words, quoted identifiers and strings *)

Lemma quoted_digits_returns tok f r : scans f -> peeked r -> returns r (quoted_digits tok f r).
Proof.
  intros Hf Hp. assert (ok r) by eauto with reader. assert (later r r) by eauto with reader.
  assert (0 <= Offset (r_p r) <= off r) by (unfold ok in *; lia).
  unfold quoted_digits. repeat lex_step; [|by apply word_data_returns]. scan_step Hf. repeat lex_step.
Qed.

Lemma startWithNn_returns r : peeked r -> returns r (startWithNn r).
Proof.
  intros Hp. assert (ok r) by eauto with reader. unfold startWithNn.
  destruct (scanIdentifier_returns r Hp) as (tok & pos & lit & r1 & -> & H1). cbn [mbind outcome_bind].
  repeat lex_step.
Qed.

(** Arithmetic on the positions of readers of one text *)
Ltac positions :=
  unfold remaining, peeked, ok, later, sooner in *;
  repeat match goal with H : _ /\ _ |- _ => destruct H end;
  repeat match goal with
         | H : r_s ?x = _ |- _ => rewrite H in *; clear H
         | H : r_p ?x = _ |- _ => rewrite H in *; clear H
         end; first [lia|split; [done|lia]].

Lemma quoted_loop_returns r0 fuel pos buf r :
  ok r0 -> later r0 r -> remaining r < Z.of_nat fuel -> returns r0 (quoted_loop fuel pos buf r).
Proof.
  intros H0. revert buf r. induction fuel as [|fuel IH]; intros buf r Hl Hf; [positions|].
  cbn [quoted_loop]. destruct (readByte_ok r) as (ch & r1 & -> & [(He & -> & ->)|[He Hs]]);
    [eauto with reader|..]; cbn [mbind outcome_bind].
  { rewrite He, Z.eqb_refl. by apply Ret_returns. }
  assert (later r0 r1) by eauto with reader.
  repeat lex_step; apply IH; eauto with reader; positions.
Qed.

Lemma scanQuotedIdent_returns r : peeked r -> returns r (scanQuotedIdent r).
Proof.
  intros Hp. assert (ok r) by eauto with reader. assert (later r r) by eauto with reader.
  unfold scanQuotedIdent. lex_step. apply quoted_loop_returns; [done..|].
  apply fuel_enough. eauto with reader.
Qed.

Lemma string_next_ok r0 mb ch0 r :
  ok r0 -> later r0 r -> (eof r = false -> peeked r) ->
  exists mb' ch1 r1, string_next mb ch0 r = Ret (mb', ch1, r1) /\ later r r1 /\
    (eof r1 = false -> peeked r1) /\ (eof r = false -> remaining r1 < remaining r).
Proof.
  intros H0 Hl Hp. unfold string_next. destruct (eof r) eqn:He.
  { eexists _, _, _. split; [done|]. split_and!; [eauto with reader|congruence|done]. }
  destruct (inc_from r0 r Hl (Hp eq_refl)) as (r1 & -> & H1 & H2). cbn [mbind outcome_bind].
  destruct (peek_from r0 r1 H0 H1) as (ch1 & r2 & -> & H3 & H4 & _ & H5).
  eexists _, _, _. split; [done|]. split_and!; [|done|intros _].
  - split; [|positions]. destruct H3 as [-> _], Hl as [-> _]. done.
  - positions.
Qed.

Lemma handleEscape_ok r0 mb r :
  ok r0 -> later r0 r -> peeked r ->
  exists ch mb' r1, handleEscape mb r = Ret (ch, mb', r1) /\ later r0 r1 /\
    (eof r1 = false -> peeked r1) /\ remaining r1 < remaining r.
Proof.
  intros H0 Hl Hp. unfold handleEscape.
  destruct (inc_from r0 r Hl Hp) as (r1 & -> & H1 & H2). cbn [mbind outcome_bind].
  destruct (peek_from r0 r1 H0 H1) as (ch1 & r2 & -> & H3 & H4 & _ & H5).
  match goal with |- context [let '(_, _) := ?e in _] => destruct e as [c keep] end.
  eexists _, _, _. split; [done|]. split_and!; [done|done|]. positions.
Qed.

Lemma string_loop_returns r0 fuel mode pos ending ch0 mb r :
  ok r0 -> later r0 r -> (eof r = false -> peeked r) -> 0 <= Offset pos < off r ->
  remaining r < Z.of_nat fuel -> returns r0 (string_loop fuel mode pos ending ch0 mb r).
Proof.
  intros H0. revert ch0 mb r. induction fuel as [|fuel IH]; intros ch0 mb r Hl Hp Hpos Hf; [positions|].
  cbn [string_loop]. destruct (eof r) eqn:He; [lex_step|]. specialize (Hp eq_refl).
  assert (forall mb' ch r1, later r0 r1 -> (eof r1 = false -> peeked r1) ->
            0 <= Offset pos < off r1 -> remaining r1 < remaining r \/ remaining r1 <= remaining r /\ eof r1 = false ->
            returns r0 ('(mb, ch0, r) ← string_next mb' ch r1; string_loop fuel mode pos ending ch0 mb r)) as K.
  { intros mb' ch r1 Hl1 Hp1 Hpos1 Hrem.
    destruct (string_next_ok r0 mb' ch r1 H0 Hl1 Hp1) as (mb2 & ch2 & r2 & -> & Hn1 & Hn2 & Hn3).
    cbn [mbind outcome_bind]. pose proof (later_remaining _ _ Hn1). apply IH; eauto with reader; [positions|].
    destruct Hrem as [?|[? Hr]]; [lia|]. specialize (Hn3 Hr). lia. }
  destruct (ch0 =? ending).
  - destruct (inc_from r0 r Hl Hp) as (r1 & -> & H1 & H2). cbn [mbind outcome_bind].
    destruct (peek_from r0 r1 H0 H1) as (ch1 & r2 & -> & H3 & H4 & _ & H5).
    assert (off r < off r2) as Hadv by positions. assert (remaining r2 < remaining r) by positions.
    destruct (data_ok r2 pos) as (str & Hd & Hlen); [eauto with reader|lia|].
    destruct (ssub_ok str 1 (slen str - 1)) as (inner & Hi & _); [lia..|].
    destruct (negb _).
    + unfold lazy_data. rewrite Hd. cbn [mbind outcome_bind]. rewrite Hi.
      destruct mb; cbn [mbind outcome_bind]; lex_step.
    + rewrite Hd. cbn [mbind outcome_bind]. rewrite Hi. cbn [mbind outcome_bind].
      apply K; [done|done|lia|lia].
  - destruct ((ch0 =? 92) && _).
    + destruct (data_ok r pos) as (str & -> & Hlen); [eauto with reader|lia|]. cbn [mbind outcome_bind].
      destruct (ssub_ok str 1 (slen str)) as (inner & -> & _); [lia..|]. cbn [mbind outcome_bind].
      destruct (handleEscape_ok r0 (setUseBuf mb inner) r H0 Hl Hp) as (c & mb' & r1 & -> & H1 & H2 & H3).
      cbn [mbind outcome_bind]. apply K; [done|done|positions|lia].
    + apply K; [done|done|lia|right; split; [lia|done]].
Qed.

Lemma scanString_returns r mode : ok r -> eof r = false -> returns r (scanString mode r).
Proof.
  intros Hr He. unfold scanString.
  destruct (readByte_ok r Hr) as (ch & r1 & -> & [(? & _)|[_ Hs]]); [congruence|]. cbn [mbind outcome_bind].
  assert (later r r1) by eauto with reader. lex_step.
  apply string_loop_returns; [done..|positions|]. apply fuel_enough. eauto with reader.
Qed.

(** ** Variables *)

(** A peeked rune is a byte of the text, or is encoded by several bytes above ASCII. *)
Lemma peek_rune_cases c t :
  (peek_rune (String c t)).2 = 1 /\ (peek_rune (String c t)).1 = byte_of c \/
  let '(v, w) := peek_rune (String c t) in
  2 <= w <= slen (String c t) /\ 128 <= v /\ EncodeRune v = stake (Z.to_nat w) (String c t) /\
  Forall (fun b => 128 <= b) (take (Z.to_nat w) (sbytes (String c t))).
Proof.
  unfold peek_rune. destruct (byte_of c <? 128) eqn:Ec; [by left|].
  pose proof (DecodeRune_decoded (String c t) ltac:(done)) as H.
  destruct (DecodeRuneInString (String c t)) as [v w]. cbn [fst snd] in H.
  destruct H as [c' t' [= <- <-] Hc|c' t' _ _|v w Hw Hv He Hb]; [lia|by left|].
  right. replace (w =? 1) with false by lia. rewrite andb_false_r. done.
Qed.

(** A peeked ASCII rune is one byte wide. *)
Lemma peek_ascii r ch r1 : ok r -> peek r = (ch, r1) -> ch < 128 -> r_w r1 = 1.
Proof.
  intros Hr E Hch. destruct (eof r) eqn:He.
  { rewrite peek_eof in E by done. injection E as <- <-. unfold rune_error in Hch. lia. }
  destruct (rest_cons r Hr He) as (c & t & Hc). unfold peek in E. rewrite He, Hc in E.
  destruct (peek_rune_cases c t) as [[Hw _]|H]; destruct (peek_rune (String c t)) as [v w];
    injection E as <- <-; [done|lia].
Qed.

Lemma quoted_loop_token fuel pos buf r tok p lit r1 :
  quoted_loop fuel pos buf r = Ret (tok, p, lit, r1) -> tok = quotedIdentifier \/ tok = replacementChar.
Proof.
  revert buf r. induction fuel as [|fuel IH]; intros buf r H; [done|]. cbn [quoted_loop] in H.
  apply bind_Ret in H as ([ch r2] & _ & H). destruct (_ && _); [injection H as <- _ _ _; auto|].
  destruct (ch =? 96); [|eauto]. destruct (peek r2) as [ch1 r3]. destruct (negb _); [injection H as <- _ _ _; auto|].
  apply bind_Ret in H as (r4 & _ & H). eauto.
Qed.

Lemma string_loop_token fuel mode pos e c mb r tok p lit r1 :
  string_loop fuel mode pos e c mb r = Ret (tok, p, lit, r1) -> tok = stringLit \/ tok = replacementChar.
Proof.
  revert c mb r. induction fuel as [|fuel IH]; intros c mb r H; [done|]. cbn [string_loop] in H.
  destruct (eof r); [injection H as <- _ _ _; auto|]. destruct (c =? e).
  - apply bind_Ret in H as (r2 & _ & H). destruct (peek r2) as [ch1 r3]. destruct (negb _).
    + apply bind_Ret in H as (l & _ & [= <- _ _ _]). auto.
    + apply bind_Ret in H as (s & _ & H). apply bind_Ret in H as (i & _ & H).
      apply bind_Ret in H as ([[mb2 c2] r4] & _ & H). eauto.
  - destruct (_ && _).
    + apply bind_Ret in H as (s & _ & H). apply bind_Ret in H as (i & _ & H).
      apply bind_Ret in H as ([[c2 mb2] r4] & _ & H). apply bind_Ret in H as ([[mb3 c3] r5] & _ & H). eauto.
    + apply bind_Ret in H as ([[mb3 c3] r5] & _ & H). eauto.
Qed.

Lemma scanIdentifierOrString_ok mode r :
  ok r -> exists tok lit r1, scanIdentifierOrString mode r = Ret (tok, lit, r1) /\ later r r1 /\
    (tok = TChar 64 -> r_p r1 = r_p r /\ peeked r1 /\ r_w r1 = 1).
Proof.
  intros Hr. unfold scanIdentifierOrString.
  destruct (peek r) as [ch r1] eqn:E. destruct (peek_later _ _ _ Hr E) as [Hl Hr1].
  assert (ch <> rune_error -> peeked r1) as Hp by (intros Hne; exact (proj2 (peek_not_eof _ _ _ Hr E Hne))).
  assert (r_p r1 = r_p r) as Hpos.
  { destruct (peek_ok r Hr) as (c & r2 & E2 & _ & ? & _). congruence. }
  destruct ((ch =? 39) || (ch =? 34)) eqn:E1.
  { destruct (scanString_returns r1 mode Hr1) as (tok & p & lit & r2 & Es & H2).
    { apply eof_false. assert (peeked r1) by (apply Hp; unfold rune_error; lia). positions. }
    rewrite Es. exists tok, lit, r2. split_and!; [done|eauto with reader|]. intros ->. exfalso.
    unfold scanString in Es. apply bind_Ret in Es as ([e r3] & _ & Es). destruct (peek r3) as [c r4].
    apply string_loop_token in Es as [?|?]; discriminate. }
  destruct (ch =? 96) eqn:E2.
  { destruct (scanQuotedIdent_returns r1) as (tok & p & lit & r2 & Es & H2).
    { apply Hp. unfold rune_error. lia. }
    rewrite Es. exists tok, lit, r2. split_and!; [done|eauto with reader|]. intros ->. exfalso.
    unfold scanQuotedIdent in Es. apply bind_Ret in Es as (r3 & _ & Es).
    apply quoted_loop_token in Es as [?|?]; discriminate. }
  destruct (isUserVarChar ch).
  { destruct (loop_from r1 isUserVarChar r1 Hr1 (later_refl _ Hr1)) as (c & r2 & -> & H2).
    cbn [mbind outcome_bind]. destruct (data_ok r2 (r_p r1)) as (lit & Ed & _); [eauto with reader|positions|].
    unfold token_data. rewrite Ed. cbn [mbind outcome_bind].
    eexists _, _, _. split; [done|]. split; [eauto with reader|]. discriminate. }
  eexists _, _, _. split; [done|]. split; [done|]. intros [= ->]. split_and!; [done| |].
  - apply Hp. discriminate.
  - eapply peek_ascii; [exact Hr|exact E|lia].
Qed.

Lemma incN_ok n r :
  ok r -> r_w r = 1 -> Z.of_nat n <= remaining r -> exists r1, incN n r = Ret r1 /\ later r r1.
Proof.
  revert r. induction n as [|n IH]; intros r Hr Hw Hn; [exists r; eauto with reader|]. cbn [incN].
  destruct (inc_ok r) as (r1 & -> & Hs & Ho & Hw1); [positions|]. cbn [mbind outcome_bind].
  destruct (IH r1) as (r2 & -> & H2); [positions|lia|positions|]. exists r2. split; [done|].
  positions.
Qed.

Lemma fold_prefix_length v s : fold_prefix v s = true -> slen v <= slen s.
Proof.
  revert s. induction v as [|a v IH]; intros s; [intros _; apply slen_nonneg|].
  destruct s as [|b s]; [done|]. cbn [fold_prefix]. intros [_ H]%andb_true_iff. rewrite !slen_cons.
  apply IH in H. lia.
Qed.

Lemma scope_prefix_length s : slen (scope_prefix s) <= slen s.
Proof.
  unfold scope_prefix. destruct (find _ _) as [v|] eqn:E; [|apply slen_nonneg].
  apply find_some in E as [_ E]. by apply fold_prefix_length.
Qed.

Lemma startWithAt_returns mode r : peeked r -> r_w r = 1 -> returns r (startWithAt mode r).
Proof.
  intros Hp Hw. assert (ok r) as Hr by eauto with reader. unfold startWithAt.
  destruct (inc_ok r Hp) as (r1 & -> & Hs1 & Ho1 & _). cbn [mbind outcome_bind].
  assert (later r r1) as Hl1 by positions. assert (ok r1) as Hr1 by eauto with reader.
  destruct (scanIdentifierOrString_ok mode r1 Hr1) as (tok & lit & r2 & -> & Hl2 & Hat).
  cbn [mbind outcome_bind]. destruct (bool_decide_reflect (tok = TChar 64)) as [Et|_]; [|repeat lex_step].
  destruct (Hat Et) as (Hpos2 & Hp2 & Hw2).
  destruct (inc_ok r2 Hp2) as (r3 & -> & Hs3 & Ho3 & Hw3). cbn [mbind outcome_bind].
  assert (off r3 = off r + 2) as Ho by (rewrite Hpos2 in *; lia).
  assert (later r r3) as Hl3 by positions.
  destruct (ssub_ok (r_s r3) (off r + 2) (slen (r_s r3))) as (stream & -> & Hlen); [positions|lia|].
  cbn [mbind outcome_bind]. pose proof (scope_prefix_length stream) as Hsc.
  destruct (incN_ok (String.length (scope_prefix stream)) r3) as (r4 & -> & Hl4);
    [eauto with reader|lia|unfold remaining, slen in *; lia|].
  cbn [mbind outcome_bind]. assert (later r r4) as Hl by eauto with reader.
  destruct (scanIdentifierOrString_ok mode r4) as (tok2 & lit2 & r5 & -> & Hl5 & _); [eauto with reader|].
  cbn [mbind outcome_bind]. repeat lex_step. unfold ok in *. lia.
Qed.

(** ** Comments *)

(** The reader is at the rune [ch], which has been peeked. *)
Definition at_rune (ch : Z) (r : reader) : Prop := peek r = (ch, r).

Lemma peek_at_rune r ch r1 : peek r = (ch, r1) -> at_rune ch r1.
Proof.
  unfold at_rune, peek. destruct (eof r) eqn:He; [intros [= <- <-]; by rewrite He|].
  destruct (peek_rune (rest r)) as [v w] eqn:E. intros [= <- <-].
  unfold eof, rest in *. cbn [r_s r_p]. by rewrite He, E.
Qed.

Lemma at_rune_peeked ch r : ok r -> eof r = false -> at_rune ch r -> peeked r.
Proof.
  intros Hr He E. destruct (peek_ok r Hr) as (c & r1 & E1 & _ & _ & [(? & _)|[_ ?]]); [congruence|].
  unfold at_rune in E. rewrite E in E1. by injection E1 as _ <-.
Qed.

Lemma inc_loop_rune fuel fn r ch r1 :
  inc_loop fuel fn r = Ret (ch, r1) -> eof r1 = true \/ at_rune ch r1.
Proof.
  revert r. induction fuel as [|fuel IH]; intros r H; [done|]. cbn [inc_loop] in H.
  destruct (peek r) as [c r2] eqn:E. destruct (negb _).
  { injection H as <- <-. right. by eapply peek_at_rune. }
  destruct (_ && _) eqn:He; [injection H as _ <-; left; by apply andb_true_iff in He as [_ ?]|].
  apply bind_Ret in H as (r3 & _ & H). eauto.
Qed.

(** A loop that accepts the first rune moves on. *)
Lemma incAsLongAs_progress fn ch r :
  ok r -> eof r = false -> at_rune ch r -> fn ch = true ->
  exists c r1, incAsLongAs fn r = Ret (c, r1) /\ sooner r r1.
Proof.
  intros Hr He Hat Hfn. unfold incAsLongAs. pose proof (fuel_enough r Hr) as Hf.
  destruct (fuel_of r) as [|fuel]; [positions|]. cbn [inc_loop]. rewrite Hat, Hfn, He, andb_false_r.
  cbn [negb]. destruct (inc_sooner r) as (r1 & -> & H1); [by eapply at_rune_peeked|]. cbn [mbind outcome_bind].
  destruct (inc_loop_ok fuel fn r1) as (c & r2 & -> & H2 & _); [eauto with reader| |eauto with reader].
  apply sooner_remaining in H1. lia.
Qed.

Lemma has_prefix_length p s : has_prefix p s = true -> slen p <= slen s.
Proof.
  unfold has_prefix. revert s. induction p as [|a p IH]; intros s; [intros _; apply slen_nonneg|].
  destruct s as [|b s]; [done|]. cbn [String.prefix]. destruct (ascii_dec a b); [|done]. intros H%IH.
  rewrite !slen_cons. lia.
Qed.

Lemma startWithDash_ok r :
  ok r -> eof r = false -> at_rune 45 r -> r_w r = 1 ->
  exists o r1, startWithDash r = Ret (o, r1) /\ later r r1 /\
    match o with Some (_, _, _, r2) => r2 = r1 | None => sooner r r1 end.
Proof.
  intros Hr He Hat Hw. unfold startWithDash.
  destruct (has_prefix "--" (rest r) && _).
  { destruct (incAsLongAs_progress (fun ch => negb (ch =? 10)) 45 r) as (c & r1 & -> & H); [done..|].
    exists None, r1. eauto with reader. }
  assert (forall n p, has_prefix p (rest r) = true -> Z.of_nat n = slen p ->
            exists r1, incN n r = Ret r1 /\ later r r1) as K.
  { intros n p H%has_prefix_length Hn. apply incN_ok; [done..|].
    unfold remaining. rewrite rest_length in H by done. lia. }
  destruct (has_prefix "->>" (rest r)) eqn:E1.
  { destruct (K 3%nat _ E1 eq_refl) as (r1 & -> & H). eexists _, _. split; [done|]. done. }
  destruct (has_prefix "->" (rest r)) eqn:E2.
  { destruct (K 2%nat _ E2 eq_refl) as (r1 & -> & H). eexists _, _. split; [done|]. done. }
  destruct (inc_sooner r) as (r1 & -> & H); [by eapply at_rune_peeked|].
  eexists _, _. split; [done|]. split; [eauto with reader|done].
Qed.

Lemma sbytes_sdrop n s : sbytes (sdrop n s) = drop n (sbytes s).
Proof. revert s. induction n as [|n IH]; intros s; [done|]. destruct s as [|c s]; [done|]. apply IH. Qed.

Lemma readByte_byte r ch r1 :
  ok r -> eof r = false -> readByte r = Ret (ch, r1) -> ch < 128 ->
  off r1 = off r + 1 /\ sbytes (r_s r) !! Z.to_nat (off r) = Some ch.
Proof.
  intros Hr He H Hch. unfold readByte in H. destruct (peek r) as [c r2] eqn:E.
  destruct (peek_ok r Hr) as (c' & r2' & E' & Hs & Hp & [(? & _)|[_ Hpk]]); [congruence|].
  rewrite E in E'. injection E' as <- <-.
  assert (eof r2 = false) as He2 by (unfold eof in *; by rewrite Hs, Hp).
  rewrite He2, andb_false_r in H. apply bind_Ret in H as (r3 & Hi & [= -> ->]).
  destruct (inc_ok r2 Hpk) as (r4 & Hi' & _ & Ho & _). rewrite Hi in Hi'. injection Hi' as <-.
  rewrite Hp, (peek_ascii r ch r2 Hr E Hch) in Ho. split; [lia|].
  destruct (rest_cons r Hr He) as (b & t & Hb). unfold peek in E. rewrite He, Hb in E.
  destruct (peek_rune_cases b t) as [[_ Hv]|Hv]; destruct (peek_rune (String b t)) as [v w];
    injection E as -> _; [|lia]. cbn [fst] in Hv. subst ch.
  assert (sbytes (rest r) !! 0%nat = Some (byte_of b)) as Hl by (by rewrite Hb).
  unfold rest in Hl. rewrite sbytes_sdrop, lookup_drop, Nat.add_0_r in Hl. done.
Qed.

(** The text before the position ends with the given bytes. *)
Definition ends_with (r : reader) (bs : list Z) : Prop :=
  exists pre, take (Z.to_nat (off r)) (sbytes (r_s r)) = pre ++ bs.

Lemma comment_loop_ok fuel asterisk r :
  ok r -> remaining r < Z.of_nat fuel -> (asterisk = true -> ends_with r [42]) ->
  exists closed r1, comment_loop fuel asterisk r = Ret (closed, r1) /\ later r r1 /\
    (closed = true -> ends_with r1 [42; 47] /\ off r + (if asterisk then 1 else 2) <= off r1).
Proof.
  revert asterisk r. induction fuel as [|fuel IH]; intros asterisk r Hr Hf Ha; [positions|].
  cbn [comment_loop]. destruct (readByte_ok r Hr) as (ch & r1 & E & H). rewrite E. cbn [mbind outcome_bind].
  destruct H as [(He & -> & ->)|[He Hs]].
  { replace (rune_error =? 47) with false by done. rewrite andb_false_r, He, Z.eqb_refl. cbn [andb].
    exists false, r. split_and!; [done|eauto with reader|intros [=]]. }
  assert (forall b, ch = b -> b < 128 -> ends_with r1 [b]) as Hend.
  { intros b -> Hb. destruct (readByte_byte r b r1 Hr He E Hb) as [Ho Hl]. destruct Hs as [Hs _].
    exists (take (Z.to_nat (off r)) (sbytes (r_s r))). rewrite Hs, Ho.
    replace (Z.to_nat (off r + 1)) with (S (Z.to_nat (off r))) by (unfold ok in Hr; lia).
    by apply take_S_r. }
  destruct (asterisk && (ch =? 47)) eqn:Ec.
  { apply andb_true_iff in Ec as [-> Ec]. exists true, r1. split_and!; [done|eauto with reader|]. intros _.
    split; [|destruct Hs; lia]. destruct (Ha eq_refl) as [pre Hpre].
    destruct (readByte_byte r 47 r1 Hr He) as [Ho Hl]; [rewrite E; f_equal; f_equal; lia|lia|].
    destruct Hs as [Hs _]. exists pre. rewrite Hs, Ho.
    replace (Z.to_nat (off r + 1)) with (S (Z.to_nat (off r))) by (unfold ok in Hr; lia).
    rewrite (take_S_r _ _ _ Hl), Hpre, <- app_assoc. reflexivity. }
  destruct ((ch =? rune_error) && eof r1); [exists false, r1; split_and!; [done|eauto with reader|intros [=]]|].
  destruct (IH (ch =? 42) r1) as (closed & r2 & -> & H1 & H2);
    [eauto with reader|apply sooner_remaining in Hs; lia|intros Hc; apply Hend; lia|].
  exists closed, r2. split_and!; [done|eauto with reader|]. intros Hc. destruct (H2 Hc) as [H3 H4].
  split; [done|]. destruct Hs as [_ Hs]. destruct (ch =? 42); destruct asterisk; lia.
Qed.

(** The SQL of a comment begins before the end of the comment. *)
Lemma first_space_spec i bs :
  first_space i bs = 0 \/
  exists b, i <= first_space i bs /\ bs !! Z.to_nat (first_space i bs - i) = Some b /\ IsSpace b = true.
Proof.
  revert i. induction bs as [|b bs IH]; intros i; [by left|]. cbn [first_space].
  destruct (IsSpace b) eqn:E; [right; exists b; rewrite Z.sub_diag; split_and!; [lia|done|done]|].
  destruct (IH (i + 1)) as [H|(c & H1 & H2 & H3)]; [by left|]. right. exists c. split_and!; [lia| |done].
  replace (Z.to_nat (first_space (i + 1) bs - i)) with (S (Z.to_nat (first_space (i + 1) bs - (i + 1)))) by lia.
  done.
Qed.

Lemma skip_blanks_ok fuel bs offset n :
  zlen bs = n -> bs !! Z.to_nat (n - 2) = Some 42 -> 0 <= offset < n - 2 ->
  n - offset < Z.of_nat fuel -> exists o, skip_blanks fuel bs offset = Ret o /\ 1 <= o <= n - 2.
Proof.
  intros Hn Hb. revert offset. induction fuel as [|fuel IH]; intros offset Ho Hf; [lia|].
  cbn [skip_blanks]. replace (offset <? zlen bs) with true by lia.
  destruct (index_in_range bs (offset + 1)) as (b & -> & Hl); [lia|]. cbn [mbind outcome_bind].
  destruct (IsSpace b) eqn:E; cbn [negb]; [|exists (offset + 1); split; [done|lia]].
  apply IH; [|lia]. split; [lia|]. destruct (decide (offset + 1 = n - 2)) as [Heq|]; [|lia].
  rewrite Heq, Hb in Hl. injection Hl as <-. by compute in E.
Qed.

Lemma sqlOffsetInComment_ok c bs :
  sbytes c = bs ++ [42; 47] -> 2 <= zlen bs ->
  exists o, sqlOffsetInComment c = Ret o /\ 1 <= o <= slen c - 2.
Proof.
  intros Hc Hlen. unfold sqlOffsetInComment. rewrite <- sbytes_length, Hc.
  set (all := bs ++ [42; 47]).
  assert (zlen all = zlen bs + 2) as Hn by (unfold all; rewrite zlen_app; done).
  assert (forall k, all !! Z.to_nat (zlen bs + Z.of_nat k) = [42; 47] !! k) as Hlast.
  { intros k. unfold all, zlen. rewrite lookup_app_r by lia. f_equal. lia. }
  assert (0 <= first_space 0 all) as H0.
  { destruct (first_space_spec 0 all) as [->|(b & ? & _)]; lia. }
  apply skip_blanks_ok; [done| |split; [done|]|unfold zlen; lia].
  - rewrite Hn. replace (zlen bs + 2 - 2) with (zlen bs + Z.of_nat 0) by lia. apply Hlast.
  - destruct (first_space_spec 0 all) as [->|(b & H1 & H2 & H3)]; [lia|].
    rewrite Z.sub_0_r in H2. apply lookup_lt_Some in H2 as Hlt. unfold zlen in *.
    assert (first_space 0 all < Z.of_nat (length bs) \/ first_space 0 all = zlen bs + Z.of_nat 0 \/
            first_space 0 all = zlen bs + Z.of_nat 1) as [?|[E|E]] by (unfold zlen; lia); [lia|..];
      rewrite E, Hlast in H2; injection H2 as <-; by compute in H3.
Qed.

Lemma trim_left_length f s : slen (trim_left f s) <= slen s.
Proof.
  induction s as [|c s IH]; [done|]. cbn [trim_left]. rewrite slen_cons.
  destruct (f c); [lia|rewrite slen_cons; lia].
Qed.

Lemma trim_right_length f s : slen (trim_right f s) <= slen s.
Proof.
  induction s as [|c s IH]; [done|]. cbn [trim_right]. rewrite slen_cons.
  destruct (trim_right f s) as [|d u] eqn:E; rewrite ?slen_cons in *; [|lia].
  destruct (f c); unfold slen in *; cbn in *; lia.
Qed.

Lemma sdrop_le n s : slen (sdrop n s) <= slen s.
Proof. rewrite sdrop_length. pose proof (slen_nonneg s). lia. Qed.

Lemma drop_version_length s : slen (drop_version s) <= slen s.
Proof.
  assert (forall t, slen t <= slen s -> slen (drop_digits s t) <= slen s) as K.
  { intros t Ht. unfold drop_digits. destruct (_ <? 5)%nat; [lia|].
    pose proof (sdrop_le (Nat.min (count_digits t) 6) t). lia. }
  destruct s as [|c t]; [done|]. cbn [drop_version]. rewrite slen_cons in K.
  destruct (Ascii.eqb c "M"); rewrite slen_cons; apply K; rewrite ?slen_cons; lia.
Qed.

Lemma substring_le n m s : slen (String.substring n m s) <= slen s.
Proof.
  revert n m. induction s as [|c s IH]; intros n m; [by destruct n, m|]. rewrite slen_cons.
  pose proof (slen_nonneg s). destruct n as [|n], m as [|m]; cbn [String.substring]; rewrite ?slen_cons.
  - unfold slen at 1. cbn. lia.
  - specialize (IH 0%nat m). lia.
  - specialize (IH n 0%nat). lia.
  - specialize (IH n (S m)). lia.
Qed.

Lemma TrimComment_length c : has_prefix "/*!" c = true -> slen (TrimComment c) <= slen c - 3.
Proof.
  intros Hc. apply has_prefix_length in Hc as Hlen. unfold TrimComment. rewrite Hc.
  set (txt := trim_left _ _).
  assert (slen txt <= slen c - 3) as Htxt.
  { unfold txt. pose proof (trim_left_length is_blank (drop_version (sdrop 3 c))).
    pose proof (drop_version_length (sdrop 3 c)) as Hd. rewrite sdrop_length in Hd.
    change (slen "/*!") with 3 in Hlen. lia. }
  destruct (_ && _); [|done].
  pose proof (trim_right_length is_blank (String.substring 0 (String.length txt - 2) txt)).
  pose proof (substring_le 0 (String.length txt - 2) txt). lia.
Qed.

(** * The scanner *)

Fixpoint weight (sc : Scanner) : Z :=
  match sc with
  | mk_Scanner r _ sp _ =>
      remaining r + 1 +
      match sp with
      | None => 0
      | Some (mysqlSpecificCode inner _) => weight inner
      | Some (optimizerHint inner _ _) => weight inner
      end
  end.

Fixpoint valid (sc : Scanner) : Prop :=
  match sc with
  | mk_Scanner r _ sp _ =>
      ok r /\
      match sp with
      | None => True
      | Some (mysqlSpecificCode inner _) => valid inner
      | Some (optimizerHint inner _ _) => valid inner
      end
  end.

Lemma NewScanner_valid s : valid (NewScanner s) /\ weight (NewScanner s) = slen s + 1.
Proof. cbn. unfold ok, remaining. cbn. pose proof (slen_nonneg s). split; [split; [lia|done]|lia]. Qed.

Lemma weight_pos sc : valid sc -> 1 <= weight sc.
Proof.
  revert sc. fix IH 1. intros [r errs sp m] [Hr Hsp]. cbn [weight]. assert (0 <= remaining r) by positions.
  destruct sp as [[inner p|inner p e]|]; [pose proof (IH inner Hsp)|pose proof (IH inner Hsp)|]; lia.
Qed.

(** A token, and a scanner that is ready for the next one and has no more to read. *)
Definition good (n : Z) (m : outcome scan_result) : Prop :=
  exists tok pos lit sc, m = Ret (tok, pos, lit, sc) /\ valid sc /\ weight sc <= n.

Lemma good_le n1 n2 m : good n1 m -> n1 <= n2 -> good n2 m.
Proof. intros (t & p & l & sc & -> & H1 & H2) H. exists t, p, l, sc. split_and!; [done|done|lia]. Qed.

(** A token at a later position of the text. *)
Lemma good_at r r1 errs mode tok pos lit :
  ok r -> later r r1 -> good (remaining r + 1) (Ret (tok, pos, lit, mk_Scanner r1 errs None mode)).
Proof.
  intros Hr Hl. eexists _, _, _, _. split; [done|]. cbn. apply later_remaining in Hl as Hrem.
  split; [split; [eauto with reader|done]|lia].
Qed.

Lemma returns_good r r1 errs mode m :
  ok r -> later r r1 -> returns r1 m -> good (remaining r + 1) (with_reader errs mode m).
Proof.
  intros Hr Hl (tok & pos & lit & r2 & -> & H2). apply good_at; [done|eauto with reader].
Qed.

Lemma first_fn_returns mode ch r fn :
  ok r -> eof r = false -> at_rune ch r -> first_fn mode ch = Some fn -> returns r (fn r).
Proof.
  intros Hr He Hat Hfn. assert (peeked r) as Hp by (by eapply at_rune_peeked).
  assert (ch = 64 -> r_w r = 1) as Hw by (intros ->; eapply peek_ascii; [exact Hr|exact Hat|lia]).
  unfold first_fn in Hfn.
  repeat match type of Hfn with (if ?b then _ else _) = _ => destruct b eqn:? end;
    try discriminate Hfn; injection Hfn as <-.
  - apply startWithAt_returns; [done|apply Hw; lia].
  - apply quoted_digits_returns; [apply scans_Hex|done].
  - by apply startWithNn_returns.
  - apply quoted_digits_returns; [apply scans_Bit|done].
  - by apply startWithDot_returns.
  - by apply scanIdentifier_returns.
  - by apply scanQuotedIdent_returns.
  - by apply startWithNumber_returns.
  - by apply scanString_returns.
Qed.

Lemma trie_loop_ok fuel node ch r :
  ok r -> remaining r < Z.of_nat fuel -> (eof r = false -> at_rune ch r) ->
  exists node' r1, trie_loop fuel node ch r = Ret (node', r1) /\ later r r1.
Proof.
  revert node ch r. induction fuel as [|fuel IH]; intros node ch r Hr Hf Hat; [positions|].
  cbn [trie_loop]. destruct (within 0 255 ch && trie_child node (of_byte ch) && negb (eof r)) eqn:E;
    [|eauto with reader].
  assert (eof r = false) as He by (destruct (eof r); [by rewrite andb_false_r in E|done]).
  destruct (inc_sooner r) as (r1 & -> & H1); [by eapply at_rune_peeked; eauto|]. cbn [mbind outcome_bind].
  assert (ok r1) as Hr1 by eauto with reader. apply sooner_remaining in H1 as Hrem.
  destruct (peek r1) as [ch2 r2] eqn:E2. destruct (peek_later _ _ _ Hr1 E2) as [Hl2 Hr2].
  apply later_remaining in Hl2 as Hrem2.
  destruct (IH (String.append node (String (of_byte ch) EmptyString)) ch2 r2) as (n' & r3 & -> & H3);
    [done|lia|intros _; by eapply peek_at_rune|].
  eexists _, _. split; [done|]. eauto with reader.
Qed.

Lemma sbytes_substring a n s : sbytes (String.substring a n s) = take n (drop a (sbytes s)).
Proof.
  revert a n. induction s as [|c s IH]; intros [|a] [|n]; cbn [String.substring sbytes drop take];
    rewrite ?IH; done.
Qed.

Lemma data_bytes r pos lit :
  data r pos = Ret lit ->
  sbytes lit = drop (Z.to_nat (Offset pos)) (take (Z.to_nat (off r)) (sbytes (r_s r))).
Proof.
  unfold data, ssub. case_decide as H; intros [= <-]. rewrite sbytes_substring, skipn_firstn_comm.
  f_equal. lia.
Qed.

Lemma comment_end_ok r0 r errs mode :
  ok r0 -> later r0 r -> ends_with r [42; 47] -> off r0 + 4 <= off r ->
  exists o sc, comment_end r errs mode (r_p r0) = Ret (o, sc) /\ valid sc /\ weight sc <= remaining r0.
Proof.
  intros Hr0 Hl [pre Hend] Hlong. assert (ok r) as Hr by eauto with reader. unfold comment_end.
  destruct (data_ok r (r_p r0) Hr) as (c & Hd & Hlen); [positions|]. rewrite Hd. cbn [mbind outcome_bind].
  assert (slen (r_s r) - off r + slen c = remaining r0) as Hsum by (destruct Hl as [Hs _]; rewrite Hs; unfold remaining; lia).
  assert (exists bs, sbytes c = bs ++ [42; 47] /\ 2 <= zlen bs) as (bs & Hbs & Hlb).
  { apply data_bytes in Hd. rewrite Hend in Hd. assert (length (pre ++ [42; 47]) = Z.to_nat (off r)) as Hpre.
    { rewrite <- Hend, length_take. pose proof (sbytes_length (r_s r)). unfold zlen, ok in *. lia. }
    rewrite length_app in Hpre. cbn [length] in Hpre. unfold ok in *.
    rewrite skipn_app in Hd. replace (_ - length pre)%nat with 0%nat in Hd by lia.
    eexists. split; [exact Hd|]. unfold zlen. rewrite length_drop. lia. }
  destruct (sqlOffsetInComment_ok c bs Hbs Hlb) as (b & Ho & Hb).
  destruct (has_prefix "/*+" c).
  { rewrite Ho. cbn [mbind outcome_bind]. destruct (ssub_ok c b (slen c - 2)) as (sql & -> & Hsql); [lia..|].
    cbn [mbind outcome_bind]. eexists _, _. split; [done|]. destruct (NewScanner_valid sql) as [Hv Hw].
    cbn [valid weight]. split; [done|]. rewrite Hw. unfold remaining at 1. lia. }
  destruct (has_prefix "/*!" c) eqn:E.
  { rewrite Ho. cbn [mbind outcome_bind]. eexists _, _. split; [done|].
    destruct (NewScanner_valid (TrimComment c)) as [Hv Hw]. apply TrimComment_length in E.
    cbn [valid weight]. split; [done|]. rewrite Hw. unfold remaining at 1. lia. }
  eexists _, _. split; [done|]. cbn [valid weight]. split; [done|]. unfold remaining at 1. lia.
Qed.

(** ** One token *)

Section scan.
Context (again : Scanner -> outcome scan_result) (r0 : reader) (errs : list error) (mode : SQLMode).
Hypothesis Hr0 : ok r0.
Hypothesis Hagain : forall sc, valid sc -> weight sc <= remaining r0 -> good (weight sc) (again sc).

(** After a comment the scanner goes on. *)
Lemma again_good r : sooner r0 r -> good (remaining r0 + 1) (again (mk_Scanner r errs None mode)).
Proof.
  intros Hs. apply sooner_remaining in Hs as Hrem.
  eapply good_le; [apply Hagain|]; cbn [valid weight]; [split; [eauto with reader|done]|lia..].
Qed.

Lemma slash_good r :
  ok r -> later r0 r -> eof r = false -> at_rune 47 r ->
  good (remaining r0 + 1)
    (r1 ← inc r;
     let '(ch0, r1) := peek r1 in
     if ch0 =? 42 then
       r1 ← inc r1;
       '(closed, r1) ← comment_loop (S (fuel_of r1)) false r1;
       if (closed : bool) then
         '(o, sc) ← comment_end r1 errs mode (r_p r);
         match o with Some (tok, p, lit) => Ret (tok, p, lit, sc) | None => again sc end
       else Ret (TChar 0, r_p r, EmptyString, mk_Scanner r1 (errs ++ [ParseErrorWith]) None mode)
     else Ret (TChar 47, r_p r, EmptyString, mk_Scanner r1 errs None mode)).
Proof.
  intros Hr Hl He Hat. assert (peeked r) as Hp by (by eapply at_rune_peeked).
  destruct (inc_sooner r Hp) as (r1 & -> & H1). cbn [mbind outcome_bind].
  assert (ok r1) as Hr1 by eauto with reader. destruct (peek r1) as [ch r2] eqn:E2.
  destruct (peek_later _ _ _ Hr1 E2) as [Hl2 Hr2].
  destruct (ch =? 42) eqn:Ec; [|apply good_at; eauto with reader].
  destruct (inc_sooner r2) as (r3 & -> & H3).
  { eapply peek_not_eof; [exact Hr1|exact E2|unfold rune_error; lia]. }
  cbn [mbind outcome_bind]. assert (ok r3) as Hr3 by eauto with reader.
  assert (later r r3) as Hlr3 by eauto with reader. pose proof (fuel_enough r3 Hr3).
  destruct (comment_loop_ok (S (fuel_of r3)) false r3) as (closed & r4 & -> & H4 & H5); [done|lia|done|].
  cbn [mbind outcome_bind]. destruct closed; [|apply good_at; eauto with reader].
  destruct (H5 eq_refl) as [Hend Hoff].
  destruct (comment_end_ok r r4 errs mode Hr) as (o & sc & -> & Hv & Hw);
    [exact (later_trans _ _ _ Hlr3 H4)|exact Hend|destruct H1, Hl2, H3; lia|]. cbn [mbind outcome_bind].
  apply later_remaining in Hl as Hrem.
  destruct o as [[[tok p] lit]|]; [exists tok, p, lit, sc; split_and!; [done|done|lia]|].
  eapply good_le; [apply Hagain|]; [done|lia|lia].
Qed.

Lemma scan_text_good : good (remaining r0 + 1) (scan_text again r0 errs mode).
Proof.
  unfold scan_text. destruct (peek r0) as [ch r1] eqn:E1. destruct (peek_later _ _ _ Hr0 E1) as [Hl1 Hr1].
  assert (exists ch2 r2, (if IsSpace ch then skipWhitespace r1 else Ret (ch, r1)) = Ret (ch2, r2) /\
            later r0 r2 /\ (eof r2 = true \/ at_rune ch2 r2)) as (ch2 & r2 & -> & Hl2 & Hat).
  { destruct (IsSpace ch); [|exists ch, r1; split_and!; [done|done|right; by eapply peek_at_rune]].
    destruct (incAsLongAs_ok IsSpace r1 Hr1) as (c & r2 & E & H & _). exists c, r2.
    split_and!; [exact E|eauto with reader|by eapply inc_loop_rune]. }
  cbn [mbind outcome_bind]. destruct (eof r2) eqn:He; [by apply good_at|].
  destruct Hat as [?|Hat]; [done|]. assert (ok r2) as Hr2 by eauto with reader.
  assert (peeked r2) as Hp by (by eapply at_rune_peeked).
  destruct (isIdentExtend ch2); [by eapply returns_good, scanIdentifier_returns|].
  destruct (ch2 =? 35) eqn:E35.
  { replace ch2 with 35 in Hat by lia.
    destruct (incAsLongAs_progress (fun ch => negb (ch =? 10)) 35 r2) as (c & r3 & -> & H3); [done..|].
    cbn [mbind outcome_bind]. apply again_good. eauto with reader. }
  destruct (ch2 =? 45) eqn:E45.
  { replace ch2 with 45 in Hat by lia.
    destruct (startWithDash_ok r2) as (o & r3 & -> & H3 & H4); [done..| |].
    { eapply peek_ascii; [exact Hr2|exact Hat|lia]. }
    cbn [mbind outcome_bind]. destruct o as [[[[tok p] lit] r4]|].
    - subst r4. apply good_at; eauto with reader.
    - apply again_good. eauto with reader. }
  destruct (ch2 =? 47) eqn:E47; [replace ch2 with 47 in Hat by lia; by apply slash_good|].
  destruct (first_fn mode ch2) as [fn|] eqn:Efn; [eapply returns_good; [done|exact Hl2|by eapply first_fn_returns]|].
  pose proof (fuel_enough r2 Hr2).
  destruct (trie_loop_ok (S (fuel_of r2)) EmptyString ch2 r2) as (node & r3 & -> & H3); [done|lia|done|].
  cbn [mbind outcome_bind]. destruct (data_ok r3 (r_p r2)) as (lit & -> & _);
    [exact (later_ok _ _ Hr2 H3)|unfold ok in Hr2; destruct H3; lia|].
  apply good_at; [done|exact (later_trans _ _ _ Hl2 H3)].
Qed.

End scan.

Lemma scan_good fuel sc : valid sc -> weight sc < Z.of_nat fuel -> good (weight sc) (scan fuel sc).
Proof.
  revert sc. induction fuel as [|fuel IH]; intros sc Hv Hw; [pose proof (weight_pos sc Hv); lia|].
  destruct sc as [r errs sp mode]. destruct Hv as [Hr Hsp].
  assert (weight (mk_Scanner r errs None mode) <= Z.of_nat fuel ->
          good (remaining r + 1) (scan_text (scan fuel) r errs mode)) as Htext.
  { intros Hf. apply scan_text_good; [done|]. intros sc Hv' Hw'. apply IH; [done|]. cbn in Hf. lia. }
  assert (0 <= remaining r) by positions.
  destruct sp as [[inner p|inner p e]|]; cbn [scan weight] in *.
  - pose proof (weight_pos inner Hsp). destruct (IH inner Hsp) as (tok & pos & lit & sc & -> & H1 & H2); [lia|].
    cbn [mbind outcome_bind]. destruct (bool_decide _).
    + eapply good_le; [apply Htext|]; lia.
    + eexists _, _, _, _. split; [done|]. cbn. split; [done|lia].
  - pose proof (weight_pos inner Hsp). destruct (IH inner Hsp) as (tok & pos & lit & sc & -> & H1 & H2); [lia|].
    cbn [mbind outcome_bind]. destruct (bool_decide _); [destruct e|].
    + eapply good_le; [apply Htext|]; lia.
    + eexists _, _, _, _. split; [done|]. cbn. split; [done|lia].
    + eexists _, _, _, _. split; [done|]. cbn. split; [done|lia].
  - rewrite Z.add_0_r in *. apply Htext. lia.
Qed.

(** * Scanning a text

    The scanners a text leads to, one call of [scan] after the other. *)

Definition scan_fuel (sql : string) : nat := S (S (String.length sql)).

Inductive reached (sql : string) : Scanner -> Prop :=
| reached_new : reached sql (NewScanner sql)
| reached_reset old : reached sql (reset old sql)
| reached_next sc tok pos lit sc' :
    reached sql sc -> scan (scan_fuel sql) sc = Ret (tok, pos, lit, sc') -> reached sql sc'.

Lemma reached_valid sql sc : reached sql sc -> valid sc /\ weight sc <= slen sql + 1.
Proof.
  induction 1 as [|old|sc tok pos lit sc' _ [Hv Hw] Hscan].
  - destruct (NewScanner_valid sql) as [? ->]. split; [done|lia].
  - destruct old. cbn. unfold ok, remaining. cbn. pose proof (slen_nonneg sql). split; [split; [lia|done]|lia].
  - destruct (scan_good (scan_fuel sql) sc Hv) as (t & p & l & s & E & H1 & H2).
    { unfold scan_fuel, slen in *. lia. }
    rewrite Hscan in E. injection E as <- <- <- <-. split; [done|lia].
Qed.

(** C30: for every text, every call of [scan] returns: the scanner never indexes the
    text out of range and never loops, in the text, in a comment or in the SQL of a
    comment, and the calls that follow have no more to read. *)
Theorem scan_total sql sc :
  reached sql sc ->
  exists tok pos lit sc', scan (scan_fuel sql) sc = Ret (tok, pos, lit, sc') /\ weight sc' <= weight sc.
Proof.
  intros [Hv Hw]%reached_valid. destruct (scan_good (scan_fuel sql) sc Hv) as (t & p & l & s & E & H1 & H2).
  { unfold scan_fuel, slen in *. lia. }
  by exists t, p, l, s.
Qed.

Lemma scan_total_witness :
  exists tok pos lit sc', scan (scan_fuel "/*!40101 SET a = 'x' */") (NewScanner "/*!40101 SET a = 'x' */") =
    Ret (tok, pos, lit, sc') /\ weight sc' <= weight (NewScanner "/*!40101 SET a = 'x' */").
Proof. exact (scan_total _ _ (reached_new _)). Defined.
