(* ===== verification/Hack.v ===== *)
(** The utility packages below the router: util/hack (branch-free absolute
    value), util/math, util/padding (string padding) and util/murmur (the
    32-bit Murmur3 hash over code points that mycat's consistent hash uses). *)

From Stdlib Require Import Ascii String.
From S2P Require Import Prelude GoStr.

(** * util/hack *)

(** [y := n >> 63; return (n ^ y) - y] on int64. *)
Definition Abs (n : Z) : Z :=
  let y := Z.shiftr n 63 in i64 (Z.lxor n y - y).

Lemma shiftr_63 n : is_i64 n -> Z.shiftr n 63 = if n <? 0 then -1 else 0.
Proof.
  intros H. rewrite Z.shiftr_div_pow2 by lia. unfold_int.
  destruct (n <? 0) eqn:E; Z.div_mod_to_equations; lia.
Qed.

Lemma Abs_cases n : is_i64 n -> Abs n = if n =? min_i64 then min_i64 else Z.abs n.
Proof.
  intros H. unfold Abs. rewrite shiftr_63 by done. destruct (n <? 0) eqn:E.
  - rewrite Z.lxor_m1_r. unfold Z.lnot.
    destruct (n =? min_i64) eqn:E2; int_lia.
  - rewrite Z.lxor_0_r. destruct (n =? min_i64) eqn:E2; int_lia.
Qed.

Lemma Abs_nonneg n : is_i64 n -> n <> min_i64 -> 0 <= Abs n <= max_i64.
Proof.
  intros H Hn. rewrite Abs_cases by done.
  destruct (n =? min_i64) eqn:E; [lia|]. unfold_int. lia.
Qed.

(** [ArrayToString]: decimal numbers joined by [", "]. *)
Fixpoint join_comma (l : list string) : string :=
  match l with
  | [] => ""
  | [s] => s
  | s :: r => String.append s (String.append ", " (join_comma r))
  end.

Definition ArrayToString (array : list Z) : string := join_comma (map FormatInt array).

(** * util/math *)

Definition MaxInt64 (a b : Z) : Z := if b <? a then a else b.
Definition MinInt64 (a b : Z) : Z := if a <? b then a else b.

Lemma MinInt64_min a b : MinInt64 a b = Z.min a b.
Proof. unfold MinInt64. destruct (a <? b) eqn:E; lia. Qed.

(** * util/padding *)

(** [for i := 0; i < n; i++ { out += str }]: no iteration for [n <= 0]. *)
Fixpoint times_loop (str : string) (n : nat) (out : string) : string :=
  match n with O => out | S m => times_loop str m (String.append out str) end.
Definition times (str : string) (n : Z) : string := times_loop str (Z.to_nat n) "".

Definition Left (str : string) (length : Z) (pad : string) : string :=
  String.append (times pad (length - slen str)) str.
Definition Right (str : string) (length : Z) (pad : string) : string :=
  String.append str (times pad (length - slen str)).

Lemma slen_times_loop str n out :
  slen (times_loop str n out) = slen out + Z.of_nat n * slen str.
Proof.
  revert out. induction n as [|n IH]; intros out; cbn [times_loop]; [lia|].
  rewrite IH, slen_append. lia.
Qed.

Lemma slen_times str n : slen (times str n) = Z.max 0 n * slen str.
Proof.
  unfold times. rewrite slen_times_loop. change (slen "") with 0.
  replace (Z.of_nat (Z.to_nat n)) with (Z.max 0 n) by lia. lia.
Qed.

Lemma slen_Left str l pad :
  slen pad = 1 -> slen (Left str l pad) = Z.max l (slen str).
Proof. intros Hp. unfold Left. rewrite slen_append, slen_times, Hp. lia. Qed.

Lemma slen_Right str l pad :
  slen pad = 1 -> slen (Right str l pad) = Z.max l (slen str).
Proof. intros Hp. unfold Right. rewrite slen_append, slen_times, Hp. lia. Qed.

(** * util/murmur *)

Definition c1 : Z := 3432918353.
Definition c2 : Z := 461845907.

Definition rotateLeft (i distance : Z) : Z :=
  let ui := u32 i in
  let udistance := u32 distance in
  let a1 := u32 (Z.shiftl ui udistance) in
  let b1 := Z.shiftr ui (u32 (32 - udistance)) in
  i32 (Z.lor a1 b1).

Definition mixK1 (k1 : Z) : Z :=
  let k1_64 := i64 (k1 * c1) in
  let k1 := rotateLeft (i32 k1_64) 15 in
  i32 (i64 (k1 * c2)).

Definition mixH1 (h1 k1 : Z) : Z :=
  let h1 := rotateLeft (Z.lxor h1 k1) 13 in
  i32 (i64 (i64 (h1 * 5) + 3864292196)).

Definition fmix (h1 length : Z) : Z :=
  let uh1 := Z.lxor (u32 h1) (u32 length) in
  let uh1 := Z.lxor uh1 (Z.shiftr uh1 16) in
  let uh1 := u32 (uh1 * 2246822507) in
  let uh1 := Z.lxor uh1 (Z.shiftr uh1 13) in
  let uh1 := u32 (uh1 * 3266489909) in
  i32 (Z.lxor uh1 (Z.shiftr uh1 16)).

(** The loop over pairs of code points; the odd last one is handled after it. *)
Fixpoint hash_pairs (h1 : Z) (input : list Z) {struct input} : Z :=
  match input with
  | a :: b :: r =>
      hash_pairs (mixH1 h1 (mixK1 (i32 (Z.lor a (i32 (Z.shiftl b 16)))))) r
  | [a] => Z.lxor h1 (mixK1 (i32 a))
  | [] => h1
  end.

Definition HashUnencodedChars (seed : Z) (inputStr : string) : Z :=
  let input := runes inputStr in
  fmix (hash_pairs (i32 seed) input) (i32 (2 * zlen input)).

Lemma HashUnencodedChars_range seed s : is_i32 (HashUnencodedChars seed s).
Proof. unfold HashUnencodedChars, fmix. apply i32_range. Qed.

(** ** The reference: Murmur3_32 on 32-bit words

    The same rounds as the published algorithm states them, on unsigned words
    only. *)

Definition rotl32 (x r : Z) : Z := u32 (Z.lor (Z.shiftl x r) (Z.shiftr x (32 - r))).

Definition ref_k (k : Z) : Z := u32 (rotl32 (u32 (k * c1)) 15 * c2).
Definition ref_h (h k : Z) : Z := u32 (rotl32 (Z.lxor h (ref_k k)) 13 * 5 + 3864292196).

Fixpoint ref_blocks (h : Z) (input : list Z) {struct input} : Z :=
  match input with
  | a :: b :: r => ref_blocks (ref_h h (u32 (Z.lor a (Z.shiftl b 16)))) r
  | [a] => Z.lxor h (ref_k (u32 a))
  | [] => h
  end.

Definition ref_murmur (seed : Z) (input : list Z) : Z :=
  let h := Z.lxor (ref_blocks (u32 seed) input) (u32 (2 * zlen input)) in
  let h := u32 (Z.lxor h (Z.shiftr h 16) * 2246822507) in
  let h := u32 (Z.lxor h (Z.shiftr h 13) * 3266489909) in
  Z.lxor h (Z.shiftr h 16).

Lemma u32_land z : u32 z = Z.land z (Z.ones 32).
Proof. unfold u32. by rewrite Z.land_ones. Qed.

Lemma u32_i32 z : u32 (i32 z) = u32 z.
Proof. int_lia. Qed.

Lemma u32_i64 z : u32 (i64 z) = u32 z.
Proof. int_lia. Qed.

Lemma u32_u32 z : u32 (u32 z) = u32 z.
Proof. int_lia. Qed.

Lemma u32_mul_l a b : u32 (u32 a * b) = u32 (a * b).
Proof. unfold u32. by rewrite Z.mul_mod_idemp_l. Qed.

Lemma u32_add_l a b : u32 (u32 a + b) = u32 (a + b).
Proof. int_lia. Qed.

Lemma u32_lxor a b : u32 (Z.lxor a b) = Z.lxor (u32 a) (u32 b).
Proof.
  rewrite !u32_land. apply Z.bits_inj. intros n.
  rewrite !Z.lxor_spec, !Z.land_spec, Z.lxor_spec.
  destruct (Z.testbit (Z.ones 32) n), (Z.testbit a n), (Z.testbit b n); done.
Qed.

Lemma u32_lor a b : u32 (Z.lor a b) = Z.lor (u32 a) (u32 b).
Proof. rewrite !u32_land. apply Z.land_lor_distr_l. Qed.

Lemma u32_id z : 0 <= z < 2 ^ 32 -> u32 z = z.
Proof. intros. unfold u32. by apply Z.mod_small. Qed.

Lemma u32_range z : 0 <= u32 z < 2 ^ 32.
Proof. unfold u32. by apply Z.mod_pos_bound. Qed.

Lemma u32_shiftl_u32 a n : 0 <= n -> u32 (Z.shiftl (u32 a) n) = u32 (Z.shiftl a n).
Proof. intros. rewrite !Z.shiftl_mul_pow2 by done. apply u32_mul_l. Qed.

Create Rewrite HintDb u32.
#[local] Hint Rewrite u32_i32 u32_i64 u32_u32 : u32.

Lemma rotateLeft_rotl x r : 0 <= r < 32 -> u32 (rotateLeft x r) = rotl32 (u32 x) r.
Proof.
  intros Hr. unfold rotateLeft, rotl32. rewrite u32_i32.
  rewrite (u32_id r) by (unfold_int; lia).
  rewrite (u32_id (32 - r)) by (unfold_int; lia).
  rewrite !u32_lor, u32_u32. done.
Qed.

Lemma mixK1_ref k : u32 (mixK1 k) = ref_k (u32 k).
Proof.
  unfold mixK1, ref_k. autorewrite with u32.
  rewrite <- u32_mul_l, rotateLeft_rotl by lia. autorewrite with u32.
  by rewrite u32_mul_l.
Qed.

Lemma mixH1_ref h k : u32 (mixH1 h (mixK1 k)) = ref_h (u32 h) (u32 k).
Proof.
  unfold mixH1, ref_h. autorewrite with u32.
  rewrite <- u32_add_l. autorewrite with u32. rewrite u32_add_l, <- (u32_add_l (rotateLeft _ _ * 5)).
  rewrite <- (u32_mul_l (rotateLeft _ _)), rotateLeft_rotl by lia.
  rewrite u32_lxor, mixK1_ref. by rewrite u32_add_l.
Qed.

Lemma lxor_u32_range a b : 0 <= Z.lxor (u32 a) (u32 b) < 2 ^ 32.
Proof. rewrite <- u32_lxor. apply u32_range. Qed.

Lemma hash_pairs_ref h input : u32 (hash_pairs h input) = ref_blocks (u32 h) input.
Proof.
  remember (length input) as n eqn:Hn. assert (length input <= n)%nat as Hl by lia. clear Hn.
  revert h input Hl. induction n as [|n IH]; intros h [|a [|b r]] Hl; cbn in Hl; try lia; try done.
  - cbn [hash_pairs ref_blocks]. by rewrite u32_lxor, mixK1_ref, u32_i32.
  - cbn [hash_pairs ref_blocks]. rewrite IH by lia. rewrite mixH1_ref. autorewrite with u32.
    by rewrite !u32_lor, u32_i32.
Qed.

(** The signed int32/int64 arithmetic of HashUnencodedChars computes the
    32-bit Murmur3 hash of the code points, for every seed and text. *)
Theorem murmur_equivalence seed s :
  u32 (HashUnencodedChars seed s) = ref_murmur seed (runes s).
Proof.
  unfold HashUnencodedChars, fmix, ref_murmur. rewrite u32_i32, hash_pairs_ref.
  autorewrite with u32.
  set (h := Z.lxor (ref_blocks _ _) _).
  set (h1 := u32 (Z.lxor h _ * _)). set (h2 := u32 (Z.lxor h1 _ * _)).
  assert (Hs : u32 (Z.shiftr h2 16) = Z.shiftr h2 16).
  { apply u32_id. rewrite Z.shiftr_div_pow2 by lia.
    pose proof (u32_range (Z.lxor h1 (Z.shiftr h1 13) * 3266489909)) as Hr.
    fold h2 in Hr. unfold_int. Z.div_mod_to_equations. lia. }
  rewrite u32_lxor, Hs. subst h2. by rewrite u32_u32.
Qed.
