(* ===== verification/NumKey.v ===== *)
(** proxy/router/numkey.go: numeric key ranges and the date-range strings of
    the date rules. *)

From Stdlib Require Import Ascii String.
From S2P Require Import Prelude GoStr.

Definition MinNumKey : Z := min_i64.
Definition MaxNumKey : Z := max_i64.

Definition ErrDateRangeIllegal : error := Named "ErrDateRangeIllegal".

(** [start, end), where [End = MaxNumKey] means unbounded. *)
Record NumKeyRange := mk_range { Start : Z; End_ : Z }.

#[global] Instance NumKeyRange_eq_dec : EqDecision NumKeyRange.
Proof. solve_decision. Defined.

Definition MapKey (kr : NumKeyRange) : string :=
  String.append (FormatInt (Start kr)) (String.append "-" (FormatInt (End_ kr))).

Definition Contains (kr : NumKeyRange) (i : Z) : bool :=
  (Start kr <=? i) && ((End_ kr =? MaxNumKey) || (i <? End_ kr)).

(** [tableCount += Locations[i]] in int arithmetic. *)
Definition table_count (locations : list Z) : Z :=
  foldl (fun c n => i64 (c + n)) 0 locations.

Definition ParseNumSharding (Locations : list Z) (TableRowLimit : Z) :
    outcome (list NumKeyRange) :=
  let tableCount := table_count Locations in
  if tableCount <? 0 then Panic "makeslice: len out of range"
  else Ret (map (fun i => mk_range (i64 (i * TableRowLimit)) (i64 ((i + 1) * TableRowLimit)))
                (seqZ 0 tableCount)).

(** [end.Sub(begin)] saturates at the largest Duration, 106751 whole days. *)
Definition max_duration_days : Z := 106751.
Definition days_between (b e : date) : Z :=
  Z.min max_duration_days (day_number e - day_number b).

Definition ParseDayRange (dateRange : string) : outcome (list Z) :=
  match SplitN2 "-" dateRange with
  | [a] =>
      if negb (slen a =? 8) then Err ErrDateRangeIllegal
      else dateNum ← Atoi a; Ret [dateNum]
  | [a; b] =>
      if negb (slen a =? 8) || negb (slen b =? 8) then Err ErrDateRangeIllegal
      else
        let '(a, b) := if sltb b a then (b, a) else (a, b) in
        begin ← ParseDate8 a;
        end_ ← ParseDate8 b;
        let daysCount := days_between begin end_ in
        mapM (fun i => Atoi (format_ymd "" (add_days i begin)))
             (seq 0 (Z.to_nat (daysCount + 1)))
  | _ => Err ErrDateRangeIllegal
  end.

(** The loop [for i := 0; i < monthCount; i++] of ParseMonthRange. *)
Fixpoint month_loop (n : nat) (year month : Z) : list Z :=
  match n with
  | O => []
  | S n' =>
      let '(year, month) :=
        if 12 <? month then (year + 1, Z.rem month 12) else (year, month) in
      (year * 100 + month) :: month_loop n' year (month + 1)
  end.

Definition ParseMonthRange (dateRange : string) : outcome (list Z) :=
  match SplitN2 "-" dateRange with
  | [a] =>
      if negb (slen a =? 6) then Err ErrDateRangeIllegal
      else dateNum ← Atoi a; Ret [dateNum]
  | [a; b] =>
      if negb (slen a =? 6) || negb (slen b =? 6) then Err ErrDateRangeIllegal
      else
        let '(a, b) := if sltb b a then (b, a) else (a, b) in
        by_s ← ssub a 0 4; beginYear ← Atoi by_s;
        bm_s ← ssub a 4 (slen a); beginMonth ← Atoi bm_s;
        ey_s ← ssub b 0 4; endYear ← Atoi ey_s;
        em_s ← ssub b 4 (slen b); endMonth ← Atoi em_s;
        let monthCount := (endYear - beginYear) * 12 + endMonth - beginMonth + 1 in
        Ret (month_loop (Z.to_nat monthCount) beginYear beginMonth)
  | _ => Err ErrDateRangeIllegal
  end.

Definition ParseYearRange (dateRange : string) : outcome (list Z) :=
  match SplitN2 "-" dateRange with
  | [a] =>
      if negb (slen a =? 4) then Err ErrDateRangeIllegal
      else dateNum ← Atoi a; Ret [dateNum]
  | [a; b] =>
      let '(a, b) := if sltb b a then (b, a) else (a, b) in
      beginYear ← Atoi a;
      endYear ← Atoi b;
      Ret (seqZ beginYear (endYear - beginYear + 1))
  | _ => Err ErrDateRangeIllegal
  end.

(** * Properties of the ranges *)

Lemma foldl_i64_sum acc l :
  Forall (Z.le 0) l -> 0 <= acc -> is_i64 (acc + zsum l) ->
  foldl (fun c n => i64 (c + n)) acc l = acc + zsum l.
Proof.
  revert acc. induction l as [|a l IH]; intros acc Hl Ha Hr; cbn.
  - cbn in *. lia.
  - apply Forall_cons in Hl as [Ha' Hl]. pose proof (zsum_nonneg l Hl).
    cbn in Hr. fold (zsum l) in *.
    rewrite (i64_id (acc + a)) by (unfold_int; lia).
    rewrite IH; [lia|done|lia|unfold_int; lia].
Qed.

Lemma table_count_sum l :
  Forall (Z.le 0) l -> zsum l <= max_i64 -> table_count l = zsum l.
Proof.
  intros Hl Hm. unfold table_count. pose proof (zsum_nonneg l Hl).
  rewrite foldl_i64_sum; [done|done|lia|unfold_int; lia].
Qed.

(** The [i]-th range of a table split into rows of [limit], without overflow. *)
Lemma ParseNumSharding_lookup locs limit ranges i :
  Forall (Z.le 0) locs -> 0 < limit -> zsum locs * limit <= max_i64 ->
  ParseNumSharding locs limit = Ret ranges ->
  0 <= i < zsum locs ->
  ranges !! Z.to_nat i = Some (mk_range (i * limit) ((i + 1) * limit)).
Proof.
  intros Hl Hp Hm H Hi. unfold ParseNumSharding in H.
  rewrite table_count_sum in H by (done || nia).
  invert_ret. rewrite list_lookup_fmap, lookup_seqZ_lt by lia. cbn.
  rewrite !i64_id by (unfold_int; nia). do 2 f_equal; lia.
Qed.

Lemma ParseNumSharding_length locs limit ranges :
  Forall (Z.le 0) locs -> zsum locs <= max_i64 ->
  ParseNumSharding locs limit = Ret ranges -> zlen ranges = zsum locs.
Proof.
  intros Hl Hm H. unfold ParseNumSharding in H.
  rewrite table_count_sum in H by done. invert_ret.
  unfold zlen. rewrite length_fmap, length_seqZ. pose proof (zsum_nonneg locs Hl). lia.
Qed.

(** * Date ranges *)

Lemma ascending_map_lt (f : nat -> Z) n s :
  (forall i j, (s <= i)%nat -> (i < j)%nat -> (j < s + n)%nat -> f i < f j) ->
  ascending (map f (seq s n)).
Proof.
  revert s. induction n as [|n IH]; intros s H; cbn; [constructor|].
  apply ascending_cons. split.
  - apply IH. intros i j Hi Hj Hn. apply H; lia.
  - rewrite Forall_forall. intros y Hy. apply list_elem_of_fmap in Hy as (j & -> & Hj).
    apply elem_of_seq in Hj. apply H; lia.
Qed.

(** Every day from [begin] to [end_], in order, when the range fits a Duration. *)
Lemma day_list_spec b e :
  valid_date b -> valid_date e -> 0 <= d_year b -> d_year e <= 9999 ->
  exists l,
    mapM (fun i => Atoi (format_ymd "" (add_days i b)))
         (seq 0 (Z.to_nat (days_between b e + 1))) = Ret l /\
    ascending l /\
    (day_number e - day_number b <= max_duration_days ->
     forall d, valid_date d -> ymd d ∈ l <-> ymd b <= ymd d <= ymd e).
Proof.
  intros Hb He Hyb Hye. set (n := Z.to_nat (days_between b e + 1)).
  assert (Hn : forall i, (i < n)%nat ->
    ymd b <= ymd (add_days i b) <= ymd e).
  { intros i Hi. split; apply day_number_ymd_le; auto using add_days_valid;
      rewrite day_number_add by done; unfold n, days_between in Hi; lia. }
  exists (map (fun i => ymd (add_days i b)) (seq 0 n)). split_and!.
  - apply mapM_pure. intros i Hi. apply elem_of_seq in Hi.
    pose proof (add_days_valid i b Hb) as Hv. specialize (Hn i ltac:(lia)).
    apply Atoi_format_ymd; [done|]. unfold ymd in Hn. destruct Hv as [Hm Hd], Hb, He.
    pose proof (days_in_range (d_month (add_days i b)) (d_year (add_days i b))).
    pose proof (days_in_range (d_month b) (d_year b)).
    pose proof (days_in_range (d_month e) (d_year e)). lia.
  - apply ascending_map_lt. intros i j _ Hij _.
    destruct (Z.lt_trichotomy (ymd (add_days i b)) (ymd (add_days j b))) as [?|Hge]; [done|].
    assert (day_number (add_days j b) <= day_number (add_days i b)) as Hc
      by (apply day_number_ymd_le; auto using add_days_valid; lia).
    rewrite !day_number_add in Hc by done. lia.
  - intros Hmax d Hd. rewrite list_elem_of_fmap. split.
    + intros (i & -> & Hi). apply elem_of_seq in Hi. apply Hn. lia.
    + intros [H1 H2]. rewrite <- !day_number_ymd_le in H1, H2 by done.
      exists (Z.to_nat (day_number d - day_number b)). split.
      * f_equal. apply add_days_unique; [done|done|lia].
      * apply elem_of_seq. unfold n, days_between. lia.
Qed.

(** A day range [a-b] of two dates in order parses to the ascending list of
    exactly the valid days from the first to the second (up to the 106751 days
    a time.Duration can hold). *)
Theorem ParseDayRange_spec s a b da db :
  SplitN2 "-" s = [a; b] -> sltb b a = false ->
  ParseDate8 a = Ret da -> ParseDate8 b = Ret db ->
  day_number db - day_number da <= max_duration_days ->
  exists l, ParseDayRange s = Ret l /\ ascending l /\
    forall d, valid_date d -> ymd d ∈ l <-> ymd da <= ymd d <= ymd db.
Proof.
  intros Hs Hab Ha Hb Hd. unfold ParseDayRange. rewrite Hs, Hab.
  pose proof (ParseDate8_slen _ _ Ha) as ->. pose proof (ParseDate8_slen _ _ Hb) as ->.
  cbn [negb orb Z.eqb Pos.eqb]. rewrite Ha, Hb. cbn [mbind outcome_bind].
  apply ParseDate8_valid in Ha as [Hva Hya], Hb as [Hvb Hyb].
  destruct (day_list_spec da db) as (l & Hl & Hasc & Hel); [done|done|lia|lia|].
  exists l. split_and!; auto.
Qed.

Lemma ParseDayRange_spec_witness :
  exists l, ParseDayRange "20151230-20160102" = Ret l /\ ascending l /\
    forall d, valid_date d -> ymd d ∈ l <-> 20151230 <= ymd d <= 20160102.
Proof.
  apply (ParseDayRange_spec "20151230-20160102" "20151230" "20160102"
           (mk_date 2015 12 30) (mk_date 2016 1 2)); reflexivity || (vm_compute; discriminate).
Defined.

Definition month_number (k : Z) : Z := k / 12 * 100 + k mod 12 + 1.

Lemma month_loop_eq n y m :
  1 <= m <= 13 ->
  month_loop n y m = map (fun i => month_number (y * 12 + (m - 1) + Z.of_nat i)) (seq 0 n).
Proof.
  revert y m. induction n as [|n IH]; intros y m Hm; [done|]. cbn [month_loop].
  destruct (12 <? m) eqn:E.
  - replace m with 13 by lia. change (Z.rem 13 12) with 1. rewrite IH by lia.
    rewrite <- cons_seq, fmap_cons, <- fmap_S_seq, <- list_fmap_compose.
    f_equal; [unfold month_number; Z.div_mod_to_equations; lia|].
    apply list_fmap_ext. intros i x _. cbn. f_equal. lia.
  - rewrite IH by lia. rewrite <- cons_seq, fmap_cons, <- fmap_S_seq, <- list_fmap_compose.
    f_equal; [unfold month_number; Z.div_mod_to_equations; lia|].
    apply list_fmap_ext. intros i x _. cbn. f_equal. lia.
Qed.

(** A month range [a-b] of two valid months in order parses to the
    ascending list of exactly the months from the first to the second. *)
Theorem ParseMonthRange_spec s a b y1 m1 y2 m2 :
  SplitN2 "-" s = [a; b] -> sltb b a = false ->
  ParseDate6 a = Ret (y1, m1) -> ParseDate6 b = Ret (y2, m2) ->
  exists l, ParseMonthRange s = Ret l /\ ascending l /\
    forall y m, 1 <= m <= 12 ->
      y * 100 + m ∈ l <-> y1 * 12 + m1 <= y * 12 + m <= y2 * 12 + m2.
Proof.
  intros Hs Hab Ha Hb. unfold ParseMonthRange. rewrite Hs, Hab.
  apply ParseDate6_fields in Ha as (Ha6 & Hm1 & _ & Ha4 & Ha5).
  apply ParseDate6_fields in Hb as (Hb6 & Hm2 & _ & Hb4 & Hb5).
  apply bind_Ret in Ha4 as (? & Ea4 & Ha4), Ha5 as (? & Ea5 & Ha5).
  apply bind_Ret in Hb4 as (? & Eb4 & Hb4), Hb5 as (? & Eb5 & Hb5).
  rewrite Ha6, Hb6 in *. cbn [negb orb Z.eqb Pos.eqb].
  rewrite Ea4; cbn [mbind outcome_bind]; rewrite Ha4; cbn [mbind outcome_bind].
  rewrite Ea5; cbn [mbind outcome_bind]; rewrite Ha5; cbn [mbind outcome_bind].
  rewrite Eb4; cbn [mbind outcome_bind]; rewrite Hb4; cbn [mbind outcome_bind].
  rewrite Eb5; cbn [mbind outcome_bind]; rewrite Hb5; cbn [mbind outcome_bind].
  eexists. split; [reflexivity|]. rewrite month_loop_eq by lia. split.
  - apply ascending_map_lt. intros i j _ Hij _. unfold month_number.
    Z.div_mod_to_equations. lia.
  - intros y m Hm. rewrite list_elem_of_fmap. split.
    + intros (i & Hi & Hin). apply elem_of_seq in Hin. unfold month_number in Hi.
      Z.div_mod_to_equations. lia.
    + intros H. exists (Z.to_nat (y * 12 + m - (y1 * 12 + m1))). split.
      * unfold month_number. Z.div_mod_to_equations. lia.
      * apply elem_of_seq. lia.
Qed.

Lemma ParseMonthRange_spec_witness :
  exists l, ParseMonthRange "201510-201602" = Ret l /\ ascending l /\
    forall y m, 1 <= m <= 12 ->
      y * 100 + m ∈ l <-> 2015 * 12 + 10 <= y * 12 + m <= 2016 * 12 + 2.
Proof. by apply (ParseMonthRange_spec "201510-201602" "201510" "201602"). Defined.
