(* ===== verification/Shard.v ===== *)
(** proxy/router/shard.go: conversion of key values and the kingshard shard
    algorithms (hash, mod, number range, year / month / day). A shard algorithm
    is an instance of the class [FindForKey], the algorithms with an order on
    their keys are instances of [EqualStart], as in the Go interfaces [Shard]
    and [RangeShard]. *)

From Stdlib Require Import Ascii String.
From S2P Require Import Prelude GoStr Hack NumKey.

(** * Keys *)

Definition unexpected_key {A} : outcome A := Panic "Unexpected key variable type".

(** [Uint64Key.String]: eight bytes, big endian. *)
Definition Uint64Key_String (i : Z) : string :=
  of_bytes (map (fun k => u8 (Z.shiftr (u64 i) (8 * (7 - k)))) (seqZ 0 8)).

Definition EncodeValue (value : gval) : outcome string :=
  match value with
  | GInt KInt v | GInt KUint64 v | GInt KInt64 v => Ret (Uint64Key_String v)
  | GString v | GBytes v => Ret v
  | _ => unexpected_key
  end.

Definition GetString (value : gval) : outcome string :=
  match value with
  | GInt KInt v | GInt KInt64 v => Ret (FormatInt v)
  | GInt KUint v | GInt KUint64 v => Ret (FormatUint v)
  | GString v | GBytes v => Ret v
  | _ => unexpected_key
  end.

Definition HashValue (value : gval) : outcome Z :=
  match value with
  | GInt KInt v | GInt KUint64 v | GInt KInt64 v => Ret (u64 v)
  | GString v =>
      match ParseUint v with
      | Ret n => Ret n
      | _ => Ret (ChecksumIEEE v)
      end
  | GBytes v => Ret (ChecksumIEEE v)
  | _ => unexpected_key
  end.

Definition NumValue (value : gval) : outcome Z :=
  match value with
  | GInt KInt v | GInt KUint64 v | GInt KInt64 v => Ret (i64 v)
  | GString v | GBytes v =>
      match ParseInt v with
      | Ret n => Ret n
      | _ => Panic "invalid num format"
      end
  | _ => unexpected_key
  end.

(** * The interfaces Shard and RangeShard *)

Class FindForKey (S : Type) := find_for_key : S -> gval -> outcome Z.
Class EqualStart (S : Type) := equal_start : S -> gval -> Z -> outcome bool.

(** Integer division that panics on a zero divisor. *)
Definition go_rem (a b : Z) : outcome Z :=
  if b =? 0 then Panic "integer divide by zero" else Ret (Z.rem a b).

(** * HashShard, ModShard *)

Record HashShard := mk_HashShard { HashShard_ShardNum : Z }.
Record ModShard := mk_ModShard { ModShard_ShardNum : Z }.

#[global] Instance HashShard_FindForKey : FindForKey HashShard := fun s key =>
  h ← HashValue key;
  r ← go_rem h (u64 (HashShard_ShardNum s));
  Ret (i64 r).

#[global] Instance ModShard_FindForKey : FindForKey ModShard := fun m key =>
  v ← NumValue key;
  let h := Abs v in
  r ← go_rem h (ModShard_ShardNum m);
  Ret r.

(** * NumRangeShard *)

Record NumRangeShard := mk_NumRangeShard { Shards : list NumKeyRange }.

Definition ErrKeyOutOfRange : error := Named "ErrKeyOutOfRange".

(** [for i, r := range s.Shards { if r.Contains(v) { return i } }] *)
Fixpoint find_range (i : Z) (rs : list NumKeyRange) (v : Z) : outcome Z :=
  match rs with
  | [] => Err ErrKeyOutOfRange
  | r :: rs' => if Contains r v then Ret i else find_range (i + 1) rs' v
  end.

#[global] Instance NumRangeShard_FindForKey : FindForKey NumRangeShard := fun s key =>
  v ← NumValue key; find_range 0 (Shards s) v.

#[global] Instance NumRangeShard_EqualStart : EqualStart NumRangeShard := fun s key idx =>
  v ← NumValue key; r ← index (Shards s) idx; Ret (Start r =? v).

(** * Date shards

    [time.Unix] renders an instant in the local time zone of the process: its
    offset in seconds at an instant is a parameter. *)

Class LocalZone := local_offset : Z -> Z.

Section dates.
Context `{LocalZone}.

Definition InvalidDateFormat : error := Errorf "invalid date format %v".
Definition UnexpectedKeyType : error := Errorf "Unexpected key variable type %T".

(** [time.Unix(sec, 0)] as a local date. *)
Definition local_date (sec : Z) : date := unix_date (local_offset sec) sec.

Definition getNumYear (key : gval) : outcome Z :=
  match key with
  | GInt KInt v | GInt KInt64 v => Ret (d_year (local_date v))
  | GInt KUint64 v => Ret (d_year (local_date (i64 v)))
  | GString v =>
      s ← ssub v 0 4;
      match Atoi s with Ret n => Ret n | _ => Err InvalidDateFormat end
  | _ => Err UnexpectedKeyType
  end.

(** [s := dateStr[:4] + dateStr[5:7]; strconv.Atoi(s)] *)
Definition year_month_of (dateStr : string) : outcome Z :=
  y ← ssub dateStr 0 4;
  m ← ssub dateStr 5 7;
  match Atoi (String.append y m) with Ret n => Ret n | _ => Err InvalidDateFormat end.

Definition getNumYearMonth (key : gval) : outcome Z :=
  match key with
  | GInt KInt v | GInt KInt64 v => year_month_of (format_ymd "-" (local_date v))
  | GInt KUint64 v => year_month_of (format_ymd "-" (local_date (i64 v)))
  | GString v => if slen v <? 10 then Err InvalidDateFormat else year_month_of v
  | _ => Err UnexpectedKeyType
  end.

(** [s := dateStr[:4] + dateStr[5:7] + dateStr[8:10]; strconv.Atoi(s)] *)
Definition year_month_day_of (dateStr : string) : outcome Z :=
  y ← ssub dateStr 0 4;
  m ← ssub dateStr 5 7;
  d ← ssub dateStr 8 10;
  match Atoi (String.append y (String.append m d)) with
  | Ret n => Ret n
  | _ => Err InvalidDateFormat
  end.

Definition getNumYearMonthDay (key : gval) : outcome Z :=
  match key with
  | GInt KInt v | GInt KInt64 v => year_month_day_of (format_ymd "-" (local_date v))
  | GInt KUint64 v => year_month_day_of (format_ymd "-" (local_date (i64 v)))
  | GString v => if slen v <? 10 then Err InvalidDateFormat else year_month_day_of v
  | _ => Err UnexpectedKeyType
  end.

Inductive DateYearShard := mk_DateYearShard.
Inductive DateMonthShard := mk_DateMonthShard.
Inductive DateDayShard := mk_DateDayShard.

(** The three [EqualStart] methods: [false] on an error, else the number of
    the key compared with the index. *)
Definition date_equal_start (num : outcome Z) (idx : Z) : outcome bool :=
  match num with
  | Ret n => Ret (n =? idx)
  | Err _ => Ret false
  | Panic p => Panic p
  end.

#[global] Instance DateYearShard_FindForKey : FindForKey DateYearShard :=
  fun _ key => getNumYear key.
#[global] Instance DateYearShard_EqualStart : EqualStart DateYearShard :=
  fun _ key idx => date_equal_start (getNumYear key) idx.
#[global] Instance DateMonthShard_FindForKey : FindForKey DateMonthShard :=
  fun _ key => getNumYearMonth key.
#[global] Instance DateMonthShard_EqualStart : EqualStart DateMonthShard :=
  fun _ key idx => date_equal_start (getNumYearMonth key) idx.
#[global] Instance DateDayShard_FindForKey : FindForKey DateDayShard :=
  fun _ key => getNumYearMonthDay key.
#[global] Instance DateDayShard_EqualStart : EqualStart DateDayShard :=
  fun _ key idx => date_equal_start (getNumYearMonthDay key) idx.

End dates.

(** * DefaultShard, GlobalTableShard *)

Inductive DefaultShard := mk_DefaultShard.
Inductive GlobalTableShard := mk_GlobalTableShard.

#[global] Instance DefaultShard_FindForKey : FindForKey DefaultShard := fun _ _ => Ret 0.
#[global] Instance GlobalTableShard_FindForKey : FindForKey GlobalTableShard :=
  fun _ _ => Panic "global table cannot find key".

(** * Properties *)

(** A key the hash and number algorithms accept: an integer of its width or a
    string that is a decimal number. *)
Definition num_key (key : gval) (v : Z) : Prop := NumValue key = Ret v.

Lemma NumValue_range key v : gval_wf key -> NumValue key = Ret v -> is_i64 v.
Proof.
  destruct key as [|k z|f|f|s|s|t]; cbn; try discriminate.
  - destruct k; cbn; intros _ E; try discriminate; injection E as <-; apply i64_range.
  - intros _. destruct (ParseInt s) eqn:E; try discriminate.
    intros [= <-]. eauto using ParseInt_range.
  - intros _. destruct (ParseInt s) eqn:E; try discriminate.
    intros [= <-]. eauto using ParseInt_range.
Qed.

Lemma u32_xor_ones_range c : 0 <= c < 2 ^ 32 -> 0 <= Z.lxor c 4294967295 < 2 ^ 32.
Proof.
  intros Hc. change 4294967295 with (u32 4294967295). rewrite <- (u32_id c) by done.
  apply lxor_u32_range.
Qed.

Lemma crc32_bits_range n c : 0 <= c < 2 ^ 32 -> 0 <= crc32_bits n c < 2 ^ 32.
Proof.
  revert c. induction n as [|n IH]; intros c Hc; cbn [crc32_bits]; [done|].
  assert (0 <= Z.shiftr c 1 < 2 ^ 32) as Hs.
  { rewrite Z.shiftr_div_pow2 by lia. unfold_int. Z.div_mod_to_equations. lia. }
  apply IH. destruct (Z.testbit c 0); [|done].
  change crc32_poly with (u32 crc32_poly). rewrite <- (u32_id (Z.shiftr c 1)) by done.
  apply lxor_u32_range.
Qed.

Lemma ChecksumIEEE_range s : 0 <= ChecksumIEEE s < 2 ^ 32.
Proof.
  unfold ChecksumIEEE. apply u32_xor_ones_range.
  assert (0 <= 4294967295 < 2 ^ 32) as H0 by (unfold_int; lia). revert H0.
  generalize 4294967295. pose proof (sbytes_range s) as Hb. revert Hb.
  induction (sbytes s) as [|b l IH]; cbn [foldl]; intros Hb c Hc; [done|].
  apply Forall_cons in Hb as [Hb Hl]. apply IH; [done|].
  unfold crc32_byte. apply crc32_bits_range. rewrite <- (u32_id c) by done.
  rewrite <- (u32_id b) by (unfold_int; lia). apply lxor_u32_range.
Qed.

Lemma HashValue_range key h : HashValue key = Ret h -> is_u64 h.
Proof.
  assert (forall s, is_u64 (ChecksumIEEE s)) as Hc.
  { intros s. pose proof (ChecksumIEEE_range s). unfold_int. lia. }
  destruct key as [|k z|f|f|s|s|t]; cbn [HashValue unexpected_key]; try discriminate.
  - destruct k; intros E; try discriminate; injection E as <-; apply u64_range.
  - destruct (ParseUint s) eqn:E; intros [= <-]; eauto using ParseUint_range.
  - intros [= <-]. auto.
Qed.

Lemma go_rem_Ret a b r : go_rem a b = Ret r <-> b <> 0 /\ r = Z.rem a b.
Proof. unfold go_rem. destruct (b =? 0) eqn:E; naive_solver lia. Qed.

(** Every accepted key of a hash shard with [n > 0] tables lands in [0, n). *)
Lemma HashShard_bound n key i :
  0 < n <= max_i64 -> find_for_key (mk_HashShard n) key = Ret i -> 0 <= i < n.
Proof.
  intros Hn H. unfold find_for_key, HashShard_FindForKey in H.
  apply bind_Ret in H as (h & Hh & H). apply bind_Ret in H as (r & Hr & [= <-]).
  apply go_rem_Ret in Hr as [_ ->]. apply HashValue_range in Hh. cbn.
  rewrite u64_id by (unfold_int; lia).
  pose proof (Z.rem_bound_pos h n ltac:(unfold_int; lia) ltac:(lia)).
  rewrite i64_id by (unfold_int; lia). lia.
Qed.

Lemma ModShard_bound n key i v :
  0 < n <= max_i64 -> gval_wf key -> num_key key v -> v <> min_i64 ->
  find_for_key (mk_ModShard n) key = Ret i -> i = Z.abs v mod n /\ 0 <= i < n.
Proof.
  intros Hn Hk Hv Hm H. unfold find_for_key, ModShard_FindForKey in H.
  rewrite Hv in H. cbn [mbind outcome_bind] in H.
  apply bind_Ret in H as (r & Hr & [= <-]). apply go_rem_Ret in Hr as [_ ->]. cbn.
  pose proof (NumValue_range _ _ Hk Hv) as Hr. rewrite Abs_cases by done.
  destruct (v =? min_i64) eqn:E; [lia|].
  rewrite Z.rem_mod_nonneg by lia. split; [done|]. apply Z.mod_pos_bound. lia.
Qed.

(** The ranges [i*limit, (i+1)*limit) for [i] in [k, k+n). *)
Lemma find_range_spec n limit v (k : Z) :
  0 < limit -> 0 <= k -> (k + Z.of_nat n) * limit <= max_i64 ->
  k * limit <= v ->
  find_range k (map (fun i => mk_range (i * limit) ((i + 1) * limit)) (seqZ k (Z.of_nat n))) v =
  if v <? (k + Z.of_nat n) * limit then Ret (v / limit)
  else if decide (0 < Z.of_nat n /\ (k + Z.of_nat n) * limit = MaxNumKey)
       then Ret (k + Z.of_nat n - 1) else Err ErrKeyOutOfRange.
Proof.
  intros Hl. revert k. induction n as [|n IH]; intros k Hk Hm Hv.
  - rewrite decide_False by lia. rewrite Z.add_0_r in *.
    destruct (v <? _) eqn:E; [lia|done].
  - rewrite seqZ_cons by lia. cbn [map find_range]. unfold Contains. cbn [Start End_].
    replace (Z.pred (Z.of_nat (S n))) with (Z.of_nat n) by lia.
    replace (Z.succ k) with (k + 1) by lia.
    destruct (k * limit <=? v) eqn:E1; [|lia]. cbn [andb].
    assert ((k + Z.of_nat (S n)) * limit = (k + 1) * limit + Z.of_nat n * limit) as Hs by lia.
    destruct ((k + 1) * limit =? MaxNumKey) eqn:E2.
    + assert (Z.of_nat n * limit <= 0) by (unfold MaxNumKey in *; lia).
      assert (n = 0)%nat as -> by nia.
      cbn [orb]. replace (k + Z.of_nat 1) with (k + 1) in * by lia.
      destruct (v <? (k + 1) * limit) eqn:E3.
      * f_equal. apply Z.div_unique with (v - k * limit); lia.
      * rewrite decide_True by lia. f_equal. lia.
    + cbn [orb]. destruct (v <? (k + 1) * limit) eqn:E3.
      * assert (0 <= Z.of_nat n * limit) by nia.
        rewrite Hs. destruct (v <? _ + _) eqn:E4; [|lia].
        f_equal. apply Z.div_unique with (v - k * limit); lia.
      * replace (k + Z.of_nat (S n)) with (k + 1 + Z.of_nat n) in * by lia.
        rewrite IH by lia.
        destruct (v <? (k + 1 + Z.of_nat n) * limit) eqn:E4; [done|].
        destruct n as [|n]; [rewrite !decide_False by lia; done|].
        apply decide_ext. lia.
Qed.

(** The key types the hash algorithm accepts. *)
Definition hashable (key : gval) : bool :=
  match key with
  | GInt KInt _ | GInt KInt64 _ | GInt KUint64 _ | GString _ | GBytes _ => true
  | _ => false
  end.

(** On an integer, string or byte key a hash shard of [n] tables never
    panics or fails: it returns a table index in [0, n). *)
Theorem HashShard_total n key :
  0 < n <= max_i64 -> hashable key = true ->
  exists i, find_for_key (mk_HashShard n) key = Ret i /\ 0 <= i < n.
Proof.
  intros Hn Hk.
  assert (exists h, HashValue key = Ret h) as [h Hh].
  { destruct key as [|[]| | |s|s|]; try discriminate; cbn; eauto.
    destruct (ParseUint s); eauto. }
  assert (exists i, find_for_key (mk_HashShard n) key = Ret i) as [i Hi].
  { unfold find_for_key, HashShard_FindForKey. rewrite Hh. cbn [mbind outcome_bind].
    unfold go_rem. cbn. rewrite u64_id by (unfold_int; lia).
    destruct (n =? 0) eqn:E; [lia|]. eexists; reflexivity. }
  exists i. split; [done|]. by eapply HashShard_bound.
Qed.

Lemma HashShard_total_witness :
  exists i, find_for_key (mk_HashShard 4) (GString "user-17") = Ret i /\ 0 <= i < 4.
Proof. apply (HashShard_total 4 (GString "user-17")); [unfold_int; lia|reflexivity]. Defined.

(** A mod shard of [n] tables sends the number [v] to [|v| mod n], except
    for the smallest int64, whose absolute value overflows: it is sent to the
    non-positive remainder of [-2^63], so the index can be negative. *)
Theorem ModShard_spec n key v :
  0 < n <= max_i64 -> gval_wf key -> NumValue key = Ret v ->
  find_for_key (mk_ModShard n) key =
    Ret (if v =? min_i64 then - (2 ^ 63 mod n) else Z.abs v mod n).
Proof.
  intros Hn Hk Hv. unfold find_for_key, ModShard_FindForKey. rewrite Hv.
  cbn [mbind outcome_bind ModShard_ShardNum]. unfold go_rem.
  destruct (n =? 0) eqn:E; [lia|]. cbn [mbind outcome_bind]. f_equal.
  rewrite Abs_cases by eauto using NumValue_range.
  destruct (v =? min_i64) eqn:Em; [|rewrite Z.rem_mod_nonneg; lia].
  unfold min_i64. rewrite Z.rem_opp_l by lia. f_equal. apply Z.rem_mod_nonneg; lia.
Qed.

Lemma ModShard_spec_witness :
  find_for_key (mk_ModShard 3) (GString "-9223372036854775808") = Ret (-2) /\
  find_for_key (mk_ModShard 3) (GInt KInt64 (-7)) = Ret 1.
Proof.
  split.
  - apply (ModShard_spec 3 (GString "-9223372036854775808") min_i64);
      [unfold_int; lia|exact I|reflexivity].
  - apply (ModShard_spec 3 (GInt KInt64 (-7)) (-7)); [unfold_int; lia|cbn; unfold_int; lia|reflexivity].
Defined.

Lemma find_range_below k rs v :
  Forall (fun r => v < Start r) rs -> find_range k rs v = Err ErrKeyOutOfRange.
Proof.
  revert k. induction rs as [|r rs IH]; intros k H; [done|].
  apply Forall_cons in H as [Hr H]. cbn. unfold Contains.
  destruct (Start r <=? v) eqn:E; [lia|]. cbn. by apply IH.
Qed.

Lemma ParseNumSharding_eq locs limit :
  Forall (Z.le 0) locs -> 0 < limit -> zsum locs * limit <= max_i64 ->
  ParseNumSharding locs limit =
    Ret (map (fun i => mk_range (i * limit) ((i + 1) * limit)) (seqZ 0 (zsum locs))).
Proof.
  intros Hl Hp Hm. pose proof (zsum_nonneg locs Hl). unfold ParseNumSharding.
  rewrite table_count_sum by (done || nia).
  destruct (zsum locs <? 0) eqn:E; [lia|]. f_equal.
  apply list_fmap_ext. intros i x Hx. apply lookup_seqZ in Hx as [-> Hi]. f_equal;
    apply i64_id; unfold_int; nia.
Qed.

Lemma NumRange_find locs limit ranges key v :
  Forall (Z.le 0) locs -> 0 < limit -> zsum locs * limit < max_i64 ->
  ParseNumSharding locs limit = Ret ranges ->
  NumValue key = Ret v ->
  find_for_key (mk_NumRangeShard ranges) key =
    if (0 <=? v) && (v <? zsum locs * limit) then Ret (v / limit) else Err ErrKeyOutOfRange.
Proof.
  intros Hl Hp Hm Hr Hv. rewrite ParseNumSharding_eq in Hr by (done || lia).
  injection Hr as <-. unfold find_for_key, NumRangeShard_FindForKey. rewrite Hv.
  cbn [mbind outcome_bind Shards]. pose proof (zsum_nonneg locs Hl).
  destruct (0 <=? v) eqn:E.
  - pose proof (find_range_spec (Z.to_nat (zsum locs)) limit v 0) as F.
    rewrite Z2Nat.id, Z.add_0_l in F by lia. rewrite F by lia.
    rewrite decide_False by (unfold MaxNumKey; lia). done.
  - cbn. apply find_range_below. rewrite Forall_forall. intros r Hin.
    apply list_elem_of_fmap in Hin as (i & -> & Hi). apply elem_of_seqZ in Hi. cbn. nia.
Qed.

(** With the ranges of ParseNumSharding, a number range shard sends the key
    [v] to the [v / limit]-th table exactly when [v] is below the configured
    number of rows, and reports ErrKeyOutOfRange for every other number. *)
Theorem NumRangeShard_spec locs limit ranges key v :
  Forall (Z.le 0) locs -> 0 < limit -> zsum locs * limit < max_i64 ->
  ParseNumSharding locs limit = Ret ranges ->
  NumValue key = Ret v ->
  find_for_key (mk_NumRangeShard ranges) key =
    if (0 <=? v) && (v <? zsum locs * limit) then Ret (v / limit) else Err ErrKeyOutOfRange.
Proof. apply NumRange_find. Qed.

Lemma NumRangeShard_spec_witness :
  find_for_key (mk_NumRangeShard [mk_range 0 100; mk_range 100 200; mk_range 200 300])
    (GInt KInt64 250) = Ret 2.
Proof.
  apply (NumRangeShard_spec [1; 2] 100 _ (GInt KInt64 250) 250);
    [repeat constructor; lia|lia|vm_compute; reflexivity|reflexivity|reflexivity].
Defined.

(** On a year, month or day shard the lower-bound test EqualStart holds of
    every key at the very index the key is sent to, not only of the first
    instant of that table. *)
Theorem date_EqualStart_always `{LocalZone} key i :
  (find_for_key mk_DateYearShard key = Ret i -> equal_start mk_DateYearShard key i = Ret true) /\
  (find_for_key mk_DateMonthShard key = Ret i -> equal_start mk_DateMonthShard key i = Ret true) /\
  (find_for_key mk_DateDayShard key = Ret i -> equal_start mk_DateDayShard key i = Ret true).
Proof.
  unfold find_for_key, equal_start, DateYearShard_FindForKey, DateMonthShard_FindForKey,
    DateDayShard_FindForKey, DateYearShard_EqualStart, DateMonthShard_EqualStart,
    DateDayShard_EqualStart, date_equal_start.
  split_and!; intros ->; by rewrite Z.eqb_refl.
Qed.
