(* ===== verification/ShardMycat.v ===== *)
(** proxy/router/shard_mycat.go: the mycat-compatible shard algorithms. The
    ordered map of the consistent hash comes from the gods library; it is the
    class [TreeMap], with the laws the code relies on in [TreeMapOk]. *)

From Stdlib Require Import Ascii String.
From S2P Require Import Prelude GoStr Hack NumKey Shard.

(** * MycatPartitionModShard *)

Record MycatPartitionModShard := NewMycatPartitionModShard { MycatMod_ShardNum : Z }.

#[global] Instance MycatPartitionModShard_FindForKey : FindForKey MycatPartitionModShard :=
  fun m key =>
  v ← NumValue key;
  let h := Abs v in
  r ← go_rem h (MycatMod_ShardNum m);
  Ret r.

(** * MycatPartitionLongShard *)

Definition PartitionLength : Z := 1024.
Definition andValue : Z := PartitionLength - 1.

Record MycatPartitionLongShard := mk_Long {
  shardNum : Z; countStr : string; lengthStr : string;
  count : list Z; length_ : list Z; segment : list Z }.

Definition NewMycatPartitionLongShard (shardNum : Z) (partitionCount partitionLength : string) :
    MycatPartitionLongShard :=
  mk_Long shardNum partitionCount partitionLength [] [] [].

Definition toIntArray (str : string) : outcome (list Z) :=
  mapM Atoi (Split "," (remove_char " " str)).

(** [for j := 0; j < countList[i]; j++ { ai[index+1] = ai[index] + lengthList[i]; index++ }] *)
Fixpoint fill_inner (n : nat) (len idx : Z) (ai : list Z) : outcome (list Z * Z) :=
  match n with
  | O => Ret (ai, idx)
  | S n' =>
      x ← index ai idx;
      ai' ← store ai (idx + 1) (i64 (x + len));
      fill_inner n' len (idx + 1) ai'
  end.

Fixpoint fill_ai (cl : list (Z * Z)) (idx : Z) (ai : list Z) : outcome (list Z * Z) :=
  match cl with
  | [] => Ret (ai, idx)
  | (c, len) :: cl' =>
      '(ai', idx') ← fill_inner (Z.to_nat c) len idx ai;
      fill_ai cl' idx' ai'
  end.

(** [for j := ai[i-1]; j < ai[i]; j++ { segment[j] = i - 1 }] *)
Fixpoint seg_inner (n : nat) (j v : Z) (seg : list Z) : outcome (list Z) :=
  match n with
  | O => Ret seg
  | S n' => seg' ← store seg j v; seg_inner n' (j + 1) v seg'
  end.

Fixpoint seg_outer (i : Z) (ai : list Z) (seg : list Z) : outcome (list Z) :=
  match ai with
  | a :: ((b :: _) as t) =>
      seg' ← seg_inner (Z.to_nat (b - a)) a (i - 1) seg;
      seg_outer (i + 1) t seg'
  | _ => Ret seg
  end.

Definition ErrScope : error := Errorf "error, check your scope & scopeLength definition".
Definition ErrSegmentLength : error := Errorf "segmentLength is not equal to shardNum".
Definition ErrPartitionScope : error := Errorf "error, check your partitionScope definition".

Definition Long_Init (m : MycatPartitionLongShard) : outcome MycatPartitionLongShard :=
  countList ← toIntArray (countStr m);
  lengthList ← toIntArray (lengthStr m);
  if negb (zlen countList =? zlen lengthList) then Err ErrScope else
  let segmentLength := table_count countList in
  if negb (segmentLength =? shardNum m) then Err ErrSegmentLength else
  if segmentLength + 1 <? 0 then Panic "makeslice: len out of range" else
  '(ai, _) ← fill_ai (zip countList lengthList) 0
               (replicate (Z.to_nat (segmentLength + 1)) 0);
  last ← index ai (zlen ai - 1);
  if negb (last =? PartitionLength) then Err ErrPartitionScope else
  seg ← seg_outer 1 ai (replicate (Z.to_nat PartitionLength) 0);
  Ret (mk_Long (shardNum m) (countStr m) (lengthStr m) countList lengthList seg).

(** [m.segment[int(h)&andValue]] *)
Definition segment_at (m : MycatPartitionLongShard) (h : Z) : outcome Z :=
  index (segment m) (Z.land h andValue).

#[global] Instance MycatPartitionLongShard_FindForKey : FindForKey MycatPartitionLongShard :=
  fun m key => h ← NumValue key; segment_at m h.

(** * MycatPartitionStringShard *)

Record MycatPartitionStringShard := mk_String {
  long_shard : MycatPartitionLongShard;
  hashSliceStr : string; hashSliceStart : Z; hashSliceEnd : Z }.

Definition NewMycatPartitionStringShard (shardNum : Z)
    (partitionCount partitionLength hashSliceStr : string) : MycatPartitionStringShard :=
  mk_String (NewMycatPartitionLongShard shardNum partitionCount partitionLength) hashSliceStr 0 0.

(** The empty text is 0. *)
Definition parseHashSliceValue (str : string) : outcome Z :=
  if String.eqb str "" then Ret 0 else Atoi str.

Definition parseHashSliceStartEnd (hashSliceStr : string) : outcome (Z * Z) :=
  match Split ":" (TrimSpace hashSliceStr) with
  | [s] => v ← Atoi s; Ret (if 0 <=? v then (0, v) else (v, 0))
  | [s; e] =>
      start ← wrap "parse hash slice start error: %v" (parseHashSliceValue s);
      end_ ← wrap "parse hash slice end error: %v" (parseHashSliceValue e);
      Ret (start, end_)
  | _ => Err (Errorf "invalid hash slice str")
  end.

Definition String_Init (m : MycatPartitionStringShard) : outcome MycatPartitionStringShard :=
  long ← Long_Init (long_shard m);
  '(start, end_) ← parseHashSliceStartEnd (hashSliceStr m);
  Ret (mk_String long (hashSliceStr m) start end_).

(** [for i := start; i < end; i++ { h = (h << 5) - h + int64(input[i]) }] *)
Fixpoint hash_loop (n : nat) (i : Z) (input : list Z) (h : Z) : outcome Z :=
  match n with
  | O => Ret h
  | S n' =>
      c ← index input i;
      hash_loop n' (i + 1) input (i64 (i64 (i64 (Z.shiftl h 5) - h) + c))
  end.

Definition stringHash (s : string) (start end_ : Z) : outcome Z :=
  let input := runes s in
  let start := if start <? 0 then 0 else start in
  let end_ := if zlen input <? end_ then zlen input else end_ in
  hash_loop (Z.to_nat (end_ - start)) start input 0.

#[global] Instance MycatPartitionStringShard_FindForKey : FindForKey MycatPartitionStringShard :=
  fun m key =>
  keyStr ← GetString key;
  let start := if 0 <=? hashSliceStart m then hashSliceStart m
               else slen keyStr + hashSliceStart m in
  let end_ := if 0 <? hashSliceEnd m then hashSliceEnd m
              else slen keyStr + hashSliceEnd m in
  h ← stringHash keyStr start end_;
  segment_at (long_shard m) h.

(** * MycatPartitionMurmurHashShard *)

(** github.com/emirpasic/gods/maps/treemap with the int comparator. *)
Class TreeMap (T : Type) := {
  tm_new : T;
  tm_put : Z -> Z -> T -> T;
  tm_ceiling : Z -> T -> option (Z * Z);
  tm_min : T -> option (Z * Z) }.

(** What the code relies on: [Put] binds a key, [Ceiling] finds the smallest
    bound key that is not below the given one, [Min] the smallest bound key. *)
Class TreeMapOk (T : Type) `{TreeMap T} := {
  tm_get : T -> Z -> option Z;
  tm_get_new k : tm_get tm_new k = None;
  tm_get_put k v t j : tm_get (tm_put k v t) j = if decide (j = k) then Some v else tm_get t j;
  tm_ceiling_Some k t k' v : tm_ceiling k t = Some (k', v) ->
    k <= k' /\ tm_get t k' = Some v /\ forall j, k <= j -> is_Some (tm_get t j) -> k' <= j;
  tm_ceiling_None k t : tm_ceiling k t = None -> forall j, k <= j -> tm_get t j = None;
  tm_min_Some t k' v : tm_min t = Some (k', v) ->
    tm_get t k' = Some v /\ forall j, is_Some (tm_get t j) -> k' <= j;
  tm_min_None t : tm_min t = None -> forall j, tm_get t j = None }.

Section murmur_shard.
Context `{TreeMap T}.

Record MycatPartitionMurmurHashShard := mk_Murmur {
  seed : Z; murmur_count : Z; virtualBucketTimes : Z;
  weightMap : gmap Z Z; bucketMap : T }.

Definition defaultWeight : Z := 1.

Definition NewMycatPartitionMurmurHashShard (seedStr virtualBucketTimesStr : string) (count : Z) :
    outcome MycatPartitionMurmurHashShard :=
  seed ← Atoi seedStr;
  let vbt_s := if String.eqb virtualBucketTimesStr "" then "160"%string
               else virtualBucketTimesStr in
  vbt ← Atoi vbt_s;
  Ret (mk_Murmur seed count vbt ∅ tm_new).

Definition getWeight (m : MycatPartitionMurmurHashShard) (bucket : Z) : Z :=
  default defaultWeight (weightMap m !! bucket).

(** [for n := 0; n < shard; n++]: the buffer keeps growing by "-NODE-n". *)
Fixpoint node_loop (n : nat) (k : Z) (seed i : Z) (buf : string) (t : T) : T :=
  match n with
  | O => t
  | S n' =>
      let buf := String.append buf (String.append "-NODE-" (Itoa k)) in
      node_loop n' (k + 1) seed i buf (tm_put (HashUnencodedChars seed buf) i t)
  end.

Definition bucket_nodes (m : MycatPartitionMurmurHashShard) (i : Z) (t : T) : T :=
  let shard := i64 (virtualBucketTimes m * getWeight m i) in
  node_loop (Z.to_nat shard) 0 (seed m) i (String.append "SHARD-" (Itoa i)) t.

(** [for i := 0; i < m.count; i++] *)
Definition generateBucketMap (m : MycatPartitionMurmurHashShard) (t : T) : T :=
  foldl (fun t i => bucket_nodes m i t) t (seqZ 0 (murmur_count m)).

Definition Murmur_Init (m : MycatPartitionMurmurHashShard) : MycatPartitionMurmurHashShard :=
  mk_Murmur (seed m) (murmur_count m) (virtualBucketTimes m) ∅ (generateBucketMap m tm_new).

Definition bucket_lookup (t : T) (hashKey : Z) : outcome Z :=
  match tm_ceiling hashKey t with
  | Some (_, v) => Ret v
  | None => match tm_min t with
            | Some (_, v) => Ret v
            | None => Err (Errorf "bucket map is empty")
            end
  end.

#[global] Instance MycatPartitionMurmurHashShard_FindForKey :
    FindForKey MycatPartitionMurmurHashShard := fun m key =>
  keyStr ← GetString key;
  bucket_lookup (bucketMap m) (HashUnencodedChars (seed m) keyStr).

End murmur_shard.
Arguments MycatPartitionMurmurHashShard T : clear implicits.

(** * MycatPartitionPaddingModShard *)

Definition PaddingModLeftEnd : Z := 0.
Definition PaddingModRightEnd : Z := 1.
Definition PaddingModDefaultPadFrom : Z := PaddingModRightEnd.
Definition PaddingModDefaultPadLength : Z := 18.
Definition PaddingModDefaultModBegin : Z := 10.
Definition PaddingModDefaultModEnd : Z := 16.
Definition PaddingModDefaultMod : Z := 2.

Record MycatPartitionPaddingModShard := newMycatPartitionPaddingModShard {
  padFrom : Z; padLength : Z; modBegin : Z; modEnd : Z; mod_ : Z }.

Definition newDefaultMycatPartitionPaddingModShard : MycatPartitionPaddingModShard :=
  newMycatPartitionPaddingModShard PaddingModDefaultPadFrom PaddingModDefaultPadLength
    PaddingModDefaultModBegin PaddingModDefaultModEnd PaddingModDefaultMod.

Definition GetMycatPartitionPaddingModShard (padFromStr padLengthStr modBeginStr modEndStr : string)
    (mod_ : Z) : outcome MycatPartitionPaddingModShard :=
  padFrom ← Atoi padFromStr;
  padLength ← Atoi padLengthStr;
  modBegin ← Atoi modBeginStr;
  modEnd ← Atoi modEndStr;
  Ret (newMycatPartitionPaddingModShard padFrom padLength modBegin modEnd mod_).

Definition checkParam (m : MycatPartitionPaddingModShard) : outcome unit :=
  if negb (padFrom m =? PaddingModLeftEnd) && negb (padFrom m =? PaddingModRightEnd)
  then Err (Errorf "invalid padding mod mode: %d") else
  if mod_ m <? PaddingModDefaultMod then Err (Errorf "invalid padding mod number: %d") else
  if (modBegin m <? 0) || (modEnd m <=? modBegin m)
  then Err (Errorf "invalid padding modBegin or modEnd: %d, %d") else
  if padLength m <=? 0 then Err (Errorf "invalid padding mod padLength: %d") else
  if padLength m <? modEnd m - modBegin m
  then Err (Errorf "invalid padding mod, padLength is less than modBegin - modEnd: %d, %d, %d") else
  Ret tt.

Definition PaddingMod_Init (m : MycatPartitionPaddingModShard) : outcome unit := checkParam m.

#[global] Instance MycatPartitionPaddingModShard_FindForKey :
    FindForKey MycatPartitionPaddingModShard := fun m key =>
  h ← NumValue key;
  let keyStr := FormatInt h in
  paddingKey ←
    (if padLength m <? slen keyStr then ssub keyStr 0 (padLength m)
     else if padFrom m =? PaddingModLeftEnd then
       if h <? 0 then Err (Errorf "padding left to a negative is not allowed")
       else Ret (Left keyStr (padLength m) "0")
     else Ret (Right keyStr (padLength m) "0"));
  modSegment ← ssub paddingKey (modBegin m) (modEnd m);
  bigNum ← ParseInt modSegment;
  r ← go_rem (Abs bigNum) (mod_ m);
  Ret r.

(** * The segment table *)

Lemma store_Ret {A} (l : list A) i x l' :
  store l i x = Ret l' <-> 0 <= i < zlen l /\ l' = <[Z.to_nat i := x]> l.
Proof. unfold store. case_decide; naive_solver. Qed.

Lemma fill_inner_length n len idx ai ai' idx' :
  fill_inner n len idx ai = Ret (ai', idx') -> length ai' = length ai.
Proof.
  revert idx ai. induction n as [|n IH]; intros idx ai H; cbn [fill_inner] in H.
  - by injection H as -> ->.
  - apply bind_Ret in H as (x & _ & H). apply bind_Ret in H as (ai1 & Hs & H).
    apply store_Ret in Hs as [_ ->]. apply IH in H. by rewrite length_insert in H.
Qed.

Lemma fill_ai_length cl idx ai ai' idx' :
  fill_ai cl idx ai = Ret (ai', idx') -> length ai' = length ai.
Proof.
  revert idx ai. induction cl as [|[c len] cl IH]; intros idx ai H; cbn [fill_ai] in H.
  - by injection H as -> ->.
  - apply bind_Ret in H as ([ai1 idx1] & Hi & H). apply fill_inner_length in Hi.
    apply IH in H. congruence.
Qed.

(** The entries written by the two loops are table numbers. *)
Definition seg_ok (n : Z) (seg : list Z) : Prop := Forall (fun v => 0 <= v < n) seg.

Lemma seg_inner_ok N n j v seg seg' :
  0 <= v < N -> seg_inner n j v seg = Ret seg' -> seg_ok N seg ->
  seg_ok N seg' /\ length seg' = length seg.
Proof.
  intros Hv. revert j seg. induction n as [|n IH]; intros j seg H Hok; cbn [seg_inner] in H.
  - by injection H as ->.
  - apply bind_Ret in H as (seg1 & Hs & H). apply store_Ret in Hs as [_ ->].
    apply IH in H; [by rewrite length_insert in H|]. by apply Forall_insert.
Qed.

Lemma seg_outer_ok N i ai seg seg' :
  1 <= i -> i - 1 + zlen ai - 1 <= N -> seg_outer i ai seg = Ret seg' -> seg_ok N seg ->
  seg_ok N seg' /\ length seg' = length seg.
Proof.
  revert i seg. induction ai as [|a ai IH]; intros i seg Hi HN H Hok.
  - by injection H as ->.
  - destruct ai as [|b ai]; [by injection H as ->|].
    cbn [seg_outer] in H. apply bind_Ret in H as (seg1 & Hs & H).
    autorewrite with zlen in *. pose proof (zlen_nonneg ai).
    apply (seg_inner_ok N) in Hs as [Hok1 Hl]; [|lia|done].
    apply IH in H; [by rewrite Hl in H|lia| |done].
    autorewrite with zlen. lia.
Qed.

(** A one-element table has no room for a second bound. *)
Lemma fill_ai_singleton l idx ai k : fill_ai l k [0] = Ret (ai, idx) -> 0 <= k -> ai = [0].
Proof.
  revert k. induction l as [|[c len] l IH]; intros k Ha Hk; cbn in Ha; [by injection Ha as ->|].
  destruct (Z.to_nat c) eqn:Ec; cbn in Ha; [by eapply IH in Ha|].
  apply bind_Ret in Ha as ([ai1 idx1] & Ha & _).
  apply bind_Ret in Ha as (x & _ & Ha). apply bind_Ret in Ha as (ai2 & Ha & _).
  apply store_Ret in Ha as [Ha _]. unfold zlen in Ha. cbn in Ha. lia.
Qed.

Lemma Long_Init_ok m m' :
  0 <= shardNum m -> Long_Init m = Ret m' ->
  shardNum m' = shardNum m /\ 0 < shardNum m /\
  length (segment m') = 1024%nat /\ seg_ok (shardNum m) (segment m').
Proof.
  intros Hn H. unfold Long_Init in H.
  apply bind_Ret in H as (cl & _ & H). apply bind_Ret in H as (ll & _ & H).
  destruct (negb (zlen cl =? zlen ll)); [done|].
  destruct (table_count cl =? shardNum m) eqn:E; [|done]. cbn [negb] in H.
  destruct (table_count cl + 1 <? 0) eqn:E0; [done|].
  apply bind_Ret in H as ([ai idx] & Ha & H). apply fill_ai_length in Ha as Hl.
  rewrite length_replicate in Hl. apply bind_Ret in H as (last & Hlast & H).
  destruct (last =? PartitionLength) eqn:E2; [|done]. cbn [negb] in H.
  apply bind_Ret in H as (seg & Hs & [= <-]). cbn.
  assert (zlen ai = shardNum m + 1) as Hz by (unfold zlen; lia).
  assert (0 < shardNum m) as Hpos.
  { destruct (Z.eq_dec (shardNum m) 0) as [E3|]; [|lia]. exfalso.
    assert (table_count cl = 0) as Htc by lia. rewrite Htc in Ha.
    cbn in Ha. apply fill_ai_singleton in Ha as ->; [|lia].
    cbn in Hlast. injection Hlast as <-. unfold PartitionLength in E2. lia. }
  apply (seg_outer_ok (shardNum m)) in Hs as [Hok Hlen].
  - rewrite length_replicate in Hlen. split_and!; done.
  - lia.
  - lia.
  - apply Forall_replicate. lia.
Qed.

Lemma land_andValue h : Z.land h andValue = h mod 1024.
Proof. change andValue with (Z.ones 10). by rewrite Z.land_ones. Qed.

Lemma segment_at_ok m h :
  length (segment m) = 1024%nat -> seg_ok (shardNum m) (segment m) ->
  exists i, segment_at m h = Ret i /\ 0 <= i < shardNum m.
Proof.
  intros Hl Hok. unfold segment_at. rewrite land_andValue.
  pose proof (Z.mod_pos_bound h 1024 ltac:(lia)).
  destruct (index_in_range (segment m) (h mod 1024)) as (i & Hi & Hlk); [unfold zlen; lia|].
  exists i. split; [done|]. unfold seg_ok in Hok. rewrite Forall_forall in Hok.
  apply Hok. by eapply list_elem_of_lookup_2.
Qed.

(** C35: once Init of a PartitionByLong shard has accepted its configuration,
    whatever the counts and lengths were, every numeric key is sent to one of
    its [shardNum] tables and the lookup never panics. *)
Theorem Long_FindForKey_total m0 m key v :
  0 <= shardNum m0 -> Long_Init m0 = Ret m -> NumValue key = Ret v ->
  exists i, find_for_key m key = Ret i /\ 0 <= i < shardNum m0.
Proof.
  intros Hn Hi Hv. apply Long_Init_ok in Hi as (E & _ & Hl & Hok); [|done].
  rewrite <- E in *. unfold find_for_key, MycatPartitionLongShard_FindForKey. rewrite Hv.
  by apply segment_at_ok.
Qed.

Definition long_example : MycatPartitionLongShard :=
  NewMycatPartitionLongShard 3 "2,1" "256,512".

(** ** The reference: partition lengths and prefix sums *)

(** The [count]/[length] pairs as one length per table. *)
Definition table_lengths (counts lengths : list Z) : list Z :=
  concat (zip_with (fun c l => replicate (Z.to_nat c) l) counts lengths).

(** The table that holds position [h] when the tables have these lengths. *)
Fixpoint ref_table (lens : list Z) (h : Z) : Z :=
  match lens with
  | [] => 0
  | l :: ls => if h <? l then 0 else 1 + ref_table ls (h - l)
  end.

(** Bounds of the tables: the running sums from [x]. *)
Fixpoint bounds (x : Z) (lens : list Z) : list Z :=
  match lens with [] => [x] | l :: ls => x :: bounds (x + l) ls end.

Lemma fill_inner_bounds n len p x k rest :
  0 <= len -> 0 <= x -> x + Z.of_nat n * len <= max_i64 ->
  fill_inner n len (zlen p) (p ++ x :: replicate (n + k) 0 ++ rest) =
  Ret (p ++ bounds x (replicate n len) ++ replicate k 0 ++ rest, zlen p + Z.of_nat n).
Proof.
  intros Hlen. revert p x. induction n as [|n IH]; intros p x Hx Hm.
  - cbn. f_equal. f_equal. lia.
  - cbn [fill_inner replicate Nat.add bounds].
    assert (Z.to_nat (zlen p) = length p) as Hp by (unfold zlen; lia).
    assert (index (p ++ x :: (0 :: replicate (n + k) 0) ++ rest) (zlen p) = Ret x) as ->.
    { apply index_Ret. split; [apply zlen_nonneg|]. rewrite Hp.
      by rewrite lookup_app_r, Nat.sub_diag. }
    cbn [mbind outcome_bind]. unfold store at 1. rewrite decide_True.
    2:{ unfold zlen. rewrite length_app. cbn [length app]. lia. }
    cbn [mbind outcome_bind].
    replace (Z.to_nat (zlen p + 1)) with (length p + 1)%nat by (unfold zlen; lia).
    rewrite insert_app_r. cbn [insert list_insert app].
    assert (0 <= Z.of_nat n * len) by nia.
    rewrite (i64_id (x + len)) by (unfold_int; lia).
    replace (zlen p + 1) with (zlen (p ++ [x])) by (by autorewrite with zlen).
    replace (p ++ x :: x + len :: replicate (n + k) 0 ++ rest)
      with ((p ++ [x]) ++ (x + len) :: replicate (n + k) 0 ++ rest) by (by rewrite <- app_assoc).
    rewrite IH by lia. rewrite <- app_assoc. cbn. f_equal. f_equal.
    autorewrite with zlen. lia.
Qed.

Fixpoint bounds_init (x : Z) (lens : list Z) : list Z :=
  match lens with [] => [] | l :: ls => x :: bounds_init (x + l) ls end.

Lemma bounds_snoc x lens : bounds x lens = bounds_init x lens ++ [x + zsum lens].
Proof.
  revert x. induction lens as [|l ls IH]; intros x; cbn; [f_equal; lia|].
  rewrite IH. cbn. do 3 f_equal. unfold zsum. lia.
Qed.

Lemma bounds_init_app x l1 l2 :
  bounds_init x (l1 ++ l2) = bounds_init x l1 ++ bounds_init (x + zsum l1) l2.
Proof.
  revert x. induction l1 as [|l ls IH]; intros x; cbn; [f_equal; lia|].
  rewrite IH. do 3 f_equal. unfold zsum. lia.
Qed.

Lemma zlen_bounds_init x lens : zlen (bounds_init x lens) = zlen lens.
Proof. revert x. induction lens; intros; cbn; autorewrite with zlen; rewrite ?IHlens; lia. Qed.

Lemma zsum_replicate n len : zsum (replicate n len) = Z.of_nat n * len.
Proof. unfold zsum. induction n as [|n IH]; cbn [replicate foldr]; [lia|]. rewrite IH. lia. Qed.

Lemma table_lengths_cons c l counts lengths :
  table_lengths (c :: counts) (l :: lengths) =
  replicate (Z.to_nat c) l ++ table_lengths counts lengths.
Proof. done. Qed.

Lemma table_lengths_nonneg counts lengths :
  Forall (Z.le 0) lengths -> Forall (Z.le 0) (table_lengths counts lengths).
Proof.
  revert lengths. induction counts as [|c cs IH]; intros [|l ls] Hl; try constructor.
  rewrite table_lengths_cons. apply Forall_cons in Hl as [Hl Hls].
  apply Forall_app. split; [by apply Forall_replicate|by apply IH].
Qed.

Lemma zlen_table_lengths counts lengths :
  length counts = length lengths -> Forall (Z.le 0) counts ->
  zlen (table_lengths counts lengths) = zsum counts.
Proof.
  revert lengths. induction counts as [|c cs IH]; intros [|l ls] Hl Hc; try done.
  rewrite table_lengths_cons. apply Forall_cons in Hc as [Hc Hcs].
  rewrite zlen_app, IH by (cbn in Hl; done || lia). unfold zlen. rewrite length_replicate.
  cbn. unfold zsum. lia.
Qed.

Lemma fill_ai_bounds counts lengths p x :
  length counts = length lengths -> Forall (Z.le 0) counts -> Forall (Z.le 0) lengths ->
  0 <= x -> x + zsum (table_lengths counts lengths) <= max_i64 ->
  exists idx, fill_ai (zip counts lengths) (zlen p)
    (p ++ x :: replicate (Z.to_nat (zsum counts)) 0) =
  Ret (p ++ bounds x (table_lengths counts lengths), idx).
Proof.
  revert lengths p x. induction counts as [|c cs IH]; intros [|l ls] p x Hlen Hc Hl Hx Hm;
    try done; [by eexists|].
  apply Forall_cons in Hc as [Hc Hcs], Hl as [Hl Hls].
  rewrite table_lengths_cons in *. rewrite zsum_app, zsum_replicate in Hm.
  pose proof (zsum_nonneg _ (table_lengths_nonneg cs ls Hls)).
  pose proof (zsum_nonneg cs Hcs).
  cbn [zip zip_with fill_ai]. cbn [zsum foldr]. fold (zsum cs).
  replace (Z.to_nat (c + zsum cs)) with (Z.to_nat c + Z.to_nat (zsum cs))%nat by lia.
  pose proof (fill_inner_bounds (Z.to_nat c) l p x (Z.to_nat (zsum cs)) []) as F.
  rewrite !app_nil_r in F. rewrite F by lia. cbn [mbind outcome_bind].
  rewrite bounds_snoc, zsum_replicate, <- !app_assoc, app_assoc. cbn [app].
  edestruct (IH ls (p ++ bounds_init x (replicate (Z.to_nat c) l))
    (x + Z.of_nat (Z.to_nat c) * l)) as [idx Hidx]; [cbn in Hlen; lia|done|done|lia|lia|].
  exists idx. rewrite zlen_app, zlen_bounds_init in Hidx.
  replace (zlen (replicate (Z.to_nat c) l)) with (Z.of_nat (Z.to_nat c)) in Hidx
    by (unfold zlen; by rewrite length_replicate).
  rewrite Hidx. do 2 f_equal.
  rewrite !bounds_snoc, bounds_init_app, zsum_app, zsum_replicate, <- !app_assoc.
  do 3 f_equal. f_equal. lia.
Qed.

Lemma seg_inner_spec n j v seg :
  0 <= j -> j + Z.of_nat n <= zlen seg ->
  exists seg', seg_inner n j v seg = Ret seg' /\ zlen seg' = zlen seg /\
    forall h, 0 <= h -> seg' !! Z.to_nat h =
      if decide (j <= h < j + Z.of_nat n) then Some v else seg !! Z.to_nat h.
Proof.
  revert j seg. induction n as [|n IH]; intros j seg Hj Hn.
  - eexists. split_and!; [done|done|]. intros h _. by rewrite decide_False by lia.
  - cbn [seg_inner]. unfold store at 1. rewrite decide_True by lia. cbn [mbind outcome_bind].
    assert (zlen (<[Z.to_nat j:=v]> seg) = zlen seg) as Hz by (unfold zlen; by rewrite length_insert).
    destruct (IH (j + 1) (<[Z.to_nat j := v]> seg)) as (seg' & Hs & Hl & Hlk); [lia|lia|].
    exists seg'. split_and!; [done|lia|]. intros h Hh. rewrite Hlk by done.
    destruct (Z.eq_dec h j) as [->|].
    + rewrite decide_False, decide_True by lia. apply list_lookup_insert_eq. unfold zlen in *. lia.
    + rewrite list_lookup_insert_ne by lia. apply decide_ext. lia.
Qed.

Lemma seg_outer_cons i a b t seg :
  seg_outer i (a :: b :: t) seg =
  (seg' ← seg_inner (Z.to_nat (b - a)) a (i - 1) seg; seg_outer (i + 1) (b :: t) seg').
Proof. done. Qed.

Lemma seg_outer_spec i lens x seg :
  Forall (Z.le 0) lens -> 0 <= x -> x + zsum lens <= zlen seg ->
  exists seg', seg_outer i (bounds x lens) seg = Ret seg' /\ zlen seg' = zlen seg /\
    forall h, 0 <= h -> seg' !! Z.to_nat h =
      if decide (x <= h < x + zsum lens) then Some (i - 1 + ref_table lens (h - x))
      else seg !! Z.to_nat h.
Proof.
  revert i x seg. induction lens as [|l ls IH]; intros i x seg Hl Hx Hs.
  - eexists. split_and!; [done|done|]. intros h _. rewrite decide_False; [done|cbn; lia].
  - apply Forall_cons in Hl as [Hl Hls]. pose proof (zsum_nonneg ls Hls).
    cbn [zsum foldr] in *. fold (zsum ls) in *.
    assert (exists t, bounds x (l :: ls) = x :: (x + l) :: t /\ bounds (x + l) ls = x + l :: t)
      as (t & Et & Et') by (destruct ls; eexists; done).
    rewrite Et, seg_outer_cons, <- Et'.
    destruct (seg_inner_spec (Z.to_nat (x + l - x)) x (i - 1) seg) as (s1 & Hs1 & Hz1 & Hk1);
      [lia|lia|]. rewrite Hs1. cbn [mbind outcome_bind].
    destruct (IH (i + 1) (x + l) s1) as (s2 & Hs2 & Hz2 & Hk2); [done|lia|lia|].
    exists s2. split_and!; [done|lia|]. intros h Hh. rewrite Hk2, Hk1 by done. cbn [ref_table].
    destruct (decide (x + l <= h < x + l + zsum ls)).
    + rewrite decide_True by lia. destruct (h - x <? l) eqn:E; [lia|].
      f_equal. replace (h - x - l) with (h - (x + l)) by lia. lia.
    + destruct (decide (x <= h < x + l)).
      * rewrite !decide_True by lia. destruct (h - x <? l) eqn:E; [|lia]. f_equal. lia.
      * rewrite !decide_False by lia. done.
Qed.

Lemma index_last_bounds x lens :
  index (bounds x lens) (zlen (bounds x lens) - 1) = Ret (x + zsum lens).
Proof.
  rewrite bounds_snoc, zlen_app. apply index_Ret.
  pose proof (zlen_nonneg (bounds_init x lens)). unfold zlen in *. cbn [length]. split; [lia|].
  rewrite lookup_app_r by lia. replace (_ - _)%nat with O by lia. done.
Qed.

Lemma zsum_const_le counts lengths :
  length counts = length lengths -> Forall (Z.le 0) counts -> Forall (Z.lt 0) lengths ->
  zsum counts <= zsum (table_lengths counts lengths).
Proof.
  revert lengths. induction counts as [|c cs IH]; intros [|l ls] Hlen Hc Hl; try done.
  apply Forall_cons in Hc as [Hc Hcs], Hl as [Hl Hls].
  rewrite table_lengths_cons, zsum_app, zsum_replicate. cbn [zsum foldr]. fold (zsum cs).
  specialize (IH ls ltac:(cbn in Hlen; lia) Hcs Hls). nia.
Qed.

(** Init succeeds on a configuration that covers the 1024 positions, and its
    table is the reference. *)
Lemma Long_Init_returns m counts lengths :
  toIntArray (countStr m) = Ret counts -> toIntArray (lengthStr m) = Ret lengths ->
  length counts = length lengths -> Forall (Z.le 0) counts -> Forall (Z.lt 0) lengths ->
  zsum counts = shardNum m -> zsum (table_lengths counts lengths) = 1024 ->
  exists m', Long_Init m = Ret m' /\
    forall h, 0 <= h < 1024 ->
      segment m' !! Z.to_nat h = Some (ref_table (table_lengths counts lengths) h).
Proof.
  intros Hc Hl Hlen Hcp Hlp Hs H1024.
  assert (Forall (Z.le 0) lengths) as Hl0 by (eapply Forall_impl; [exact Hlp|cbn; lia]).
  pose proof (zsum_const_le _ _ Hlen Hcp Hlp) as Hle. pose proof (zsum_nonneg _ Hcp).
  destruct (fill_ai_bounds counts lengths [] 0) as [idx Hf]; [done|done|done|lia|unfold_int; lia|].
  cbn [app] in Hf. rewrite zlen_nil in Hf.
  destruct (seg_outer_spec 1 (table_lengths counts lengths) 0 (replicate (Z.to_nat PartitionLength) 0))
    as (seg & Hseg & Hz & Hlk); [by apply table_lengths_nonneg|lia|rewrite H1024; done|].
  exists (mk_Long (shardNum m) (countStr m) (lengthStr m) counts lengths seg). split.
  - unfold Long_Init. rewrite Hc, Hl. cbn [mbind outcome_bind].
    replace (zlen counts =? zlen lengths) with true by (unfold zlen; rewrite Hlen, Z.eqb_refl; done).
    cbn [negb]. rewrite table_count_sum by (done || unfold_int; lia).
    rewrite <- Hs, Z.eqb_refl. cbn [negb]. destruct (zsum counts + 1 <? 0) eqn:E; [lia|].
    replace (Z.to_nat (zsum counts + 1)) with (S (Z.to_nat (zsum counts))) by lia.
    cbn [replicate]. rewrite Hf. cbn [mbind outcome_bind].
    rewrite index_last_bounds, H1024. cbn [mbind outcome_bind]. rewrite Z.eqb_refl. cbn [negb].
    rewrite Hseg. cbn [mbind outcome_bind]. done.
  - intros h Hh. cbn [segment]. rewrite Hlk by lia. rewrite decide_True by lia.
    f_equal. rewrite Z.sub_0_r. lia.
Qed.

(** For non-negative counts and positive lengths that cover the 1024
    positions, Init of a PartitionByLong shard succeeds and every number is
    sent to the table that holds its position modulo 1024 in the sequence of
    table lengths. *)
Theorem Long_Init_reference m counts lengths :
  toIntArray (countStr m) = Ret counts -> toIntArray (lengthStr m) = Ret lengths ->
  length counts = length lengths -> Forall (Z.le 0) counts -> Forall (Z.lt 0) lengths ->
  zsum counts = shardNum m -> zsum (table_lengths counts lengths) = 1024 ->
  exists m', Long_Init m = Ret m' /\
    forall key v, NumValue key = Ret v ->
      find_for_key m' key = Ret (ref_table (table_lengths counts lengths) (v mod 1024)).
Proof.
  intros. edestruct (Long_Init_returns m) as (m' & Hm' & Hlk); [eassumption..|].
  exists m'. split; [done|]. intros key v Hv.
  unfold find_for_key, MycatPartitionLongShard_FindForKey, segment_at. rewrite Hv.
  cbn [mbind outcome_bind]. rewrite land_andValue.
  pose proof (Z.mod_pos_bound v 1024 ltac:(lia)).
  apply index_Ret. split; [lia|]. by apply Hlk.
Qed.

Lemma Long_Init_reference_witness :
  exists m', Long_Init long_example = Ret m' /\
    forall key v, NumValue key = Ret v ->
      find_for_key m' key = Ret (ref_table [256; 256; 512] (v mod 1024)).
Proof.
  apply (Long_Init_reference long_example [2; 1] [256; 512]);
    [reflexivity|reflexivity|reflexivity|repeat constructor; lia|repeat constructor; lia
    |reflexivity|reflexivity].
Defined.

Lemma long_example_init : exists m, Long_Init long_example = Ret m.
Proof.
  destruct (Long_Init_returns long_example [2; 1] [256; 512]) as (m & Hm & _);
    [reflexivity|reflexivity|reflexivity|repeat constructor; lia|repeat constructor; lia
    |reflexivity|reflexivity|eauto].
Qed.

Lemma Long_FindForKey_total_witness :
  exists (m : MycatPartitionLongShard) i,
    Long_Init long_example = Ret m /\ find_for_key m (GInt KInt64 (-1)) = Ret i /\ 0 <= i < 3.
Proof.
  destruct long_example_init as [m E]. exists m.
  destruct (Long_FindForKey_total long_example m (GInt KInt64 (-1)) (-1)) as [i Hi];
    [cbn; lia|exact E|reflexivity|]. exists i. split; [exact E|exact Hi].
Defined.

(** * The string hash *)

(** The polynomial hash in base 31, modulo 2^64 and read as int64. *)
Definition ref_hash (cs : list Z) : Z := i64 (foldl (fun h c => 31 * h + c) 0 cs).

Lemma hash_step h c : i64 (i64 (i64 (Z.shiftl h 5) - h) + c) = i64 (31 * h + c).
Proof. rewrite Z.shiftl_mul_pow2 by lia. change (2 ^ 5) with 32. int_lia. Qed.

Lemma i64_foldl_hash h g cs :
  i64 h = i64 g ->
  i64 (foldl (fun h c => 31 * h + c) h cs) = i64 (foldl (fun h c => 31 * h + c) g cs).
Proof.
  revert h g. induction cs as [|c cs IH]; intros h g E; cbn [foldl]; [done|].
  apply IH. rewrite <- (i64_add_l (31 * h)), <- (i64_add_l (31 * g)).
  do 2 f_equal. int_lia.
Qed.

Lemma hash_loop_spec n i input h :
  0 <= i -> i + Z.of_nat n <= zlen input -> is_i64 h ->
  hash_loop n i input h =
    Ret (i64 (foldl (fun h c => 31 * h + c) h (take n (drop (Z.to_nat i) input)))).
Proof.
  revert i h. induction n as [|n IH]; intros i h Hi Hn Hh.
  - cbn. by rewrite i64_id.
  - cbn [hash_loop]. destruct (index_in_range input i) as (c & Hc & Hlk); [lia|].
    rewrite Hc. cbn [mbind outcome_bind]. rewrite hash_step.
    rewrite IH by (lia || apply i64_range).
    rewrite (drop_S _ _ _ Hlk). cbn [take foldl].
    replace (Z.to_nat (i + 1)) with (S (Z.to_nat i)) by lia. f_equal.
    apply i64_foldl_hash. by rewrite i64_id by apply i64_range.
Qed.

(** The hash of a slice of the text never reads outside it. *)
Lemma stringHash_spec s start end_ :
  stringHash s start end_ =
    let a := Z.max 0 start in let b := Z.min end_ (zlen (runes s)) in
    Ret (ref_hash (take (Z.to_nat (b - a)) (drop (Z.to_nat a) (runes s)))).
Proof.
  unfold stringHash, ref_hash. pose proof (zlen_nonneg (runes s)).
  replace (if start <? 0 then 0 else start) with (Z.max 0 start) by (destruct (start <? 0) eqn:?; lia).
  replace (if zlen (runes s) <? end_ then zlen (runes s) else end_)
    with (Z.min end_ (zlen (runes s))) by (destruct (zlen (runes s) <? end_) eqn:?; lia).
  cbn zeta. destruct (Z.le_gt_cases (Z.min end_ (zlen (runes s))) (Z.max 0 start)) as [Hle|Hgt].
  - replace (Z.to_nat (_ - _)) with O by lia. done.
  - rewrite hash_loop_spec; [done|lia|lia|unfold_int; lia].
Qed.

(** Once Init of a PartitionByString shard has accepted its configuration,
    a key of any integer or string type is sent to the table of the base-31
    hash of its configured slice; the lookup never panics and the table is one
    of the [shardNum]. *)
Theorem String_FindForKey_total m0 m key k :
  0 <= shardNum (long_shard m0) -> String_Init m0 = Ret m -> GetString key = Ret k ->
  exists i a b,
    find_for_key m key = Ret i /\ 0 <= i < shardNum (long_shard m0) /\
    segment_at (long_shard m) (ref_hash (take b (drop a (runes k)))) = Ret i.
Proof.
  intros Hn Hi Hk. unfold String_Init in Hi. apply bind_Ret in Hi as (long & Hl & Hi).
  apply bind_Ret in Hi as ([st en] & _ & [= <-]).
  apply Long_Init_ok in Hl as (E & _ & Hlen & Hok); [|done]. rewrite <- E in *.
  unfold find_for_key, MycatPartitionStringShard_FindForKey. rewrite Hk.
  cbn [mbind outcome_bind hashSliceStart hashSliceEnd long_shard].
  rewrite stringHash_spec. cbn [mbind outcome_bind].
  match goal with |- context [ref_hash ?l] => destruct (segment_at_ok long (ref_hash l)) as (i & Hs & Hb) end;
    [done|done|].
  exists i. do 2 eexists. split_and!; [exact Hs|lia|lia|exact Hs].
Qed.

Definition string_example : MycatPartitionStringShard :=
  mk_String long_example "-2:" 0 0.

Lemma string_example_init : exists m, String_Init string_example = Ret m.
Proof.
  destruct long_example_init as [long Hl]. unfold String_Init. cbn [long_shard string_example].
  rewrite Hl. eexists. reflexivity.
Qed.

Lemma String_FindForKey_total_witness :
  exists (m : MycatPartitionStringShard) i a b,
    find_for_key m (GString "order-42") = Ret i /\ 0 <= i < 3 /\
    segment_at (long_shard m) (ref_hash (take b (drop a (runes "order-42")))) = Ret i.
Proof.
  destruct string_example_init as [m E]. exists m.
  apply (String_FindForKey_total string_example m (GString "order-42") "order-42");
    [cbn; lia|exact E|reflexivity].
Defined.

(** * The consistent hash *)

Section consistent_hash.
Context `{TreeMapOk T}.
Implicit Types m : MycatPartitionMurmurHashShard T.

(** Every node put by the inner loop is bound to its shard; the other bindings
    are those that were there. *)
Lemma node_loop_get n k seed i buf (t : T) j :
  tm_get (node_loop n k seed i buf t) j = Some i \/
  tm_get (node_loop n k seed i buf t) j = tm_get t j.
Proof.
  revert k buf t. induction n as [|n IH]; intros k buf t; cbn [node_loop]; [by right|].
  match goal with |- context [tm_put ?h i t] => set (h' := h) end.
  edestruct (IH (k + 1)) as [E|E]; [left; exact E|].
  rewrite E, tm_get_put. case_decide; [by left|right; done].
Qed.

Lemma node_loop_keeps n k seed i buf (t : T) j :
  is_Some (tm_get t j) -> is_Some (tm_get (node_loop n k seed i buf t) j).
Proof.
  intros Hs. destruct (node_loop_get n k seed i buf t j) as [->| ->]; [eauto|done].
Qed.

Lemma node_loop_first n k seed i buf (t : T) :
  exists j, is_Some (tm_get (node_loop (S n) k seed i buf t) j).
Proof.
  cbn [node_loop]. match goal with |- context [tm_put ?h i t] => exists h end.
  apply node_loop_keeps. rewrite tm_get_put, decide_True by done. eauto.
Qed.

(** A shard with the same seed and bucket times. *)
Definition same_ring m m' : Prop :=
  seed m = seed m' /\ virtualBucketTimes m = virtualBucketTimes m' /\ weightMap m = weightMap m'.

Lemma bucket_nodes_same m m' i (t : T) :
  same_ring m m' -> bucket_nodes m i t = bucket_nodes m' i t.
Proof. intros (E1 & E2 & E3). unfold bucket_nodes, getWeight. by rewrite E1, E2, E3. Qed.

Lemma generate_succ m m' (t : T) :
  same_ring m m' -> 0 <= murmur_count m -> murmur_count m' = murmur_count m + 1 ->
  generateBucketMap m' t = bucket_nodes m (murmur_count m) (generateBucketMap m t).
Proof.
  intros Hs Hc0 E. unfold generateBucketMap. rewrite E.
  rewrite seqZ_app by lia. rewrite foldl_app. cbn [seqZ]. rewrite Z.add_0_l.
  assert (forall l (t : T), foldl (fun t i => bucket_nodes m' i t) t l =
                      foldl (fun t i => bucket_nodes m i t) t l) as K.
  { induction l as [|a l IH]; intros t'; cbn; [done|].
    by rewrite IH, (bucket_nodes_same m m') by done. }
  rewrite !K. rewrite (seqZ_cons (murmur_count m)) by lia. done.
Qed.

(** Every bucket of the ring is one of the shards. *)
Lemma generate_range m (l : list Z) (t : T) n :
  (forall i, i ∈ l -> 0 <= i < n) ->
  (forall j v, tm_get t j = Some v -> 0 <= v < n) ->
  forall j v, tm_get (foldl (fun t i => bucket_nodes m i t) t l) j = Some v -> 0 <= v < n.
Proof.
  revert t. induction l as [|a l IH]; intros t Hl Ht; cbn; [done|].
  apply IH; [set_solver|]. intros j v Hj. unfold bucket_nodes in Hj.
  match type of Hj with tm_get (node_loop ?n ?k ?s ?i ?b ?t) ?j = _ =>
    destruct (node_loop_get n k s i b t j) as [E|E] end.
  - rewrite E in Hj. injection Hj as <-. apply Hl. left.
  - rewrite E in Hj. eauto.
Qed.

Lemma foldl_keeps m l (t : T) j :
  is_Some (tm_get t j) -> is_Some (tm_get (foldl (fun t i => bucket_nodes m i t) t l) j).
Proof.
  revert t. induction l as [|a l IH]; intros t Ht; cbn; [done|]. apply IH, node_loop_keeps, Ht.
Qed.

Lemma generate_nonempty m :
  0 < murmur_count m -> 0 < i64 (virtualBucketTimes m * getWeight m 0) ->
  exists j, is_Some (tm_get (generateBucketMap m tm_new) j).
Proof.
  intros Hc Hv. unfold generateBucketMap. rewrite seqZ_cons by lia. cbn [foldl].
  unfold bucket_nodes at 2. destruct (Z.to_nat _) as [|n] eqn:E; [lia|].
  destruct (node_loop_first n 0 (seed m) 0 (String.append "SHARD-" (Itoa 0)) tm_new) as [j Hj].
  exists j. by apply foldl_keeps.
Qed.

Lemma bucket_lookup_ok (t : T) h n :
  (exists j, is_Some (tm_get t j)) -> (forall j v, tm_get t j = Some v -> 0 <= v < n) ->
  exists i, bucket_lookup t h = Ret i /\ 0 <= i < n.
Proof.
  intros [j Hj] Hr. unfold bucket_lookup.
  destruct (tm_ceiling h t) as [[k v]|] eqn:E.
  - apply tm_ceiling_Some in E as (_ & E & _). eauto.
  - destruct (tm_min t) as [[k v]|] eqn:E2.
    + apply tm_min_Some in E2 as [E2 _]. eauto.
    + pose proof (tm_min_None _ E2 j) as E3. rewrite E3 in Hj. by destruct Hj.
Qed.

(** When the bindings of [t'] are those of [t] except for keys bound to [n], a
    lookup in [t'] gives the shard it gave in [t], or [n]. *)
Lemma bucket_lookup_grow (t t' : T) h i i' n :
  (forall j, tm_get t' j = Some n \/ tm_get t' j = tm_get t j) ->
  (forall j, is_Some (tm_get t j) -> is_Some (tm_get t' j)) ->
  bucket_lookup t h = Ret i -> bucket_lookup t' h = Ret i' -> i' = i \/ i' = n.
Proof.
  intros Hg Hk Hi Hi'. unfold bucket_lookup in *.
  destruct (tm_ceiling h t') as [[k' v']|] eqn:E'.
  - injection Hi' as ->. apply tm_ceiling_Some in E' as (Hle' & Hget' & Hmin').
    destruct (Hg k') as [E1|E1]; [right; congruence|]. left. rewrite E1 in Hget'.
    destruct (tm_ceiling h t) as [[k v]|] eqn:E.
    + injection Hi as ->. apply tm_ceiling_Some in E as (Hle & Hget & Hmin).
      assert (k = k') as -> by (apply Z.le_antisymm; [apply Hmin|apply Hmin']; eauto).
      congruence.
    + by rewrite (tm_ceiling_None _ _ E k' Hle') in Hget'.
  - destruct (tm_ceiling h t) as [[k v]|] eqn:E.
    { apply tm_ceiling_Some in E as (Hle & Hget & _).
      destruct (Hk k) as [v' Hv']; [eauto|]. by rewrite (tm_ceiling_None _ _ E' k Hle) in Hv'. }
    destruct (tm_min t') as [[k' v']|] eqn:E2'; [|done]. injection Hi' as ->.
    apply tm_min_Some in E2' as (Hget' & Hmin').
    destruct (Hg k') as [E1|E1]; [right; congruence|]. left. rewrite E1 in Hget'.
    destruct (tm_min t) as [[k v]|] eqn:E2; [|done]. injection Hi as ->.
    apply tm_min_Some in E2 as (Hget & Hmin).
    assert (k = k') as -> by (apply Z.le_antisymm; [apply Hmin|apply Hmin']; eauto).
    congruence.
Qed.

Lemma Murmur_returns m key k :
  0 < murmur_count m -> 0 < virtualBucketTimes m <= max_i64 -> weightMap m = ∅ ->
  GetString key = Ret k ->
  exists i, find_for_key (Murmur_Init m) key = Ret i /\ 0 <= i < murmur_count m.
Proof.
  intros Hc Hv Hw Hk. unfold find_for_key, MycatPartitionMurmurHashShard_FindForKey.
  rewrite Hk. cbn [mbind outcome_bind]. apply bucket_lookup_ok.
  - apply generate_nonempty; [done|]. unfold getWeight. rewrite Hw, lookup_empty.
    change (default defaultWeight None) with 1.
    rewrite Z.mul_1_r, i64_id by (unfold_int; lia). lia.
  - apply (generate_range m); [intros i Hi; apply elem_of_seqZ in Hi; lia|].
    intros j v Hj. by rewrite tm_get_new in Hj.
Qed.

(** A shard that NewMycatPartitionMurmurHashShard built for at least one
    table with a positive number of virtual buckets (160 when none is given)
    sends every key to one of its tables. *)
Theorem Murmur_FindForKey_total seedStr vbtStr count m key k :
  NewMycatPartitionMurmurHashShard seedStr vbtStr count = Ret m ->
  0 < count -> 0 < virtualBucketTimes m -> GetString key = Ret k ->
  exists i, find_for_key (Murmur_Init m) key = Ret i /\ 0 <= i < count.
Proof.
  intros Hm Hc Hv Hk. unfold NewMycatPartitionMurmurHashShard in Hm.
  apply bind_Ret in Hm as (sd & _ & Hm). apply bind_Ret in Hm as (vbt & Hvbt & [= <-]).
  cbn in Hv. apply ParseInt_range in Hvbt.
  apply (Murmur_returns (mk_Murmur sd count vbt ∅ tm_new) key k);
    [done|cbn; unfold_int; lia|done|done].
Qed.

(** Growing the ring by one shard moves a key only to the new shard: every
    key keeps its shard or goes to the added one. *)
Theorem Murmur_consistent m m' key k i i' :
  same_ring m m' -> 0 <= murmur_count m -> murmur_count m' = murmur_count m + 1 ->
  GetString key = Ret k ->
  find_for_key (Murmur_Init m) key = Ret i -> find_for_key (Murmur_Init m') key = Ret i' ->
  i' = i \/ i' = murmur_count m.
Proof.
  intros Hs Hc Hc' Hk Hi Hi'. unfold find_for_key, MycatPartitionMurmurHashShard_FindForKey in *.
  rewrite Hk in *. cbn [mbind outcome_bind Murmur_Init bucketMap seed] in *.
  pose proof Hs as (E1 & _). rewrite <- E1 in Hi'.
  rewrite (generate_succ m m') in Hi' by done.
  eapply bucket_lookup_grow; [| |exact Hi|exact Hi'].
  - intros j. apply node_loop_get.
  - intros j. apply node_loop_keeps.
Qed.

End consistent_hash.

(** ** A concrete ordered map: finite maps searched by key *)

Fixpoint least (p : Z -> bool) (l : list (Z * Z)) : option (Z * Z) :=
  match l with
  | [] => None
  | (k, v) :: l' =>
      if p k then
        match least p l' with
        | Some (kb, vb) => if k <? kb then Some (k, v) else Some (kb, vb)
        | None => Some (k, v)
        end
      else least p l'
  end.

Lemma least_spec p l :
  match least p l with
  | Some (k, v) => (k, v) ∈ l /\ p k = true /\ forall e, e ∈ l -> p e.1 = true -> k <= e.1
  | None => forall e, e ∈ l -> p e.1 = false
  end.
Proof.
  induction l as [|[k v] l IH]; cbn; [intros e He; by apply elem_of_nil in He|].
  destruct (least p l) as [[kb vb]|] eqn:E.
  - destruct IH as (Hin & Hp & Hmin). destruct (p k) eqn:Ep.
    + destruct (k <? kb) eqn:El; (split_and!; [rewrite elem_of_cons; auto|done|]).
      * intros e He Hpe. apply elem_of_cons in He as [->|He]; [cbn; lia|].
        specialize (Hmin e He Hpe). lia.
      * intros e He Hpe. apply elem_of_cons in He as [->|He]; [cbn; lia|]. auto.
    + split_and!; [rewrite elem_of_cons; auto|done|].
      intros e He Hpe. apply elem_of_cons in He as [->|He]; [cbn in Hpe; congruence|auto].
  - destruct (p k) eqn:Ep.
    + split_and!; [left|done|]. intros e He Hpe.
      apply elem_of_cons in He as [->|He]; [cbn; lia|]. by rewrite IH in Hpe.
    + intros e He. apply elem_of_cons in He as [->|He]; [done|auto].
Qed.

#[global] Instance gmap_TreeMap : TreeMap (gmap Z Z) := {
  tm_new := ∅;
  tm_put k v t := <[k := v]> t;
  tm_ceiling k t := least (fun j => k <=? j) (map_to_list t);
  tm_min t := least (fun _ => true) (map_to_list t) }.

#[global] Instance gmap_TreeMapOk : TreeMapOk (gmap Z Z).
Proof.
  refine {| tm_get t k := t !! k |}; cbn [tm_new tm_put tm_ceiling tm_min gmap_TreeMap].
  - intros k. apply lookup_empty.
  - intros k v t j. rewrite lookup_insert. apply decide_ext. naive_solver.
  - intros k t k' v E. pose proof (least_spec (fun j => k <=? j) (map_to_list t)) as L.
    rewrite E in L. destruct L as (Hin & Hp & Hmin). rewrite elem_of_map_to_list in Hin.
    split_and!; [lia|done|]. intros j Hj [w Hw].
    apply (Hmin (j, w)); [by apply elem_of_map_to_list|cbn; lia].
  - intros k t E j Hj. pose proof (least_spec (fun j => k <=? j) (map_to_list t)) as L.
    rewrite E in L. apply eq_None_not_Some. intros [w Hw].
    specialize (L (j, w) ltac:(by apply elem_of_map_to_list)). cbn in L. lia.
  - intros t k' v E. pose proof (least_spec (fun _ => true) (map_to_list t)) as L.
    rewrite E in L. destruct L as (Hin & _ & Hmin). rewrite elem_of_map_to_list in Hin.
    split; [done|]. intros j [w Hw]. apply (Hmin (j, w)); [by apply elem_of_map_to_list|done].
  - intros t E j. pose proof (least_spec (fun _ => true) (map_to_list t)) as L.
    rewrite E in L. apply eq_None_not_Some. intros [w Hw].
    by specialize (L (j, w) ltac:(by apply elem_of_map_to_list)).
Defined.

Definition ring_example (n : Z) : MycatPartitionMurmurHashShard (gmap Z Z) :=
  mk_Murmur 0 n 8 ∅ ∅.

Lemma Murmur_FindForKey_total_witness :
  exists i, find_for_key (Murmur_Init (T := gmap Z Z) (mk_Murmur 0 2 160 ∅ tm_new))
    (GString "hello, world") = Ret i /\ 0 <= i < 2.
Proof.
  apply (Murmur_FindForKey_total "0" "" 2 (mk_Murmur 0 2 160 ∅ tm_new)
           (GString "hello, world") "hello, world");
    [reflexivity|lia|cbn; lia|reflexivity].
Defined.

Lemma Murmur_consistent_witness :
  exists i i', find_for_key (Murmur_Init (ring_example 2)) (GString "-46") = Ret i /\
    find_for_key (Murmur_Init (ring_example 3)) (GString "-46") = Ret i' /\ (i' = i \/ i' = 2).
Proof.
  destruct (Murmur_returns (ring_example 2) (GString "-46") "-46") as (i & E & _);
    [cbn; lia|cbn; unfold_int; lia|reflexivity|reflexivity|].
  destruct (Murmur_returns (ring_example 3) (GString "-46") "-46") as (i' & E' & _);
    [cbn; lia|cbn; unfold_int; lia|reflexivity|reflexivity|].
  exists i, i'. split; [exact E|]. split; [exact E'|].
  apply (Murmur_consistent (ring_example 2) (ring_example 3) (GString "-46") "-46" i i');
    [split_and!; reflexivity|cbn; lia|reflexivity|reflexivity|exact E|exact E'].
Defined.

(** * Padding and modulo *)

Fixpoint is_digits (s : string) : bool :=
  match s with
  | EmptyString => true
  | String c r => match digit_val c with Some _ => is_digits r | None => false end
  end.

Lemma is_digits_append s t :
  is_digits (String.append s t) = is_digits s && is_digits t.
Proof.
  induction s as [|c s IH]; [done|]. rewrite append_cons. cbn.
  destruct (digit_val c); [apply IH|done].
Qed.

Lemma is_digits_substring s n m : is_digits s = true -> is_digits (String.substring n m s) = true.
Proof.
  revert n m. induction s as [|c s IH]; intros [|n] [|m] H; cbn in *; try done.
  - destruct (digit_val c); [auto|done].
  - destruct (digit_val c); [auto|done].
  - destruct (digit_val c); [auto|done].
Qed.

Lemma digits_val_bound acc s :
  0 <= acc -> is_digits s = true ->
  exists v, digits_val acc s = Some v /\ 0 <= v < (acc + 1) * 10 ^ slen s.
Proof.
  revert acc. induction s as [|c s IH]; intros acc Ha H; cbn in H.
  - exists acc. split; [done|]. change (slen "") with 0. lia.
  - destruct (digit_val c) as [d|] eqn:E; [|done]. pose proof (digit_val_range _ _ E).
    destruct (IH (acc * 10 + d)) as (v & Hv & Hb); [lia|done|].
    exists v. split; [cbn; by rewrite E|].
    rewrite slen_cons, Z.pow_add_r by (try apply slen_nonneg; lia).
    assert (0 < 10 ^ slen s) by (apply Z.pow_pos_nonneg; [lia|apply slen_nonneg]). nia.
Qed.

Lemma is_digits_fmt fuel n acc :
  0 <= n -> is_digits acc = true -> is_digits (fmt_digits fuel n acc) = true.
Proof.
  revert n acc. induction fuel as [|f IH]; intros n acc Hn Ha; cbn; [done|].
  destruct (n <? 10) eqn:E; cbn.
  - by rewrite digit_val_digit by lia.
  - apply IH; [apply Z.div_pos; lia|]. cbn.
    by rewrite digit_val_digit by (apply Z.mod_pos_bound; lia).
Qed.

Lemma is_digits_times n s : is_digits s = true -> is_digits (times s n) = true.
Proof.
  intros Hs. unfold times. generalize (Z.to_nat n) as k. intros k.
  assert (forall k out, is_digits out = true -> is_digits (times_loop s k out) = true) as K;
    [|by apply K].
  clear k. induction k as [|k IH]; intros out Ho; cbn; [done|].
  apply IH. by rewrite is_digits_append, Ho, Hs.
Qed.

(** The padded key of FindForKey: the key cut or padded to [padLength]. *)
Definition padded_key (m : MycatPartitionPaddingModShard) (h : Z) : outcome string :=
  let keyStr := FormatInt h in
  if padLength m <? slen keyStr then ssub keyStr 0 (padLength m)
  else if padFrom m =? PaddingModLeftEnd then
    if h <? 0 then Err (Errorf "padding left to a negative is not allowed")
    else Ret (Left keyStr (padLength m) "0")
  else Ret (Right keyStr (padLength m) "0").

Lemma padded_key_length m h :
  0 < padLength m -> (padFrom m = PaddingModLeftEnd -> 0 <= h) ->
  exists k, padded_key m h = Ret k /\ slen k = padLength m /\ (0 <= h -> is_digits k = true).
Proof.
  intros Hp Hh. unfold padded_key.
  assert (0 <= h -> is_digits (FormatInt h) = true) as Hd.
  { intros H0. unfold FormatInt. destruct (h <? 0) eqn:E; [lia|]. by apply is_digits_fmt. }
  destruct (padLength m <? slen (FormatInt h)) eqn:E1.
  - destruct (ssub_in_range (FormatInt h) 0 (padLength m)) as (k & Hk & Hl); [lia|lia|].
    exists k. split_and!; [done|lia|]. intros H0. unfold ssub in Hk. case_decide; [|done].
    injection Hk as <-. by apply is_digits_substring, Hd.
  - destruct (padFrom m =? PaddingModLeftEnd) eqn:E2.
    + destruct (h <? 0) eqn:E3; [lia|].
      eexists. split_and!; [done|rewrite slen_Left by done; lia|].
      intros H0. unfold Left. by rewrite is_digits_append, is_digits_times, Hd.
    + eexists. split_and!; [done|rewrite slen_Right by done; lia|].
      intros H0. unfold Right. by rewrite is_digits_append, is_digits_times, Hd.
Qed.

Lemma checkParam_Ret m :
  checkParam m = Ret tt ->
  (padFrom m = PaddingModLeftEnd \/ padFrom m = PaddingModRightEnd) /\ 2 <= mod_ m /\
  0 <= modBegin m < modEnd m /\ 0 < padLength m /\ modEnd m - modBegin m <= padLength m.
Proof.
  unfold checkParam, PaddingModDefaultMod.
  destruct (padFrom m =? PaddingModLeftEnd) eqn:E1, (padFrom m =? PaddingModRightEnd) eqn:E2;
    cbn [negb andb]; try discriminate;
  destruct (mod_ m <? 2) eqn:E3; try discriminate;
  destruct (modBegin m <? 0) eqn:E4, (modEnd m <=? modBegin m) eqn:E5; cbn [orb]; try discriminate;
  destruct (padLength m <=? 0) eqn:E6; try discriminate;
  destruct (padLength m <? modEnd m - modBegin m) eqn:E7; try discriminate;
  intros _; split_and!; lia.
Qed.

Lemma ParseInt_digits_nonneg s n : is_digits s = true -> ParseInt s = Ret n -> 0 <= n.
Proof.
  destruct s as [|c r]; [done|]. intros Hd H. cbn in Hd.
  destruct (digit_val c) eqn:Hc; [|done].
  rewrite (ParseInt_unsigned c r) in H by (rewrite Hc; eauto). invert_ret.
  by apply udigits_nonneg in H0.
Qed.

Lemma PaddingMod_bound m key v i :
  PaddingMod_Init m = Ret tt -> NumValue key = Ret v -> 0 <= v ->
  find_for_key m key = Ret i -> 0 <= i < mod_ m.
Proof.
  intros Hi Hv H0 Hf. apply checkParam_Ret in Hi as (Hpf & Hm & Hb & Hp & _).
  destruct (padded_key_length m v) as (k & Hk & Hl & Hd); [done|done|].
  unfold find_for_key, MycatPartitionPaddingModShard_FindForKey in Hf. rewrite Hv in Hf.
  cbn [mbind outcome_bind] in Hf. fold (padded_key m v) in Hf. rewrite Hk in Hf.
  cbn [mbind outcome_bind] in Hf. apply bind_Ret in Hf as (seg & Hs & Hf).
  apply bind_Ret in Hf as (n & Hn & Hf). apply bind_Ret in Hf as (r & Hr & [= <-]).
  apply go_rem_Ret in Hr as [_ ->].
  assert (is_digits seg = true) as Hds.
  { unfold ssub in Hs. case_decide; [|done]. injection Hs as <-. by apply is_digits_substring, Hd. }
  pose proof (ParseInt_digits_nonneg _ _ Hds Hn). apply ParseInt_range in Hn.
  pose proof (Abs_nonneg n Hn ltac:(unfold_int; lia)). apply Z.rem_bound_pos; lia.
Qed.

Lemma PaddingMod_returns m key v :
  PaddingMod_Init m = Ret tt -> modEnd m <= padLength m -> modEnd m - modBegin m <= 18 ->
  NumValue key = Ret v -> 0 <= v ->
  exists i, find_for_key m key = Ret i /\ 0 <= i < mod_ m.
Proof.
  intros Hi Hend H18 Hv H0. apply checkParam_Ret in Hi as (Hpf & Hm & Hb & Hp & _).
  destruct (padded_key_length m v) as (k & Hk & Hl & Hd); [done|done|].
  destruct (ssub_in_range k (modBegin m) (modEnd m)) as (seg & Hseg & Hsl); [lia|lia|].
  assert (is_digits seg = true) as Hds.
  { unfold ssub in Hseg. case_decide; [|done]. injection Hseg as <-. by apply is_digits_substring, Hd. }
  destruct (digits_val_bound 0 seg) as (n & Hn & Hnb); [lia|done|].
  assert (10 ^ slen seg <= 10 ^ 18) as H10 by (apply Z.pow_le_mono_r; lia).
  change (10 ^ 18) with 1000000000000000000 in H10.
  assert (ParseInt seg = Ret n) as Hpi.
  { apply Atoi_digits; [unfold slen in Hsl; lia|done|lia]. }
  unfold find_for_key, MycatPartitionPaddingModShard_FindForKey. rewrite Hv.
  cbn [mbind outcome_bind]. fold (padded_key m v). rewrite Hk. cbn [mbind outcome_bind].
  rewrite Hseg. cbn [mbind outcome_bind]. rewrite Hpi. cbn [mbind outcome_bind].
  unfold go_rem. destruct (mod_ m =? 0) eqn:E; [lia|]. eexists. split; [reflexivity|].
  pose proof (Abs_nonneg n ltac:(unfold_int; lia) ltac:(unfold_int; lia)).
  apply Z.rem_bound_pos; lia.
Qed.

(** A padding-mod shard whose modulo segment lies inside the padded key and
    has at most 18 digits sends every non-negative number to one of its [mod]
    tables, without error or panic. *)
Theorem PaddingMod_total m key v :
  PaddingMod_Init m = Ret tt -> modEnd m <= padLength m -> modEnd m - modBegin m <= 18 ->
  NumValue key = Ret v -> 0 <= v ->
  exists i, find_for_key m key = Ret i /\ 0 <= i < mod_ m.
Proof. apply PaddingMod_returns. Qed.

Lemma PaddingMod_total_witness :
  exists i, find_for_key newDefaultMycatPartitionPaddingModShard (GInt KInt64 1234567) = Ret i /\
    0 <= i < 2.
Proof.
  apply (PaddingMod_total newDefaultMycatPartitionPaddingModShard (GInt KInt64 1234567) 1234567);
    [reflexivity|vm_compute; discriminate|vm_compute; discriminate|reflexivity|lia].
Defined.

(** Init checks the length of the modulo segment but not that it ends inside
    the padded key: a configuration it accepts with [padLength < modEnd] panics
    on every number that padding accepts. *)
Theorem PaddingMod_accepted_panics m key v :
  PaddingMod_Init m = Ret tt -> padLength m < modEnd m ->
  NumValue key = Ret v -> (padFrom m = PaddingModLeftEnd -> 0 <= v) ->
  find_for_key m key = Panic "slice bounds out of range".
Proof.
  intros Hi Hend Hv H0. apply checkParam_Ret in Hi as (_ & _ & Hb & Hp & _).
  destruct (padded_key_length m v) as (k & Hk & Hl & _); [done|done|].
  unfold find_for_key, MycatPartitionPaddingModShard_FindForKey. rewrite Hv.
  cbn [mbind outcome_bind]. fold (padded_key m v). rewrite Hk. cbn [mbind outcome_bind].
  unfold ssub. rewrite decide_False by lia. done.
Qed.

Lemma PaddingMod_accepted_panics_witness :
  find_for_key (newMycatPartitionPaddingModShard 0 5 10 12 4) (GInt KInt64 7) =
    Panic "slice bounds out of range".
Proof.
  apply (PaddingMod_accepted_panics (newMycatPartitionPaddingModShard 0 5 10 12 4)
           (GInt KInt64 7) 7); [reflexivity|cbn; lia|reflexivity|lia].
Defined.
