(* ===== verification/Models.v ===== *)
(** models/shard.go, models/shard_rule.go, models/numkey.go, models/slice.go,
    models/user.go, models/namespace.go: the configuration of a namespace and
    the checks that accept or reject it before the proxy loads it. The names of
    the Go package live in the module [models], as several of them are declared
    again by the router package. *)

From Stdlib Require Import Ascii String.
From S2P Require Import Prelude GoStr NumKey ShardMycat.

Definition ErrLocationsCount : error := Named "ErrLocationsCount".
Definition ErrDateRangeCount : error := Named "ErrDateRangeCount".
Definition ErrDateRangeOverlap : error := Named "ErrDateRangeOverlap".
Definition ErrUnknownRuleType : error := Named "ErrUnknownRuleType".

(** * The regular expression ^(\S+?)\[(\d+)-(\d+)\]$ *)

Definition is_digit (c : ascii) : bool :=
  match digit_val c with Some _ => true | None => false end.

(** [\S]: none of tab, newline, form feed, carriage return, space. *)
Definition not_space (c : ascii) : bool :=
  let b := byte_of c in
  negb ((b =? 9) || (b =? 10) || (b =? 12) || (b =? 13) || (b =? 32)).

Fixpoint span_digits (s : string) : string * string :=
  match s with
  | String c t => if is_digit c then let '(a, b) := span_digits t in (String c a, b)
                  else (EmptyString, s)
  | EmptyString => (EmptyString, EmptyString)
  end.

(** [\[(\d+)-(\d+)\]$] at the head of the text. *)
Definition match_bounds (s : string) : option (string * string) :=
  match s with
  | String "[" t =>
      match span_digits t with
      | (String _ _ as l, String "-" t') =>
          match span_digits t' with
          | (String _ _ as r, String "]" EmptyString) => Some (l, r)
          | _ => None
          end
      | _ => None
      end
  | _ => None
  end.

(** The reluctant prefix: the shortest non-empty run after which the bounds
    match up to the end of the text. *)
Fixpoint rangeDatabaseRegex (db : string) : option (string * string * string) :=
  match db with
  | EmptyString => None
  | String c t =>
      if not_space c then
        match match_bounds t with
        | Some (l, r) => Some (String c EmptyString, l, r)
        | None =>
            match rangeDatabaseRegex t with
            | Some (p, l, r) => Some (String c p, l, r)
            | None => None
            end
        end
      else None
  end.

(** The body of the loop of [getRealDatabases]: the names one entry stands for.
    With the largest int as right bound [i <= rightBound] always holds and the
    loop appends until the memory is exhausted. *)
Definition real_databases_of (db : string) : outcome (list string) :=
  match rangeDatabaseRegex db with
  | Some (dbPrefix, leftBoundStr, rightBoundStr) =>
      match Atoi leftBoundStr with
      | Ret leftBound =>
          match Atoi rightBoundStr with
          | Ret rightBound =>
              if rightBound <=? leftBound
              then Err (Errorf "invalid bound value of database list: %s")
              else if rightBound =? max_i64 then Panic "out of memory"
              else Ret (map (fun i => String.append dbPrefix (Itoa i))
                            (seqZ leftBound (rightBound - leftBound + 1)))
          | _ => Err (Errorf "invalid right bound value of database list: %s")
          end
      | _ => Err (Errorf "invalid left bound value of database list: %s")
      end
  | None => Ret [db]
  end.

(** Declared in models/shard.go and, with the same text, in proxy/router/rule.go. *)
Definition getRealDatabases (dbs : list string) : outcome (list string) :=
  foldl (fun acc db => ret ← acc; l ← real_databases_of db; Ret (ret ++ l)) (Ret []) dbs.

Definition includeSlice (slices : list string) (sliceName : string) : bool :=
  existsb (fun s => String.eqb s sliceName) slices.

Module models.

Definition ShardDefault : string := "default".
Definition ShardGlobal : string := "global".
Definition ShardLinked : string := "linked".
Definition ShardMod : string := "mod".
Definition ShardHash : string := "hash".
Definition ShardRange : string := "range".
Definition ShardYear : string := "date_year".
Definition ShardMonth : string := "date_month".
Definition ShardDay : string := "date_day".
Definition ShardMycatMod : string := "mycat_mod".
Definition ShardMycatLong : string := "mycat_long".
Definition ShardMycatString : string := "mycat_string".
Definition ShardMycatMURMUR : string := "mycat_murmur".
Definition ShardMycatPaddingMod : string := "mycat_padding_mod".

Record Shard := mk_Shard {
  DB : string; Table : string; ParentTable : string; Type_ : string; Key : string;
  Locations : list Z; Slices : list string; DateRange : list string; TableRowLimit : Z;
  Databases : list string;
  PartitionCount : string; PartitionLength : string;
  HashSlice : string;
  Seed : string; VirtualBucketTimes : string;
  PadFrom : string; PadLength : string; ModBegin : string; ModEnd : string }.

Definition IsMycatShardingRule (ruleType : string) : bool :=
  String.eqb ruleType ShardMod || String.eqb ruleType ShardMycatLong ||
  String.eqb ruleType ShardMycatMURMUR || String.eqb ruleType ShardMycatPaddingMod ||
  String.eqb ruleType ShardMycatString.

(** ** models/numkey.go: the parsers of the router, with the dates checked. *)

Definition or_illegal {A} (m : outcome A) : outcome A :=
  match m with Err _ => Err ErrDateRangeIllegal | _ => m end.

Definition ParseNumSharding (Locations : list Z) (TableRowLimit : Z) :
    outcome (list NumKeyRange) :=
  let tableCount := table_count Locations in
  if tableCount <? 0 then Panic "makeslice: len out of range"
  else Ret (map (fun i => mk_range (i64 (i * TableRowLimit)) (i64 ((i + 1) * TableRowLimit)))
                (seqZ 0 tableCount)).

Definition ParseDayRange (dateRange : string) : outcome (list Z) :=
  match SplitN2 "-" dateRange with
  | [a] =>
      if negb (slen a =? 8) then Err ErrDateRangeIllegal
      else _ ← or_illegal (ParseDate8 a); dateNum ← Atoi a; Ret [dateNum]
  | [a; b] =>
      if negb (slen a =? 8) || negb (slen b =? 8) then Err ErrDateRangeIllegal
      else
        let '(a, b) := if sltb b a then (b, a) else (a, b) in
        begin ← ParseDate8 a;
        end_ ← ParseDate8 b;
        let daysCount := days_between begin end_ in
        mapM (fun i => Atoi (format_ymd "" (add_days i begin)))
             (seq 0 (Z.to_nat (daysCount + 1)))
  | _ => Err ErrDateRangeIllegal
  end.

Definition ParseMonthRange (dateRange : string) : outcome (list Z) :=
  match SplitN2 "-" dateRange with
  | [a] =>
      if negb (slen a =? 6) then Err ErrDateRangeIllegal
      else _ ← or_illegal (ParseDate6 a); dateNum ← Atoi a; Ret [dateNum]
  | [a; b] =>
      if negb (slen a =? 6) || negb (slen b =? 6) then Err ErrDateRangeIllegal
      else
        let '(a, b) := if sltb b a then (b, a) else (a, b) in
        _ ← or_illegal (ParseDate6 a);
        by_s ← ssub a 0 4; beginYear ← Atoi by_s;
        bm_s ← ssub a 4 (slen a); beginMonth ← Atoi bm_s;
        _ ← or_illegal (ParseDate6 b);
        ey_s ← ssub b 0 4; endYear ← Atoi ey_s;
        em_s ← ssub b 4 (slen b); endMonth ← Atoi em_s;
        let monthCount := (endYear - beginYear) * 12 + endMonth - beginMonth + 1 in
        Ret (month_loop (Z.to_nat monthCount) beginYear beginMonth)
  | _ => Err ErrDateRangeIllegal
  end.

Definition ParseYearRange (dateRange : string) : outcome (list Z) :=
  match SplitN2 "-" dateRange with
  | [a] =>
      if negb (slen a =? 4) then Err ErrDateRangeIllegal
      else _ ← or_illegal (ParseDate4 a); dateNum ← Atoi a; Ret [dateNum]
  | [a; b] =>
      let '(a, b) := if sltb b a then (b, a) else (a, b) in
      _ ← or_illegal (ParseDate4 a);
      beginYear ← Atoi a;
      _ ← or_illegal (ParseDate4 b);
      endYear ← Atoi b;
      Ret (seqZ beginYear (endYear - beginYear + 1))
  | _ => Err ErrDateRangeIllegal
  end.

(** ** models/shard_rule.go *)

(** The loop over [locations]; [i] counts the slices. *)
Fixpoint verify_locations (i : Z) (locations : list Z) (sumTables : Z)
    (tableToSlice : gmap Z Z) {struct locations} : gmap Z Z :=
  match locations with
  | [] => tableToSlice
  | n :: ls =>
      verify_locations (i + 1) ls (i64 (sumTables + n))
        (foldl (fun m j => <[i64 (j + sumTables) := i]> m) tableToSlice (seqZ 0 n))
  end.

Definition verifyHashRuleSliceInfos (locations : list Z) (slices : list string) :
    outcome (gmap Z Z) :=
  if negb (zlen locations =? zlen slices) then Err ErrLocationsCount
  else Ret (verify_locations 0 locations 0 ∅).

Definition msize (m : gmap Z Z) : Z := Z.of_nat (size m).

Definition verifyMycatHashRuleSliceInfos (locations : list Z) (slices databases : list string) :
    outcome (gmap Z Z) :=
  tableToSlice ← verifyHashRuleSliceInfos locations slices;
  realDatabaseList ← getRealDatabases databases;
  if negb (msize tableToSlice =? zlen realDatabaseList) then Err ErrLocationsCount
  else Ret tableToSlice.

(** The loop of the three date checks, over the parser of the kind of range. *)
Fixpoint verify_dates (parse : string -> outcome (list Z)) (dateRange : list string)
    (subTableIndexs : list Z) : outcome unit :=
  match dateRange with
  | [] => Ret tt
  | r :: rs =>
      numbers ← parse r;
      overlap ← match last subTableIndexs with
                | Some z => n0 ← index numbers 0; Ret (n0 <=? z)
                | None => Ret false
                end;
      if (overlap : bool) then Err ErrDateRangeOverlap
      else verify_dates parse rs (subTableIndexs ++ numbers)
  end.

Definition verifyDateDayRuleSliceInfos (dateRange slices : list string) : outcome unit :=
  if negb (zlen dateRange =? zlen slices) then Err ErrDateRangeCount
  else verify_dates ParseDayRange dateRange [].
Definition verifyDateMonthRuleSliceInfos (dateRange slices : list string) : outcome unit :=
  if negb (zlen dateRange =? zlen slices) then Err ErrDateRangeCount
  else verify_dates ParseMonthRange dateRange [].
Definition verifyDateYearRuleSliceInfos (dateRange slices : list string) : outcome unit :=
  if negb (zlen dateRange =? zlen slices) then Err ErrDateRangeCount
  else verify_dates ParseYearRange dateRange [].

Definition verifyGlobalTableRuleSliceInfos (locations : list Z) (slices databases : list string) :
    outcome unit :=
  tableToSlice ← verifyHashRuleSliceInfos locations slices;
  if negb (zlen databases =? 0) then
    realDatabaseList ← getRealDatabases databases;
    if negb (msize tableToSlice =? zlen realDatabaseList) then Err ErrLocationsCount
    else Ret tt
  else Ret tt.

Definition toIntArray (str : string) : outcome (list Z) :=
  mapM Atoi (Split "," (remove_char " " str)).

Definition verifyMycatPatitionLongShard (shardNum : Z) (partitionCount partitionLength : string) :
    outcome unit :=
  countList ← toIntArray partitionCount;
  lengthList ← toIntArray partitionLength;
  if negb (zlen countList =? zlen lengthList) then Err ErrScope else
  let segmentLength := table_count countList in
  if negb (segmentLength =? shardNum) then Err ErrSegmentLength else
  if segmentLength + 1 <? 0 then Panic "makeslice: len out of range" else
  '(ai, _) ← fill_ai (zip countList lengthList) 0
               (replicate (Z.to_nat (segmentLength + 1)) 0);
  last ← index ai (zlen ai - 1);
  if negb (last =? ShardMycat.PartitionLength) then Err ErrPartitionScope else Ret tt.

Definition verifyHashSliceValue (str : string) : outcome unit :=
  if String.eqb str "" then Ret tt else _ ← Atoi str; Ret tt.

Definition verifyHashSliceStartEnd (hashSliceStr : string) : outcome unit :=
  match Split ":" (TrimSpace hashSliceStr) with
  | [s] => _ ← Atoi s; Ret tt
  | [s; e] =>
      _ ← wrap "parse hash slice start error: %v" (verifyHashSliceValue s);
      _ ← wrap "parse hash slice end error: %v" (verifyHashSliceValue e);
      Ret tt
  | _ => Err (Errorf "invalid hash slice str")
  end.

Definition verifyMycatPartitionStringShard (shardNum : Z)
    (partitionCount partitionLength hashSliceStr : string) : outcome unit :=
  _ ← verifyMycatPatitionLongShard shardNum partitionCount partitionLength;
  verifyHashSliceStartEnd hashSliceStr.

Definition verifyMycatPartitionMurmurHashShard (seedStr virtualBucketTimesStr : string)
    (count : Z) : outcome unit :=
  _ ← Atoi seedStr;
  let virtualBucketTimesStr := if String.eqb virtualBucketTimesStr "" then "160"%string
                               else virtualBucketTimesStr in
  _ ← Atoi virtualBucketTimesStr;
  Ret tt.

Definition verifyMycatPartitionPaddingModShard
    (padFromStr padLengthStr modBeginStr modEndStr : string) (mod_ : Z) : outcome unit :=
  padFrom ← Atoi padFromStr;
  padLength ← Atoi padLengthStr;
  modBegin ← Atoi modBeginStr;
  modEnd ← Atoi modEndStr;
  if negb (padFrom =? PaddingModLeftEnd) && negb (padFrom =? PaddingModRightEnd)
  then Err (Errorf "invalid padding mod mode: %d") else
  if mod_ <? PaddingModDefaultMod then Err (Errorf "invalid padding mod number: %d") else
  if (modBegin <? 0) || (modEnd <=? modBegin)
  then Err (Errorf "invalid padding modBegin or modEnd: %d, %d") else
  if padLength <=? 0 then Err (Errorf "invalid padding mod padLength: %d") else
  if padLength <? modEnd - modBegin
  then Err (Errorf "invalid padding mod, padLength is less than modBegin - modEnd: %d, %d, %d") else
  Ret tt.

Definition verifyHashRule (s : Shard) : outcome unit :=
  _ ← verifyHashRuleSliceInfos (Locations s) (Slices s); Ret tt.
Definition verifyModRule (s : Shard) : outcome unit :=
  _ ← verifyHashRuleSliceInfos (Locations s) (Slices s); Ret tt.
Definition verifyRangeRule (s : Shard) : outcome unit :=
  tableToSlice ← verifyHashRuleSliceInfos (Locations s) (Slices s);
  tableCount ← ParseNumSharding (Locations s) (TableRowLimit s);
  if negb (zlen tableCount =? msize tableToSlice)
  then Err (Errorf "range space %d not equal tables %d") else Ret tt.
Definition verifyDayRule (s : Shard) : outcome unit :=
  verifyDateDayRuleSliceInfos (DateRange s) (Slices s).
Definition verifyMonthRule (s : Shard) : outcome unit :=
  verifyDateMonthRuleSliceInfos (DateRange s) (Slices s).
Definition verifyYearRule (s : Shard) : outcome unit :=
  verifyDateYearRuleSliceInfos (DateRange s) (Slices s).
Definition verifyMycatModRule (s : Shard) : outcome unit :=
  _ ← verifyMycatHashRuleSliceInfos (Locations s) (Slices s) (Databases s); Ret tt.
Definition verifyMycatLongRule (s : Shard) : outcome unit :=
  tableToSlice ← verifyMycatHashRuleSliceInfos (Locations s) (Slices s) (Databases s);
  verifyMycatPatitionLongShard (msize tableToSlice) (PartitionCount s) (PartitionLength s).
Definition verifyMycatStringRule (s : Shard) : outcome unit :=
  tableToSlice ← verifyMycatHashRuleSliceInfos (Locations s) (Slices s) (Databases s);
  verifyMycatPartitionStringShard (msize tableToSlice) (PartitionCount s) (PartitionLength s)
    (HashSlice s).
Definition verifyMycatMURMURRule (s : Shard) : outcome unit :=
  tableToSlice ← verifyMycatHashRuleSliceInfos (Locations s) (Slices s) (Databases s);
  verifyMycatPartitionMurmurHashShard (Seed s) (VirtualBucketTimes s) (msize tableToSlice).
Definition verifyMycatPaddingRule (s : Shard) : outcome unit :=
  tableToSlice ← verifyMycatHashRuleSliceInfos (Locations s) (Slices s) (Databases s);
  verifyMycatPartitionPaddingModShard (PadFrom s) (PadLength s) (ModBegin s) (ModEnd s)
    (msize tableToSlice).
Definition verifyGlobalRule (s : Shard) : outcome unit :=
  verifyGlobalTableRuleSliceInfos (Locations s) (Slices s) (Databases s).

Definition ruleVerifyFuncMapping : list (string * (Shard -> outcome unit)) :=
  [(ShardHash, verifyHashRule); (ShardMod, verifyModRule); (ShardRange, verifyRangeRule);
   (ShardDay, verifyDayRule); (ShardMonth, verifyMonthRule); (ShardYear, verifyYearRule);
   (ShardMycatMod, verifyMycatModRule); (ShardMycatLong, verifyMycatLongRule);
   (ShardMycatString, verifyMycatStringRule); (ShardMycatMURMUR, verifyMycatMURMURRule);
   (ShardMycatPaddingMod, verifyMycatPaddingRule); (ShardGlobal, verifyGlobalRule)].

Definition verifyRuleSliceInfos (s : Shard) : outcome unit :=
  match find (fun e => String.eqb e.1 (Type_ s)) ruleVerifyFuncMapping with
  | Some (_, f) => f s
  | None => Err ErrUnknownRuleType
  end.

Definition Shard_verify (s : Shard) : outcome unit := verifyRuleSliceInfos s.

(** ** models/slice.go *)

Record Slice := mk_Slice {
  Slice_Name : string; Slice_UserName : string; Slice_Password : string; Master : string;
  Slaves : list string; StatisticSlaves : list string; SlaveDCMaster : string;
  SlaveDCSlaves : list string; Capacity : Z; MaxCapacity : Z; IdleTimeout : Z }.

Definition Slice_verify (s : Slice) : outcome unit :=
  if String.eqb (Slice_Name s) "" then Err (Errorf "must specify slice name") else
  if String.eqb (Slice_UserName s) "" then Err (Errorf "missing user") else
  if String.eqb (Master s) "" && (zlen (Slaves s) =? 0)
  then Err (Errorf "both master and slaves empty") else
  if existsb (fun a => String.eqb a "") (Slaves s) then Err (Errorf "illegal slave addr") else
  if existsb (fun a => String.eqb a "") (SlaveDCSlaves s)
  then Err (Errorf "illegal slave dc slave addr") else
  if Capacity s <=? 0 then Err (Errorf "connection pool capacity should be > 0") else
  if MaxCapacity s <=? 0 then Err (Errorf "max connection pool capactiy should be > 0") else
  Ret tt.

(** ** models/user.go *)

Definition ReadOnly : Z := 1.
Definition ReadWrite : Z := 2.
Definition NoReadWriteSplit : Z := 0.
Definition ReadWriteSplit : Z := 1.
Definition StatisticUser : Z := 1.

Record User := mk_User {
  UserName : string; Password : string; User_Namespace : string;
  RWFlag : Z; RWSplit : Z; OtherProperty : Z }.

(** The user with its fields trimmed in place. *)
Definition User_verify (p : User) : outcome User :=
  if String.eqb (UserName p) "" then Err (Errorf "missing user name") else
  let un := TrimSpace (UserName p) in
  if String.eqb (User_Namespace p) "" then Err (Errorf "missing namespace name: %s") else
  let ns := TrimSpace (User_Namespace p) in
  if String.eqb (Password p) "" then Err (Errorf "missing password: [%s]%s") else
  let pw := TrimSpace (Password p) in
  if negb (RWFlag p =? ReadOnly) && negb (RWFlag p =? ReadWrite)
  then Err (Errorf "invalid RWFlag, user: %s, rwflag: %d") else
  if negb (RWSplit p =? NoReadWriteSplit) && negb (RWSplit p =? ReadWriteSplit)
  then Err (Errorf "invalid RWSplit, user: %s, rwsplit: %d") else
  if negb (OtherProperty p =? StatisticUser) && negb (OtherProperty p =? 0)
  then Err (Errorf "invalid other property, user: %s, %d") else
  Ret (mk_User un pw ns (RWFlag p) (RWSplit p) (OtherProperty p)).

(** ** models/namespace.go *)

(** The fields the modelled checks read. *)
Record Namespace := mk_Namespace {
  Name : string; AllowedDBS : gmap string bool; DefaultPhyDBS : gmap string string;
  SlowSQLTime : string; NSlices : list Slice; ShardRules : list Shard; Users : list User;
  DefaultSlice : string }.

Definition verifyName (n : Namespace) : outcome unit :=
  if String.eqb (Name n) "" then Err (Errorf "must specify namespace name") else Ret tt.

Definition verifyAllowDBS (n : Namespace) : outcome unit :=
  if decide (AllowedDBS n = ∅) then Err (Errorf "must specify usable dbs") else Ret tt.

(** The loop over the users: [done] are the users before [u], already trimmed. *)
Fixpoint verify_users (name : string) (done users : list User) : outcome (list User) :=
  match users with
  | [] => Ret done
  | u :: us =>
      u1 ← if String.eqb (User_Namespace u) ""
           then Ret (mk_User (UserName u) (Password u) name (RWFlag u) (RWSplit u) (OtherProperty u))
           else if negb (String.eqb (User_Namespace u) name)
           then Err (Errorf "user's namespace name mismatch, user: %s, namespace: %s, %s")
           else Ret u;
      u2 ← wrap "user config error, schema: %s, %v" (User_verify u1);
      if existsb (fun d => String.eqb (UserName d) (UserName u2)) done
      then Err (Errorf "user duped, namespace: %s, user: %s")
      else verify_users name (done ++ [u2]) us
  end.

Definition verifyUsers (n : Namespace) : outcome (list User) :=
  if zlen (Users n) =? 0 then Err (Errorf "must specify proxy access users")
  else verify_users (Name n) [] (Users n).

Definition verifySlowSQLTime (n : Namespace) : outcome unit :=
  if String.eqb (SlowSQLTime n) "" then Ret tt else
  match ParseInt (SlowSQLTime n) with
  | Ret t => if t <? 0 then Err (Errorf "invalid slow sql time") else Ret tt
  | _ => Err (Errorf "invalid slow sql time")
  end.

Definition verifyDBs (n : Namespace) : outcome unit :=
  if decide (DefaultPhyDBS n = ∅) then Ret tt
  else if decide (dom (AllowedDBS n) ⊆ dom (DefaultPhyDBS n)) then Ret tt
  else Err (Errorf "db %s have no phy db").

Fixpoint verify_each_slice (done slices : list Slice) : outcome unit :=
  match slices with
  | [] => Ret tt
  | s :: ss =>
      _ ← wrap "slice cfg error, namespace: %s, err: %s" (Slice_verify s);
      if existsb (fun d => String.eqb (Slice_Name d) (Slice_Name s)) done
      then Err (Errorf "slice name duped, namespace: %s, slice: %s")
      else verify_each_slice (done ++ [s]) ss
  end.

Definition verifySlices (n : Namespace) : outcome unit :=
  if zlen (NSlices n) =? 0 then Err (Errorf "empty slices")
  else verify_each_slice [] (NSlices n).

Definition verifyDefaultSlice (n : Namespace) : outcome unit :=
  if String.eqb (DefaultSlice n) "" then Ret tt
  else if existsb (fun s => String.eqb (Slice_Name s) (DefaultSlice n)) (NSlices n) then Ret tt
  else Err (Errorf "invalid default slice: %s").

(** [rules map[string]map[string]string] holds at most one entry per database
    and table; it is keyed by the pair here, and a database is known when some
    table of it is. *)
Definition rule_types := gmap (string * string) string.

Definition db_known (db : string) (rules : rule_types) : bool :=
  bool_decide (db ∈ map (fun e => e.1.1) (map_to_list rules)).

Fixpoint verify_rules (sliceNames : list string) (shards linked : list Shard)
    (rules : rule_types) : outcome (list Shard * rule_types) :=
  match shards with
  | [] => Ret (linked, rules)
  | s :: ss =>
      if negb (forallb (includeSlice sliceNames) (Slices s))
      then Err (Errorf "shard table[%s] slice[%s] not in the namespace.slices list:[%s]") else
      linked' ← if String.eqb (Type_ s) ShardDefault
                then Err (Errorf "[default-rule] duplicate, must only one")
                else if String.eqb (Type_ s) ShardLinked then Ret (linked ++ [s])
                else _ ← Shard_verify s; Ret linked;
      match rules !! (DB s, Table s) with
      | Some _ => Err (Errorf "table %s rule in %s duplicate")
      | None => verify_rules sliceNames ss linked' (<[(DB s, Table s) := Type_ s]> rules)
      end
  end.

Fixpoint verify_linked (linked : list Shard) (rules : rule_types) : outcome unit :=
  match linked with
  | [] => Ret tt
  | s :: ss =>
      if negb (db_known (DB s) rules)
      then Err (Errorf "db of LinkedRule is not found in parent rules") else
      match rules !! (DB s, ParentTable s) with
      | None => Err (Errorf "parent table of LinkedRule is not found in parent rules")
      | Some t =>
          if String.eqb t ShardLinked
          then Err (Errorf "LinkedRule cannot link to another LinkedRule")
          else verify_linked ss rules
      end
  end.

Definition verifyShardRules (n : Namespace) : outcome unit :=
  '(linked, rules) ← verify_rules (map Slice_Name (NSlices n)) (ShardRules n) [] ∅;
  verify_linked linked rules.

End models.
