(* ===== verification/Manager.v ===== *)
(** proxy/server/manager.go: the users and the namespaces of the proxy and how they are
    replaced while it runs. The manager has two copies of each and an index that tells
    which is current; a change is made on the other copy, and then the index is
    switched. *)

From Stdlib Require Import Ascii String.
From S2P Require Import Prelude GoStr Models.

(** crypto/sha1, whose sums all have the same length. *)
Class Sha1 := sha1 : list Z -> list Z.

(** * Users *)

(** [users] has the passwords of a user name, [userNamespaces] the namespace of a name
    with a password. *)
Record UserManager := mk_UserManager {
  users : gmap string (list string);
  userNamespaces : gmap string string }.

Definition NewUserManager : UserManager := mk_UserManager ∅ ∅.

Definition colon : ascii := ":"%char.

Definition getUserKey (username password : string) : string := String.append username (String colon password).

Definition getUserAndPasswordFromKey (key : string) : outcome (string * string) :=
  let strs := Split colon key in
  username ← index strs 0; password ← index strs 1; Ret (username, password).

Definition passwords (u : UserManager) (username : string) : list string := default [] (users u !! username).

(** [s = append(a[:i], a[i+1:]...)]: the new slice and what is left in the array. *)
Definition append_around (a : list string) (i : nat) : list string * list string :=
  let s := take i a ++ drop (S i) a in (s, s ++ drop (length a - 1) a).

(** The loop over the passwords of the user, whose array the removal changes. *)
Fixpoint remove_loop (n : nat) (i : nat) (a : list string) (password : string) (s : list string) : list string :=
  match n with
  | O => s
  | S n =>
      if bool_decide (a !! i = Some password) then
        let '(s, a) := append_around a i in remove_loop n (S i) a password s
      else remove_loop n (S i) a password s
  end.

Definition remove_password (l : list string) (password : string) : list string := remove_loop (length l) 0 l password [].

(** One turn of the loop of [ClearNamespaceUsers]. *)
Definition clear_key (namespace : string) (u : UserManager) (entry : string * string) : outcome UserManager :=
  let '(key, ns) := entry in
  if String.eqb ns namespace then
    '(username, password) ← getUserAndPasswordFromKey key;
    Ret (mk_UserManager (<[username := remove_password (passwords u username) password]> (users u))
           (delete key (userNamespaces u)))
  else Ret u.

Fixpoint clear_loop (namespace : string) (u : UserManager) (l : list (string * string)) : outcome UserManager :=
  match l with [] => Ret u | e :: l => u ← clear_key namespace u e; clear_loop namespace u l end.

(** [CloneUserManager] gives a copy that shares nothing: the value itself. *)
Definition CloneUserManager (u : UserManager) : UserManager := u.

Definition add_user (namespace : string) (u : UserManager) (user : models.User) : UserManager :=
  mk_UserManager (<[models.UserName user := passwords u (models.UserName user) ++ [models.Password user]]> (users u))
    (<[getUserKey (models.UserName user) (models.Password user) := namespace]> (userNamespaces u)).

Definition addNamespaceUsers (u : UserManager) (namespace : models.Namespace) : UserManager :=
  foldl (add_user (models.Name namespace)) u (models.Users namespace).

Definition CheckUser (u : UserManager) (user : string) : bool := bool_decide (is_Some (users u !! user)).

Definition GetNamespaceByUser (u : UserManager) (userName password : string) : string :=
  default EmptyString (userNamespaces u !! getUserKey userName password).

Section auth.
Context {SH : Sha1} {MR : MapRange}.

(** mysql.CalcPassword *)
Definition CalcPassword (scramble password : list Z) : list Z :=
  match password with
  | [] => []
  | _ =>
      let stage1 := sha1 password in
      let hash := sha1 stage1 in
      let scramble := sha1 (scramble ++ hash) in
      zip_with Z.lxor scramble stage1
  end.

Fixpoint check_loop (l : list string) (salt auth : list Z) : bool * string :=
  match l with
  | [] => (false, EmptyString)
  | password :: l =>
      if bool_decide (auth = CalcPassword salt (sbytes password)) then (true, password) else check_loop l salt auth
  end.

Definition CheckPassword (u : UserManager) (user : string) (salt auth : list Z) : bool * string :=
  check_loop (passwords u user) salt auth.

Definition ClearNamespaceUsers (u : UserManager) (namespace : string) : outcome UserManager :=
  clear_loop namespace u (map_range (userNamespaces u)).

Definition RebuildNamespaceUsers (u : UserManager) (namespace : models.Namespace) : outcome UserManager :=
  u ← ClearNamespaceUsers u (models.Name namespace); Ret (addNamespaceUsers u namespace).

Definition CreateUserManager (namespaceConfigs : gmap string models.Namespace) : UserManager :=
  foldl (fun u '(_, ns) => addNamespaceUsers u ns) NewUserManager (map_range namespaceConfigs).

(** * The manager

    [N] are the namespaces and [NewNamespace] builds one from its configuration, or
    fails. *)
Context {N : Type} (NewNamespace : models.Namespace -> outcome N).

Abbreviation NamespaceManager := (gmap string N).

Definition create_namespace (m : NamespaceManager) (config : models.Namespace) : NamespaceManager :=
  match NewNamespace config with Ret n => <[models.Name config := n]> m | _ => m end.

Fixpoint create_loop (m : NamespaceManager) (l : list (string * models.Namespace)) : NamespaceManager :=
  match l with [] => m | (_, config) :: l => create_loop (create_namespace m config) l end.

Definition CreateNamespaceManager (namespaceConfigs : gmap string models.Namespace) : NamespaceManager :=
  create_loop ∅ (map_range namespaceConfigs).

Definition RebuildNamespace (m : NamespaceManager) (config : models.Namespace) : outcome NamespaceManager :=
  namespace ← NewNamespace config; Ret (<[models.Name config := namespace]> m).

(** The two copies, and the index of the current one. *)
Record Manager := mk_Manager {
  reloadPrepared : bool;
  switchIndex : bool;
  namespaces : bool -> NamespaceManager;
  users_ : bool -> UserManager }.

Definition set_other {A} (i : bool) (f : bool -> A) (a : A) : bool -> A := fun j => if Bool.eqb j i then f j else a.

(** The other copies are nil pointers until the first change, which sets them before
    they become current. *)
Definition CreateManager (namespaceConfigs : gmap string models.Namespace) : Manager :=
  mk_Manager false false
    (set_other false (fun _ => CreateNamespaceManager namespaceConfigs) ∅)
    (set_other false (fun _ => CreateUserManager namespaceConfigs) NewUserManager).

Definition ReloadNamespacePrepare (m : Manager) (config : models.Namespace) : outcome Manager :=
  let current := switchIndex m in
  newNamespaceManager ← RebuildNamespace (namespaces m current) config;
  newUserManager ← RebuildNamespaceUsers (CloneUserManager (users_ m current)) config;
  Ret (mk_Manager true current (set_other current (namespaces m) newNamespaceManager)
         (set_other current (users_ m) newUserManager)).

(** The old namespace is closed in the background. *)
Definition ReloadNamespaceCommit (m : Manager) : outcome Manager :=
  if negb (reloadPrepared m) then Err (Named "namespace is not prepared") else
  Ret (mk_Manager false (negb (switchIndex m)) (namespaces m) (users_ m)).

Definition DeleteNamespace (m : Manager) (name : string) : outcome Manager :=
  let current := switchIndex m in
  match namespaces m current !! name with
  | None => Ret m
  | Some _ =>
      newUserManager ← ClearNamespaceUsers (CloneUserManager (users_ m current)) name;
      Ret (mk_Manager (reloadPrepared m) (negb current)
             (set_other current (namespaces m) (delete name (namespaces m current)))
             (set_other current (users_ m) newUserManager))
  end.

Definition GetNamespace (m : Manager) (name : string) : option N := namespaces m (switchIndex m) !! name.

(** [handleHandshakeResponse] of session.go: the namespace of the user and the password
    that fits. The settings of the session it makes between are left out, and with them
    the refusal of unknown character sets. *)
Definition login (m : Manager) (user : string) (salt auth : list Z) : option string :=
  let u := users_ m (switchIndex m) in
  if CheckUser u user then
    match CheckPassword u user salt auth with
    | (true, password) => Some (GetNamespaceByUser u user password)
    | _ => None
    end
  else None.
End auth.

(** * Keys *)

(** Names and passwords without a colon. *)
Definition colon_free (s : string) : Prop := Split colon s = [s].

Lemma Split_cons c s : Split colon (String c s) =
  if Ascii.eqb c colon then EmptyString :: Split colon s
  else match Split colon s with h :: t => String c h :: t | [] => [String c EmptyString] end.
Proof. done. Qed.

Lemma Split_nonempty s : Split colon s <> [].
Proof. destruct s as [|c s]; [done|]. rewrite Split_cons. destruct (Ascii.eqb c colon); [done|]. by destruct (Split colon s). Qed.

Lemma colon_free_cons c s : colon_free (String c s) -> Ascii.eqb c colon = false /\ colon_free s.
Proof.
  unfold colon_free. rewrite Split_cons. pose proof (Split_nonempty s) as Hn. destruct (Ascii.eqb c colon).
  - intros [= ->].
  - destruct (Split colon s) as [|h t]; [done|]. by intros [= -> ->].
Qed.

Lemma Split_key u p : colon_free u -> colon_free p -> Split colon (getUserKey u p) = [u; p].
Proof.
  intros Hu Hp. unfold getUserKey. induction u as [|c u IH].
  - change (EmptyString :: Split colon p = [EmptyString; p]). by f_equal.
  - apply colon_free_cons in Hu as [Hc Hu]. change (String.append (String c u) (String colon p)) with (String c (String.append u (String colon p))). rewrite Split_cons, Hc, (IH Hu). done.
Qed.

Lemma key_parts u p : colon_free u -> colon_free p -> getUserAndPasswordFromKey (getUserKey u p) = Ret (u, p).
Proof. intros Hu Hp. unfold getUserAndPasswordFromKey. by rewrite Split_key. Qed.

Lemma key_inj u p u' p' :
  colon_free u -> colon_free p -> colon_free u' -> colon_free p' -> getUserKey u p = getUserKey u' p' -> u = u' /\ p = p'.
Proof. intros H1 H2 H3 H4 E. pose proof (Split_key u p H1 H2) as E1. rewrite E, Split_key in E1 by done. by injection E1 as -> ->. Qed.

(** * Removing a password *)

Lemma remove_loop_skip k n i a p s :
  (forall j, (i <= j < i + k)%nat -> a !! j <> Some p) -> remove_loop (k + n) i a p s = remove_loop n (i + k) a p s.
Proof.
  revert i. induction k as [|k IH]; intros i Hk; [by rewrite Nat.add_0_r|]. cbn [remove_loop Nat.add].
  rewrite bool_decide_eq_false_2 by (apply Hk; lia). rewrite IH by (intros j Hj; apply Hk; lia). f_equal. lia.
Qed.

Lemma remove_password_split l1 l2 p : p ∉ l1 -> p ∉ l2 -> remove_password (l1 ++ p :: l2) p = l1 ++ l2.
Proof.
  intros H1 H2. unfold remove_password. rewrite length_app. cbn [length].
  rewrite remove_loop_skip.
  2: { intros j Hj E. rewrite lookup_app_l in E by lia. by apply list_elem_of_lookup_2 in E. }
  cbn [remove_loop Nat.add]. rewrite bool_decide_eq_true_2 by (by rewrite lookup_app_r, Nat.sub_diag by lia).
  unfold append_around. rewrite take_app_length.
  assert (drop (S (length l1)) (l1 ++ p :: l2) = l2) as ->.
  { rewrite cons_middle, app_assoc. apply drop_app_length'. rewrite length_app. cbn. lia. }
  rewrite <- (Nat.add_0_r (length l2)) at 1.
  rewrite remove_loop_skip; [done|]. intros j Hj E. rewrite <- app_assoc in E. rewrite lookup_app_r in E by lia.
  destruct (decide (j - length l1 < length l2)%nat) as [Hlt|Hge].
  - rewrite lookup_app_l in E by done. by apply list_elem_of_lookup_2 in E.
  - rewrite lookup_app_r in E by lia. rewrite length_app in E. cbn [length] in E.
    rewrite lookup_drop, lookup_app_r in E by lia.
    destruct l2 as [|y l2]; [cbn in Hj; lia|]. rewrite lookup_cons_ne_0 in E by (cbn [length] in *; lia).
    by apply list_elem_of_lookup_2 in E.
Qed.

Lemma remove_password_spec l p : NoDup l -> p ∈ l ->
  NoDup (remove_password l p) /\ forall q, q ∈ remove_password l p <-> q ∈ l /\ q <> p.
Proof.
  intros Hn (l1 & l2 & ->)%list_elem_of_split. apply NoDup_app in Hn as (N1 & N2 & [N3 N4]%NoDup_cons).
  assert (p ∉ l1) as Hp by (intros Hp; apply (N2 p Hp); set_solver). rewrite remove_password_split by done. split.
  - apply NoDup_app. split_and!; [done| |done]. intros x Hx Hx2. apply (N2 x Hx). set_solver.
  - intros q. rewrite !elem_of_app, elem_of_cons. split; [|naive_solver].
    intros [Hq|Hq]; (split; [by eauto|intros ->; done]).
Qed.

(** * What the users represent *)

(** [C n c]: the credentials [c], a name and a password, belong to the namespace [n]. *)
Abbreviation creds_of := (string -> string * string -> Prop).

Record owned (C : creds_of) : Prop := {
  ow_free n u p : C n (u, p) -> colon_free u /\ colon_free p;
  ow_one n n' c : C n c -> C n' c -> n = n' }.

Record uinv (C : creds_of) (um : UserManager) : Prop := {
  ui_key k n : userNamespaces um !! k = Some n <-> exists u p, C n (u, p) /\ k = getUserKey u p;
  ui_password u p : p ∈ passwords um u <-> exists n, C n (u, p);
  ui_nodup u : NoDup (passwords um u) }.

Lemma uinv_ext C C' um : (forall n c, C n c <-> C' n c) -> uinv C um -> uinv C' um.
Proof. intros H [H1 H2 H3]. split; [|intros u p; rewrite H2; by setoid_rewrite H|done]. intros k n. rewrite H1. by setoid_rewrite H. Qed.

Lemma passwords_insert us un u l x :
  passwords (mk_UserManager (<[u := l]> us) un) x = if decide (x = u) then l else default [] (us !! x).
Proof. unfold passwords. cbn. destruct (decide (x = u)) as [->|]; [by rewrite lookup_insert_eq|by rewrite lookup_insert_ne]. Qed.

Lemma add_user_inv C um n user :
  let c := (models.UserName user, models.Password user) in
  uinv C um -> owned (fun n' c' => C n' c' \/ n' = n /\ c' = c) -> (forall n', ~ C n' c) ->
  uinv (fun n' c' => C n' c' \/ n' = n /\ c' = c) (add_user n um user).
Proof.
  cbn zeta. set (u := models.UserName user). set (p := models.Password user). intros [H1 H2 H3] [F O] Hnew.
  destruct (F n u p (or_intror (conj eq_refl eq_refl))) as [Fu Fp]. unfold add_user. fold u p. split.
  - intros k n'. cbn [userNamespaces]. destruct (decide (k = getUserKey u p)) as [->|Hk].
    + rewrite lookup_insert_eq. split; [intros [= <-]; eauto 6|]. intros (u' & p' & HC & E).
      destruct (F n' u' p' HC) as [Fu' Fp']. apply key_inj in E as [<- <-]; [|done..]. destruct HC as [HC|[-> _]]; [by destruct (Hnew n')|done].
    + rewrite lookup_insert_ne by done. rewrite H1. split; [naive_solver|].
      intros (u' & p' & [HC|[-> [= -> ->]]] & ->); [by eauto|done].
  - intros u' p'. rewrite passwords_insert. destruct (decide (u' = u)) as [->|Hne].
    + rewrite elem_of_app, list_elem_of_singleton, H2. split; [intros [[n' ?]| ->]; eauto|].
      intros (n' & [HC|[-> [= ->]]]); [left; by eauto|by right].
    + fold (passwords um u'). rewrite H2. split; [naive_solver|]. intros (n' & [HC|[-> [= -> ->]]]); [by eauto|done].
  - intros u'. rewrite passwords_insert. destruct (decide (u' = u)) as [->|Hne]; [|apply H3].
    apply NoDup_app. split_and!; [apply H3| |apply NoDup_singleton].
    intros x Hx ->%list_elem_of_singleton. apply H2 in Hx as [n' HC]. by destruct (Hnew n').
Qed.

Definition creds (cfg : models.Namespace) : list (string * string) :=
  map (fun x => (models.UserName x, models.Password x)) (models.Users cfg).

Lemma owned_sub (C C' : creds_of) : (forall n c, C' n c -> C n c) -> owned C -> owned C'.
Proof. intros H [F O]. split; [intros n u p HC; by apply (F n), H|intros n n' c H1 H2; eapply O; by apply H]. Qed.

Lemma add_users_inv n us C um :
  let cs := map (fun x => (models.UserName x, models.Password x)) us in
  uinv C um -> owned (fun n' c => C n' c \/ n' = n /\ c ∈ cs) -> NoDup cs -> (forall n' c, c ∈ cs -> ~ C n' c) ->
  uinv (fun n' c => C n' c \/ n' = n /\ c ∈ cs) (foldl (add_user n) um us).
Proof.
  cbn zeta. revert C um. induction us as [|user us IH]; intros C um H Ho Hn Hnew; cbn [map foldl] in *.
  { eapply uinv_ext; [|exact H]. set_solver. }
  apply NoDup_cons in Hn as [Hni Hn]. set (c := (models.UserName user, models.Password user)) in *.
  assert (uinv (fun n' c' => C n' c' \/ n' = n /\ c' = c) (add_user n um user)) as H1.
  { apply add_user_inv; [done| |intros n'; apply Hnew; set_solver]. eapply owned_sub; [|exact Ho]. set_solver. }
  eapply uinv_ext; [|eapply (IH _ _ H1); [|done|]].
  - intros n' c'. cbn. rewrite elem_of_cons. naive_solver.
  - eapply owned_sub; [|exact Ho]. intros n' c'. cbn. rewrite elem_of_cons. naive_solver.
  - intros n' c' Hc' [HC|[-> ->]]; [|done]. eapply Hnew; [|exact HC]. set_solver.
Qed.

Lemma clear_key_inv C um n u p ns :
  uinv C um -> owned C -> C ns (u, p) ->
  exists um', clear_key n um (getUserKey u p, ns) = Ret um' /\
    uinv (fun n' c => C n' c /\ ~ (n' = n /\ ns = n /\ c = (u, p))) um'.
Proof.
  intros [H1 H2 H3] [F O] HC. destruct (F _ _ _ HC) as [Fu Fp]. unfold clear_key.
  destruct (String.eqb_spec ns n) as [->|Hne]; [|exists um; split; [done|]; eapply uinv_ext; [|by split]; naive_solver].
  rewrite key_parts by done. cbn [mbind outcome_bind]. eexists. split; [done|].
  assert (p ∈ passwords um u) as Hp by (apply H2; by eauto). destruct (remove_password_spec _ _ (H3 u) Hp) as [Hn Hq]. split.
  - intros k n'. cbn [userNamespaces]. rewrite lookup_delete_Some, H1. split.
    + intros (Hk & u' & p' & HC' & ->). exists u', p'. split; [|done]. split; [done|]. intros (_ & _ & [= -> ->]). done.
    + intros (u' & p' & [HC' Hnot] & ->). split; [|by eauto]. intros E. destruct (F _ _ _ HC') as [Fu' Fp'].
      apply key_inj in E as [<- <-]; [|done..]. apply Hnot. by rewrite (O _ _ _ HC' HC).
  - intros u' p'. rewrite passwords_insert. destruct (decide (u' = u)) as [->|Hne].
    + rewrite Hq, H2. split; [intros [[n' HC'] Hne]; exists n'; naive_solver|]. intros (n' & HC' & Hnot). split; [by eauto|].
      intros ->. apply Hnot. by rewrite (O _ _ _ HC' HC).
    + fold (passwords um u'). rewrite H2. naive_solver.
  - intros u'. rewrite passwords_insert. destruct (decide (u' = u)) as [->|]; [done|apply H3].
Qed.

Lemma clear_loop_inv n l C um :
  uinv C um -> owned C -> NoDup l.*1 -> (forall k ns, (k, ns) ∈ l -> exists u p, C ns (u, p) /\ k = getUserKey u p) ->
  exists um', clear_loop n um l = Ret um' /\
    uinv (fun n' c => C n' c /\ ~ (n' = n /\ (getUserKey c.1 c.2, n') ∈ l)) um'.
Proof.
  revert C um. induction l as [|[k ns] l IH]; intros C um H Ho Hn Hl; cbn [clear_loop].
  { exists um. split; [done|]. eapply uinv_ext; [|exact H]. set_solver. }
  cbn in Hn. apply NoDup_cons in Hn as [Hni Hn]. destruct (Hl k ns ltac:(set_solver)) as (u & p & HC & ->).
  destruct (clear_key_inv C um n u p ns H Ho HC) as (um1 & -> & H1). cbn [mbind outcome_bind].
  destruct (IH _ um1 H1) as (um2 & -> & H2).
  - eapply owned_sub; [|exact Ho]. naive_solver.
  - done.
  - intros k' ns' Hk'. destruct (Hl k' ns' ltac:(set_solver)) as (u' & p' & HC' & ->). exists u', p'. split; [|done]. split; [done|].
    intros (_ & _ & [= -> ->]). apply Hni. apply list_elem_of_fmap. by exists (getUserKey u p, ns').
  - exists um2. split; [done|]. eapply uinv_ext; [|exact H2]. intros n' [u' p']. cbn [fst snd]. rewrite elem_of_cons. split.
    + intros [[HC' Hno] Hno2]. split; [done|]. intros [-> [E|Hin]]; [|by apply Hno2]. injection E as E <-.
      destruct Ho as [F O]. destruct (F _ _ _ HC') as [? ?]. destruct (F _ _ _ HC) as [? ?].
      apply key_inj in E as [-> ->]; [|done..]. by apply Hno.
    + intros [HC' Hno]. split; [split; [done|]|naive_solver]. intros (-> & -> & [= -> ->]). apply Hno. by eauto.
Qed.

Section users.
Context {MR : MapRange} {MRO : MapRangeOk MR}.

Lemma ClearNamespaceUsers_inv C um n :
  uinv C um -> owned C ->
  exists um', ClearNamespaceUsers um n = Ret um' /\ uinv (fun n' c => C n' c /\ n' <> n) um'.
Proof.
  intros H Ho. destruct (clear_loop_inv n (map_range (userNamespaces um)) C um H Ho) as (um' & E & H').
  - rewrite (MRO _ (userNamespaces um)). apply NoDup_fst_map_to_list.
  - intros k ns Hk. apply elem_of_map_range in Hk. by apply (ui_key _ _ H).
  - exists um'. split; [done|]. eapply uinv_ext; [|exact H']. intros n' [u p]. cbn [fst snd]. rewrite elem_of_map_range, (ui_key _ _ H).
    split; [|naive_solver]. intros [HC Hno]. split; [done|]. intros ->. apply Hno. split; [done|]. by exists u, p.
Qed.

(** The credentials of configurations. *)
Definition confC (confs : gmap string models.Namespace) : creds_of :=
  fun n c => exists cfg, confs !! n = Some cfg /\ c ∈ creds cfg.

(** Configurations under their names, without colons, in which a name with a password
    belongs to one namespace and stands there once. *)
Record wf_confs (confs : gmap string models.Namespace) : Prop := {
  wf_name n cfg : confs !! n = Some cfg -> models.Name cfg = n;
  wf_nodup n cfg : confs !! n = Some cfg -> NoDup (creds cfg);
  wf_owned : owned (confC confs) }.

Lemma RebuildNamespaceUsers_inv confs um cfg :
  uinv (confC confs) um -> wf_confs confs -> wf_confs (<[models.Name cfg := cfg]> confs) ->
  exists um', RebuildNamespaceUsers um cfg = Ret um' /\ uinv (confC (<[models.Name cfg := cfg]> confs)) um'.
Proof.
  intros H Hw Hw'. destruct (ClearNamespaceUsers_inv _ _ (models.Name cfg) H (wf_owned _ Hw)) as (um1 & E1 & H1).
  unfold RebuildNamespaceUsers. rewrite E1. cbn [mbind outcome_bind]. eexists. split; [done|].
  assert (forall n' c, (confC confs n' c /\ n' <> models.Name cfg) \/ n' = models.Name cfg /\ c ∈ creds cfg <->
    confC (<[models.Name cfg := cfg]> confs) n' c) as Heq.
  { intros n' c. unfold confC. destruct (decide (n' = models.Name cfg)) as [->|Hne].
    - rewrite lookup_insert_eq. naive_solver.
    - rewrite lookup_insert_ne by done. naive_solver. }
  eapply uinv_ext; [exact Heq|]. apply add_users_inv; [done| | |].
  - eapply owned_sub; [|exact (wf_owned _ Hw')]. intros n' c. apply Heq.
  - eapply (wf_nodup _ Hw'). apply lookup_insert_eq.
  - intros n' c Hc [HC Hne]. apply Hne. apply (ow_one _ (wf_owned _ Hw') _ _ c); apply Heq; [left|right]; by split.
Qed.

Lemma CreateUserManager_inv confs : wf_confs confs -> uinv (confC confs) (CreateUserManager confs).
Proof.
  intros Hw. unfold CreateUserManager.
  assert (forall l um C, uinv C um -> NoDup l.*1 -> (forall n cfg, (n, cfg) ∈ l -> confs !! n = Some cfg) ->
    (forall n c, C n c -> confC confs n c) -> (forall n c, n ∈ l.*1 -> ~ C n c) ->
    uinv (fun n c => C n c \/ exists cfg, (n, cfg) ∈ l /\ c ∈ creds cfg) (foldl (fun u '(_, ns) => addNamespaceUsers u ns) um l)) as K.
  { induction l as [|[n cfg] l IH]; intros um C H Hn Hl Hsub Hfresh; cbn [foldl].
    { eapply uinv_ext; [|exact H]. set_solver. }
    cbn in Hn. apply NoDup_cons in Hn as [Hni Hn]. pose proof (Hl n cfg ltac:(set_solver)) as Hc.
    pose proof (wf_name _ Hw _ _ Hc) as Hname.
    assert (uinv (fun n' c => C n' c \/ n' = n /\ c ∈ creds cfg) (addNamespaceUsers um cfg)) as H1.
    { unfold addNamespaceUsers. rewrite Hname. apply add_users_inv; [done| |by eapply wf_nodup|].
      - eapply owned_sub; [|exact (wf_owned _ Hw)]. intros n' c [?|[-> ?]]; [by apply Hsub|by exists cfg].
      - intros n' c Hin HC. apply (Hfresh n c); [set_solver|].
        replace n with n'; [done|]. eapply (ow_one _ (wf_owned _ Hw)); [by apply Hsub|by exists cfg]. }
    eapply uinv_ext; [|apply (IH _ _ H1); [done|set_solver| |]].
    - intros n' c. cbn. setoid_rewrite elem_of_cons. naive_solver.
    - intros n' c [?|[-> ?]]; [by apply Hsub|by exists cfg].
    - intros n' c Hin [HC|[-> _]]; [|done]. apply (Hfresh n' c); [set_solver|done]. }
  eapply uinv_ext; [|apply (K (map_range confs) NewUserManager (fun _ _ => False))].
  - intros n c. cbn. unfold confC. setoid_rewrite elem_of_map_range. naive_solver.
  - split; cbn; [intros k n; rewrite lookup_empty; naive_solver|intros u p; set_solver|intros u; apply NoDup_nil; done].
  - rewrite (MRO _ confs). apply NoDup_fst_map_to_list.
  - intros n cfg. by rewrite elem_of_map_range.
  - done.
  - naive_solver.
Qed.
End users.

(** * Changes of the configuration *)

Section changes.
Context {SH : Sha1} {MR : MapRange} {MRO : MapRangeOk MR} {N : Type} (NewNamespace : models.Namespace -> outcome N).

Abbreviation Manager_ := (Manager (N := N)).

(** The requests that change the manager, in any order. *)
Inductive change := Prepare (cfg : models.Namespace) | Commit | Remove (name : string).

Definition run_change (m : Manager_) (ch : change) : outcome Manager_ :=
  match ch with
  | Prepare cfg => ReloadNamespacePrepare NewNamespace m cfg
  | Commit => ReloadNamespaceCommit m
  | Remove name => DeleteNamespace m name
  end.

(** A request that fails leaves the manager as it is. *)
Definition apply_change (m : Manager_) (ch : change) : Manager_ :=
  match run_change m ch with Ret m => m | _ => m end.

(** ** The specification: two configurations, one of them current *)

Abbreviation Confs := (gmap string models.Namespace).

Record Copies := mk_Copies { prepared : bool; current : Confs; other : Confs }.

(** The namespace of a configuration, if it can be built. *)
Definition built (confs : Confs) (n : string) : option N :=
  cfg ← confs !! n; match NewNamespace cfg with Ret ns => Some ns | _ => None end.

(** A preparation copies the current configurations and replaces one, if it can be
    built; a commit switches to the copy; a deletion of a namespace that was built makes
    a copy without it and switches at once. *)
Definition spec_change (s : Copies) (ch : change) : Copies :=
  match ch with
  | Prepare cfg =>
      match NewNamespace cfg with
      | Ret _ => mk_Copies true (current s) (<[models.Name cfg := cfg]> (current s))
      | _ => s
      end
  | Commit => if prepared s then mk_Copies false (other s) (current s) else s
  | Remove name =>
      match built (current s) name with
      | Some _ => mk_Copies (prepared s) (delete name (current s)) (current s)
      | None => s
      end
  end.

(** Both configurations are in order all the time. *)
Fixpoint always_wf (s : Copies) (l : list change) : Prop :=
  wf_confs (current s) /\ wf_confs (other s) /\
  match l with [] => True | ch :: l => always_wf (spec_change s ch) l end.

(** A copy of the manager holds the users and the namespaces of its configurations. *)
Record holds (confs : Confs) (nm : gmap string N) (um : UserManager) : Prop := {
  ho_users : uinv (confC confs) um;
  ho_namespaces : forall n, nm !! n = built confs n }.

Record minv (s : Copies) (m : Manager_) : Prop := {
  mi_prepared : reloadPrepared m = prepared s;
  mi_current : holds (current s) (namespaces m (switchIndex m)) (users_ m (switchIndex m));
  mi_other : holds (other s) (namespaces m (negb (switchIndex m))) (users_ m (negb (switchIndex m))) }.

Lemma set_other_current {A} i (f : bool -> A) a : set_other i f a (negb i) = a.
Proof. by destruct i. Qed.
Lemma set_other_same {A} i (f : bool -> A) a : set_other i f a i = f i.
Proof. by destruct i. Qed.

Lemma holds_insert confs nm um cfg ns :
  holds confs nm um -> wf_confs confs -> wf_confs (<[models.Name cfg := cfg]> confs) -> NewNamespace cfg = Ret ns ->
  exists um', RebuildNamespaceUsers um cfg = Ret um' /\
    holds (<[models.Name cfg := cfg]> confs) (<[models.Name cfg := ns]> nm) um'.
Proof.
  intros [Hu Hn] Hw Hw' Ens. destruct (RebuildNamespaceUsers_inv _ _ cfg Hu Hw Hw') as (um' & E & Hum).
  exists um'. split; [done|]. split; [done|]. intros n. unfold built. destruct (decide (models.Name cfg = n)) as [<-|Hne].
  - rewrite !lookup_insert_eq. cbn. by rewrite Ens.
  - rewrite !lookup_insert_ne by done. apply Hn.
Qed.

Lemma holds_delete confs nm um name :
  holds confs nm um -> wf_confs confs ->
  exists um', ClearNamespaceUsers um name = Ret um' /\ holds (delete name confs) (delete name nm) um'.
Proof.
  intros [Hu Hn] Hw. destruct (ClearNamespaceUsers_inv _ _ name Hu (wf_owned _ Hw)) as (um' & E & Hum).
  exists um'. split; [done|]. split.
  - eapply uinv_ext; [|exact Hum]. intros n c. unfold confC. setoid_rewrite lookup_delete_Some. naive_solver.
  - intros n. unfold built. destruct (decide (name = n)) as [<-|Hne]; [by rewrite !lookup_delete_eq|].
    rewrite !lookup_delete_ne by done. apply Hn.
Qed.

Lemma apply_change_inv s m ch :
  minv s m -> wf_confs (current s) -> wf_confs (current (spec_change s ch)) -> wf_confs (other (spec_change s ch)) ->
  minv (spec_change s ch) (apply_change m ch).
Proof.
  intros [Hp Hc Ho] Hw Hwc Hwo. pose proof Hc as [Hu Hn]. unfold apply_change.
  destruct ch as [cfg| |name]; cbn [run_change spec_change] in *.
  - unfold ReloadNamespacePrepare, RebuildNamespace. destruct (NewNamespace cfg) as [ns|e|p] eqn:En; [|by split..].
    cbn [mbind outcome_bind]. destruct (holds_insert _ _ _ cfg ns Hc Hw Hwo En) as (um & Eu & Hum).
    unfold CloneUserManager. rewrite Eu. split; [done|..]; cbn; by rewrite ?set_other_current, ?set_other_same.
  - unfold ReloadNamespaceCommit. rewrite Hp. destruct (prepared s) eqn:Ep; [|split; [by rewrite Ep|done|done]]. cbn.
    split; [done|done|]. cbn. by rewrite negb_involutive.
  - unfold DeleteNamespace. rewrite Hn. destruct (built (current s) name) as [ns|]; [|by split].
    destruct (holds_delete _ _ _ name Hc Hw) as (um & Eu & Hum). unfold CloneUserManager. rewrite Eu. cbn.
    split; [done|..]; cbn; by rewrite ?negb_involutive, ?set_other_current, ?set_other_same.
Qed.

Lemma apply_changes_inv l s m :
  minv s m -> always_wf s l -> minv (foldl spec_change s l) (foldl apply_change m l).
Proof.
  revert s m. induction l as [|ch l IH]; intros s m Hm (Hw & Hw' & Hl); cbn [foldl]; [done|].
  apply IH; [|done]. apply apply_change_inv; [done|done|..]; by destruct l; destruct Hl as (? & ? & _).
Qed.

(** ** The start *)

Definition opened (confs : Confs) : Copies := mk_Copies false confs ∅.

Abbreviation create_all := (create_loop NewNamespace).

Lemma create_all_None l m n : create_all m l !! n = None ->
  forall k cfg, (k, cfg) ∈ l -> models.Name cfg = n -> forall ns, NewNamespace cfg <> Ret ns.
Proof.
  assert (forall l m, create_all m l !! n = None -> m !! n = None) as Kept.
  { clear. induction l as [|[k c] l IH]; intros m; cbn [create_loop]; [done|]. intros H%IH. revert H. unfold create_namespace.
    destruct (NewNamespace c); [|done..]. by intros [? _]%lookup_insert_None. }
  revert m. induction l as [|[k c] l IH]; intros m H k' cfg Hin; [set_solver|].
  apply elem_of_cons in Hin as [[= -> ->]|Hin]; [|by eapply IH]. intros Hn ns E. cbn [create_loop] in H.
  apply Kept in H. unfold create_namespace in H. rewrite E, Hn in H. by rewrite lookup_insert_eq in H.
Qed.

Lemma create_all_Some l m n ns : create_all m l !! n = Some ns ->
  m !! n = Some ns \/ exists k cfg, (k, cfg) ∈ l /\ models.Name cfg = n /\ NewNamespace cfg = Ret ns.
Proof.
  revert m. induction l as [|[k c] l IH]; intros m; cbn [create_loop]; [by left|]. intros [H|(k' & cfg & Hin & E)]%IH.
  2: { right. exists k', cfg. split; [by right|done]. }
  revert H. unfold create_namespace. destruct (NewNamespace c) as [x| |] eqn:Ex; [|by left..].
  rewrite lookup_insert_Some. intros [[Hn <-]|[_ ?]]; [|by left]. right. exists k, c. split_and!; [left|done..].
Qed.

Lemma create_all_built confs n : wf_confs confs -> create_all ∅ (map_range confs) !! n = built confs n.
Proof.
  intros Hw. unfold built. destruct (create_all ∅ (map_range confs) !! n) as [x|] eqn:E.
  - apply create_all_Some in E as [E|(k & c & Hin & Hn & Ec)]; [by rewrite lookup_empty in E|].
    apply elem_of_map_range in Hin. pose proof (wf_name _ Hw _ _ Hin). subst k. rewrite <- Hn, Hin. cbn. by rewrite Ec.
  - destruct (confs !! n) as [cfg|] eqn:Ec; [cbn|done]. destruct (NewNamespace cfg) as [ns| |] eqn:En; [|done..]. exfalso.
    apply (create_all_None _ _ _ E n cfg) with ns; [by apply elem_of_map_range| |done]. by eapply wf_name.
Qed.

Lemma wf_confs_empty : wf_confs ∅.
Proof. split; [done|done|]. split; [intros n u p (cfg & H & _)|intros n n' c (cfg & H & _)]; by rewrite lookup_empty in H. Qed.

Lemma CreateManager_inv confs : wf_confs confs -> minv (opened confs) (CreateManager NewNamespace confs).
Proof.
  intros Hw. split; [done|..]; cbn [users_ namespaces switchIndex CreateManager opened current other negb]; unfold set_other; cbn [Bool.eqb].
  - split; [by apply CreateUserManager_inv|]. intros n. by apply create_all_built.
  - split; [|intros n; unfold built; by rewrite !lookup_empty].
    assert (forall n c, ~ confC ∅ n c) as Hno by (intros n c (cfg & H & _); by rewrite lookup_empty in H).
    split; cbn.
    + intros k n. rewrite lookup_empty. split; [done|]. intros (u & p & H & _). by apply Hno in H.
    + intros u p. split; [set_solver|]. intros [n H]. by apply Hno in H.
    + intros u. by apply NoDup_nil.
Qed.

Lemma check_loop_true l salt auth p : check_loop l salt auth = (true, p) -> p ∈ l /\ auth = CalcPassword salt (sbytes p).
Proof.
  induction l as [|q l IH]; cbn [check_loop]; [done|]. case_bool_decide as E; [intros [= <-]; set_solver|]. set_solver.
Qed.

Lemma check_loop_finds l salt p : p ∈ l -> exists q, check_loop l salt (CalcPassword salt (sbytes p)) = (true, q).
Proof.
  induction l as [|q l IH]; cbn [check_loop]; [set_solver|]. case_bool_decide as E; [by eauto|].
  intros [->|Hp]%elem_of_cons; [done|by apply IH].
Qed.

(** C5: the manager refines two copies of the configurations: after any sequence of
    preparations, commits and deletions, in any order, that succeed or fail, a login
    succeeds exactly with the credentials of the current configurations and leads to
    their namespace, and the namespaces are those of the current configurations that can
    be built. The configurations have no colon in a user name or password, give a name
    with a password to one namespace only, and once. *)
Theorem login_follows_configuration confs l :
  always_wf (opened confs) l ->
  let m := foldl apply_change (CreateManager NewNamespace confs) l in
  let s := foldl spec_change (opened confs) l in
  (forall user salt auth n, login m user salt auth = Some n ->
     exists cfg p, current s !! n = Some cfg /\ (user, p) ∈ creds cfg /\ auth = CalcPassword salt (sbytes p)) /\
  (forall user salt n cfg p, current s !! n = Some cfg -> (user, p) ∈ creds cfg ->
     is_Some (login m user salt (CalcPassword salt (sbytes p)))) /\
  (forall n, GetNamespace m n = built (current s) n).
Proof.
  intros Hl m s. assert (wf_confs confs) as Hw by (by destruct l; destruct Hl).
  destruct (apply_changes_inv l _ _ (CreateManager_inv confs Hw) Hl) as [_ [Hu Hn] _]. fold m s in Hu, Hn.
  split_and!; [| |exact Hn].
  - intros user salt auth n. unfold login. destruct (CheckUser _ _); [|done].
    destruct (CheckPassword _ user salt auth) as [[] p] eqn:Ep; [|done]. intros [= <-].
    apply check_loop_true in Ep as [Hp ->]. apply (ui_password _ _ Hu) in Hp as (n & HC). pose proof HC as (cfg & Hcfg & Hin).
    exists cfg, p. unfold GetNamespaceByUser. rewrite (proj2 (ui_key _ _ Hu (getUserKey user p) n)) by eauto. done.
  - intros user salt n cfg p Hcfg Hin. assert (p ∈ passwords (users_ m (switchIndex m)) user) as Hp.
    { apply (ui_password _ _ Hu). exists n, cfg. done. }
    destruct (check_loop_finds _ salt _ Hp) as (q & Eq). unfold login, CheckPassword. rewrite Eq.
    unfold CheckUser. rewrite bool_decide_eq_true_2; [by eexists|]. unfold passwords in Hp.
    destruct (users _ !! user); [by eexists|cbn in Hp; set_solver].
Qed.

(** A deletion between the preparation and the commit of a reload: the commit switches
    back to the copy from before, so the deleted namespace is there again and the new
    configuration is not. *)
Theorem delete_undone_by_commit (m m1 m2 m3 : Manager_) cfg name :
  ReloadNamespacePrepare NewNamespace m cfg = Ret m1 -> is_Some (GetNamespace m1 name) ->
  DeleteNamespace m1 name = Ret m2 -> ReloadNamespaceCommit m2 = Ret m3 ->
  GetNamespace m2 name = None /\ forall n, GetNamespace m3 n = GetNamespace m n.
Proof.
  unfold ReloadNamespacePrepare, DeleteNamespace, ReloadNamespaceCommit, GetNamespace.
  intros H1 [ns Hns] H2 H3. destruct (RebuildNamespace _ _ _) as [nm| |]; [|done..]. cbn [mbind outcome_bind] in H1.
  destruct (RebuildNamespaceUsers _ _) as [um| |]; [|done..]. injection H1 as <-. cbn [namespaces switchIndex users_ reloadPrepared] in *.
  rewrite Hns in H2. destruct (ClearNamespaceUsers _ _) as [um2| |]; [|done..]. injection H2 as <-.
  cbn [namespaces switchIndex users_ reloadPrepared negb] in *. injection H3 as <-. cbn [namespaces switchIndex].
  rewrite negb_involutive. unfold set_other. destruct (switchIndex m); cbn [Bool.eqb negb]; by rewrite lookup_delete_eq.
Qed.
End changes.

(** * An example *)

(** A check of configurations that decides [wf_confs]. *)
Definition wf_check (confs : gmap string models.Namespace) : bool :=
  bool_decide (Forall (fun '(n, cfg) => models.Name cfg = n /\ Forall (fun '(u, p) => Split colon u = [u] /\ Split colon p = [p]) (creds cfg))
    (map_to_list confs)) &&
  bool_decide (NoDup (concat (map (fun e => creds e.2) (map_to_list confs)))).

Lemma NoDup_concat_map {A B} (f : A -> list B) l a b x :
  NoDup (concat (map f l)) -> a ∈ l -> b ∈ l -> x ∈ f a -> x ∈ f b -> a = b /\ NoDup (f a).
Proof.
  induction l as [|c l IH]; cbn [concat map]; [set_solver|]. intros (N1 & N2 & N3)%NoDup_app Ha Hb Hxa Hxb.
  assert (forall d, d ∈ l -> x ∈ f d -> x ∈ concat (map f l)) as Hin.
  { intros d Hd Hx. apply list_elem_of_In, in_concat. exists (f d). split; [apply in_map|]; by apply list_elem_of_In. }
  apply elem_of_cons in Ha as [->|Ha], Hb as [->|Hb]; [done| | |by apply IH].
  - destruct (N2 x Hxa). by eapply Hin.
  - destruct (N2 x Hxb). by eapply Hin.
Qed.

Lemma wf_check_ok confs : wf_check confs = true -> wf_confs confs.
Proof.
  intros [H1 H2]%andb_prop. apply bool_decide_eq_true in H1, H2. rewrite Forall_forall in H1. split.
  - intros n cfg Hc%elem_of_map_to_list. by destruct (H1 _ Hc).
  - intros n cfg Hc%elem_of_map_to_list. destruct (creds cfg) as [|c cs] eqn:E; [by apply NoDup_nil|]. rewrite <- E.
    refine (proj2 (NoDup_concat_map (fun e => creds e.2) _ (n, cfg) (n, cfg) c H2 Hc Hc _ _)); cbn; rewrite E; by left.
  - split.
    + intros n u p (cfg & Hc%elem_of_map_to_list & Hin). destruct (H1 _ Hc) as [_ Hf]. rewrite Forall_forall in Hf. by apply (Hf (u, p)).
    + intros n n' c (cfg & Hc%elem_of_map_to_list & Hin) (cfg' & Hc'%elem_of_map_to_list & Hin').
      by destruct (NoDup_concat_map (fun e => creds e.2) _ (n, cfg) (n', cfg') c H2 Hc Hc' Hin Hin') as [[= -> _] _].
Qed.

Module manager_demo.
#[local] Existing Instance list_range.
#[local] Existing Instance list_range_ok.
#[local] Instance toy_sha1 : Sha1 := fun l => map (fun i => foldl (fun a b => (31 * a + b + i) mod 256) 7 l) (seqZ 0 20).

Definition conf (name : string) (us : list (string * string)) : models.Namespace :=
  models.mk_Namespace name ∅ ∅ "" [] [] (map (fun '(u, p) => models.mk_User u p name 0 0 0) us) "".

(** A namespace without users cannot be built. *)
Definition build (cfg : models.Namespace) : outcome string :=
  match models.Users cfg with [] => Err (Errorf "no users") | _ => Ret (models.Name cfg) end.

Definition confs : gmap string models.Namespace :=
  <["a" := conf "a" [("root", "p1"); ("guest", "")]]> {["b" := conf "b" [("root", "p2")]]}.

(** The password of root in [a] moves to [b]; [b] is deleted between, and a namespace
    without users is not prepared. *)
Definition changes : list change :=
  [Prepare (conf "a" [("root", "p3")]); Commit; Remove "b"; Prepare (conf "c" []);
   Prepare (conf "b" [("root", "p1"); ("root", "p4")]); Commit].

Lemma login_follows_configuration_witness :
  let m := foldl (apply_change build) (CreateManager build confs) changes in
  (forall salt, is_Some (login m "root" salt (CalcPassword salt (sbytes "p1")))) /\
  GetNamespace m "b" = Some "b" /\ GetNamespace m "c" = None.
Proof.
  destruct (login_follows_configuration build confs changes) as (_ & H2 & H3).
  - cbn [always_wf changes]; split_and!; try done; apply wf_check_ok; vm_compute; reflexivity.
  - split_and!.
    + intros salt. apply (H2 "root" salt "b" (conf "b" [("root", "p1"); ("root", "p4")]) "p1"); [vm_compute; reflexivity|]. by left.
    + rewrite H3. vm_compute. reflexivity.
    + rewrite H3. vm_compute. reflexivity.
Defined.

Definition user (u p ns : string) : UserManager := add_user ns NewUserManager (models.mk_User u p ns 0 0 0).

(** A user of whom all passwords are gone still passes [CheckUser]. *)
Example cleared_user_is_known :
  exists u, ClearNamespaceUsers (user "root" "p1" "a") "a" = Ret u /\ CheckUser u "root" = true /\ passwords u "root" = [].
Proof. eexists. split; [vm_compute; reflexivity|]. by vm_compute. Qed.

(** A password with a colon: clearing its namespace looks for the part before the colon,
    does not find it, and forgets every password of the user, those of other namespaces
    too. *)
Example colon_locks_out_others :
  exists u, ClearNamespaceUsers (add_user "a" (user "root" "p2" "b") (models.mk_User "root" "x:y" "a" 0 0 0)) "a" = Ret u /\
    passwords u "root" = [] /\ GetNamespaceByUser u "root" "p2" = "b".
Proof. eexists. split; [vm_compute; reflexivity|]. by vm_compute. Qed.

Definition returned {A} (d : A) (o : outcome A) : A := match o with Ret a => a | _ => d end.

Definition created := CreateManager build confs.
Definition m_prepared := returned created (ReloadNamespacePrepare build created (conf "a" [("root", "p3")])).
Definition m_deleted := returned created (DeleteNamespace m_prepared "b").
Definition m_committed := returned created (ReloadNamespaceCommit m_deleted).

(** A reload of [a] is prepared, [b] is deleted, and the reload is committed: [b] is back
    and the password of the reload is refused. *)
Lemma delete_undone_by_commit_witness :
  ReloadNamespaceCommit m_deleted = Ret m_committed /\ GetNamespace m_committed "b" = Some "b" /\
  login m_committed "root" [] (CalcPassword [] (sbytes "p3")) = None.
Proof.
  split; [reflexivity|]. split; [|vm_compute; reflexivity].
  destruct (delete_undone_by_commit build created m_prepared m_deleted m_committed (conf "a" [("root", "p3")]) "b") as [_ H].
  - reflexivity.
  - by eexists.
  - reflexivity.
  - reflexivity.
  - rewrite H. vm_compute. reflexivity.
Defined.
End manager_demo.
