(* ===== verification/Rule.v ===== *)
(** proxy/router/rule.go: sharding rules. A [BaseRule] is built from the
    configuration of one table by [parseRule]; a [LinkedRule] shares the
    sharding of another table. *)

From Stdlib Require Import Ascii String.
From S2P Require Import Prelude GoStr Hack NumKey Shard ShardMycat Models.

Definition DefaultRuleType := models.ShardDefault.
Definition GlobalTableRuleType := models.ShardGlobal.
Definition LinkedTableRuleType := models.ShardLinked.
Definition HashRuleType := models.ShardHash.
Definition RangeRuleType := models.ShardRange.
Definition ModRuleType := models.ShardMod.
Definition DateYearRuleType := models.ShardYear.
Definition DateMonthRuleType := models.ShardMonth.
Definition DateDayRuleType := models.ShardDay.
Definition MycatModRuleType := models.ShardMycatMod.
Definition MycatLongRuleType := models.ShardMycatLong.
Definition MycatStringRuleType := models.ShardMycatString.
Definition MycatMurmurRuleType := models.ShardMycatMURMUR.
Definition MycatPaddingModRuleType := models.ShardMycatPaddingMod.

Definition ErrInvalidArgument : error := Named "ErrInvalidArgument".

Definition IsMycatShardingRule (ruleType : string) : bool :=
  String.eqb ruleType MycatModRuleType || String.eqb ruleType MycatLongRuleType ||
  String.eqb ruleType MycatMurmurRuleType || String.eqb ruleType MycatPaddingModRuleType ||
  String.eqb ruleType MycatStringRuleType.

(** * The dynamic types of the interface Shard *)

Inductive Shard (T : Type) :=
| SHash (s : HashShard)
| SMod (s : ModShard)
| SNumRange (s : NumRangeShard)
| SDateYear (s : DateYearShard)
| SDateMonth (s : DateMonthShard)
| SDateDay (s : DateDayShard)
| SMycatMod (s : MycatPartitionModShard)
| SMycatLong (s : MycatPartitionLongShard)
| SMycatString (s : MycatPartitionStringShard)
| SMycatMurmur (s : MycatPartitionMurmurHashShard T)
| SMycatPaddingMod (s : MycatPartitionPaddingModShard)
| SDefault (s : DefaultShard)
| SGlobalTable (s : GlobalTableShard).
Arguments SHash {T} s.
Arguments SMod {T} s.
Arguments SNumRange {T} s.
Arguments SDateYear {T} s.
Arguments SDateMonth {T} s.
Arguments SDateDay {T} s.
Arguments SMycatMod {T} s.
Arguments SMycatLong {T} s.
Arguments SMycatString {T} s.
Arguments SMycatMurmur {T} s.
Arguments SMycatPaddingMod {T} s.
Arguments SDefault {T} s.
Arguments SGlobalTable {T} s.

Section rule.
Context `{TreeMap T} `{LocalZone}.

#[global] Instance Shard_FindForKey : FindForKey (Shard T) := fun s key =>
  match s with
  | SHash s => find_for_key s key
  | SMod s => find_for_key s key
  | SNumRange s => find_for_key s key
  | SDateYear s => find_for_key s key
  | SDateMonth s => find_for_key s key
  | SDateDay s => find_for_key s key
  | SMycatMod s => find_for_key s key
  | SMycatLong s => find_for_key s key
  | SMycatString s => find_for_key s key
  | SMycatMurmur s => find_for_key s key
  | SMycatPaddingMod s => find_for_key s key
  | SDefault s => find_for_key s key
  | SGlobalTable s => find_for_key s key
  end.

(** The type assertion [shard.(RangeShard)]: its EqualStart when it succeeds. *)
Definition as_RangeShard (s : Shard T) : option (gval -> Z -> outcome bool) :=
  match s with
  | SNumRange s => Some (equal_start s)
  | SDateYear s => Some (equal_start s)
  | SDateMonth s => Some (equal_start s)
  | SDateDay s => Some (equal_start s)
  | _ => None
  end.

(** * Rules *)

Record BaseRule := mk_BaseRule {
  br_db : string;
  br_table : string;
  br_shardingColumn : string;
  br_ruleType : string;
  br_slices : list string;
  br_subTableIndexes : list Z;
  br_tableToSlice : gmap Z Z;
  br_shard : Shard T;
  br_mycatDatabases : list string;
  br_mycatDatabaseToTableIndexMap : gmap string Z }.

Record LinkedRule := mk_LinkedRule {
  lr_db : string;
  lr_table : string;
  lr_shardingColumn : string;
  linkToRule : BaseRule }.

(** The interface Rule and its two implementations. *)
Inductive Rule :=
| RBase (r : BaseRule)
| RLinked (l : LinkedRule).

(** The rule a rule delegates its sharding to. *)
Definition base_of (r : Rule) : BaseRule :=
  match r with RBase b => b | RLinked l => linkToRule l end.

Definition NewDefaultRule (slice : string) : BaseRule :=
  mk_BaseRule "" "" "" DefaultRuleType [slice] [] ∅ (SDefault mk_DefaultShard) [] ∅.

Definition GetDB (r : Rule) : string :=
  match r with RBase b => br_db b | RLinked l => lr_db l end.
Definition GetTable (r : Rule) : string :=
  match r with RBase b => br_table b | RLinked l => lr_table l end.
Definition GetShardingColumn (r : Rule) : string :=
  match r with RBase b => br_shardingColumn b | RLinked l => lr_shardingColumn l end.
Definition IsLinkedRule (r : Rule) : bool :=
  match r with RBase _ => false | RLinked _ => true end.
Definition GetParentDB (l : LinkedRule) : string := br_db (linkToRule l).
Definition GetParentTable (l : LinkedRule) : string := br_table (linkToRule l).
Definition GetShard (r : Rule) : Shard T := br_shard (base_of r).
Definition FindTableIndex (r : Rule) (key : gval) : outcome Z := find_for_key (GetShard r) key.
Definition GetSlice (r : Rule) (i : Z) : outcome string := index (br_slices (base_of r)) i.
Definition GetSliceIndexFromTableIndex (r : Rule) (i : Z) : Z :=
  match br_tableToSlice (base_of r) !! i with Some s => s | None => -1 end.
Definition GetSlices (r : Rule) : list string := br_slices (base_of r).
Definition GetSubTableIndexes (r : Rule) : list Z := br_subTableIndexes (base_of r).
Definition GetFirstTableIndex (r : Rule) : outcome Z := index (GetSubTableIndexes r) 0.
Definition GetLastTableIndex (r : Rule) : outcome Z :=
  index (GetSubTableIndexes r) (zlen (GetSubTableIndexes r) - 1).
Definition GetType (r : Rule) : string := br_ruleType (base_of r).
Definition GetDatabaseNameByTableIndex (r : Rule) (i : Z) : outcome string :=
  let b := base_of r in
  if IsMycatShardingRule (br_ruleType b) || String.eqb (br_ruleType b) GlobalTableRuleType then
    if zlen (br_subTableIndexes b) <? i then Err ErrInvalidArgument
    else index (br_mycatDatabases b) i
  else Ret (br_db b).
Definition GetTableIndexByDatabaseName (r : Rule) (phyDB : string) : option Z :=
  br_mycatDatabaseToTableIndexMap (base_of r) !! phyDB.
Definition GetDatabases (r : Rule) : list string := br_mycatDatabases (base_of r).

(** * Building rules *)

(** [for i := ...; for j := 0; j < locations[i]; j++ { ... }; sumTables += locations[i]] *)
Fixpoint hash_locations (i : Z) (locations : list Z) (sumTables : Z)
    (subTableIndexs : list Z) (tableToSlice : gmap Z Z) {struct locations} :
    list Z * gmap Z Z :=
  match locations with
  | [] => (subTableIndexs, tableToSlice)
  | n :: ls =>
      hash_locations (i + 1) ls (i64 (sumTables + n))
        (subTableIndexs ++ map (fun j => i64 (j + sumTables)) (seqZ 0 n))
        (foldl (fun m j => <[i64 (j + sumTables) := i]> m) tableToSlice (seqZ 0 n))
  end.

Definition parseHashRuleSliceInfos (locations : list Z) (slices : list string) :
    outcome (list Z * gmap Z Z) :=
  if negb (zlen locations =? zlen slices) then Err ErrLocationsCount
  else Ret (hash_locations 0 locations 0 [] ∅).

Definition parseMycatHashRuleSliceInfos (locations : list Z) (slices databases : list string) :
    outcome (list Z * gmap Z Z) :=
  '(subTableIndexs, tableToSlice) ← parseHashRuleSliceInfos locations slices;
  realDatabaseList ← getRealDatabases databases;
  if negb (models.msize tableToSlice =? zlen realDatabaseList) then Err ErrLocationsCount
  else Ret (subTableIndexs, tableToSlice).

(** The loop of the three date parsers over the parser of the kind of range:
    a range may not start before the end of the one before it. *)
Fixpoint date_ranges (parse : string -> outcome (list Z)) (i : Z) (dateRange : list string)
    (subTableIndexs : list Z) (tableToSlice : gmap Z Z) {struct dateRange} :
    outcome (list Z * gmap Z Z) :=
  match dateRange with
  | [] => Ret (subTableIndexs, tableToSlice)
  | r :: rs =>
      numbers ← parse r;
      overlap ← match last subTableIndexs with
                | Some z => n0 ← index numbers 0; Ret (n0 <=? z)
                | None => Ret false
                end;
      if (overlap : bool) then Err ErrDateRangeOverlap
      else date_ranges parse (i + 1) rs (subTableIndexs ++ numbers)
             (foldl (fun m v => <[v := i]> m) tableToSlice numbers)
  end.

Definition parseDateDayRuleSliceInfos (dateRange slices : list string) :
    outcome (list Z * gmap Z Z) :=
  if negb (zlen dateRange =? zlen slices) then Err ErrDateRangeCount
  else date_ranges ParseDayRange 0 dateRange [] ∅.
Definition parseDateMonthRuleSliceInfos (dateRange slices : list string) :
    outcome (list Z * gmap Z Z) :=
  if negb (zlen dateRange =? zlen slices) then Err ErrDateRangeCount
  else date_ranges ParseMonthRange 0 dateRange [] ∅.
Definition parseDateYearRuleSliceInfos (dateRange slices : list string) :
    outcome (list Z * gmap Z Z) :=
  if negb (zlen dateRange =? zlen slices) then Err ErrDateRangeCount
  else date_ranges ParseYearRange 0 dateRange [] ∅.

Definition parseGlobalTableRuleSliceInfos (locations : list Z) (slices databases : list string) :
    outcome (list Z * gmap Z Z) :=
  '(subTableIndexs, tableToSlice) ← parseHashRuleSliceInfos locations slices;
  if negb (zlen databases =? 0) then
    realDatabaseList ← getRealDatabases databases;
    if negb (models.msize tableToSlice =? zlen realDatabaseList) then Err ErrLocationsCount
    else Ret (subTableIndexs, tableToSlice)
  else Ret (subTableIndexs, tableToSlice).

Definition slice_infos : Type := list Z * gmap Z Z * Shard T.

(** Cases of [parseRuleSliceInfos]. *)
Definition parse_range_case (cfg : models.Shard) : outcome slice_infos :=
  '(idx, t2s) ← parseHashRuleSliceInfos (models.Locations cfg) (models.Slices cfg);
  rs ← ParseNumSharding (models.Locations cfg) (models.TableRowLimit cfg);
  if negb (zlen rs =? models.msize t2s)
  then Err (Errorf "range space %d not equal tables %d")
  else Ret (idx, t2s, SNumRange (mk_NumRangeShard rs)).

(** A mycat case: the slice infos, then the shard built for that many tables. *)
Definition parse_mycat_case (cfg : models.Shard) (mk : Z -> outcome (Shard T)) :
    outcome slice_infos :=
  '(idx, t2s) ← parseMycatHashRuleSliceInfos (models.Locations cfg) (models.Slices cfg)
                  (models.Databases cfg);
  shard ← mk (models.msize t2s);
  Ret (idx, t2s, shard).

Definition mk_mycat_long (cfg : models.Shard) (n : Z) : outcome (Shard T) :=
  s ← Long_Init (NewMycatPartitionLongShard n (models.PartitionCount cfg)
                   (models.PartitionLength cfg));
  Ret (SMycatLong s).
Definition mk_mycat_string (cfg : models.Shard) (n : Z) : outcome (Shard T) :=
  s ← String_Init (NewMycatPartitionStringShard n (models.PartitionCount cfg)
                     (models.PartitionLength cfg) (models.HashSlice cfg));
  Ret (SMycatString s).
Definition mk_mycat_murmur (cfg : models.Shard) (n : Z) : outcome (Shard T) :=
  s ← NewMycatPartitionMurmurHashShard (models.Seed cfg) (models.VirtualBucketTimes cfg) n;
  Ret (SMycatMurmur (Murmur_Init s)).
Definition mk_mycat_padding (cfg : models.Shard) (n : Z) : outcome (Shard T) :=
  s ← GetMycatPartitionPaddingModShard (models.PadFrom cfg) (models.PadLength cfg)
        (models.ModBegin cfg) (models.ModEnd cfg) n;
  _ ← PaddingMod_Init s;
  Ret (SMycatPaddingMod s).

Definition parseRuleSliceInfos (cfg : models.Shard) : outcome slice_infos :=
  let ty := models.Type_ cfg in
  if String.eqb ty HashRuleType then
    '(idx, t2s) ← parseHashRuleSliceInfos (models.Locations cfg) (models.Slices cfg);
    Ret (idx, t2s, SHash (mk_HashShard (models.msize t2s)))
  else if String.eqb ty ModRuleType then
    '(idx, t2s) ← parseHashRuleSliceInfos (models.Locations cfg) (models.Slices cfg);
    Ret (idx, t2s, SMod (mk_ModShard (models.msize t2s)))
  else if String.eqb ty RangeRuleType then parse_range_case cfg
  else if String.eqb ty DateDayRuleType then
    '(idx, t2s) ← parseDateDayRuleSliceInfos (models.DateRange cfg) (models.Slices cfg);
    Ret (idx, t2s, SDateDay mk_DateDayShard)
  else if String.eqb ty DateMonthRuleType then
    '(idx, t2s) ← parseDateMonthRuleSliceInfos (models.DateRange cfg) (models.Slices cfg);
    Ret (idx, t2s, SDateMonth mk_DateMonthShard)
  else if String.eqb ty DateYearRuleType then
    '(idx, t2s) ← parseDateYearRuleSliceInfos (models.DateRange cfg) (models.Slices cfg);
    Ret (idx, t2s, SDateYear mk_DateYearShard)
  else if String.eqb ty MycatModRuleType then
    parse_mycat_case cfg (fun n => Ret (SMycatMod (NewMycatPartitionModShard n)))
  else if String.eqb ty MycatLongRuleType then parse_mycat_case cfg (mk_mycat_long cfg)
  else if String.eqb ty MycatStringRuleType then parse_mycat_case cfg (mk_mycat_string cfg)
  else if String.eqb ty MycatMurmurRuleType then parse_mycat_case cfg (mk_mycat_murmur cfg)
  else if String.eqb ty MycatPaddingModRuleType then parse_mycat_case cfg (mk_mycat_padding cfg)
  else if String.eqb ty GlobalTableRuleType then
    '(idx, t2s) ← parseGlobalTableRuleSliceInfos (models.Locations cfg) (models.Slices cfg)
                    (models.Databases cfg);
    Ret (idx, t2s, SGlobalTable mk_GlobalTableShard)
  else Err ErrUnknownRuleType.

(** [for i, db := range dbs { m[db] = i }] *)
Definition index_databases (dbs : list string) : gmap string Z :=
  foldl (fun m e => <[e.2 := e.1]> m) ∅ (zip (seqZ 0 (zlen dbs)) dbs).

Definition parseRule (cfg : models.Shard) : outcome BaseRule :=
  '(idx, t2s, shard) ← parseRuleSliceInfos cfg;
  mycatDatabases ←
    (if IsMycatShardingRule (models.Type_ cfg) then getRealDatabases (models.Databases cfg)
     else if String.eqb (models.Type_ cfg) GlobalTableRuleType then
       if negb (zlen (models.Databases cfg) =? 0) then getRealDatabases (models.Databases cfg)
       else Ret (map (fun _ => models.DB cfg) idx)
     else Ret []);
  Ret (mk_BaseRule (models.DB cfg) (ToLower (models.Table cfg)) (ToLower (models.Key cfg))
         (models.Type_ cfg) (models.Slices cfg) idx t2s shard mycatDatabases
         (index_databases mycatDatabases)).

(** [rules map[string]map[string]Rule] *)
#[local] Abbreviation rule_map := (gmap string (gmap string Rule)).

Definition createLinkedRule (rules : rule_map) (shard : models.Shard) : outcome LinkedRule :=
  if negb (String.eqb (models.Type_ shard) LinkedTableRuleType)
  then Err (Errorf "LinkedRule type is not linked: %v") else
  match rules !! models.DB shard with
  | None => Err (Errorf "db of LinkedRule is not found in parent rules")
  | Some tableRules =>
      match tableRules !! ToLower (models.ParentTable shard) with
      | None => Err (Errorf "parent table of LinkedRule is not found in parent rules")
      | Some dbRule =>
          if String.eqb (GetType dbRule) LinkedTableRuleType
          then Err (Errorf "LinkedRule cannot link to another LinkedRule") else
          match dbRule with
          | RLinked _ => Err (Errorf "LinkedRule must link to a BaseRule")
          | RBase b => Ret (mk_LinkedRule (models.DB shard) (ToLower (models.Table shard))
                              (ToLower (models.Key shard)) b)
          end
      end
  end.

End rule.
Arguments BaseRule T : clear implicits.
Arguments LinkedRule T : clear implicits.
Arguments Rule T : clear implicits.
Abbreviation rule_map T := (gmap string (gmap string (Rule T))).
Arguments slice_infos T : clear implicits.

(** * The tables of a rule *)

Lemma foldl_insert_const {A} (f : A -> Z) i (l : list A) (m : gmap Z Z) k :
  foldl (fun m j => <[f j := i]> m) m l !! k =
    if decide (k ∈ map f l) then Some i else m !! k.
Proof.
  revert m. induction l as [|a l IH]; intros m; cbn [foldl map].
  - by rewrite decide_False by set_solver.
  - rewrite IH. destruct (decide (k ∈ map f l)) as [Hk|Hk].
    + by rewrite decide_True by set_solver.
    + destruct (decide (k = f a)) as [->|Hne].
      * rewrite lookup_insert_eq, decide_True by set_solver. done.
      * rewrite lookup_insert_ne by done. rewrite decide_False by set_solver. done.
Qed.

Lemma map_i64_seqZ sum n :
  0 <= sum -> 0 <= n -> sum + n <= max_i64 ->
  map (fun j => i64 (j + sum)) (seqZ 0 n) = seqZ sum n.
Proof.
  intros Hs Hn Hm. replace (seqZ sum n) with (seqZ (sum + 0) n) by (f_equal; lia).
  rewrite <- fmap_add_seqZ.
  apply list_fmap_ext. intros j x Hx. apply lookup_seqZ in Hx as [-> Hj].
  rewrite i64_id by (unfold_int; lia). lia.
Qed.

(** The indexes are the numbers of all the tables in order; the [k]-th table
    lies in the slice whose share of the tables contains [k]. *)
Lemma hash_locations_spec i locs sum idx m :
  Forall (Z.le 0) locs -> 0 <= sum -> sum + zsum locs <= max_i64 ->
  (hash_locations i locs sum idx m).1 = idx ++ seqZ sum (zsum locs) /\
  forall k, (hash_locations i locs sum idx m).2 !! k =
    if decide (sum <= k < sum + zsum locs) then Some (i + ref_table locs (k - sum)) else m !! k.
Proof.
  revert i sum idx m. induction locs as [|n locs IH]; intros i sum idx m Hl Hs Hm.
  - cbn. split; [by rewrite app_nil_r|]. intros k. by rewrite decide_False by lia.
  - apply Forall_cons in Hl as [Hn Hl]. pose proof (zsum_nonneg locs Hl).
    cbn [zsum foldr] in *. fold (zsum locs) in *. cbn [hash_locations].
    rewrite (i64_id (sum + n)) by (unfold_int; lia).
    destruct (IH (i + 1) (sum + n) (idx ++ map (fun j => i64 (j + sum)) (seqZ 0 n))
                (foldl (fun m j => <[i64 (j + sum) := i]> m) m (seqZ 0 n))) as [H1 H2];
      [done|lia|lia|].
    rewrite H1. split.
    + rewrite map_i64_seqZ by lia. rewrite <- app_assoc. f_equal.
      rewrite seqZ_app by lia. done.
    + intros k. rewrite H2, foldl_insert_const, map_i64_seqZ by lia. cbn [ref_table].
      destruct (decide (sum + n <= k < sum + n + zsum locs)).
      * rewrite decide_True by lia. destruct (k - sum <? n) eqn:E; [lia|].
        f_equal. replace (k - sum - n) with (k - (sum + n)) by lia. lia.
      * destruct (decide (k ∈ seqZ sum n)) as [Hk|Hk]; rewrite elem_of_seqZ in Hk.
        -- rewrite decide_True by lia. destruct (k - sum <? n) eqn:E; [f_equal|]; lia.
        -- rewrite decide_False by lia. done.
Qed.

Lemma ref_table_bound lens h :
  Forall (Z.le 0) lens -> 0 <= h < zsum lens -> 0 <= ref_table lens h < zlen lens.
Proof.
  revert h. induction lens as [|l ls IH]; intros h Hl Hh; [cbn in Hh; lia|].
  apply Forall_cons in Hl as [Hl Hls]. cbn [zsum foldr ref_table] in *. fold (zsum ls) in *.
  rewrite zlen_cons. pose proof (zlen_nonneg ls).
  destruct (h <? l) eqn:E; [lia|]. specialize (IH (h - l) Hls). lia.
Qed.

(** [ref_table] finds the share that contains [h]. *)
Lemma ref_table_share lens h :
  Forall (Z.le 0) lens -> 0 <= h < zsum lens ->
  let p := Z.to_nat (ref_table lens h) in
  zsum (take p lens) <= h < zsum (take (S p) lens).
Proof.
  revert h. induction lens as [|l ls IH]; intros h Hl Hh; [cbn in Hh; lia|].
  apply Forall_cons in Hl as [Hl Hls]. cbn [zsum foldr] in Hh. fold (zsum ls) in Hh.
  cbn [ref_table]. destruct (h <? l) eqn:E; [cbv zeta; change (Z.to_nat 0) with 0%nat; cbn [take zsum foldr];
    rewrite take_0; cbn [foldr]; lia|].
  pose proof (ref_table_bound ls (h - l) Hls ltac:(lia)).
  specialize (IH (h - l) Hls ltac:(lia)).
  replace (Z.to_nat (1 + ref_table ls (h - l))) with (S (Z.to_nat (ref_table ls (h - l)))) by lia.
  cbv zeta in *. cbn [zsum foldr take] in *. fold zsum in *. unfold zsum in *. lia.
Qed.

Lemma msize_seqZ (m : gmap Z Z) n :
  0 <= n -> (forall k, is_Some (m !! k) <-> 0 <= k < n) -> models.msize m = n.
Proof.
  intros Hn Hm. unfold models.msize. rewrite <- size_dom.
  assert (dom m = list_to_set (seqZ 0 n)) as ->.
  { apply set_eq. intros k. rewrite elem_of_dom, Hm, elem_of_list_to_set, elem_of_seqZ. lia. }
  rewrite size_list_to_set by apply NoDup_seqZ. rewrite length_seqZ. lia.
Qed.

(** What [parseHashRuleSliceInfos] returns, without its loop. *)
Lemma parseHash_eq locs slices idx t2s :
  parseHashRuleSliceInfos locs slices = Ret (idx, t2s) ->
  Forall (Z.le 0) locs -> zsum locs <= max_i64 ->
  zlen locs = zlen slices /\ idx = seqZ 0 (zsum locs) /\ models.msize t2s = zsum locs /\
  forall k, t2s !! k = if decide (0 <= k < zsum locs) then Some (ref_table locs k) else None.
Proof.
  unfold parseHashRuleSliceInfos. intros Hp Hl Hm.
  destruct (zlen locs =? zlen slices) eqn:E; [|done]. cbn [negb] in Hp. injection Hp as Hp.
  destruct (hash_locations_spec 0 locs 0 [] ∅ Hl) as [H1 H2]; [lia|lia|].
  rewrite Hp in H1, H2. cbn [fst snd app] in *.
  assert (forall k, t2s !! k = if decide (0 <= k < zsum locs) then Some (ref_table locs k) else None)
    as H3 by (intros k; rewrite H2, Z.sub_0_r; done).
  split_and!; [lia|done| |done].
  apply msize_seqZ; [by apply zsum_nonneg|]. intros k. rewrite H3.
  case_decide; split; intros Hk; try lia; try done; by destruct Hk.
Qed.

(** ** Date ranges *)

Lemma month_loop_low n y m :
  m <= 13 ->
  ascending (month_loop n y m) /\
  Forall (Z.le (if m =? 13 then (y + 1) * 100 + 1 else y * 100 + m)) (month_loop n y m).
Proof.
  revert y m. induction n as [|n IH]; intros y m Hm; cbn [month_loop];
    [split; [apply ascending_nil|constructor]|].
  destruct (12 <? m) eqn:E.
  - replace m with 13 by lia. cbn [Z.eqb Pos.eqb]. change (Z.rem 13 12) with 1.
    destruct (IH (y + 1) (1 + 1)) as [H1 H2]; [lia|].
    change (1 + 1 =? 13) with false in H2. cbn beta iota in H2.
    rewrite ascending_cons. split_and!; [done| |constructor; [lia|]];
      (eapply Forall_impl; [exact H2|]); intros v Hv; cbn beta in *; lia.
  - destruct (m =? 13) eqn:E2; [lia|]. destruct (IH y (m + 1)) as [H1 H2]; [lia|].
    rewrite ascending_cons.
    split_and!; [done| |constructor; [lia|]];
      (eapply Forall_impl; [exact H2|]); intros v Hv; cbn beta in *;
      destruct (m + 1 =? 13) eqn:E3; lia.
Qed.

Lemma month_loop_ascending n y m : ascending (month_loop n y m).
Proof.
  destruct (decide (m <= 13)); [by apply month_loop_low|].
  destruct n as [|n]; [apply ascending_nil|]. cbn [month_loop].
  destruct (12 <? m) eqn:E; [|lia]. pose proof (Z.rem_bound_pos m 12 ltac:(lia) ltac:(lia)).
  destruct (month_loop_low n (y + 1) (Z.rem m 12 + 1)) as [H1 H2]; [lia|].
  apply ascending_cons. split; [done|]. eapply Forall_impl; [exact H2|].
  intros v Hv; cbn beta in *. destruct (Z.rem m 12 + 1 =? 13) eqn:E2; lia.
Qed.

Lemma ascending_single x : ascending [x].
Proof. apply ascending_cons. split; [apply ascending_nil|constructor]. Qed.

#[local] Hint Resolve ascending_single month_loop_ascending ascending_seqZ ascending_nil : dbproxy.

Lemma ParseDayRange_ascending s l : ParseDayRange s = Ret l -> ascending l.
Proof.
  unfold ParseDayRange. destruct (SplitN2 "-" s) as [|a [|b [|]]]; try done; intros Hp.
  - invert_ret. auto with dbproxy.
  - destruct (negb _ || _); [done|]. destruct (if sltb b a then _ else _) as [a' b'].
    invert_ret. apply ParseDate8_valid in H as [Hv Hy], H0 as [Hv' Hy'].
    destruct (day_list_spec a0 a1) as (l' & Hl' & Hasc & _); [done|done|lia|lia|].
    rewrite Hp in Hl'. by injection Hl' as ->.
Qed.

Lemma ParseMonthRange_ascending s l : ParseMonthRange s = Ret l -> ascending l.
Proof.
  unfold ParseMonthRange. destruct (SplitN2 "-" s) as [|a [|b [|]]]; try done; intros Hp.
  - invert_ret. auto with dbproxy.
  - destruct (negb _ || _); [done|]. destruct (if sltb b a then _ else _) as [a' b'].
    invert_ret. auto with dbproxy.
Qed.

Lemma ParseYearRange_ascending s l : ParseYearRange s = Ret l -> ascending l.
Proof.
  unfold ParseYearRange. destruct (SplitN2 "-" s) as [|a [|b [|]]]; try done; intros Hp.
  - invert_ret. auto with dbproxy.
  - destruct (if sltb b a then _ else _) as [a' b']. invert_ret. auto with dbproxy.
Qed.

(** An ascending list whose head follows the last element of another extends it. *)
Lemma ascending_join l k :
  ascending l -> ascending k ->
  (forall z, last l = Some z -> exists n0, index k 0 = Ret n0 /\ z < n0) ->
  ascending (l ++ k).
Proof.
  intros Hl Hk Hz. apply ascending_app. split_and!; [done|done|]. intros x y Hx Hy.
  destruct (last l) as [z|] eqn:Elast.
  - destruct (Hz z eq_refl) as (n0 & Hn0 & Hlt).
    assert (x <= z).
    { apply last_Some in Elast as [l' ->]. apply ascending_app in Hl as (_ & _ & Hl).
      apply elem_of_app in Hx as [Hx|Hx]; [|set_solver]. specialize (Hl x z Hx). set_solver by lia. }
    assert (n0 <= y); [|lia].
    destruct k as [|b k]; [by apply elem_of_nil in Hy|]. injection Hn0 as <-.
    apply ascending_cons in Hk as [_ Hk]. rewrite Forall_forall in Hk.
    apply elem_of_cons in Hy as [->|Hy]; [lia|]. apply Hk in Hy. lia.
  - apply last_None in Elast as ->. by apply elem_of_nil in Hx.
Qed.

Section date_ranges.
Context (parse : string -> outcome (list Z)).
Hypothesis parse_ascending : forall s l, parse s = Ret l -> ascending l.

Lemma date_ranges_spec i rs idx m idx' m' :
  date_ranges parse i rs idx m = Ret (idx', m') ->
  ascending idx -> (forall v, v ∈ idx <-> is_Some (m !! v)) ->
  ascending idx' /\ (forall v, v ∈ idx' <-> is_Some (m' !! v)) /\
  (forall v s, m' !! v = Some s <->
     m !! v = Some s \/
     exists p r l, rs !! p = Some r /\ parse r = Ret l /\ v ∈ l /\ s = i + Z.of_nat p).
Proof.
  revert i idx m. induction rs as [|r rs IH]; intros i idx m Hd Ha Hm.
  - injection Hd as <- <-. split_and!; [done|done|]. intros v s. split; [by left|].
    intros [?|(p & r & l & Hp & _)]; [done|by rewrite lookup_nil in Hp].
  - cbn [date_ranges] in Hd. apply bind_Ret in Hd as (nums & Hn & Hd).
    apply bind_Ret in Hd as ([] & Ho & Hd); [done|].
    pose proof (parse_ascending _ _ Hn) as Hna.
    assert (ascending (idx ++ nums)) as Hj.
    { apply ascending_join; [done|done|]. intros z Hz. rewrite Hz in Ho. invert_ret.
      exists a. split; [done|]. lia. }
    assert (forall v, v ∈ idx -> v ∈ nums -> False) as Hdis.
    { intros v H1 H2. apply ascending_app in Hj as (_ & _ & Hj). specialize (Hj v v H1 H2). lia. }
    apply IH in Hd as (H1 & H2 & H3); [|done|].
    + split_and!; [done|done|]. intros v s. rewrite H3, (foldl_insert_const id).
      replace (map id nums) with nums by (symmetry; apply list_fmap_id).
      split.
      * intros [Hv|(p & r' & l & Hp & Hl & Hv & ->)].
        -- destruct (decide (v ∈ nums)) as [Hin|Hin]; [|by left].
           injection Hv as <-. right. exists O, r, nums. split_and!; [done|done|done|lia].
        -- right. exists (S p), r', l. split_and!; [done|done|done|lia].
      * intros [Hv|(p & r' & l & Hp & Hl & Hv & ->)].
        -- left. rewrite decide_False; [done|]. intros Hin. apply (Hdis v); [|done].
           apply Hm. eauto.
        -- destruct p as [|p]; cbn in Hp.
           ++ injection Hp as <-. rewrite Hn in Hl. injection Hl as <-. left.
              rewrite decide_True by done. f_equal. lia.
           ++ right. exists p, r', l. split_and!; [done|done|done|lia].
    + intros v. rewrite elem_of_app, (foldl_insert_const id).
      replace (map id nums) with nums by (symmetry; apply list_fmap_id).
      rewrite Hm. case_decide; naive_solver.
Qed.

End date_ranges.

(** The slice infos of a date rule: the indexes are the ascending numbers of
    all ranges, and each number lies in the slice of its range. *)
Definition date_infos (parse : string -> outcome (list Z)) (dateRange slices : list string)
    (idx : list Z) (t2s : gmap Z Z) : Prop :=
  ascending idx /\ (forall v, v ∈ idx <-> is_Some (t2s !! v)) /\
  forall v s, t2s !! v = Some s <->
    0 <= s < zlen slices /\ exists r l,
      dateRange !! Z.to_nat s = Some r /\ parse r = Ret l /\ v ∈ l.

Lemma date_infos_ok parse dateRange slices idx t2s :
  (forall s l, parse s = Ret l -> ascending l) ->
  zlen dateRange = zlen slices ->
  date_ranges parse 0 dateRange [] ∅ = Ret (idx, t2s) ->
  date_infos parse dateRange slices idx t2s.
Proof.
  intros Hp Hlen Hd.
  destruct (date_ranges_spec _ Hp _ _ _ _ _ _ Hd) as (H1 & H2 & H3);
    [apply ascending_nil|intros v; rewrite lookup_empty; split; [set_solver|by intros []]|].
  split_and!; [done|done|]. intros v s. rewrite H3, lookup_empty. split.
  - intros [?|(p & r & l & Hpr & Hl & Hv & ->)]; [done|].
    pose proof (lookup_lt_Some _ _ _ Hpr). unfold zlen in *. split; [lia|].
    exists r, l. rewrite Z.add_0_l, Nat2Z.id. done.
  - intros (Hs & r & l & Hpr & Hl & Hv). right. exists (Z.to_nat s), r, l.
    split_and!; [done|done|done|lia].
Qed.

Lemma parseDate_cases dateRange slices idx t2s :
  (parseDateDayRuleSliceInfos dateRange slices = Ret (idx, t2s) ->
     date_infos ParseDayRange dateRange slices idx t2s) /\
  (parseDateMonthRuleSliceInfos dateRange slices = Ret (idx, t2s) ->
     date_infos ParseMonthRange dateRange slices idx t2s) /\
  (parseDateYearRuleSliceInfos dateRange slices = Ret (idx, t2s) ->
     date_infos ParseYearRange dateRange slices idx t2s).
Proof.
  unfold parseDateDayRuleSliceInfos, parseDateMonthRuleSliceInfos, parseDateYearRuleSliceInfos.
  destruct (zlen dateRange =? zlen slices) eqn:E; cbn [negb]; [|done].
  split_and!; apply date_infos_ok; try lia;
    eauto using ParseDayRange_ascending, ParseMonthRange_ascending, ParseYearRange_ascending.
Qed.

(** A date rule that parses has the ascending list of all table numbers of
    its ranges as its indexes, and each table number lies exactly in the slice
    of the range that contains it, for day, month and year ranges. *)
Theorem parseDate_spec dateRange slices idx t2s :
  (parseDateDayRuleSliceInfos dateRange slices = Ret (idx, t2s) ->
     date_infos ParseDayRange dateRange slices idx t2s) /\
  (parseDateMonthRuleSliceInfos dateRange slices = Ret (idx, t2s) ->
     date_infos ParseMonthRange dateRange slices idx t2s) /\
  (parseDateYearRuleSliceInfos dateRange slices = Ret (idx, t2s) ->
     date_infos ParseYearRange dateRange slices idx t2s).
Proof. apply parseDate_cases. Qed.

Lemma parseDate_spec_witness :
  exists idx t2s,
    parseDateMonthRuleSliceInfos ["201511-201601"; "201603"] ["slice-0"; "slice-1"] =
      Ret (idx, t2s) /\
    date_infos ParseMonthRange ["201511-201601"; "201603"] ["slice-0"; "slice-1"] idx t2s.
Proof.
  eexists _, _. split; [reflexivity|].
  apply (parseDate_spec ["201511-201601"; "201603"] ["slice-0"; "slice-1"]). reflexivity.
Defined.

(** * The invariant of parsed rules *)

Section rule_invariant.
Context {T} {TM : TreeMap T} {TMO : TreeMapOk T} {LZ : LocalZone}.

(** Indexes are ascending; exactly they are mapped, to slices of the rule. *)
Record infos_wf (idx : list Z) (t2s : gmap Z Z) (slices : list string) : Prop := {
  wf_ascending : ascending idx;
  wf_mapped i : i ∈ idx <-> is_Some (t2s !! i);
  wf_slice i s : t2s !! i = Some s -> 0 <= s < zlen slices }.

Definition rule_wf (b : BaseRule T) : Prop :=
  infos_wf (br_subTableIndexes b) (br_tableToSlice b) (br_slices b).

(** Every sub table of a well-formed rule lies in a slice the rule names. *)
Lemma rule_wf_slice b i :
  rule_wf b -> i ∈ br_subTableIndexes b ->
  exists name, GetSlice (RBase b) (GetSliceIndexFromTableIndex (RBase b) i) = Ret name /\
    name ∈ br_slices b.
Proof.
  intros [_ Hm Hs] Hi. apply Hm in Hi as [s Hi]. pose proof (Hs _ _ Hi) as Hr.
  unfold GetSlice, GetSliceIndexFromTableIndex. cbn [base_of]. rewrite Hi.
  destruct (index_in_range (br_slices b) s Hr) as (name & -> & Hn).
  exists name. split; [done|]. by eapply list_elem_of_lookup_2.
Qed.

Lemma parseHash_wf locs slices idx t2s :
  Forall (Z.le 0) locs -> zsum locs <= max_i64 ->
  parseHashRuleSliceInfos locs slices = Ret (idx, t2s) -> infos_wf idx t2s slices.
Proof.
  intros Hl Hm Hp. destruct (parseHash_eq _ _ _ _ Hp Hl Hm) as (Hlen & -> & _ & Ht).
  split; [apply ascending_seqZ|intros i; rewrite elem_of_seqZ, Ht|intros i s; rewrite Ht].
  - case_decide; split; intros Hi; try lia; try done; by destruct Hi.
  - case_decide; intros [= <-]. rewrite <- Hlen. by apply ref_table_bound.
Qed.

Lemma parseMycatHash_inv locs slices dbs idx t2s :
  parseMycatHashRuleSliceInfos locs slices dbs = Ret (idx, t2s) ->
  parseHashRuleSliceInfos locs slices = Ret (idx, t2s) /\
  exists l, getRealDatabases dbs = Ret l /\ zlen l = models.msize t2s.
Proof.
  unfold parseMycatHashRuleSliceInfos. intros Hp. apply bind_Ret in Hp as ([idx0 t0] & Hh & Hp).
  apply bind_Ret in Hp as (l & Hl & Hp). destruct (_ =? _) eqn:E; [|done].
  injection Hp as -> ->. split; [done|]. exists l. split; [done|]. lia.
Qed.

Lemma date_infos_wf parse dateRange slices idx t2s :
  date_infos parse dateRange slices idx t2s -> infos_wf idx t2s slices.
Proof. intros (H1 & H2 & H3). split; [done|done|]. intros i s Hi. by apply H3 in Hi as [? _]. Qed.

(** No location is negative, and the number of tables fits an int. *)
Definition tables_ok (cfg : models.Shard) : Prop :=
  Forall (Z.le 0) (models.Locations cfg) /\ zsum (models.Locations cfg) <= max_i64.

Lemma parse_mycat_inv cfg mk idx t2s (s : Shard T) :
  parse_mycat_case cfg mk = Ret (idx, t2s, s) ->
  parseHashRuleSliceInfos (models.Locations cfg) (models.Slices cfg) = Ret (idx, t2s) /\
  mk (models.msize t2s) = Ret s /\
  exists l, getRealDatabases (models.Databases cfg) = Ret l /\ zlen l = models.msize t2s.
Proof.
  unfold parse_mycat_case. intros Hp. apply bind_Ret in Hp as ([idx0 t0] & Hh & Hp).
  apply bind_Ret in Hp as (sh & Hs & [= -> -> ->]). apply parseMycatHash_inv in Hh as [? ?]. done.
Qed.

(** The slice infos of a rule are those of its locations, or of its dates. *)
Lemma parseRuleSliceInfos_inv cfg idx t2s (s : Shard T) :
  parseRuleSliceInfos cfg = Ret (idx, t2s, s) ->
  parseHashRuleSliceInfos (models.Locations cfg) (models.Slices cfg) = Ret (idx, t2s) \/
  exists parse, date_infos parse (models.DateRange cfg) (models.Slices cfg) idx t2s.
Proof.
  unfold parseRuleSliceInfos. intros Hp.
  assert (forall (m : outcome (list Z * gmap Z Z)) sh,
    ('(idx, t2s) ← m; Ret (idx, t2s, sh idx t2s)) = Ret (idx, t2s, s) -> m = Ret (idx, t2s)) as K.
  { intros m sh Hm. apply bind_Ret in Hm as ([i0 t0] & Hm & [= -> -> _]). done. }
  pose proof (parseDate_cases (models.DateRange cfg) (models.Slices cfg) idx t2s) as (D1 & D2 & D3).
  repeat match type of Hp with
    | (if ?c then _ else _) = _ => destruct c
    end;
    try (apply parse_mycat_inv in Hp as (? & _); by left); try done.
  1,2: left; by apply K in Hp.
  2-4: right; eexists; apply K in Hp; eauto.
  - left. unfold parse_range_case in Hp. apply bind_Ret in Hp as ([idx0 t0] & Hh & Hp).
    apply bind_Ret in Hp as (? & _ & Hp). destruct (negb _); [done|]. by injection Hp as -> -> _.
  - left. apply K in Hp. unfold parseGlobalTableRuleSliceInfos in Hp.
    apply bind_Ret in Hp as ([idx0 t0] & Hh & Hp). rewrite Hh. destruct (negb _); [|done].
    apply bind_Ret in Hp as (? & _ & Hp). by destruct (negb _).
Qed.

Lemma parseRule_inv cfg (b : BaseRule T) :
  parseRule cfg = Ret b ->
  exists dbs, b = mk_BaseRule (models.DB cfg) (ToLower (models.Table cfg))
    (ToLower (models.Key cfg)) (models.Type_ cfg) (models.Slices cfg) (br_subTableIndexes b)
    (br_tableToSlice b) (br_shard b) dbs (index_databases dbs) /\
  parseRuleSliceInfos cfg = Ret (br_subTableIndexes b, br_tableToSlice b, br_shard b).
Proof.
  unfold parseRule. intros Hp. apply bind_Ret in Hp as ([[idx t2s] s] & Hi & Hp).
  apply bind_Ret in Hp as (dbs & _ & [= <-]). exists dbs. cbn. done.
Qed.

Lemma parseRule_wf_lemma cfg b : tables_ok cfg -> parseRule cfg = Ret b -> rule_wf b.
Proof.
  intros [Hl Hm] Hp. apply parseRule_inv in Hp as (dbs & Hb & Hi). unfold rule_wf.
  replace (br_slices b) with (models.Slices cfg) by (by rewrite Hb).
  apply parseRuleSliceInfos_inv in Hi as [Hh|[parse Hd]];
    eauto using parseHash_wf, date_infos_wf.
Qed.

(** ** Every returned index is a table of the rule *)

Lemma find_range_bound k rs v i : find_range k rs v = Ret i -> k <= i < k + zlen rs.
Proof.
  revert k. induction rs as [|r rs IH]; intros k; cbn [find_range]; [done|].
  rewrite zlen_cons. pose proof (zlen_nonneg rs). destruct (Contains r v).
  - intros [= ->]. lia.
  - intros Hi%IH. lia.
Qed.

Lemma Hash_index_bound n key i :
  0 <= n <= max_i64 -> find_for_key (mk_HashShard n) key = Ret i -> 0 <= i < n.
Proof.
  intros Hn Hf. destruct (decide (n = 0)) as [->|]; [|eapply HashShard_bound; [lia|done]].
  unfold find_for_key, HashShard_FindForKey in Hf. invert_ret. by apply go_rem_Ret in H0 as [? _].
Qed.

Lemma Mod_index_bound n key i :
  0 <= n <= max_i64 -> gval_wf key -> NumValue key <> Ret min_i64 ->
  find_for_key (mk_ModShard n) key = Ret i -> 0 <= i < n.
Proof.
  intros Hn Hk Hm Hf. assert (exists v, NumValue key = Ret v) as [v Hv].
  { unfold find_for_key, ModShard_FindForKey in Hf. apply bind_Ret in Hf as (v & Hv & _). eauto. }
  destruct (decide (n = 0)) as [->|].
  - unfold find_for_key, ModShard_FindForKey in Hf. invert_ret. by apply go_rem_Ret in H0 as [? _].
  - eapply ModShard_bound; [lia|done|exact Hv| |done]. congruence.
Qed.

(** The mycat mod shard computes like the mod shard. *)
Lemma MycatMod_eq n key :
  find_for_key (NewMycatPartitionModShard n) key = find_for_key (mk_ModShard n) key.
Proof. done. Qed.

Lemma Murmur_index_bound (m : MycatPartitionMurmurHashShard T) key i :
  find_for_key (Murmur_Init m) key = Ret i -> 0 <= i < murmur_count m.
Proof.
  unfold find_for_key, MycatPartitionMurmurHashShard_FindForKey. intros Hf.
  apply bind_Ret in Hf as (k & _ & Hf). cbn [bucketMap Murmur_Init seed] in Hf.
  assert (forall j v, tm_get (generateBucketMap m tm_new) j = Some v -> 0 <= v < murmur_count m)
    as Hr.
  { apply (generate_range m); [intros j Hj; apply elem_of_seqZ in Hj; lia|].
    intros j v Hj. by rewrite tm_get_new in Hj. }
  unfold bucket_lookup in Hf.
  destruct (tm_ceiling _ _) as [[k' v]|] eqn:Ec.
  - injection Hf as <-. apply tm_ceiling_Some in Ec as (_ & Hg & _). eauto.
  - destruct (tm_min _) as [[k' v]|] eqn:Em; [|done].
    injection Hf as <-. apply tm_min_Some in Em as (Hg & _). eauto.
Qed.

Lemma Long_index_bound m0 m h i :
  0 <= shardNum m0 -> Long_Init m0 = Ret m -> segment_at m h = Ret i -> 0 <= i < shardNum m0.
Proof.
  intros H0 Hi Hs. apply Long_Init_ok in Hi as (Hn & _ & Hl & Hseg); [|done].
  destruct (segment_at_ok m h) as (i' & Hi' & Hb); [done|by rewrite Hn|].
  rewrite Hs in Hi'. injection Hi' as <-. lia.
Qed.

(** The keys an algorithm sends to a table of the rule whenever it returns. *)
Definition routable (s : Shard T) (key : gval) : Prop :=
  match s with
  | SHash _ | SNumRange _ | SMycatLong _ | SMycatString _ | SMycatMurmur _ => True
  | SMod _ | SMycatMod _ => NumValue key <> Ret min_i64
  | SMycatPaddingMod _ => forall v, NumValue key = Ret v -> 0 <= v
  | SDateYear _ | SDateMonth _ | SDateDay _ | SDefault _ | SGlobalTable _ => False
  end.

Lemma mycat_index_bound cfg mk n (s : Shard T) key i :
  0 <= n <= max_i64 ->
  (mk = mk_mycat_long cfg \/ mk = mk_mycat_string cfg \/ mk = mk_mycat_murmur cfg \/
   mk = mk_mycat_padding cfg) ->
  mk n = Ret s -> routable s key -> find_for_key s key = Ret i -> 0 <= i < n.
Proof.
  intros Hn Hmk Hs Hr Hf. destruct Hmk as [->|[->|[->| ->]]].
  - apply bind_Ret in Hs as (m & Hm & [= <-]). cbn in Hf. apply bind_Ret in Hf as (h & _ & Hf).
    eapply Long_index_bound in Hm; cbn in *; eauto. lia.
  - apply bind_Ret in Hs as (m & Hm & [= <-]). apply bind_Ret in Hm as (lg & Hlg & Hm).
    apply bind_Ret in Hm as ([? ?] & _ & [= <-]). cbn in Hf.
    apply bind_Ret in Hf as (k & _ & Hf). apply bind_Ret in Hf as (h & _ & Hf).
    eapply Long_index_bound in Hlg; cbn in *; eauto. lia.
  - apply bind_Ret in Hs as (m & Hm & [= <-]). cbn in Hf. apply Murmur_index_bound in Hf.
    unfold NewMycatPartitionMurmurHashShard in Hm. invert_ret. done.
  - apply bind_Ret in Hs as (m & Hm & Hs). apply bind_Ret in Hs as ([] & Hi & [= <-]).
    unfold GetMycatPartitionPaddingModShard in Hm. invert_ret. cbn [routable] in Hr.
    assert (exists v, NumValue key = Ret v) as [v Hv].
    { apply bind_Ret in Hf as (v & Hv & _). eauto. }
    exact (PaddingMod_bound _ _ _ _ Hi Hv (Hr v Hv) Hf).
Qed.

Lemma shard_index_bound cfg idx t2s (s : Shard T) key i :
  parseRuleSliceInfos cfg = Ret (idx, t2s, s) -> models.msize t2s <= max_i64 ->
  gval_wf key -> routable s key -> find_for_key s key = Ret i -> 0 <= i < models.msize t2s.
Proof.
  intros Hp Hmax Hk Hr Hf. unfold parseRuleSliceInfos in Hp.
  assert (0 <= models.msize t2s) as H0 by (unfold models.msize; lia).
  repeat match type of Hp with
    | (if ?c then _ else _) = _ => destruct c
    end; try done;
    try (apply parse_mycat_inv in Hp as (_ & Hs & _); 
      eapply (mycat_index_bound cfg); [lia| |exact Hs|exact Hr|exact Hf]; auto; fail);
    try (apply bind_Ret in Hp as ([i0 t0] & _ & [= <- <- <-]); cbn in Hr; done).
  - apply bind_Ret in Hp as ([i0 t0] & _ & [= <- <- <-]). eapply Hash_index_bound; [lia|done].
  - apply bind_Ret in Hp as ([i0 t0] & _ & [= <- <- <-]). eapply Mod_index_bound; eauto; lia.
  - apply bind_Ret in Hp as ([i0 t0] & _ & Hp). apply bind_Ret in Hp as (rs & _ & Hp).
    destruct (zlen rs =? models.msize t0) eqn:E; [|done]. cbn in Hp. injection Hp as <- <- <-.
    apply bind_Ret in Hf as (v & _ & Hf). apply find_range_bound in Hf. cbn in Hf. lia.
  - apply parse_mycat_inv in Hp as (_ & [= <-] & _). eapply Mod_index_bound; eauto; lia.
Qed.

Lemma routable_infos cfg idx t2s (s : Shard T) key :
  tables_ok cfg -> parseRuleSliceInfos cfg = Ret (idx, t2s, s) -> routable s key ->
  idx = seqZ 0 (models.msize t2s) /\ models.msize t2s <= max_i64.
Proof.
  intros [Hl Hm] Hp Hr.
  assert (parseHashRuleSliceInfos (models.Locations cfg) (models.Slices cfg) = Ret (idx, t2s)) as Hh.
  { destruct (parseRuleSliceInfos_inv _ _ _ _ Hp) as [Hh|_]; [done|]. unfold parseRuleSliceInfos in Hp.
    repeat match type of Hp with
      | (if ?c then _ else _) = _ => destruct c
      end; try done;
      try (apply parse_mycat_inv in Hp as (Hh & _); exact Hh);
      try (apply bind_Ret in Hp as ([i0 t0] & Hh & [= <- <- <-]); cbn in Hr; done).
    apply bind_Ret in Hp as ([i0 t0] & Hh & Hp). apply bind_Ret in Hp as (rs & _ & Hp).
    destruct (negb _); [done|]. injection Hp as <- <- _. done. }
  destruct (parseHash_eq _ _ _ _ Hh Hl Hm) as (_ & -> & -> & _). done.
Qed.

(** C24: whatever table index a parsed hash, mod, number range or mycat rule whose
    locations are not negative computes for a key, the index is one of the rule's sub
    tables, and the sub table is mapped to one of the slices of the configuration: a
    routed statement always has a target. For the mod rules the key is not -2^63, for
    the padding mod rule it is not negative. *)
Theorem parseRule_routes cfg b key i :
  tables_ok cfg -> parseRule cfg = Ret b -> gval_wf key -> routable (br_shard b) key ->
  FindTableIndex (RBase b) key = Ret i ->
  i ∈ GetSubTableIndexes (RBase b) /\
  exists name, GetSlice (RBase b) (GetSliceIndexFromTableIndex (RBase b) i) = Ret name /\
    name ∈ models.Slices cfg.
Proof.
  intros Ht Hp Hk Hr Hf. pose proof (parseRule_wf_lemma _ _ Ht Hp) as Hwf.
  apply parseRule_inv in Hp as (dbs & Hb & Hi). unfold FindTableIndex, GetShard in Hf.
  cbn [base_of] in Hf. destruct (routable_infos _ _ _ _ _ Ht Hi Hr) as [Hidx Hmax].
  pose proof (shard_index_bound _ _ _ _ _ _ Hi Hmax Hk Hr Hf) as Hbound.
  assert (i ∈ br_subTableIndexes b) as Hin by (rewrite Hidx, elem_of_seqZ; lia).
  split; [done|]. destruct (rule_wf_slice _ _ Hwf Hin) as (name & Hn & Hs).
  exists name. split; [done|]. by rewrite Hb in Hs.
Qed.

(** C33: every rule the router parses from a configuration without negative locations,
    of any type, is well formed: its sub table indexes are strictly ascending, exactly
    they are mapped to slices, and every slice number is within the slices of the rule. *)
Theorem parseRule_wf cfg b : tables_ok cfg -> parseRule cfg = Ret b -> rule_wf b.
Proof. apply parseRule_wf_lemma. Qed.

End rule_invariant.

(** ** Witnesses *)

#[local] Instance utc_zone : LocalZone := fun _ => 0.

Definition example_cfg (ty : string) : models.Shard :=
  models.mk_Shard "db" "Tbl" "" ty "ID" [2; 3] ["slice-0"; "slice-1"] ["201511-201601"; "201603"]
    100 ["db_[0-4]"] "2,1" "256,512" "20" "0" "160" "1" "18" "10" "16".

Lemma example_tables_ok ty : tables_ok (example_cfg ty).
Proof. split; [repeat constructor; lia|]. cbn. unfold_int. lia. Qed.

Lemma parseRule_wf_witness :
  exists b, parseRule (T := gmap Z Z) (example_cfg DateMonthRuleType) = Ret b /\ rule_wf b.
Proof.
  eexists. split; [reflexivity|].
  apply (parseRule_wf (example_cfg DateMonthRuleType)); [apply example_tables_ok|reflexivity].
Defined.

(** Nothing checks that locations are not negative: such a rule is accepted and lists a
    table twice. *)
Example negative_location_repeats_table :
  let cfg := models.mk_Shard "db" "t" "" HashRuleType "id" [3; -1; 2] ["slice-0"; "slice-1"; "slice-2"] []
    0 [] "" "" "" "" "" "" "" "" "" in
  models.verifyHashRule cfg = Ret tt /\
  exists b, parseRule (T := gmap Z Z) cfg = Ret b /\ GetSubTableIndexes (RBase b) = [0; 1; 2; 2; 3].
Proof. split; [reflexivity|]. eexists. split; reflexivity. Qed.

Lemma parseRule_routes_witness :
  exists b, parseRule (T := gmap Z Z) (example_cfg ModRuleType) = Ret b /\
    FindTableIndex (RBase b) (GInt KInt64 (-13)) = Ret 3 /\
    3 ∈ GetSubTableIndexes (RBase b) /\
    exists name, GetSlice (RBase b) (GetSliceIndexFromTableIndex (RBase b) 3) = Ret name /\
      name ∈ ["slice-0"%string; "slice-1"%string].
Proof.
  eexists. split; [reflexivity|]. split; [reflexivity|].
  apply (parseRule_routes (example_cfg ModRuleType) _ (GInt KInt64 (-13)) 3);
    [apply example_tables_ok|reflexivity|cbn; unfold_int; lia|discriminate|reflexivity].
Defined.
