(* ===== verification/RuleVerify.v ===== *)
(** The checks of package models against the parsers of package router: a
    configuration that models accepts is one the router can load. *)

From Stdlib Require Import Ascii String.
From S2P Require Import Prelude GoStr Hack NumKey Shard ShardMycat Models Rule.

(** * Database lists *)

Fixpoint has_char (c : ascii) (s : string) : bool :=
  match s with
  | EmptyString => false
  | String d t => Ascii.eqb d c || has_char c t
  end.

Fixpoint all_chars (f : ascii -> bool) (s : string) : bool :=
  match s with EmptyString => true | String c t => f c && all_chars f t end.

Lemma has_char_append c s t : has_char c (String.append s t) = has_char c s || has_char c t.
Proof.
  induction s as [|d s IH]; [done|]. rewrite append_cons. cbn. by rewrite IH, orb_assoc.
Qed.

Lemma span_digits_inv s a b :
  span_digits s = (a, b) -> s = String.append a b /\ is_digits a = true.
Proof.
  revert a b. induction s as [|c s IH]; intros a b; cbn.
  - intros [= <- <-]. done.
  - unfold is_digit. destruct (digit_val c) eqn:E.
    + destruct (span_digits s) as [x y] eqn:Es. intros [= <- <-].
      destruct (IH x y eq_refl) as [-> Hd]. rewrite append_cons. cbn. by rewrite E.
    + intros [= <- <-]. done.
Qed.

Lemma span_digits_app d c t :
  is_digits d = true -> is_digit c = false ->
  span_digits (String.append d (String c t)) = (d, String c t).
Proof.
  intros Hd Hc. induction d as [|x d IH].
  - rewrite append_empty. cbn. by rewrite Hc.
  - rewrite append_cons. cbn in *. unfold is_digit at 1. destruct (digit_val x); [|done].
    by rewrite IH.
Qed.

Lemma is_digits_no_bracket s : is_digits s = true -> has_char "[" s = false.
Proof.
  induction s as [|c s IH]; cbn; [done|]. destruct (digit_val c) eqn:E; [|done].
  intros Hs. rewrite IH by done. destruct (Ascii.eqb c "[") eqn:Ec; [|done].
  apply Ascii.eqb_eq in Ec. subst. discriminate.
Qed.

Lemma match_bounds_tail c t l r :
  match_bounds (String c t) = Some (l, r) -> has_char "[" t = false.
Proof.
  unfold match_bounds. intros Hm.
  destruct (span_digits t) as [a b] eqn:E1. apply span_digits_inv in E1 as [-> Ha].
  assert (b = String "-" (String.append r (String "]" EmptyString)) /\ is_digits r = true)
    as [-> Hr].
  { repeat case_match; simplify_eq.
    match goal with E : span_digits _ = _ |- _ => apply span_digits_inv in E as [-> Hr] end.
    eauto. }
  rewrite has_char_append. cbn [has_char]. rewrite has_char_append.
  rewrite (is_digits_no_bracket _ Ha), (is_digits_no_bracket _ Hr). done.
Qed.

Definition db_range (prefix : string) (a b : Z) : string :=
  String.append prefix (String.append "["
    (String.append (Itoa a) (String.append "-" (String.append (Itoa b) "]")))).

Lemma Itoa_digits a : 0 <= a -> is_digits (Itoa a) = true.
Proof.
  intros Ha. unfold Itoa, FormatInt. destruct (a <? 0) eqn:E; [lia|].
  apply is_digits_fmt; [lia|done].
Qed.

Lemma Itoa_nonempty a : 0 <= a < 2 ^ 63 -> exists c s, Itoa a = String c s.
Proof.
  intros Ha. destruct (Itoa a) as [|c s] eqn:E; [|eauto]. exfalso.
  pose proof (ParseInt_FormatInt a ltac:(unfold_int; lia)) as Hp. unfold Itoa in E.
  by rewrite E in Hp.
Qed.

Lemma match_bounds_range a b :
  0 <= a < 2 ^ 63 -> 0 <= b < 2 ^ 63 ->
  match_bounds (String.append "["
    (String.append (Itoa a) (String.append "-" (String.append (Itoa b) "]")))) =
  Some (Itoa a, Itoa b).
Proof.
  intros Ha Hb. rewrite !append_cons, !append_empty. unfold match_bounds.
  rewrite span_digits_app by (done || apply Itoa_digits; lia).
  destruct (Itoa_nonempty a Ha) as (c & s & ->).
  rewrite span_digits_app by (done || apply Itoa_digits; lia).
  destruct (Itoa_nonempty b Hb) as (c' & s' & ->). done.
Qed.

Lemma rangeDatabaseRegex_range prefix a b :
  prefix <> EmptyString -> all_chars not_space prefix = true ->
  0 <= a < 2 ^ 63 -> 0 <= b < 2 ^ 63 ->
  rangeDatabaseRegex (db_range prefix a b) = Some (prefix, Itoa a, Itoa b).
Proof.
  intros Hne Hp Ha Hb. unfold db_range. set (sfx := String.append "[" _).
  assert (match_bounds sfx = Some (Itoa a, Itoa b)) as Hs by by apply match_bounds_range.
  assert (has_char "[" sfx = true) as Hbr by (unfold sfx; rewrite append_cons; done).
  clearbody sfx. induction prefix as [|c p IH]; [done|]. rewrite append_cons. cbn in *.
  apply andb_true_iff in Hp as [-> Hp]. destruct p as [|d p].
  - rewrite append_empty, Hs. done.
  - rewrite append_cons in *.
    destruct (match_bounds (String d (String.append p sfx))) as [[l r]|] eqn:E.
    + apply match_bounds_tail in E. rewrite has_char_append, Hbr, orb_true_r in E. done.
    + rewrite IH by done. done.
Qed.

Lemma real_databases_acc ret dbs :
  foldl (fun acc db => ret ← acc; l ← real_databases_of db; Ret (ret ++ l)) (Ret ret) dbs =
  (l ← getRealDatabases dbs; Ret (ret ++ l)).
Proof.
  assert (forall dbs m, (forall r, m <> Ret r) ->
    foldl (fun acc db => ret ← acc; l ← real_databases_of db; Ret (ret ++ l)) m dbs = m) as K.
  { clear. induction dbs as [|d dbs IH]; intros m Hm; [done|]. cbn [foldl].
    rewrite IH; destruct m; cbn; congruence. }
  unfold getRealDatabases. revert ret. induction dbs as [|d dbs IH]; intros ret; cbn [foldl].
  - cbn. by rewrite app_nil_r.
  - cbn [mbind outcome_bind]. destruct (real_databases_of d) as [l| |] eqn:E; cbn [mbind outcome_bind].
    + rewrite (IH (ret ++ l)), (IH ([] ++ l)). cbn [app].
      destruct (foldl _ (Ret []) dbs) as [k| |]; cbn; [|done|done]. by rewrite app_assoc.
    + rewrite !K by done. done.
    + rewrite !K by done. done.
Qed.

Lemma getRealDatabases_cons db dbs :
  getRealDatabases (db :: dbs) =
  (l ← real_databases_of db; k ← getRealDatabases dbs; Ret (l ++ k)).
Proof.
  unfold getRealDatabases at 1. cbn [foldl mbind outcome_bind].
  destruct (real_databases_of db) as [l| |]; cbn [mbind outcome_bind app].
  - apply real_databases_acc.
  - induction dbs; done.
  - induction dbs; done.
Qed.

(** In a database list an entry [prefix[a-b]] stands for the databases
    [prefix a], ..., [prefix b], both bounds included, whatever brackets the
    prefix itself contains. *)
Theorem getRealDatabases_range prefix a b rest :
  prefix <> EmptyString -> all_chars not_space prefix = true -> 0 <= a < b -> b < max_i64 ->
  getRealDatabases (db_range prefix a b :: rest) =
  (k ← getRealDatabases rest;
   Ret (map (fun i => String.append prefix (Itoa i)) (seqZ a (b - a + 1)) ++ k)).
Proof.
  intros Hne Hp Hab Hb. rewrite getRealDatabases_cons. unfold real_databases_of.
  rewrite rangeDatabaseRegex_range by (done || unfold_int; lia). unfold Atoi, Itoa.
  rewrite !ParseInt_FormatInt by (unfold_int; lia).
  destruct (b <=? a) eqn:E1; [lia|]. destruct (b =? max_i64) eqn:E2; [lia|]. done.
Qed.

Lemma getRealDatabases_range_witness :
  getRealDatabases [db_range "db[x]_" 9 11; "other"%string] =
    Ret ["db[x]_9"; "db[x]_10"; "db[x]_11"; "other"]%string.
Proof.
  rewrite (getRealDatabases_range "db[x]_" 9 11 ["other"%string]);
    [reflexivity|done|reflexivity|lia|unfold_int; lia].
Defined.

(** * An accepted configuration is parsed *)

Lemma verify_locations_eq i locs sum idx m :
  models.verify_locations i locs sum m = (hash_locations i locs sum idx m).2.
Proof.
  revert i sum idx m. induction locs as [|n locs IH]; intros i sum idx m; [done|].
  cbn [models.verify_locations hash_locations]. apply IH.
Qed.

Lemma verifyHash_parse locs slices t2s :
  models.verifyHashRuleSliceInfos locs slices = Ret t2s ->
  exists idx, parseHashRuleSliceInfos locs slices = Ret (idx, t2s).
Proof.
  unfold models.verifyHashRuleSliceInfos, parseHashRuleSliceInfos.
  destruct (negb _); [done|]. rewrite (verify_locations_eq _ _ _ []).
  destruct (hash_locations 0 locs 0 [] ∅) as [idx m]. intros [= <-]. eauto.
Qed.

Lemma verifyMycatHash_parse locs slices dbs t2s :
  models.verifyMycatHashRuleSliceInfos locs slices dbs = Ret t2s ->
  exists idx, parseMycatHashRuleSliceInfos locs slices dbs = Ret (idx, t2s).
Proof.
  unfold models.verifyMycatHashRuleSliceInfos, parseMycatHashRuleSliceInfos. intros Hv.
  apply bind_Ret in Hv as (t & Ht & Hv). apply bind_Ret in Hv as (l & Hl & Hv).
  destruct (verifyHash_parse _ _ _ Ht) as [idx ->]. exists idx. cbn [mbind outcome_bind].
  rewrite Hl. cbn [mbind outcome_bind]. destruct (negb _); [done|]. by injection Hv as ->.
Qed.

Lemma or_illegal_Ret {A} (m : outcome A) a : models.or_illegal m = Ret a -> m = Ret a.
Proof. by destruct m. Qed.

(** The parsers of models accept less than, and agree with, those of the router. *)
Lemma models_ParseDayRange s l : models.ParseDayRange s = Ret l -> ParseDayRange s = Ret l.
Proof.
  unfold models.ParseDayRange, ParseDayRange.
  destruct (SplitN2 "-" s) as [|a [|b [|]]]; try done. destruct (negb _); [done|].
  intros Hp. apply bind_Ret in Hp as (d & _ & Hp). done.
Qed.

Lemma models_ParseMonthRange s l : models.ParseMonthRange s = Ret l -> ParseMonthRange s = Ret l.
Proof.
  unfold models.ParseMonthRange, ParseMonthRange.
  destruct (SplitN2 "-" s) as [|a [|b [|]]]; try done; destruct (negb _ || _) || destruct (negb _);
    try done.
  - intros Hp. apply bind_Ret in Hp as (d & _ & Hp). done.
  - destruct (if sltb b a then _ else _) as [a' b']. intros Hp. invert_ret.
    repeat match goal with E : _ = Ret _ |- _ => rewrite E; clear E; cbn [mbind outcome_bind] end.
    done.
Qed.

Lemma models_ParseYearRange s l : models.ParseYearRange s = Ret l -> ParseYearRange s = Ret l.
Proof.
  unfold models.ParseYearRange, ParseYearRange.
  destruct (SplitN2 "-" s) as [|a [|b [|]]]; try done.
  - destruct (negb _); [done|]. intros Hp. apply bind_Ret in Hp as (d & _ & Hp). done.
  - destruct (if sltb b a then _ else _) as [a' b']. intros Hp. invert_ret.
    repeat match goal with E : _ = Ret _ |- _ => rewrite E; clear E; cbn [mbind outcome_bind] end.
    done.
Qed.

Lemma verify_dates_parse parse parse' i rs idx m :
  (forall s l, parse' s = Ret l -> parse s = Ret l) ->
  models.verify_dates parse' rs idx = Ret tt ->
  exists idx' m', date_ranges parse i rs idx m = Ret (idx', m').
Proof.
  intros Hpp. revert i idx m. induction rs as [|r rs IH]; intros i idx m Hv; [by eexists _, _|].
  cbn [models.verify_dates] in Hv. cbn [date_ranges].
  apply bind_Ret in Hv as (nums & Hn & Hv). apply bind_Ret in Hv as (o & Ho & Hv).
  rewrite (Hpp _ _ Hn). cbn [mbind outcome_bind]. rewrite Ho. cbn [mbind outcome_bind].
  destruct o; [done|]. by apply IH.
Qed.

(** The partition of a long or string rule has positive lengths and its tables
    do not overflow an int. *)
Definition partition_ok (cfg : models.Shard) : Prop :=
  forall counts lengths,
    toIntArray (models.PartitionCount cfg) = Ret counts ->
    toIntArray (models.PartitionLength cfg) = Ret lengths ->
    Forall (Z.le 0) counts /\ Forall (Z.lt 0) lengths /\
    zsum (table_lengths counts lengths) <= max_i64.

Lemma verifyLong_parse cfg n :
  partition_ok cfg ->
  models.verifyMycatPatitionLongShard n (models.PartitionCount cfg) (models.PartitionLength cfg) =
    Ret tt ->
  exists s, Long_Init (NewMycatPartitionLongShard n (models.PartitionCount cfg)
    (models.PartitionLength cfg)) = Ret s.
Proof.
  intros Hok Hv. unfold models.verifyMycatPatitionLongShard in Hv.
  apply bind_Ret in Hv as (cs & Hcs & Hv). apply bind_Ret in Hv as (ls & Hls & Hv).
  destruct (Hok cs ls Hcs Hls) as (Hc & Hl & Hmax).
  destruct (zlen cs =? zlen ls) eqn:Elen; [|done]. cbn [negb] in Hv.
  assert (length cs = length ls) as Hlen by (unfold zlen in Elen; lia).
  pose proof (zsum_const_le _ _ Hlen Hc Hl) as Hle. pose proof (zsum_nonneg _ Hc) as H0.
  rewrite table_count_sum in Hv by (done || lia).
  destruct (zsum cs =? n) eqn:En; [|done]. cbn [negb] in Hv.
  destruct (zsum cs + 1 <? 0) eqn:E1; [lia|].
  assert (Forall (Z.le 0) ls) as Hl0 by (eapply Forall_impl; [exact Hl|intros x Hx; lia]).
  destruct (fill_ai_bounds cs ls [] 0) as [ix Hf]; [done|done|done|lia|lia|].
  replace (replicate (Z.to_nat (zsum cs + 1)) 0) with (0 :: replicate (Z.to_nat (zsum cs)) 0) in Hv
    by (replace (Z.to_nat (zsum cs + 1)) with (S (Z.to_nat (zsum cs))) by lia; done).
  cbn [app] in Hf. change (zlen []) with 0 in Hf. rewrite Hf in Hv.
  cbn [mbind outcome_bind] in Hv. rewrite index_last_bounds in Hv. cbn [mbind outcome_bind] in Hv.
  destruct (0 + zsum (table_lengths cs ls) =? PartitionLength) eqn:E2; [|done].
  unfold PartitionLength in E2.
  destruct (Long_Init_returns (NewMycatPartitionLongShard n (models.PartitionCount cfg)
    (models.PartitionLength cfg)) cs ls) as (s & Hs & _);
    [done|done|done|done|done|cbn; lia|lia|]. eauto.
Qed.

Lemma verifyHashSlice_parse s :
  models.verifyHashSliceStartEnd s = Ret tt -> exists se, parseHashSliceStartEnd s = Ret se.
Proof.
  unfold models.verifyHashSliceStartEnd, parseHashSliceStartEnd, models.verifyHashSliceValue,
    parseHashSliceValue.
  assert (forall x, (if String.eqb x "" then Ret tt else _ ← Atoi x; Ret tt) = Ret tt ->
    exists v, (if String.eqb x "" then Ret 0 else Atoi x) = Ret v) as K.
  { intros x. destruct (String.eqb x ""); [eauto|]. destruct (Atoi x); cbn; eauto; done. }
  destruct (Split ":" _) as [|a [|b [|]]]; try done; intros Hv.
  - destruct (Atoi a); cbn in *; eauto; done.
  - apply bind_Ret in Hv as ([] & Ha & Hv). apply bind_Ret in Hv as ([] & Hb & _).
    rewrite wrap_Ret in Ha, Hb. apply K in Ha as [va ->], Hb as [vb ->]. cbn. eauto.
Qed.

Section accepted.
Context {T} {TM : TreeMap T}.

(** From the slice infos and shard of a rule to the rule. *)
Lemma parseRule_of_infos cfg (i : slice_infos T) :
  parseRuleSliceInfos cfg = Ret i ->
  (IsMycatShardingRule (models.Type_ cfg) = true \/
   (String.eqb (models.Type_ cfg) GlobalTableRuleType && negb (zlen (models.Databases cfg) =? 0))
     = true -> exists l, getRealDatabases (models.Databases cfg) = Ret l) ->
  exists b, parseRule (T := T) cfg = Ret b.
Proof.
  intros Hi Hd. destruct i as [[idx t2s] s]. unfold parseRule. rewrite Hi.
  cbn [mbind outcome_bind].
  destruct (IsMycatShardingRule _) eqn:E1; [destruct Hd as [l ->]; [by left|]; cbn; eauto|].
  destruct (String.eqb _ GlobalTableRuleType) eqn:E2; [|cbn; eauto].
  destruct (negb _) eqn:E3; [|cbn; eauto]. destruct Hd as [l ->]; [by right|]. cbn; eauto.
Qed.

Lemma mycat_case_parse cfg (mk : Z -> outcome (Shard T)) t2s :
  models.verifyMycatHashRuleSliceInfos (models.Locations cfg) (models.Slices cfg)
    (models.Databases cfg) = Ret t2s ->
  (exists s, mk (models.msize t2s) = Ret s) ->
  exists i, parse_mycat_case cfg mk = Ret i.
Proof.
  intros Hv [s Hs]. apply verifyMycatHash_parse in Hv as [idx Hp]. unfold parse_mycat_case.
  rewrite Hp. cbn [mbind outcome_bind]. rewrite Hs. cbn. eauto.
Qed.

Lemma verifyMycat_databases locs slices dbs t2s :
  models.verifyMycatHashRuleSliceInfos locs slices dbs = Ret t2s ->
  exists l, getRealDatabases dbs = Ret l.
Proof.
  unfold models.verifyMycatHashRuleSliceInfos. intros Hv.
  apply bind_Ret in Hv as (t & _ & Hv). apply bind_Ret in Hv as (l & Hl & _). eauto.
Qed.

(** The mycat types: the databases are checked, then the shard is built. *)
Lemma mycat_accepted cfg (mk : Z -> outcome (Shard T)) (check : Z -> outcome unit) :
  (t2s ← models.verifyMycatHashRuleSliceInfos (models.Locations cfg) (models.Slices cfg)
           (models.Databases cfg); check (models.msize t2s)) = Ret tt ->
  (forall n, check n = Ret tt -> exists s, mk n = Ret s) ->
  parseRuleSliceInfos cfg = parse_mycat_case cfg mk ->
  exists b, parseRule (T := T) cfg = Ret b.
Proof.
  intros Hv Hc Hp. apply bind_Ret in Hv as (t & Ht & Hv).
  destruct (mycat_case_parse cfg mk t Ht) as [i Hi]; [eauto|].
  eapply parseRule_of_infos; [rewrite Hp; exact Hi|]. intros _. by eapply verifyMycat_databases.
Qed.

Lemma murmur_accepted cfg n :
  models.verifyMycatPartitionMurmurHashShard (models.Seed cfg) (models.VirtualBucketTimes cfg) n =
    Ret tt -> exists s, mk_mycat_murmur (T := T) cfg n = Ret s.
Proof.
  unfold models.verifyMycatPartitionMurmurHashShard, mk_mycat_murmur,
    NewMycatPartitionMurmurHashShard. intros Hv. invert_ret. rewrite H, H0. cbn. eauto.
Qed.

Lemma padding_accepted cfg n :
  models.verifyMycatPartitionPaddingModShard (models.PadFrom cfg) (models.PadLength cfg)
    (models.ModBegin cfg) (models.ModEnd cfg) n = Ret tt ->
  exists s, mk_mycat_padding (T := T) cfg n = Ret s.
Proof.
  unfold models.verifyMycatPartitionPaddingModShard, mk_mycat_padding,
    GetMycatPartitionPaddingModShard. intros Hv.
  apply bind_Ret in Hv as (a & -> & Hv). apply bind_Ret in Hv as (b & -> & Hv).
  apply bind_Ret in Hv as (c & -> & Hv). apply bind_Ret in Hv as (d & -> & Hv).
  cbn [mbind outcome_bind]. unfold PaddingMod_Init, checkParam.
  cbn [padFrom padLength modBegin modEnd mod_]. rewrite Hv. cbn. eauto.
Qed.

(** Rule types whose tables come from the locations alone. *)
Lemma simple_accepted cfg (i : slice_infos T) :
  parseRuleSliceInfos cfg = Ret i -> IsMycatShardingRule (models.Type_ cfg) = false ->
  String.eqb (models.Type_ cfg) GlobalTableRuleType = false ->
  exists b, parseRule (T := T) cfg = Ret b.
Proof.
  intros Hi H1 H2. eapply parseRule_of_infos; [exact Hi|]. rewrite H1, H2. intros [?|?]; done.
Qed.

Lemma range_accepted cfg :
  models.verifyRangeRule cfg = Ret tt -> exists i, parse_range_case (T := T) cfg = Ret i.
Proof.
  unfold models.verifyRangeRule, parse_range_case. intros Hv.
  apply bind_Ret in Hv as (t & Ht & Hv). apply bind_Ret in Hv as (rs & Hrs & Hv).
  apply verifyHash_parse in Ht as [idx ->]. cbn [mbind outcome_bind].
  change (ParseNumSharding (models.Locations cfg) (models.TableRowLimit cfg) = Ret rs) in Hrs.
  rewrite Hrs. cbn [mbind outcome_bind]. destruct (negb _); [done|]. eauto.
Qed.

Lemma date_accepted parse parse' (dateRange slices : list string) :
  (forall s l, parse' s = Ret l -> parse s = Ret l) ->
  (if negb (zlen dateRange =? zlen slices) then Err ErrDateRangeCount
   else models.verify_dates parse' dateRange []) = Ret tt ->
  exists i, (if negb (zlen dateRange =? zlen slices) then Err ErrDateRangeCount
             else date_ranges parse 0 dateRange [] ∅) = Ret i.
Proof.
  intros Hp Hv. destruct (negb _); [done|].
  destruct (verify_dates_parse parse parse' 0 dateRange [] ∅ Hp Hv) as (? & ? & ?). eauto.
Qed.

Lemma global_accepted cfg :
  models.verifyGlobalRule cfg = Ret tt -> models.Type_ cfg = GlobalTableRuleType ->
  exists b, parseRule (T := T) cfg = Ret b.
Proof.
  unfold models.verifyGlobalRule, models.verifyGlobalTableRuleSliceInfos. intros Hv Hty.
  apply bind_Ret in Hv as (t & Ht & Hv). apply verifyHash_parse in Ht as [idx Hh].
  eapply (parseRule_of_infos cfg (idx, t, SGlobalTable mk_GlobalTableShard)).
  - unfold parseRuleSliceInfos. rewrite Hty.
    change (String.eqb GlobalTableRuleType GlobalTableRuleType) with true. cbn -[mbind].
    unfold parseGlobalTableRuleSliceInfos. rewrite Hh. cbn [mbind outcome_bind].
    destruct (negb _); [|done]. apply bind_Ret in Hv as (l & -> & Hv). cbn [mbind outcome_bind].
    by destruct (negb _).
  - rewrite Hty. intros [?|Hn]; [done|]. cbn [andb String.eqb] in Hn.
    apply andb_true_iff in Hn as [_ Hn]. rewrite Hn in Hv.
    apply bind_Ret in Hv as (l & Hl & _). eauto.
Qed.

Lemma type_eq s t : String.eqb s t = true -> t = s.
Proof. intros E. by apply String.eqb_eq in E. Qed.

(** [parseRuleSliceInfos] at a known rule type. *)
Definition with_type (cfg : models.Shard) (ty : string) : models.Shard :=
  models.mk_Shard (models.DB cfg) (models.Table cfg) (models.ParentTable cfg) ty (models.Key cfg)
    (models.Locations cfg) (models.Slices cfg) (models.DateRange cfg) (models.TableRowLimit cfg)
    (models.Databases cfg) (models.PartitionCount cfg) (models.PartitionLength cfg)
    (models.HashSlice cfg) (models.Seed cfg) (models.VirtualBucketTimes cfg) (models.PadFrom cfg)
    (models.PadLength cfg) (models.ModBegin cfg) (models.ModEnd cfg).

Lemma infos_of_type cfg ty :
  models.Type_ cfg = ty ->
  parseRuleSliceInfos (T := T) cfg = parseRuleSliceInfos (with_type cfg ty).
Proof. intros <-. by destruct cfg. Qed.

(** Reduces an accepted location or date rule to its slice infos. *)
Ltac case_of_type Hty :=
  eapply simple_accepted; [|rewrite Hty; reflexivity|rewrite Hty; reflexivity];
  rewrite (infos_of_type _ _ Hty); unfold parseRuleSliceInfos; cbn -[mbind];
  cbn [models.Locations models.Slices models.DateRange with_type].

(** C25: every rule configuration that models accepts is parsed by the router
    without an error or a panic, for all twelve rule types; for the long and
    string partitions the counts must not be negative, the lengths have to be positive
    and their sum has to fit an int, which models does not check
    ([verify_accepts_router_panics]). *)
Theorem verify_parse cfg :
  models.Shard_verify cfg = Ret tt ->
  (models.Type_ cfg = MycatLongRuleType \/ models.Type_ cfg = MycatStringRuleType ->
   partition_ok cfg) ->
  exists b, parseRule (T := T) cfg = Ret b.
Proof.
  intros Hv Hok. unfold models.Shard_verify, models.verifyRuleSliceInfos in Hv.
  destruct (find _ _) as [[ty f]|] eqn:Hf; [|done].
  apply find_some in Hf as [Hin Hty]. cbn [fst] in Hty. apply type_eq in Hty.
  cbn [In models.ruleVerifyFuncMapping] in Hin.
  destruct Hin as [E|[E|[E|[E|[E|[E|[E|[E|[E|[E|[E|[E|[]]]]]]]]]]]]]; injection E as <- <-.
  - apply bind_Ret in Hv as (t & [idx Hp]%verifyHash_parse & _).
    case_of_type Hty; rewrite Hp; reflexivity.
  - apply bind_Ret in Hv as (t & [idx Hp]%verifyHash_parse & _).
    case_of_type Hty; rewrite Hp; reflexivity.
  - apply range_accepted in Hv as [i Hi]. case_of_type Hty; exact Hi.
  - destruct (date_accepted ParseDayRange _ _ _ models_ParseDayRange Hv) as [[idx t] Hp].
    case_of_type Hty; unfold parseDateDayRuleSliceInfos; rewrite Hp; reflexivity.
  - destruct (date_accepted ParseMonthRange _ _ _ models_ParseMonthRange Hv) as [[idx t] Hp].
    case_of_type Hty; unfold parseDateMonthRuleSliceInfos; rewrite Hp; reflexivity.
  - destruct (date_accepted ParseYearRange _ _ _ models_ParseYearRange Hv) as [[idx t] Hp].
    case_of_type Hty; unfold parseDateYearRuleSliceInfos; rewrite Hp; reflexivity.
  - eapply (mycat_accepted cfg _ (fun _ => Ret tt)); [exact Hv| |by rewrite (infos_of_type cfg _ Hty)].
    intros n _. cbn. eauto.
  - eapply (mycat_accepted cfg (mk_mycat_long cfg) (fun n => models.verifyMycatPatitionLongShard n
      (models.PartitionCount cfg) (models.PartitionLength cfg)));
      [exact Hv| |by rewrite (infos_of_type cfg _ Hty)]. intros n Hc.
    apply verifyLong_parse in Hc as [s Hs]; [|auto]. unfold mk_mycat_long. rewrite Hs. cbn. eauto.
  - eapply (mycat_accepted cfg (mk_mycat_string cfg) (fun n => models.verifyMycatPartitionStringShard n
      (models.PartitionCount cfg) (models.PartitionLength cfg) (models.HashSlice cfg)));
      [exact Hv| |by rewrite (infos_of_type cfg _ Hty)]. intros n Hc.
    apply bind_Ret in Hc as ([] & Hc & Hs). apply verifyLong_parse in Hc as [s Hl]; [|auto].
    apply verifyHashSlice_parse in Hs as [[st en] Hs].
    unfold mk_mycat_string, String_Init. cbn [long_shard NewMycatPartitionStringShard hashSliceStr].
    rewrite Hl. cbn [mbind outcome_bind]. rewrite Hs. cbn. eauto.
  - eapply (mycat_accepted cfg (mk_mycat_murmur cfg) (models.verifyMycatPartitionMurmurHashShard (models.Seed cfg)
      (models.VirtualBucketTimes cfg))); [exact Hv| |by rewrite (infos_of_type cfg _ Hty)].
    intros n. apply murmur_accepted.
  - eapply (mycat_accepted cfg (mk_mycat_padding cfg) (models.verifyMycatPartitionPaddingModShard (models.PadFrom cfg)
      (models.PadLength cfg) (models.ModBegin cfg) (models.ModEnd cfg)));
      [exact Hv| |by rewrite (infos_of_type cfg _ Hty)].
    intros n. apply padding_accepted.
  - by apply global_accepted.
Qed.

End accepted.

(** The configuration of the examples of Rule.v is accepted at every type. *)
Lemma example_partition_ok ty : partition_ok (example_cfg ty).
Proof.
  intros cs ls Hc Hl.
  assert (cs = [2; 1] /\ ls = [256; 512]) as [-> ->] by (vm_compute in Hc, Hl; naive_solver).
  split_and!; [repeat constructor; lia|repeat constructor; lia|vm_compute; discriminate].
Qed.

Definition accepted_cfg : models.Shard :=
  models.mk_Shard "db" "t" "" MycatLongRuleType "id" [2; 1] ["slice-0"; "slice-1"] [] 0
    ["db_[0-2]"] "2,1" "256,512" "" "" "" "" "" "" "".

Lemma verify_parse_witness :
  exists b, parseRule (T := gmap Z Z) accepted_cfg = Ret b.
Proof.
  apply (verify_parse accepted_cfg); [reflexivity|]. intros _. exact (example_partition_ok MycatLongRuleType).
Defined.

(** Models accepts the long partition with the lengths -1 and 1025, whose
    sum is 1024, and the router panics when it loads it. *)
Theorem verify_accepts_router_panics `{TreeMap T} :
  let cfg := models.mk_Shard "db" "t" "" MycatLongRuleType "id" [2] ["slice-0"] [] 0
    ["db_[0-1]"] "1,1" "-1,1025" "" "" "" "" "" "" "" in
  models.Shard_verify cfg = Ret tt /\ parseRule (T := T) cfg = Panic "index out of range".
Proof. split; reflexivity. Qed.

(** The test of models for mycat rules names the kingshard type [mod] in place
    of [mycat_mod], unlike the test of the router. *)
Lemma IsMycatShardingRule_differs :
  models.IsMycatShardingRule MycatModRuleType = false /\
  IsMycatShardingRule MycatModRuleType = true /\
  models.IsMycatShardingRule ModRuleType = true /\ IsMycatShardingRule ModRuleType = false.
Proof. done. Qed.
