(* ===== verification/Router.v ===== *)
(** proxy/router/router.go: the router of a namespace. It is built once from
    the configuration; [GetRule] hands out pointers to its rules, one of which,
    the default rule, it writes to. A handed-out pointer is a [rule_ref] and is
    read through the router that owns it. *)

From Stdlib Require Import Ascii String.
From S2P Require Import Prelude GoStr NumKey Shard ShardMycat Models Rule.

Section router.
Context {T} {TM : TreeMap T}.

Record Router := mk_Router { rules : rule_map T; defaultRule : BaseRule T }.

(** [rule.slices = sliceNames] *)
Definition set_slices (b : BaseRule T) (slices : list string) : BaseRule T :=
  mk_BaseRule (br_db b) (br_table b) (br_shardingColumn b) (br_ruleType b) slices
    (br_subTableIndexes b) (br_tableToSlice b) (br_shard b) (br_mycatDatabases b)
    (br_mycatDatabaseToTableIndexMap b).

(** The rule of one non-linked table: a global rule gets the slices of the namespace. *)
Definition load_rule (sliceNames : list string) (shard : models.Shard) : outcome (BaseRule T) :=
  rule ← parseRule shard;
  Ret (if String.eqb (br_ruleType rule) GlobalTableRuleType then set_slices rule sliceNames
       else rule).

(** [rt.rules[rule.db][rule.table] = rule], a new table being required. *)
Definition add_rule (rm : rule_map T) (rule : BaseRule T) : outcome (rule_map T) :=
  match rm !! br_db rule with
  | Some m =>
      match m !! br_table rule with
      | Some _ => Err (Errorf "table %s rule in %s duplicate")
      | None => Ret (<[br_db rule := <[br_table rule := RBase rule]> m]> rm)
      end
  | None => Ret (<[br_db rule := {[br_table rule := RBase rule]}]> rm)
  end.

(** The loop over [namespace.ShardRules]; the linked tables are put aside. *)
Fixpoint load_rules (sliceNames : list string) (shards linked : list models.Shard)
    (rm : rule_map T) : outcome (rule_map T * list models.Shard) :=
  match shards with
  | [] => Ret (rm, linked)
  | shard :: ss =>
      if negb (forallb (includeSlice sliceNames) (models.Slices shard))
      then Err (Errorf "shard table[%s] slice[%s] not in the namespace.slices list:[%s]") else
      if String.eqb (models.Type_ shard) LinkedTableRuleType
      then load_rules sliceNames ss (linked ++ [shard]) rm
      else
        rule ← load_rule sliceNames shard;
        if String.eqb (br_ruleType rule) DefaultRuleType
        then Err (Errorf "[default-rule] duplicate, must only one")
        else rm' ← add_rule rm rule; load_rules sliceNames ss linked rm'
  end.

(** The loop over the linked tables. *)
Fixpoint link_rules (linked : list models.Shard) (rm : rule_map T) : outcome (rule_map T) :=
  match linked with
  | [] => Ret rm
  | shard :: ss =>
      rule ← wrap "create linked rule error: %v" (createLinkedRule rm shard);
      link_rules ss
        (<[lr_db rule := <[lr_table rule := RLinked rule]> (default ∅ (rm !! lr_db rule))]> rm)
  end.

Definition NewRouter (namespace : models.Namespace) : outcome Router :=
  let sliceNames := map models.Slice_Name (models.NSlices namespace) in
  if negb (includeSlice sliceNames (models.DefaultSlice namespace))
  then Err (Errorf "default slice[%s] not in the slice list") else
  '(rm, linked) ← load_rules sliceNames (models.ShardRules namespace) [] ∅;
  rm' ← link_rules linked rm;
  Ret (mk_Router rm' (NewDefaultRule (models.DefaultSlice namespace))).

(** The database and table of a possibly qualified table name. *)
Definition split_table (db table : string) : string * string :=
  match Split "." table with
  | [d; t] => (Trim "`" d, Trim "`" t)
  | _ => (db, table)
  end.

(** [rules[db][table]]; a missing database is an empty map. *)
Definition rule_at (rm : rule_map T) (db table : string) : option (Rule T) :=
  rm !! db ≫= fun m => m !! table.

Definition GetShardRule (r : Router) (db table : string) : option (Rule T) :=
  let '(db, table) := split_table db table in rule_at (rules r) db table.

(** A pointer [GetRule] returned. *)
Inductive rule_ref :=
| RefDefault
| RefRule (r : Rule T).

Definition deref (r : Router) (ref : rule_ref) : Rule T :=
  match ref with RefDefault => RBase (defaultRule r) | RefRule rl => rl end.

(** The write to the field [db] of the shared default rule. *)
Definition set_default_db (r : Router) (db : string) : Router :=
  let b := defaultRule r in
  mk_Router (rules r)
    (mk_BaseRule db (br_table b) (br_shardingColumn b) (br_ruleType b) (br_slices b)
       (br_subTableIndexes b) (br_tableToSlice b) (br_shard b) (br_mycatDatabases b)
       (br_mycatDatabaseToTableIndexMap b)).

Definition GetRule (r : Router) (db table : string) : rule_ref * Router :=
  let '(db, table) := split_table db table in
  match rule_at (rules r) db table with
  | None => (RefDefault, set_default_db r db)
  | Some rl => (RefRule rl, r)
  end.

(** * Where the rules of a router come from *)

(** The rule at [db], [t] was built from a table of the configuration. *)
Inductive origin (ns : models.Namespace) (db t : string) : Rule T -> Prop :=
| origin_base cfg b :
    cfg ∈ models.ShardRules ns -> models.Type_ cfg <> LinkedTableRuleType ->
    models.DB cfg = db -> ToLower (models.Table cfg) = t ->
    load_rule (map models.Slice_Name (models.NSlices ns)) cfg = Ret b ->
    origin ns db t (RBase b)
| origin_linked cfg parent b :
    cfg ∈ models.ShardRules ns -> models.Type_ cfg = LinkedTableRuleType ->
    models.DB cfg = db -> ToLower (models.Table cfg) = t ->
    origin ns db parent (RBase b) -> ToLower (models.ParentTable cfg) = parent ->
    origin ns db t (RLinked (mk_LinkedRule db t (ToLower (models.Key cfg)) b)).

Definition all_from (ns : models.Namespace) (rm : rule_map T) : Prop :=
  forall db t r, rule_at rm db t = Some r -> origin ns db t r.

(** A rule is present for the table of [cfg]. *)
Definition has_rule (rm : rule_map T) (cfg : models.Shard) : Prop :=
  is_Some (rule_at rm (models.DB cfg) (ToLower (models.Table cfg))).

Lemma rule_at_insert rm db t m r db' t' :
  default ∅ (rm !! db) = m ->
  rule_at (<[db := <[t := r]> m]> rm) db' t' =
    if decide (db' = db /\ t' = t) then Some r else rule_at rm db' t'.
Proof.
  intros Hm. unfold rule_at. destruct (decide (db' = db)) as [->|Hne].
  - rewrite lookup_insert_eq. cbn [mbind option_bind]. destruct (decide (t' = t)) as [->|Ht].
    + by rewrite lookup_insert_eq, decide_True.
    + rewrite lookup_insert_ne, decide_False by naive_solver. rewrite <- Hm.
      destruct (rm !! db); cbn; [done|]. by rewrite lookup_empty.
  - rewrite lookup_insert_ne, decide_False by naive_solver. done.
Qed.

Lemma add_rule_at rm rule rm' db t :
  add_rule rm rule = Ret rm' ->
  rule_at rm (br_db rule) (br_table rule) = None /\
  rule_at rm' db t =
    if decide (db = br_db rule /\ t = br_table rule) then Some (RBase rule) else rule_at rm db t.
Proof.
  unfold add_rule. destruct (rm !! br_db rule) as [m|] eqn:E.
  - destruct (m !! br_table rule) eqn:Et; [done|]. intros [= <-]. split.
    + unfold rule_at. by rewrite E.
    + apply rule_at_insert. by rewrite E.
  - intros [= <-]. split; [unfold rule_at; by rewrite E|].
    rewrite <- insert_empty. apply rule_at_insert. by rewrite E.
Qed.

Lemma load_rule_place names cfg b :
  load_rule names cfg = Ret b ->
  br_db b = models.DB cfg /\ br_table b = ToLower (models.Table cfg) /\
  br_ruleType b = models.Type_ cfg.
Proof.
  unfold load_rule. intros Hp. apply bind_Ret in Hp as (r & Hr & [= <-]).
  apply parseRule_inv in Hr as (dbs & -> & _). by destruct (String.eqb _ _).
Qed.

Lemma load_rules_spec ns shards linked rm rm' linked' :
  load_rules (map models.Slice_Name (models.NSlices ns)) shards linked rm = Ret (rm', linked') ->
  shards ⊆ models.ShardRules ns -> all_from ns rm ->
  all_from ns rm' /\
  (forall cfg, cfg ∈ shards -> models.Type_ cfg <> LinkedTableRuleType -> has_rule rm' cfg) /\
  (forall db t, is_Some (rule_at rm db t) -> is_Some (rule_at rm' db t)) /\
  (forall cfg, cfg ∈ linked' <->
     cfg ∈ linked \/ (cfg ∈ shards /\ models.Type_ cfg = LinkedTableRuleType)).
Proof.
  revert linked rm. induction shards as [|s ss IH]; intros linked rm Hl Hsub Ha.
  - injection Hl as <- <-. split_and!; set_solver.
  - cbn [load_rules] in Hl. destruct (negb _); [done|].
    destruct (String.eqb _ _) eqn:Ety.
    + apply IH in Hl as (H1 & H2 & H3 & H4); [|set_solver|done].
      apply String.eqb_eq in Ety. split_and!; [done| |done|].
      * intros cfg [->|Hin]%elem_of_cons Hne; [done|]. by apply H2.
      * intros cfg. rewrite H4. set_solver.
    + apply bind_Ret in Hl as (b & Hb & Hl). destruct (String.eqb (br_ruleType b) _); [done|].
      apply bind_Ret in Hl as (rm1 & Hadd & Hl).
      destruct (load_rule_place _ _ _ Hb) as (Hdb & Htb & Hty).
      apply String.eqb_neq in Ety.
      apply IH in Hl as (H1 & H2 & H3 & H4); [|set_solver|].
      * assert (forall db t, is_Some (rule_at rm db t) -> is_Some (rule_at rm1 db t)) as Hmono.
        { intros db t Hs. destruct (add_rule_at _ _ _ db t Hadd) as [_ ->]. by case_decide. }
        split_and!; [done| |eauto|].
        -- intros cfg [->|Hin]%elem_of_cons Hne; [|by apply H2]. apply H3.
           destruct (add_rule_at _ _ _ (models.DB s) (ToLower (models.Table s)) Hadd) as [_ ->].
           rewrite decide_True by done. eauto.
        -- intros cfg. rewrite H4. set_solver.
      * intros db t r Hr. destruct (add_rule_at _ _ _ db t Hadd) as [_ E]. rewrite E in Hr.
        case_decide as Hd; [|by apply Ha]. injection Hr as <-. destruct Hd as [-> ->].
        eapply (origin_base _ _ _ s); [set_solver|done|done|done|done].
Qed.

Lemma createLinkedRule_inv rm cfg l :
  createLinkedRule rm cfg = Ret l ->
  exists b, rule_at rm (models.DB cfg) (ToLower (models.ParentTable cfg)) = Some (RBase b) /\
    l = mk_LinkedRule (models.DB cfg) (ToLower (models.Table cfg)) (ToLower (models.Key cfg)) b.
Proof.
  unfold createLinkedRule, rule_at. destruct (negb _); [done|].
  destruct (rm !! models.DB cfg) as [m|]; [|done]. cbn [mbind option_bind].
  destruct (m !! ToLower (models.ParentTable cfg)) as [r|]; [|done].
  destruct (String.eqb _ _); [done|]. destruct r as [b|]; [|done]. intros [= <-]. eauto.
Qed.

Lemma link_rules_spec ns linked rm rm' :
  link_rules linked rm = Ret rm' ->
  (forall cfg, cfg ∈ linked -> cfg ∈ models.ShardRules ns /\ models.Type_ cfg = LinkedTableRuleType) ->
  all_from ns rm ->
  all_from ns rm' /\
  (forall cfg, cfg ∈ linked -> has_rule rm' cfg) /\
  (forall db t, is_Some (rule_at rm db t) -> is_Some (rule_at rm' db t)).
Proof.
  revert rm. induction linked as [|s ss IH]; intros rm Hl Hsub Ha.
  - injection Hl as <-. split_and!; set_solver.
  - cbn [link_rules] in Hl. apply bind_Ret in Hl as (l & Hc & Hl). apply wrap_Ret in Hc.
    apply createLinkedRule_inv in Hc as (b & Hb & ->). cbn [lr_db lr_table] in Hl.
    pose proof (fun r db' t' => rule_at_insert rm (models.DB s) (ToLower (models.Table s)) _ r db' t'
                  eq_refl) as Hins.
    destruct (Hsub s ltac:(left)) as [Hs Hty].
    apply IH in Hl as (H1 & H2 & H3).
    + split_and!; [done| |].
      * intros cfg [->|Hin]%elem_of_cons; [|by apply H2]. apply H3. rewrite Hins.
        rewrite decide_True by done. eauto.
      * intros db t Ht. apply H3. rewrite Hins. by case_decide.
    + intros cfg Hin. apply Hsub. by right.
    + intros db t r Hr. rewrite Hins in Hr. case_decide as Hd; [|by apply Ha].
      injection Hr as <-. destruct Hd as [-> ->].
      eapply (origin_linked _ _ _ s); [done|done|done|done|by apply Ha|done].
Qed.

Lemma NewRouter_spec ns rt :
  NewRouter ns = Ret rt ->
  all_from ns (rules rt) /\ (forall cfg, cfg ∈ models.ShardRules ns -> has_rule (rules rt) cfg).
Proof.
  unfold NewRouter. intros Hn. destruct (negb _); [done|].
  apply bind_Ret in Hn as ([rm linked] & Hl & Hn). apply bind_Ret in Hn as (rm' & Hk & [= <-]).
  cbn [rules].
  apply load_rules_spec in Hl as (H1 & H2 & H3 & H4);
    [|done|intros db t r Hr; unfold rule_at in Hr; by rewrite lookup_empty in Hr].
  apply (link_rules_spec ns) in Hk as (K1 & K2 & K3); [| |done].
  - split; [done|]. intros cfg Hin.
    destruct (decide (models.Type_ cfg = LinkedTableRuleType)) as [E|E].
    + apply K2, H4. by right.
    + apply K3. by apply H2.
  - intros cfg Hin%H4. set_solver.
Qed.

(** A table name without a database part. *)
Definition unqualified (t : string) : Prop := length (Split "." t) <> 2%nat.

Lemma GetShardRule_unqualified rt db t :
  unqualified t -> GetShardRule rt db t = rule_at (rules rt) db t.
Proof.
  unfold unqualified, GetShardRule, split_table. intros Hu.
  by destruct (Split "." t) as [|a [|b [|]]].
Qed.

(** The rules of a router are exactly those of the configuration: every
    configured table has a rule, and a rule found for a table was parsed from the
    configuration of that table, or links the table to the base rule parsed for
    its parent table in the same database. *)
Theorem NewRouter_rules ns rt :
  NewRouter ns = Ret rt ->
  (forall cfg, cfg ∈ models.ShardRules ns -> unqualified (ToLower (models.Table cfg)) ->
     is_Some (GetShardRule rt (models.DB cfg) (ToLower (models.Table cfg)))) /\
  (forall db t r, unqualified t -> GetShardRule rt db t = Some r -> origin ns db t r).
Proof.
  intros Hn. apply NewRouter_spec in Hn as [H1 H2]. split.
  - intros cfg Hin Hu. rewrite GetShardRule_unqualified by done. by apply H2.
  - intros db t r Hu Hr. rewrite GetShardRule_unqualified in Hr by done. by apply H1.
Qed.

(** Rules built in this router have their own slices unless they are global. *)
Lemma origin_wf ns db t r :
  origin ns db t r -> Forall tables_ok (models.ShardRules ns) ->
  GetType r <> GlobalTableRuleType ->
  exists cfg, cfg ∈ models.ShardRules ns /\ rule_wf (base_of r) /\
    br_slices (base_of r) = models.Slices cfg.
Proof.
  intros Ho Hok. assert (forall cfg b, cfg ∈ models.ShardRules ns ->
    load_rule (map models.Slice_Name (models.NSlices ns)) cfg = Ret b ->
    br_ruleType b <> GlobalTableRuleType ->
    rule_wf b /\ br_slices b = models.Slices cfg) as K.
  { intros cfg b Hin Hb Hty. apply bind_Ret in Hb as (b' & Hp & [= <-]).
    destruct (String.eqb (br_ruleType b') GlobalTableRuleType) eqn:E.
    - apply String.eqb_eq in E. by destruct Hty.
    - rewrite Forall_forall in Hok. split; [eapply parseRule_wf_lemma; eauto|].
      by apply parseRule_inv in Hp as (dbs & -> & _). }
  unfold GetType. destruct Ho as [cfg b Hin _ _ _ Hb|cfg parent b Hin _ _ _ Hb _]; cbn [base_of];
    intros Hty.
  - exists cfg. split; [done|]. by apply K.
  - inversion Hb as [cfg' b' Hin' _ _ _ Hb' E|]; subst. exists cfg'. split; [done|]. by apply K.
Qed.

(** The slices a configuration names were checked against the namespace. *)
Lemma load_rules_slices names shards linked rm res cfg :
  load_rules names shards linked rm = Ret res -> cfg ∈ shards ->
  forall s, s ∈ models.Slices cfg -> s ∈ names.
Proof.
  revert linked rm. induction shards as [|c ss IH]; intros linked rm Hl Hin s Hs; [set_solver|].
  cbn [load_rules] in Hl. destruct (forallb _ _) eqn:E; [|done]. cbn [negb] in Hl.
  apply elem_of_cons in Hin as [->|Hin].
  - rewrite forallb_forall in E. rewrite <- list_elem_of_In in Hs || apply list_elem_of_In in Hs.
    apply E in Hs. unfold includeSlice in Hs. apply existsb_exists in Hs as (x & Hx & Heq).
    apply String.eqb_eq in Heq as ->. by apply list_elem_of_In.
  - destruct (String.eqb (models.Type_ c) _); [by eapply IH|].
    apply bind_Ret in Hl as (b & _ & Hl). destruct (String.eqb (br_ruleType b) _); [done|].
    apply bind_Ret in Hl as (rm1 & _ & Hl). by eapply IH.
Qed.

(** Every sub table of every non-global rule of a router, linked rules
    included, lies in one of the slices of the namespace. *)
Theorem NewRouter_targets ns rt db t r i :
  NewRouter ns = Ret rt -> Forall tables_ok (models.ShardRules ns) ->
  unqualified t -> GetShardRule rt db t = Some r -> GetType r <> GlobalTableRuleType ->
  i ∈ GetSubTableIndexes r ->
  exists name, GetSlice r (GetSliceIndexFromTableIndex r i) = Ret name /\
    name ∈ map models.Slice_Name (models.NSlices ns).
Proof.
  intros Hn Hok Hu Hr Hty Hi. rewrite GetShardRule_unqualified in Hr by done.
  pose proof Hn as Hn'. apply NewRouter_spec in Hn' as [Ha _]. apply Ha in Hr.
  destruct (origin_wf _ _ _ _ Hr Hok Hty) as (cfg & Hin & Hwf & Hs).
  destruct (rule_wf_slice (base_of r) i Hwf Hi) as (name & Hname & Hmem).
  exists name. split; [done|]. rewrite Hs in Hmem. unfold NewRouter in Hn.
  destruct (negb _); [done|]. apply bind_Ret in Hn as ([rm linked] & Hl & _).
  by eapply load_rules_slices.
Qed.

(** GetRule hands out one shared default rule: once a second unsharded
    table is looked up, the rule handed out for the first table reports the
    database of the second. *)
Theorem GetRule_default_shared r db1 t1 db2 t2 ref1 r1 ref2 r2 :
  unqualified t1 -> unqualified t2 ->
  GetShardRule r db1 t1 = None -> GetShardRule r db2 t2 = None ->
  GetRule r db1 t1 = (ref1, r1) -> GetRule r1 db2 t2 = (ref2, r2) ->
  GetDB (deref r1 ref1) = db1 /\ GetDB (deref r2 ref1) = db2 /\ deref r2 ref1 = deref r2 ref2.
Proof.
  unfold unqualified, GetShardRule, GetRule, split_table. intros Hu1 Hu2 H1 H2 G1 G2.
  replace (match Split "." t1 with [d; t] => _ | _ => (db1, t1) end) with (db1, t1) in *
    by (by destruct (Split "." t1) as [|? [|? [|]]]).
  replace (match Split "." t2 with [d; t] => _ | _ => (db2, t2) end) with (db2, t2) in *
    by (by destruct (Split "." t2) as [|? [|? [|]]]).
  rewrite H1 in G1. injection G1 as <- <-. cbn [set_default_db rules] in G2.
  rewrite H2 in G2. injection G2 as <- <-. done.
Qed.

(** A namespace without a default slice passes the checks of models and is
    refused by the router. *)
Theorem NewRouter_needs_default_slice ns :
  models.verifySlices ns = Ret tt -> models.DefaultSlice ns = EmptyString ->
  models.verifyDefaultSlice ns = Ret tt /\
  NewRouter ns = Err (Errorf "default slice[%s] not in the slice list").
Proof.
  intros Hv Hd. unfold models.verifyDefaultSlice, NewRouter. rewrite Hd. split; [done|].
  enough (includeSlice (map models.Slice_Name (models.NSlices ns)) "" = false) as -> by done.
  unfold models.verifySlices in Hv. destruct (_ =? _); [done|].
  assert (forall done ss, models.verify_each_slice done ss = Ret tt ->
    includeSlice (map models.Slice_Name ss) "" = false) as K; [|by eapply K].
  intros dn ss. revert dn. induction ss as [|s ss IH]; intros dn He; [done|].
  cbn [models.verify_each_slice] in He. apply bind_Ret in He as ([] & Hs & He).
  destruct (existsb _ dn); [done|]. apply IH in He. unfold includeSlice in *. cbn. rewrite He.
  apply wrap_Ret in Hs. unfold models.Slice_verify in Hs.
  by destruct (String.eqb (models.Slice_Name s) "").
Qed.

End router.

(** * Witnesses *)

Definition example_slice (name : string) : models.Slice :=
  models.mk_Slice name "root" "" "127.0.0.1:3306" [] [] "" [] 4 8 60.

Definition example_table (table parent ty : string) : models.Shard :=
  models.mk_Shard "db" table parent ty "ID" [2; 1] ["slice-0"; "slice-1"] [] 0
    [] "" "" "" "" "" "" "" "" "".

Definition example_ns (default_slice : string) (tables : list models.Shard) : models.Namespace :=
  models.mk_Namespace "ns" ∅ ∅ "" [example_slice "slice-0"; example_slice "slice-1"] tables []
    default_slice.

Definition linked_ns : models.Namespace :=
  example_ns "slice-0" [example_table "child" "Orders" LinkedTableRuleType;
                        example_table "Orders" "" HashRuleType].

Lemma linked_ns_ok : Forall tables_ok (models.ShardRules linked_ns).
Proof.
  repeat constructor; cbn; try lia; unfold_int; lia.
Qed.

Lemma NewRouter_rules_witness :
  exists rt, NewRouter (T := gmap Z Z) linked_ns = Ret rt /\
    is_Some (GetShardRule rt "db" "orders") /\
    (forall r, GetShardRule rt "db" "child" = Some r -> origin linked_ns "db" "child" r).
Proof.
  eexists. split; [reflexivity|].
  split.
  - apply (NewRouter_rules (T := gmap Z Z) linked_ns _ eq_refl)
      with (cfg := example_table "Orders" "" HashRuleType); [set_solver|discriminate].
  - intros r. apply (NewRouter_rules (T := gmap Z Z) linked_ns _ eq_refl). discriminate.
Defined.

Lemma NewRouter_targets_witness :
  exists rt r, NewRouter (T := gmap Z Z) linked_ns = Ret rt /\
    GetShardRule rt "db" "child" = Some r /\
    exists name, GetSlice r (GetSliceIndexFromTableIndex r 2) = Ret name /\
      name ∈ ["slice-0"%string; "slice-1"%string].
Proof.
  eexists _, _. split; [reflexivity|]. split; [reflexivity|].
  eapply (NewRouter_targets (T := gmap Z Z) linked_ns _ "db" "child");
    [reflexivity|exact linked_ns_ok|discriminate|reflexivity|discriminate|].
  cbn. set_solver.
Defined.

Definition example_router : Router := mk_Router (T := gmap Z Z) ∅ (NewDefaultRule "slice-0").

Lemma GetRule_default_shared_witness :
  let r1 := set_default_db example_router "db1" in
  let r2 := set_default_db r1 "db2" in
  GetDB (deref r1 RefDefault) = "db1"%string /\ GetDB (deref r2 RefDefault) = "db2"%string /\
  deref r2 RefDefault = deref r2 RefDefault.
Proof.
  exact (GetRule_default_shared example_router "db1" "a" "db2" "b" RefDefault
    (set_default_db example_router "db1") RefDefault
    (set_default_db (set_default_db example_router "db1") "db2")
    ltac:(discriminate) ltac:(discriminate) eq_refl eq_refl eq_refl eq_refl).
Defined.

Lemma NewRouter_needs_default_slice_witness :
  models.verifyDefaultSlice (example_ns "" []) = Ret tt /\
  NewRouter (T := gmap Z Z) (example_ns "" []) =
    Err (Errorf "default slice[%s] not in the slice list").
Proof. by apply NewRouter_needs_default_slice. Defined.

(** A linked table whose name differs only in case from a sharded table passes
    the checks of models and silently replaces the rule of that table. *)
Lemma linked_replaces_rule :
  let ns := example_ns "slice-0" [example_table "orders" "" HashRuleType;
                                  example_table "users" "" ModRuleType;
                                  example_table "Orders" "users" LinkedTableRuleType] in
  models.verifyShardRules ns = Ret tt /\
  exists rt r, NewRouter (T := gmap Z Z) ns = Ret rt /\
    GetShardRule rt "db" "orders" = Some r /\ GetType r = ModRuleType.
Proof. split; [reflexivity|]. by eexists _, _. Qed.
