(* ===== verification/PlanUtil.v ===== *)
(** proxy/plan/util.go and proxy/plan/route_result.go: the sorted lists of
    table indexes a statement is routed to, and the cursor over them. *)

From Stdlib Require Import String.
From S2P Require Import Prelude GoStr.

(** * Index lists

    The loops that move two cursors over [l1] and [l2] recurse on the rests
    [l1[i:]] and [l2[j:]]. *)

Definition makeList (start end_ : Z) : list Z :=
  if end_ <=? start then [] else seqZ start (end_ - start).

(** The position of the first occurrence of a value. *)
Fixpoint find_pos (value : Z) (indexs : list Z) : option nat :=
  match indexs with
  | [] => None
  | v :: vs => if v =? value then Some O else S <$> find_pos value vs
  end.

Definition makeLeList (value : Z) (indexs : list Z) : list Z :=
  match find_pos value indexs with Some k => take (k + 1) indexs | None => [] end.
Definition makeGeList (value : Z) (indexs : list Z) : list Z :=
  match find_pos value indexs with Some k => drop k indexs | None => [] end.
Definition makeLtList (value : Z) (indexs : list Z) : list Z :=
  match find_pos value indexs with Some k => take k indexs | None => [] end.
Definition makeGtList (value : Z) (indexs : list Z) : list Z :=
  match find_pos value indexs with Some k => drop (k + 1) indexs | None => [] end.

(** The loop of [makeBetweenList]: [k] is the position of the head of [rest]. *)
Fixpoint between_loop (start end_ : Z) (indexs rest : list Z) (k : nat)
    (startIndex : nat) (SetStart : bool) {struct rest} : list Z :=
  match rest with
  | [] => []
  | v :: vs =>
      let '(startIndex, SetStart) := if v =? start then (k, true) else (startIndex, SetStart) in
      if (v =? end_) && SetStart
      then take (k + 1 - startIndex) (drop startIndex indexs)
      else between_loop start end_ indexs vs (k + 1) startIndex SetStart
  end.

Definition makeBetweenList (start end_ : Z) (indexs : list Z) : list Z :=
  let '(start, end_) := if end_ <? start then (end_, start) else (start, end_) in
  between_loop start end_ indexs indexs 0 0 false.

(** l1 & l2 *)
Fixpoint interList (l1 : list Z) : list Z -> list Z :=
  fix inter_l2 (l2 : list Z) : list Z :=
    match l1, l2 with
    | x :: xs, y :: ys =>
        if x =? y then x :: interList xs ys
        else if x <? y then interList xs l2
        else inter_l2 ys
    | _, _ => []
    end.

(** l1 | l2 *)
Fixpoint unionList (l1 : list Z) : list Z -> list Z :=
  fix union_l2 (l2 : list Z) : list Z :=
    match l1, l2 with
    | x :: xs, y :: ys =>
        if x <? y then x :: unionList xs l2
        else if y <? x then y :: union_l2 ys
        else x :: unionList xs ys
    | [], _ => l2
    | _, [] => l1
    end.

(** l1 - l2 *)
Fixpoint differentList (l1 : list Z) : list Z -> list Z :=
  fix different_l2 (l2 : list Z) : list Z :=
    match l1, l2 with
    | x :: xs, y :: ys =>
        if x <? y then x :: differentList xs l2
        else if y <? x then different_l2 ys
        else differentList xs ys
    | [], _ => []
    | _, [] => l1
    end.

Fixpoint distinct_loop (current : Z) (l : list Z) : list Z :=
  match l with
  | [] => []
  | x :: xs => if negb (x =? current) then x :: distinct_loop x xs else distinct_loop current xs
  end.

Definition distinctList (l : list Z) : list Z :=
  match l with
  | [] => []
  | x :: xs => x :: distinct_loop x xs
  end.

(** * RouteResult *)

Record RouteResult := mk_RouteResult {
  rr_db : string; rr_table : string; currentIndex : Z; indexes : list Z }.

Definition NewRouteResult (db table : string) (initIndexes : list Z) : RouteResult :=
  mk_RouteResult db table 0 initIndexes.

Definition rr_Check (r : RouteResult) (db table : string) : outcome unit :=
  if negb (String.eqb (rr_db r) db) then Err (Errorf "db not equal, origin: %v, current: %v") else
  if negb (String.eqb (rr_table r) table)
  then Err (Errorf "table not equal, origin: %v, current: %v") else Ret tt.

Definition set_indexes (r : RouteResult) (l : list Z) : RouteResult :=
  mk_RouteResult (rr_db r) (rr_table r) (currentIndex r) l.

Definition rr_Inter (r : RouteResult) (l : list Z) : RouteResult :=
  set_indexes r (interList (indexes r) l).
Definition rr_Union (r : RouteResult) (l : list Z) : RouteResult :=
  set_indexes r (unionList (indexes r) l).
Definition GetShardIndexes (r : RouteResult) : list Z := indexes r.

Definition GetCurrentTableIndex (r : RouteResult) : outcome Z :=
  if zlen (indexes r) <=? currentIndex r then Err (Errorf "table index out of range")
  else index (indexes r) (currentIndex r).

(** The cursor moves before the list is indexed. *)
Definition Next (r : RouteResult) : outcome (Z * RouteResult) :=
  let idx := currentIndex r in
  let r' := mk_RouteResult (rr_db r) (rr_table r) (i64 (idx + 1)) (indexes r) in
  v ← index (indexes r) idx; Ret (v, r').

Definition HasNext (r : RouteResult) : bool := currentIndex r <? zlen (indexes r).
Definition Reset (r : RouteResult) : RouteResult :=
  mk_RouteResult (rr_db r) (rr_table r) 0 (indexes r).

(** * Set algebra of ascending lists *)

Lemma interList_cons x xs y ys :
  interList (x :: xs) (y :: ys) =
    if x =? y then x :: interList xs ys
    else if x <? y then interList xs (y :: ys) else interList (x :: xs) ys.
Proof. done. Qed.

Lemma unionList_cons x xs y ys :
  unionList (x :: xs) (y :: ys) =
    if x <? y then x :: unionList xs (y :: ys)
    else if y <? x then y :: unionList (x :: xs) ys else x :: unionList xs ys.
Proof. done. Qed.

Lemma differentList_cons x xs y ys :
  differentList (x :: xs) (y :: ys) =
    if x <? y then x :: differentList xs (y :: ys)
    else if y <? x then differentList (x :: xs) ys else differentList xs ys.
Proof. done. Qed.

Lemma interList_nil_l l : interList [] l = [].
Proof. by destruct l. Qed.
Lemma interList_nil_r l : interList l [] = [].
Proof. by destruct l. Qed.
Lemma unionList_nil_l l : unionList [] l = l.
Proof. by destruct l. Qed.
Lemma unionList_nil_r l : unionList l [] = l.
Proof. by destruct l. Qed.
Lemma differentList_nil_l l : differentList [] l = [].
Proof. by destruct l. Qed.
Lemma differentList_nil_r l : differentList l [] = l.
Proof. by destruct l. Qed.

(** Induction over two cursors: one of them advances. *)
Lemma two_cursors (P : list Z -> list Z -> Prop) :
  (forall l, P [] l) -> (forall l, P l []) ->
  (forall x xs y ys, P xs ys -> P xs (y :: ys) -> P (x :: xs) ys -> P (x :: xs) (y :: ys)) ->
  forall l1 l2, P l1 l2.
Proof.
  intros H1 H2 H3. induction l1 as [|x xs IH1]; [done|]. induction l2 as [|y ys IH2]; auto.
Qed.

Lemma ascending_lt x l y : ascending (x :: l) -> y ∈ l -> x < y.
Proof. rewrite ascending_cons, Forall_forall. intros [_ H] Hy. by apply H. Qed.

Lemma ascending_tail x l : ascending (x :: l) -> ascending l.
Proof. rewrite ascending_cons. by intros []. Qed.

Lemma interList_length l1 l2 : zlen (interList l1 l2) <= zlen l1.
Proof.
  unfold zlen. revert l1 l2. apply (two_cursors (fun l1 l2 =>
    Z.of_nat (length (interList l1 l2)) <= Z.of_nat (length l1))).
  - intros l. by rewrite interList_nil_l.
  - intros l. rewrite interList_nil_r. cbn [length]. lia.
  - intros x xs y ys IH1 IH2 IH3. rewrite interList_cons. cbn [length] in *.
    destruct (x =? y); [cbn [length]; lia|]. destruct (x <? y); lia.
Qed.

Lemma interList_elem l1 l2 v :
  ascending l1 -> ascending l2 -> v ∈ interList l1 l2 <-> v ∈ l1 /\ v ∈ l2.
Proof.
  revert l1 l2. apply (two_cursors (fun l1 l2 =>
    ascending l1 -> ascending l2 -> v ∈ interList l1 l2 <-> v ∈ l1 /\ v ∈ l2)).
  - intros l _ _. rewrite interList_nil_l. set_solver.
  - intros l _ _. rewrite interList_nil_r. set_solver.
  - intros x xs y ys IH1 IH2 IH3 Ha Hb. rewrite interList_cons.
    pose proof (ascending_lt x xs v Ha) as Hx. pose proof (ascending_lt y ys v Hb) as Hy.
    destruct (x =? y) eqn:E1; [|destruct (x <? y) eqn:E2].
    + rewrite elem_of_cons, IH1, !elem_of_cons by eauto using ascending_tail.
      replace y with x in * by lia.
      tauto.
    + rewrite IH2, !elem_of_cons by eauto using ascending_tail.
      split; [tauto|]. intros [[->|?] Hv]; [|tauto]. exfalso. destruct Hv as [?|Hv]; [lia|].
      specialize (Hy Hv). lia.
    + rewrite IH3, !elem_of_cons by eauto using ascending_tail.
      split; [tauto|]. intros [Hv [->|?]]; [|tauto]. exfalso. destruct Hv as [?|Hv]; [lia|].
      specialize (Hx Hv). lia.
Qed.

Lemma unionList_elem l1 l2 v : v ∈ unionList l1 l2 <-> v ∈ l1 \/ v ∈ l2.
Proof.
  revert l1 l2. apply (two_cursors (fun l1 l2 => v ∈ unionList l1 l2 <-> v ∈ l1 \/ v ∈ l2)).
  - intros l. rewrite unionList_nil_l. set_solver.
  - intros l. rewrite unionList_nil_r. set_solver.
  - intros x xs y ys IH1 IH2 IH3. rewrite unionList_cons.
    destruct (x <? y) eqn:E1; [|destruct (y <? x) eqn:E2].
    + rewrite elem_of_cons, IH2, !elem_of_cons. tauto.
    + rewrite elem_of_cons, IH3, !elem_of_cons. tauto.
    + replace y with x by lia. rewrite elem_of_cons, IH1, !elem_of_cons. tauto.
Qed.

Lemma differentList_elem l1 l2 v :
  ascending l1 -> ascending l2 -> v ∈ differentList l1 l2 <-> v ∈ l1 /\ v ∉ l2.
Proof.
  revert l1 l2. apply (two_cursors (fun l1 l2 =>
    ascending l1 -> ascending l2 -> v ∈ differentList l1 l2 <-> v ∈ l1 /\ v ∉ l2)).
  - intros l _ _. rewrite differentList_nil_l. set_solver.
  - intros l _ _. rewrite differentList_nil_r. set_solver.
  - intros x xs y ys IH1 IH2 IH3 Ha Hb. rewrite differentList_cons.
    pose proof (ascending_lt x xs v Ha) as Hx. pose proof (ascending_lt y ys v Hb) as Hy.
    destruct (x <? y) eqn:E1; [|destruct (y <? x) eqn:E2].
    + rewrite elem_of_cons, IH2, !elem_of_cons by eauto using ascending_tail.
      split; [|tauto]. intros [->|?]; [|tauto]. split; [tauto|]. intros [?|Hv]; [lia|].
      specialize (Hy Hv). lia.
    + rewrite IH3, !elem_of_cons by eauto using ascending_tail.
      split; [|tauto]. intros [Hv Hn]. split; [done|]. intros [->|?]; [|done].
      destruct Hv as [?|Hv]; [lia|]. specialize (Hx Hv). lia.
    + replace y with x in * by lia. rewrite IH1, !elem_of_cons by eauto using ascending_tail.
      split; [|tauto]. intros [Hv Hn]. split; [tauto|]. intros [->|?]; [|done].
      specialize (Hx Hv). lia.
Qed.

Lemma interList_ascending l1 l2 : ascending l1 -> ascending l2 -> ascending (interList l1 l2).
Proof.
  revert l1 l2. apply (two_cursors (fun l1 l2 =>
    ascending l1 -> ascending l2 -> ascending (interList l1 l2))).
  - intros l _ _. rewrite interList_nil_l. apply ascending_nil.
  - intros l _ _. rewrite interList_nil_r. apply ascending_nil.
  - intros x xs y ys IH1 IH2 IH3 Ha Hb. rewrite interList_cons.
    destruct (x =? y); [|destruct (x <? y)]; eauto using ascending_tail.
    apply ascending_cons. split; [eauto using ascending_tail|]. rewrite Forall_forall.
    intros z Hz. apply interList_elem in Hz as [Hz _]; eauto using ascending_tail, ascending_lt.
Qed.

Lemma unionList_ascending l1 l2 : ascending l1 -> ascending l2 -> ascending (unionList l1 l2).
Proof.
  revert l1 l2. apply (two_cursors (fun l1 l2 =>
    ascending l1 -> ascending l2 -> ascending (unionList l1 l2))).
  - intros l _ ?. by rewrite unionList_nil_l.
  - intros l ? _. by rewrite unionList_nil_r.
  - intros x xs y ys IH1 IH2 IH3 Ha Hb. rewrite unionList_cons.
    assert (forall z, z ∈ xs -> x < z) as Hx by eauto using ascending_lt.
    assert (forall z, z ∈ ys -> y < z) as Hy by eauto using ascending_lt.
    destruct (x <? y) eqn:E1; [|destruct (y <? x) eqn:E2];
      (apply ascending_cons; split; [eauto using ascending_tail|]; rewrite Forall_forall;
       intros z Hz; apply unionList_elem in Hz; rewrite ?elem_of_cons in Hz).
    + destruct Hz as [Hz|[->|Hz]]; [auto|lia|]. apply Hy in Hz. lia.
    + destruct Hz as [[->|Hz]|Hz]; [lia| |auto]. apply Hx in Hz. lia.
    + destruct Hz as [Hz|Hz]; [auto|]. apply Hy in Hz. lia.
Qed.

Lemma differentList_ascending l1 l2 :
  ascending l1 -> ascending l2 -> ascending (differentList l1 l2).
Proof.
  revert l1 l2. apply (two_cursors (fun l1 l2 =>
    ascending l1 -> ascending l2 -> ascending (differentList l1 l2))).
  - intros l _ _. rewrite differentList_nil_l. apply ascending_nil.
  - intros l ? _. by rewrite differentList_nil_r.
  - intros x xs y ys IH1 IH2 IH3 Ha Hb. rewrite differentList_cons.
    destruct (x <? y); [|destruct (y <? x)]; eauto using ascending_tail.
    apply ascending_cons. split; [eauto using ascending_tail|]. rewrite Forall_forall.
    intros z Hz. apply differentList_elem in Hz as [Hz _]; eauto using ascending_tail, ascending_lt.
Qed.

#[export] Hint Resolve interList_ascending unionList_ascending differentList_ascending : dbproxy.

(** The ascending list of the elements of a list that satisfy a test. *)
Lemma ascending_filter (P : Z -> Prop) `{forall x, Decision (P x)} l :
  ascending l -> ascending (filter P l).
Proof.
  induction l as [|x l IH]; [done|]. intros Ha. cbn.
  unfold filter, list_filter in *. cbn. case_decide; [|eauto using ascending_tail].
  apply ascending_cons. split; [eauto using ascending_tail|]. rewrite Forall_forall.
  intros z Hz. apply list_elem_of_filter in Hz as [_ Hz]. eauto using ascending_lt.
Qed.

(** On ascending lists the merge loops of interList, unionList and
    differentList compute the ascending list of the intersection, the union and
    the difference of the two sets of indexes. *)
Theorem index_set_algebra l1 l2 :
  ascending l1 -> ascending l2 ->
  interList l1 l2 = filter (fun v => v ∈ l2) l1 /\
  differentList l1 l2 = filter (fun v => v ∉ l2) l1 /\
  ascending (unionList l1 l2) /\ (forall v, v ∈ unionList l1 l2 <-> v ∈ l1 \/ v ∈ l2).
Proof.
  intros Ha Hb. split_and!.
  - apply ascending_ext; [auto with dbproxy|by apply ascending_filter|].
    intros v. rewrite interList_elem, list_elem_of_filter by done. tauto.
  - apply ascending_ext; [auto with dbproxy|by apply ascending_filter|].
    intros v. rewrite differentList_elem, list_elem_of_filter by done. tauto.
  - auto with dbproxy.
  - apply unionList_elem.
Qed.

Lemma index_set_algebra_witness :
  interList [1; 3; 4] [3; 4; 9] = [3; 4] /\ differentList [1; 3; 4] [3; 4; 9] = [1] /\
  ascending (unionList [1; 3; 4] [3; 4; 9]) /\
  forall v, v ∈ unionList [1; 3; 4] [3; 4; 9] <-> v ∈ [1; 3; 4] \/ v ∈ [3; 4; 9].
Proof.
  apply (index_set_algebra [1; 3; 4] [3; 4; 9]); repeat constructor; lia.
Defined.

(** * The list builders *)

Lemma find_pos_Some v l k :
  find_pos v l = Some k -> l !! k = Some v.
Proof.
  revert k. induction l as [|x l IH]; intros k; cbn; [done|].
  destruct (x =? v) eqn:E; [intros [= <-]; cbn; f_equal; lia|].
  destruct (find_pos v l) as [k'|]; [|done]. cbn. intros [= <-]. cbn. auto.
Qed.

Lemma find_pos_None v l : find_pos v l = None <-> v ∉ l.
Proof.
  induction l as [|x l IH]; cbn; [set_solver|]. destruct (x =? v) eqn:E.
  - split; [done|]. replace x with v by lia. set_solver.
  - rewrite fmap_None, IH, elem_of_cons. split; [|tauto]. intros H [?|?]; [lia|done].
Qed.

(** An ascending list around the position of one of its elements. *)
Lemma ascending_split l k v :
  ascending l -> l !! k = Some v ->
  l = take k l ++ v :: drop (S k) l /\
  Forall (fun x => x < v) (take k l) /\ Forall (fun x => v < x) (drop (S k) l).
Proof.
  intros Ha Hk. pose proof (take_drop_middle l k v Hk) as E. split_and!; [done| |];
    rewrite <- E in Ha; apply ascending_app in Ha as (_ & Ha & Hlt); rewrite Forall_forall.
  - intros x Hx. apply Hlt; [done|by left].
  - intros x Hx. eauto using ascending_lt.
Qed.

(** Splits a filter over the three parts of [ascending_split]. *)
Ltac filter_parts Hlo Hhi :=
  rewrite filter_app;
  first [rewrite (filter_all _ (take _ _)) by (eapply Forall_impl; [exact Hlo|cbv beta; lia])
        |rewrite (filter_none _ (take _ _)) by (eapply Forall_impl; [exact Hlo|cbv beta; lia])];
  first [rewrite filter_cons_True by lia|rewrite filter_cons_False by lia];
  first [rewrite (filter_all _ (drop _ _)) by (eapply Forall_impl; [exact Hhi|cbv beta; lia])
        |rewrite (filter_none _ (drop _ _)) by (eapply Forall_impl; [exact Hhi|cbv beta; lia])].

(** For a value that is one of the ascending indexes, the four list builders
    select the indexes below, up to, above and from the value; for any other
    value they return nothing. *)
Theorem make_lists_spec v l :
  ascending l ->
  (v ∈ l ->
   makeLtList v l = filter (fun x => x < v) l /\ makeLeList v l = filter (fun x => x <= v) l /\
   makeGtList v l = filter (fun x => v < x) l /\ makeGeList v l = filter (fun x => v <= x) l) /\
  (v ∉ l ->
   makeLtList v l = [] /\ makeLeList v l = [] /\ makeGtList v l = [] /\ makeGeList v l = []).
Proof.
  intros Ha. unfold makeLtList, makeLeList, makeGtList, makeGeList. split; intros Hv.
  - destruct (find_pos v l) as [k|] eqn:E; [|by apply find_pos_None in E].
    apply find_pos_Some in E. destruct (ascending_split l k v Ha E) as (Hl & Hlo & Hhi).
    rewrite Nat.add_1_r, (take_S_r _ _ _ E), (drop_S _ _ _ E).
    split_and!.
    + rewrite Hl at 2. filter_parts Hlo Hhi. by rewrite app_nil_r.
    + rewrite Hl at 2. by filter_parts Hlo Hhi.
    + rewrite Hl at 2. by filter_parts Hlo Hhi.
    + rewrite Hl at 2. by filter_parts Hlo Hhi.
  - apply find_pos_None in Hv. by rewrite Hv.
Qed.

Lemma make_lists_spec_witness :
  makeLeList 2016 [2015; 2016; 2018] = [2015; 2016] /\ makeGeList 2017 [2015; 2016; 2018] = [].
Proof.
  assert (ascending [2015; 2016; 2018]) as Ha by (repeat constructor; lia). split.
  - apply (make_lists_spec 2016 [2015; 2016; 2018] Ha). set_solver.
  - apply (make_lists_spec 2017 [2015; 2016; 2018] Ha). set_solver by lia.
Defined.

(** * The cursor *)

(** [for r.HasNext() { ... r.Next() ... }], the tables visited and the final
    cursor; the fuel bounds the number of turns. *)
Fixpoint drain (fuel : nat) (r : RouteResult) : option (outcome (list Z * RouteResult)) :=
  if HasNext r then
    match fuel with
    | O => None
    | S n =>
        match Next r with
        | Ret (v, r') =>
            match drain n r' with
            | Some (Ret (vs, r'')) => Some (Ret (v :: vs, r''))
            | o => o
            end
        | Err e => Some (Err e)
        | Panic p => Some (Panic p)
        end
    end
  else Some (Ret ([], r)).

Lemma drain_from r (k n : nat) :
  zlen (indexes r) < max_i64 -> currentIndex r = Z.of_nat k -> (k + n = length (indexes r))%nat ->
  drain n r = Some (Ret (drop k (indexes r),
    mk_RouteResult (rr_db r) (rr_table r) (zlen (indexes r)) (indexes r))).
Proof.
  revert r k. induction n as [|n IH]; intros r k Hm Hk Hlen; unfold zlen in *.
  - cbn [drain]. unfold HasNext. destruct (_ <? _) eqn:E; [unfold zlen in E; lia|].
    rewrite drop_ge by lia. destruct r as [d t c l]; cbn in *. unfold zlen in *. do 4 f_equal. lia.
  - cbn [drain]. unfold HasNext. destruct (_ <? _) eqn:E; [|unfold zlen in E; lia].
    unfold Next. destruct (lookup_lt_is_Some_2 (indexes r) k) as [v Hv]; [lia|].
    assert (index (indexes r) (currentIndex r) = Ret v) as ->
      by (apply index_Ret; split; [lia|]; by rewrite Hk, Nat2Z.id).
    cbn [mbind outcome_bind].
    rewrite (IH _ (S k)); cbn [indexes currentIndex rr_db rr_table];
      [|done|rewrite i64_id by (unfold_int; lia); lia|lia].
    by rewrite (drop_S _ _ _ Hv).
Qed.

(** After Reset, the loop over HasNext and Next visits exactly the routed
    indexes, each once and in order, in as many turns as there are indexes, and
    never indexes out of range. *)
Theorem cursor_visits_all r :
  zlen (indexes r) < max_i64 ->
  drain (length (indexes r)) (Reset r) =
    Some (Ret (indexes r, mk_RouteResult (rr_db r) (rr_table r) (zlen (indexes r)) (indexes r))).
Proof. intros Hm. by rewrite (drain_from (Reset r) 0). Qed.

Lemma cursor_visits_all_witness :
  drain 3 (Reset (mk_RouteResult "db" "t" 2 [4; 7; 9])) =
    Some (Ret ([4; 7; 9], mk_RouteResult "db" "t" 3 [4; 7; 9])).
Proof. apply (cursor_visits_all (mk_RouteResult "db" "t" 2 [4; 7; 9])). reflexivity. Defined.

(** The routing operations keep the indexes ascending. *)
Lemma rr_ascending r l :
  ascending (indexes r) -> ascending l ->
  ascending (indexes (rr_Inter r l)) /\ ascending (indexes (rr_Union r l)).
Proof. cbn. auto with dbproxy. Qed.

(** [distinctList] of a sorted list is the ascending list of its elements. *)
Lemma distinct_loop_spec c l :
  StronglySorted Z.le (c :: l) ->
  ascending (c :: distinct_loop c l) /\ forall v, v ∈ c :: distinct_loop c l <-> v ∈ c :: l.
Proof.
  revert c. induction l as [|x l IH]; intros c Hs; cbn [distinct_loop].
  - split; [repeat constructor|done].
  - inversion Hs as [|? ? Hs' Hc]; subst. apply Forall_cons in Hc as [Hcx Hc].
    destruct (x =? c) eqn:E; cbn [negb].
    + replace x with c in * by lia. destruct (IH c Hs') as [H1 H2]. split; [done|].
      intros v. rewrite H2. set_solver.
    + destruct (IH x Hs') as [H1 H2]. split.
      * apply ascending_cons. split; [done|]. rewrite Forall_forall. intros v Hv%H2.
        inversion Hs' as [|? ? _ Hx]; subst. rewrite Forall_forall in Hx.
        apply elem_of_cons in Hv as [->|Hv]; [lia|]. apply Hx in Hv. lia.
      * intros v. rewrite elem_of_cons, H2. set_solver.
Qed.
