(* ===== verification/Format.v ===== *)
(** parser/format/format.go: the context a statement is restored into. A restore
    appends to a writer and may fail half way; some callers drop the error and
    keep what was written, so both are kept. *)

From Stdlib Require Import Ascii String.
From S2P Require Import Prelude GoStr.

(** * What a restore writes *)

(** The text appended so far and whether the restore ended with [nil], with an
    error or with a panic. *)
Record restored := mk_restored { text : string; status : outcome unit }.

Definition written (s : string) : restored := mk_restored s (Ret tt).
Definition failed (e : error) : restored := mk_restored "" (Err e).
Definition crashed (msg : string) : restored := mk_restored "" (Panic msg).

(** One restore after another; the second does not run when the first fails. *)
Definition then_ (a b : restored) : restored :=
  match status a with
  | Ret _ => mk_restored (String.append (text a) (text b)) (status b)
  | _ => a
  end.

Declare Scope restore_scope.
Delimit Scope restore_scope with restore.
Infix "+>" := then_ (at level 60, right associativity) : restore_scope.
#[global] Open Scope restore_scope.

(** [if err := ...; err != nil { return errors.Annotate(err, ...) }] *)
Definition annotate (fmt : string) (r : restored) : restored :=
  mk_restored (text r) (wrap fmt (status r)).

(** [if err := ...; err != nil { errors.Annotate(err, ...) }]: the annotated error
    is built and dropped. *)
Definition dropped (r : restored) : restored :=
  mk_restored (text r) (match status r with Err _ => Ret tt | s => s end).

(** [for i, x := range l { if i != 0 { write sep }; restore x }] *)
Fixpoint separated (sep : restored) (l : list restored) : restored :=
  match l with
  | [] => written ""
  | [r] => r
  | r :: l => r +> sep +> separated sep l
  end.

Fixpoint in_order (l : list restored) : restored :=
  match l with [] => written "" | r :: l => r +> in_order l end.

(** What [strings.Builder.String] gives a caller that returns on an error. *)
Definition restored_sql (r : restored) : outcome string :=
  _ ← status r; Ret (text r).

(** * Flags *)

Definition RestoreStringSingleQuotes : Z := Z.shiftl 1 0.
Definition RestoreStringDoubleQuotes : Z := Z.shiftl 1 1.
Definition RestoreStringEscapeBackslash : Z := Z.shiftl 1 2.
Definition RestoreKeyWordUppercase : Z := Z.shiftl 1 3.
Definition RestoreKeyWordLowercase : Z := Z.shiftl 1 4.
Definition RestoreNameUppercase : Z := Z.shiftl 1 5.
Definition RestoreNameLowercase : Z := Z.shiftl 1 6.
Definition RestoreNameDoubleQuotes : Z := Z.shiftl 1 7.
Definition RestoreNameBackQuotes : Z := Z.shiftl 1 8.

Definition DefaultRestoreFlags : Z :=
  Z.lor (Z.lor RestoreStringSingleQuotes RestoreKeyWordUppercase) RestoreNameBackQuotes.
Definition EscapeRestoreFlags : Z :=
  Z.lor (Z.lor (Z.lor RestoreStringSingleQuotes RestoreStringEscapeBackslash)
    RestoreKeyWordUppercase) RestoreNameBackQuotes.

Definition has (rf flag : Z) : bool := negb (Z.land rf flag =? 0).

(** * Writers *)

(** [strings.ToUpper] on ASCII letters; other bytes are unchanged. *)
Definition upper (c : ascii) : ascii :=
  let b := byte_of c in if (97 <=? b) && (b <=? 122) then of_byte (b - 32) else c.

Fixpoint ToUpper (s : string) : string :=
  match s with
  | EmptyString => EmptyString
  | String c r => String (upper c) (ToUpper r)
  end.

(** [strings.Replace(s, c, cc, -1)] of one byte by two of it. *)
Fixpoint double (q : ascii) (s : string) : string :=
  match s with
  | EmptyString => EmptyString
  | String c r => if Ascii.eqb c q then String c (String c (double q r)) else String c (double q r)
  end.

Definition single_quote : ascii := "'".
Definition double_quote : ascii := "034".
Definition back_quote : ascii := "`".
Definition backslash : ascii := "\".

(** [fmt.Fprint(ctx.In, quotes, str, quotes)] *)
Definition quoted (q : ascii) (s : string) : string :=
  String q (String.append s (String q EmptyString)).

Definition WriteKeyWord (rf : Z) (keyWord : string) : restored :=
  written (if has rf RestoreKeyWordUppercase then ToUpper keyWord
           else if has rf RestoreKeyWordLowercase then ToLower keyWord else keyWord).

Definition WriteString (rf : Z) (str : string) : restored :=
  let str := if has rf RestoreStringEscapeBackslash then double backslash str else str in
  written (if has rf RestoreStringSingleQuotes then quoted single_quote (double single_quote str)
           else if has rf RestoreStringDoubleQuotes
                then quoted double_quote (double double_quote str) else str).

Definition WriteName (rf : Z) (name : string) : restored :=
  let name := if has rf RestoreNameUppercase then ToUpper name
              else if has rf RestoreNameLowercase then ToLower name else name in
  written (if has rf RestoreNameDoubleQuotes then quoted double_quote (double double_quote name)
           else if has rf RestoreNameBackQuotes then quoted back_quote (double back_quote name)
           else name).

Definition WritePlain (plainText : string) : restored := written plainText.

(** * Laws *)

Lemma append_assoc s t u :
  String.append s (String.append t u) = String.append (String.append s t) u.
Proof. induction s as [|c s IH]; [done|]. by rewrite !append_cons, IH. Qed.

Lemma append_nil s : String.append s "" = s.
Proof. induction s as [|c s IH]; [done|]. by rewrite !append_cons, IH. Qed.

Lemma then_assoc a b c : (a +> b +> c) = ((a +> b) +> c).
Proof.
  unfold then_. destruct a as [s [[]| |]]; cbn; [|done..].
  destruct b as [t [[]| |]]; cbn; [|done..]. by rewrite append_assoc.
Qed.

Lemma then_nil_l a : (written "" +> a) = a.
Proof. by destruct a. Qed.

Lemma then_nil_r a : (a +> written "") = a.
Proof. destruct a as [s [[]| |]]; cbn; [|done..]. unfold then_. cbn. by rewrite append_nil. Qed.

Lemma written_then s t : (written s +> written t) = written (String.append s t).
Proof. done. Qed.

Lemma written_then_assoc s t r :
  (written s +> written t +> r) = (written (String.append s t) +> r).
Proof. by rewrite then_assoc. Qed.

Lemma restored_sql_Ret r s : restored_sql r = Ret s <-> status r = Ret tt /\ text r = s.
Proof. unfold restored_sql. destruct (status r) as [[]| |]; cbn; naive_solver. Qed.

Lemma restored_sql_written s : restored_sql (written s) = Ret s.
Proof. done. Qed.

(** A restore that ends well wrote all its parts. *)
Lemma then_Ret a b :
  status (a +> b) = Ret tt <-> status a = Ret tt /\ status b = Ret tt.
Proof. unfold then_. destruct a as [s [[]| |]]; cbn; naive_solver. Qed.

Lemma then_text a b :
  status a = Ret tt -> text (a +> b) = String.append (text a) (text b).
Proof. unfold then_. by intros ->. Qed.

Lemma separated_map_written sep (l : list string) :
  separated (written sep) (map written l) = written (String.concat sep l).
Proof.
  induction l as [|s l IH]; [done|].
  destruct l as [|t l]; [done|]. cbn [map separated] in *. rewrite IH. done.
Qed.

(** Annotations change errors only. *)
Lemma annotate_Ret fmt r : status (annotate fmt r) = Ret tt <-> status r = Ret tt.
Proof. destruct r as [x [[]| |]]; cbn; naive_solver. Qed.

Lemma annotate_ok fmt r : status r = Ret tt -> annotate fmt r = r.
Proof. destruct r as [x st]. unfold annotate. cbn. by intros ->. Qed.

Lemma separated_Ret sep l : status (separated sep l) = Ret tt -> Forall (fun r => status r = Ret tt) l.
Proof.
  induction l as [|r l IH]; [by constructor|]. destruct l as [|r' l]; cbn [separated].
  - intros H. by repeat constructor.
  - intros [H1 [_ H2]%then_Ret]%then_Ret. constructor; auto.
Qed.

Create Rewrite HintDb restored.
#[export] Hint Rewrite then_nil_l then_nil_r written_then written_then_assoc : restored.
