(* ===== verification/SessionVars.v ===== *)
(** mysql/variables.go: the session variables a client sets, and how those of a
    backend connection follow them. *)

From Stdlib Require Import Ascii String.
From S2P Require Import Prelude GoStr Format.

(** * Checks *)

Definition is_quote (c : ascii) : bool :=
  Ascii.eqb c single_quote || Ascii.eqb c back_quote || Ascii.eqb c double_quote.

Definition formatVariableName (name : string) : string := ToLower (trim_func is_quote name).

Definition SQLModeSet : list string :=
  ["ALLOW_INVALID_DATES"; "ANSI_QUOTES"; "ERROR_FOR_DIVISION_BY_ZERO"; "HIGH_NOT_PRECEDENCE";
   "IGNORE_SPACE"; "NO_AUTO_CREATE_USER"; "NO_AUTO_VALUE_ON_ZERO"; "NO_BACKSLASH_ESCAPES";
   "NO_DIR_IN_CREATE"; "NO_ENGINE_SUBSTITUTION"; "NO_FIELD_OPTIONS"; "NO_KEY_OPTIONS";
   "NO_TABLE_OPTIONS"; "NO_UNSIGNED_SUBTRACTION"; "NO_ZERO_DATE"; "NO_ZERO_IN_DATE";
   "ONLY_FULL_GROUP_BY"; "PAD_CHAR_TO_FULL_LENGTH"; "PIPES_AS_CONCAT"; "REAL_AS_FLOAT";
   "STRICT_ALL_TABLES"; "STRICT_TRANS_TABLES";
   "ANSI"; "DB2"; "MAXDB"; "MSSQL"; "MYSQL323"; "MYSQL40"; "ORACLE"; "POSTGRESQL"; "TRADITIONAL"]%string.

Definition verifySQLMode (v : gval) : outcome unit :=
  match v with
  | GString value =>
      if String.eqb value "" then Ret tt else
      let values := Split "," (ToUpper (trim_func is_quote value)) in
      if forallb (fun m => bool_decide (m ∈ SQLModeSet)) values then Ret tt
      else Err (Named "ErrInvalidSQLMode")
  | _ => Err (Errorf "invalid type of sql mode")
  end.

Definition verifyOnOffInteger (v : gval) : outcome unit :=
  match v with
  | GInt KInt64 z => if (z =? 0) || (z =? 1) then Ret tt else Err (Errorf "value is not 0 or 1")
  | _ => Err (Errorf "value is not int64")
  end.

(** [values[0][0]] *)
Definition first_byte (s : string) : outcome ascii :=
  match s with String c _ => Ret c | EmptyString => Panic "index out of range" end.

Definition verifyTimeZone (v : gval) : outcome unit :=
  match v with
  | GString value =>
      match Split ":" value with
      | [h; m] =>
          c ← first_byte h;
          if negb (Ascii.eqb c "+") && negb (Ascii.eqb c "-") then Err (Errorf "invalid format of time_zone") else
          match Atoi h with
          | Ret hour =>
              match Atoi m with
              | Ret minute =>
                  let directMinute := if hour <? 0 then i64 (i64 (hour * 60) - minute)
                                      else i64 (i64 (hour * 60) + minute) in
                  if (directMinute <? -779) || (780 <? directMinute)
                  then Err (Errorf "exceed limit of time_zone") else Ret tt
              | _ => Err (Errorf "invalid minute of time_zone")
              end
          | _ => Err (Errorf "invalid hour of time_zone")
          end
      | _ => Err (Errorf "invalid format of time_zone")
      end
  | _ => Err (Errorf "invalid type of time_zone")
  end.

Definition variableVerifyFuncMap : gmap string (gval -> outcome unit) :=
  <["sql_mode"%string := verifySQLMode]>
    (<["sql_safe_updates"%string := verifyOnOffInteger]>
       {["time_zone"%string := verifyTimeZone]}).

(** * Variables *)

Record Variable_ := mk_Variable { v_name : string; v_value : gval; v_verify : gval -> outcome unit }.

Definition NewVariable (name : string) (value : gval) (verify : gval -> outcome unit) : outcome Variable_ :=
  _ ← verify value; Ret (mk_Variable (formatVariableName name) value verify).

(** [Variable_.Set] *)
Definition Variable_Set (v : Variable_) (value : gval) : outcome Variable_ :=
  _ ← v_verify v value; Ret (mk_Variable (v_name v) value (v_verify v)).

Record SessionVariables := mk_SessionVariables {
  variables : gmap string Variable_;
  unused : gmap string Variable_;
}.

Definition NewSessionVariables : SessionVariables := mk_SessionVariables ∅ ∅.

Definition set_variable (s : SessionVariables) (k : string) (v : Variable_) : SessionVariables :=
  mk_SessionVariables (<[k := v]> (variables s)) (unused s).

(** [delete(s.variables, k)] after [s.unused[k] = v] *)
Definition move_unused (s : SessionVariables) (k : string) (v : Variable_) : SessionVariables :=
  mk_SessionVariables (delete k (variables s)) (<[k := v]> (unused s)).

Definition Delete (s : SessionVariables) (key : string) : SessionVariables :=
  mk_SessionVariables (delete (formatVariableName key) (variables s)) (unused s).

Definition Set_ (s : SessionVariables) (key : string) (value : gval) : outcome SessionVariables :=
  let formatKey := formatVariableName key in
  match variableVerifyFuncMap !! formatKey with
  | None => Err (Errorf "variable not support")
  | Some verifyFunc =>
      v ← match variables s !! formatKey with
          | Some variable => Variable_Set variable value
          | None => NewVariable formatKey value verifyFunc
          end;
      Ret (set_variable s formatKey v)
  end.

Definition Get (s : SessionVariables) (key : string) : option Variable_ := variables s !! key.

Definition GetUnusedAndClear (s : SessionVariables) : gmap string Variable_ * SessionVariables :=
  (unused s, mk_SessionVariables (variables s) ∅).

Section range.
Context {MR : MapRange}.

(** The first loop of [SetEqualsWith], which stops at an error. *)
Fixpoint set_all (vs : list (string * Variable_)) (s : SessionVariables) : outcome SessionVariables :=
  match vs with
  | [] => Ret s
  | (_, v) :: vs => s ← Set_ s (v_name v) (v_value v); set_all vs s
  end.

(** A result of [Set] that is dropped. *)
Definition or_same {A} (a : A) (m : outcome A) : outcome A :=
  match m with Ret a' => Ret a' | Err _ => Ret a | Panic p => Panic p end.

(** One variable of the last loop. *)
Definition follow (dst : SessionVariables) (variableName : string) (changed : bool) (s : SessionVariables) :
    outcome (bool * SessionVariables) :=
  match variables s !! variableName, variables dst !! variableName with
  | Some srcVar, Some dstVar =>
      if bool_decide (v_value srcVar = v_value dstVar) then Ret (changed, s)
      else v ← or_same srcVar (Variable_Set srcVar (v_value dstVar));
           Ret (true, set_variable s variableName v)
  | Some srcVar, None => Ret (true, move_unused s variableName srcVar)
  | None, Some dstVar => s' ← or_same s (Set_ s variableName (v_value dstVar)); Ret (true, s')
  | None, None => Ret (changed, s)
  end.

Fixpoint follow_all (dst : SessionVariables) (names : list string) (changed : bool)
    (s : SessionVariables) : outcome (bool * SessionVariables) :=
  match names with
  | [] => Ret (changed, s)
  | n :: names => '(changed, s) ← follow dst n changed s; follow_all dst names changed s
  end.

(** Whether a variable changed, and the variables. *)
Definition SetEqualsWith (s dst : SessionVariables) : outcome (bool * SessionVariables) :=
  if decide (size (variables s) = 0%nat /\ size (variables dst) <> 0%nat) then
    s' ← set_all (map_range (variables dst)) s; Ret (true, s')
  else if decide (size (variables s) <> 0%nat /\ size (variables dst) = 0%nat) then
    Ret (true, foldl (fun s '(_, v) => move_unused s (v_name v) v) s (map_range (variables s)))
  else follow_all dst (map_range variableVerifyFuncMap).*1 false s.

End range.

(** * Properties *)

(** A stored variable is known under its name and its value was checked. *)
Definition var_ok (k : string) (v : Variable_) : Prop :=
  v_name v = k /\ variableVerifyFuncMap !! k = Some (v_verify v) /\ v_verify v (v_value v) = Ret tt.

Definition vars_ok (s : SessionVariables) : Prop := map_Forall var_ok (variables s).

Lemma known_name k f : variableVerifyFuncMap !! k = Some f -> formatVariableName k = k.
Proof.
  unfold variableVerifyFuncMap. rewrite !lookup_insert_Some, lookup_singleton_Some.
  intros [[<- _]|[_ [[<- _]|[_ [<- _]]]]]; reflexivity.
Qed.

Lemma var_ok_eq k v w : var_ok k v -> var_ok k w -> v_value v = v_value w -> v = w.
Proof.
  destruct v, w. unfold var_ok. cbn. intros (-> & E & _) (-> & E' & _) ->. by simplify_option_eq.
Qed.

Lemma Set_known s k v :
  vars_ok s -> var_ok k v -> Set_ s k (v_value v) = Ret (set_variable s k v).
Proof.
  intros Hs (Hn & Hf & Hv). unfold Set_. rewrite (known_name k _ Hf), Hf.
  destruct (variables s !! k) as [w|] eqn:Ew.
  - destruct (Hs k w Ew) as (Hn' & Hf' & _). rewrite Hf in Hf'. injection Hf' as Hf'.
    unfold Variable_Set. rewrite <- Hf', Hv. cbn [mbind outcome_bind]. rewrite Hn', <- Hn. by destruct v.
  - unfold NewVariable. rewrite Hv, (known_name k _ Hf). cbn [mbind outcome_bind]. rewrite <- Hn. by destruct v.
Qed.

Lemma set_variable_ok s k v : vars_ok s -> var_ok k v -> vars_ok (set_variable s k v).
Proof. intros Hs Hv. by apply map_Forall_insert_2. Qed.

Lemma set_all_eq vs s :
  vars_ok s -> Forall (fun e => var_ok e.1 e.2) vs ->
  set_all vs s = Ret (foldl (fun s e => set_variable s e.1 e.2) s vs).
Proof.
  revert s. induction vs as [|[k v] vs IH]; intros s Hs Hvs; [done|]. cbn [set_all foldl fst snd].
  apply Forall_cons in Hvs as [Hv Hvs]. cbn in Hv.
  rewrite (proj1 Hv), (Set_known _ _ _ Hs Hv). cbn [mbind outcome_bind]. apply IH; [|done].
  by apply set_variable_ok.
Qed.

Lemma foldl_set s vs :
  NoDup vs.*1 ->
  let s' := foldl (fun s e => set_variable s e.1 e.2) s vs in
  variables s' = list_to_map vs ∪ variables s /\ unused s' = unused s.
Proof.
  revert s. induction vs as [|[k v] vs IH]; intros s Hnd; cbn [foldl fst snd fmap list_fmap] in *.
  { split; [by rewrite list_to_map_nil, (left_id_L ∅ (∪))|done]. }
  apply NoDup_cons in Hnd as [Hk Hnd]. destruct (IH (set_variable s k v) Hnd) as [-> ->].
  split; [|done]. rewrite list_to_map_cons. cbn [set_variable variables].
  rewrite <- insert_union_l, insert_union_r; [done|]. by apply not_elem_of_list_to_map_1.
Qed.

Lemma foldl_move s vs :
  NoDup vs.*1 -> Forall (fun e => v_name e.2 = e.1) vs ->
  let s' := foldl (fun s '(_, v) => move_unused s (v_name v) v) s vs in
  (forall k, variables s' !! k = if decide (k ∈ vs.*1) then None else variables s !! k) /\
  unused s' = list_to_map vs ∪ unused s.
Proof.
  revert s. induction vs as [|[k v] vs IH]; intros s Hnd Hn; cbn [foldl fmap list_fmap] in *.
  { split; [done|by rewrite list_to_map_nil, (left_id_L ∅ (∪))]. }
  apply NoDup_cons in Hnd as [Hk Hnd]. apply Forall_cons in Hn as [Hn Hns]. cbn in Hn. rewrite Hn.
  destruct (IH (move_unused s k v) Hnd Hns) as [H1 ->]. split.
  - intros j. rewrite H1. cbn [move_unused variables]. destruct (decide (j ∈ vs.*1)) as [Hj|Hj].
    + by rewrite decide_True by (by right).
    + destruct (decide (j = k)) as [->|Hne]; [rewrite lookup_delete_eq, decide_True by left; done|].
      rewrite lookup_delete_ne by done. rewrite decide_False by (by rewrite elem_of_cons; intros [?|?]). done.
  - rewrite list_to_map_cons. cbn [move_unused unused]. rewrite <- insert_union_l, insert_union_r; [done|]. by apply not_elem_of_list_to_map_1.
Qed.

(** What following the frontend does to one variable. *)
Lemma follow_eq dst n changed s :
  vars_ok s -> vars_ok dst ->
  exists s', follow dst n changed s =
      Ret (if decide (v_value <$> variables s !! n = v_value <$> variables dst !! n) then changed else true, s') /\
    vars_ok s' /\ variables s' !! n = variables dst !! n /\
    (forall k, k <> n -> variables s' !! k = variables s !! k /\ unused s' !! k = unused s !! k) /\
    unused s' !! n = match variables s !! n, variables dst !! n with
                     | Some v, None => Some v
                     | _, _ => unused s !! n
                     end.
Proof.
  intros Hs Hd. unfold follow.
  destruct (variables s !! n) as [v|] eqn:Ev, (variables dst !! n) as [w|] eqn:Ew.
  - pose proof (Hs n v Ev) as Hv. pose proof (Hd n w Ew) as Hw. cbn [fmap option_fmap option_map].
    destruct (bool_decide_reflect (v_value v = v_value w)) as [E|E].
    + rewrite decide_True by (by rewrite E). exists s.
      rewrite Ev. rewrite (var_ok_eq n v w Hv Hw E). split_and!; auto.
    + rewrite decide_False by (by intros [=]). exists (set_variable s n w).
      assert (Variable_Set v (v_value w) = Ret w) as ->.
      { destruct Hv as (Hn & Hf & _), Hw as (Hn' & Hf' & Hw). rewrite Hf in Hf'. injection Hf' as Hf'.
        unfold Variable_Set. rewrite Hf', Hw. cbn [mbind outcome_bind]. rewrite Hn, <- Hn'. by destruct w. }
      cbn [or_same mbind outcome_bind]. split; [done|]. split; [by apply set_variable_ok|]. cbn.
      rewrite lookup_insert_eq. split_and!; [done| |done]. intros k Hk. by rewrite lookup_insert_ne.
  - rewrite decide_False by (by intros [=]). exists (move_unused s n v). split; [done|]. cbn.
    rewrite lookup_delete_eq, lookup_insert_eq. split_and!; [by apply map_Forall_delete|done| |done].
    intros k Hk. by rewrite lookup_delete_ne, lookup_insert_ne.
  - pose proof (Hd n w Ew) as Hw. rewrite decide_False by (by intros [=]).
    exists (set_variable s n w). rewrite (Set_known s n w Hs Hw). cbn [or_same mbind outcome_bind].
    split; [done|]. split; [by apply set_variable_ok|]. cbn. rewrite lookup_insert_eq.
    split_and!; [done| |done]. intros k Hk. by rewrite lookup_insert_ne.
  - exists s. rewrite Ev. split_and!; auto.
Qed.

(** What [unused] has for a variable after the frontend was followed. *)
Definition left_over (s dst : SessionVariables) (k : string) : option Variable_ :=
  match variables s !! k, variables dst !! k with
  | Some v, None => Some v
  | _, _ => unused s !! k
  end.

Lemma follow_all_eq dst names changed s :
  NoDup names -> vars_ok s -> vars_ok dst ->
  exists changed' s', follow_all dst names changed s = Ret (changed', s') /\
    (forall k, k ∈ names -> variables s' !! k = variables dst !! k /\ unused s' !! k = left_over s dst k) /\
    (forall k, k ∉ names -> variables s' !! k = variables s !! k /\ unused s' !! k = unused s !! k) /\
    (changed' = false <-> changed = false /\ forall k, k ∈ names ->
       v_value <$> variables s !! k = v_value <$> variables dst !! k).
Proof.
  revert changed s. induction names as [|n names IH]; intros changed s Hnd Hs Hd; cbn [follow_all].
  { exists changed, s. split_and!; [done|set_solver|done|set_solver]. }
  apply NoDup_cons in Hnd as [Hn Hnd]. destruct (follow_eq dst n changed s Hs Hd) as (s1 & -> & H1 & H2 & H3 & H4).
  cbn [mbind outcome_bind].
  destruct (IH (if decide (v_value <$> variables s !! n = v_value <$> variables dst !! n) then changed else true)
              s1 Hnd H1 Hd) as (changed' & s' & -> & K1 & K2 & K3).
  exists changed', s'. split; [done|]. split_and!.
  - intros k [->|Hk]%elem_of_cons.
    + destruct (K2 n Hn) as [-> ->]. by rewrite H2, H4.
    + assert (k <> n) as Hkn by set_solver. destruct (K1 k Hk) as [-> ->]. split; [done|].
      unfold left_over. by destruct (H3 k Hkn) as [-> ->].
  - intros k Hk. apply not_elem_of_cons in Hk as [Hkn Hk]. destruct (K2 k Hk) as [-> ->]. by apply H3.
  - rewrite K3. case_decide as E.
    + split; intros [-> Hall]; (split; [done|]); intros k Hk.
      * apply elem_of_cons in Hk as [->|Hk]; [done|]. rewrite <- (Hall k Hk).
        assert (k <> n) as Hkn by set_solver. by destruct (H3 k Hkn) as [-> _].
      * assert (k <> n) as Hkn by set_solver. destruct (H3 k Hkn) as [-> _]. apply Hall. by right.
    + split; [by intros [? _]|]. intros [_ Hall]. destruct E. apply Hall. by left.
Qed.

Lemma ok_known s k v : vars_ok s -> variables s !! k = Some v -> is_Some (variableVerifyFuncMap !! k).
Proof. intros Hs Hk. destruct (Hs k v Hk) as (_ & -> & _). by eexists. Qed.

(** Checked variables with the same values are the same. *)
Lemma vars_same s dst k :
  vars_ok s -> vars_ok dst ->
  v_value <$> variables s !! k = v_value <$> variables dst !! k <-> variables s !! k = variables dst !! k.
Proof.
  intros Hs Hd. split; [|by intros ->].
  destruct (variables s !! k) as [v|] eqn:Ev, (variables dst !! k) as [w|] eqn:Ew; cbn; try done.
  intros [= E]. f_equal. eapply var_ok_eq; eauto.
Qed.

(** The variables follow, and a change is noticed. *)
Definition followed (s dst : SessionVariables) (changed : bool) (s' : SessionVariables) : Prop :=
  variables s' = variables dst /\ (forall k, unused s' !! k = left_over s dst k) /\
  (changed = false <-> variables s = variables dst).

Section following.
Context {MR : MapRange} {MRO : MapRangeOk MR} (s dst : SessionVariables).
Hypothesis Hs : vars_ok s.
Hypothesis Hd : vars_ok dst.

Lemma in_range {A} (m : gmap string A) k v : m !! k = Some v -> k ∈ (map_range m).*1.
Proof. intros H. apply list_elem_of_fmap. exists (k, v). split; [done|]. by apply elem_of_map_range. Qed.

Lemma range_to_map {A} (m : gmap string A) : list_to_map (map_range m) = m.
Proof.
  rewrite <- (list_to_map_to_list m) at 2. apply list_to_map_proper; [apply NoDup_map_range|]. apply MRO.
Qed.

Lemma follow_set :
  variables s = ∅ -> variables dst <> ∅ ->
  exists s', set_all (map_range (variables dst)) s = Ret s' /\ followed s dst true s'.
Proof.
  intros E1 E2. rewrite set_all_eq; [|done|].
  2: { apply Forall_forall. intros [k v] Hkv. apply Hd. by apply elem_of_map_range. }
  destruct (foldl_set s (map_range (variables dst)) (NoDup_map_range _)) as [V U].
  eexists. split; [reflexivity|]. unfold followed. rewrite V, U, E1, (right_id_L ∅ (∪)), range_to_map.
  split_and!; [done| |split; [done|by intros E; destruct E2]]. intros k. unfold left_over. by rewrite E1, lookup_empty.
Qed.

Lemma follow_clear :
  variables s <> ∅ -> variables dst = ∅ ->
  followed s dst true (foldl (fun s '(_, v) => move_unused s (v_name v) v) s (map_range (variables s))).
Proof.
  intros E1 E2. destruct (foldl_move s (map_range (variables s)) (NoDup_map_range _)) as [V U].
  { apply Forall_forall. intros [k v] Hkv%elem_of_map_range. by destruct (Hs k v Hkv). }
  split_and!.
  - rewrite E2. apply map_eq. intros k. rewrite V, lookup_empty. case_decide as Hk; [done|].
    destruct (variables s !! k) as [v|] eqn:Ev; [|done]. destruct Hk. by eapply in_range.
  - intros k. rewrite U, range_to_map. unfold left_over. rewrite E2, lookup_empty.
    destruct (variables s !! k) as [v|] eqn:Ev; [by erewrite lookup_union_Some_l|]. by rewrite lookup_union_r.
  - split; [done|]. intros E. by rewrite E in E1.
Qed.

Lemma unknown_absent k :
  k ∉ (map_range variableVerifyFuncMap).*1 -> variables s !! k = None /\ variables dst !! k = None.
Proof.
  intros Hk. assert (forall t : SessionVariables, vars_ok t -> variables t !! k = None) as K.
  { intros t Ht. destruct (variables t !! k) as [v|] eqn:E; [|done].
    destruct (ok_known t k v Ht E) as [f Hf]. destruct Hk. by eapply in_range. }
  auto.
Qed.

Lemma follow_known :
  exists changed s', follow_all dst (map_range variableVerifyFuncMap).*1 false s = Ret (changed, s') /\
    followed s dst changed s'.
Proof.
  destruct (follow_all_eq dst (map_range variableVerifyFuncMap).*1 false s (NoDup_map_range _) Hs Hd)
    as (changed & s' & -> & K1 & K2 & K3).
  set (names := (map_range variableVerifyFuncMap).*1) in *.
  exists changed, s'. split; [done|]. split_and!.
  - apply map_eq. intros k. destruct (decide (k ∈ names)) as [Hk|Hk]; [by apply K1|].
    destruct (K2 k Hk) as [-> _]. by destruct (unknown_absent k Hk) as [-> ->].
  - intros k. destruct (decide (k ∈ names)) as [Hk|Hk]; [by apply K1|].
    destruct (K2 k Hk) as [_ ->]. unfold left_over. by destruct (unknown_absent k Hk) as [-> _].
  - rewrite K3. split.
    + intros [_ Hall]. apply map_eq. intros k. destruct (decide (k ∈ names)) as [Hk|Hk]; [by apply vars_same, Hall|].
      by destruct (unknown_absent k Hk) as [-> ->].
    + intros E. split; [done|]. intros k _. by rewrite E.
Qed.

Lemma SetEqualsWith_followed :
  exists changed s', SetEqualsWith s dst = Ret (changed, s') /\ followed s dst changed s'.
Proof.
  unfold SetEqualsWith. destruct (decide _) as [[E1 E2]|_]; [rewrite map_size_empty_iff in E1, E2|].
  { destruct (follow_set E1 E2) as (s' & E & H). exists true, s'. by rewrite E. }
  destruct (decide _) as [[E1 E2]|_]; [rewrite map_size_empty_iff in E1, E2|apply follow_known].
  eexists _, _. split; [reflexivity|]. by apply follow_clear.
Qed.

End following.

(** Following the frontend: afterwards the variables of a connection are exactly
    those of the session, the ones the session does not have are kept as unused to be
    set back to their defaults, and a change is reported exactly when the variables
    were different before. *)
Theorem SetEqualsWith_spec {MR : MapRange} {MRO : MapRangeOk MR} s dst :
  vars_ok s -> vars_ok dst ->
  exists changed s', SetEqualsWith s dst = Ret (changed, s') /\
    variables s' = variables dst /\ (forall k, unused s' !! k = left_over s dst k) /\
    (changed = false <-> variables s = variables dst).
Proof. apply SetEqualsWith_followed. Qed.

(** Setting a variable keeps the variables checked. *)
Lemma Set_ok s k value s' : vars_ok s -> Set_ s k value = Ret s' -> vars_ok s'.
Proof.
  intros Hs. unfold Set_. destruct (variableVerifyFuncMap !! _) as [f|] eqn:Ef; [|done].
  intros (v & Ev & [= <-])%bind_Ret. apply set_variable_ok; [done|].
  destruct (variables s !! formatVariableName k) as [w|] eqn:Ew.
  - destruct (Hs _ w Ew) as (Hn & Hf & _). unfold Variable_Set in Ev.
    destruct (v_verify w value) as [[]| |] eqn:E; [|done..]. cbn in Ev. injection Ev as <-. by split_and!.
  - unfold NewVariable in Ev. destruct (f value) as [[]| |] eqn:E; [|done..]. cbn in Ev. injection Ev as <-.
    split_and!; [by apply (known_name _ f)|done|done].
Qed.

Definition strict_mode : SessionVariables :=
  set_variable NewSessionVariables "sql_mode"
    (mk_Variable "sql_mode" (GString "STRICT_ALL_TABLES") verifySQLMode).
Definition zone_8 : SessionVariables :=
  set_variable NewSessionVariables "time_zone" (mk_Variable "time_zone" (GString "+8:00") verifyTimeZone).

Lemma SetEqualsWith_spec_witness :
  exists changed s', SetEqualsWith (MR := list_range) strict_mode zone_8 = Ret (changed, s') /\
    variables s' = variables zone_8 /\ (forall k, unused s' !! k = left_over strict_mode zone_8 k) /\
    (changed = false <-> variables strict_mode = variables zone_8).
Proof.
  apply (SetEqualsWith_spec (MR := list_range) (MRO := list_range_ok)).
  all: apply map_Forall_insert_2; [split_and!; reflexivity|apply map_Forall_empty].
Defined.

(** A time zone without hours makes the check panic. *)
Example time_zone_panics : Set_ NewSessionVariables "time_zone" (GString ":30") = Panic "index out of range".
Proof. vm_compute. reflexivity. Qed.
