(* ===== verification/LexerRound.v ===== *)
(** What parser/format/format.go writes as a string literal or as a quoted name, the
    scanner of parser/lexer.go reads back. *)

From Stdlib Require Import Ascii String.
From S2P Require Import Prelude GoStr Keywords Utf8 Lexer LexerSafe Format.

(** * Positions in a text

    The text is [p ++ m ++ t]: [m] was read since the position [slen p], [t] is to
    be read. *)
Record at_text (r : reader) (p m t : string) : Prop := {
  at_s : r_s r = String.append p (String.append m t);
  at_off : off r = slen p + slen m }.

Lemma substring_middle p m t :
  String.substring (String.length p) (String.length m) (String.append p (String.append m t)) = m.
Proof. induction p as [|c p IH]; [exact (substring_prefix m t)|exact IH]. Qed.

Lemma sdrop_append s t : sdrop (String.length s) (String.append s t) = t.
Proof. induction s as [|c s IH]; [by destruct t|]. rewrite append_cons. apply IH. Qed.

Lemma stake_0 s : stake 0 s = EmptyString.
Proof. by destruct s. Qed.

Lemma stake_1 c s : stake 1 (String c s) = String c EmptyString.
Proof. unfold stake. cbn [String.substring]. by destruct s. Qed.

Lemma stake_length n s : Z.of_nat n <= slen s -> slen (stake n s) = Z.of_nat n.
Proof. intros H. unfold stake, slen in *. rewrite length_substring; lia. Qed.

Section position.
Context (r : reader) (p m t : string).
Hypothesis Hat : at_text r p m t.

Lemma at_ok : ok r.
Proof.
  destruct Hat as [Hs Ho]. unfold ok. rewrite Hs, Ho, !slen_append.
  pose proof (slen_nonneg p). pose proof (slen_nonneg m). pose proof (slen_nonneg t). lia.
Qed.

Lemma at_remaining : remaining r = slen t.
Proof. destruct Hat as [Hs Ho]. unfold remaining. rewrite Hs, Ho, !slen_append. lia. Qed.

Lemma at_rest : rest r = t.
Proof.
  destruct Hat as [Hs Ho]. unfold rest. rewrite Hs, Ho, append_assoc.
  replace (Z.to_nat (slen p + slen m)) with (String.length (String.append p m)).
  - apply sdrop_append.
  - pose proof (slen_append p m) as H. unfold slen in *. lia.
Qed.

Lemma at_eof : eof r = true <-> t = EmptyString.
Proof.
  rewrite eof_true. pose proof at_remaining as H. unfold remaining in H. destruct t as [|c u].
  - unfold slen in *. cbn in *. split; [done|lia].
  - rewrite slen_cons in H. pose proof (slen_nonneg u). split; [lia|done].
Qed.

Lemma at_peek c u :
  t = String c u -> exists r', peek r = ((peek_rune t).1, r') /\ at_text r' p m t /\ r_w r' = (peek_rune t).2 /\
    at_rune (peek_rune t).1 r'.
Proof.
  intros Ht. assert (eof r = false) as He.
  { destruct (eof r) eqn:E; [|done]. apply at_eof in E. congruence. }
  destruct (peek r) as [ch r'] eqn:E. pose proof (peek_at_rune _ _ _ E) as Hrune.
  unfold peek in E. rewrite He, at_rest in E. destruct (peek_rune t) as [v w]. injection E as <- <-.
  eexists. split; [reflexivity|]. split_and!; [by destruct Hat|done|done].
Qed.

Lemma at_inc w :
  r_w r = w -> 1 <= w <= slen t ->
  exists r', inc r = Ret r' /\ at_text r' p (String.append m (stake (Z.to_nat w) t)) (sdrop (Z.to_nat w) t).
Proof.
  intros Hw Hlen. pose proof at_ok as Hok. pose proof at_remaining as Hrem.
  destruct (inc_ok r) as (r' & -> & Hs & Ho & _); [unfold peeked, ok, remaining in *; lia|].
  exists r'. split; [done|]. destruct Hat as [Hs0 Ho0]. split.
  - rewrite Hs, Hs0, <- append_assoc, stake_sdrop. done.
  - rewrite Ho, Ho0, slen_append, stake_length by lia. lia.
Qed.

Lemma at_data pos : Offset pos = slen p -> data r pos = Ret m.
Proof.
  intros Hp. destruct Hat as [Hs Ho]. unfold data. rewrite Hs, Ho, Hp.
  unfold ssub. pose proof (slen_nonneg p). pose proof (slen_nonneg m). pose proof (slen_nonneg t).
  rewrite decide_True by (rewrite !slen_append; lia).
  f_equal. replace (Z.to_nat (slen p + slen m - slen p)) with (String.length m) by (unfold slen; lia).
  replace (Z.to_nat (slen p)) with (String.length p) by (unfold slen; lia).
  apply substring_middle.
Qed.

End position.

(** The slices of a literal without its quotes *)
Lemma ssub_inner a m b : ssub (String a (String.append m (String b EmptyString))) 1
    (slen (String a (String.append m (String b EmptyString))) - 1) = Ret m.
Proof.
  rewrite slen_cons, slen_append. unfold ssub. pose proof (slen_nonneg m).
  change (slen (String b EmptyString)) with 1. rewrite decide_True
    by (rewrite slen_cons, slen_append; change (slen (String b EmptyString)) with 1; lia).
  f_equal. replace (Z.to_nat (slen m + 1 + 1 - 1 - 1)) with (String.length m) by (unfold slen; lia).
  cbn [Z.to_nat]. change (Pos.to_nat 1) with 1%nat. cbn [String.substring]. apply substring_prefix.
Qed.

Lemma ssub_tail a m : ssub (String a m) 1 (slen (String a m)) = Ret m.
Proof.
  rewrite slen_cons. unfold ssub. pose proof (slen_nonneg m).
  rewrite decide_True by (rewrite slen_cons; lia).
  f_equal. replace (Z.to_nat (slen m + 1 - 1)) with (String.length m) by (unfold slen; lia).
  change (Z.to_nat 1) with 1%nat. cbn [String.substring]. apply substring_all.
Qed.

(** * Escaping *)

(** The text of a string literal between its quotes: a backslash is doubled and a
    quote has the byte [e] before it, another quote or a backslash. *)
Fixpoint escaped (e : ascii) (s : string) : string :=
  match s with
  | EmptyString => EmptyString
  | String c s =>
      if Ascii.eqb c backslash then String c (String c (escaped e s))
      else if Ascii.eqb c single_quote then String e (String c (escaped e s))
      else String c (escaped e s)
  end.

Lemma escaped_shorter e c s : slen (escaped e s) < slen (escaped e (String c s)).
Proof.
  cbn [escaped]. destruct (Ascii.eqb c backslash); [rewrite !slen_cons; lia|].
  destruct (Ascii.eqb c single_quote); rewrite !slen_cons; lia.
Qed.

Lemma escaped_sdrop e k s : slen (escaped e (sdrop k s)) <= slen (escaped e s).
Proof.
  revert s. induction k as [|k IH]; intros s; [done|]. destruct s as [|c s]; [done|]. cbn [sdrop].
  pose proof (escaped_shorter e c s). specialize (IH s). lia.
Qed.

(** Bytes above ASCII are written as they are. *)
Lemma plain_prefix (f : string -> string) q :
  byte_of q < 128 -> f EmptyString = EmptyString ->
  (forall c s, byte_of c < 128 -> exists b u, byte_of b < 128 /\ f (String c s) = String b u) ->
  (forall c s, 128 <= byte_of c -> f (String c s) = String c (f s)) ->
  forall w s t, let text := String.append (f s) (String q t) in
  Z.of_nat w <= slen text -> Forall (fun b => 128 <= b) (take w (sbytes text)) ->
  stake w text = stake w s /\ sdrop w text = String.append (f (sdrop w s)) (String q t) /\
  Z.of_nat w <= slen s.
Proof.
  intros Hq H0 Hlow Hhigh. induction w as [|w IH]; intros s t text Hlen Hall.
  { split_and!; [by rewrite !stake_0|reflexivity|pose proof (slen_nonneg s); lia]. }
  destruct s as [|c s].
  { unfold text in Hall. rewrite H0 in Hall. cbn in Hall. apply Forall_cons in Hall as [? _]. lia. }
  destruct (decide (byte_of c < 128)) as [Hc|Hc].
  { unfold text in Hall. destruct (Hlow c s Hc) as (b & u & Hb & Hu). rewrite Hu in Hall. cbn in Hall.
    apply Forall_cons in Hall as [? _]. lia. }
  unfold text in *. rewrite (Hhigh c s) in * by lia. rewrite append_cons in *.
  cbn [sbytes take] in Hall. apply Forall_cons in Hall as [_ Hall]. rewrite slen_cons in Hlen.
  destruct (IH s t) as (H1 & H2 & H3); [lia|done|]. unfold stake in *. cbn [String.substring sdrop].
  rewrite H1, H2, slen_cons. split_and!; [done|done|lia].
Qed.

Lemma escaped_plain e w s t :
  byte_of e < 128 -> let text := String.append (escaped e s) (String single_quote t) in
  Z.of_nat w <= slen text -> Forall (fun b => 128 <= b) (take w (sbytes text)) ->
  stake w text = stake w s /\ sdrop w text = String.append (escaped e (sdrop w s)) (String single_quote t) /\
  Z.of_nat w <= slen s.
Proof.
  intros He. apply plain_prefix; [by compute|done| |].
  - intros c u Hc. cbn [escaped]. destruct (Ascii.eqb c backslash); [eauto|].
    destruct (Ascii.eqb c single_quote); eauto.
  - intros c u Hc. cbn [escaped].
    destruct (Ascii.eqb_spec c backslash) as [->|_]; [by compute in Hc|].
    destruct (Ascii.eqb_spec c single_quote) as [->|_]; [by compute in Hc|done].
Qed.

(** * Steps *)

Lemma peek_ascii_rune c u : byte_of c < 128 -> peek_rune (String c u) = (byte_of c, 1).
Proof. intros Hc. unfold peek_rune. by replace (byte_of c <? 128) with true by lia. Qed.

Lemma at_rune_text r p m c u ch :
  at_text r p m (String c u) -> at_rune ch r ->
  ch = (peek_rune (String c u)).1 /\ r_w r = (peek_rune (String c u)).2 /\ eof r = false.
Proof.
  intros Hat Hch. destruct (at_peek r p m _ Hat c u eq_refl) as (r' & E & _ & Hw & _).
  unfold at_rune in Hch. rewrite Hch in E. injection E as -> <-. split_and!; [done|done|].
  destruct (eof r) eqn:He; [|done]. by apply (at_eof _ _ _ _ Hat) in He.
Qed.

Lemma at_peek_any r p m t :
  at_text r p m t -> exists ch r', peek r = (ch, r') /\ at_text r' p m t /\ at_rune ch r'.
Proof.
  intros Hat. destruct (peek r) as [ch r'] eqn:E. exists ch, r'. split_and!; [done| |by eapply peek_at_rune].
  unfold peek in E. destruct (eof r); [by injection E as _ <-|].
  destruct (peek_rune (rest r)). injection E as _ <-. by destruct Hat.
Qed.

(** Reading the rune at the position, and peeking at the next *)
Lemma string_next_at r p m c u ch mb :
  at_text r p m (String c u) -> r_w r = (peek_rune (String c u)).2 ->
  let w := r_w r in let n := Z.to_nat w in
  exists ch' r', string_next mb ch r = Ret (writeRune mb ch w, ch', r') /\
    at_text r' p (String.append m (stake n (String c u))) (sdrop n (String c u)) /\ at_rune ch' r'.
Proof.
  intros Hat Hw w n. assert (eof r = false) as He.
  { destruct (eof r) eqn:He; [|done]. by apply (at_eof _ _ _ _ Hat) in He. }
  pose proof (peek_rune_width (String c u) ltac:(done)) as Hlen. rewrite <- Hw in Hlen.
  destruct (at_inc r p m _ Hat w eq_refl Hlen) as (r1 & Hi & H1).
  destruct (at_peek_any r1 _ _ _ H1) as (ch' & r' & Hp & H2 & H3).
  exists ch', r'. unfold string_next. rewrite He, Hi. cbn [mbind outcome_bind]. rewrite Hp. done.
Qed.

(** The next rune is not the quote [q]. *)
Definition no_quote (q : ascii) (t : string) : Prop :=
  match t with String c _ => c <> q | EmptyString => True end.

Lemma no_quote_peek q t r p m ch :
  byte_of q < 128 -> no_quote q t -> at_text r p m t -> at_rune ch r -> ch <> byte_of q.
Proof.
  intros Hq Ht Hat Hch. destruct t as [|c u].
  - assert (eof r = true) as He by (by apply (at_eof _ _ _ _ Hat)).
    unfold at_rune in Hch. rewrite peek_eof in Hch by done. injection Hch as <-. unfold rune_error. lia.
  - destruct (at_rune_text _ _ _ _ _ _ Hat Hch) as (-> & _ & _).
    destruct (peek_rune_cases c u) as [[_ ->]|H].
    + intros E. apply Ht. by rewrite <- (of_byte_byte c), E, of_byte_byte.
    + destruct (peek_rune (String c u)) as [v w]. cbn. lia.
Qed.

(** * String literals *)

(** What the lazy buffer stands for: the text read since the quote, or the buffer. *)
Definition holds (mb : lazyBuf) (raw lit : string) : Prop :=
  match mb with None => raw = lit | Some b => b = lit end.

Lemma setUseBuf_holds mb raw lit : holds mb raw lit -> setUseBuf mb raw = Some lit.
Proof. destruct mb; cbn; by intros ->. Qed.

(** A rune is written as the bytes it was read from. *)
Lemma writeRune_holds mb raw lit c u :
  let v := (peek_rune (String c u)).1 in let w := (peek_rune (String c u)).2 in
  let x := stake (Z.to_nat w) (String c u) in
  holds mb raw lit -> holds (writeRune mb v w) (String.append raw x) (String.append lit x).
Proof.
  intros v w x Hm. destruct mb as [b|]; cbn [holds writeRune] in *; [|by subst]. subst b.
  apply (f_equal (String.append lit)). unfold x, w, v.
  destruct (peek_rune_cases c u) as [[-> ->]|H].
  - rewrite Z.mod_small, of_byte_byte by apply byte_range.
    change (Z.to_nat 1) with 1%nat. by rewrite stake_1.
  - destruct (peek_rune (String c u)) as [v' w']. cbn [fst snd]. destruct H as (Hw & _ & He & _).
    replace (1 <? w') with true by lia. done.
Qed.

Section literal.
Context (p t : string) (pos : Pos) (mode : SQLMode).
Hypothesis Hpos : Offset pos = slen p.
Hypothesis Hmode : HasNoBackslashEscapesMode mode = false.
Hypothesis Ht : no_quote single_quote t.
Context (e : ascii).
Hypothesis He : e = single_quote \/ e = backslash.

#[local] Abbreviation q := single_quote.
#[local] Abbreviation text s := (String.append (escaped e s) (String q t)).

Lemma string_loop_end fuel ch0 mb r raw lit :
  at_text r p (String q raw) (String q t) -> at_rune ch0 r -> holds mb raw lit -> (0 < fuel)%nat ->
  exists r', string_loop fuel mode pos 39 ch0 mb r = Ret (stringLit, pos, lit, r') /\
    at_text r' p (String q (String.append raw (String q EmptyString))) t.
Proof.
  intros Hat Hch Hm Hf. destruct fuel as [|fuel]; [lia|]. cbn [string_loop].
  destruct (at_rune_text _ _ _ _ _ _ Hat Hch) as (-> & Hw & ->). rewrite peek_ascii_rune in * by done.
  cbn [fst snd] in *. change (byte_of q =? 39) with true. cbn iota.
  destruct (at_inc r _ _ _ Hat 1 Hw) as (r1 & -> & H1); [rewrite slen_cons; pose proof (slen_nonneg t); lia|].
  cbn [mbind outcome_bind]. destruct (at_peek_any r1 _ _ _ H1) as (ch1 & r2 & -> & H2 & H3).
  change (Z.to_nat 1) with 1%nat in *. rewrite stake_1 in *.
  pose proof (no_quote_peek q t r2 _ _ ch1 ltac:(by compute) Ht H2 H3) as Hne.
  replace (ch1 =? 39) with false by (change (byte_of q) with 39 in Hne; lia). cbn [negb].
  rewrite append_cons in H2. exists r2. split; [|done]. unfold lazy_data.
  rewrite (at_data r2 _ _ _ H2 pos Hpos). cbn [mbind outcome_bind]. rewrite ssub_inner.
  destruct mb; cbn in Hm; subst; done.
Qed.
(** One step of the loop: it goes on at the rest of the literal. *)
Definition steps (fuel : nat) (ch0 : Z) (mb : lazyBuf) (r : reader) (s' lit' esc : string) (raw : string) :
    Prop :=
  exists ch' mb' r', string_loop (S fuel) mode pos 39 ch0 mb r = string_loop fuel mode pos 39 ch' mb' r' /\
    at_text r' p (String q (String.append raw esc)) (text s') /\ at_rune ch' r' /\
    holds mb' (String.append raw esc) lit'.

Lemma step_quote fuel ch0 mb r raw lit s :
  at_text r p (String q raw) (String q (String q (text s))) -> at_rune ch0 r -> holds mb raw lit ->
  steps fuel ch0 mb r s (String.append lit (String q EmptyString)) (String q (String q EmptyString)) raw.
Proof.
  intros Hat Hch Hm. unfold steps. cbn [string_loop].
  destruct (at_rune_text _ _ _ _ _ _ Hat Hch) as (-> & Hw & ->). rewrite peek_ascii_rune in * by done.
  cbn [fst snd] in *. change (byte_of q =? 39) with true. cbn iota.
  destruct (at_inc r _ _ _ Hat 1 Hw) as (r1 & -> & H1); [rewrite !slen_cons; pose proof (slen_nonneg (text s)); lia|].
  cbn [mbind outcome_bind]. change (Z.to_nat 1) with 1%nat in H1. rewrite stake_1 in H1. cbn [sdrop] in H1.
  destruct (at_peek r1 _ _ _ H1 q (text s) eq_refl) as (r2 & -> & H2 & Hw2 & _).
  rewrite peek_ascii_rune in * by done. cbn [fst snd] in *. change (byte_of q =? 39) with true. cbn [negb].
  rewrite append_cons in H2. rewrite (at_data r2 _ _ _ H2 pos Hpos). cbn [mbind outcome_bind].
  rewrite ssub_inner. cbn [mbind outcome_bind]. rewrite (setUseBuf_holds mb raw lit Hm).
  destruct (string_next_at r2 _ _ _ _ (byte_of q) (Some lit) H2) as (ch' & r3 & -> & H3 & H4);
    [by rewrite peek_ascii_rune|].
  cbn [mbind outcome_bind]. exists ch', (writeRune (Some lit) (byte_of q) (r_w r2)), r3. split; [done|].
  rewrite Hw2 in *. change (Z.to_nat 1) with 1%nat in H3. rewrite stake_1 in H3. cbn [sdrop] in H3.
  rewrite append_cons, <- append_assoc in H3. split_and!; [exact H3|exact H4|reflexivity].
Qed.

(** A backslash before a backslash or a quote *)
Lemma step_backslash fuel ch0 mb r raw lit c s :
  c = backslash \/ c = q ->
  at_text r p (String q raw) (String backslash (String c (text s))) -> at_rune ch0 r -> holds mb raw lit ->
  steps fuel ch0 mb r s (String.append lit (String c EmptyString))
    (String backslash (String c EmptyString)) raw.
Proof.
  intros Hc Hat Hch Hm. unfold steps. cbn [string_loop].
  destruct (at_rune_text _ _ _ _ _ _ Hat Hch) as (-> & Hw & ->). rewrite peek_ascii_rune in * by done.
  cbn [fst snd] in *. change (byte_of backslash =? 39) with false. cbn iota.
  change (byte_of backslash =? 92) with true. rewrite Hmode. cbn [negb andb].
  rewrite (at_data r _ _ _ Hat pos Hpos). cbn [mbind outcome_bind].
  rewrite ssub_tail. cbn [mbind outcome_bind]. rewrite (setUseBuf_holds mb raw lit Hm). unfold handleEscape.
  destruct (at_inc r _ _ _ Hat 1 Hw) as (r1 & -> & H1); [rewrite !slen_cons; pose proof (slen_nonneg (text s)); lia|].
  cbn [mbind outcome_bind]. change (Z.to_nat 1) with 1%nat in H1. rewrite stake_1 in H1. cbn [sdrop] in H1.
  assert (byte_of c < 128) as Hc7 by (destruct Hc as [->| ->]; by compute).
  destruct (at_peek r1 _ _ _ H1 c (text s) eq_refl) as (r2 & -> & H2 & Hw2 & _).
  rewrite peek_ascii_rune in * by done. cbn [fst snd] in *. rewrite append_cons in H2.
  match goal with |- context [let '(ch, keep) := ?m in _] =>
    replace m with (byte_of c, false) by (destruct Hc as [->| ->]; reflexivity) end.
  cbn [mbind outcome_bind].
  destruct (string_next_at r2 _ _ _ _ (byte_of c) (Some lit) H2) as (ch' & r3 & -> & H3 & H4);
    [by rewrite peek_ascii_rune|].
  cbn [mbind outcome_bind]. exists ch', (writeRune (Some lit) (byte_of c) (r_w r2)), r3. split; [done|].
  rewrite Hw2 in *. change (Z.to_nat 1) with 1%nat in H3. rewrite stake_1 in H3. cbn [sdrop] in H3.
  rewrite append_cons, <- append_assoc in H3. split_and!; [exact H3|exact H4|].
  destruct Hc as [->| ->]; reflexivity.
Qed.

(** A quote with its escape before it *)
Lemma step_escaped fuel ch0 mb r raw lit s b :
  b = q \/ b = backslash ->
  at_text r p (String q raw) (String b (String q (text s))) -> at_rune ch0 r -> holds mb raw lit ->
  steps fuel ch0 mb r s (String.append lit (String q EmptyString)) (String b (String q EmptyString)) raw.
Proof. intros [->| ->]; [apply step_quote|apply step_backslash; auto]. Qed.

(** Any other rune: its bytes are read and written. *)
Lemma step_plain fuel ch0 mb r raw lit c s :
  c <> q -> c <> backslash ->
  at_text r p (String q raw) (text (String c s)) -> at_rune ch0 r -> holds mb raw lit ->
  exists n, (0 < n)%nat /\ Z.of_nat n <= slen (String c s) /\
    steps fuel ch0 mb r (sdrop n (String c s)) (String.append lit (stake n (String c s)))
      (stake n (String c s)) raw.
Proof.
  intros Hq Hb Hat Hch Hm.
  assert (text (String c s) = String c (text s)) as Htext.
  { cbn [escaped]. destruct (Ascii.eqb_spec c backslash); [done|].
    by destruct (Ascii.eqb_spec c single_quote). }
  pose proof Hat as Hat'. rewrite Htext in Hat'.
  destruct (at_rune_text _ _ _ _ _ _ Hat' Hch) as (Ev & Hw & Heof).
  set (n := Z.to_nat (r_w r)).
  assert (Z.of_nat n <= slen (text (String c s)) /\ stake n (text (String c s)) = stake n (String c s) /\
          sdrop n (text (String c s)) = text (sdrop n (String c s)) /\ (0 < n)%nat /\
          Z.of_nat n <= slen (String c s)) as (Hn & Hst & Hsd & Hpos0 & Hlen).
  { pose proof (peek_rune_width (String c (text s)) ltac:(done)) as Hwd. rewrite <- Hw in Hwd.
    unfold n. rewrite Htext. destruct (peek_rune_cases c (text s)) as [[H1 _]|H1].
    - rewrite Hw, H1. change (Z.to_nat 1) with 1%nat. rewrite !stake_1, !slen_cons. cbn [sdrop].
      pose proof (slen_nonneg s). pose proof (slen_nonneg (text s)). split_and!; [lia|done|done|lia|lia].
    - destruct (peek_rune (String c (text s))) as [v w]. cbn [snd] in Hw. rewrite Hw in *.
      destruct H1 as (_ & _ & _ & Hall). rewrite <- Htext in *.
      destruct (escaped_plain e (Z.to_nat w) (String c s) t) as (H1 & H2 & H3);
        [case He; intros Ee; rewrite Ee; by compute|lia|done|].
      split_and!; [lia|done|done|lia|done]. }
  exists n. split; [done|]. split; [done|]. unfold steps. cbn [string_loop]. rewrite Heof.
  assert (ch0 <> 39 /\ ch0 <> 92) as [H39 H92].
  { rewrite Ev. destruct (peek_rune_cases c (text s)) as [[_ ->]|H1].
    - split; intros E; [apply Hq|apply Hb]; rewrite <- (of_byte_byte c), E; done.
    - destruct (peek_rune (String c (text s))) as [v w]. cbn [fst]. lia. }
  replace (ch0 =? 39) with false by lia. replace (ch0 =? 92) with false by lia. cbn [andb].
  destruct (string_next_at r _ _ _ _ ch0 mb Hat' Hw) as (ch' & r1 & -> & H1 & H2).
  cbn [mbind outcome_bind]. exists ch', (writeRune mb ch0 (r_w r)), r1. split; [done|].
  fold n in H1. rewrite <- Htext, Hst, Hsd, append_cons in H1. split_and!; [exact H1|exact H2|].
  pose proof (writeRune_holds mb raw lit c (text s) Hm) as Hwr. cbv zeta in Hwr.
  rewrite <- Ev, <- Hw in Hwr. fold n in Hwr. rewrite <- Htext, Hst in Hwr. exact Hwr.
Qed.

Lemma string_loop_round n s fuel ch0 mb r raw lit :
  slen s <= Z.of_nat n -> at_text r p (String q raw) (text s) -> at_rune ch0 r -> holds mb raw lit ->
  remaining r < Z.of_nat fuel ->
  exists r' m', string_loop fuel mode pos 39 ch0 mb r = Ret (stringLit, pos, String.append lit s, r') /\
    at_text r' p m' t.
Proof.
  revert s fuel ch0 mb r raw lit. induction n as [|n IH]; intros s fuel ch0 mb r raw lit Hn Hat Hch Hm Hf.
  all: rewrite (at_remaining _ _ _ _ Hat), slen_append, slen_cons in Hf;
    pose proof (slen_nonneg (escaped e s)); pose proof (slen_nonneg t).
  all: destruct s as [|c s]; [|try (rewrite slen_cons in Hn; pose proof (slen_nonneg s); lia)].
  1,2: destruct (string_loop_end fuel ch0 mb r raw lit Hat Hch Hm) as (r' & -> & H1); [lia|];
       exists r'; rewrite append_nil; eauto.
  destruct fuel as [|fuel]; [lia|].
  assert (forall s' lit' esc, steps fuel ch0 mb r s' lit' esc raw -> slen s' <= Z.of_nat n ->
            slen (escaped e s') < slen (escaped e (String c s)) ->
            exists r' m', string_loop (S fuel) mode pos 39 ch0 mb r =
              Ret (stringLit, pos, String.append lit' s', r') /\ at_text r' p m' t) as K.
  { intros s' lit' esc (ch' & mb' & r' & -> & H1 & H2 & H3) Hs' Hlt.
    eapply IH; [done|exact H1|exact H2|exact H3|]. rewrite (at_remaining _ _ _ _ H1).
    rewrite slen_append, slen_cons. lia. }
  pose proof Hat as Hat'. rewrite slen_cons in Hn. cbn [escaped] in Hat'.
  destruct (Ascii.eqb_spec c backslash) as [->|Hb].
  { rewrite !append_cons in Hat'.
    destruct (K _ _ _ (step_backslash fuel ch0 mb r raw lit backslash s (or_introl eq_refl) Hat' Hch Hm)) as (r' & m' & E & H1);
      [lia|apply escaped_shorter|]. exists r', m'. rewrite <- append_assoc in E. done. }
  destruct (Ascii.eqb_spec c single_quote) as [->|Hq].
  { rewrite !append_cons in Hat'.
    destruct (K _ _ _ (step_escaped fuel ch0 mb r raw lit s e He Hat' Hch Hm)) as (r' & m' & E & H1);
      [lia|apply escaped_shorter|]. exists r', m'. rewrite <- append_assoc in E. done. }
  destruct (step_plain fuel ch0 mb r raw lit c s Hq Hb Hat Hch Hm) as (k & Hk & Hlen & Hstep).
  destruct (K _ _ _ Hstep) as (r' & m' & E & H1).
  - rewrite sdrop_length, slen_cons. rewrite slen_cons in Hlen. lia.
  - destruct k as [|k]; [lia|]. cbn [sdrop]. pose proof (escaped_sdrop e k s).
    pose proof (escaped_shorter e c s). lia.
  - exists r', m'. rewrite <- append_assoc, stake_sdrop in E. done.
Qed.

End literal.

(** The position at which a literal or a name begins *)
Lemma at_start r p t : r_s r = String.append p t -> off r = slen p -> at_text r p EmptyString t.
Proof. intros Hs Ho. split; [done|]. rewrite Ho. unfold slen at 3. cbn. lia. Qed.

(** The literal of [WriteString] doubles the quotes. *)
Lemma WriteString_text s :
  text (WriteString EscapeRestoreFlags s) =
    String single_quote (String.append (escaped single_quote s) (String single_quote EmptyString)).
Proof.
  change (text (WriteString EscapeRestoreFlags s)) with
    (String single_quote (String.append (double single_quote (double backslash s)) (String single_quote EmptyString))).
  do 2 f_equal. induction s as [|c s IH]; [done|]. cbn [double escaped].
  destruct (Ascii.eqb_spec c backslash) as [->|Hb]; cbn [double]; [by rewrite IH|].
  rewrite IH. by destruct (Ascii.eqb_spec c single_quote) as [->|_].
Qed.

Lemma scanString_round mode e s p t r :
  e = single_quote \/ e = backslash ->
  HasNoBackslashEscapesMode mode = false -> no_quote single_quote t ->
  r_s r = String.append p (String single_quote (String.append (escaped e s) (String single_quote t))) ->
  off r = slen p ->
  exists r', scanString mode r = Ret (stringLit, r_p r, s, r') /\ rest r' = t.
Proof.
  intros He Hmode Ht Hs Ho.
  pose proof (at_start _ _ _ Hs Ho) as Hat. unfold scanString, readByte.
  destruct (at_peek r _ _ _ Hat _ _ eq_refl) as (r1 & -> & H1 & Hw & _). rewrite peek_ascii_rune in * by done.
  cbn [fst snd] in *. replace (byte_of single_quote =? rune_error) with false by done. cbn [andb].
  destruct (at_inc r1 _ _ _ H1 1 Hw) as (r2 & -> & H2);
    [rewrite slen_cons; pose proof (slen_nonneg (String.append (escaped e s) (String single_quote t))); lia|].
  cbn [mbind outcome_bind]. change (Z.to_nat 1) with 1%nat in H2. rewrite stake_1 in H2. cbn [sdrop] in H2. rewrite append_empty in H2.
  destruct (at_peek_any r2 _ _ _ H2) as (ch & r3 & -> & H3 & H4).
  destruct (string_loop_round p t (r_p r) mode Ho Hmode Ht e He (String.length s) s (fuel_of r3) ch None r3
              EmptyString EmptyString) as (r4 & m & E & H5); [done|exact H3|done|done| |].
  - apply fuel_enough. by eapply at_ok.
  - exists r4. split; [exact E|by eapply at_rest].
Qed.

(** A quoted string is scanned by [scanString]. *)
Lemma scan_string mode e s p t r errs fuel :
  e = single_quote \/ e = backslash ->
  HasNoBackslashEscapesMode mode = false -> no_quote single_quote t ->
  r_s r = String.append p (String single_quote (String.append (escaped e s) (String single_quote t))) ->
  off r = slen p ->
  exists r', scan (S fuel) (mk_Scanner r errs None mode) =
      Ret (stringLit, r_p r, s, mk_Scanner r' errs None mode) /\ rest r' = t.
Proof.
  intros He Hmode Ht Hs Ho. cbn [scan]. unfold scan_text. pose proof (at_start _ _ _ Hs Ho) as Hat.
  destruct (at_peek r _ _ _ Hat _ _ eq_refl) as (r1 & E & H1 & _ & _). rewrite E.
  assert (r_p r1 = r_p r /\ r_s r1 = r_s r) as [Hp1 Hs1].
  { destruct (peek_ok r (at_ok _ _ _ _ Hat)) as (c & r2 & E2 & ? & ? & _). rewrite E in E2. injection E2 as _ <-. done. }
  rewrite peek_ascii_rune by done. cbn [fst]. change (IsSpace (byte_of single_quote)) with false.
  cbn [mbind outcome_bind].
  assert (eof r1 = false) as -> by (destruct (eof r1) eqn:Heof; [by apply (at_eof _ _ _ _ H1) in Heof|done]).
  change (isIdentExtend (byte_of single_quote)) with false. cbn iota.
  change (byte_of single_quote =? 35) with false. change (byte_of single_quote =? 45) with false.
  change (byte_of single_quote =? 47) with false. cbn iota.
  change (first_fn mode (byte_of single_quote)) with (Some (scanString mode)). cbn iota.
  destruct (scanString_round mode e s p t r1 He Hmode Ht) as (r' & -> & Hr'); [congruence|congruence|].
  exists r'. cbn [with_reader mbind outcome_bind]. by rewrite Hp1.
Qed.

(** C31: whatever bytes a string value has, the scanner reads the literal the restored
    statement has for it back as that value, and goes on after it, wherever in the text
    the literal is; escaped backslashes are read as such unless NO_BACKSLASH_ESCAPES is
    set, and no quote may follow the literal. *)
Theorem string_literal_roundtrip mode s p t r errs fuel :
  HasNoBackslashEscapesMode mode = false -> no_quote single_quote t ->
  r_s r = String.append p (String.append (text (WriteString EscapeRestoreFlags s)) t) -> off r = slen p ->
  exists r', scan (S fuel) (mk_Scanner r errs None mode) =
      Ret (stringLit, r_p r, s, mk_Scanner r' errs None mode) /\ rest r' = t.
Proof.
  intros Hmode Ht Hs Ho. apply (scan_string mode single_quote s p t); auto.
  by rewrite WriteString_text, append_cons, <- append_assoc, append_cons, append_empty in Hs.
Qed.

Lemma string_literal_roundtrip_witness :
  let s := "it's a \ and a `"%string in
  exists r', scan 1 (reset (NewScanner "") (String.append (text (WriteString EscapeRestoreFlags s)) ", 1")) =
    Ret (stringLit, mk_Pos 1 0 0, s, mk_Scanner r' [] None 0) /\ rest r' = ", 1"%string.
Proof.
  exact (string_literal_roundtrip 0 "it's a \ and a `" "" ", 1"
    (mk_reader (String.append (text (WriteString EscapeRestoreFlags "it's a \ and a `")) ", 1") (mk_Pos 1 0 0) 0)
    [] 0 eq_refl ltac:(discriminate) eq_refl eq_refl).
Defined.

(** * Names

    A name is a sequence of runes; [WriteName] doubles the back quotes in it. *)

Definition of_runes (l : list Z) : string := foldr (fun c s => String.append (EncodeRune c) s) EmptyString l.

Lemma double_append q s t : double q (String.append s t) = String.append (double q s) (double q t).
Proof.
  induction s as [|c s IH]; [done|]. rewrite append_cons. cbn [double].
  destruct (Ascii.eqb c q); rewrite IH; done.
Qed.

Lemma double_none q s : Forall (fun b => b <> byte_of q) (sbytes s) -> double q s = s.
Proof.
  induction s as [|c s IH]; [done|]. intros [Hc Hs]%Forall_cons. cbn [double].
  destruct (Ascii.eqb_spec c q) as [->|_]; [done|]. by rewrite IH.
Qed.

Lemma double_rune c :
  scalar c -> double back_quote (EncodeRune c) =
    if c =? 96 then String back_quote (String back_quote EmptyString) else EncodeRune c.
Proof.
  intros Hc. destruct (c =? 96) eqn:E; [replace c with 96 by lia; done|]. apply double_none.
  change (byte_of back_quote) with 96. destruct (decide (c < 128)).
  - rewrite encode_ascii by (destruct Hc; lia). cbn. rewrite byte_of_byte by (destruct Hc; lia).
    repeat constructor. lia.
  - destruct (encode_high c Hc) as [_ H]; [lia|]. eapply Forall_impl; [exact H|]. cbn. lia.
Qed.

Lemma encode_not_empty c : EncodeRune c <> EmptyString.
Proof. unfold EncodeRune. destruct (_ && _); repeat case_match; done. Qed.

Lemma peek_encoded c t :
  scalar c -> peek_rune (String.append (EncodeRune c) t) = (c, slen (EncodeRune c)).
Proof.
  intros Hc. pose proof (decode_encode c t Hc) as Hd. unfold peek_rune.
  destruct (String.append (EncodeRune c) t) as [|b u] eqn:E.
  { destruct (EncodeRune c) eqn:E2; [by apply encode_not_empty in E2|done]. }
  destruct (decide (c < 128)) as [Hlow|Hhigh].
  - rewrite encode_ascii in E |- * by (destruct Hc; lia). injection E as <- _.
    rewrite byte_of_byte by (destruct Hc; lia). by replace (c <? 128) with true by lia.
  - destruct (encode_high c Hc) as [H2 Hall]; [lia|]. rewrite Hd.
    replace (slen (EncodeRune c) =? 1) with false by lia. rewrite andb_false_r.
    destruct (EncodeRune c) as [|b' u'] eqn:E2; [by apply encode_not_empty in E2|]. injection E as <- _.
    apply Forall_cons in Hall as [Hb _]. by replace (byte_of b' <? 128) with false by lia.
Qed.

Section name.
Context (p t : string) (pos : Pos).
Hypothesis Ht : no_quote back_quote t.

#[local] Abbreviation name l := (String.append (double back_quote (of_runes l)) (String back_quote t)).

(** The rune at the position is read. *)
Lemma readByte_encoded r m c u :
  scalar c -> at_text r p m (String.append (EncodeRune c) u) ->
  exists r', readByte r = Ret (c, r') /\ at_text r' p (String.append m (EncodeRune c)) u.
Proof.
  intros Hc Hat. destruct (String.append (EncodeRune c) u) as [|b v] eqn:E.
  { destruct (EncodeRune c) eqn:E2; [by apply encode_not_empty in E2|done]. }
  destruct (at_peek r _ _ _ Hat b v eq_refl) as (r1 & Hp & H1 & Hw & _). rewrite <- E, peek_encoded in * by done.
  cbn [fst snd] in *. unfold readByte. rewrite Hp.
  assert (eof r1 = false) as ->.
  { destruct (eof r1) eqn:He; [|done]. apply (at_eof _ _ _ _ H1) in He. by rewrite E in He. }
  rewrite andb_false_r.
  destruct (at_inc r1 _ _ _ H1 _ Hw) as (r2 & -> & H2).
  { rewrite slen_append. pose proof (slen_nonneg u). destruct (EncodeRune c) eqn:E2;
      [by apply encode_not_empty in E2|]. rewrite slen_cons. pose proof (slen_nonneg s). lia. }
  exists r2. split; [done|]. unfold slen in H2. rewrite Nat2Z.id, sdrop_append in H2.
  replace (stake (String.length (EncodeRune c)) (String.append (EncodeRune c) u)) with (EncodeRune c) in H2
    by (symmetry; apply substring_prefix). exact H2.
Qed.

Lemma quoted_loop_round l fuel r m buf :
  Forall scalar l -> at_text r p m (name l) -> remaining r < Z.of_nat fuel ->
  exists r', quoted_loop fuel pos buf r = Ret (quotedIdentifier, pos, String.append buf (of_runes l), r') /\
    rest r' = t.
Proof.
  intros Hl. revert fuel r m buf. induction Hl as [|c l Hc _ IH]; intros fuel r m buf Hat Hf.
  all: destruct fuel as [|fuel]; [pose proof (at_ok _ _ _ _ Hat); positions|]; cbn [quoted_loop].
  - change (name []) with (String.append (EncodeRune 96) t) in Hat.
    destruct (readByte_encoded r m 96 t) as (r1 & -> & H1); [split; lia|done|]. cbn [mbind outcome_bind].
    change (96 =? rune_error) with false. change (96 =? 96) with true. cbn [andb].
    destruct (at_peek_any r1 _ _ _ H1) as (ch & r2 & -> & H2 & H3).
    pose proof (no_quote_peek back_quote t r2 _ _ ch ltac:(by compute) Ht H2 H3) as Hne.
    change (byte_of back_quote) with 96 in Hne. replace (ch =? 96) with false by lia. cbn [negb].
    exists r2. cbn [of_runes foldr]. rewrite append_nil. split; [done|by eapply at_rest].
  - assert (name (c :: l) = String.append (double back_quote (EncodeRune c)) (name l)) as Hname.
    { cbn [of_runes foldr]. rewrite double_append, <- append_assoc. done. }
    rewrite Hname, double_rune in Hat by done.
    destruct (c =? 96) eqn:E96.
    + replace c with 96 in * by lia.
      change (String.append (String back_quote (String back_quote EmptyString)) (name l))
        with (String.append (EncodeRune 96) (String.append (EncodeRune 96) (name l))) in Hat.
      destruct (readByte_encoded r m 96 _ Hc Hat) as (r1 & -> & H1). cbn [mbind outcome_bind].
      change (96 =? rune_error) with false. change (96 =? 96) with true. cbn [andb].
      change (String.append (EncodeRune 96) (name l)) with (String back_quote (name l)) in H1.
      destruct (at_peek r1 _ _ _ H1 _ _ eq_refl) as (r2 & -> & H2 & Hw2 & _).
      rewrite peek_ascii_rune in * by done. cbn [fst snd] in *. change (byte_of back_quote =? 96) with true. cbn [negb].
      destruct (at_inc r2 _ _ _ H2 1 Hw2) as (r3 & -> & H3);
        [rewrite slen_cons; pose proof (slen_nonneg (name l)); lia|]. cbn [mbind outcome_bind].
      change (Z.to_nat 1) with 1%nat in H3. cbn [sdrop] in H3.
      destruct (IH fuel r3 _ (String.append buf (EncodeRune 96)) H3) as (r4 & -> & H4).
      { rewrite (at_remaining _ _ _ _ H3). rewrite (at_remaining _ _ _ _ Hat), !slen_append in Hf.
        change (slen (EncodeRune 96)) with 1 in Hf. rewrite slen_append. lia. }
      exists r4. split; [|done]. rewrite <- append_assoc. done.
    + destruct (readByte_encoded r m c _ Hc Hat) as (r1 & -> & H1). cbn [mbind outcome_bind].
      assert (eof r1 = false) as ->.
      { destruct (eof r1) eqn:He; [|done]. apply (at_eof _ _ _ _ H1) in He. by destruct (double _ _). }
      rewrite andb_false_r, E96.
      destruct (IH fuel r1 _ (String.append buf (EncodeRune c)) H1) as (r4 & -> & H4).
      { rewrite (at_remaining _ _ _ _ H1). rewrite (at_remaining _ _ _ _ Hat), slen_append in Hf.
        destruct (EncodeRune c) as [|b u] eqn:E2; [by apply encode_not_empty in E2|].
        rewrite slen_cons in Hf. pose proof (slen_nonneg u). lia. }
      exists r4. split; [|done]. rewrite <- append_assoc. done.
Qed.

Lemma scanQuotedIdent_round l r :
  Forall scalar l -> r_s r = String.append p (String.append (Format.text (WriteName EscapeRestoreFlags (of_runes l))) t) ->
  off r = slen p -> r_w r = 1 -> r_p r = pos ->
  exists r', scanQuotedIdent r = Ret (quotedIdentifier, pos, of_runes l, r') /\ rest r' = t.
Proof.
  intros Hl Hs Ho Hw Hp. change (Format.text (WriteName EscapeRestoreFlags (of_runes l))) with
    (String back_quote (String.append (double back_quote (of_runes l)) (String back_quote EmptyString))) in Hs.
  rewrite append_cons, <- append_assoc, append_cons, append_empty in Hs.
  pose proof (at_start _ _ _ Hs Ho) as Hat. unfold scanQuotedIdent.
  destruct (at_inc r _ _ _ Hat 1 Hw) as (r1 & -> & H1); [rewrite slen_cons; pose proof (slen_nonneg (name l)); lia|].
  cbn [mbind outcome_bind]. change (Z.to_nat 1) with 1%nat in H1. cbn [sdrop] in H1.
  destruct (quoted_loop_round l (fuel_of r1) r1 _ EmptyString Hl H1) as (r2 & E & H2).
  { apply fuel_enough. by eapply at_ok. }
  exists r2. rewrite Hp. split; [exact E|done].
Qed.
End name.

(** A name of well-formed UTF-8 is read back from the quoted name the restored
    statement has for it, whatever runes it has, back quotes included. *)
Theorem quoted_name_roundtrip mode l p t r errs fuel :
  Forall scalar l -> no_quote back_quote t ->
  r_s r = String.append p (String.append (text (WriteName EscapeRestoreFlags (of_runes l))) t) -> off r = slen p ->
  exists r', scan (S fuel) (mk_Scanner r errs None mode) =
      Ret (quotedIdentifier, r_p r, of_runes l, mk_Scanner r' errs None mode) /\ rest r' = t.
Proof.
  intros Hl Ht Hs Ho. cbn [scan]. unfold scan_text. pose proof Hs as Hs'.
  change (text (WriteName EscapeRestoreFlags (of_runes l))) with
    (String back_quote (String.append (double back_quote (of_runes l)) (String back_quote EmptyString))) in Hs'.
  rewrite append_cons in Hs'. pose proof (at_start _ _ _ Hs' Ho) as Hat.
  destruct (at_peek r _ _ _ Hat _ _ eq_refl) as (r1 & E & H1 & Hw & _). rewrite E.
  assert (r_p r1 = r_p r /\ r_s r1 = r_s r) as [Hp1 Hs1].
  { destruct (peek_ok r (at_ok _ _ _ _ Hat)) as (c & r2 & E2 & ? & ? & _). rewrite E in E2. injection E2 as _ <-. done. }
  rewrite peek_ascii_rune in * by done. cbn [fst snd] in *. change (IsSpace (byte_of back_quote)) with false.
  cbn [mbind outcome_bind].
  assert (eof r1 = false) as -> by (destruct (eof r1) eqn:He; [by apply (at_eof _ _ _ _ H1) in He|done]).
  change (isIdentExtend (byte_of back_quote)) with false. cbn iota.
  change (byte_of back_quote =? 35) with false. change (byte_of back_quote =? 45) with false.
  change (byte_of back_quote =? 47) with false. cbn iota.
  change (first_fn mode (byte_of back_quote)) with (Some scanQuotedIdent). cbn iota.
  destruct (scanQuotedIdent_round p t (r_p r) Ht l r1 Hl) as (r' & -> & Hr'); [congruence..|done|done|].
  exists r'. cbn [with_reader mbind outcome_bind]. done.
Qed.

Lemma quoted_name_roundtrip_witness :
  let name := of_runes [97; 96; 20013; 233] in
  exists r', scan 1 (reset (NewScanner "") (String.append (text (WriteName EscapeRestoreFlags name)) " = 1")) =
    Ret (quotedIdentifier, mk_Pos 1 0 0, name, mk_Scanner r' [] None 0) /\ rest r' = " = 1"%string.
Proof.
  apply (quoted_name_roundtrip 0 [97; 96; 20013; 233] "" " = 1"
    (mk_reader (String.append (text (WriteName EscapeRestoreFlags (of_runes [97; 96; 20013; 233]))) " = 1")
       (mk_Pos 1 0 0) 0) [] 0);
    [repeat constructor; lia|discriminate|reflexivity|reflexivity].
Defined.

(** The name of one byte above ASCII, read back *)
Definition one_byte_name (b : Z) : bool :=
  match scan 2 (NewScanner (quoted back_quote (of_bytes [b]))) with
  | Ret (tok, pos, lit, _) =>
      bool_decide (tok = quotedIdentifier) && bool_decide (pos = mk_Pos 0 0 0) &&
      String.eqb lit (of_bytes [192 + b / 64; 128 + b mod 64])
  | _ => false
  end.

Lemma one_byte_names : forallb one_byte_name (seqZ 128 128) = true.
Proof. vm_compute. reflexivity. Qed.

(** A name that is not well-formed UTF-8 is changed by the scanner: a byte above
    ASCII becomes the two bytes that encode the rune of its value, so a table named in
    another character set is not the table the shards are asked for. *)
Theorem ill_formed_name_changed b :
  128 <= b < 256 ->
  exists sc, scan 2 (NewScanner (quoted back_quote (of_bytes [b]))) =
    Ret (quotedIdentifier, mk_Pos 0 0 0, of_bytes [192 + b / 64; 128 + b mod 64], sc).
Proof.
  intros Hb. pose proof (proj1 (forallb_forall _ _) one_byte_names b) as H.
  specialize (H ltac:(apply list_elem_of_In, elem_of_seqZ; lia)). unfold one_byte_name in H.
  destruct (scan _ _) as [[[[tok pos] lit] sc]| |]; try done.
  apply andb_true_iff in H as [[->%bool_decide_eq_true ->%bool_decide_eq_true]%andb_true_iff ->%String.eqb_eq].
  by exists sc.
Qed.

Lemma ill_formed_name_changed_witness :
  exists sc, scan 2 (NewScanner (quoted back_quote (of_bytes [233]))) =
    Ret (quotedIdentifier, mk_Pos 0 0 0, of_bytes [195; 169], sc).
Proof. exact (ill_formed_name_changed 233 ltac:(lia)). Defined.
