(* ===== verification/Lex.v ===== *)
(** parser/lexer.go (Lex), parser/misc.go (key words) and the integers of
    parser/yy_parser.go: the tokens the grammar is given. *)

From Stdlib Require Import Ascii String.
From S2P Require Import Prelude GoStr Keywords Utf8 Lexer LexerSafe Format LexerRound.

(** mysql/charset_tidb.go: the character sets, with their default collations *)
Definition charsetInfos : list (string * string) :=
  [("utf8", "utf8_bin"); ("utf8mb4", "utf8mb4_bin"); ("ascii", "ascii_bin"); ("latin1", "latin1_bin");
   ("binary", "binary")]%string.

Definition GetCharsetInfo (cs : string) : outcome (string * string) :=
  match find (fun c => String.eqb c.1 (ToLower cs)) charsetInfos with
  | Some c => Ret c
  | None => Err (Errorf "Unknown charset %s")
  end.

(** The token and the identifier of a word: [_utf8] introduces a string. *)
Definition handleIdent (s : string) : token * string :=
  match s with
  | String c t =>
      if negb (Ascii.eqb c "_") then (identifier, s)
      else match GetCharsetInfo t with
           | Ret (cs, _) => (underscoreCS, cs)
           | _ => (identifier, s)
           end
  | EmptyString => (identifier, s)
  end.

(** [s.r.s[i]] *)
Definition byte_at (r : reader) (i : Z) : outcome Z := index (sbytes (r_s r)) i.

(** The key word a word is, unless it is a part of a qualified name. [window] tells
    whether window functions are enabled. *)
Definition isTokenIdentifier (window : bool) (mode : SQLMode) (r : reader) (lit : string) (offset : Z) :
    outcome (option token * reader) :=
  let '(ch, r) := peek r in
  if ch =? 46 then Ret (None, r) else
  before ← (if 0 <? offset then b ← byte_at r (offset - 1); Ret (b =? 46) else Ret false);
  if (before : bool) then Ret (None, r) else
  let tokenStr := ToUpper lit in
  let '(ch, r) := peek r in
  '(checkBtFuncToken, r) ←
    (if ch =? 40 then Ret (true, r)
     else if HasIgnoreSpaceMode mode then
       '(_, r) ← skipWhitespace r; let '(ch, r) := peek r in Ret (ch =? 40, r)
     else Ret (false, r));
  Ret (option_map TName
         (match (if (checkBtFuncToken : bool) then token_named tokenStr btFuncTokenMap else None) with
          | Some tok => Some tok
          | None =>
              match token_named tokenStr tokenMap with
              | Some tok => Some tok
              | None => if window then token_named tokenStr windowFuncTokenMap else None
              end
          end), r).

(** The value of a token: an integer, or the text of a literal whose value other
    packages compute. *)
Inductive item := INone | IInt64 (n : Z) | IUint64 (n : Z) | ILiteral (text : string).

Definition toInt (str : string) : token * item :=
  match ParseUint str with
  | Ret n => (intLit, if n <? max_i64 then IInt64 n else IUint64 n)
  | Err e => if bool_decide (e = ErrRange) then (decLit, ILiteral str) else (replacementChar, INone)
  | Panic _ => (replacementChar, INone)
  end.

Record lexed := mk_lexed { lx_tok : token; lx_offset : Z; lx_ident : string; lx_item : item }.

Definition scanner_reader (sc : Scanner) : reader := match sc with mk_Scanner r _ _ _ => r end.
Definition scanner_mode (sc : Scanner) : SQLMode := match sc with mk_Scanner _ _ _ m => m end.
Definition with_scanner_reader (sc : Scanner) (r : reader) : Scanner :=
  match sc with mk_Scanner _ e sp m => mk_Scanner r e sp m end.

(** The last step of [Lex]: the value of the token. *)
Definition lex_item (sc : Scanner) (tok : token) (offset : Z) (ident lit : string) : lexed * Scanner :=
  let result tok item :=
    (mk_lexed (if bool_decide (tok = replacementChar) && eof (scanner_reader sc) then TChar 0 else tok)
       offset ident item, sc) in
  if bool_decide (tok = intLit) then
    let '(tok, i) := toInt lit in (mk_lexed tok offset ident i, sc)
  else if bool_decide (tok = floatLit) || bool_decide (tok = decLit) || bool_decide (tok = hexLit) ||
          bool_decide (tok = bitLit) || bool_decide (tok = singleAtIdentifier) ||
          bool_decide (tok = doubleAtIdentifier) || bool_decide (tok = TName "cast") ||
          bool_decide (tok = TName "extract")
       then (mk_lexed tok offset ident (ILiteral lit), sc)
  else if bool_decide (tok = quotedIdentifier) then result identifier INone
  else result tok INone.

Definition Lex (fuel : nat) (window : bool) (sc : Scanner) : outcome (lexed * Scanner) :=
  '(tok, pos, lit, sc) ← scan fuel sc;
  let mode := scanner_mode sc in
  let '(tok, ident) := if bool_decide (tok = identifier) then handleIdent lit else (tok, lit) in
  '(tok, sc) ←
    (if bool_decide (tok = identifier) then
       '(k, r) ← isTokenIdentifier window mode (scanner_reader sc) lit (Offset pos);
       Ret (match k with Some t => t | None => tok end, with_scanner_reader sc r)
     else Ret (tok, sc));
  quoted ←
    (if HasANSIQuotesMode mode && bool_decide (tok = stringLit) then
       b ← byte_at (scanner_reader sc) (Offset pos); Ret (b =? 34)
     else Ret false);
  let tok := if (quoted : bool) then identifier else tok in
  if bool_decide (tok = TName "pipes") && negb (HasPipesAsConcatMode mode)
  then Ret (mk_lexed (TName "pipesAsOr") (Offset pos) ident INone, sc)
  else if bool_decide (tok = TName "not") && HasHighNotPrecedenceMode mode
  then Ret (mk_lexed (TName "not2") (Offset pos) ident INone, sc)
  else Ret (lex_item sc tok (Offset pos) ident lit).

(** * Integer literals *)

Definition digits (d : string) : Prop := Forall (fun b => 48 <= b <= 57) (sbytes d).

(** The number ends where [t] begins. *)
Definition stops (t : string) : Prop :=
  t = EmptyString \/ t <> EmptyString /\ isIdentChar (peek_rune t).1 = false /\ (peek_rune t).1 <> 46.

Lemma digits_val_digits acc s v : digits_val acc s = Some v -> digits s.
Proof.
  revert acc. induction s as [|c s IH]; intros acc H; [constructor|]. cbn [digits_val] in H.
  unfold digit_val in H. destruct (_ && _) eqn:E; [|done]. constructor; [lia|exact (IH _ H)].
Qed.

(** At the end of the digits no digit follows. *)
Lemma stops_rune t r p m ch :
  stops t -> at_text r p m t -> at_rune ch r ->
  isDigit ch = false /\ ch <> 46 /\ is_e ch = false /\ (eof r = false -> isIdentChar ch = false).
Proof.
  intros Ht Hat Hch. destruct t as [|c u].
  - assert (eof r = true) as He by (by apply (at_eof _ _ _ _ Hat)).
    unfold at_rune in Hch. rewrite peek_eof in Hch by done. injection Hch as <-. rewrite He. done.
  - destruct (at_rune_text _ _ _ _ _ _ Hat Hch) as (-> & _ & _).
    destruct Ht as [?|(_ & H1 & H2)]; [done|]. rewrite H1. unfold isIdentChar, isLetter, is_e, within in *.
    destruct (isDigit _); [by rewrite orb_true_r in H1|]. split_and!; [done|done|lia|done].
Qed.

(** A loop over digits stops inside them or at their end. *)
Lemma inc_loop_digits fn fuel d t r p m :
  (forall ch, fn ch = true -> isDigit ch = true) -> digits d -> stops t ->
  at_text r p m (String.append d t) -> remaining r < Z.of_nat fuel ->
  exists ch d1 d2 r', inc_loop fuel fn r = Ret (ch, r') /\ d = String.append d1 d2 /\
    at_text r' p (String.append m d1) (String.append d2 t) /\ at_rune ch r' /\
    (forall c u, d2 = String c u -> fn (byte_of c) = false).
Proof.
  intros Hfn. revert fuel r m. induction d as [|c d IH]; intros fuel r m Hd Ht Hat Hf.
  all: destruct fuel as [|fuel]; [pose proof (at_ok _ _ _ _ Hat); positions|]; cbn [inc_loop].
  - destruct (at_peek_any r _ _ _ Hat) as (ch & r1 & -> & H1 & H2).
    destruct (stops_rune _ _ _ _ _ Ht H1 H2) as (Hdig & _).
    replace (fn ch) with false by (destruct (fn ch) eqn:E; [apply Hfn in E; congruence|done]).
    exists ch, EmptyString, EmptyString, r1.
    split_and!; [done|done|by rewrite append_nil|done|intros ? ? [=]].
  - apply Forall_cons in Hd as [Hc Hd]. rewrite append_cons in Hat.
    destruct (at_peek r _ _ _ Hat _ _ eq_refl) as (r1 & -> & H1 & Hw & H2).
    rewrite peek_ascii_rune in * by lia. cbn [fst snd] in *. destruct (fn (byte_of c)) eqn:E; cbn [negb].
    + replace (byte_of c =? rune_error) with false by (unfold rune_error; lia). cbn [andb].
      destruct (at_inc r1 _ _ _ H1 1 Hw) as (r2 & -> & H3);
        [rewrite slen_cons; pose proof (slen_nonneg (String.append d t)); lia|].
      cbn [mbind outcome_bind]. change (Z.to_nat 1) with 1%nat in H3. rewrite stake_1 in H3. cbn [sdrop] in H3.
      destruct (IH fuel r2 _ Hd Ht H3) as (ch & d1 & d2 & r' & -> & -> & H4 & H5 & H6).
      { rewrite (at_remaining _ _ _ _ H3). rewrite (at_remaining _ _ _ _ Hat), slen_cons in Hf. lia. }
      exists ch, (String c d1), d2, r'. rewrite <- append_assoc in H4. split_and!; done.
    + exists (byte_of c), EmptyString, (String c d), r1.
      split_and!; [done|done|by rewrite append_nil|done|intros c' u [= <- <-]; done].
Qed.

Lemma digits_suffix d1 d2 : digits (String.append d1 d2) -> digits d2.
Proof.
  unfold digits. induction d1 as [|b d1 IH]; [done|]. rewrite append_cons. intros [_ Hd]%Forall_cons. auto.
Qed.

(** The end of a number, with its first digits read *)
Lemma number_end_digits d t r p m pos :
  digits d -> stops t -> at_text r p m (String.append d t) -> Offset pos = slen p ->
  exists r', number_end intLit pos r = Ret (intLit, pos, String.append m d, r') /\
    at_text r' p (String.append m d) t.
Proof.
  intros Hd Ht Hat Hpos. unfold number_end, scanDigits, incAsLongAs.
  destruct (inc_loop_digits isDigit (fuel_of r) d t r p m) as (ch & d1 & d2 & r1 & -> & -> & H1 & H2 & H3);
    [done..|apply fuel_enough; by eapply at_ok|].
  assert (d2 = EmptyString) as ->.
  { destruct d2 as [|c u]; [done|]. specialize (H3 c u eq_refl). exfalso.
    apply digits_suffix, Forall_cons in Hd as [Hu _]. unfold isDigit, within in H3. lia. }
  rewrite append_nil in *. cbn [String.append] in H1. cbn [mbind outcome_bind].
  destruct (at_peek_any r1 _ _ _ H1) as (ch2 & r2 & -> & H4 & H5).
  destruct (stops_rune _ _ _ _ _ Ht H4 H5) as (_ & Hdot & He & Hid).
  replace (ch2 =? 46) with false by lia. rewrite He. cbn [orb].
  replace (negb (eof r2) && isIdentChar ch2) with false by (destruct (eof r2); [done|by rewrite Hid]).
  exists r2. unfold token_data. rewrite (at_data _ _ _ _ H4 pos Hpos). done.
Qed.

(** After a leading zero: what follows is no other kind of number. *)
Lemma after_zero d t r p m ch :
  digits d -> stops t -> at_text r p m (String.append d t) -> at_rune ch r ->
  ch <> 120 /\ ch <> 88 /\ ch <> 98 /\ ch <> 46 /\ ch <> 66 /\
  (within 48 55 ch = true -> exists c d', d = String c d' /\ r_w r = 1).
Proof.
  intros Hd Ht Hat Hch. destruct d as [|c d].
  - destruct (stops_rune _ _ _ _ _ Ht Hat Hch) as (Hdig & Hdot & He & Hid).
    assert (ch = rune_error \/ isIdentChar ch = false) as Hor.
    { destruct (eof r) eqn:Ee; [left|right; by apply Hid].
      unfold at_rune in Hch. rewrite peek_eof in Hch by done. by injection Hch. }
    destruct Hor as [->|Hor]; [done|].
    unfold isIdentChar, isLetter, isDigit, within in *. split_and!; lia.
  - apply Forall_cons in Hd as [Hc _]. destruct (at_rune_text _ _ _ _ _ _ Hat Hch) as (-> & -> & _).
    rewrite peek_ascii_rune by lia. cbn [fst snd]. split_and!; try lia. eauto.
Qed.

Lemma startWithNumber_digits c d t r p :
  digits (String c d) -> stops t -> at_text r p EmptyString (String c (String.append d t)) ->
  off r = slen p ->
  exists r', startWithNumber r = Ret (intLit, r_p r, String c d, r') /\ at_text r' p (String c d) t.
Proof.
  intros [Hc Hd]%Forall_cons Ht Hat Ho. unfold startWithNumber, readByte.
  destruct (at_peek r _ _ _ Hat _ _ eq_refl) as (r1 & -> & H1 & Hw & _).
  rewrite peek_ascii_rune in * by lia. cbn [fst snd] in *.
  replace (byte_of c =? rune_error) with false by (unfold rune_error; lia). cbn [andb].
  destruct (at_inc r1 _ _ _ H1 1 Hw) as (r2 & -> & H2);
    [rewrite slen_cons; pose proof (slen_nonneg (String.append d t)); lia|].
  cbn [mbind outcome_bind]. change (Z.to_nat 1) with 1%nat in H2. rewrite stake_1, append_empty in H2. cbn [sdrop] in H2.
  assert (forall r3 m d', at_text r3 p m (String.append d' t) -> digits d' -> String.append m d' = String c d ->
            exists r', number_end intLit (r_p r) r3 = Ret (intLit, r_p r, String c d, r') /\ at_text r' p (String c d) t)
    as K.
  { intros r3 m d' H3 Hd' E. destruct (number_end_digits d' t r3 p m (r_p r) Hd' Ht H3 Ho) as (r' & -> & H4).
    rewrite E in *. eauto. }
  assert (String.append (String c EmptyString) d = String c d) as Hcd by done.
  destruct (byte_of c =? 48); [|exact (K _ _ _ H2 Hd Hcd)].
  destruct (at_peek_any r2 _ _ _ H2) as (ch & r3 & -> & H3 & H4).
  destruct (after_zero d t r3 _ _ ch Hd Ht H3 H4) as (N1 & N2 & N3 & N4 & N5 & Hoct).
  replace ((ch =? 120) || (ch =? 88)) with false by lia. replace (ch =? 98) with false by lia.
  replace (ch =? 46) with false by lia. replace (ch =? 66) with false by lia.
  destruct (within 48 55 ch); [|exact (K _ _ _ H3 Hd Hcd)].
  destruct (Hoct eq_refl) as (c1 & d' & -> & Hw3). apply Forall_cons in Hd as [_ Hd].
  destruct (at_inc r3 _ _ _ H3 1 Hw3) as (r4 & -> & H5);
    [rewrite append_cons, slen_cons; pose proof (slen_nonneg (String.append d' t)); lia|].
  cbn [mbind outcome_bind]. change (Z.to_nat 1) with 1%nat in H5.
  rewrite (append_cons c1 d' t), stake_1 in H5. cbn [sdrop] in H5. unfold scanOct, incAsLongAs.
  destruct (inc_loop_digits (within 48 55) (fuel_of r4) d' t r4 p (String.append (String c EmptyString) (String c1 EmptyString)))
    as (ch2 & d1 & d2 & r5 & -> & -> & H6 & _ & _);
    [intros x; unfold isDigit, within; lia|done|done|exact H5|apply fuel_enough; by eapply at_ok|].
  cbn [mbind outcome_bind]. eapply K; [exact H6|by eapply digits_suffix|]. rewrite <- !append_assoc. done.
Qed.

Lemma ParseUint_empty n : ParseUint EmptyString = Ret n -> False.
Proof. done. Qed.

Lemma first_fn_digit mode ch : 48 <= ch <= 57 -> first_fn mode ch = Some startWithNumber.
Proof.
  intros H. unfold first_fn, isLetter, isDigit, within.
  replace (ch =? 64) with false by lia. replace ((ch =? 88) || (ch =? 120)) with false by lia.
  replace ((ch =? 78) || (ch =? 110)) with false by lia. replace ((ch =? 66) || (ch =? 98)) with false by lia.
  replace (ch =? 46) with false by lia.
  replace ((97 <=? ch) && (ch <=? 122) || (65 <=? ch) && (ch <=? 90) || (ch =? 95) || (ch =? 36)) with false by lia.
  replace (ch =? 96) with false by lia. by replace ((48 <=? ch) && (ch <=? 57)) with true by lia.
Qed.

(** An unsigned 64-bit integer the restored statement writes is read back as one
    integer token of that value, wherever it stands before something that is no part of
    a number or a word: int64 below the largest int64, uint64 from there on. *)
Theorem integer_literal_roundtrip n mode window p t r errs fuel :
  is_u64 n -> stops t -> r_s r = String.append p (String.append (FormatUint n) t) -> off r = slen p ->
  exists r', Lex (S fuel) window (mk_Scanner r errs None mode) =
      Ret (mk_lexed intLit (off r) (FormatUint n) (if n <? max_i64 then IInt64 n else IUint64 n),
           mk_Scanner r' errs None mode) /\ rest r' = t.
Proof.
  intros Hn Ht Hs Ho. pose proof (digits_val_digits _ _ _ (digits_val_FormatUint n Hn)) as Hd.
  pose proof (ParseUint_FormatUint n Hn) as Hparse.
  destruct (FormatUint n) as [|c d]; [by apply ParseUint_empty in Hparse|].
  assert (48 <= byte_of c <= 57) as Hc by (by apply Forall_cons in Hd as [? _]).
  rewrite append_cons in Hs. pose proof (at_start _ _ _ Hs Ho) as Hat.
  unfold Lex. cbn [scan]. unfold scan_text.
  destruct (at_peek r _ _ _ Hat _ _ eq_refl) as (r1 & E & H1 & _ & _). rewrite E.
  assert (r_p r1 = r_p r /\ r_s r1 = r_s r) as [Hp1 Hs1].
  { destruct (peek_ok r (at_ok _ _ _ _ Hat)) as (x & r2 & E2 & ? & ? & _). rewrite E in E2. injection E2 as _ <-. done. }
  rewrite peek_ascii_rune in * by lia. cbn [fst].
  replace (IsSpace (byte_of c)) with false by (unfold IsSpace, within; lia). cbn [mbind outcome_bind].
  assert (eof r1 = false) as -> by (destruct (eof r1) eqn:He; [by apply (at_eof _ _ _ _ H1) in He|done]).
  replace (isIdentExtend (byte_of c)) with false by (unfold isIdentExtend, within; lia).
  replace (byte_of c =? 35) with false by lia. replace (byte_of c =? 45) with false by lia.
  replace (byte_of c =? 47) with false by lia.
  replace (first_fn mode (byte_of c)) with (Some startWithNumber) by (symmetry; by apply first_fn_digit).
  destruct (startWithNumber_digits c d t r1 p Hd Ht) as (r' & -> & H2); [exact H1|by rewrite Hp1|].
  cbn [with_reader mbind outcome_bind]. rewrite Hp1. exists r'. split; [|by eapply at_rest].
  unfold lex_item, toInt. rewrite Hparse. cbn [scanner_mode].
  destruct (HasANSIQuotesMode mode); reflexivity.
Qed.

Lemma integer_literal_roundtrip_witness :
  exists r', Lex 1 false (reset (NewScanner "") "1042)") =
    Ret (mk_lexed intLit 0 "1042" (IInt64 1042), mk_Scanner r' [] None 0) /\ rest r' = ")"%string.
Proof.
  apply (integer_literal_roundtrip 1042 0 false "" ")" (mk_reader "1042)" (mk_Pos 1 0 0) 0) [] 0);
    [unfold_int; lia|right; split; [discriminate|split; [reflexivity|discriminate]]|reflexivity|reflexivity].
Defined.

(** * Key words *)

(** Whether a key word is read as its token *)
Definition keyword_read (window : bool) (e : string * string) : bool :=
  match Lex 2 window (NewScanner e.1) with
  | Ret (l, _) => bool_decide (lx_tok l = TName e.2)
  | _ => false
  end.

(** Every key word of the token table, alone in a text, is read as its token, and
    those of the window functions when they are enabled. *)
Theorem keywords_read :
  Forall (fun e => keyword_read false e = true) tokenMap /\
  Forall (fun e => keyword_read true e = true) windowFuncTokenMap.
Proof.
  split; apply Forall_forall; intros e He%list_elem_of_In; revert e He; apply forallb_forall;
    vm_compute; reflexivity.
Qed.

(** A version comment without a blank after the version makes the scanner panic: the
    offset of a word in the SQL of the comment is computed from the first blank of the
    comment and lies behind the text, where the byte before the word is looked at. *)
Theorem version_comment_panics :
  exists l sc, Lex 20 false (NewScanner "/*!40101select a*/") = Ret (l, sc) /\
    lx_tok l = TName "selectKwd" /\ Lex 20 false sc = Panic "index out of range".
Proof. eexists _, _. split; [vm_compute; reflexivity|]. split; vm_compute; reflexivity. Qed.

