(* ===== verification/Ast.v ===== *)
(** The syntax trees the planner works on: parser/model (CIStr),
    parser/opcode/opcode.go, parser/tidb-types/parser_driver/value_expr.go,
    parser/ast/expressions.go and parser/ast/functions.go, with the nodes the
    decorators of proxy/plan put into a tree, and the text each node is restored
    to. util/types.go reads the value of a literal. *)

From Stdlib Require Import Ascii String.
From S2P Require Import Prelude GoStr Format NumKey Shard ShardMycat Models Rule PlanUtil.

#[local] Set Warnings "-register-all".

(** * Names, operators, literals *)

(** A name keeps its original and its lower-case spelling. *)
Record CIStr := mk_CIStr { O_ : string; L_ : string }.
Definition NewCIStr (s : string) : CIStr := mk_CIStr s (ToLower s).

Record ColumnName := mk_ColumnName { cn_Schema : CIStr; cn_Table : CIStr; cn_Name : CIStr }.

(** [OpOther] holds the name of the constant. *)
Inductive opcode :=
| EQ | NE | GT | GE | LT | LE | LogicAnd | LogicOr
| OpOther (name : string)
| OpUnknown (code : Z).

Definition opsLiteral (o : opcode) : option string :=
  match o with
  | LogicAnd => Some " AND " | LogicOr => Some " OR "
  | GE => Some ">=" | LE => Some "<=" | EQ => Some "=" | NE => Some "!=" | LT => Some "<"
  | GT => Some ">"
  | OpOther name =>
      list_to_map (M := gmap string string)
        [("LogicXor", " XOR "); ("LeftShift", "<<"); ("RightShift", ">>"); ("Plus", "+");
         ("Minus", "-"); ("And", "&"); ("Or", "|"); ("Mod", "%"); ("Xor", "^"); ("Div", "/");
         ("Mul", "*"); ("Not", "!"); ("BitNeg", "~"); ("IntDiv", "DIV"); ("NullEQ", "<=>");
         ("In", "IN"); ("Like", "LIKE"); ("Case", "CASE"); ("Regexp", "REGEXP");
         ("IsNull", "IS NULL"); ("IsTruth", "IS TRUE"); ("IsFalsity", "IS FALSE")] !! name
  | OpUnknown _ => None
  end%string.

Definition Op_Restore (rf : Z) (o : opcode) : restored :=
  match opsLiteral o with
  | Some v => WriteKeyWord rf v
  | None => failed (Errorf "Invalid opcode type %d during restoring AST to SQL text")
  end.

(** The datum of a ValueExpr. A [DBool] is an int64 with the boolean flag; a
    decimal is its text; a binary literal is written as hexadecimal digits when
    its type is unsigned; [DInterface] holds what [fmt.Sprint] prints of the
    value; [DOther known] is one of the other kinds, which the parser does not
    write as a literal. *)
Inductive datum :=
| DNull
| DInt64 (z : Z)
| DBool (z : Z)
| DUint64 (z : Z)
| DFloat32 (f : spec_float)
| DFloat64 (f : spec_float)
| DString (charset s : string)
| DBytes (s : string)
| DDecimal (s : string)
| DBinaryLiteral (unsigned : bool) (b : string)
| DInterface (sprint : string)
| DOther (known : bool).

Definition DefaultCharset : string := "utf8mb4".

(** [strconv.FormatFloat(f, 'e', -1, bitSize)] *)
Class FloatE := FormatFloatE : spec_float -> Z -> string.

Definition hex_digit (d : Z) : ascii := of_byte (if d <? 10 then 48 + d else 87 + d).

(** [%x] of a byte string *)
Fixpoint hex_string (s : string) : string :=
  match s with
  | EmptyString => EmptyString
  | String c r => String (hex_digit (byte_of c / 16)) (String (hex_digit (byte_of c mod 16)) (hex_string r))
  end.

(** [%08b] of a byte *)
Fixpoint bits_string (n : nat) (b : Z) (acc : string) : string :=
  match n with
  | O => acc
  | S n => bits_string n (b / 2) (String (digit (b mod 2)) acc)
  end.

Definition ToBitLiteralString (trimLeadingZero : bool) (b : string) : string :=
  match b with
  | EmptyString => "b''"
  | _ =>
      let ret := fold_right (fun d acc => bits_string 8 d acc) EmptyString (sbytes b) in
      let ret := if trimLeadingZero then
                   match trim_left (Ascii.eqb "0") ret with EmptyString => "0"%string | r => r end
                 else ret in
      String.append "b'" (String.append ret "'")
  end.

(** The kinds of a literal whose value the planner takes from their text. *)
Definition literal_Restore (d : datum) : restored :=
  match d with
  | DDecimal s => WritePlain s
  | DBinaryLiteral true b => WritePlain (String.append "x'" (String.append (hex_string b) "'"))
  | DBinaryLiteral false b => WritePlain (ToBitLiteralString true b)
  | DInterface _ | DOther true => failed (Errorf "Not implemented")
  | _ => failed (Errorf "can't format to string")
  end.

Definition ValueExpr_Restore {FE : FloatE} (rf : Z) (d : datum) : restored :=
  match d with
  | DNull => WriteKeyWord rf "NULL"
  | DInt64 z => WritePlain (FormatInt z)
  | DBool z => if 0 <? z then WriteKeyWord rf "TRUE" else WriteKeyWord rf "FALSE"
  | DUint64 z => WritePlain (FormatUint z)
  | DFloat32 f => WritePlain (FormatFloatE f 32)
  | DFloat64 f => WritePlain (FormatFloatE f 64)
  | DString charset s =>
      (if negb (String.eqb charset "") && negb (String.eqb charset DefaultCharset)
       then WritePlain "_" +> WriteKeyWord rf charset else written "")
      +> WriteString rf s
  | DBytes s => WriteString rf s
  | _ => literal_Restore d
  end.

(** util.GetValueExprResult *)
Definition GetValueExprResult (d : datum) : outcome gval :=
  match d with
  | DNull => Ret GNil
  | DInt64 z | DBool z => Ret (GInt KInt64 z)
  | DUint64 z => Ret (GInt KUint64 z)
  | DFloat32 f => Ret (GFloat32 f)
  | DFloat64 f => Ret (GFloat64 f)
  | DString _ s | DBytes s => Ret (GString s)
  | _ => s ← restored_sql (literal_Restore d); Ret (GString s)
  end.

(** [Datum.GetString]: the bytes of the datum, which strings, bytes and binary
    literals have. *)
Definition datum_GetString (d : datum) : string :=
  match d with DString _ s | DBytes s | DBinaryLiteral _ s => s | _ => EmptyString end.

(** * Expressions *)

Record IndexHint := mk_IndexHint { IndexNames : list CIStr; HintType : Z; HintScope : Z }.

Record TableName := mk_TableName {
  tn_Schema : CIStr; tn_Name : CIStr; IndexHints : list IndexHint; PartitionNames : list CIStr }.

Inductive CastFunctionType := CastFunction | CastConvertFunction | CastBinaryOperator.

(** The nodes the planner treats alike, with their own fields; their children are
    beside them in the tree, in the order the visitor meets them. [NCase] has the
    value, the conditions and results of its clauses and the else branch.
    [NNode] is any other node: a subquery, with the tables in it in the order the
    visitor meets them, or a node with children; its text is a function of the names
    of its tables and of its children's texts. *)
Inductive node_kind :=
| NUnary (op : opcode)
| NIsNull (not_ : bool)
| NIsTruth (not_ : bool) (True_ : Z)
| NLike (not_ : bool) (Escape : ascii)
| NRegexp (not_ : bool)
| NRow
| NCase (has_value has_else : bool)
| NCast (Tp : string) (FunctionType : CastFunctionType)
| NAggregate (F : string) (Distinct : bool)
| NDefault (Name : option ColumnName)
| NVariable (Name : string) (IsGlobal IsSystem ExplicitScope : bool)
| NValues
| NExists (not_ : bool)
| NCompareSubquery (op : opcode) (All : bool)
| NPosition (N : Z)
| NParamMarker
| NMaxValue
| NNode (tables : list TableName) (splice : list TableName -> list restored -> restored).

(** A decorated node carries what its decorator was created with; the route
    result is the statement's. *)
Inductive expr {T : Type} :=
| EColumn (c : ColumnName)
| EColumnD (c : ColumnName) (rule : Rule T) (isAlias : bool)
| EValue (d : datum)
| EFunc (FnName : CIStr) (args : list expr)
| EBinary (op : opcode) (l r : expr)
| EIn (e : expr) (vals : list expr) (not_ : bool) (sel : option expr)
| EInD (e : expr) (vals : list expr) (not_ : bool) (tableIndexes : list Z)
       (indexValueMap : list (Z * list expr))
| EBetween (e left right : expr) (not_ : bool)
| EBetweenD (e left right : expr) (not_ : bool) (tableIndexes : list Z)
| EParen (e : expr)
| EOther (n : node_kind) (children : list expr).
Arguments expr T : clear implicits.

(** [indexValueMap[idx]], the entries in order of insertion. *)
Fixpoint value_map_append {A} (idx : Z) (e : A) (m : list (Z * list A)) : list (Z * list A) :=
  match m with
  | [] => [(idx, [e])]
  | (k, es) :: m' =>
      if k =? idx then (k, es ++ [e]) :: m' else (k, es) :: value_map_append idx e m'
  end.

Definition value_map_get {A} (idx : Z) (m : list (Z * list A)) : list A :=
  match find (fun e => e.1 =? idx) m with Some (_, es) => es | None => [] end.

(** The keys of a value map are the indexes of its values, each once. *)
Lemma value_map_append_keys {A} idx (e : A) m :
  NoDup (map fst m) ->
  NoDup (map fst (value_map_append idx e m)) /\
  forall j, j ∈ map fst (value_map_append idx e m) <-> j = idx \/ j ∈ map fst m.
Proof.
  induction m as [|[q es] m IH]; cbn [value_map_append map fst].
  - intros _. split; [repeat constructor; set_solver|set_solver].
  - intros [Hq Hm]%NoDup_cons. destruct (q =? idx) eqn:E; cbn [map fst].
    + replace q with idx in * by lia. split; [by constructor|]. set_solver.
    + destruct (IH Hm) as [H1 H2]. split.
      * constructor; [|done]. rewrite H2. intros [?|?]; [lia|done].
      * intros j. rewrite !elem_of_cons, H2. tauto.
Qed.

Lemma value_map_get_append {A} idx j (e : A) m :
  value_map_get j (value_map_append idx e m) =
  if j =? idx then value_map_get idx m ++ [e] else value_map_get j m.
Proof.
  unfold value_map_get. induction m as [|[q es] m IH]; cbn [value_map_append find fst].
  - rewrite (Z.eqb_sym idx j). by destruct (j =? idx).
  - destruct (q =? idx) eqn:E; cbn [find fst].
    + replace q with idx in * by lia. rewrite (Z.eqb_sym idx j). by destruct (j =? idx).
    + destruct (q =? j) eqn:Eq; [|done]. by replace (j =? idx) with false by lia.
Qed.

(** * Restoring an expression *)

(** [fmt.Sprintf("%s_%04d", name, tableIndex)] *)
Definition sub_table_name (name : string) (tableIndex : Z) : string :=
  String.append name (String "_" (if tableIndex <? 0
    then String "-" (zpad 3 (- tableIndex)) else zpad 4 tableIndex)).

Section restore.
Context {T : Type} {FE : FloatE} (rf : Z) (rr : RouteResult).

Definition name_dot (name : string) : restored := WriteName rf name +> WritePlain ".".

Definition ColumnName_Restore (c : ColumnName) : restored :=
  (if negb (String.eqb (O_ (cn_Schema c)) "") then name_dot (O_ (cn_Schema c)) else written "")
  +> (if negb (String.eqb (O_ (cn_Table c)) "") then name_dot (O_ (cn_Table c)) else written "")
  +> WriteName rf (O_ (cn_Name c)).

Definition ColumnName_RestoreAsPlain (c : ColumnName) : restored :=
  (if negb (String.eqb (O_ (cn_Schema c)) "")
   then WritePlain (O_ (cn_Schema c)) +> WritePlain "." else written "")
  +> (if negb (String.eqb (O_ (cn_Table c)) "")
      then WritePlain (O_ (cn_Table c)) +> WritePlain "." else written "")
  +> WritePlain (O_ (cn_Name c)).

(** The database name a mycat or global rule has for a table index. *)
Definition mycat_db (rule : Rule T) (tableIndex : Z) : restored :=
  match GetDatabaseNameByTableIndex rule tableIndex with
  | Ret dbName => name_dot dbName
  | Err e => failed (Wrap "get mycat database name error: %v" e)
  | Panic p => crashed p
  end.

Definition ColumnNameDecorator_Restore (c : ColumnName) (rule : Rule T) (isAlias : bool) : restored :=
  match GetCurrentTableIndex rr with
  | Err e => failed e
  | Panic p => crashed p
  | Ret tableIndex =>
      let ruleType := GetType rule in
      (if negb (String.eqb (O_ (cn_Schema c)) "") then
         if String.eqb ruleType GlobalTableRuleType then mycat_db rule tableIndex
         else if IsMycatShardingRule ruleType then mycat_db rule tableIndex
         else name_dot (O_ (cn_Schema c))
       else written "")
      +> (if negb (String.eqb (O_ (cn_Table c)) "") then
            if String.eqb ruleType GlobalTableRuleType then name_dot (O_ (cn_Table c))
            else if IsMycatShardingRule ruleType then name_dot (O_ (cn_Table c))
            else if isAlias then name_dot (O_ (cn_Table c))
            else name_dot (sub_table_name (O_ (cn_Table c)) tableIndex)
          else written "")
      +> WriteName rf (O_ (cn_Name c))
  end.

(** The argument [i] of a call, its text, and [n.Args[i].(ValueExpr).GetString()]
    as a key word. *)
Definition arg_text (texts : list restored) (i : nat) : restored :=
  match texts !! i with Some r => r | None => crashed "index out of range" end.

Definition arg_value (args : list (expr T)) (i : nat) (f : datum -> restored) : restored :=
  match args !! i with
  | Some (EValue d) => f d
  | Some _ => crashed "interface conversion"
  | None => crashed "index out of range"
  end.

Definition arg_keyword (args : list (expr T)) (i : nat) : restored :=
  arg_value args i (fun d => WriteKeyWord rf (datum_GetString d)).

(** [n.Args[1].GetType().Charset] *)
Definition type_charset (e : expr T) : string :=
  match e with
  | EValue (DString charset _) => charset
  | EValue (DInterface _) | EValue (DOther _) => ""
  | EValue _ => "binary"
  | _ => ""
  end.

(** [fmt.Sprint(GetValue())], as far as the trim directions need it. *)
Definition trim_direction (d : datum) : restored :=
  let s := match d with
           | DInterface s | DString _ s => s
           | DInt64 z | DBool z => FormatInt z
           | DUint64 z => FormatUint z
           | _ => ""%string
           end in
  if String.eqb s "3" then WriteKeyWord rf "TRAILING "
  else if String.eqb s "2" then WriteKeyWord rf "LEADING "
  else if String.eqb s "0" || String.eqb s "1" then WriteKeyWord rf "BOTH "
  else written "".

Definition FuncCall_args (name : string) (args : list (expr T)) (texts : list restored) : restored :=
  let arg := arg_text texts in
  let named (l : list string) := bool_decide (name ∈ l) in
  if named ["convert"]%string then
    annotate "An error occurred while restore FuncCastExpr.Expr" (arg 0%nat)
    +> WriteKeyWord rf " USING "
    +> match args !! 1%nat with
       | Some e => WriteKeyWord rf (type_charset e)
       | None => crashed "index out of range"
       end
  else if named ["adddate"; "subdate"; "date_add"; "date_sub"]%string then
    annotate "An error occurred while restore FuncCallExpr" (arg 0%nat)
    +> WritePlain ", " +> WriteKeyWord rf "INTERVAL "
    +> annotate "An error occurred while restore FuncCallExpr" (arg 1%nat)
    +> WritePlain " " +> arg_keyword args 2
  else if named ["extract"]%string then
    arg_keyword args 0 +> WriteKeyWord rf " FROM "
    +> annotate "An error occurred while restore FuncCallExpr" (arg 1%nat)
  else if named ["get_format"]%string then
    arg_keyword args 0 +> WritePlain ", "
    +> annotate "An error occurred while restore FuncCallExpr" (arg 1%nat)
  else if named ["position"]%string then
    annotate "An error occurred while restore FuncCallExpr" (arg 0%nat)
    +> WriteKeyWord rf " IN "
    +> annotate "An error occurred while restore FuncCallExpr" (arg 1%nat)
  else if named ["trim"]%string then
    match length args with
    | 1%nat => annotate "An error occurred while restore FuncCallExpr" (arg 0%nat)
    | 2%nat => annotate "An error occurred while restore FuncCallExpr" (arg 1%nat)
               +> WriteKeyWord rf " FROM "
               +> annotate "An error occurred while restore FuncCallExpr" (arg 0%nat)
    | 3%nat => arg_value args 2 trim_direction
               +> arg_value args 1 (fun d => match d with
                    | DNull => written ""
                    | _ => annotate "An error occurred while restore FuncCallExpr" (arg 1%nat)
                           +> WritePlain " "
                    end)
               +> WriteKeyWord rf "FROM "
               +> annotate "An error occurred while restore FuncCallExpr" (arg 0%nat)
    | _ => written ""
    end
  else if named ["timestampdiff"; "timestampadd"]%string then
    arg_keyword args 0
    +> in_order (map (fun r => WritePlain ", "
                   +> annotate "An error occurred while restore FuncCallExpr" r) (drop 1 texts))
  else
    separated (WritePlain ", ")
      (map (annotate "An error occurred while restore FuncCallExpr.Args %d") texts).

Definition FuncCallExpr_Restore (FnName : CIStr) (args : list (expr T)) (texts : list restored) :
    restored :=
  WriteKeyWord rf (O_ FnName) +> WritePlain "(" +> FuncCall_args (L_ FnName) args texts
  +> WritePlain ")".

Definition FuncCastExpr_Restore (Tp : string) (ft : CastFunctionType) (e : restored) : restored :=
  let e := annotate "An error occurred while restore FuncCastExpr.Expr" e in
  match ft with
  | CastFunction => WriteKeyWord rf "CAST" +> WritePlain "(" +> e +> WriteKeyWord rf " AS "
                    +> WritePlain Tp +> WritePlain ")"
  | CastConvertFunction => WriteKeyWord rf "CONVERT" +> WritePlain "(" +> e +> WritePlain ", "
                           +> WritePlain Tp +> WritePlain ")"
  | CastBinaryOperator => WriteKeyWord rf "BINARY " +> e
  end.

(** A plain column inside COUNT is written without quotes. *)
Definition count_arg (e : expr T) (r : restored) : restored :=
  match e with EColumn c => ColumnName_RestoreAsPlain c | _ => r end.

Definition AggregateFuncExpr_Restore (F : string) (Distinct : bool) (args : list (expr T))
    (texts : list restored) : restored :=
  let arg := annotate "An error occurred while restore AggregateFuncExpr.Args[%d]" in
  WritePlain F +> WritePlain "("
  +> (if Distinct then WriteKeyWord rf "DISTINCT " else written "")
  +> (if String.eqb (ToLower F) "group_concat" then
        separated (WritePlain ", ") (map arg (removelast texts))
        +> WriteKeyWord rf " SEPARATOR "
        +> match last texts with
           | Some r => annotate "An error occurred while restore AggregateFuncExpr.Args SEPARATOR" r
           | None => crashed "index out of range"
           end
      else if String.eqb (ToLower F) "count" then
        separated (WritePlain ", ") (map arg (zip_with count_arg args texts))
      else separated (WritePlain ", ") (map arg texts))
  +> WritePlain ")".

Definition WhenClause_Restore (c r : restored) : restored :=
  WriteKeyWord rf "WHEN "
  +> annotate "An error occurred while restore WhenClauses.Expr" c
  +> WriteKeyWord rf " THEN "
  +> annotate "An error occurred while restore WhenClauses.Result" r.

(** The conditions and results of a CASE, two by two. *)
Fixpoint when_clauses (l : list restored) : restored :=
  match l with
  | c :: r :: l =>
      WritePlain " "
      +> annotate "An error occurred while restore CaseExpr.WhenClauses" (WhenClause_Restore c r)
      +> when_clauses l
  | _ => written ""
  end.

Definition CaseExpr_Restore (has_value has_else : bool) (texts : list restored) : restored :=
  let clauses := if has_value then drop 1 texts else texts in
  let clauses := if has_else then removelast clauses else clauses in
  WriteKeyWord rf "CASE"
  +> (if has_value then WritePlain " "
        +> annotate "An error occurred while restore CaseExpr.Value" (arg_text texts 0)
      else written "")
  +> when_clauses clauses
  +> (if has_else then WriteKeyWord rf " ELSE "
        +> annotate "An error occurred while restore CaseExpr.ElseClause"
             (default (written "") (last texts))
      else written "")
  +> WriteKeyWord rf " END".

Definition VariableExpr_Restore (Name : string) (IsGlobal IsSystem ExplicitScope : bool)
    (texts : list restored) : restored :=
  (if IsSystem then
     WritePlain "@@"
     +> (if ExplicitScope
         then WriteKeyWord rf (if IsGlobal then "GLOBAL" else "SESSION") +> WritePlain "."
         else written "")
   else WritePlain "@")
  +> WriteName rf Name
  +> match texts with
     | [] => written ""
     | r :: _ => WritePlain ":=" +> annotate "An error occurred while restore VariableExpr.Value" r
     end.

(** [string(n.Escape)]: the UTF-8 encoding of the rune of that byte. *)
Definition escape_string (c : ascii) : string :=
  let b := byte_of c in
  if b <? 128 then String c EmptyString
  else String (of_byte (192 + b / 64)) (String (of_byte (128 + b mod 64)) EmptyString).

Definition UnaryOperationExpr_Restore (op : opcode) (v : restored) : restored :=
  Op_Restore rf op +> v.

Definition IsNullExpr_Restore (not_ : bool) (e : restored) : restored :=
  e +> WriteKeyWord rf (if not_ then " IS NOT NULL" else " IS NULL").

Definition IsTruthExpr_Restore (not_ : bool) (True_ : Z) (e : restored) : restored :=
  e +> WriteKeyWord rf (if not_ then " IS NOT" else " IS")
  +> WriteKeyWord rf (if 0 <? True_ then " TRUE" else " FALSE").

Definition PatternLikeExpr_Restore (not_ : bool) (Escape : ascii) (e pat : restored) : restored :=
  annotate "An error occurred while restore PatternLikeExpr.Expr" e
  +> WriteKeyWord rf (if not_ then " NOT LIKE " else " LIKE ")
  +> annotate "An error occurred while restore PatternLikeExpr.Pattern" pat
  +> (if String.eqb (escape_string Escape) (String backslash EmptyString) then written ""
      else WriteKeyWord rf " ESCAPE " +> WriteString rf (escape_string Escape)).

Definition PatternRegexpExpr_Restore (not_ : bool) (e pat : restored) : restored :=
  annotate "An error occurred while restore PatternRegexpExpr.Expr" e
  +> WriteKeyWord rf (if not_ then " NOT REGEXP " else " REGEXP ")
  +> annotate "An error occurred while restore PatternRegexpExpr.Pattern" pat.

Definition RowExpr_Restore (values : list restored) : restored :=
  WriteKeyWord rf "ROW" +> WritePlain "("
  +> separated (WritePlain ",")
       (map (annotate "An error occurred when restore RowExpr.Values[%v]") values)
  +> WritePlain ")".

Definition DefaultExpr_Restore (Name : option ColumnName) : restored :=
  WriteKeyWord rf "DEFAULT"
  +> match Name with
     | Some c => WritePlain "(" +> ColumnName_Restore c +> WritePlain ")"
     | None => written ""
     end.

Definition ValuesExpr_Restore (c : restored) : restored :=
  WriteKeyWord rf "VALUES" +> WritePlain "("
  +> annotate "An error occurred while restore ValuesExpr.Column" c +> WritePlain ")".

Definition ExistsSubqueryExpr_Restore (not_ : bool) (sel : restored) : restored :=
  WriteKeyWord rf (if not_ then "NOT EXISTS " else "EXISTS ")
  +> annotate "An error occurred while restore ExistsSubqueryExpr.Sel" sel.

Definition CompareSubqueryExpr_Restore (op : opcode) (All : bool) (l r : restored) : restored :=
  annotate "An error occurred while restore CompareSubqueryExpr.L" l
  +> annotate "An error occurred while restore CompareSubqueryExpr.Op" (Op_Restore rf op)
  +> WriteKeyWord rf (if All then "ALL " else "ANY ")
  +> annotate "An error occurred while restore CompareSubqueryExpr.R" r.

Definition node_Restore (n : node_kind) (args : list (expr T)) (texts : list restored) : restored :=
  let arg := arg_text texts in
  match n with
  | NUnary op => UnaryOperationExpr_Restore op (arg 0%nat)
  | NIsNull nt => IsNullExpr_Restore nt (arg 0%nat)
  | NIsTruth nt t => IsTruthExpr_Restore nt t (arg 0%nat)
  | NLike nt esc => PatternLikeExpr_Restore nt esc (arg 0%nat) (arg 1%nat)
  | NRegexp nt => PatternRegexpExpr_Restore nt (arg 0%nat) (arg 1%nat)
  | NRow => RowExpr_Restore texts
  | NCase has_value has_else => CaseExpr_Restore has_value has_else texts
  | NCast Tp ft => FuncCastExpr_Restore Tp ft (arg 0%nat)
  | NAggregate F d => AggregateFuncExpr_Restore F d args texts
  | NDefault name => DefaultExpr_Restore name
  | NVariable name g s x => VariableExpr_Restore name g s x texts
  | NValues => ValuesExpr_Restore (arg 0%nat)
  | NExists nt => ExistsSubqueryExpr_Restore nt (arg 0%nat)
  | NCompareSubquery op all => CompareSubqueryExpr_Restore op all (arg 0%nat) (arg 1%nat)
  | NPosition n => WritePlain (FormatInt n)
  | NParamMarker => WritePlain "?"
  | NMaxValue => WriteKeyWord rf "MAXVALUE"
  | NNode tables splice => splice tables texts
  end.

Definition in_keyword (not_ : bool) : restored :=
  WriteKeyWord rf (if not_ then " NOT IN " else " IN ").
Definition between_keyword (not_ : bool) : restored :=
  WriteKeyWord rf (if not_ then " NOT BETWEEN " else " BETWEEN ").

Definition BinaryOperationExpr_Restore (op : opcode) (l r : restored) : restored :=
  annotate "An error occurred when restore BinaryOperationExpr.L" l
  +> annotate "An error occurred when restore BinaryOperationExpr.Op" (Op_Restore rf op)
  +> annotate "An error occurred when restore BinaryOperationExpr.R" r.

Definition PatternInExpr_Restore (not_ : bool) (sel : option restored) (e : restored)
    (vals : list restored) : restored :=
  annotate "An error occurred while restore PatternInExpr.Expr" e
  +> in_keyword not_
  +> match sel with
     | Some sel => annotate "An error occurred while restore PatternInExpr.Sel" sel
     | None =>
         WritePlain "("
         +> separated (WritePlain ",")
              (map (annotate "An error occurred while restore PatternInExpr.List[%d]") vals)
         +> WritePlain ")"
     end.

(** decorator_pattern_in_expr.go: the values of the current table *)
Definition PatternInExprDecorator_Restore (not_ : bool) (e : restored)
    (indexValueMap : list (Z * list restored)) : restored :=
  match GetCurrentTableIndex rr with
  | Err err => failed err
  | Panic p => crashed p
  | Ret tableIndex =>
      annotate "an error occurred while restore PatternInExpr.Expr: %v" e
      +> in_keyword not_ +> WritePlain "("
      +> separated (WritePlain ",")
           (map (annotate "an error occurred while restore PatternInExpr.List[%d], err: %v")
              (value_map_get tableIndex indexValueMap))
      +> WritePlain ")"
  end.

Definition BetweenExpr_Restore (not_ : bool) (e left right : restored) : restored :=
  annotate "An error occurred while restore BetweenExpr.Expr" e
  +> between_keyword not_
  +> annotate "An error occurred while restore BetweenExpr.Left" left
  +> WriteKeyWord rf " AND "
  +> annotate "An error occurred while restore BetweenExpr.Right " right.

(** decorator_between_expr.go *)
Definition BetweenExprDecorator_Restore (not_ : bool) (e left right : restored) : restored :=
  annotate "an error occurred while restore BetweenExpr.Expr: %v" e
  +> between_keyword not_
  +> annotate "an error occurred while restore BetweenExpr.Left: %v" left
  +> WriteKeyWord rf " AND "
  +> annotate "an error occurred while restore BetweenExpr.Right: %v" right.

Definition ParenthesesExpr_Restore (e : restored) : restored :=
  WritePlain "(" +> annotate "An error occurred when restore ParenthesesExpr.Expr" e
  +> WritePlain ")".

Fixpoint Restore (e : expr T) : restored :=
  let fix list_Restore (l : list (expr T)) : list restored :=
    match l with [] => [] | e :: l => Restore e :: list_Restore l end in
  let fix map_Restore (m : list (Z * list (expr T))) : list (Z * list restored) :=
    match m with [] => [] | (k, es) :: m => (k, list_Restore es) :: map_Restore m end in
  match e with
  | EColumn c => ColumnName_Restore c
  | EColumnD c rule isAlias =>
      annotate "restore ColumnNameExprDecorator error: %v" (ColumnNameDecorator_Restore c rule isAlias)
  | EValue d => ValueExpr_Restore rf d
  | EFunc FnName args => FuncCallExpr_Restore FnName args (list_Restore args)
  | EBinary op l r => BinaryOperationExpr_Restore op (Restore l) (Restore r)
  | EIn e vals nt sel =>
      PatternInExpr_Restore nt match sel with Some sel => Some (Restore sel) | None => None end
        (Restore e) (list_Restore vals)
  | EInD e vals nt _ m => PatternInExprDecorator_Restore nt (Restore e) (map_Restore m)
  | EBetween e a b nt => BetweenExpr_Restore nt (Restore e) (Restore a) (Restore b)
  | EBetweenD e a b nt _ => BetweenExprDecorator_Restore nt (Restore e) (Restore a) (Restore b)
  | EParen e => ParenthesesExpr_Restore (Restore e)
  | EOther n args => node_Restore n args (list_Restore args)
  end.

(** The value map of a decorator, restored before or after it is looked up. *)
Lemma value_map_get_map {A B} (f : A -> B) idx (m : list (Z * list A)) :
  value_map_get idx (map (fun e => (e.1, map f e.2)) m) = map f (value_map_get idx m).
Proof.
  unfold value_map_get. induction m as [|[k es] m IH]; [done|]. cbn.
  by destruct (k =? idx).
Qed.

End restore.

(** The restoring of the nodes that conditions are made of. *)
Ltac restoring :=
  unfold UnaryOperationExpr_Restore, BinaryOperationExpr_Restore, PatternInExpr_Restore,
    PatternInExprDecorator_Restore, BetweenExpr_Restore, BetweenExprDecorator_Restore,
    ParenthesesExpr_Restore in *.

(** * Induction over expressions *)

Definition pmap_forall {T} (P : expr T -> Prop) (m : list (Z * list (expr T))) : Prop :=
  Forall (fun e => Forall P e.2) m.

Section expr_induction.
Context {T : Type} (P : expr T -> Prop).
Hypothesis HColumn : forall c, P (EColumn c).
Hypothesis HColumnD : forall c r a, P (EColumnD c r a).
Hypothesis HValue : forall d, P (EValue d).
Hypothesis HFunc : forall n l, Forall P l -> P (EFunc n l).
Hypothesis HBinary : forall op l r, P l -> P r -> P (EBinary op l r).
Hypothesis HIn : forall e vs nt sel, P e -> Forall P vs -> from_option P True sel -> P (EIn e vs nt sel).
Hypothesis HInD : forall e vs nt ti m, P e -> Forall P vs -> pmap_forall P m -> P (EInD e vs nt ti m).
Hypothesis HBetween : forall e a b nt, P e -> P a -> P b -> P (EBetween e a b nt).
Hypothesis HBetweenD : forall e a b nt ti, P e -> P a -> P b -> P (EBetweenD e a b nt ti).
Hypothesis HParen : forall e, P e -> P (EParen e).
Hypothesis HOther : forall n l, Forall P l -> P (EOther n l).

Fixpoint expr_induction (e : expr T) : P e :=
  let fix all (l : list (expr T)) : Forall P l :=
    match l with
    | [] => Forall_nil_2 P
    | e :: l => Forall_cons_2 P e l (expr_induction e) (all l)
    end in
  match e with
  | EColumn c => HColumn c
  | EColumnD c r a => HColumnD c r a
  | EValue d => HValue d
  | EFunc n l => HFunc n l (all l)
  | EBinary op l r => HBinary op l r (expr_induction l) (expr_induction r)
  | EIn e vs nt sel =>
      HIn e vs nt sel (expr_induction e) (all vs)
        (match sel return from_option P True sel with Some q => expr_induction q | None => I end)
  | EInD e vs nt ti m =>
      HInD e vs nt ti m (expr_induction e) (all vs)
        ((fix maps (m : list (Z * list (expr T))) : pmap_forall P m :=
            match m with
            | [] => Forall_nil_2 _
            | p :: m => Forall_cons_2 _ p m
                (match p return Forall P p.2 with (_, l) => all l end) (maps m)
            end) m)
  | EBetween e a b nt => HBetween e a b nt (expr_induction e) (expr_induction a) (expr_induction b)
  | EBetweenD e a b nt ti =>
      HBetweenD e a b nt ti (expr_induction e) (expr_induction a) (expr_induction b)
  | EParen e => HParen e (expr_induction e)
  | EOther n l => HOther n l (all l)
  end.

End expr_induction.

(** * The text depends on the cursor only through the current table *)

Section restore_current.
Context {T : Type} {FE : FloatE} (rf : Z) (r1 r2 : RouteResult).

(** The two local loops of [Restore]. *)
Lemma list_Restore_map (rr : RouteResult) (l : list (expr T)) :
  (fix list_Restore (l : list (expr T)) : list restored :=
     match l with [] => [] | e :: l => Restore rf rr e :: list_Restore l end) l
  = map (Restore rf rr) l.
Proof. induction l as [|e l IH]; [done|]. cbn. by rewrite IH. Qed.

Lemma map_Restore_map (rr : RouteResult) (m : list (Z * list (expr T))) :
  (fix map_Restore (m : list (Z * list (expr T))) : list (Z * list restored) :=
     match m with
     | [] => []
     | (k, es) :: m =>
         (k, (fix list_Restore (l : list (expr T)) : list restored :=
                match l with [] => [] | e :: l => Restore rf rr e :: list_Restore l end) es)
         :: map_Restore m
     end) m
  = map (fun e => (e.1, map (Restore rf rr) e.2)) m.
Proof. induction m as [|[k es] m IH]; [done|]. cbn. by rewrite IH, list_Restore_map. Qed.

Lemma map_Forall_eq {A B} (f g : A -> B) l : Forall (fun a => f a = g a) l -> map f l = map g l.
Proof. induction 1 as [|a l Ha _ IH]; [done|]. cbn. by rewrite Ha, IH. Qed.

Lemma pmap_Forall_eq (f g : expr T -> restored) m :
  pmap_forall (fun e => f e = g e) m ->
  map (fun e : Z * list (expr T) => (e.1, map f e.2)) m = map (fun e => (e.1, map g e.2)) m.
Proof.
  intros H. apply map_Forall_eq. eapply Forall_impl; [exact H|]. cbn. intros [k es] Hes.
  f_equal. by apply map_Forall_eq.
Qed.

Hypothesis Hcur : GetCurrentTableIndex r1 = GetCurrentTableIndex r2.

Lemma Restore_current (e : expr T) : Restore rf r1 e = Restore rf r2 e.
Proof.
  induction e using expr_induction; cbn [Restore];
    rewrite ?list_Restore_map, ?map_Restore_map; try congruence.
  - unfold ColumnNameDecorator_Restore. by rewrite Hcur.
  - f_equal. by apply map_Forall_eq.
  - rewrite IHe, (map_Forall_eq _ _ _ H). destruct sel as [q|]; cbn in *; congruence.
  - unfold PatternInExprDecorator_Restore. rewrite Hcur, IHe, (pmap_Forall_eq _ _ _ H0). done.
  - f_equal. by apply map_Forall_eq.
Qed.

End restore_current.

(** * NOT *)

Definition not_ {T} (e : expr T) : expr T := EOther (NUnary (OpOther "Not")) [e].

(** [NOT e = f] and [(! e) = f] are different conditions and are written as the
    same text, without parentheses: a rewritten statement says the latter. *)
Theorem not_comparison_same_text {T} {FE : FloatE} rf rr (op : opcode) (e f : expr T) q :
  restored_sql (Restore rf rr (not_ (EBinary op e f))) = Ret q ->
  restored_sql (Restore rf rr (EBinary op (not_ e) f)) = Ret q /\
  not_ (EBinary op e f) <> EBinary op (not_ e) f.
Proof.
  intros H. split; [|done]. unfold not_ in *.
  cbn [Restore node_Restore arg_text lookup list_lookup] in *. restoring.
  apply restored_sql_Ret in H as [Hs <-]. apply restored_sql_Ret.
  apply then_Ret in Hs as [H1 Hs]. apply then_Ret in Hs as [H2%annotate_Ret Hs].
  apply then_Ret in Hs as [H3%annotate_Ret H4%annotate_Ret].
  rewrite !annotate_ok by (rewrite ?then_Ret; done). rewrite then_assoc. split; [|by rewrite <- !then_assoc].
  rewrite !then_Ret. done.
Qed.

#[local] Instance no_float : FloatE := fun _ _ => EmptyString.

Lemma not_comparison_same_text_witness :
  exists q, restored_sql (Restore EscapeRestoreFlags (NewRouteResult "" "" [0])
             (EBinary EQ (not_ (EColumn (T := Z) (mk_ColumnName (NewCIStr "") (NewCIStr "") (NewCIStr "id"))))
                (EValue (DInt64 1)))) = Ret q /\ q = "!`id`=1"%string.
Proof.
  eexists. split; [|reflexivity].
  apply (not_comparison_same_text EscapeRestoreFlags (NewRouteResult "" "" [0]) EQ
           (EColumn (T := Z) (mk_ColumnName (NewCIStr "") (NewCIStr "") (NewCIStr "id"))) (EValue (DInt64 1))).
  reflexivity.
Defined.
