(* ===== verification/Dml.v ===== *)
(** parser/ast/dml.go: the statements the planner rewrites, with the table names
    the planner decorates (proxy/plan/decorator_table_name.go), and the SQL text
    each statement is restored to. *)

From Stdlib Require Import Ascii String.
From S2P Require Import Prelude GoStr Format NumKey Shard ShardMycat Models Rule PlanUtil Ast.

#[local] Set Warnings "-register-all".

(** * Tables and clauses *)

(** A part of a statement the planner does not look into: the tables in it, in
    the order the visitor meets them, and its text when its tables are these. *)
Record opaque := mk_opaque { op_tables : list TableName; op_text : list TableName -> restored }.

Definition opaque_Restore (o : opaque) : restored := op_text o (op_tables o).

Record ByItem {T} := mk_ByItem { by_Expr : expr T; by_Desc : bool }.
Arguments ByItem T : clear implicits.
Arguments mk_ByItem {T}.

Record WildCardField := mk_WildCardField { wc_Table : CIStr; wc_Schema : CIStr }.

Record SelectField {T} := mk_SelectField {
  WildCard : option WildCardField; sf_Expr : option (expr T); AsName : CIStr }.
Arguments SelectField T : clear implicits.
Arguments mk_SelectField {T}.

Record Limit {T} := mk_Limit { lim_Count : expr T; lim_Offset : option (expr T) }.
Arguments Limit T : clear implicits.
Arguments mk_Limit {T}.

Record Assignment {T} := mk_Assignment { as_Column : ColumnName; as_Expr : expr T }.
Arguments Assignment T : clear implicits.
Arguments mk_Assignment {T}.

Inductive JoinType := CrossJoin | LeftJoin | RightJoin.
Inductive SelectLockType := SelectLockNone | SelectLockForUpdate | SelectLockInShareMode.

(** mysql.PriorityEnum; an integer that is none of its constants is [PriorityOther]. *)
Inductive PriorityEnum := NoPriority | LowPriority | HighPriority | DelayedPriority | PriorityOther.

(** * Sources of rows and SELECT

    A [TableSource] has a table, a decorated table or a subquery. The optimizer
    hints are kept as the text they restore to, the window specifications and a
    UNION with the tables in them. *)

Inductive resultset {T : Type} :=
| RTableName (t : TableName)
| RTableNameD (t : TableName) (rule : Rule T)
| RSelect (s : SelectStmt)
| RUnion (u : opaque)
| RTableSource (Source : resultset) (asName : CIStr)
| RJoin (j : join)
with join {T : Type} :=
| mk_join (Left Right : option resultset) (Tp : JoinType) (On : option (expr T))
    (Using : list ColumnName) (NaturalJoin StraightJoin : bool)
with SelectStmt {T : Type} :=
| mk_SelectStmt (Priority : PriorityEnum) (SQLCache StraightJoin Distinct : bool)
    (TableHints : list restored) (Fields : option (list (SelectField T))) (From : option join)
    (Where : option (expr T)) (GroupBy : option (list (ByItem T))) (Having : option (expr T))
    (WindowSpecs : option (list opaque)) (OrderBy : option (list (ByItem T)))
    (limit : option (Limit T)) (LockTp : SelectLockType).
Arguments resultset T : clear implicits.
Arguments join T : clear implicits.
Arguments SelectStmt T : clear implicits.

Record InsertStmt {T} := mk_InsertStmt {
  IsReplace : bool;
  ins_IgnoreErr : bool;
  ins_Table : join T;
  Columns : list ColumnName;
  Lists : list (list (expr T));
  Setlist : list (Assignment T);
  ins_Priority : PriorityEnum;
  OnDuplicate : list (Assignment T);
  ins_Select : option (resultset T);
  ListsAssist : option (list (Z * list (list (expr T)))) }.
Arguments InsertStmt T : clear implicits.
Arguments mk_InsertStmt {T}.

Record UpdateStmt {T} := mk_UpdateStmt {
  upd_TableRefs : option (join T);
  upd_List : list (Assignment T);
  upd_Where : option (expr T);
  upd_Order : option (list (ByItem T));
  upd_Limit : option (Limit T);
  upd_Priority : PriorityEnum;
  upd_IgnoreErr : bool;
  upd_TableHints : list restored }.
Arguments UpdateStmt T : clear implicits.
Arguments mk_UpdateStmt {T}.

(** [del_Tables] is the table list of a multi-table DELETE. *)
Record DeleteStmt {T} := mk_DeleteStmt {
  del_TableRefs : option (join T);
  del_Tables : option (list TableName);
  del_BeforeFrom : bool;
  del_Where : option (expr T);
  del_Order : option (list (ByItem T));
  del_Limit : option (Limit T);
  del_Priority : PriorityEnum;
  del_IgnoreErr : bool;
  del_Quick : bool;
  del_TableHints : list restored }.
Arguments DeleteStmt T : clear implicits.
Arguments mk_DeleteStmt {T}.

(** [CIStr.String] *)
Definition CIStr_String (c : CIStr) : string := O_ c.

(** * Restoring tables and clauses *)

Section restore.
Context {T : Type} {FE : FloatE} (rf : Z) (rr : RouteResult).

Definition kw := WriteKeyWord rf.
Definition plain := WritePlain.
Definition expr_Restore : expr T -> restored := Restore rf rr.

Definition Priority_Restore (p : PriorityEnum) : restored :=
  match p with
  | NoPriority => written ""
  | LowPriority => kw "LOW_PRIORITY"
  | HighPriority => kw "HIGH_PRIORITY"
  | DelayedPriority => kw "DELAYED"
  | PriorityOther => failed (Errorf "undefined PriorityEnum Type[%d]")
  end.

Definition priority_space (p : PriorityEnum) : restored :=
  Priority_Restore p +> match p with NoPriority => written "" | _ => plain " " end.

Definition hint_type (n : Z) : option string :=
  if n =? 1 then Some "USE INDEX"%string else if n =? 2 then Some "IGNORE INDEX"%string
  else if n =? 3 then Some "FORCE INDEX"%string else None.
Definition hint_scope (n : Z) : option string :=
  if n =? 1 then Some ""%string else if n =? 2 then Some " FOR JOIN"%string
  else if n =? 3 then Some " FOR ORDER BY"%string
  else if n =? 4 then Some " FOR GROUP BY"%string else None.

Definition IndexHint_Restore (h : IndexHint) : restored :=
  match hint_type (HintType h) with
  | None => failed (Errorf "IndexHintType has an error while matching")
  | Some t =>
      match hint_scope (HintScope h) with
      | None => failed (Errorf "IndexHintScope has an error while matching")
      | Some s =>
          kw t +> kw s +> plain " ("
          +> separated (plain ", ") (map (fun v => WriteName rf (O_ v)) (IndexNames h))
          +> plain ")"
      end
  end.

Definition index_hints (l : list IndexHint) : restored :=
  in_order (map (fun h => plain " "
    +> annotate "An error occurred while splicing IndexHints" (IndexHint_Restore h)) l).

Definition TableName_Restore (n : TableName) : restored :=
  (if negb (String.eqb (CIStr_String (tn_Schema n)) "")
   then name_dot rf (CIStr_String (tn_Schema n)) else written "")
  +> WriteName rf (CIStr_String (tn_Name n))
  +> (match PartitionNames n with
      | [] => written ""
      | ps => kw " PARTITION" +> plain "("
              +> separated (plain ", ") (map (fun v => WriteName rf (CIStr_String v)) ps)
              +> plain ")"
      end)
  +> index_hints (IndexHints n).

(** decorator_table_name.go *)
Definition TableNameDecorator_Restore (n : TableName) (rule : Rule T) : restored :=
  match GetCurrentTableIndex rr with
  | Err e => failed e
  | Panic p => crashed p
  | Ret tableIndex =>
      let ruleType := GetType rule in
      (if negb (String.eqb (CIStr_String (tn_Schema n)) "") then
         if String.eqb ruleType GlobalTableRuleType then mycat_db rf rule tableIndex
         else if IsMycatShardingRule ruleType then mycat_db rf rule tableIndex
         else name_dot rf (CIStr_String (tn_Schema n))
       else written "")
      +> (if String.eqb ruleType GlobalTableRuleType then WriteName rf (CIStr_String (tn_Name n))
          else if IsMycatShardingRule ruleType then WriteName rf (CIStr_String (tn_Name n))
          else WriteName rf (sub_table_name (CIStr_String (tn_Name n)) tableIndex))
      +> index_hints (IndexHints n)
  end.

Definition WildCardField_Restore (w : WildCardField) : restored :=
  (if negb (String.eqb (CIStr_String (wc_Schema w)) "")
   then name_dot rf (CIStr_String (wc_Schema w)) else written "")
  +> (if negb (String.eqb (CIStr_String (wc_Table w)) "")
      then name_dot rf (CIStr_String (wc_Table w)) else written "")
  +> plain "*".

(** [if asName := n.AsName.String(); asName != ""] *)
Definition as_name (n : CIStr) : restored :=
  if negb (String.eqb (CIStr_String n) "") then kw " AS " +> WriteName rf (CIStr_String n)
  else written "".

Definition SelectField_Restore (f : SelectField T) : restored :=
  match WildCard f with
  | Some w => annotate "An error occurred while restore SelectField.WildCard"
                (WildCardField_Restore w)
  | None => written ""
  end
  +> match sf_Expr f with
     | Some e => annotate "An error occurred while restore SelectField.Expr" (expr_Restore e)
     | None => written ""
     end
  +> as_name (AsName f).

Definition ByItem_Restore (i : ByItem T) : restored :=
  annotate "An error occurred while restore ByItem.Expr" (expr_Restore (by_Expr i))
  +> (if by_Desc i then kw " DESC" else written "").

Definition GroupBy_Restore (items : list (ByItem T)) : restored :=
  kw "GROUP BY " +> separated (plain ",")
    (map (fun i => annotate "An error occurred while restore GroupByClause.Items[%d]"
                     (ByItem_Restore i)) items).

Definition OrderBy_Restore (items : list (ByItem T)) : restored :=
  kw "ORDER BY " +> separated (plain ",")
    (map (fun i => annotate "An error occurred while restore OrderByClause.Items[%d]"
                     (ByItem_Restore i)) items).

Definition Having_Restore (e : expr T) : restored :=
  kw "HAVING " +> annotate "An error occurred while restore HavingClause.Expr" (expr_Restore e).

Definition Limit_Restore (l : Limit T) : restored :=
  kw "LIMIT "
  +> match lim_Offset l with
     | Some o => annotate "An error occurred while restore Limit.Offset" (expr_Restore o)
                 +> plain ","
     | None => written ""
     end
  +> annotate "An error occurred while restore Limit.Count" (expr_Restore (lim_Count l)).

Definition OnCondition_Restore (e : expr T) : restored :=
  kw "ON " +> annotate "An error occurred while restore OnCondition.Expr" (expr_Restore e).

(** [if x != nil { write " "; restore x }], the error kept or dropped by [f]. *)
Definition clause {A} (o : option A) (f : A -> restored) : restored :=
  match o with Some a => f a | None => written "" end.

Definition table_hints (keep : restored -> restored) (l : list restored) : restored :=
  match l with
  | [] => written ""
  | _ => plain "/*+ " +> in_order (map keep l) +> plain "*/ "
  end.

Definition LockTp_String (l : SelectLockType) : string :=
  match l with
  | SelectLockNone => "none"
  | SelectLockForUpdate => "for update"
  | SelectLockInShareMode => "in share mode"
  end.

(** [mysql.Priority2Str] of a priority above zero *)
Definition Priority2Str (p : PriorityEnum) : string :=
  match p with
  | NoPriority => "NO_PRIORITY" | LowPriority => "LOW_PRIORITY" | HighPriority => "HIGH_PRIORITY"
  | DelayedPriority => "DELAYED" | PriorityOther => ""
  end.

(** [if ctx.JoinLevel != 0 { write "("; defer write ")" }]: the parenthesis is
    closed also when the join fails. *)
Definition join_parens (level : Z) (body : restored) : restored :=
  if level =? 0 then body
  else let inner := plain "(" +> body in
       mk_restored (String.append (text inner) ")") (status inner).

(** ** Sources and SELECT

    [level] is the context's JoinLevel. A SELECT drops the errors of its clauses:
    it annotates them and goes on. *)
Fixpoint resultset_Restore (level : Z) (r : resultset T) {struct r} : restored :=
  match r with
  | RTableName t => TableName_Restore t
  | RTableNameD t rule => TableNameDecorator_Restore t rule
  | RSelect s => SelectStmt_Restore level s
  | RUnion u => opaque_Restore u
  | RTableSource src asName =>
      let body := annotate "An error occurred while restore TableSource.Source"
                    (resultset_Restore level src) in
      match src with
      | RSelect _ | RUnion _ => plain "(" +> body +> plain ")"
      | _ => body
      end
      +> as_name asName
  | RJoin j => join_Restore level j
  end
with join_Restore (level : Z) (j : join T) {struct j} : restored :=
  match j with
  | mk_join Left Right Tp On Using NaturalJoin StraightJoin =>
      join_parens level (
        match Left with
        | None => crashed "nil pointer dereference"
        | Some l => annotate "An error occurred while restore Join.Left"
                      (resultset_Restore (level + 1) l)
        end
        +> match Right with
           | None => written ""
           | Some r =>
               (if NaturalJoin then kw " NATURAL" else written "")
               +> match Tp with
                  | LeftJoin => kw " LEFT" | RightJoin => kw " RIGHT" | CrossJoin => written ""
                  end
               +> (if StraightJoin then kw " STRAIGHT_JOIN " else kw " JOIN ")
               +> annotate "An error occurred while restore Join.Right"
                    (resultset_Restore (level + 1) r)
               +> clause On (fun e => plain " "
                    +> annotate "An error occurred while restore Join.On" (OnCondition_Restore e))
               +> match Using with
                  | [] => written ""
                  | _ => kw " USING " +> plain "("
                         +> separated (plain ",")
                              (map (fun v => annotate "An error occurred while restore Join.Using"
                                               (ColumnName_Restore rf v)) Using)
                         +> plain ")"
                  end
           end)
  end
with SelectStmt_Restore (level : Z) (s : SelectStmt T) {struct s} : restored :=
  match s with
  | mk_SelectStmt Priority SQLCache StraightJoin Distinct TableHints Fields From Where GroupBy
      Having WindowSpecs OrderBy limit LockTp =>
      kw "SELECT "
      +> (match Priority with NoPriority => written "" | p => kw (Priority2Str p) +> plain " " end)
      +> (if SQLCache then written "" else kw "SQL_NO_CACHE ")
      +> table_hints dropped TableHints
      +> (if Distinct then kw "DISTINCT " else written "")
      +> (if StraightJoin then kw "STRAIGHT_JOIN " else written "")
      +> clause Fields (fun fs =>
           separated (plain ",") (map (fun f => dropped (SelectField_Restore f)) fs))
      +> match From with
         | Some j => kw " FROM "
             +> dropped (annotate "An error occurred while restore TableRefsClause.TableRefs"
                           (join_Restore level j))
         | None => written ""
         end
      +> (match From, Where with None, Some _ => kw " FROM DUAL" | _, _ => written "" end)
      +> clause Where (fun e => kw " WHERE " +> dropped (expr_Restore e))
      +> clause GroupBy (fun g => plain " " +> dropped (GroupBy_Restore g))
      +> clause Having (fun h => plain " " +> dropped (Having_Restore h))
      +> clause WindowSpecs (fun ws => kw " WINDOW " +> separated (plain ",") (map (fun w => dropped (opaque_Restore w)) ws))
      +> clause OrderBy (fun o => plain " " +> dropped (OrderBy_Restore o))
      +> clause limit (fun l => plain " " +> dropped (Limit_Restore l))
      +> match LockTp with
         | SelectLockInShareMode => kw " LOCK " +> kw (LockTp_String LockTp)
         | SelectLockForUpdate => plain " " +> kw (LockTp_String LockTp)
         | SelectLockNone => written ""
         end
  end.

Definition TableRefs_Restore (j : join T) : restored :=
  annotate "An error occurred while restore TableRefsClause.TableRefs" (join_Restore 0 j).

(** ** INSERT, UPDATE, DELETE *)

Definition Assignment_Restore (a : Assignment T) : restored :=
  annotate "An error occurred while restore Assignment.Column" (ColumnName_Restore rf (as_Column a))
  +> plain "="
  +> annotate "An error occurred while restore Assignment.Expr" (expr_Restore (as_Expr a)).

(** The rows of VALUES, each in parentheses. *)
Definition rows_Restore (fmt : string) (rows : list (list (expr T))) : restored :=
  separated (plain ",") (map (fun row =>
    plain "(" +> separated (plain ",") (map (fun v => annotate fmt (expr_Restore v)) row)
    +> plain ")") rows).

(** decorator_insert_values_expr.go *)
Definition InsertValuesExprDecorator_Restore (indexValueMap : list (Z * list (list (expr T)))) :
    restored :=
  match GetCurrentTableIndex rr with
  | Err e => failed e
  | Panic p => crashed p
  | Ret tableIndex =>
      kw " VALUES "
      +> rows_Restore "An error occurred while restore InsertStmt.Lists[%d][%d]"
           (value_map_get tableIndex indexValueMap)
  end.

Definition nonempty {A} (l : list A) (f : list A -> restored) : restored :=
  match l with [] => written "" | _ => f l end.

Definition InsertStmt_Restore (n : InsertStmt T) : restored :=
  kw (if IsReplace n then "REPLACE " else "INSERT ")
  +> priority_space (ins_Priority n)
  +> (if ins_IgnoreErr n then kw "IGNORE " else written "")
  +> kw "INTO "
  +> annotate "An error occurred while restore InsertStmt.Table" (TableRefs_Restore (ins_Table n))
  +> nonempty (Columns n) (fun cs =>
       plain " (" +> separated (plain ",")
         (map (fun c => annotate "An error occurred while restore InsertStmt.Columns[%d]"
                          (ColumnName_Restore rf c)) cs)
       +> plain ")")
  +> match ListsAssist n with
     | Some m => dropped (InsertValuesExprDecorator_Restore m)
     | None => nonempty (Lists n) (fun rows =>
                 kw " VALUES "
                 +> rows_Restore "An error occurred while restore InsertStmt.Lists[%d][%d]" rows)
     end
  +> clause (ins_Select n) (fun r => plain " " +> match r with
       | RSelect _ | RUnion _ => annotate "An error occurred while restore InsertStmt.Select"
                                   (resultset_Restore 0 r)
       | _ => failed (Errorf "Incorrect type for InsertStmt.Select: %T")
       end)
  +> nonempty (Setlist n) (fun l =>
       kw " SET " +> separated (plain ",")
         (map (fun a => annotate "An error occurred while restore InsertStmt.Setlist[%d]"
                          (Assignment_Restore a)) l))
  +> nonempty (OnDuplicate n) (fun l =>
       kw " ON DUPLICATE KEY UPDATE " +> separated (plain ",")
         (map (fun a => annotate "An error occurred while restore InsertStmt.OnDuplicate[%d]"
                          (Assignment_Restore a)) l)).

Definition UpdateStmt_Restore (n : UpdateStmt T) : restored :=
  kw "UPDATE "
  +> table_hints (annotate "An error occurred while restore UpdateStmt.TableHints[%d]")
       (upd_TableHints n)
  +> priority_space (upd_Priority n)
  +> (if upd_IgnoreErr n then kw "IGNORE " else written "")
  +> match upd_TableRefs n with
     | Some j => annotate "An error occur while restore UpdateStmt.TableRefs" (TableRefs_Restore j)
     | None => crashed "nil pointer dereference"
     end
  +> kw " SET "
  +> separated (plain ", ") (map (fun a =>
       annotate "An error occur while restore UpdateStmt.List[%d].Column"
         (ColumnName_Restore rf (as_Column a))
       +> plain "="
       +> annotate "An error occur while restore UpdateStmt.List[%d].Expr"
            (expr_Restore (as_Expr a))) (upd_List n))
  +> clause (upd_Where n) (fun e => kw " WHERE "
       +> annotate "An error occur while restore UpdateStmt.Where" (expr_Restore e))
  +> clause (upd_Order n) (fun o => plain " "
       +> annotate "An error occur while restore UpdateStmt.Order" (OrderBy_Restore o))
  +> clause (upd_Limit n) (fun l => plain " "
       +> annotate "An error occur while restore UpdateStmt.Limit" (Limit_Restore l)).

Definition DeleteTableList_Restore (l : list TableName) : restored :=
  separated (plain ",") (map (fun t =>
    annotate "An error occurred while restore DeleteTableList.Tables[%v]" (TableName_Restore t)) l).

Definition delete_refs (o : option (join T)) : restored :=
  match o with
  | Some j => annotate "An error occurred while restore DeleteStmt.TableRefs" (TableRefs_Restore j)
  | None => crashed "nil pointer dereference"
  end.

Definition DeleteStmt_Restore (n : DeleteStmt T) : restored :=
  kw "DELETE "
  +> table_hints (annotate "An error occurred while restore UpdateStmt.TableHints[%d]")
       (del_TableHints n)
  +> priority_space (del_Priority n)
  +> (if del_Quick n then kw "QUICK " else written "")
  +> (if del_IgnoreErr n then kw "IGNORE " else written "")
  +> match del_Tables n with
     | Some ts =>
         let ts := annotate "An error occurred while restore DeleteStmt.Tables" (DeleteTableList_Restore ts) in
         if del_BeforeFrom n then ts +> kw " FROM " +> delete_refs (del_TableRefs n)
         else kw "FROM " +> ts +> kw " USING " +> delete_refs (del_TableRefs n)
     | None => kw "FROM " +> delete_refs (del_TableRefs n)
     end
  +> clause (del_Where n) (fun e => kw " WHERE "
       +> annotate "An error occurred while restore DeleteStmt.Where" (expr_Restore e))
  +> clause (del_Order n) (fun o => plain " "
       +> annotate "An error occurred while restore DeleteStmt.Order" (OrderBy_Restore o))
  +> clause (del_Limit n) (fun l => plain " "
       +> annotate "An error occurred while restore DeleteStmt.Limit" (Limit_Restore l)).

End restore.

(** * The text depends on the cursor only through the current table *)

Section restore_current.
Context {T : Type} {FE : FloatE} (rf : Z) (r1 r2 : RouteResult).
Hypothesis Hcur : GetCurrentTableIndex r1 = GetCurrentTableIndex r2.

Lemma expr_current (e : expr T) : expr_Restore rf r1 e = expr_Restore rf r2 e.
Proof. by apply Restore_current. Qed.

(** Rewrites every clause of a statement from one cursor to the other. *)
Ltac clauses_current :=
  unfold SelectField_Restore, GroupBy_Restore, OrderBy_Restore, Having_Restore, Limit_Restore,
    OnCondition_Restore, ByItem_Restore, Assignment_Restore, rows_Restore, clause, nonempty;
  repeat lazymatch goal with
  | |- ?a = ?a => reflexivity
  | |- expr_Restore rf r1 ?e = _ => apply expr_current
  | |- (_ +> _) = (_ +> _) => apply f_equal2
  | |- separated _ _ = separated _ _ => apply f_equal
  | |- in_order _ = in_order _ => apply f_equal
  | |- annotate _ _ = annotate _ _ => apply f_equal
  | |- dropped _ = dropped _ => apply f_equal
  | |- map _ ?l = map _ ?l => apply map_ext; intros ?
  | |- (match ?x with _ => _ end) = (match ?x with _ => _ end) => case x; intros
  | |- resultset_Restore _ _ _ _ = _ => reflexivity
  | |- join_Restore _ _ _ _ = _ => reflexivity
  end.

Lemma TableNameDecorator_current t (rule : Rule T) :
  TableNameDecorator_Restore rf r1 t rule = TableNameDecorator_Restore rf r2 t rule.
Proof. unfold TableNameDecorator_Restore. by rewrite Hcur. Qed.

Lemma resultset_current level (r : resultset T) :
  resultset_Restore rf r1 level r = resultset_Restore rf r2 level r
with join_current level (j : join T) : join_Restore rf r1 level j = join_Restore rf r2 level j
with SelectStmt_current level (s : SelectStmt T) :
  SelectStmt_Restore rf r1 level s = SelectStmt_Restore rf r2 level s.
Proof.
  - destruct r as [t|t rule|s|u|src a|j]; cbn [resultset_Restore].
    + reflexivity.
    + apply TableNameDecorator_current.
    + apply SelectStmt_current.
    + reflexivity.
    + rewrite (resultset_current level src). reflexivity.
    + apply join_current.
  - destruct j as [Left Right Tp On Using nj sj]; cbn [join_Restore].
    f_equal.
    destruct Left as [l|]; [rewrite (resultset_current _ l)|]; f_equal;
      (destruct Right as [r|]; [rewrite (resultset_current _ r)|]); clauses_current.
  - destruct s as [pr sc st di th fs fr wh gb hv ws ob li lk]; cbn [SelectStmt_Restore].
    destruct fr as [j|]; [rewrite (join_current _ j)|]; clauses_current.
Qed.

Lemma InsertStmt_current (n : InsertStmt T) :
  InsertStmt_Restore rf r1 n = InsertStmt_Restore rf r2 n.
Proof.
  unfold InsertStmt_Restore, TableRefs_Restore, InsertValuesExprDecorator_Restore.
  rewrite (join_current _ (ins_Table n)), Hcur. clauses_current; by rewrite resultset_current.
Qed.

Lemma UpdateStmt_current (n : UpdateStmt T) :
  UpdateStmt_Restore rf r1 n = UpdateStmt_Restore rf r2 n.
Proof.
  unfold UpdateStmt_Restore, TableRefs_Restore.
  destruct (upd_TableRefs n) as [j|]; [rewrite (join_current _ j)|]; clauses_current.
Qed.

Lemma DeleteStmt_current (n : DeleteStmt T) :
  DeleteStmt_Restore rf r1 n = DeleteStmt_Restore rf r2 n.
Proof.
  unfold DeleteStmt_Restore, delete_refs, TableRefs_Restore.
  destruct (del_TableRefs n) as [j|]; [rewrite (join_current _ j)|]; clauses_current.
Qed.

End restore_current.
