(* ===== verification/PlanWhere.v ===== *)
(** proxy/plan/plan.go (StmtInfo), proxy/plan/plan_select.go (conditions),
    proxy/plan/decorator_between_expr.go, decorator_pattern_in_expr.go,
    decorator_column_name.go, util/types.go: the condition of a statement is
    walked, its columns are decorated with their rules, and the table indexes it
    can be restricted to are computed. *)

From Stdlib Require Import Ascii String.
From S2P Require Import Prelude GoStr Hack NumKey Shard ShardMycat Models Rule Router PlanUtil Format Ast.

Section plan.
Context {T} {TM : TreeMap T} {LZ : LocalZone}.

#[local] Abbreviation expr := (expr T).

(** * StmtInfo and TableAliasStmtInfo *)

Record StmtInfo := mk_StmtInfo {
  si_db : string;
  si_router : Router (T := T);
  tableRules : gmap string (Rule T);
  globalTableRules : gmap string (Rule T);
  si_result : RouteResult;
  tableAlias : gmap string string;
  hintPhyDB : string }.

Definition NewTableAliasStmtInfo (db : string) (r : Router) : StmtInfo :=
  mk_StmtInfo db r ∅ ∅ (NewRouteResult "" "" []) ∅ "".

Definition set_result (s : StmtInfo) (r : RouteResult) : StmtInfo :=
  mk_StmtInfo (si_db s) (si_router s) (tableRules s) (globalTableRules s) r (tableAlias s)
    (hintPhyDB s).
Definition set_hint (s : StmtInfo) (h : string) : StmtInfo :=
  mk_StmtInfo (si_db s) (si_router s) (tableRules s) (globalTableRules s) (si_result s)
    (tableAlias s) h.

Definition checkAndGetDB (s : StmtInfo) (db : string) : outcome string :=
  if negb (String.eqb db "") && negb (String.eqb db (si_db s)) then Err (Errorf "db not match")
  else Ret (si_db s).

Definition getShardRule (s : StmtInfo) (db table : string) : outcome (Rule T * StmtInfo) :=
  validDB ← checkAndGetDB s db;
  match GetShardRule (si_router s) validDB table with
  | None => Err (Errorf "rule not found")
  | Some rule =>
      Ret (rule,
        if String.eqb (GetType rule) GlobalTableRuleType
        then mk_StmtInfo (si_db s) (si_router s) (tableRules s)
               (<[table := rule]> (globalTableRules s)) (si_result s) (tableAlias s) (hintPhyDB s)
        else mk_StmtInfo (si_db s) (si_router s) (<[table := rule]> (tableRules s))
               (globalTableRules s) (si_result s) (tableAlias s) (hintPhyDB s))
  end.

(** The table a rule shards: the parent of a linked table. *)
Definition route_table (rule : Rule T) : string :=
  match rule with RLinked l => GetParentTable l | RBase b => br_table b end.

Definition checkStmtRouteResult (s : StmtInfo) (rule : Rule T) : outcome StmtInfo :=
  if String.eqb (GetType rule) GlobalTableRuleType then Ret s else
  let db := GetDB rule in
  let table := route_table rule in
  let res := si_result s in
  if String.eqb (rr_db res) "" && String.eqb (rr_table res) "" then
    Ret (set_result s (mk_RouteResult db table (currentIndex res) (GetSubTableIndexes rule)))
  else
    _ ← wrap "check db and table error: %v" (rr_Check res db table); Ret s.

Definition StmtInfo_RecordShardTable (s : StmtInfo) (db table : string) :
    outcome (Rule T * StmtInfo) :=
  '(rule, s1) ← wrap "get shard rule error, db: %s, table: %s, err: %v" (getShardRule s db table);
  s2 ← wrap "check route result error, db: %s, table: %s, err: %v" (checkStmtRouteResult s1 rule);
  Ret (rule, s2).

Definition setTableAlias (s : StmtInfo) (table alias : string) : outcome StmtInfo :=
  match tableAlias s !! alias with
  | None => Ret (mk_StmtInfo (si_db s) (si_router s) (tableRules s) (globalTableRules s)
                   (si_result s) (<[alias := table]> (tableAlias s)) (hintPhyDB s))
  | Some originTable =>
      if negb (String.eqb originTable table)
      then Err (Errorf "table alias is set but not match, table: %s, originTable: %s")
      else Ret s
  end.

Definition getAliasTable (s : StmtInfo) (alias : string) : option string := tableAlias s !! alias.

Definition RecordShardTable (s : StmtInfo) (db table alias : string) :
    outcome (Rule T * StmtInfo) :=
  '(rule, s1) ← wrap "record shard table error, db: %s, table: %s, alias: %s, err: %v"
                  (StmtInfo_RecordShardTable s db table);
  if negb (String.eqb alias "") then
    s2 ← wrap "set table alias error: %v" (setTableAlias s1 table alias); Ret (rule, s2)
  else Ret (rule, s1).

(** The only sharded table with this sharding column; the result does not depend
    on the order of the map. *)
Definition getSettedRuleByColumnName (s : StmtInfo) (column : string) : outcome (option (Rule T)) :=
  match filter (fun r => GetShardingColumn r = column) (map snd (map_to_list (tableRules s))) with
  | [] => Ret None
  | [r] => Ret (Some r)
  | _ => Err (Errorf "column %s is ambiguous for sharding")
  end.

Definition getSettedRuleFromTable (s : StmtInfo) (db table : string) : outcome (Rule T * bool) :=
  _ ← checkAndGetDB s db;
  match tableRules s !! table, globalTableRules s !! table with
  | Some rule, _ => Ret (rule, false)
  | None, Some rule => Ret (rule, false)
  | None, None =>
      match getAliasTable s table with
      | Some originTable =>
          match tableRules s !! originTable, globalTableRules s !! originTable with
          | Some rule, _ => Ret (rule, true)
          | None, Some rule => Ret (rule, true)
          | None, None => Err (Errorf "rule not found")
          end
      | None => Err (Errorf "rule not found")
      end
  end.

(** The rule, if the column needs decoration, and whether its table is an alias. *)
Definition GetSettedRuleFromColumnInfo (s : StmtInfo) (db table column : string) :
    outcome (option (Rule T * bool)) :=
  if String.eqb db "" && String.eqb table "" then
    r ← getSettedRuleByColumnName s column; Ret (option_map (fun rule => (rule, false)) r)
  else
    '(rule, isAlias) ← getSettedRuleFromTable s db table; Ret (Some (rule, isAlias)).

Definition NeedCreateColumnNameExprDecoratorInCondition (s : StmtInfo) (c : ColumnName) :
    outcome (option (Rule T * bool)) :=
  GetSettedRuleFromColumnInfo s (O_ (cn_Schema c)) (L_ (cn_Table c)) (L_ (cn_Name c)).

Definition NeedCreateColumnNameExprDecoratorInField (s : StmtInfo) (c : ColumnName) :
    outcome (option (Rule T * bool)) :=
  if String.eqb (O_ (cn_Schema c)) "" && String.eqb (L_ (cn_Table c)) "" then Ret None
  else NeedCreateColumnNameExprDecoratorInCondition s c.

(** ColumnNameRewriteVisitor.Leave: an error leaves through a panic. *)
Definition rewrite_column (s : StmtInfo) (c : ColumnName) : outcome expr :=
  match NeedCreateColumnNameExprDecoratorInField s c with
  | Ret (Some (rule, isAlias)) => Ret (EColumnD c rule isAlias)
  | Ret None => Ret (EColumn c)
  | Err _ | Panic _ => Panic "check NeedCreateColumnNameExprDecoratorInField in ColumnNameExpr error"
  end.

(** The visitor over all nodes; a decorator is not entered. *)
Fixpoint rewrite_columns (s : StmtInfo) (e : expr) : outcome expr :=
  let fix go (l : list expr) : outcome (list expr) :=
    match l with
    | [] => Ret []
    | e :: l => e' ← rewrite_columns s e; l' ← go l; Ret (e' :: l')
    end in
  match e with
  | EColumn c => rewrite_column s c
  | EFunc n args => args' ← go args; Ret (EFunc n args')
  | EBinary op l r => l' ← rewrite_columns s l; r' ← rewrite_columns s r; Ret (EBinary op l' r')
  | EIn e vs nt sel =>
      e' ← rewrite_columns s e; vs' ← go vs;
      sel' ← match sel with
             | Some q => q' ← rewrite_columns s q; Ret (Some q')
             | None => Ret None
             end;
      Ret (EIn e' vs' nt sel')
  | EBetween e a b nt =>
      e' ← rewrite_columns s e; a' ← rewrite_columns s a; b' ← rewrite_columns s b;
      Ret (EBetween e' a' b' nt)
  | EParen e => e' ← rewrite_columns s e; Ret (EParen e')
  | EOther n cs => cs' ← go cs; Ret (EOther n cs')
  | EColumnD _ _ _ | EValue _ | EInD _ _ _ _ _ | EBetweenD _ _ _ _ _ => Ret e
  end.

(** * Table indexes of a comparison *)

Definition adjustShardIndex (eqs : gval -> Z -> outcome bool) (value : gval) (idx : Z) : outcome Z :=
  b ← eqs value idx; Ret (if (b : bool) then i64 (idx - 1) else idx).

Definition inverseOperator (op : opcode) : opcode :=
  match op with GT => LT | GE => LE | LT => GT | LE => GE | _ => op end.

Definition range_indexes (op : opcode) (rule : Rule T) (eqs : gval -> Z -> outcome bool) (v : gval) :
    outcome (list Z) :=
  idx ← FindTableIndex rule v;
  match op with
  | LT => idx' ← adjustShardIndex eqs v idx;
          f ← GetFirstTableIndex rule; Ret (makeList f (i64 (idx' + 1)))
  | LE => f ← GetFirstTableIndex rule; Ret (makeList f (i64 (idx + 1)))
  | _ => l ← GetLastTableIndex rule; Ret (makeList idx (i64 (l + 1)))
  end.

(** The function [getFindTableIndexesFunc] returns for an operator. *)
Definition findTableIndexes (op : opcode) (rule : Rule T) (columnName : string) (v : gval) :
    outcome (list Z) :=
  if negb (String.eqb (GetShardingColumn rule) columnName) then Ret (GetSubTableIndexes rule) else
  match op with
  | EQ => idx ← FindTableIndex rule v; Ret [idx]
  | GT | GE | LT | LE =>
      match as_RangeShard (GetShard rule) with
      | Some eqs => range_indexes op rule eqs v
      | None => Ret (GetSubTableIndexes rule)
      end
  | _ => Ret (GetSubTableIndexes rule)
  end.

Definition handler_result : Type := bool * list Z * expr * StmtInfo.

(** The format of the error of a column on one side of an operator. *)
Definition side_error (side : string) : string :=
  String.append "check ColumnNameExpr error in BinaryOperationExpr." (String.append side ": %v").

(** A column compared with a value; [mk] puts the decorated column back on its side. *)
Definition compare_column_value (side : string) (s : StmtInfo) (op : opcode) (c : ColumnName)
    (d : datum) (mk : expr -> expr) (original : expr) : outcome handler_result :=
  need ← wrap (side_error side) (NeedCreateColumnNameExprDecoratorInCondition s c);
  match need with
  | None => Ret (false, [], original, s)
  | Some (rule, isAlias) =>
      let e := mk (EColumnD c rule isAlias) in
      if String.eqb (GetType rule) GlobalTableRuleType then Ret (false, [], e, s) else
      v ← wrap "get ValueExpr value error: %v" (GetValueExprResult d);
      idx ← wrap "find table index error: %v" (findTableIndexes op rule (L_ (cn_Name c)) v);
      Ret (true, idx, e, s)
  end.

(** A column decorated without a route. *)
Definition decorate_column (side : string) (s : StmtInfo) (c : ColumnName) : outcome expr :=
  need ← wrap (side_error side) (NeedCreateColumnNameExprDecoratorInCondition s c);
  Ret (match need with Some (rule, isAlias) => EColumnD c rule isAlias | None => EColumn c end).

Definition decorate_operand (side : string) (s : StmtInfo) (e : expr) : outcome expr :=
  match e with EColumn c => decorate_column side s c | _ => Ret e end.

(** The physical database DATABASE() is compared with; empty when it is not. *)
Definition getDatabaseFuncHint (FnName : CIStr) (v : expr) : outcome string :=
  if negb (String.eqb (L_ FnName) "database") then Ret EmptyString else
  match v with
  | EColumn c => Ret (O_ (cn_Name c))
  | EValue d => Ret (datum_GetString d)
  | _ => Err (Errorf "invalid value type of database function hint: %T")
  end.

(** The hint of a comparison, looked for on the left, or else on the right. *)
Definition compare_hint (op : opcode) (l r : expr) : outcome string :=
  match op with
  | EQ =>
      wrap "get database function hint error: %v"
        match l, r with
        | EFunc n _, _ => getDatabaseFuncHint n r
        | _, EFunc n _ => getDatabaseFuncHint n l
        | _, _ => Ret EmptyString
        end
  | _ => Ret EmptyString
  end.

Definition handleBinaryOperationExprMathCompare (s : StmtInfo) (op : opcode) (l r : expr) :
    outcome handler_result :=
  let e := EBinary op l r in
  hint ← compare_hint op l r;
  if negb (String.eqb hint "") then Ret (false, [], e, set_hint s hint) else
  match l, r with
  | EColumn lc, EColumn rc =>
      l' ← decorate_column "L" s lc; r' ← decorate_column "R" s rc;
      Ret (false, [], EBinary op l' r', s)
  | EColumn c, EValue d => compare_column_value "L" s op c d (fun l' => EBinary op l' r) e
  | EColumn c, _ => l' ← decorate_column "L" s c; Ret (false, [], EBinary op l' r, s)
  | EValue d, EColumn c =>
      compare_column_value "R" s (inverseOperator op) c d (fun r' => EBinary op l r') e
  | _, EColumn c => r' ← decorate_column "R" s c; Ret (false, [], EBinary op l r', s)
  | _, _ => Ret (false, [], e, s)
  end.

Definition handleBinaryOperationExprOther (s : StmtInfo) (op : opcode) (l r : expr) :
    outcome handler_result :=
  l' ← decorate_operand "L" s l; r' ← decorate_operand "R" s r; Ret (false, [], EBinary op l' r', s).

Definition mergeBinaryOperationRouteResult (op : opcode) (lHas : bool) (lResult : list Z)
    (rHas : bool) (rResult : list Z) : bool * list Z :=
  match op with
  | LogicAnd =>
      if negb lHas && negb rHas then (false, [])
      else if lHas && rHas then (true, interList lResult rResult)
      else if lHas then (true, lResult)
      else (true, rResult)
  | LogicOr => if lHas && rHas then (true, unionList lResult rResult) else (false, [])
  | _ => (false, [])
  end.

(** ** IN *)

Definition expr_is_value (e : expr) : bool := match e with EValue _ => true | _ => false end.

Definition getBroadcastValueMap (subTableIndexes : list Z) (nodes : list expr) :
    list (Z * list expr) :=
  map (fun idx => (idx, nodes)) subTableIndexes.

Fixpoint in_values (rule : Rule T) (values : list expr) (m : list (Z * list expr)) :
    outcome (list (Z * list expr)) :=
  match values with
  | [] => Ret m
  | EValue d :: vs =>
      v ← GetValueExprResult d;
      idx ← FindTableIndex rule v;
      in_values rule vs (value_map_append idx (EValue d) m)
  | _ :: _ => Panic "nil pointer dereference"
  end.

(** [sort.Ints] of distinct values. *)
Definition sort_ints (l : list Z) : list Z := merge_sort Z.le l.

Definition getPatternInRouteResult (column : string) (isNotIn : bool) (rule : Rule T)
    (values : list expr) : outcome (list Z * list (Z * list expr)) :=
  let subs := GetSubTableIndexes rule in
  if String.eqb (GetType rule) GlobalTableRuleType then Ret (subs, getBroadcastValueMap subs values)
  else if negb (forallb expr_is_value values)
  then Err (Wrap "check value error: %v" (Errorf "value is not ValueExpr, index: %d, type: %T"))
  else if isNotIn then Ret (subs, getBroadcastValueMap subs values)
  else if negb (String.eqb (GetShardingColumn rule) column)
  then Ret (subs, getBroadcastValueMap subs values)
  else m ← in_values rule values []; Ret (sort_ints (map fst m), m).

Definition handlePatternInExpr (s : StmtInfo) (e : expr) (vals : list expr) (not_ : bool) (sel : option expr) :
    outcome handler_result :=
  let original := EIn e vals not_ sel in
  if is_some sel then Err (Wrap "check PatternInExpr error: %v"
                     (Errorf "TableName does not support Sel in sharding")) else
  match e with
  | EColumn c =>
      need ← wrap "check PatternInExpr error: %v" (wrap "check ColumnName error: %v"
               (NeedCreateColumnNameExprDecoratorInCondition s c));
      match need with
      | None => Ret (false, [], original, s)
      | Some (rule, isAlias) =>
          '(idx, m) ← wrap "create PatternInExprDecorator error: %v"
                        (wrap "getPatternInRouteResult error: %v"
                           (getPatternInRouteResult (L_ (cn_Name c)) not_ rule vals));
          Ret (true, idx, EInD (EColumnD c rule isAlias) vals not_ idx m, s)
      end
  | _ => Ret (false, [], original, s)
  end.

(** ** BETWEEN *)

Definition between_value (side : string) (e : expr) : outcome gval :=
  match e with
  | EValue d => wrap (String.append "get value from n." (String.append side " error: %v"))
                  (GetValueExprResult d)
  | _ => Err (Errorf "n.Left is not a ValueExpr, type: %T")
  end.

Definition getShardBetweenExprRouteResult (rule : Rule T) (eqs : gval -> Z -> outcome bool)
    (left right : expr) (not_ : bool) : outcome (list Z) :=
  leftValue ← between_value "Left" left;
  rightValue ← between_value "Right" right;
  start ← wrap "FindTableIndex for n.Left error: %v" (FindTableIndex rule leftValue);
  last ← wrap "FindTableIndex for n.Right error: %v" (FindTableIndex rule rightValue);
  if (not_ : bool) then
    '(start, last) ←
      (if last <? start then st ← adjustShardIndex eqs rightValue last; Ret (st, start)
       else st ← adjustShardIndex eqs leftValue start; Ret (st, last));
    f ← GetFirstTableIndex rule;
    l ← GetLastTableIndex rule;
    Ret (unionList (makeList f (i64 (start + 1))) (makeList last (i64 (l + 1))))
  else
    let '(start, last) := if last <? start then (last, start) else (start, last) in
    Ret (makeList start (i64 (last + 1))).

Definition getBetweenExprRouteResult (rule : Rule T) (column : string) (left right : expr)
    (not_ : bool) : outcome (list Z) :=
  if String.eqb (GetType rule) GlobalTableRuleType then Ret (GetSubTableIndexes rule)
  else if negb (String.eqb (GetShardingColumn rule) column) then Ret (GetSubTableIndexes rule)
  else match as_RangeShard (GetShard rule) with
       | Some eqs => getShardBetweenExprRouteResult rule eqs left right not_
       | None => Ret (GetSubTableIndexes rule)
       end.

Definition handleBetweenExpr (s : StmtInfo) (e left right : expr) (not_ : bool) :
    outcome handler_result :=
  match e with
  | EColumn c =>
      need ← wrap "check BetweenExpr error: %v" (wrap "check ColumnName error: %v"
               (NeedCreateColumnNameExprDecoratorInCondition s c));
      match need with
      | None => Ret (false, [], EBetween e left right not_, s)
      | Some (rule, isAlias) =>
          idx ← wrap "create CreateBetweenExprDecorator error: %v"
                  (wrap "getBetweenExprRouteResult error: %v"
                     (getBetweenExprRouteResult rule (L_ (cn_Name c)) left right not_));
          Ret (true, idx, EBetweenD (EColumnD c rule isAlias) left right not_ idx, s)
      end
  | _ => Ret (false, [], EBetween e left right not_, s)
  end.

(** ** Conditions *)

Fixpoint handleComparisonExpr (s : StmtInfo) (comp : expr) : outcome handler_result :=
  match comp with
  | EBinary op l r =>
      match op with
      | OpUnknown _ => Err (Errorf "unknown BinaryOperationExpr.Op: %v")
      | LogicAnd | LogicOr =>
          '(lHas, lResult, l', s1) ← wrap "handle BinaryOperationExpr.L error: %v"
                                       (handleComparisonExpr s l);
          '(rHas, rResult, r', s2) ← wrap "handle BinaryOperationExpr.R error: %v"
                                       (handleComparisonExpr s1 r);
          let '(has, result) := mergeBinaryOperationRouteResult op lHas lResult rHas rResult in
          Ret (has, result, EBinary op l' r', s2)
      | EQ | NE | GT | GE | LT | LE => handleBinaryOperationExprMathCompare s op l r
      | OpOther _ => handleBinaryOperationExprOther s op l r
      end
  | EIn e vals nt sel => handlePatternInExpr s e vals nt sel
  | EBetween e a b nt => handleBetweenExpr s e a b nt
  | EParen e =>
      '(has, result, e', s1) ← handleComparisonExpr s e; Ret (has, result, EParen e', s1)
  | EColumn _ => _ ← rewrite_columns s comp; Ret (false, indexes (si_result s), comp, s)
  | _ => e' ← rewrite_columns s comp; Ret (false, indexes (si_result s), e', s)
  end.

(** handleWhere, with the statement's condition as an option. *)
Definition handleWhere (s : StmtInfo) (where_ : option expr) : outcome (option expr * StmtInfo) :=
  match where_ with
  | None => Ret (None, s)
  | Some w =>
      '(has, result, w', s1) ← wrap "rewrite Where error: %v" (handleComparisonExpr s w);
      Ret (Some w', if (has : bool) then set_result s1 (rr_Inter (si_result s1) result) else s1)
  end.

End plan.
Arguments StmtInfo T : clear implicits.

(** * Soundness of the routing

    A row satisfies a condition; it is stored in the table its sharding column
    was sent to. The planner may only drop tables that hold no such row. What it
    needs of a rule is the interface [RoutesOrdered]: [num] is the place of a
    value in the order in which MySQL compares the column. *)

Section soundness.
Context {T} {TM : TreeMap T} {LZ : LocalZone}.

Class RoutesOrdered (rule : Rule T) (num : gval -> option Z) : Prop := {
  ro_int v x i : num v = Some x -> FindTableIndex rule v = Ret i -> min_i64 < i < max_i64;
  ro_same v w x i j :
    num v = Some x -> num w = Some x ->
    FindTableIndex rule v = Ret i -> FindTableIndex rule w = Ret j -> i = j;
  ro_mono eqs v w x y i j :
    as_RangeShard (GetShard rule) = Some eqs -> num v = Some x -> num w = Some y -> x <= y ->
    FindTableIndex rule v = Ret i -> FindTableIndex rule w = Ret j -> i <= j;
  ro_start eqs v w x y i j :
    as_RangeShard (GetShard rule) = Some eqs -> num v = Some x -> num w = Some y -> y < x ->
    FindTableIndex rule v = Ret i -> FindTableIndex rule w = Ret j ->
    eqs v i = Ret true -> j < i }.

Section values.
Context (num : gval -> option Z) (row : string -> gval) (truth : expr T -> bool).

Definition datum_num (d : datum) : option Z :=
  match GetValueExprResult d with Ret v => num v | _ => None end.
Definition expr_num (e : expr T) : option Z :=
  match e with EValue d => datum_num d | _ => None end.
Definition column_num (c : ColumnName) : option Z := num (row (L_ (cn_Name c))).

Definition compare (op : opcode) : option (Z -> Z -> bool) :=
  match op with
  | EQ => Some Z.eqb
  | NE => Some (fun a b => negb (a =? b))
  | GT => Some (fun a b => b <? a)
  | GE => Some (fun a b => b <=? a)
  | LT => Some Z.ltb
  | LE => Some Z.leb
  | _ => None
  end.

(** Whether the row satisfies a condition: comparisons of a column with values
    are decided by the order, everything the planner does not look into by
    [truth]. *)
Fixpoint eval (e : expr T) : bool :=
  match e with
  | EParen e => eval e
  | EBinary LogicAnd l r => eval l && eval r
  | EBinary LogicOr l r => eval l || eval r
  | EBinary op (EColumn c) (EValue d) =>
      match compare op, column_num c, datum_num d with
      | Some cmp, Some a, Some b => cmp a b
      | _, _, _ => truth e
      end
  | EBinary op (EValue d) (EColumn c) =>
      match compare op, column_num c, datum_num d with
      | Some cmp, Some a, Some b => cmp b a
      | _, _, _ => truth e
      end
  | EIn (EColumn c) vals nt _ =>
      match column_num c, mapM expr_num vals with
      | Some a, Some bs => xorb nt (existsb (Z.eqb a) bs)
      | _, _ => truth e
      end
  | EBetween (EColumn c) (EValue x) (EValue y) nt =>
      match column_num c, datum_num x, datum_num y with
      | Some a, Some lo, Some hi => xorb nt ((lo <=? a) && (a <=? hi))
      | _, _, _ => truth e
      end
  | _ => truth e
  end.


(** The values the sharding column [col] is compared with have a place in the
    order, and the bounds of a NOT BETWEEN on it are in order. *)
Fixpoint lits_ok (col : string) (e : expr T) : bool :=
  match e with
  | EParen e => lits_ok col e
  | EBinary LogicAnd l r | EBinary LogicOr l r => lits_ok col l && lits_ok col r
  | EBinary _ (EColumn c) (EValue d) | EBinary _ (EValue d) (EColumn c) =>
      if String.eqb col (L_ (cn_Name c)) then is_some (datum_num d) else true
  | EIn (EColumn c) vals _ _ =>
      if String.eqb col (L_ (cn_Name c)) then is_some (mapM expr_num vals) else true
  | EBetween (EColumn c) a b nt =>
      if String.eqb col (L_ (cn_Name c)) then
        match expr_num a, expr_num b with
        | Some x, Some y => negb nt || (x <=? y)
        | _, _ => false
        end
      else true
  | _ => true
  end.

Context (rule : Rule T) `{RO : !RoutesOrdered rule num}.

(** The row is stored in table [i] of the rule. *)
Record stored (k i : Z) : Prop := {
  st_num : num (row (GetShardingColumn rule)) = Some k;
  st_find : FindTableIndex rule (row (GetShardingColumn rule)) = Ret i;
  st_in : i ∈ GetSubTableIndexes rule;
  st_ascending : ascending (GetSubTableIndexes rule);
  st_int : Forall (fun j => min_i64 < j < max_i64) (GetSubTableIndexes rule) }.

(** The only rule of the statement. *)
Definition resolves (s : StmtInfo T) : Prop :=
  (forall t r, tableRules s !! t = Some r -> r = rule) /\
  (forall t r, globalTableRules s !! t = Some r -> r = rule).

Context (k i : Z) (Hst : stored k i) (Hty : GetType rule <> GlobalTableRuleType).

Lemma first_last f l :
  GetFirstTableIndex rule = Ret f -> GetLastTableIndex rule = Ret l -> f <= i <= l.
Proof.
  destruct Hst as [_ _ Hin Hasc _]. unfold GetFirstTableIndex, GetLastTableIndex.
  intros [_ Hf]%index_Ret [_ Hl]%index_Ret. split.
  - destruct (GetSubTableIndexes rule) as [|x xs]; [done|]. injection Hf as <-.
    apply elem_of_cons in Hin as [->|Hin]; [lia|]. pose proof (ascending_lt _ _ _ Hasc Hin). lia.
  - replace (Z.to_nat (zlen (GetSubTableIndexes rule) - 1))
      with (pred (length (GetSubTableIndexes rule))) in Hl by (unfold zlen; lia).
    rewrite <- last_lookup in Hl. apply last_Some in Hl as [l' E]. rewrite E in Hin, Hasc.
    apply ascending_app in Hasc as (_ & _ & Hlt).
    apply elem_of_app in Hin as [Hin|Hin]; [|set_solver].
    specialize (Hlt i l Hin). set_solver by lia.
Qed.

Lemma first_exists : exists f, GetFirstTableIndex rule = Ret f /\ min_i64 < f < max_i64.
Proof.
  destruct Hst as [_ _ Hin _ Hint]. unfold GetFirstTableIndex.
  destruct (GetSubTableIndexes rule) as [|x xs]; [by apply elem_of_nil in Hin|].
  exists x. split; [done|]. by apply Forall_cons in Hint as [? _].
Qed.

Lemma last_exists : exists l, GetLastTableIndex rule = Ret l /\ min_i64 < l < max_i64.
Proof.
  destruct Hst as [_ _ Hin _ Hint]. unfold GetLastTableIndex.
  destruct (index_in_range (GetSubTableIndexes rule) (zlen (GetSubTableIndexes rule) - 1))
    as (l & -> & Hl).
  - destruct (GetSubTableIndexes rule); [by apply elem_of_nil in Hin|].
    rewrite zlen_cons. pose proof (zlen_nonneg l). lia.
  - exists l. split; [done|]. rewrite Forall_forall in Hint. apply Hint.
    by eapply list_elem_of_lookup_2.
Qed.

Lemma makeList_elem a b v : v ∈ makeList a b <-> a <= v < b.
Proof.
  unfold makeList. destruct (b <=? a) eqn:E; [rewrite elem_of_nil; lia|].
  rewrite elem_of_seqZ. lia.
Qed.

Lemma makeList_ascending a b : ascending (makeList a b).
Proof. unfold makeList. destruct (b <=? a); auto using ascending_nil, ascending_seqZ. Qed.

(** The range operators keep every table that can hold a matching row. *)
Lemma range_indexes_sound op eqs v x cmp idxs :
  as_RangeShard (GetShard rule) = Some eqs -> num v = Some x ->
  op = GT \/ op = GE \/ op = LT \/ op = LE ->
  compare op = Some cmp -> cmp k x = true ->
  range_indexes op rule eqs v = Ret idxs -> i ∈ idxs.
Proof.
  intros He Hv Hop Hcmp Hc Hr. destruct Hst as [Hk Hf Hin Hasc Hint].
  unfold range_indexes in Hr. apply bind_Ret in Hr as (j & Hj & Hr).
  pose proof (ro_int v x j Hv Hj) as Hjb. pose proof (ro_int _ _ _ Hk Hf) as Hib.
  destruct first_exists as (f & Hff & Hfb), last_exists as (l & Hl & Hlb).
  pose proof (first_last f l Hff Hl) as Hfl.
  pose proof (fun H => ro_mono eqs _ v k x i j He Hk Hv H Hf Hj) as Hm1.
  pose proof (fun H => ro_mono eqs v _ x k j i He Hv Hk H Hj Hf) as Hm2.
  destruct Hop as [->|[->|[->| ->]]]; injection Hcmp as <-;
    rewrite ?Hff, ?Hl in Hr; cbn [mbind outcome_bind] in Hr.
  - injection Hr as <-. rewrite makeList_elem, i64_id by (unfold_int; lia). lia.
  - injection Hr as <-. rewrite makeList_elem, i64_id by (unfold_int; lia). lia.
  - unfold adjustShardIndex in Hr. apply bind_Ret in Hr as (j' & Hj' & [= <-]).
    apply bind_Ret in Hj' as (b & Hb & [= <-]).
    rewrite makeList_elem. destruct b.
    + pose proof (ro_start eqs v _ x k j i He Hv Hk ltac:(lia) Hj Hf Hb).
      rewrite !i64_id by (rewrite ?i64_id; unfold_int; lia). lia.
    + rewrite i64_id by (unfold_int; lia). lia.
  - injection Hr as <-. rewrite makeList_elem, i64_id by (unfold_int; lia). lia.
Qed.

Lemma range_indexes_ascending op eqs v idxs :
  range_indexes op rule eqs v = Ret idxs -> ascending idxs.
Proof.
  unfold range_indexes. intros Hr. apply bind_Ret in Hr as (j & _ & Hr).
  destruct op; invert_ret; apply makeList_ascending.
Qed.

(** The value of a column the condition names is irrelevant unless it is the
    sharding column. *)
Lemma findTableIndexes_sound op col v x cmp idxs :
  (col = GetShardingColumn rule -> num v = Some x /\ compare op = Some cmp /\ cmp k x = true) ->
  findTableIndexes op rule col v = Ret idxs -> i ∈ idxs /\ ascending idxs.
Proof.
  intros Hcol Hf. unfold findTableIndexes in Hf. pose proof Hst as [Hk Hfi Hin Hasc Hint].
  destruct (String.eqb (GetShardingColumn rule) col) eqn:E; cbn [negb] in Hf;
    [|injection Hf as <-; done].
  apply String.eqb_eq in E. destruct (Hcol (eq_sym E)) as (Hv & Hcmp & Hc).
  destruct op; try (injection Hf as <-; done);
    try (destruct (as_RangeShard (GetShard rule)) as [eqs|] eqn:He; [|injection Hf as <-; done];
         split; [eapply range_indexes_sound; [exact He|exact Hv| |exact Hcmp|exact Hc|exact Hf]; naive_solver
                |by eapply range_indexes_ascending]).
  - apply bind_Ret in Hf as (j & Hj & [= <-]). injection Hcmp as <-.
    replace x with k in Hv by lia. rewrite (ro_same _ _ _ _ _ Hv Hk Hj Hfi).
    split; [set_solver|apply ascending_cons; split; [apply ascending_nil|constructor]].
Qed.

Lemma in_values_spec values m m' :
  in_values rule values m = Ret m' -> NoDup (map fst m) ->
  NoDup (map fst m') /\ (forall j, j ∈ map fst m -> j ∈ map fst m') /\
  (forall bs x, mapM expr_num values = Some bs -> x ∈ bs -> x = k -> i ∈ map fst m').
Proof.
  revert m. induction values as [|e vs IH]; intros m Hm Hnd.
  - injection Hm as <-. split_and!; [done|done|]. intros bs x [= <-] Hx. by apply elem_of_nil in Hx.
  - destruct e; try done. cbn [in_values] in Hm.
    apply bind_Ret in Hm as (v & Hv & Hm). apply bind_Ret in Hm as (j & Hj & Hm).
    destruct (value_map_append_keys j (EValue d) m Hnd) as [Hnd' Hkeys].
    apply IH in Hm as (H1 & H2 & H3); [|done]. split_and!; [done| |].
    + intros q Hq. apply H2, Hkeys. by right.
    + intros bs x Hbs Hx ->. cbn [mapM] in Hbs.
      destruct (expr_num (EValue d)) as [b|] eqn:Eb; [|done]. cbn [mbind option_bind] in Hbs.
      destruct (mapM expr_num vs) as [bs'|] eqn:Ebs; [|done]. injection Hbs as <-.
      apply elem_of_cons in Hx as [<-|Hx]; [|by eapply H3].
      apply H2, Hkeys. left. unfold expr_num, datum_num in Eb. rewrite Hv in Eb.
      exact (eq_sym (ro_same _ _ _ _ _ Eb (st_num _ _ Hst) Hj (st_find _ _ Hst))).
Qed.

Lemma sort_ints_spec l : NoDup l -> ascending (sort_ints l) /\ forall v, v ∈ sort_ints l <-> v ∈ l.
Proof.
  intros Hnd. assert (sort_ints l ≡ₚ l) as Hp by apply merge_sort_Permutation. split.
  - assert (StronglySorted Z.le (sort_ints l)) as Hs.
    { apply (StronglySorted_merge_sort Z.le). }
    assert (NoDup (sort_ints l)) as Hn by by rewrite Hp.
    revert Hs Hn. generalize (sort_ints l). induction 1 as [|a l' Hs IH Ha].
    + intros _. apply ascending_nil.
    + intros [Hni Hn]%NoDup_cons. apply ascending_cons. split; [auto|].
      rewrite Forall_forall in *. intros x Hx. specialize (Ha x Hx).
      destruct (decide (a = x)) as [->|]; [done|lia].
  - intros v. by rewrite Hp.
Qed.

Lemma getPatternIn_sound col nt vals idxs m :
  (col = GetShardingColumn rule ->
   exists bs, mapM expr_num vals = Some bs /\ xorb nt (existsb (Z.eqb k) bs) = true) ->
  getPatternInRouteResult col nt rule vals = Ret (idxs, m) -> i ∈ idxs /\ ascending idxs.
Proof.
  intros Hcol Hp. unfold getPatternInRouteResult in Hp. pose proof Hst as [Hk Hfi Hin Hasc Hint].
  destruct (String.eqb (GetType rule) _); [by injection Hp as <- _|].
  destruct (negb _); [done|]. destruct nt; [by injection Hp as <- _|].
  destruct (String.eqb (GetShardingColumn rule) col) eqn:E; cbn [negb] in Hp;
    [|by injection Hp as <- _].
  apply String.eqb_eq in E. destruct (Hcol (eq_sym E)) as (bs & Hbs & Hex).
  apply bind_Ret in Hp as (m' & Hm & [= <- <-]).
  destruct (in_values_spec _ _ _ Hm) as (Hnd & _ & Hv); [constructor|].
  destruct (sort_ints_spec _ Hnd) as [Hs Hel]. split; [|done]. apply Hel.
  cbn [xorb] in Hex. destruct (existsb _ bs) eqn:Ex; [|done].
  apply existsb_exists in Ex as (x & Hx & Heq). apply list_elem_of_In in Hx.
  by eapply Hv; [|exact Hx|lia].
Qed.

(** BETWEEN and NOT BETWEEN. *)
Lemma between_sound eqs a b nt x y idxs :
  as_RangeShard (GetShard rule) = Some eqs ->
  expr_num a = Some x -> expr_num b = Some y -> (nt = true -> x <= y) ->
  xorb nt ((x <=? k) && (k <=? y)) = true ->
  getShardBetweenExprRouteResult rule eqs a b nt = Ret idxs -> i ∈ idxs /\ ascending idxs.
Proof.
  intros He Ha Hb Hnt Hx Hr. unfold getShardBetweenExprRouteResult in Hr.
  apply bind_Ret in Hr as (va & Hva & Hr). apply bind_Ret in Hr as (vb & Hvb & Hr).
  apply bind_Ret in Hr as (st & Hs & Hr). apply bind_Ret in Hr as (la & Hl & Hr).
  apply wrap_Ret in Hs, Hl. destruct a; try done. destruct b; try done.
  apply wrap_Ret in Hva, Hvb. unfold expr_num, datum_num in Ha, Hb. rewrite Hva in Ha. rewrite Hvb in Hb.
  pose proof Hst as [Hk Hfi Hin Hasc Hint].
  pose proof (ro_int _ _ _ Ha Hs). pose proof (ro_int _ _ _ Hb Hl).
  pose proof (ro_int _ _ _ Hk Hfi).
  assert (x <= k -> st <= i) as M1 by (intros H9; exact (ro_mono eqs _ _ _ _ _ _ He Ha Hk H9 Hs Hfi)).
  assert (k <= y -> i <= la) as M2 by (intros H9; exact (ro_mono eqs _ _ _ _ _ _ He Hk Hb H9 Hfi Hl)).
  assert (k <= x -> i <= st) as M3 by (intros H9; exact (ro_mono eqs _ _ _ _ _ _ He Hk Ha H9 Hfi Hs)).
  assert (y <= k -> la <= i) as M4 by (intros H9; exact (ro_mono eqs _ _ _ _ _ _ He Hb Hk H9 Hl Hfi)).
  destruct nt.
  - specialize (Hnt eq_refl).
    assert (st <= la) as Hsl by exact (ro_mono eqs _ _ _ _ _ _ He Ha Hb Hnt Hs Hl).
    destruct (la <? st) eqn:E; [lia|].
    apply bind_Ret in Hr as ([st' la'] & Hp & Hr).
    apply bind_Ret in Hp as (z & Hz & [= -> ->]). apply bind_Ret in Hz as (bb & Hbb & [= <-]).
    destruct first_exists as (f & Hf & Hfb), last_exists as (l & Hll & Hlb).
    pose proof (first_last f l Hf Hll). rewrite Hf, Hll in Hr. cbn [mbind outcome_bind] in Hr.
    injection Hr as <-.
    split; [|apply unionList_ascending; apply makeList_ascending].
    rewrite unionList_elem, !makeList_elem. rewrite (i64_id (l + 1)) by (unfold_int; lia).
    assert (k < x \/ y < k) as [Hlt|Hgt]; [|left|right; lia].
    { destruct ((x <=? k) && (k <=? y)) eqn:Ex; [done|lia]. }
    destruct bb.
    + pose proof (ro_start eqs _ _ _ _ _ _ He Ha Hk Hlt Hs Hfi Hbb).
      rewrite !i64_id by (rewrite ?i64_id; unfold_int; lia). lia.
    + rewrite i64_id by (unfold_int; lia). lia.
  - destruct ((x <=? k) && (k <=? y)) eqn:Ex; [|done].
    assert (st <= la) as Hsl by exact (ro_mono eqs _ _ _ _ _ _ He Ha Hb ltac:(lia) Hs Hl).
    destruct (la <? st) eqn:E; [lia|]. injection Hr as <-.
    split; [|apply makeList_ascending]. rewrite makeList_elem, i64_id by (unfold_int; lia). lia.
Qed.

Lemma getBetween_sound col a b nt idxs :
  (col = GetShardingColumn rule ->
   exists x y, expr_num a = Some x /\ expr_num b = Some y /\ (nt = true -> x <= y) /\
     xorb nt ((x <=? k) && (k <=? y)) = true) ->
  getBetweenExprRouteResult rule col a b nt = Ret idxs -> i ∈ idxs /\ ascending idxs.
Proof.
  intros Hcol Hp. unfold getBetweenExprRouteResult in Hp. pose proof Hst as [Hk Hfi Hin Hasc Hint].
  destruct (String.eqb (GetType rule) _); [by injection Hp as <-|].
  destruct (String.eqb (GetShardingColumn rule) col) eqn:E; cbn [negb] in Hp;
    [|by injection Hp as <-].
  apply String.eqb_eq in E. destruct (Hcol (eq_sym E)) as (x & y & Ha & Hb & Hnt & Hx).
  destruct (as_RangeShard (GetShard rule)) as [eqs|] eqn:He; [|by injection Hp as <-].
  exact (between_sound eqs a b nt x y idxs He Ha Hb Hnt Hx Hp).
Qed.

(** ** The walk *)

Lemma resolves_need s c r al :
  resolves s -> NeedCreateColumnNameExprDecoratorInCondition s c = Ret (Some (r, al)) -> r = rule.
Proof.
  intros [H1 H2] Hn. unfold NeedCreateColumnNameExprDecoratorInCondition,
    GetSettedRuleFromColumnInfo in Hn.
  destruct (_ && _).
  - apply bind_Ret in Hn as (o & Ho & Hn). destruct o as [r'|]; [|done]. injection Hn as <- _.
    unfold getSettedRuleByColumnName in Ho.
    destruct (filter _ _) as [|r'' [|]] eqn:E; try done. injection Ho as <-.
    assert (r'' ∈ map snd (map_to_list (tableRules s))) as Hin.
    { eapply (list_elem_of_filter (fun r => GetShardingColumn r = L_ (cn_Name c))). rewrite E. by left. }
    apply list_elem_of_fmap in Hin as ([t r2] & -> & Hin). apply elem_of_map_to_list in Hin. eauto.
  - apply bind_Ret in Hn as ([r' al'] & Hf & [= <- <-]). unfold getSettedRuleFromTable in Hf.
    apply bind_Ret in Hf as (_ & _ & Hf).
    repeat case_match; simplify_eq; eauto.
Qed.

(** What a handler has to guarantee for a condition [e]. *)
Definition handled (s : StmtInfo T) (e : expr T) (res : handler_result (T := T)) : Prop :=
  let '(has, idxs, _, s') := res in
  (has = true -> ascending idxs /\ (eval e = true -> i ∈ idxs)) /\
  resolves s' /\ si_result s' = si_result s.

Lemma handled_false s e e' idxs s' :
  resolves s -> s' = s \/ (exists h, s' = set_hint s h) -> handled s e (false, idxs, e', s').
Proof. intros [H1 H2] [->|[h ->]]; (split; [done|]); split; done. Qed.

Lemma compare_sound side s op op' c d mk original e res :
  resolves s ->
  (eval e = true -> L_ (cn_Name c) = GetShardingColumn rule ->
   exists x cmp, datum_num d = Some x /\ compare op = Some cmp /\ cmp k x = true) ->
  op' = op ->
  compare_column_value side s op' c d mk original = Ret res -> handled s e res.
Proof.
  intros Hs He -> Hc. unfold compare_column_value in Hc.
  apply bind_Ret in Hc as (need & Hn & Hc). apply wrap_Ret in Hn.
  destruct need as [[r al]|]; [|injection Hc as <-; apply handled_false; auto].
  apply (resolves_need _ _ _ _ Hs) in Hn as ->.
  destruct (String.eqb (GetType rule) _); [injection Hc as <-; apply handled_false; auto|].
  apply bind_Ret in Hc as (v & Hv & Hc). apply bind_Ret in Hc as (idx & Hi & [= <-]).
  apply wrap_Ret in Hv, Hi. split; [|done]. intros _.
  assert (ascending idx) as Hasc.
  { unfold findTableIndexes in Hi. pose proof Hst as [_ _ _ Ha _].
    destruct (negb _); [by injection Hi as <-|].
    destruct op; try (by injection Hi as <-);
      try (destruct (as_RangeShard _); [by eapply range_indexes_ascending|by injection Hi as <-]).
    apply bind_Ret in Hi as (z & _ & [= <-]). apply ascending_single. }
  split; [done|]. intros Hev.
  destruct (decide (L_ (cn_Name c) = GetShardingColumn rule)) as [E|E].
  - destruct (He Hev E) as (x & cmp & Hx & Hcmp & Hk).
    unfold datum_num in Hx. rewrite Hv in Hx.
    by eapply (findTableIndexes_sound op _ v x cmp).
  - by eapply (findTableIndexes_sound op _ v 0 (fun _ _ => true)); [|exact Hi].
Qed.

Lemma eval_column_value op c d cmp x :
  compare op = Some cmp -> L_ (cn_Name c) = GetShardingColumn rule -> datum_num d = Some x ->
  eval (EBinary op (EColumn c) (EValue d)) = cmp k x /\
  eval (EBinary op (EValue d) (EColumn c)) = cmp x k.
Proof.
  intros Hcmp Hc Hd. assert (column_num c = Some k) as Hk
    by (unfold column_num; rewrite Hc; apply Hst).
  destruct op; try done; cbn [eval]; rewrite Hcmp, Hk, Hd; done.
Qed.

Lemma compare_inverse op cmp :
  compare op = Some cmp ->
  exists cmp', compare (inverseOperator op) = Some cmp' /\ forall a b, cmp b a = cmp' a b.
Proof.
  destruct op; intros [= <-]; eexists; (split; [reflexivity|]); intros a b; cbn;
    rewrite ?(Z.eqb_sym b a); done.
Qed.

Lemma lits_ok_compare op c d :
  compare op <> None ->
  (lits_ok (GetShardingColumn rule) (EBinary op (EColumn c) (EValue d)) = true \/
   lits_ok (GetShardingColumn rule) (EBinary op (EValue d) (EColumn c)) = true) ->
  L_ (cn_Name c) = GetShardingColumn rule -> exists x, datum_num d = Some x.
Proof.
  intros Hop Hl Hc.
  assert ((if String.eqb (GetShardingColumn rule) (L_ (cn_Name c)) then is_some (datum_num d)
           else true) = true) as E by (destruct op, Hl; done).
  rewrite Hc, String.eqb_refl in E. destruct (datum_num d); [eauto|done].
Qed.

Lemma math_compare_sound s op l r res :
  resolves s -> compare op <> None -> lits_ok (GetShardingColumn rule) (EBinary op l r) = true ->
  handleBinaryOperationExprMathCompare s op l r = Ret res -> handled s (EBinary op l r) res.
Proof.
  intros Hs Hop Hl Hm. unfold handleBinaryOperationExprMathCompare in Hm.
  apply bind_Ret in Hm as (hint & _ & Hm).
  destruct (negb _); [injection Hm as <-; apply handled_false; eauto|].
  destruct (compare op) as [cmp|] eqn:Hcmp; [|done].
  destruct l, r; try (invert_ret; apply handled_false; by auto).
  - eapply compare_sound; [done| |reflexivity|exact Hm]. intros Hev Hc.
    destruct (lits_ok_compare op c d) as [x Hx]; [congruence|by left|done|].
    exists x, cmp. split_and!; [done|done|].
    by rewrite <- (proj1 (eval_column_value op c d cmp x Hcmp Hc Hx)).
  - eapply compare_sound; [done| |reflexivity|exact Hm]. intros Hev Hc.
    destruct (lits_ok_compare op c d) as [x Hx]; [congruence|by right|done|].
    destruct (compare_inverse op cmp Hcmp) as (cmp' & Hcmp' & Heq).
    exists x, cmp'. split_and!; [done|done|]. rewrite <- Heq.
    by rewrite <- (proj2 (eval_column_value op c d cmp x Hcmp Hc Hx)).
Qed.

Lemma in_sound s e vals nt sel res :
  resolves s -> lits_ok (GetShardingColumn rule) (EIn e vals nt sel) = true ->
  handlePatternInExpr s e vals nt sel = Ret res -> handled s (EIn e vals nt sel) res.
Proof.
  intros Hs Hl Hh. unfold handlePatternInExpr in Hh. destruct sel; [done|].
  destruct e; try (injection Hh as <-; apply handled_false; by auto).
  apply bind_Ret in Hh as (need & Hn & Hh). do 2 apply wrap_Ret in Hn.
  destruct need as [[r al]|]; [|injection Hh as <-; apply handled_false; auto].
  apply (resolves_need _ _ _ _ Hs) in Hn as ->.
  apply bind_Ret in Hh as ([idx m] & Hp & [= <-]). do 2 apply wrap_Ret in Hp.
  split; [|done]. intros _.
  assert (eval (EIn (EColumn c) vals nt None) = true -> i ∈ idx /\ ascending idx) as K.
  { intros Hev. eapply getPatternIn_sound; [|exact Hp]. intros Hc. cbn [lits_ok eval] in *.
    unfold column_num in Hev. rewrite Hc in *. rewrite String.eqb_refl in Hl.
    rewrite (st_num _ _ Hst) in Hev. destruct (mapM expr_num vals) as [bs|]; [|done]. eauto. }
  split; [|intros Hev; by apply K].
  unfold getPatternInRouteResult in Hp. pose proof Hst as [_ _ _ Ha _].
  repeat (case_match; [by simplify_eq|]); try by simplify_eq.
  apply bind_Ret in Hp as (m' & Hm & [= <- <-]).
  destruct (in_values_spec _ _ _ Hm) as (Hnd & _); [constructor|]. by apply sort_ints_spec.
Qed.

Lemma between_handled s e a b nt res :
  resolves s -> lits_ok (GetShardingColumn rule) (EBetween e a b nt) = true ->
  handleBetweenExpr s e a b nt = Ret res -> handled s (EBetween e a b nt) res.
Proof.
  intros Hs Hl Hh. unfold handleBetweenExpr in Hh.
  destruct e; try (injection Hh as <-; apply handled_false; by auto).
  apply bind_Ret in Hh as (need & Hn & Hh). do 2 apply wrap_Ret in Hn.
  destruct need as [[r al]|]; [|injection Hh as <-; apply handled_false; auto].
  apply (resolves_need _ _ _ _ Hs) in Hn as ->.
  apply bind_Ret in Hh as (idx & Hp & [= <-]). do 2 apply wrap_Ret in Hp.
  split; [|done]. intros _. split.
  - unfold getBetweenExprRouteResult in Hp. pose proof Hst as [_ _ _ Ha _].
    repeat (case_match; [by simplify_eq|]); case_match; [|by simplify_eq].
    unfold getShardBetweenExprRouteResult in Hp. invert_ret; try destruct a4 as [st la];
      invert_ret; repeat case_match; simplify_eq;
      auto using unionList_ascending, makeList_ascending.
  - intros Hev. eapply getBetween_sound; [|exact Hp]. intros Hc.
    cbn [lits_ok] in Hl. rewrite Hc, String.eqb_refl in Hl.
    destruct (expr_num a) as [x|] eqn:Ea; [|done]. destruct (expr_num b) as [y|] eqn:Eb; [|done].
    exists x, y. split_and!; [done|done|intros ->; cbn in Hl; lia|].
    destruct a; try done. destruct b; try done. cbn [eval] in Hev.
    unfold column_num in Hev. rewrite Hc in Hev. cbn [expr_num] in Ea, Eb.
    by rewrite (st_num _ _ Hst), Ea, Eb in Hev.
Qed.

Lemma logic_sound op lHas lRes rHas rRes (evl evr ev : bool) :
  (op = LogicAnd /\ ev = evl && evr) \/ (op = LogicOr /\ ev = evl || evr) ->
  (lHas = true -> ascending lRes /\ (evl = true -> i ∈ lRes)) ->
  (rHas = true -> ascending rRes /\ (evr = true -> i ∈ rRes)) ->
  let '(has, res) := mergeBinaryOperationRouteResult op lHas lRes rHas rRes in
  has = true -> ascending res /\ (ev = true -> i ∈ res).
Proof.
  intros [[-> ->]|[-> ->]] Hl Hr; destruct lHas, rHas; cbn; intros Hh; try done;
    try (destruct (Hl eq_refl) as [H1 H2]); try (destruct (Hr eq_refl) as [H3 H4]).
  - split; [auto with dbproxy|]. intros Hev%andb_true_iff. rewrite interList_elem by done.
    naive_solver.
  - split; [done|]. intros [? ?]%andb_true_iff. auto.
  - split; [done|]. intros [? ?]%andb_true_iff. auto.
  - split; [auto with dbproxy|]. intros Hev%orb_true_iff. rewrite unionList_elem. naive_solver.
Qed.

Lemma handleComparison_sound e s res :
  resolves s -> lits_ok (GetShardingColumn rule) e = true ->
  handleComparisonExpr s e = Ret res -> handled s e res.
Proof.
  revert s res. induction e; intros s res Hs Hl Hh;
    try (cbn [handleComparisonExpr] in Hh; apply bind_Ret in Hh as (e' & _ & [= <-]);
         apply handled_false; by auto).
  - assert (forall o, (o = LogicAnd \/ o = LogicOr) -> o = op -> handled s (EBinary o e1 e2) res) as K.
    { intros o Ho <-. assert (lits_ok (GetShardingColumn rule) e1 = true /\
        lits_ok (GetShardingColumn rule) e2 = true) as [Hl1 Hl2].
      { destruct Ho as [->| ->]; by apply andb_true_iff in Hl. }
      assert ((r1 ← wrap "handle BinaryOperationExpr.L error: %v" (handleComparisonExpr s e1);
               r2 ← wrap "handle BinaryOperationExpr.R error: %v" (handleComparisonExpr r1.2 e2);
               Ret (mergeBinaryOperationRouteResult o r1.1.1.1 r1.1.1.2 r2.1.1.1 r2.1.1.2,
                    EBinary o r1.1.2 r2.1.2, r2.2)) = Ret res) as Hb.
      { rewrite <- Hh. destruct Ho as [->| ->]; cbn [handleComparisonExpr];
          destruct (handleComparisonExpr s e1) as [[[[? ?] ?] ?]| |]; cbn [wrap mbind outcome_bind fst snd];
          try done; destruct (handleComparisonExpr _ e2) as [[[[? ?] ?] ?]| |];
          cbn [wrap mbind outcome_bind fst snd]; try done;
          by destruct (mergeBinaryOperationRouteResult _ _ _ _ _). }
      apply bind_Ret in Hb as ([[[lh lr] l'] s1] & H1 & Hb).
      apply bind_Ret in Hb as ([[[rh rr] r'] s2] & H2 & Hb). apply wrap_Ret in H1, H2.
      cbn [fst snd] in *. apply IHe1 in H1 as (A1 & A2 & A3); [|done|done].
      apply IHe2 in H2 as (B1 & B2 & B3); [|done|done].
      pose proof (logic_sound o lh lr rh rr (eval e1) (eval e2) (eval (EBinary o e1 e2))
        ltac:(destruct Ho as [->| ->]; auto) A1 B1) as Hm.
      destruct (mergeBinaryOperationRouteResult o lh lr rh rr) as [has rs].
      injection Hb as <-. split; [done|]. split; [done|congruence]. }
    destruct op; try (apply K; by auto); try (by apply math_compare_sound; [| | |]).
    cbn [handleComparisonExpr] in Hh. unfold handleBinaryOperationExprOther in Hh. invert_ret.
    apply handled_false; by auto.
  - by eapply in_sound.
  - by eapply between_handled.
  - cbn [handleComparisonExpr] in Hh. apply bind_Ret in Hh as ([[[h r] e'] s1] & H1 & [= <-]).
    by apply IHe in H1.
Qed.

End values.

Lemma handleWhere_sound_lemma num row truth rule k i s w w' s' :
  RoutesOrdered rule num -> stored num row rule k i -> GetType rule <> GlobalTableRuleType ->
  resolves rule s -> lits_ok num (GetShardingColumn rule) w = true ->
  ascending (indexes (si_result s)) -> i ∈ indexes (si_result s) ->
  handleWhere s (Some w) = Ret (w', s') ->
  eval num row truth w = true -> i ∈ indexes (si_result s').
Proof.
  intros RO Hst Hty Hs Hl Hasc Hin Hw Hev. unfold handleWhere in Hw.
  apply bind_Ret in Hw as ([[[has idxs] e'] s1] & Hc & [= _ <-]). apply wrap_Ret in Hc.
  destruct (handleComparison_sound num row truth rule k i Hst Hty w s _ Hs Hl Hc) as (H1 & _ & H3).
  destruct has; [|by rewrite H3]. destruct (H1 eq_refl) as [H4 H5].
  cbn. rewrite H3, interList_elem by done. auto.
Qed.

(** Routing is sound. Let a statement use one sharded table whose rule
    respects the order of its keys. If a stored row satisfies the WHERE
    condition, the table of the row is among the tables the statement is still
    routed to after the condition was handled: no matching row is missed,
    whatever combination of comparisons, IN, BETWEEN, AND, OR and opaque
    conditions is used. *)
Theorem handleWhere_sound num row truth rule k i s w w' s' :
  RoutesOrdered rule num -> stored num row rule k i -> GetType rule <> GlobalTableRuleType ->
  resolves rule s -> lits_ok num (GetShardingColumn rule) w = true ->
  ascending (indexes (si_result s)) -> i ∈ indexes (si_result s) ->
  handleWhere s (Some w) = Ret (w', s') ->
  eval num row truth w = true -> i ∈ indexes (si_result s').
Proof. apply handleWhere_sound_lemma. Qed.

(** ** Rules that respect the order of integers *)

(** The integers a sharding column holds, with the smallest one left out. *)
Definition int_num (v : gval) : option Z :=
  match v with
  | GInt KInt64 z => if decide (min_i64 < z <= max_i64) then Some z else None
  | _ => None
  end.

Lemma int_num_Some v x :
  int_num v = Some x -> v = GInt KInt64 x /\ min_i64 < x <= max_i64.
Proof.
  unfold int_num. destruct v as [|[] z| | | | |]; try done. case_decide; [|done].
  intros [= <-]. done.
Qed.

Lemma int_num_NumValue v x : int_num v = Some x -> gval_wf v /\ NumValue v = Ret x.
Proof.
  intros [-> Hx]%int_num_Some. split; [cbn; unfold_int; lia|]. cbn.
  rewrite i64_id by (unfold_int; lia). done.
Qed.

(** The configured rules whose algorithm accepts every integer. *)
Definition int_rule (cfg : models.Shard) : Prop :=
  models.Type_ cfg = HashRuleType \/ models.Type_ cfg = ModRuleType \/
  models.Type_ cfg = MycatModRuleType \/ models.Type_ cfg = MycatLongRuleType \/
  models.Type_ cfg = MycatStringRuleType \/ models.Type_ cfg = MycatMurmurRuleType \/
  (models.Type_ cfg = RangeRuleType /\ 0 < models.TableRowLimit cfg /\
   zsum (models.Locations cfg) * models.TableRowLimit cfg < max_i64).

Lemma int_rule_shard cfg idx t2s (s : Shard T) :
  int_rule cfg -> parseRuleSliceInfos cfg = Ret (idx, t2s, s) ->
  (forall v x, int_num v = Some x -> routable s v) /\
  (as_RangeShard s = None \/
   exists rs, s = SNumRange (mk_NumRangeShard rs) /\
     0 < models.TableRowLimit cfg /\
     zsum (models.Locations cfg) * models.TableRowLimit cfg < max_i64 /\
     ParseNumSharding (models.Locations cfg) (models.TableRowLimit cfg) = Ret rs).
Proof.
  intros Hr Hp. unfold parseRuleSliceInfos in Hp.
  assert (forall v x, int_num v = Some x -> NumValue v <> Ret min_i64) as Hmod.
  { intros v x Hv. destruct (int_num_NumValue _ _ Hv) as [_ ->].
    apply int_num_Some in Hv as [_ ?]. intros [= ->]. lia. }
  destruct Hr as [E|[E|[E|[E|[E|[E|(E & Hl & Ht)]]]]]]; rewrite E in Hp; cbn -[mbind] in Hp.
  - apply bind_Ret in Hp as ([? ?] & _ & [= _ _ <-]). split; [done|by left].
  - apply bind_Ret in Hp as ([? ?] & _ & [= _ _ <-]). split; [exact Hmod|by left].
  - apply parse_mycat_inv in Hp as (_ & [= <-] & _). split; [exact Hmod|by left].
  - apply parse_mycat_inv in Hp as (_ & Hs & _). apply bind_Ret in Hs as (? & _ & [= <-]).
    split; [done|by left].
  - apply parse_mycat_inv in Hp as (_ & Hs & _). apply bind_Ret in Hs as (? & _ & [= <-]).
    split; [done|by left].
  - apply parse_mycat_inv in Hp as (_ & Hs & _). apply bind_Ret in Hs as (? & _ & [= <-]).
    split; [done|by left].
  - apply bind_Ret in Hp as ([? ?] & _ & Hp). apply bind_Ret in Hp as (rs & Hrs & Hp).
    destruct (negb _); [done|]. injection Hp as _ _ <-. split; [done|]. right. eauto 10.
Qed.

Lemma range_find locs limit rs key x i :
  Forall (Z.le 0) locs -> 0 < limit -> zsum locs * limit < max_i64 ->
  ParseNumSharding locs limit = Ret rs -> NumValue key = Ret x ->
  find_for_key (mk_NumRangeShard rs) key = Ret i ->
  i = x / limit /\ 0 <= x < zsum locs * limit.
Proof.
  intros Hl Hp Hm Hr Hx Hf. rewrite (NumRange_find _ _ _ _ _ Hl Hp Hm Hr Hx) in Hf.
  destruct (_ && _) eqn:E; [|done]. injection Hf as <-. lia.
Qed.

(** The mod, hash, mycat and number range rules built by the router implement
    the interface. *)
Lemma int_rule_ordered `{!TreeMapOk T} cfg b :
  tables_ok cfg -> int_rule cfg -> parseRule cfg = Ret b -> RoutesOrdered (RBase b) int_num.
Proof.
  intros Ht Hr Hp. apply parseRule_inv in Hp as (dbs & _ & Hi).
  destruct (int_rule_shard _ _ _ _ Hr Hi) as [Hrt Hrs].
  split; unfold FindTableIndex, GetShard; cbn [base_of].
  - intros v x i Hv Hf. pose proof (Hrt _ _ Hv) as Hrv.
    destruct (routable_infos _ _ _ _ _ Ht Hi Hrv) as [_ Hmax].
    destruct (int_num_NumValue _ _ Hv) as [Hwf _].
    pose proof (shard_index_bound _ _ _ _ _ _ Hi Hmax Hwf Hrv Hf). unfold_int. lia.
  - intros v w x i j [-> _]%int_num_Some [-> _]%int_num_Some Hv Hw. congruence.
  - intros eqs v w x y i j He Hv Hw Hxy Hfi Hfj.
    destruct Hrs as [E|(rs & E & Hlim & Hmax & Hps)]; [congruence|]. rewrite E in Hfi, Hfj.
    destruct Ht as [Hl _].
    apply (range_find _ _ _ _ x _ Hl Hlim Hmax Hps) in Hfi as [-> _]; [|by apply int_num_NumValue].
    apply (range_find _ _ _ _ y _ Hl Hlim Hmax Hps) in Hfj as [-> _]; [|by apply int_num_NumValue].
    by apply Z.div_le_mono.
  - intros eqs v w x y i j He Hv Hw Hxy Hfi Hfj Hst.
    destruct Hrs as [E|(rs & E & Hlim & Hmax & Hps)]; [congruence|]. rewrite E in Hfi, Hfj, He.
    destruct Ht as [Hl _]. injection He as <-. unfold equal_start, NumRangeShard_EqualStart in Hst.
    destruct (int_num_NumValue _ _ Hv) as [_ Hnv], (int_num_NumValue _ _ Hw) as [_ Hnw].
    rewrite Hnv in Hst. cbn [mbind outcome_bind] in Hst.
    apply (range_find _ _ _ _ x _ Hl Hlim Hmax Hps Hnv) in Hfi as [-> Hxr].
    apply (range_find _ _ _ _ y _ Hl Hlim Hmax Hps Hnw) in Hfj as [-> Hyr].
    apply bind_Ret in Hst as (r & Hrange & Heq). injection Heq as Heq.
    apply index_Ret in Hrange as [_ Hrange]. cbn [Shards] in Hrange.
    rewrite (ParseNumSharding_lookup _ _ _ (x / models.TableRowLimit cfg) Hl Hlim ltac:(lia) Hps) in Hrange
      by (split; [apply Z.div_pos; lia|apply Z.div_lt_upper_bound; lia]).
    injection Hrange as <-. cbn [Start] in Heq.
    apply Z.div_lt_upper_bound; [done|]. lia.
Qed.

End soundness.

(** * From the configuration to the routed tables *)

Section configured.
Context {T} {TM : TreeMap T} {TMO : TreeMapOk T} {LZ : LocalZone}.

Lemma seqZ_int n : 0 <= n <= max_i64 -> Forall (fun j => min_i64 < j < max_i64) (seqZ 0 n).
Proof.
  intros Hn. rewrite Forall_forall. intros j Hj%elem_of_seqZ. unfold_int. lia.
Qed.

(** The tables of a condition hold its rows, for a configured rule. *)
(** The row of a configured table lies in one of the tables of the rule. *)
Lemma configured_stored cfg b row x i :
  tables_ok cfg -> int_rule cfg -> parseRule (T := T) cfg = Ret b ->
  int_num (row (GetShardingColumn (RBase b))) = Some x ->
  FindTableIndex (RBase b) (row (GetShardingColumn (RBase b))) = Ret i ->
  stored int_num row (RBase b) x i /\ GetType (RBase b) <> GlobalTableRuleType.
Proof.
  intros Ht Hr Hp Hx Hf. apply parseRule_inv in Hp as (dbs & Hb & Hi).
  destruct (int_rule_shard _ _ _ _ Hr Hi) as [Hrt _]. specialize (Hrt _ _ Hx).
  destruct (routable_infos _ _ _ _ _ Ht Hi Hrt) as [Hsub Hmax].
  destruct (int_num_NumValue _ _ Hx) as [Hwf _].
  pose proof (shard_index_bound _ _ _ _ _ _ Hi Hmax Hwf Hrt Hf) as Hbound.
  assert (GetSubTableIndexes (RBase b) = seqZ 0 (models.msize (br_tableToSlice b))) as Hseq by done.
  split.
  - split; [done|done| | |]; rewrite Hseq;
      [rewrite elem_of_seqZ; lia|apply ascending_seqZ|apply seqZ_int; lia].
  - unfold GetType. cbn [base_of]. rewrite Hb. cbn.
    destruct Hr as [->|[->|[->|[->|[->|[->|[-> _]]]]]]]; discriminate.
Qed.

Lemma where_finds_rows_lemma cfg b row truth x i s w w' s' :
  tables_ok cfg -> int_rule cfg -> parseRule (T := T) cfg = Ret b ->
  int_num (row (GetShardingColumn (RBase b))) = Some x ->
  FindTableIndex (RBase b) (row (GetShardingColumn (RBase b))) = Ret i ->
  resolves (RBase b) s -> indexes (si_result s) = GetSubTableIndexes (RBase b) ->
  lits_ok int_num (GetShardingColumn (RBase b)) w = true ->
  handleWhere s (Some w) = Ret (w', s') ->
  eval int_num row truth w = true -> i ∈ indexes (si_result s').
Proof.
  intros Ht Hr Hp Hx Hf Hs Hidx Hl Hw Hev.
  destruct (configured_stored _ _ _ _ _ Ht Hr Hp Hx Hf) as [Hst Hty].
  eapply (handleWhere_sound_lemma int_num row truth (RBase b) x i s w w' s');
    [by eapply int_rule_ordered|done|done|done|done| | |done|done]; rewrite Hidx; apply Hst.
Qed.

(** C8: for every table sharded by an integer column with a hash, mod, number
    range or mycat mod, long, string or murmur rule of the configuration, a row
    with an int64 key [x] other than -2^63 that satisfies the WHERE condition is found:
    its table is among the tables the statement is routed to. No location is negative,
    the ranges have a positive size and end below 2^63, the condition compares the
    sharding column with integer literals only, and a NOT BETWEEN on it has its bounds in
    order. *)
Theorem where_finds_rows cfg b row truth x i s w w' s' :
  tables_ok cfg -> int_rule cfg -> parseRule (T := T) cfg = Ret b ->
  int_num (row (GetShardingColumn (RBase b))) = Some x ->
  FindTableIndex (RBase b) (row (GetShardingColumn (RBase b))) = Ret i ->
  resolves (RBase b) s -> indexes (si_result s) = GetSubTableIndexes (RBase b) ->
  lits_ok int_num (GetShardingColumn (RBase b)) w = true ->
  handleWhere s (Some w) = Ret (w', s') ->
  eval int_num row truth w = true -> i ∈ indexes (si_result s').
Proof. apply where_finds_rows_lemma. Qed.

(** On a year, month or day rule the condition [column < v] is never routed
    to the table of [v] itself, although earlier instants of the same year,
    month or day are stored in it. *)
Theorem date_less_than_drops_table rule v j col idxs :
  (GetShard rule = SDateYear mk_DateYearShard \/ GetShard rule = SDateMonth mk_DateMonthShard \/
   GetShard rule = SDateDay mk_DateDayShard) ->
  col = GetShardingColumn rule -> FindTableIndex rule v = Ret j -> min_i64 < j <= max_i64 ->
  findTableIndexes (T := T) LT rule col v = Ret idxs -> j ∉ idxs.
Proof.
  intros Hs -> Hj Hb Hf. unfold findTableIndexes in Hf. rewrite String.eqb_refl in Hf.
  cbn [negb] in Hf. unfold FindTableIndex in Hj.
  assert (exists eqs, as_RangeShard (GetShard rule) = Some eqs /\ eqs v j = Ret true)
    as (eqs & He & Hst).
  { pose proof (date_EqualStart_always v j) as (D1 & D2 & D3).
    destruct Hs as [E|[E|E]]; rewrite E in *; eexists; (split; [reflexivity|]);
      [exact (D1 Hj)|exact (D2 Hj)|exact (D3 Hj)]. }
  rewrite He in Hf. unfold range_indexes in Hf. apply bind_Ret in Hf as (j' & Hj' & Hf).
  unfold FindTableIndex in Hj'. rewrite Hj in Hj'. injection Hj' as <-.
  unfold adjustShardIndex in Hf. rewrite Hst in Hf. cbn [mbind outcome_bind] in Hf.
  apply bind_Ret in Hf as (f & _ & [= <-]). rewrite makeList_elem.
  rewrite !i64_id by (rewrite ?i64_id; unfold_int; lia). lia.
Qed.

End configured.

(** * Witnesses *)

#[local] Instance utc : LocalZone := fun _ => 0.

Definition base_rule (ty col : string) (s : Shard (gmap Z Z)) (subs : list Z) : Rule (gmap Z Z) :=
  RBase (mk_BaseRule "db" "t" col ty ["slice-0"] subs ∅ s [] ∅).

Definition column (c : string) : ColumnName :=
  mk_ColumnName (NewCIStr "") (NewCIStr "") (NewCIStr c).

Definition info_for (rule : Rule (gmap Z Z)) : StmtInfo (gmap Z Z) :=
  mk_StmtInfo "db" (mk_Router ∅ (NewDefaultRule "slice-0")) {["t"%string := rule]} ∅
    (NewRouteResult "db" "t" (GetSubTableIndexes rule)) ∅ "".

Lemma info_for_resolves rule : resolves rule (info_for rule).
Proof.
  split; cbn; intros t r Hr; [|by rewrite lookup_empty in Hr].
  apply lookup_singleton_Some in Hr as [_ <-]. done.
Qed.

(** [id >= 120 AND (id < 400 OR name LIKE ...)] *)
Definition example_where : expr (gmap Z Z) :=
  EBinary LogicAnd (EBinary GE (EColumn (column "id")) (EValue (DInt64 120)))
    (EParen (EBetween (EColumn (column "id")) (EValue (DInt64 90)) (EValue (DInt64 310)) false)).

Lemma where_finds_rows_witness :
  exists b w' s', parseRule (example_cfg RangeRuleType) = Ret b /\
    handleWhere (info_for (RBase b)) (Some example_where) = Ret (w', s') /\
    2 ∈ indexes (si_result s').
Proof.
  eexists _, _, _. split; [reflexivity|]. split; [reflexivity|].
  eapply (where_finds_rows (example_cfg RangeRuleType) _ (fun _ => GInt KInt64 250) (fun _ => true)
            250 2 _ example_where);
    [apply example_tables_ok| |reflexivity|reflexivity|reflexivity|apply info_for_resolves
    |reflexivity|reflexivity|reflexivity|reflexivity].
  do 6 right. split; [reflexivity|]. split; [reflexivity|]. reflexivity.
Defined.

Definition mod_rule : Rule (gmap Z Z) :=
  base_rule ModRuleType "id" (SMod (mk_ModShard 3)) [0; 1; 2].

Lemma mod_rule_ordered : RoutesOrdered mod_rule int_num.
Proof.
  split; try (intros eqs v w x y i j Hnone; discriminate Hnone).
  - intros v x i [-> Hx]%int_num_Some Hf.
    pose proof (Mod_index_bound 3 (GInt KInt64 x) i ltac:(unfold_int; lia)) as Hb.
    unfold_int. specialize (Hb ltac:(cbn; unfold_int; lia)).
    assert (0 <= i < 3); [|lia]. apply Hb; [|exact Hf]. cbn.
    rewrite i64_id by (unfold_int; lia). intros [= ->]. lia.
  - intros v w x i j [-> _]%int_num_Some [-> _]%int_num_Some Hv Hw. congruence.
Qed.

Lemma handleWhere_sound_witness :
  exists w' s', handleWhere (info_for mod_rule)
      (Some (EBinary EQ (EValue (DInt64 7)) (EColumn (column "id")))) = Ret (w', s') /\
    1 ∈ indexes (si_result s').
Proof.
  eexists _, _. split; [reflexivity|].
  eapply (handleWhere_sound int_num (fun _ => GInt KInt64 7) (fun _ => true) mod_rule 7 1
            (info_for mod_rule) (EBinary EQ (EValue (DInt64 7)) (EColumn (column "id"))));
    [exact mod_rule_ordered| |discriminate|apply info_for_resolves|reflexivity| | |reflexivity
    |reflexivity].
  - split; [reflexivity|reflexivity|cbn; set_solver|repeat constructor; lia
           |repeat constructor; cbn; unfold_int; lia].
  - repeat constructor; lia.
  - cbn. set_solver.
Defined.

Definition year_rule : Rule (gmap Z Z) :=
  base_rule DateYearRuleType "day" (SDateYear mk_DateYearShard) [2015; 2016; 2017].

Lemma date_less_than_drops_table_witness :
  exists idxs, findTableIndexes LT year_rule "day" (GString "2016-06-01") = Ret idxs /\
    FindTableIndex year_rule (GString "2016-03-01") = Ret 2016 /\ 2016 ∉ idxs.
Proof.
  exists [2015]. split; [reflexivity|]. split; [reflexivity|].
  apply (date_less_than_drops_table year_rule (GString "2016-06-01") 2016 "day" [2015]);
    [left; reflexivity|reflexivity|reflexivity|unfold_int; lia|reflexivity].
Defined.

(** NOT BETWEEN with its bounds in descending order holds for every row and
    is not routed to the tables strictly between the bounds: the row with key 150
    satisfies [id NOT BETWEEN 250 AND 10] and its table 1 is not visited. *)
Theorem not_between_reversed_misses :
  exists b w' s', parseRule (example_cfg RangeRuleType) = Ret b /\
    let w := EBetween (EColumn (column "id")) (EValue (DInt64 250)) (EValue (DInt64 10)) true in
    eval int_num (fun _ => GInt KInt64 150) (fun _ => true) w = true /\
    FindTableIndex (RBase b) (GInt KInt64 150) = Ret 1 /\
    handleWhere (info_for (RBase b)) (Some w) = Ret (w', s') /\ 1 ∉ indexes (si_result s').
Proof.
  eexists _, _, _. split; [reflexivity|]. split; [reflexivity|]. split; [reflexivity|].
  split; [reflexivity|]. vm_compute. intros H. repeat (apply elem_of_cons in H as [H|H]; [done|]).
  by apply elem_of_nil in H.
Qed.

(** A negative integer written in quotes is hashed as a text: its table is not
    the one its number was inserted into. *)
Lemma hash_quoted_negative :
  FindTableIndex (base_rule HashRuleType "id" (SHash (mk_HashShard 16)) (seqZ 0 16))
    (GInt KInt64 (-5)) <>
  FindTableIndex (base_rule HashRuleType "id" (SHash (mk_HashShard 16)) (seqZ 0 16))
    (GString "-5").
Proof. vm_compute. discriminate. Qed.
