(* ===== verification/PlanSQL.v ===== *)
(** proxy/plan/plan.go: from a rewritten statement and a route result to the SQL
    text of every slice and database ([generateShardingSQLs]), the original text
    for all of them ([generateSQLResultFromOriginSQL]). *)

From Stdlib Require Import Ascii String.
From S2P Require Import Prelude GoStr Hack NumKey Shard ShardMycat Models Rule.
From S2P Require Import Router PlanUtil Format Ast Dml.

(** [map[string]map[string][]string]: slice, database, statements in order. *)
Abbreviation SQLs := (gmap string (gmap string (list string))).

(** [ret[sliceName][dbName]]; a missing key is the empty list. *)
Definition sqls_at (m : SQLs) (sliceName dbName : string) : list string :=
  match m !! sliceName with
  | Some dbs => default [] (dbs !! dbName)
  | None => []
  end.

Definition sqls_add (m : SQLs) (sliceName dbName sql : string) : SQLs :=
  let dbs := default ∅ (m !! sliceName) in
  <[sliceName := <[dbName := default [] (dbs !! dbName) ++ [sql]]> dbs]> m.

Section sqls.
Context {T : Type}.

(** The slice and the database a statement for a table index is sent to; an error
    of the database name is dropped. *)
Definition target (rule : Rule T) (index : Z) : outcome (string * string) :=
  sliceName ← GetSlice rule (GetSliceIndexFromTableIndex rule index);
  match GetDatabaseNameByTableIndex rule index with
  | Ret dbName => Ret (sliceName, dbName)
  | Err _ => Ret (sliceName, EmptyString)
  | Panic p => Panic p
  end.

(** The loop over the route result. [restore] writes the statement for the table
    the cursor is at. *)
Fixpoint sharding_loop (fuel : nat) (restore : RouteResult -> restored) (result : RouteResult)
    (router : Router (T := T)) (ret : SQLs) : outcome (SQLs * RouteResult) :=
  match fuel with
  | O => Ret (ret, result)
  | S fuel =>
      if HasNext result then
        sql ← restored_sql (restore result);
        '(index, result') ← Next result;
        match GetShardRule router (rr_db result') (rr_table result') with
        | None => Err (Errorf "cannot find shard rule, db: %s, table: %s")
        | Some rule =>
            '(sliceName, dbName) ← target rule index;
            sharding_loop fuel restore result' router (sqls_add ret sliceName dbName sql)
        end
      else Ret (ret, result)
  end.

(** The cursor advances in every turn, so the length of the list is enough. *)
Definition generateShardingSQLs (restore : RouteResult -> restored) (result : RouteResult)
    (router : Router (T := T)) : outcome (SQLs * RouteResult) :=
  '(ret, result) ← sharding_loop (length (indexes result)) restore result router ∅;
  Ret (ret, Reset result).

Fixpoint origin_loop (sql : string) (rule : Rule T) (indexes : list Z) (ret : SQLs) : outcome SQLs :=
  match indexes with
  | [] => Ret ret
  | index :: rest =>
      '(sliceName, dbName) ← target rule index;
      origin_loop sql rule rest (sqls_add ret sliceName dbName sql)
  end.

Definition generateSQLResultFromOriginSQL (sql : string) (result : RouteResult)
    (router : Router (T := T)) : outcome SQLs :=
  let '(ref, router') := GetRule router (rr_db result) (rr_table result) in
  let rule := deref router' ref in
  origin_loop sql rule (GetSubTableIndexes rule) ∅.

(** * The statements of every slice *)

(** The route result with its cursor at position [k]. *)
Definition cursor_at (r : RouteResult) (k : nat) : RouteResult :=
  mk_RouteResult (rr_db r) (rr_table r) (Z.of_nat k) (indexes r).

Lemma sqls_at_add m s d sql s' d' :
  sqls_at (sqls_add m s d sql) s' d' =
  if decide ((s, d) = (s', d')) then sqls_at m s' d' ++ [sql] else sqls_at m s' d'.
Proof.
  unfold sqls_at, sqls_add. destruct (decide (s = s')) as [<-|Hs].
  - rewrite lookup_insert_eq. destruct (decide (d = d')) as [<-|Hd].
    + rewrite decide_True by done. rewrite lookup_insert_eq. cbn [default]. by destruct (m !! s).
    + rewrite decide_False by congruence. rewrite lookup_insert_ne by done.
      by destruct (m !! s).
  - rewrite decide_False by congruence. by rewrite lookup_insert_ne.
Qed.

(** What the loop has built after the indexes [l]. *)
Definition sqls_of (tgt : Z -> string * string) (q : Z -> string) (l : list Z) (m : SQLs) : SQLs :=
  foldl (fun m i => sqls_add m (tgt i).1 (tgt i).2 (q i)) m l.

Lemma sqls_of_at tgt q l m s d :
  sqls_at (sqls_of tgt q l m) s d = sqls_at m s d ++ map q (filter (fun i => tgt i = (s, d)) l).
Proof.
  revert m. induction l as [|i l IH]; intros m; [by rewrite app_nil_r|].
  unfold sqls_of in *. cbn [foldl]. rewrite IH, sqls_at_add, <- surjective_pairing.
  destruct (decide (tgt i = (s, d))) as [E|E].
  - rewrite filter_cons_True by done. cbn [map]. by rewrite <- app_assoc.
  - by rewrite filter_cons_False.
Qed.

Lemma Next_at r k i :
  indexes r !! k = Some i -> zlen (indexes r) < max_i64 ->
  HasNext (cursor_at r k) = true /\ GetCurrentTableIndex (cursor_at r k) = Ret i /\
  Next (cursor_at r k) = Ret (i, cursor_at r (S k)).
Proof.
  intros Hi Hm. pose proof (lookup_lt_Some _ _ _ Hi) as Hk.
  unfold HasNext, GetCurrentTableIndex, Next, cursor_at, zlen in *. cbn [indexes currentIndex rr_db rr_table].
  assert (index (indexes r) (Z.of_nat k) = Ret i) as ->
    by (apply index_Ret; split; [lia|by rewrite Nat2Z.id]).
  cbn [mbind outcome_bind]. split_and!; [lia|by destruct (_ <=? _) eqn:E; [lia|]|].
  rewrite i64_id by (unfold_int; lia). do 3 f_equal. lia.
Qed.

Section loop.
Context (restore : RouteResult -> restored) (result : RouteResult) (router : Router (T := T))
  (rule : Rule T) (q : Z -> string) (tgt : Z -> string * string).
Hypothesis Hlen : zlen (indexes result) < max_i64.
Hypothesis Hrule : GetShardRule router (rr_db result) (rr_table result) = Some rule.
Hypothesis Htgt : forall i, i ∈ indexes result -> target rule i = Ret (tgt i).
Hypothesis Hq : forall k i, indexes result !! k = Some i ->
  restored_sql (restore (cursor_at result k)) = Ret (q i).

Lemma sharding_loop_at fuel k m :
  (k + fuel = length (indexes result))%nat ->
  sharding_loop fuel restore (cursor_at result k) router m =
    Ret (sqls_of tgt q (drop k (indexes result)) m, cursor_at result (length (indexes result))).
Proof.
  revert k m. induction fuel as [|fuel IH]; intros k m Hk.
  - cbn [sharding_loop]. rewrite drop_ge by lia. by replace k with (length (indexes result)) by lia.
  - destruct (lookup_lt_is_Some_2 (indexes result) k) as [i Hi]; [lia|].
    destruct (Next_at _ _ _ Hi Hlen) as (H1 & _ & H3). cbn [sharding_loop].
    rewrite H1, (Hq _ _ Hi). cbn [mbind outcome_bind]. rewrite H3. cbn [mbind outcome_bind cursor_at rr_db rr_table].
    rewrite Hrule, (Htgt i) by (by eapply list_elem_of_lookup_2).
    cbn [mbind outcome_bind]. destruct (tgt i) as [s d] eqn:Et.
    change (mk_RouteResult _ _ _ _) with (cursor_at result (S k)).
    rewrite IH by lia. rewrite (drop_S _ _ _ Hi). unfold sqls_of. cbn [foldl]. by rewrite Et.
Qed.

Lemma generateShardingSQLs_eq :
  currentIndex result = 0 ->
  generateShardingSQLs restore result router = Ret (sqls_of tgt q (indexes result) ∅, result).
Proof.
  intros H0. unfold generateShardingSQLs.
  assert (result = cursor_at result 0) as E by (destruct result; cbn in *; by subst).
  rewrite E at 2. rewrite sharding_loop_at by lia. cbn [mbind outcome_bind]. unfold Reset, cursor_at.
  cbn. by destruct result; cbn in *; subst.
Qed.

End loop.

(** Conversely, when the statements were generated every routed table has one. *)
Section inverse.
Context (restore : RouteResult -> restored) (result : RouteResult) (router : Router (T := T)).
Hypothesis Hlen : zlen (indexes result) < max_i64.

Lemma sqls_add_mono m s d sql s' d' x : x ∈ sqls_at m s' d' -> x ∈ sqls_at (sqls_add m s d sql) s' d'.
Proof. rewrite sqls_at_add. case_decide; set_solver. Qed.

Lemma sqls_add_new m s d sql : sql ∈ sqls_at (sqls_add m s d sql) s d.
Proof. rewrite sqls_at_add, decide_True by done. set_solver. Qed.

(** The statement of the table at position [n] is among the statements [m]. *)
Definition sent_at (m : SQLs) (n : nat) (i : Z) : Prop :=
  exists rule s d q, GetShardRule router (rr_db result) (rr_table result) = Some rule /\
    target rule i = Ret (s, d) /\ restored_sql (restore (cursor_at result n)) = Ret q /\
    q ∈ sqls_at m s d.

Lemma sharding_loop_inv fuel k m m' r' :
  (k + fuel = length (indexes result))%nat ->
  sharding_loop fuel restore (cursor_at result k) router m = Ret (m', r') ->
  (forall s d x, x ∈ sqls_at m s d -> x ∈ sqls_at m' s d) /\
  (forall n i, (k <= n)%nat -> indexes result !! n = Some i -> sent_at m' n i).
Proof.
  revert k m. induction fuel as [|fuel IH]; intros k m Hk Hloop.
  - injection Hloop as <- <-. split; [done|]. intros n i Hn Hi. apply lookup_lt_Some in Hi. lia.
  - destruct (lookup_lt_is_Some_2 (indexes result) k) as [i Hi]; [lia|].
    destruct (Next_at _ _ _ Hi Hlen) as (H1 & _ & H3). cbn [sharding_loop] in Hloop.
    rewrite H1 in Hloop. apply bind_Ret in Hloop as (q & Hq & Hloop).
    rewrite H3 in Hloop. cbn [mbind outcome_bind cursor_at rr_db rr_table] in Hloop.
    destruct (GetShardRule router _ _) as [rule|] eqn:Er; [|done].
    apply bind_Ret in Hloop as ([s d] & Ht & Hloop).
    change (mk_RouteResult _ _ _ _) with (cursor_at result (S k)) in Hloop.
    apply IH in Hloop as [H4 H5]; [|lia]. split.
    + intros s' d' x Hx. by apply H4, sqls_add_mono.
    + intros n i' Hn Hi'. destruct (decide (n = k)) as [->|Hne]; [|apply H5; [lia|done]].
      simplify_eq. exists rule, s, d, q. split_and!; [done|done|done|]. apply H4, sqls_add_new.
Qed.

Lemma generateShardingSQLs_inv m r' :
  currentIndex result = 0 -> generateShardingSQLs restore result router = Ret (m, r') ->
  forall n i, indexes result !! n = Some i -> sent_at m n i.
Proof.
  intros H0 Hg n i Hi. unfold generateShardingSQLs in Hg.
  assert (result = cursor_at result 0) as E by (destruct result; cbn in *; by subst).
  rewrite E in Hg at 2. apply bind_Ret in Hg as ([m1 r1] & Hloop & [= <- <-]).
  eapply sharding_loop_inv; [|exact Hloop|lia|done]. lia.
Qed.

End inverse.

(** C29: the statements generated for a slice and a database are the texts of the
    routed tables that lie there, in the order of the table indexes: every routed
    table is written exactly once, to the place its rule says, and the cursor is
    back at its start for the next call. *)
Theorem generateShardingSQLs_spec restore (result : RouteResult) (router : Router (T := T)) rule q tgt :
  zlen (indexes result) < max_i64 -> currentIndex result = 0 ->
  GetShardRule router (rr_db result) (rr_table result) = Some rule ->
  (forall i, i ∈ indexes result -> target rule i = Ret (tgt i)) ->
  (forall k i, indexes result !! k = Some i ->
     restored_sql (restore (cursor_at result k)) = Ret (q i)) ->
  exists m, generateShardingSQLs restore result router = Ret (m, result) /\
    forall s d, sqls_at m s d = map q (filter (fun i => tgt i = (s, d)) (indexes result)).
Proof.
  intros Hl H0 Hr Ht Hq. eexists. split; [by eapply generateShardingSQLs_eq|].
  intros s d. by rewrite sqls_of_at.
Qed.

End sqls.
