(* ===== verification/PlanExample.v ===== *)
(** A small configuration on which the theorems about plans are evaluated: the
    table "tbl" of database "db" has five sub tables by [id mod 5], two on slice-0
    and three on slice-1; "tbl_global" is a global table; mycat rules move "tbl_m"
    to five databases. *)

From Stdlib Require Import Ascii String.
From S2P Require Import Prelude GoStr Hack NumKey Shard ShardMycat Models Rule.
From S2P Require Import Router PlanUtil Format Ast Dml PlanWhere PlanSQL.

#[export] Instance example_zone : LocalZone := fun _ => 0.
#[export] Instance example_floats : FloatE := fun _ _ => EmptyString.

Definition parsed (cfg : models.Shard) : Rule (gmap Z Z) :=
  match parseRule cfg with Ret b => RBase b | _ => RBase (NewDefaultRule "") end.

Definition example_shard (table ty : string) : models.Shard :=
  models.mk_Shard "db" table "" ty "id" [2; 3] ["slice-0"; "slice-1"] [] 0 ["db_[0-4]"] "" "" "" ""
    "" "" "" "" "".

Definition tbl_rule : Rule (gmap Z Z) := parsed (example_shard "tbl" ModRuleType).
Definition tbl_m_rule : Rule (gmap Z Z) := parsed (example_shard "tbl_m" MycatModRuleType).
Definition tbl_global_rule : Rule (gmap Z Z) := parsed (example_shard "tbl_global" GlobalTableRuleType).

Definition example_router : Router (T := gmap Z Z) :=
  mk_Router {["db"%string := list_to_map [("tbl"%string, tbl_rule); ("tbl_m"%string, tbl_m_rule);
     ("tbl_global"%string, tbl_global_rule)]]}
    (NewDefaultRule "slice-0").

Definition table_named (name : string) : TableName :=
  mk_TableName (NewCIStr "") (NewCIStr name) [] [].

Definition from_table {T} (t : TableName) : join T :=
  mk_join (Some (RTableSource (RTableName t) (NewCIStr ""))) None CrossJoin None [] false false.

Definition int_lit {T} (z : Z) : expr T := EValue (DInt64 z).

(** [-z] as the parser reads it: the operator applied to the literal *)
Definition minus_lit {T} (z : Z) : expr T := EOther (NUnary (OpOther "Minus")) [int_lit z].

(** Tables 1, 2 and 4 of "tbl": one statement on slice-0, two on slice-1. *)
Lemma generateShardingSQLs_spec_witness :
  exists m, generateShardingSQLs (fun rr => match GetCurrentTableIndex rr with
                                            | Ret i => written (sub_table_name "tbl" i)
                                            | _ => written "" end)
              (NewRouteResult "db" "tbl" [1; 2; 4]) example_router
            = Ret (m, NewRouteResult "db" "tbl" [1; 2; 4]) /\
    sqls_at m "slice-1" "db" = ["tbl_0002"%string; "tbl_0004"%string].
Proof.
  destruct (generateShardingSQLs_spec (fun rr => match GetCurrentTableIndex rr with
                                            | Ret i => written (sub_table_name "tbl" i)
                                            | _ => written "" end)
              (NewRouteResult "db" "tbl" [1; 2; 4]) example_router tbl_rule (sub_table_name "tbl")
              (fun i => (if i <=? 1 then "slice-0"%string else "slice-1"%string, "db"%string)))
    as (m & H1 & H2); [reflexivity|reflexivity|reflexivity| | |].
  - intros i Hi. repeat (apply elem_of_cons in Hi as [->|Hi]; [reflexivity|]). by apply elem_of_nil in Hi.
  - intros k i Hk. do 3 (destruct k as [|k]; [by injection Hk as <-|]). done.
  - exists m. split; [exact H1|]. rewrite (H2 "slice-1"%string "db"%string). reflexivity.
Defined.
