(* ===== verification/PlanRewrite.v ===== *)
(** The conditions the planner writes into the statements of the shards mean on
    every table what the condition of the client means: proxy/plan/plan_select.go
    and the decorators of IN and BETWEEN. *)

From Stdlib Require Import Ascii String.
From S2P Require Import Prelude GoStr Hack NumKey Shard ShardMycat Models Rule.
From S2P Require Import Router PlanUtil Format Ast Dml PlanWhere PlanSQL PlanExample.

Section rewrite.
Context {T} {TM : TreeMap T} {LZ : LocalZone}.

(** * A condition changes the planner's state by its hint only *)

Definition hinted (s s' : StmtInfo T) : Prop := s' = set_hint s (hintPhyDB s').

Lemma hinted_refl s : hinted s s.
Proof. by destruct s. Qed.

Lemma hinted_trans s1 s2 s3 : hinted s1 s2 -> hinted s2 s3 -> hinted s1 s3.
Proof. unfold hinted. intros -> ->. done. Qed.

Lemma hinted_result s s' : hinted s s' -> si_result s' = si_result s /\ si_db s' = si_db s /\
  si_router s' = si_router s /\ tableRules s' = tableRules s /\
  globalTableRules s' = globalTableRules s /\ tableAlias s' = tableAlias s.
Proof. by intros ->. Qed.

(** Ends the branches in which a handler returned its own state. *)
Ltac same_state :=
  invert_ret; repeat match goal with
  | H : Ret _ = Ret _ |- _ => injection H as H; subst
  | H : (match ?x with _ => _ end) = Ret _ |- _ => destruct x
  | H : (_ , _) = (_, _) |- _ => injection H as H; subst
  end; try done; try apply hinted_refl; try (unfold hinted; cbn; done).

Lemma math_compare_hinted s op l r has idx e' s' :
  handleBinaryOperationExprMathCompare s op l r = Ret (has, idx, e', s') -> hinted s s'.
Proof.
  unfold handleBinaryOperationExprMathCompare. intros H. apply bind_Ret in H as (h & _ & H).
  destruct (negb (String.eqb h "")); [injection H as <- <- <- <-; done|].
  assert (forall side c d mk o op', compare_column_value side s op' c d mk o = Ret (has, idx, e', s') ->
            hinted s s') as K.
  { intros side c d mk o op' Hc. unfold compare_column_value in Hc.
    apply bind_Ret in Hc as (need & _ & Hc). destruct need as [[rule al]|]; same_state. }
  destruct l, r; try (by eapply K); same_state.
Qed.

Lemma handleComparison_hinted e s has idx e' s' :
  handleComparisonExpr s e = Ret (has, idx, e', s') -> hinted s s'.
Proof.
  revert s has idx e' s'. induction e; intros s has idx e' s' H; cbn [handleComparisonExpr] in H;
    try (by same_state).
  - destruct op; try exact (math_compare_hinted _ _ _ _ _ _ _ _ H); try done;
      [..|unfold handleBinaryOperationExprOther in H; by same_state].
    all: apply bind_Ret in H as ([[[lh lr] l'] s1] & H1 & H); apply wrap_Ret in H1.
    all: apply bind_Ret in H as ([[[rh rr] r'] s2] & H2 & H); apply wrap_Ret in H2.
    all: destruct (mergeBinaryOperationRouteResult _ _ _ _ _); injection H as <- <- <- <-.
    all: eapply hinted_trans; [eapply IHe1; exact H1|eapply IHe2; exact H2].
  - unfold handlePatternInExpr in H. destruct (is_some sel); [done|].
    destruct e; try (injection H as <- <- <- <-; apply hinted_refl).
    apply bind_Ret in H as (need & _ & H). destruct need as [[rule al]|]; same_state.
  - unfold handleBetweenExpr in H.
    destruct e1; try (injection H as <- <- <- <-; apply hinted_refl).
    apply bind_Ret in H as (need & _ & H). destruct need as [[rule al]|]; same_state.
  - apply bind_Ret in H as ([[[h r] e1] s1] & H1 & [= <- <- <- <-]). eauto.
Qed.

Lemma handleWhere_hinted s w w' s' :
  handleWhere s w = Ret (w', s') ->
  exists l, zlen l <= zlen (indexes (si_result s)) /\
    hinted (set_result s (set_indexes (si_result s) l)) s'.
Proof.
  unfold handleWhere. destruct w as [w|].
  - intros H. apply bind_Ret in H as ([[[has r] w1] s1] & H1 & [= <- <-]). apply wrap_Ret in H1.
    apply handleComparison_hinted in H1. destruct has.
    + exists (interList (indexes (si_result s)) r). split; [apply interList_length|]. unfold hinted in *. rewrite H1. reflexivity.
    + exists (indexes (si_result s)). split; [lia|]. unfold hinted in *. rewrite H1.
      destruct s as [? ? ? ? [? ? ? ?] ? ?]; reflexivity.
  - intros [= <- <-]. exists (indexes (si_result s)). split; [lia|]. unfold hinted.
    by destruct s as [? ? ? ? [? ? ? ?] ? ?].
Qed.

(** * What the statement of a table says

    [at_table i e] is the condition written for table [i], as an expression of the
    client's language: a decorated column has its physical names, a decorated IN
    the values of the table. *)

Definition physical_column (c : ColumnName) (rule : Rule T) (isAlias : bool) (i : Z) : ColumnName :=
  let mycat := String.eqb (GetType rule) GlobalTableRuleType || IsMycatShardingRule (GetType rule) in
  mk_ColumnName
    (if negb (String.eqb (O_ (cn_Schema c)) "") && mycat
     then match GetDatabaseNameByTableIndex rule i with
          | Ret db => mk_CIStr db db | _ => cn_Schema c end
     else cn_Schema c)
    (if negb (String.eqb (O_ (cn_Table c)) "") && negb mycat && negb isAlias
     then mk_CIStr (sub_table_name (O_ (cn_Table c)) i) (sub_table_name (L_ (cn_Table c)) i)
     else cn_Table c)
    (cn_Name c).

Fixpoint at_table (i : Z) (e : expr T) : expr T :=
  match e with
  | EColumn _ | EValue _ => e
  | EColumnD c rule isAlias => EColumn (physical_column c rule isAlias i)
  | EFunc n args => EFunc n (map (at_table i) args)
  | EBinary op l r => EBinary op (at_table i l) (at_table i r)
  | EIn e vs nt sel => EIn (at_table i e) (map (at_table i) vs) nt (option_map (at_table i) sel)
  | EInD e vs nt _ m =>
      EIn (at_table i e) (value_map_get i (map (fun p => (p.1, map (at_table i) p.2)) m)) nt None
  | EBetween e a b nt | EBetweenD e a b nt _ =>
      EBetween (at_table i e) (at_table i a) (at_table i b) nt
  | EParen e => EParen (at_table i e)
  | EOther n cs => EOther n (map (at_table i) cs)
  end.

(** The expression without the databases and tables of its columns. *)
Definition bare_column (c : ColumnName) : ColumnName :=
  mk_ColumnName (mk_CIStr "" "") (mk_CIStr "" "") (cn_Name c).

Fixpoint bare (e : expr T) : expr T :=
  match e with
  | EColumn c | EColumnD c _ _ => EColumn (bare_column c)
  | EValue _ => e
  | EFunc n args => EFunc n (map bare args)
  | EBinary op l r => EBinary op (bare l) (bare r)
  | EIn e vs nt sel => EIn (bare e) (map bare vs) nt (option_map bare sel)
  | EInD e vs nt _ _ => EIn (bare e) (map bare vs) nt None
  | EBetween e a b nt | EBetweenD e a b nt _ => EBetween (bare e) (bare a) (bare b) nt
  | EParen e => EParen (bare e)
  | EOther n cs => EOther n (map bare cs)
  end.

(** What the parser gives: no decorators. *)
Fixpoint plain_expr (e : expr T) : bool :=
  match e with
  | EColumn _ | EValue _ => true
  | EColumnD _ _ _ | EInD _ _ _ _ _ | EBetweenD _ _ _ _ _ => false
  | EFunc _ l | EOther _ l => forallb plain_expr l
  | EBinary _ l r => plain_expr l && plain_expr r
  | EIn e vs _ sel =>
      plain_expr e && forallb plain_expr vs && match sel with Some q => plain_expr q | None => true end
  | EBetween e a b _ => plain_expr e && plain_expr a && plain_expr b
  | EParen e => plain_expr e
  end.

Lemma map_id_Forall {A} (f : A -> A) (p : A -> bool) l :
  Forall (fun a => p a = true -> f a = a) l -> forallb p l = true -> map f l = l.
Proof.
  induction 1 as [|a l Ha _ IH]; [done|]. cbn. intros [H1 H2]%andb_true_iff.
  by rewrite Ha, IH.
Qed.

Lemma at_table_plain i e : plain_expr e = true -> at_table i e = e.
Proof.
  induction e using expr_induction; cbn [plain_expr at_table]; intros Hp; try done.
  - f_equal. by eapply map_id_Forall.
  - apply andb_true_iff in Hp as [? ?]. by rewrite IHe1, IHe2.
  - apply andb_true_iff in Hp as [[? ?]%andb_true_iff Hsel]. rewrite IHe by done. f_equal.
    + by eapply map_id_Forall.
    + destruct sel; cbn in *; [by f_equal; auto|done].
  - apply andb_true_iff in Hp as [[? ?]%andb_true_iff ?]. by rewrite IHe1, IHe2, IHe3.
  - by rewrite IHe.
  - f_equal. by eapply map_id_Forall.
Qed.

Lemma bare_column_at c i (e : expr T) s :
  rewrite_column s c = Ret e -> bare (at_table i e) = EColumn (bare_column c).
Proof. unfold rewrite_column. intros H. by same_state. Qed.

(** The local loop of [rewrite_columns]. *)
Lemma rewrite_columns_list s i l l' :
  Forall (fun e => forall e', plain_expr e = true -> rewrite_columns s e = Ret e' ->
            bare (at_table i e') = bare e) l -> forallb plain_expr l = true ->
  (fix go (l : list (expr T)) : outcome (list (expr T)) :=
     match l with
     | [] => Ret []
     | e :: l => e' ← rewrite_columns s e; l' ← go l; Ret (e' :: l')
     end) l = Ret l' ->
  map bare (map (at_table i) l') = map bare l.
Proof.
  intros H. revert l'. induction H as [|e l He _ IH]; intros l' Hp Hl.
  - by injection Hl as <-.
  - cbn in Hp. apply andb_true_iff in Hp as [Hp1 Hp2].
    apply bind_Ret in Hl as (e' & H1 & Hl). apply bind_Ret in Hl as (k & H2 & [= <-]).
    cbn [map]. by rewrite (He e' Hp1 H1), (IH k Hp2 H2).
Qed.

(** Rewriting the columns changes their qualifiers only. *)
Lemma bare_rewrite s i e e' :
  plain_expr e = true -> rewrite_columns s e = Ret e' -> bare (at_table i e') = bare e.
Proof.
  revert e'. induction e using expr_induction; intros e' Hp Hr; cbn [rewrite_columns plain_expr] in *;
    try done.
  - by eapply bare_column_at.
  - by injection Hr as <-.
  - apply bind_Ret in Hr as (l' & Hl & [= <-]). cbn [at_table bare]. f_equal.
    by eapply rewrite_columns_list.
  - apply andb_true_iff in Hp as [? ?]. apply bind_Ret in Hr as (l' & Hl & Hr).
    apply bind_Ret in Hr as (r' & Hr' & [= <-]). cbn [at_table bare]. by rewrite (IHe1 l'), (IHe2 r').
  - apply andb_true_iff in Hp as [[? ?]%andb_true_iff Hsel]. apply bind_Ret in Hr as (e1 & He & Hr).
    apply bind_Ret in Hr as (vs' & Hvs & Hr). apply bind_Ret in Hr as (sel' & Hs & [= <-]).
    cbn [at_table bare]. rewrite (IHe e1) by done. f_equal.
    + by eapply rewrite_columns_list.
    + destruct sel as [q|]; [|by injection Hs as <-]. apply bind_Ret in Hs as (q' & Hq & [= <-]).
      cbn in *. f_equal. by apply H0.
  - apply andb_true_iff in Hp as [[? ?]%andb_true_iff ?]. apply bind_Ret in Hr as (x & Hx & Hr).
    apply bind_Ret in Hr as (y & Hy & Hr). apply bind_Ret in Hr as (z & Hz & [= <-]).
    cbn [at_table bare]. by rewrite (IHe1 x), (IHe2 y), (IHe3 z).
  - apply bind_Ret in Hr as (x & Hx & [= <-]). cbn [at_table bare]. by rewrite (IHe x).
  - apply bind_Ret in Hr as (l' & Hl & [= <-]). cbn [at_table bare]. f_equal.
    by eapply rewrite_columns_list.
Qed.

(** ** The values of an IN on the sharding column *)

(** The table of a literal. *)
Definition value_table (rule : Rule T) (e : expr T) : option Z :=
  match e with
  | EValue d => match (v ← GetValueExprResult d; FindTableIndex rule v) with Ret j => Some j | _ => None end
  | _ => None
  end.

Lemma in_values_get rule vals m m' j :
  in_values rule vals m = Ret m' ->
  Forall (fun e => is_Some (value_table rule e)) vals /\
  value_map_get j m' = value_map_get j m ++ filter (fun e => value_table rule e = Some j) vals.
Proof.
  revert m. induction vals as [|e vals IH]; intros m H.
  - injection H as <-. split; [constructor|]. by rewrite app_nil_r.
  - destruct e as [| |d| | | | | | | |]; try done. cbn [in_values] in H.
    apply bind_Ret in H as (v & Hv & H). apply bind_Ret in H as (x & Hx & H).
    assert (value_table rule (EValue d) = Some x) as Ht
      by (unfold value_table; rewrite Hv; cbn [mbind outcome_bind]; by rewrite Hx).
    destruct (IH _ H) as [H1 H2]. split; [constructor; eauto|].
    rewrite H2, value_map_get_append. destruct (j =? x) eqn:E.
    + replace j with x by lia. rewrite filter_cons_True by done. by rewrite <- app_assoc.
    + by rewrite filter_cons_False by (rewrite Ht; intros [=]; lia).
Qed.

Lemma map_at_table_literals i (l : list (expr T)) :
  forallb expr_is_value l = true -> map (at_table i) l = l.
Proof.
  induction l as [|e l IH]; [done|]. cbn. intros [He Hl]%andb_true_iff. rewrite IH by done.
  by destruct e.
Qed.

(** What is looked up in a broadcast map is the list itself. *)
Lemma value_map_get_broadcast i subs (vals : list (expr T)) :
  i ∈ subs -> value_map_get i (getBroadcastValueMap subs vals) = vals.
Proof.
  unfold value_map_get, getBroadcastValueMap. induction subs as [|x subs IH]; intros Hi.
  - by apply elem_of_nil in Hi.
  - cbn [map find fst]. destruct (x =? i) eqn:E; [done|].
    apply elem_of_cons in Hi as [->|Hi]; [lia|auto].
Qed.

Lemma forallb_filter {A} (p : A -> bool) (P : A -> Prop) `{!forall x, Decision (P x)} l :
  forallb p l = true -> forallb p (filter P l) = true.
Proof.
  induction l as [|a l IH]; [done|]. cbn [forallb]. intros [H1 H2]%andb_true_iff.
  destruct (decide (P a)); [rewrite filter_cons_True by done; cbn; by rewrite H1, IH
                           |rewrite filter_cons_False by done; auto].
Qed.

(** What a table's statement says has no decorators. *)
Lemma at_table_is_plain i e : plain_expr (at_table i e) = true.
Proof.
  assert (forall l, Forall (fun e => plain_expr (at_table i e) = true) l ->
            forallb plain_expr (map (at_table i) l) = true) as Hm.
  { induction 1 as [|e' l He _ IH]; [done|]. cbn. by rewrite He, IH. }
  induction e using expr_induction; cbn [at_table plain_expr]; try done; auto.
  - by rewrite IHe1, IHe2.
  - rewrite IHe, Hm by done. by destruct sel.
  - rewrite IHe. cbn [andb]. rewrite andb_true_r, value_map_get_map. apply Hm.
    unfold value_map_get. destruct (find _ _) as [[k l]|] eqn:E; [|constructor].
    apply find_some in E as [E _]. apply list_elem_of_In in E.
    by apply (proj1 (Forall_forall _ _) H0) in E.
  - by rewrite IHe1, IHe2, IHe3.
  - by rewrite IHe1, IHe2, IHe3.
Qed.

(** ** The text of a table's statement

    The text the decorators write for table [i] is the text of [at_table i e]:
    for conditions whose functions have no decorated columns, and databases of
    the rules that have names. *)

Fixpoint writable (i : Z) (e : expr T) : bool :=
  match e with
  | EColumn _ | EValue _ => true
  | EColumnD _ rule _ =>
      match GetDatabaseNameByTableIndex rule i with Ret db => negb (String.eqb db "") | _ => true end
  | EFunc _ l | EOther _ l => forallb plain_expr l
  | EBinary _ l r => writable i l && writable i r
  | EIn e vs _ sel => writable i e && forallb (writable i) vs &&
      match sel with Some q => writable i q | None => true end
  | EInD e _ _ _ m => writable i e && forallb (fun p => forallb (writable i) p.2) m
  | EBetween e a b _ | EBetweenD e a b _ _ => writable i e && writable i a && writable i b
  | EParen e => writable i e
  end.

Section text.
Context {FE : FloatE} (rf : Z) (rr : RouteResult) (i : Z).
Hypothesis Hcur : GetCurrentTableIndex rr = Ret i.

(** A column under its physical name is what the decorator writes. *)
Lemma physical_column_Restore c rule isAlias :
  writable i (EColumnD c rule isAlias) = true ->
  status (ColumnNameDecorator_Restore rf rr c rule isAlias) = Ret tt ->
  ColumnName_Restore rf (physical_column c rule isAlias i) =
    ColumnNameDecorator_Restore rf rr c rule isAlias.
Proof.
  unfold ColumnNameDecorator_Restore, ColumnName_Restore, physical_column, mycat_db. rewrite Hcur.
  cbn [cn_Schema cn_Table cn_Name writable]. intros Hdb [Hs _]%then_Ret. f_equal; [|f_equal].
  - destruct (String.eqb (O_ (cn_Schema c)) "") eqn:E; cbn [negb andb] in *; [by rewrite E|].
    destruct (String.eqb (GetType rule) GlobalTableRuleType); cbn [orb] in *;
      [|destruct (IsMycatShardingRule _)]; [..|by rewrite E].
    all: destruct (GetDatabaseNameByTableIndex rule i) as [db| |] eqn:Ed; cbn [O_] in *; by rewrite ?Hdb.
  - assert (forall t, String.eqb (sub_table_name t i) "" = false) as Hsub.
    { intros t. unfold sub_table_name. by destruct t. }
    destruct (String.eqb (O_ (cn_Table c)) "") eqn:E; cbn [negb andb] in *; [by rewrite E|].
    destruct (String.eqb (GetType rule) GlobalTableRuleType); cbn [orb negb andb] in *; [by rewrite E|].
    destruct (IsMycatShardingRule _), isAlias; cbn [negb andb O_]; rewrite ?E, ?Hsub; done.
Qed.

Lemma map_same_Forall {A B} (f g : A -> B) (p : A -> bool) (q : B -> Prop) l :
  Forall (fun a => p a = true -> q (f a) -> g a = f a) l -> forallb p l = true ->
  Forall q (map f l) -> map g l = map f l.
Proof.
  induction 1 as [|a l Ha _ IH]; [done|]. cbn. intros [H1 H2]%andb_true_iff [Hq ?]%Forall_cons.
  by rewrite Ha, IH.
Qed.

Lemma annotated_list fmt (l : list restored) :
  Forall (fun r => status r = Ret tt) (map (annotate fmt) l) -> Forall (fun r => status r = Ret tt) l.
Proof. intros H%Forall_map. eapply Forall_impl; [exact H|]. cbn. intros r. apply annotate_Ret. Qed.

Lemma annotated_same fmt fmt' (l : list restored) :
  Forall (fun r => status r = Ret tt) l -> map (annotate fmt) l = map (annotate fmt') l.
Proof. induction 1 as [|r l Hr _ IH]; [done|]. cbn. by rewrite IH, !annotate_ok. Qed.

Lemma Restore_at_table e :
  writable i e = true -> status (Restore rf rr e) = Ret tt ->
  Restore rf rr (at_table i e) = Restore rf rr e.
Proof.
  assert (forall l, forallb plain_expr l = true -> map (at_table i) l = l) as Hplain.
  { intros l Hl. eapply map_id_Forall; [|exact Hl]. apply Forall_true. intros. by apply at_table_plain. }
  induction e using expr_induction; intros Hw Hok; cbn [at_table] in *; try done.
  - cbn [Restore] in *; restoring. apply annotate_Ret in Hok. rewrite annotate_ok by done.
    by apply physical_column_Restore.
  - cbn [writable] in Hw. by rewrite Hplain.
  - cbn [Restore writable] in *; restoring. apply andb_true_iff in Hw as [? ?].
    apply then_Ret in Hok as [H1%annotate_Ret [_ H2%annotate_Ret]%then_Ret]. by rewrite IHe1, IHe2.
  - cbn [Restore writable] in *; restoring. rewrite !list_Restore_map in *.
    apply andb_true_iff in Hw as [[He Hvs]%andb_true_iff Hsel].
    apply then_Ret in Hok as [H1%annotate_Ret [_ H2]%then_Ret]. rewrite IHe by done. f_equal. f_equal.
    destruct sel as [q|]; cbn [option_map].
    + cbn in H0. apply annotate_Ret in H2. by rewrite H0.
    + apply then_Ret in H2 as [_ [H2 _]%then_Ret]. apply separated_Ret, annotated_list in H2.
      rewrite (map_map (at_table i) (Restore rf rr)).
      by rewrite (map_same_Forall (Restore rf rr) (fun e => Restore rf rr (at_table i e)) (writable i)
                    (fun r => status r = Ret tt)).
  - cbn [Restore writable] in *; restoring. rewrite !list_Restore_map, map_Restore_map in *. rewrite Hcur in *.
    apply andb_true_iff in Hw as [He Hm].
    apply then_Ret in Hok as [H1%annotate_Ret [_ [_ [H2 _]%then_Ret]%then_Ret]%then_Ret].
    rewrite IHe by done. rewrite !annotate_ok by done. f_equal. f_equal. f_equal. f_equal.
    rewrite value_map_get_map in H2. rewrite !value_map_get_map. apply separated_Ret, annotated_list in H2.
    rewrite (map_map (at_table i) (Restore rf rr)).
    assert (map (fun e => Restore rf rr (at_table i e)) (value_map_get i m) =
            map (Restore rf rr) (value_map_get i m)) as ->; [|f_equal; by apply annotated_same].
    eapply (map_same_Forall (Restore rf rr) _ (writable i)); [| |exact H2].
    all: unfold value_map_get; destruct (find _ _) as [[x l]|] eqn:E; try done.
    all: apply find_some in E as [E _].
    + apply list_elem_of_In in E. by apply (proj1 (Forall_forall _ _) H0) in E.
    + by apply (proj1 (forallb_forall _ _) Hm) in E.
  - cbn [Restore writable] in *; restoring. apply andb_true_iff in Hw as [[W1 W2]%andb_true_iff W3].
    apply then_Ret in Hok as [H1%annotate_Ret [_ [H2%annotate_Ret [_ H3%annotate_Ret]%then_Ret]%then_Ret]%then_Ret].
    by rewrite IHe1, IHe2, IHe3.
  - cbn [Restore writable] in *; restoring. apply andb_true_iff in Hw as [[W1 W2]%andb_true_iff W3].
    apply then_Ret in Hok as [H1%annotate_Ret [_ [H2%annotate_Ret [_ H3%annotate_Ret]%then_Ret]%then_Ret]%then_Ret].
    by rewrite IHe1, IHe2, IHe3, !annotate_ok.
  - cbn [Restore writable] in *; restoring. apply then_Ret in Hok as [_ [H%annotate_Ret _]%then_Ret]. by rewrite IHe.
  - cbn [writable] in Hw. by rewrite Hplain.
Qed.

End text.

(** AND and OR, which the planner looks into *)
Definition logical (op : opcode) : bool := match op with LogicAnd | LogicOr => true | _ => false end.

Lemma hinted_resolves rule s s' : hinted s s' -> resolves rule s -> resolves rule s'.
Proof. by intros ->. Qed.

(** A decorated operand is the column under its physical name. *)
Lemma decorate_column_bare side s c i e :
  decorate_column side s c = Ret e -> bare (at_table i e) = EColumn (bare_column c).
Proof.
  unfold decorate_column. intros H. apply bind_Ret in H as ([[r al]|] & _ & [= <-]); reflexivity.
Qed.

Lemma decorate_operand_bare side s e i e' :
  plain_expr e = true -> decorate_operand side s e = Ret e' -> bare (at_table i e') = bare e.
Proof.
  intros Hp H. destruct e; cbn [decorate_operand] in H;
    try (injection H as <-; by rewrite at_table_plain). by eapply decorate_column_bare.
Qed.

Lemma compare_bare s op l r i has idx e' s' :
  logical op = false -> plain_expr (EBinary op l r) = true ->
  handleComparisonExpr s (EBinary op l r) = Ret (has, idx, e', s') ->
  bare (at_table i e') = bare (EBinary op l r).
Proof.
  intros Hop Hp H. pose proof (at_table_plain i _ Hp) as Hsame.
  cbn in Hp. apply andb_true_iff in Hp as [Hl Hr].
  pose proof (at_table_plain i l Hl) as Hl'. pose proof (at_table_plain i r Hr) as Hr'.
  assert (handleBinaryOperationExprMathCompare s op l r = Ret (has, idx, e', s') ->
          bare (at_table i e') = bare (EBinary op l r)) as Hm.
  { clear H. unfold handleBinaryOperationExprMathCompare. intros H. apply bind_Ret in H as (h & _ & H).
    destruct (negb (String.eqb h "")); [injection H as <- <- <- <-; by rewrite Hsame|].
    assert (forall side op' c d mk, compare_column_value side s op' c d mk (EBinary op l r) = Ret (has, idx, e', s') ->
       (forall e, at_table i (mk e) = mk (at_table i e)) ->
       (forall c', bare_column c' = bare_column c -> bare (mk (EColumn c')) = bare (EBinary op l r)) ->
       bare (at_table i e') = bare (EBinary op l r)) as K.
    { intros side op' c d mk Hc Hmk Hb. unfold compare_column_value in Hc.
      apply bind_Ret in Hc as (need & _ & Hc). destruct need as [[rule al]|];
        [|injection Hc as <- <- <- <-; by rewrite Hsame].
      assert (e' = mk (EColumnD c rule al)) as ->.
      { destruct (String.eqb (GetType rule) GlobalTableRuleType); [by injection Hc|].
        apply bind_Ret in Hc as (v & _ & Hc). by apply bind_Ret in Hc as (ix & _ & [= <- <- <- <-]). }
      rewrite Hmk. by apply Hb. }
    destruct l, r; try (injection H as <- <- <- <-; by rewrite Hsame); try done;
      try (eapply K; [exact H|done|intros c' Hc'; cbn; by rewrite Hc']).
    all: try (apply bind_Ret in H as (x & Hx & [= <- <- <- <-]); cbn [at_table bare];
         apply (decorate_column_bare _ _ _ i) in Hx; cbn [at_table] in Hl', Hr'; rewrite Hx; congruence).
    apply bind_Ret in H as (x & Hx & H). apply bind_Ret in H as (y & Hy & [= <- <- <- <-]).
    cbn [at_table bare]. by rewrite (decorate_column_bare _ _ _ i _ Hx), (decorate_column_bare _ _ _ i _ Hy). }
  cbn [handleComparisonExpr] in H. destruct op; try done; auto.
  unfold handleBinaryOperationExprOther in H. apply bind_Ret in H as (x & Hx & H).
  apply bind_Ret in H as (y & Hy & [= <- <- <- <-]). cbn [at_table bare].
  by rewrite (decorate_operand_bare _ _ _ i _ Hl Hx), (decorate_operand_bare _ _ _ i _ Hr Hy).
Qed.

Lemma between_bare s e a b nt i has idx e' s' :
  plain_expr (EBetween e a b nt) = true ->
  handleBetweenExpr s e a b nt = Ret (has, idx, e', s') ->
  bare (at_table i e') = bare (EBetween e a b nt).
Proof.
  intros Hp H. pose proof (at_table_plain i _ Hp) as Hsame. unfold handleBetweenExpr in H.
  destruct e; try (injection H as <- <- <- <-; by rewrite Hsame).
  apply bind_Ret in H as (need & _ & H).
  destruct need as [[rule al]|]; [|injection H as <- <- <- <-; by rewrite Hsame].
  apply bind_Ret in H as (idx' & _ & [= <- <- <- <-]). cbn [at_table] in *.
  injection Hsame as Ha Hb. cbn [bare]. by rewrite Ha, Hb.
Qed.

Section meaning.
Context (num : gval -> option Z) (row : string -> gval) (truth : expr T -> bool).
Context (rule : Rule T) `{RO : !RoutesOrdered rule num} (k i : Z).
Hypothesis Hst : stored num row rule k i.
Hypothesis Hty : GetType rule <> GlobalTableRuleType.

(** What the planner does not look into does not depend on how its columns are
    qualified: the physical names denote the columns of the client's table. *)
Hypothesis Htruth : forall e, truth (bare e) = truth e.

#[local] Abbreviation eval := (PlanWhere.eval num row truth).
#[local] Abbreviation lits_ok := (PlanWhere.lits_ok num (GetShardingColumn rule)).

Lemma truth_bare e f : bare e = bare f -> truth e = truth f.
Proof. intros H. rewrite <- (Htruth e), <- (Htruth f). by f_equal. Qed.

(** The values of the row's table decide the IN: an equal value lies in it. *)
Lemma in_values_decides vals bs :
  Forall (fun e => is_Some (value_table rule e)) vals -> mapM (expr_num num) vals = Some bs ->
  exists bs', mapM (expr_num num) (filter (fun e => value_table rule e = Some i) vals) = Some bs' /\
    existsb (Z.eqb k) bs' = existsb (Z.eqb k) bs.
Proof.
  intros Hall. revert bs. induction Hall as [|e vals [j Hj] _ IH]; intros bs Hbs.
  - exists []. by injection Hbs as <-.
  - cbn [mapM] in Hbs. destruct (expr_num num e) as [b|] eqn:Eb; [|done].
    cbn [mbind option_bind] in Hbs. destruct (mapM (expr_num num) vals) as [bs0|] eqn:Em; [|done].
    injection Hbs as <-. destruct (IH bs0 eq_refl) as (bs' & H1 & H2). cbn [existsb].
    destruct (decide (value_table rule e = Some i)) as [E|E].
    + rewrite filter_cons_True by done. exists (b :: bs'). cbn [mapM]. rewrite Eb, H1. cbn.
      by rewrite H2.
    + rewrite filter_cons_False by done. exists bs'. split; [done|]. rewrite H2.
      destruct (k =? b) eqn:Ek; [|done]. exfalso. apply E. rewrite Hj. f_equal.
      unfold value_table in Hj. destruct e as [| |d| | | | | | | |]; try done.
      unfold expr_num, datum_num in Eb.
      destruct (GetValueExprResult d) as [v| |] eqn:Ev; [|done..]. cbn [mbind outcome_bind] in Hj.
      destruct (FindTableIndex rule v) as [j'| |] eqn:Ef; [|done..]. injection Hj as ->.
      replace b with k in Eb by lia.
      exact (ro_same _ _ _ _ _ Eb (st_num _ _ _ _ _ Hst) Ef (st_find _ _ _ _ _ Hst)).
Qed.

Lemma in_meaning s e vals nt sel has idx e' s' :
  resolves rule s -> lits_ok (EIn e vals nt sel) = true -> plain_expr (EIn e vals nt sel) = true ->
  handlePatternInExpr s e vals nt sel = Ret (has, idx, e', s') ->
  eval (at_table i e') = eval (EIn e vals nt sel).
Proof.
  intros Hs Hl Hp H. unfold handlePatternInExpr in H. destruct sel as [q|]; [done|]. cbn [is_some] in H.
  destruct e; try (injection H as <- <- <- <-; by rewrite at_table_plain).
  apply bind_Ret in H as (need & Hn%wrap_Ret%wrap_Ret & H).
  destruct need as [[r al]|]; [|injection H as <- <- <- <-; by rewrite at_table_plain].
  apply (resolves_need rule Hty _ _ _ _ Hs) in Hn as ->.
  apply bind_Ret in H as ([idx' m] & Hg%wrap_Ret%wrap_Ret & [= <- <- <- <-]).
  cbn [at_table]. rewrite value_map_get_map.
  unfold getPatternInRouteResult in Hg.
  replace (String.eqb (GetType rule) GlobalTableRuleType) with false in Hg
    by (symmetry; by apply String.eqb_neq).
  destruct (forallb expr_is_value vals) eqn:Ev; [|done]. cbn [negb] in Hg.
  assert (forall vs, vs = vals -> eval (EIn (EColumn (physical_column c rule al i)) vs nt None) =
            eval (EIn (EColumn c) vals nt None)) as Hsame.
  { intros vs ->. cbn [PlanWhere.eval]. unfold column_num. cbn [physical_column cn_Name].
    destruct (num _); [|by apply truth_bare]. destruct (mapM _ vals); [done|by apply truth_bare]. }
  assert (m = getBroadcastValueMap (GetSubTableIndexes rule) vals ->
          eval (EIn (EColumn (physical_column c rule al i)) (map (at_table i) (value_map_get i m)) nt None)
          = eval (EIn (EColumn c) vals nt None)) as Hb.
  { intros ->. apply Hsame. rewrite value_map_get_broadcast by apply Hst.
    by apply map_at_table_literals. }
  destruct nt; [injection Hg as <- <-; by apply Hb|].
  destruct (String.eqb (GetShardingColumn rule) (L_ (cn_Name c))) eqn:Ec; cbn [negb] in Hg;
    [|injection Hg as <- <-; by apply Hb].
  apply String.eqb_eq in Ec. apply bind_Ret in Hg as (m0 & Hm & [= <- <-]).
  destruct (in_values_get rule vals [] m0 i Hm) as [Hall Hget]. cbn [value_map_get find app] in Hget.
  rewrite Hget, map_at_table_literals by (by apply forallb_filter).
  cbn [PlanWhere.eval PlanWhere.lits_ok] in *. unfold column_num. cbn [physical_column cn_Name].
  rewrite <- Ec in Hl |- *. rewrite String.eqb_refl in Hl. rewrite (st_num _ _ _ _ _ Hst).
  destruct (mapM (expr_num num) vals) as [bs|] eqn:Ebs; [|done].
  destruct (in_values_decides vals bs Hall Ebs) as (bs' & -> & Hex). by rewrite Hex.
Qed.

(** The qualifiers do not matter to the meaning. *)
Lemma expr_num_bare vs : forallb plain_expr vs = true -> mapM (expr_num num) (map bare vs) = mapM (expr_num num) vs.
Proof.
  induction vs as [|v vs IH]; [done|]. cbn [forallb map mapM]. intros [Hv Hvs]%andb_true_iff.
  rewrite IH by done. by destruct v.
Qed.

Lemma eval_compare_bare op l r :
  logical op = false -> plain_expr (EBinary op l r) = true ->
  eval (EBinary op (bare l) (bare r)) = eval (EBinary op l r).
Proof.
  intros Hop [Hl Hr]%andb_true_iff.
  assert (truth (EBinary op (bare l) (bare r)) = truth (EBinary op l r)) as Ht
    by exact (Htruth (EBinary op l r)).
  assert (forall c, column_num num row (bare_column c) = column_num num row c) as Hc by done.
  destruct op, l, r; try done; cbn [bare PlanWhere.eval compare] in *; rewrite ?Hc, ?Ht; try done.
Qed.

Lemma eval_bare e : plain_expr e = true -> eval (bare e) = eval e.
Proof.
  induction e using expr_induction; intros Hp; try done;
    try match goal with |- _ = PlanWhere.eval _ _ _ ?e => exact (Htruth e) end.
  - destruct (logical op) eqn:Hop; [|by apply eval_compare_bare].
    cbn in Hp. apply andb_true_iff in Hp as [? ?].
    destruct op; try done; cbn [bare PlanWhere.eval]; by rewrite IHe1, IHe2.
  - pose proof (Htruth (EIn e vs nt sel)) as Ht. cbn [plain_expr] in Hp.
    apply andb_true_iff in Hp as [[He Hvs]%andb_true_iff Hsel].
    destruct e; try exact Ht; try done. cbn [bare PlanWhere.eval] in *.
    rewrite expr_num_bare, Ht by done. done.
  - pose proof (Htruth (EBetween e1 e2 e3 nt)) as Ht. cbn [plain_expr] in Hp.
    destruct e1; try exact Ht; try done. destruct e2; try exact Ht; try (by rewrite andb_false_r in Hp).
    destruct e3; try exact Ht; try (by rewrite andb_false_r in Hp). cbn [bare PlanWhere.eval] in *.
    by rewrite Ht.
  - cbn in *. auto.
Qed.

(** Handlers that change only the qualifiers of columns keep the meaning. *)
Lemma same_bare_same_eval e e' :
  plain_expr e = true -> bare (at_table i e') = bare e -> eval (at_table i e') = eval e.
Proof.
  intros Hp Hb. rewrite <- (eval_bare e) by done. rewrite <- Hb. symmetry. apply eval_bare.
  apply at_table_is_plain.
Qed.

(** Comparisons keep their values; an IN on the sharding column keeps the values of
    the table only, and those decide it. *)
Lemma rewritten_condition_lemma e s has idx e' s' :
  resolves rule s -> lits_ok e = true -> plain_expr e = true ->
  handleComparisonExpr s e = Ret (has, idx, e', s') -> eval (at_table i e') = eval e.
Proof.
  revert s has idx e' s'. induction e using expr_induction; intros s has idx e' s' Hs Hl Hp Hc.
  5: { destruct (logical op) eqn:Hop; [|by apply same_bare_same_eval; [|eapply compare_bare]].
       cbn in Hp. apply andb_true_iff in Hp as [? ?].
       destruct op; try done; cbn [handleComparisonExpr] in Hc;
         apply bind_Ret in Hc as ([[[lh lr] l'] s1] & H1%wrap_Ret & Hc);
         apply bind_Ret in Hc as ([[[rh rr] r'] s2] & H2%wrap_Ret & Hc);
         destruct (mergeBinaryOperationRouteResult _ _ _ _ _); injection Hc as <- <- <- <-;
         cbn [at_table PlanWhere.eval];
         cbn [PlanWhere.lits_ok] in Hl; apply andb_true_iff in Hl as [? ?];
         rewrite (IHe1 s lh lr l' s1), (IHe2 s1 rh rr r' s2); try done;
         by eapply hinted_resolves; [eapply handleComparison_hinted|]. }
  5: by eapply in_meaning.
  8: { cbn [handleComparisonExpr] in Hc. apply bind_Ret in Hc as ([[[h r] e1] s1] & H1 & [= <- <- <- <-]).
       cbn [at_table PlanWhere.eval]. eauto. }
  all: apply same_bare_same_eval; try done; cbn [handleComparisonExpr] in Hc.
  all: try (apply bind_Ret in Hc as (e1 & H1 & [= <- <- <- <-]); by eapply bare_rewrite).
  - apply bind_Ret in Hc as (e1 & H1 & [= <- <- <- <-]). done.
  - by eapply between_bare.
Qed.

End meaning.

(** C3: for every table sharded by an integer column with a rule of the configuration
    (the rules, keys and conditions of [where_finds_rows]), the condition written into
    the statement of a sub table is the text of an ordinary syntax tree which means, for
    every row of that sub table, what the tree of the client's condition means.
    Comparisons keep their values; an IN on the sharding column keeps the values of the
    table only, and those decide it. The functions of the condition have no column of
    the sharded table among their arguments, and the tables have databases with names
    ([writable]). That a server reads the text of every tree as that tree is not
    claimed: see [not_comparison_same_text]. *)
Theorem rewritten_condition_equivalent `{!TreeMapOk T} {FE : FloatE} cfg b row truth x i s w w' s' rf rr :
  tables_ok cfg -> int_rule cfg -> parseRule cfg = Ret b ->
  int_num (row (GetShardingColumn (RBase b))) = Some x ->
  FindTableIndex (RBase b) (row (GetShardingColumn (RBase b))) = Ret i ->
  resolves (RBase b) s -> lits_ok int_num (GetShardingColumn (RBase b)) w = true ->
  plain_expr w = true -> (forall e, truth (bare e) = truth e) ->
  handleWhere s (Some w) = Ret (Some w', s') ->
  GetCurrentTableIndex rr = Ret i -> writable i w' = true -> status (Restore rf rr w') = Ret tt ->
  exists w_i, plain_expr w_i = true /\ Restore rf rr w' = Restore rf rr w_i /\
    eval int_num row truth w_i = eval int_num row truth w.
Proof.
  intros Ht Hr Hp Hx Hf Hs Hl Hpl Htr Hw Hcur Hwr Hok.
  destruct (configured_stored _ _ _ _ _ Ht Hr Hp Hx Hf) as [Hst Hty].
  exists (at_table i w'). split_and!; [apply at_table_is_plain| |].
  - symmetry. by apply Restore_at_table.
  - cbn [handleWhere] in Hw. apply bind_Ret in Hw as ([[[has r] w1] s1] & Hw%wrap_Ret & [= <- _]).
    assert (RoutesOrdered (RBase b) int_num) by (by eapply int_rule_ordered).
    by eapply (rewritten_condition_lemma int_num row truth (RBase b) x i).
Qed.

End rewrite.

(** * Witnesses

    [id IN (1, 6, 12) AND (tbl.id >= 3 OR name = 'x')] on table 1 of five. *)
Definition example_condition : expr (gmap Z Z) :=
  EBinary LogicAnd
    (EIn (EColumn (column "id")) [int_lit 1; int_lit 6; int_lit 12] false None)
    (EParen (EBinary LogicOr
      (EBinary GE (EColumn (mk_ColumnName (NewCIStr "") (NewCIStr "tbl") (NewCIStr "id"))) (int_lit 3))
      (EBinary EQ (EColumn (column "name")) (EValue (DString "utf8" "x"))))).

Definition example_info : StmtInfo (gmap Z Z) :=
  mk_StmtInfo "db" example_router {["tbl"%string := tbl_rule]} ∅
    (NewRouteResult "db" "tbl" (GetSubTableIndexes tbl_rule)) ∅ "".



Lemma example_shard_tables table ty : tables_ok (example_shard table ty).
Proof. split; [repeat constructor; lia|unfold_int; cbn; lia]. Qed.

Lemma example_info_resolves : resolves tbl_rule example_info.
Proof.
  split; cbn; intros t r Hr; [|by rewrite lookup_empty in Hr].
  by apply lookup_singleton_Some in Hr as [_ <-].
Qed.

Definition example_rewritten : expr (gmap Z Z) * StmtInfo (gmap Z Z) :=
  match handleWhere example_info (Some example_condition) with
  | Ret (Some w, s) => (w, s)
  | _ => (example_condition, example_info)
  end.

Lemma rewritten_condition_equivalent_witness :
  let w' := example_rewritten.1 in
  exists w_i : expr (gmap Z Z),
    handleWhere example_info (Some example_condition) = Ret (Some w', example_rewritten.2) /\
    text (Restore EscapeRestoreFlags (NewRouteResult "db" "tbl" [1]) w') =
      "`id` IN (1,6) AND (`tbl_0001`.`id`>=3 OR `name`=_UTF8'x')"%string /\
    Restore EscapeRestoreFlags (NewRouteResult "db" "tbl" [1]) w' =
      Restore EscapeRestoreFlags (NewRouteResult "db" "tbl" [1]) w_i /\
    eval int_num (fun _ => GInt KInt64 6) (fun _ => true) w_i = true.
Proof.
  destruct (rewritten_condition_equivalent (example_shard "tbl" ModRuleType) (base_of tbl_rule)
              (fun _ => GInt KInt64 6) (fun _ => true) 6 1 example_info example_condition
              example_rewritten.1 example_rewritten.2 EscapeRestoreFlags (NewRouteResult "db" "tbl" [1]))
    as (w_i & _ & Htext & Hev);
    [apply example_shard_tables|right; left; reflexivity|reflexivity|reflexivity|reflexivity
    |exact example_info_resolves|reflexivity|reflexivity|reflexivity|reflexivity|reflexivity
    |reflexivity|vm_compute; reflexivity|].
  exists w_i. split; [reflexivity|]. split; [vm_compute; reflexivity|]. split; [exact Htext|].
  etransitivity; [exact Hev|reflexivity].
Defined.
