(* ===== verification/Sequence.v ===== *)
(** proxy/sequence: global sequences. A [MySQLSequence] takes batches of numbers
    from a database shared by all proxies and hands them out one by one;
    [SequenceManager] finds the sequence of a table. *)

From Stdlib Require Import Ascii String.
From S2P Require Import Prelude GoStr.

(** * The interface Sequence and its manager *)

(** [NextSeq] changes the sequence and may fail. *)
Class Sequence (S : Type) := {
  GetPKName : S -> string;
  NextSeq : S -> outcome Z * S }.

Abbreviation SequenceManager S := (gmap string (gmap string S)).

Definition NewSequenceManager {S} : SequenceManager S := ∅.

(** The map of the database is created before the table is looked up. *)
Definition SetSequence {S} (m : SequenceManager S) (db table : string) (seq : S) :
    outcome unit * SequenceManager S :=
  let dbs := default ∅ (m !! db) in
  match dbs !! table with
  | Some _ => (Err (Errorf "already set sequence, db: %s, table: %s"), <[db := dbs]> m)
  | None => (Ret tt, <[db := <[table := seq]> dbs]> m)
  end.

Definition GetSequence {S} (m : SequenceManager S) (db table : string) : option S :=
  match m !! db with Some dbs => dbs !! table | None => None end.

Lemma GetSequence_insert {S} (m : SequenceManager S) db dbs d t :
  GetSequence (<[db := dbs]> m) d t = if decide (d = db) then dbs !! t else GetSequence m d t.
Proof.
  unfold GetSequence. destruct (decide (d = db)) as [->|Hd]; [by rewrite lookup_insert_eq|].
  by rewrite lookup_insert_ne.
Qed.

Lemma GetSequence_default {S} (m : SequenceManager S) db t :
  GetSequence m db t = default ∅ (m !! db) !! t.
Proof. unfold GetSequence. by destruct (m !! db). Qed.

(** A sequence that was set is the one found, and setting it again is refused and
    changes nothing that can be found. *)
Lemma SetSequence_GetSequence {S} (m : SequenceManager S) db table seq :
  match GetSequence m db table with
  | Some _ => (SetSequence m db table seq).1 = Err (Errorf "already set sequence, db: %s, table: %s") /\
      forall d t, GetSequence (SetSequence m db table seq).2 d t = GetSequence m d t
  | None => (SetSequence m db table seq).1 = Ret tt /\
      forall d t, GetSequence (SetSequence m db table seq).2 d t =
        if decide ((d, t) = (db, table)) then Some seq else GetSequence m d t
  end.
Proof.
  rewrite GetSequence_default. unfold SetSequence.
  destruct (default ∅ (m !! db) !! table) as [s|] eqn:E; cbn [fst snd]; (split; [done|]);
    intros d t; rewrite GetSequence_insert; case_decide as Hd; subst.
  - by rewrite GetSequence_default.
  - done.
  - destruct (decide (t = table)) as [->|Ht].
    + by rewrite lookup_insert_eq, decide_True.
    + rewrite lookup_insert_ne, decide_False by congruence. by rewrite GetSequence_default.
  - by rewrite decide_False by congruence.
Qed.

(** * MySQLSequence *)

Record MySQLSequence := mk_MySQLSequence {
  pkName : string; seqName : string; curr : Z; max_ : Z; seq_sql : string }.

Definition NewMySQLSequence (seqName pkName : string) : MySQLSequence :=
  mk_MySQLSequence pkName seqName 0 0
    (String.append "SELECT mycat_seq_nextval('" (String.append seqName "') as seq_val")).

(** The value [strconv.ParseInt] returns beside its error: the nearest integer
    when the number is out of range, 0 when it is no number. *)
Definition ParseInt_value (s : string) : Z :=
  match ParseInt s with
  | Ret v => v
  | Err e => if decide (e = ErrRange) then
               match s with String "-" _ => min_i64 | _ => max_i64 end
             else 0
  | Panic _ => 0
  end.

(** The database is a parameter: [fetch] is a master connection of the slice in
    database mycat, the execution of the sequence's statement and the string in
    row 0, column 0 of its result. *)
Section mysql.
Context {D : Type} (fetch : string -> D -> outcome string * D).

Definition getSeqFromDB (s : MySQLSequence) (db : D) : outcome unit * MySQLSequence * D :=
  let '(r, db') := fetch (seq_sql s) db in
  match r with
  | Ret ret =>
      match Split "," ret with
      | [ns0; ns1] =>
          let curr := ParseInt_value ns0 in
          let incr := ParseInt_value ns1 in
          (Ret tt, mk_MySQLSequence (pkName s) (seqName s) curr (i64 (curr + incr)) (seq_sql s), db')
      | _ => (Err (Errorf "invalid mycat sequence value %s %s"), s, db')
      end
  | Err e => (Err e, s, db')
  | Panic p => (Panic p, s, db')
  end.

(** The lock of the sequence is held, so the calls on one sequence are one after
    the other. *)
Definition MySQLSequence_NextSeq (s : MySQLSequence) (db : D) : outcome Z * MySQLSequence * D :=
  let '(r, s', db') := if max_ s <=? curr s then getSeqFromDB s db else (Ret tt, s, db) in
  match r with
  | Ret _ =>
      let curr := i64 (curr s' + 1) in
      (Ret curr, mk_MySQLSequence (pkName s') (seqName s') curr (max_ s') (seq_sql s'), db')
  | Err e => (Err e, s', db')
  | Panic p => (Panic p, s', db')
  end.

#[export] Instance MySQLSequence_Sequence : Sequence (MySQLSequence * D) := {|
  GetPKName s := pkName s.1;
  NextSeq s := let '(r, s', db') := MySQLSequence_NextSeq s.1 s.2 in (r, (s', db')) |}.

(** ** Several proxies and one database

    The sequences of all proxies; [run] serves the calls in the order of the
    schedule, which names the sequence that is called. *)
Definition call (i : nat) (st : list MySQLSequence * D) : outcome Z * (list MySQLSequence * D) :=
  match st.1 !! i with
  | None => (Panic "index out of range", st)
  | Some s => let '(r, s', db') := MySQLSequence_NextSeq s st.2 in (r, (<[i := s']> st.1, db'))
  end.

Fixpoint run (schedule : list nat) (st : list MySQLSequence * D) : list (nat * outcome Z) :=
  match schedule with
  | [] => []
  | i :: rest => let '(r, st') := call i st in (i, r) :: run rest st'
  end.

End mysql.

(** * Uniqueness

    What mycat_seq_nextval promises: its answers are "value,increment" with values that
    grow by the increment. The function of the documentation advances the counter first
    and answers the new value, this one the value before: the same answers from another
    start. It never fails. *)
Definition counter_db (incr : Z) (sql : string) (c : Z) : outcome string * Z :=
  (Ret (String.append (FormatInt c) (String.append "," (FormatInt incr))), c + incr).

Definition given (l : list (nat * outcome Z)) : list Z :=
  omap (fun r => match r.2 with Ret v => Some v | _ => None end) l.

Definition no_comma (s : string) : Prop := Split "," s = [s].

Lemma Split_app_comma s t : no_comma s -> Split "," (String.append s (String "," t)) = s :: Split "," t.
Proof.
  unfold no_comma. revert t. induction s as [|c s IH]; intros t Hs.
  - reflexivity.
  - rewrite append_cons. cbn [Split] in *. destruct (Ascii.eqb c ",") eqn:E.
    + destruct (Split "," s); discriminate.
    + destruct (Split "," s) as [|x xs] eqn:Es; [injection Hs as <-; done|].
      injection Hs as Hx Hxs. subst. by rewrite IH.
Qed.

Lemma no_comma_cons c s : Ascii.eqb c "," = false -> no_comma s -> no_comma (String c s).
Proof. unfold no_comma. intros Hc Hs. cbn [Split]. by rewrite Hc, Hs. Qed.

Lemma no_comma_digit d s : 0 <= d < 10 -> no_comma s -> no_comma (String (digit d) s).
Proof.
  intros Hd. apply no_comma_cons.
  assert (d = 0 \/ d = 1 \/ d = 2 \/ d = 3 \/ d = 4 \/ d = 5 \/ d = 6 \/ d = 7 \/ d = 8 \/ d = 9)
    as H by lia. by repeat destruct H as [->|H]; subst.
Qed.

Lemma no_comma_fmt fuel n acc : 0 <= n -> no_comma acc -> no_comma (fmt_digits fuel n acc).
Proof.
  revert n acc. induction fuel as [|fuel IH]; intros n acc Hn Ha; [done|]. cbn [fmt_digits].
  destruct (n <? 10) eqn:E; [by apply no_comma_digit; [lia|]|].
  apply IH; [apply Z.div_pos; lia|]. apply no_comma_digit; [|done]. apply Z.mod_pos_bound. lia.
Qed.

Lemma no_comma_FormatInt n : no_comma (FormatInt n).
Proof.
  unfold FormatInt, FormatUint. destruct (n <? 0) eqn:E.
  - apply no_comma_cons; [done|]. by apply no_comma_fmt; [lia|].
  - by apply no_comma_fmt; [lia|].
Qed.

Lemma ParseInt_value_FormatInt n : is_i64 n -> ParseInt_value (FormatInt n) = n.
Proof. intros Hn. unfold ParseInt_value. by rewrite ParseInt_FormatInt. Qed.

(** A batch of the counter is the interval after its value. *)
Lemma getSeqFromDB_counter incr s c :
  is_i64 c -> is_i64 incr -> is_i64 (c + incr) ->
  getSeqFromDB (counter_db incr) s c =
    (Ret tt, mk_MySQLSequence (pkName s) (seqName s) c (c + incr) (seq_sql s), c + incr).
Proof.
  intros H1 H2 H3. unfold getSeqFromDB, counter_db.
  change (String.append "," (FormatInt incr)) with (String "," (FormatInt incr)).
  rewrite Split_app_comma by apply no_comma_FormatInt.
  rewrite (no_comma_FormatInt incr). cbn zeta beta iota.
  by rewrite !ParseInt_value_FormatInt, i64_id.
Qed.

(** What every state of the system satisfies: the numbers a sequence still holds
    are below the counter, held by no other sequence and not yet given. *)
Record numbers_ok (out : list Z) (seqs : list MySQLSequence) (c : Z) : Prop := {
  ok_out : Forall (fun v => v <= c) out;
  ok_nodup : NoDup out;
  ok_held i s : seqs !! i = Some s -> curr s < max_ s -> min_i64 <= curr s /\ max_ s <= c;
  ok_fresh i s v : seqs !! i = Some s -> v ∈ out -> curr s < v <= max_ s -> False;
  ok_apart i j s t v : seqs !! i = Some s -> seqs !! j = Some t -> i <> j ->
    curr s < v <= max_ s -> curr t < v <= max_ t -> False }.

Section unique.
Context (incr : Z).
Hypothesis Hincr : 1 <= incr.

(** The next number when the sequence holds some, and when it takes a batch. *)
Lemma NextSeq_counter s c :
  is_i64 c -> is_i64 incr -> is_i64 (c + incr) ->
  (curr s < max_ s -> min_i64 <= curr s /\ max_ s <= c) ->
  MySQLSequence_NextSeq (counter_db incr) s c =
    if curr s <? max_ s
    then (Ret (curr s + 1), mk_MySQLSequence (pkName s) (seqName s) (curr s + 1) (max_ s) (seq_sql s), c)
    else (Ret (c + 1), mk_MySQLSequence (pkName s) (seqName s) (c + 1) (c + incr) (seq_sql s), c + incr).
Proof.
  intros Hc Hi Hci Hh. unfold MySQLSequence_NextSeq.
  destruct (curr s <? max_ s) eqn:E.
  - destruct (max_ s <=? curr s) eqn:E2; [lia|]. cbn. rewrite i64_id; [done|].
    unfold_int. lia.
  - destruct (max_ s <=? curr s) eqn:E2; [|lia].
    rewrite getSeqFromDB_counter by done. cbn. rewrite i64_id; [done|]. unfold_int. lia.
Qed.

(** One call keeps the state in order and gives a new number. *)
Lemma call_ok out seqs c i s :
  numbers_ok out seqs c -> seqs !! i = Some s ->
  is_i64 c -> is_i64 incr -> is_i64 (c + incr) ->
  exists v seqs' c', call (counter_db incr) i (seqs, c) = (Ret v, (seqs', c')) /\
    numbers_ok (v :: out) seqs' c' /\ length seqs' = length seqs /\ c <= c' <= c + incr /\
    (v <= c' /\ (curr s < max_ s -> v = curr s + 1) /\ (max_ s <= curr s -> v = c + 1)) /\
    (exists s', seqs' = <[i := s']> seqs /\ curr s' = v).
Proof.
  intros [Ho Hn Hh Hf Ha] Hs Hc Hi Hci. unfold call. cbn [fst snd]. rewrite Hs.
  rewrite NextSeq_counter by eauto. rewrite Forall_forall in Ho.
  pose proof (lookup_lt_Some _ _ _ Hs) as Hlt.
  destruct (curr s <? max_ s) eqn:E.
  - destruct (Hh i s Hs) as [Hmin Hmax]; [lia|].
    eexists _, _, _. split; [done|]. split; [|split_and!; eauto using length_insert; lia].
    assert (forall j t, j <> i -> seqs !! j = Some t -> curr t < curr s + 1 <= max_ t -> False) as Hne.
    { intros j t Hj Ht Hv. eapply (Ha i j s t (curr s + 1)); eauto; lia. }
    split.
    + apply Forall_cons. split; [lia|]. by rewrite Forall_forall.
    + apply NoDup_cons. split; [|done]. intros Hin. eapply (Hf i s _ Hs Hin). lia.
    + intros j t Ht. apply list_lookup_insert_Some in Ht as [(<- & <- & _)|[Hj Ht]]; [|eauto].
      cbn. lia.
    + intros j t v Ht Hin Hv. apply list_lookup_insert_Some in Ht as [(<- & <- & _)|[Hj Ht]].
      * cbn in Hv. apply elem_of_cons in Hin as [->|Hin]; [lia|]. eapply (Hf i s); eauto; lia.
      * apply elem_of_cons in Hin as [->|Hin]; [eauto|by eapply Hf].
    + intros j k t u v Ht Hu Hjk Hv1 Hv2.
      apply list_lookup_insert_Some in Ht as [(<- & <- & _)|[Hj Ht]];
        apply list_lookup_insert_Some in Hu as [(<- & <- & _)|[Hk Hu]]; cbn in *.
      * done.
      * eapply (Ha i k s u v); eauto; lia.
      * eapply (Ha j i t s v); eauto; lia.
      * by eapply (Ha j k t u v).
  - eexists _, _, _. split; [done|]. split; [|split_and!; eauto using length_insert; lia].
    assert (forall j t v, seqs !! j = Some t -> curr t < v <= max_ t -> v <= c) as Hle.
    { intros j t v Ht Hv. destruct (Hh j t Ht); lia. }
    split.
    + apply Forall_cons. split; [lia|]. rewrite Forall_forall. intros v Hv. specialize (Ho v Hv). lia.
    + apply NoDup_cons. split; [|done]. intros Hin. specialize (Ho _ Hin). cbn in Ho. lia.
    + intros j t Ht. apply list_lookup_insert_Some in Ht as [(<- & <- & _)|[Hj Ht]].
      * cbn. unfold_int. lia.
      * intros Hlt'. destruct (Hh j t Ht Hlt'). lia.
    + intros j t v Ht Hin Hv. apply list_lookup_insert_Some in Ht as [(<- & <- & _)|[Hj Ht]].
      * cbn in Hv. apply elem_of_cons in Hin as [->|Hin]; [lia|]. specialize (Ho v Hin). cbn in Ho. lia.
      * apply elem_of_cons in Hin as [->|Hin]; [|by eapply Hf]. specialize (Hle j t _ Ht Hv). lia.
    + intros j k t u v Ht Hu Hjk Hv1 Hv2.
      apply list_lookup_insert_Some in Ht as [(<- & <- & _)|[Hj Ht]];
        apply list_lookup_insert_Some in Hu as [(<- & <- & _)|[Hk Hu]]; cbn in *.
      * done.
      * specialize (Hle k u v Hu Hv2). lia.
      * specialize (Hle j t v Ht Hv1). lia.
      * by eapply (Ha j k t u v).
Qed.

Lemma run_ok schedule out seqs c :
  numbers_ok out seqs c -> Forall (fun i => (i < length seqs)%nat) schedule ->
  is_i64 c -> is_i64 (c + incr * (Z.of_nat (length schedule) + 1)) ->
  exists vs, run (counter_db incr) schedule (seqs, c) = zip schedule (map Ret vs) /\
    length vs = length schedule /\ NoDup (vs ++ out).
Proof.
  revert out seqs c. induction schedule as [|i rest IH]; intros out seqs c Hok Hs Hc Hm.
  - exists []. split_and!; [done|done|by destruct Hok].
  - apply Forall_cons in Hs as [Hi Hs].
    destruct (lookup_lt_is_Some_2 seqs i Hi) as [s Hsi].
    assert (incr * 1 <= incr * (Z.of_nat (length (i :: rest)) + 1)) as Hle
      by (apply Z.mul_le_mono_nonneg_l; lia).
    assert (is_i64 incr) as Hii by (cbn [length] in Hm; unfold_int; nia).
    destruct (call_ok out seqs c i s Hok Hsi Hc Hii) as (v & seqs' & c' & Hcall & Hok' & Hlen & Hc' & _).
    { unfold_int. lia. }
    destruct (IH (v :: out) seqs' c') as (vs & Hrun & Hl & Hnd).
    + done.
    + by rewrite Hlen.
    + unfold_int. lia.
    + cbn [length] in Hm. unfold_int. nia.
    + exists (v :: vs). split_and!; [|cbn; lia|].
      * cbn [run]. rewrite Hcall. cbn. by rewrite Hrun.
      * cbn [app]. rewrite <- Permutation_middle in Hnd. done.
Qed.

End unique.

Lemma fresh_numbers_ok c names pk :
  numbers_ok [] (map (fun n => NewMySQLSequence n pk) names) c.
Proof.
  assert (forall i s, map (fun n => NewMySQLSequence n pk) names !! i = Some s ->
            curr s = 0 /\ max_ s = 0) as H0.
  { intros i s Hs. apply list_lookup_fmap_Some in Hs as (n & -> & _). done. }
  split; [done|constructor| | |].
  - intros i s Hs%H0. lia.
  - intros i s v _ Hv. by apply elem_of_nil in Hv.
  - intros i j s t v Hs%H0. lia.
Qed.

(** C32: any number of proxies that share the counter of a sequence never hand out
    a number twice, whatever the order of their calls, and every call gets a
    number as long as the counter stays in the range of int64. *)
Theorem sequence_numbers_unique incr c names pk schedule :
  1 <= incr -> is_i64 c -> is_i64 (c + incr * (Z.of_nat (length schedule) + 1)) ->
  Forall (fun i => (i < length names)%nat) schedule ->
  exists vs, run (counter_db incr) schedule (map (fun n => NewMySQLSequence n pk) names, c) =
      zip schedule (map Ret vs) /\ length vs = length schedule /\ NoDup vs.
Proof.
  intros Hi Hc Hm Hs.
  destruct (run_ok incr Hi schedule [] (map (fun n => NewMySQLSequence n pk) names) c)
    as (vs & Hr & Hl & Hnd).
  - apply fresh_numbers_ok.
  - by rewrite length_map.
  - done.
  - done.
  - rewrite app_nil_r in Hnd. eauto.
Qed.

Lemma sequence_numbers_unique_witness :
  exists vs, run (counter_db 2) [0; 1; 0; 0; 1]%nat
      (map (fun n => NewMySQLSequence n "id") ["a"; "b"]%string, 100) =
    zip [0; 1; 0; 0; 1]%nat (map Ret vs) /\ length vs = 5%nat /\ NoDup vs.
Proof.
  apply (sequence_numbers_unique 2 100 ["a"; "b"]%string "id" [0; 1; 0; 0; 1]%nat).
  - lia.
  - split; [discriminate|discriminate].
  - split; [discriminate|discriminate].
  - repeat constructor; lia.
Defined.

(** The answer of mycat_seq_nextval for a sequence that is not defined, or any
    answer whose increment is not a number. *)
Definition undefined_db (c : Z) (sql : string) (d : unit) : outcome string * unit :=
  (Ret (String.append (FormatInt c) ",null"), d).

(** When the increment the database answers is not a number (a sequence that
    is not defined answers "-999999999,null"), the error of ParseInt is dropped and
    every call returns the same number. *)
Theorem undefined_sequence_repeats c s n :
  is_i64 c -> is_i64 (c + 1) -> max_ s <= curr s ->
  run (undefined_db c) (replicate n 0%nat) ([s], tt) = replicate n (0%nat, Ret (c + 1)).
Proof.
  intros Hc Hc1. revert s. induction n as [|n IH]; intros s Hs; [done|].
  cbn [replicate run]. unfold call. cbn [fst snd lookup list_lookup].
  unfold MySQLSequence_NextSeq. destruct (max_ s <=? curr s) eqn:E; [|lia].
  unfold getSeqFromDB, undefined_db.
  change (String.append (FormatInt c) ",null") with (String.append (FormatInt c) (String "," "null")).
  rewrite Split_app_comma by apply no_comma_FormatInt.
  change (Split "," "null") with ["null"%string]. cbn zeta beta iota.
  rewrite ParseInt_value_FormatInt by done.
  change (ParseInt_value "null") with 0. cbn zeta beta iota. cbn [curr max_ seq_sql pkName seqName].
  rewrite Z.add_0_r, (i64_id c), (i64_id (c + 1)) by done.
  cbn. f_equal. apply IH. cbn. lia.
Qed.

Lemma undefined_sequence_repeats_witness :
  run (undefined_db (-999999999)) (replicate 3 0%nat) ([NewMySQLSequence "ORDERS" "id"], tt) =
    replicate 3 (0%nat, Ret (-999999998)).
Proof.
  apply (undefined_sequence_repeats (-999999999) (NewMySQLSequence "ORDERS" "id") 3).
  - split; discriminate.
  - split; discriminate.
  - cbn. lia.
Defined.
