(* ===== verification/PlanInsert.v ===== *)
(** proxy/plan/plan_insert.go: INSERT and REPLACE. The rows of a statement are
    sent to the tables of their sharding values. *)

From Stdlib Require Import Ascii String.
From S2P Require Import Prelude GoStr Hack NumKey Shard ShardMycat Models Rule.
From S2P Require Import Router PlanUtil Format Ast Dml PlanWhere PlanSQL PlanExample.
From S2P Require Import Sequence.

Section insert.
Context {T} {TM : TreeMap T} {LZ : LocalZone} {FE : FloatE} {S : Type} {SQ : Sequence S}.

(** [ip_sqls] is nil until the statements are generated. *)
Record InsertPlan := mk_InsertPlan {
  ip_info : StmtInfo T;
  ip_stmt : InsertStmt T;
  ip_table : string;
  isAssignmentMode : bool;
  shardingColumnIndex : Z;
  sequences : SequenceManager S;
  ip_sqls : option SQLs }.

Definition NewInsertPlan (db : string) (r : Router (T := T)) (seq : SequenceManager S)
    (stmt : InsertStmt T) : InsertPlan :=
  mk_InsertPlan (NewTableAliasStmtInfo db r) stmt "" false (-1) seq None.

Definition with_info (p : InsertPlan) (i : StmtInfo T) : InsertPlan :=
  mk_InsertPlan i (ip_stmt p) (ip_table p) (isAssignmentMode p) (shardingColumnIndex p)
    (sequences p) (ip_sqls p).
Definition with_stmt (p : InsertPlan) (s : InsertStmt T) : InsertPlan :=
  mk_InsertPlan (ip_info p) s (ip_table p) (isAssignmentMode p) (shardingColumnIndex p)
    (sequences p) (ip_sqls p).
Definition with_table (p : InsertPlan) (t : string) : InsertPlan :=
  mk_InsertPlan (ip_info p) (ip_stmt p) t (isAssignmentMode p) (shardingColumnIndex p)
    (sequences p) (ip_sqls p).
Definition with_mode (p : InsertPlan) (b : bool) : InsertPlan :=
  mk_InsertPlan (ip_info p) (ip_stmt p) (ip_table p) b (shardingColumnIndex p) (sequences p)
    (ip_sqls p).
Definition with_column (p : InsertPlan) (i : Z) : InsertPlan :=
  mk_InsertPlan (ip_info p) (ip_stmt p) (ip_table p) (isAssignmentMode p) i (sequences p)
    (ip_sqls p).
Definition with_sequences (p : InsertPlan) (m : SequenceManager S) : InsertPlan :=
  mk_InsertPlan (ip_info p) (ip_stmt p) (ip_table p) (isAssignmentMode p) (shardingColumnIndex p) m
    (ip_sqls p).
Definition with_sqls (p : InsertPlan) (m : SQLs) : InsertPlan :=
  mk_InsertPlan (ip_info p) (ip_stmt p) (ip_table p) (isAssignmentMode p) (shardingColumnIndex p)
    (sequences p) (Some m).

Definition set_Table (s : InsertStmt T) (t : join T) : InsertStmt T :=
  mk_InsertStmt (IsReplace s) (ins_IgnoreErr s) t (Columns s) (Lists s) (Setlist s) (ins_Priority s)
    (OnDuplicate s) (ins_Select s) (ListsAssist s).
Definition set_Columns (s : InsertStmt T) (c : list ColumnName) : InsertStmt T :=
  mk_InsertStmt (IsReplace s) (ins_IgnoreErr s) (ins_Table s) c (Lists s) (Setlist s)
    (ins_Priority s) (OnDuplicate s) (ins_Select s) (ListsAssist s).
Definition set_Lists (s : InsertStmt T) (l : list (list (expr T))) : InsertStmt T :=
  mk_InsertStmt (IsReplace s) (ins_IgnoreErr s) (ins_Table s) (Columns s) l (Setlist s)
    (ins_Priority s) (OnDuplicate s) (ins_Select s) (ListsAssist s).
Definition set_Setlist (s : InsertStmt T) (l : list (Assignment T)) : InsertStmt T :=
  mk_InsertStmt (IsReplace s) (ins_IgnoreErr s) (ins_Table s) (Columns s) (Lists s) l
    (ins_Priority s) (OnDuplicate s) (ins_Select s) (ListsAssist s).
Definition set_OnDuplicate (s : InsertStmt T) (l : list (Assignment T)) : InsertStmt T :=
  mk_InsertStmt (IsReplace s) (ins_IgnoreErr s) (ins_Table s) (Columns s) (Lists s) (Setlist s)
    (ins_Priority s) l (ins_Select s) (ListsAssist s).
Definition set_ListsAssist (s : InsertStmt T) (m : list (Z * list (list (expr T)))) : InsertStmt T :=
  mk_InsertStmt (IsReplace s) (ins_IgnoreErr s) (ins_Table s) (Columns s) (Lists s) (Setlist s)
    (ins_Priority s) (OnDuplicate s) (ins_Select s) (Some m).

Definition ErrSelectInInsert : error := Named "errors.ErrSelectInInsert".
Definition ErrIRNoColumns : error := Named "errors.ErrIRNoColumns".
Definition ErrUpdateKey : error := Named "errors.ErrUpdateKey".

Definition precheckInsertStmt (p : InsertPlan) : outcome InsertPlan :=
  let stmt := ip_stmt p in
  if is_some (ins_Select stmt) then Err ErrSelectInInsert else
  match Setlist stmt with
  | _ :: _ => Ret (with_mode p true)
  | [] =>
      match Columns stmt with
      | [] => Err ErrIRNoColumns
      | cols =>
          values ← index (Lists stmt) 0;
          if negb (zlen cols =? zlen values) then Err (Errorf "column count doesn't match value count")
          else Ret p
      end
  end.

(** util.go: the database and the table of a name *)
Definition getTableInfoFromTableName (t : TableName) : string * string :=
  (O_ (tn_Schema t), L_ (tn_Name t)).

Definition NeedCreateTableNameDecoratorWithoutAlias (s : StmtInfo T) (n : TableName) :
    outcome (Rule T * StmtInfo T) :=
  let '(db, table) := getTableInfoFromTableName n in
  wrap "record shard table in SelectPlan error, db: %s, table, %s, err: %v"
    (StmtInfo_RecordShardTable s db table).

Definition CreateTableNameDecorator (n : TableName) (rule : Rule T) : outcome (resultset T) :=
  match PartitionNames n with
  | [] => Ret (RTableNameD n rule)
  | _ => Err (Errorf "TableName does not support PartitionNames in sharding")
  end.

(** The statements of an INSERT for a route result. *)
Definition insert_sqls (p : InsertPlan) : outcome (SQLs * RouteResult) :=
  generateShardingSQLs (fun rr => InsertStmt_Restore EscapeRestoreFlags rr (ip_stmt p))
    (si_result (ip_info p)) (si_router (ip_info p)).

(** A row of a global table is written to all slices at once. *)
Definition insert_global (p : InsertPlan) (rule : Rule T) : outcome InsertPlan :=
  let res := si_result (ip_info p) in
  let p := with_info p (set_result (ip_info p)
             (mk_RouteResult (GetDB rule) (GetTable rule) (currentIndex res)
                (GetSubTableIndexes rule))) in
  '(sqls, rr) ← wrap "generate global table insert sql error: %v" (insert_sqls p);
  Ret (with_sqls (with_info p (set_result (ip_info p) rr)) sqls).

Definition handleInsertTableRefs (p : InsertPlan) : outcome (bool * InsertPlan) :=
  match ins_Table (ip_stmt p) with
  | mk_join Left Right Tp On Using nj sj =>
      if is_some Right then Err (Errorf "have multi tables in insert") else
      match Left with
      | Some (RTableSource src asName) =>
          match src with
          | RTableName tableName =>
              let p := with_table p (L_ (tn_Name tableName)) in
              '(rule, info) ← wrap "check table name need to decorate error: %v"
                                (NeedCreateTableNameDecoratorWithoutAlias (ip_info p) tableName);
              decorator ← wrap "create table name decorator error: %v"
                            (CreateTableNameDecorator tableName rule);
              let p := with_stmt (with_info p info)
                         (set_Table (ip_stmt p)
                            (mk_join (Some (RTableSource decorator asName)) Right Tp On Using nj sj)) in
              if String.eqb (GetType rule) GlobalTableRuleType
              then p ← insert_global p rule; Ret (true, p)
              else Ret (false, p)
          | _ => Panic "interface conversion"
          end
      | _ => Err (Errorf "not a table source")
      end
  end.

(** The name without its database and table. *)
Definition removeSchemaAndTableInfoInColumnName (c : ColumnName) : ColumnName :=
  mk_ColumnName (mk_CIStr "" "") (mk_CIStr "" "") (cn_Name c).

(** The last column that is the sharding column; [-1] when there is none. *)
Fixpoint sharding_index (column : string) (i : Z) (names : list ColumnName) (found : Z)
    {struct names} : Z :=
  match names with
  | [] => found
  | c :: rest =>
      sharding_index column (i + 1) rest (if String.eqb (L_ (cn_Name c)) column then i else found)
  end.

Definition table_rule (p : InsertPlan) : outcome (Rule T) :=
  match tableRules (ip_info p) !! ip_table p with
  | Some rule => Ret rule
  | None => Panic "nil pointer dereference"
  end.

Definition handleInsertColumnNames (p : InsertPlan) : outcome InsertPlan :=
  let stmt := ip_stmt p in
  let names := if isAssignmentMode p then map as_Column (Setlist stmt) else Columns stmt in
  rule ← match names with [] => Ret None | _ => r ← table_rule p; Ret (Some r) end;
  let i := match rule with
           | Some r => sharding_index (GetShardingColumn r) 0 names (shardingColumnIndex p)
           | None => shardingColumnIndex p
           end in
  let stmt := if isAssignmentMode p
              then set_Setlist stmt (map (fun a => mk_Assignment
                     (removeSchemaAndTableInfoInColumnName (as_Column a)) (as_Expr a)) (Setlist stmt))
              else set_Columns stmt (map removeSchemaAndTableInfoInColumnName (Columns stmt)) in
  if i =? -1 then Err (Errorf "sharding column not found")
  else Ret (with_column (with_stmt p stmt) i).

(** The table index of a literal sharding value. *)
Definition route_value (rule : Rule T) (d : datum) : outcome Z :=
  v ← wrap "get value expr result failed, %v" (GetValueExprResult d);
  match v with
  | GNil => Err (Errorf "sharding value cannot be null")
  | _ => wrap "find table index error: %v" (FindTableIndex rule v)
  end.

(** The loop over the rows: a row whose sharding value is not a literal is skipped. *)
Fixpoint insert_rows (p : InsertPlan) (rows : list (list (expr T)))
    (valueMap : list (Z * list (list (expr T)))) : outcome (list (Z * list (list (expr T)))) :=
  match rows with
  | [] => Ret valueMap
  | valueList :: rest =>
      valueItem ← index valueList (shardingColumnIndex p);
      match valueItem with
      | EValue d =>
          rule ← table_rule p;
          routeIdx ← route_value rule d;
          insert_rows p rest (value_map_append routeIdx valueList valueMap)
      | _ => insert_rows p rest valueMap
      end
  end.

Definition handleInsertValues (p : InsertPlan) : outcome InsertPlan :=
  let info := ip_info p in
  if isAssignmentMode p then
    a ← index (Setlist (ip_stmt p)) (shardingColumnIndex p);
    match as_Expr a with
    | EValue d =>
        rule ← table_rule p;
        routeIdx ← route_value rule d;
        Ret (with_info p (set_result info (rr_Inter (si_result info) [routeIdx])))
    | _ => Ret p
    end
  else
    valueMap ← insert_rows p (Lists (ip_stmt p)) [];
    let info := set_result info (rr_Inter (si_result info) (sort_ints (map fst valueMap))) in
    let p := with_stmt (with_info p info) (set_ListsAssist (ip_stmt p) valueMap) in
    match GetShardIndexes (si_result info) with
    | [] => Err (Errorf "batch insert has cross slice values or no route found")
    | _ => Ret p
    end.

Definition handleInsertOnDuplicate (p : InsertPlan) : outcome InsertPlan :=
  let stmt := ip_stmt p in
  match OnDuplicate stmt with
  | [] => Ret p
  | l =>
      rule ← table_rule p;
      if existsb (fun a => String.eqb (L_ (cn_Name (as_Column a))) (GetShardingColumn rule)) l
      then Err ErrUpdateKey
      else Ret (with_stmt p (set_OnDuplicate stmt (map (fun a => mk_Assignment
                  (removeSchemaAndTableInfoInColumnName (as_Column a)) (as_Expr a)) l)))
  end.

(** The call nextval(), in any spelling. *)
Definition is_nextval (e : expr T) : bool :=
  match e with EFunc FnName _ => String.eqb (L_ FnName) "nextval" | _ => false end.

(** [ast.NewValueExpr(id)] of a new number *)
Definition next_value (seq : S) : outcome (expr T * S) :=
  let '(r, seq') := NextSeq seq in
  id ← wrap "get next seq error: %v" r; Ret (EValue (DInt64 id), seq').

(** The first assignment of nextval() to the key is replaced. *)
Fixpoint sequence_assignments (pkName : string) (l : list (Assignment T)) (seq : S) :
    outcome (list (Assignment T) * S) :=
  match l with
  | [] => Ret ([], seq)
  | a :: rest =>
      if String.eqb (L_ (cn_Name (as_Column a))) pkName && is_nextval (as_Expr a) then
        '(v, seq') ← next_value seq; Ret (mk_Assignment (as_Column a) v :: rest, seq')
      else '(rest', seq') ← sequence_assignments pkName rest seq; Ret (a :: rest', seq')
  end.

(** The place of the first column with the name of the key. *)
Fixpoint column_position (pkName : string) (i : Z) (cols : list ColumnName) {struct cols} : Z :=
  match cols with
  | [] => -1
  | c :: rest => if String.eqb (L_ (cn_Name c)) pkName then i else column_position pkName (i + 1) rest
  end.

Fixpoint sequence_rows (seqIndex : Z) (rows : list (list (expr T))) (seq : S) :
    outcome (list (list (expr T)) * S) :=
  match rows with
  | [] => Ret ([], seq)
  | row :: rest =>
      x ← index row seqIndex;
      if is_nextval x then
        '(v, seq') ← next_value seq;
        row' ← store row seqIndex v;
        '(rest', seq'') ← sequence_rows seqIndex rest seq';
        Ret (row' :: rest', seq'')
      else
        '(rest', seq') ← sequence_rows seqIndex rest seq; Ret (row :: rest', seq')
  end.

(** The sequence is a pointer: the manager holds the advanced one. *)
Definition advance (p : InsertPlan) (seq : S) : InsertPlan :=
  let db := si_db (ip_info p) in
  with_sequences p (<[db := <[ip_table p := seq]> (default ∅ (sequences p !! db))]> (sequences p)).

Definition handleInsertGlobalSequenceValue (p : InsertPlan) : outcome InsertPlan :=
  match GetSequence (sequences p) (si_db (ip_info p)) (ip_table p) with
  | None => Ret p
  | Some seq =>
      let pkName := GetPKName seq in
      let stmt := ip_stmt p in
      if isAssignmentMode p then
        '(l, seq') ← sequence_assignments pkName (Setlist stmt) seq;
        Ret (advance (with_stmt p (set_Setlist stmt l)) seq')
      else
        let seqIndex := column_position pkName 0 (Columns stmt) in
        if seqIndex =? -1 then Ret p else
        '(rows, seq') ← sequence_rows seqIndex (Lists stmt) seq;
        Ret (advance (with_stmt p (set_Lists stmt rows)) seq')
  end.

(** An error leaves the plan unused; numbers taken from a sequence stay taken. *)
Definition HandleInsertStmt (p : InsertPlan) : outcome InsertPlan :=
  p ← precheckInsertStmt p;
  '(fastReturn, p) ← wrap "handleInsertTableRefs error: %v" (handleInsertTableRefs p);
  if (fastReturn : bool) then Ret p else
  p ← wrap "handleInsertGlobalSequenceValue error: %v" (handleInsertGlobalSequenceValue p);
  p ← wrap "handleInsertColumnNames error: %v" (handleInsertColumnNames p);
  p ← wrap "handleInsertOnDuplicate error: %v" (handleInsertOnDuplicate p);
  p ← wrap "handleInsertValues error: %v" (handleInsertValues p);
  '(sqls, rr) ← insert_sqls p;
  Ret (with_sqls (with_info p (set_result (ip_info p) rr)) sqls).

(** * Where the rows of an INSERT go *)

(** The table of a row: of its literal sharding value in column [col]. *)
Definition row_table (rule : Rule T) (col : Z) (row : list (expr T)) : option Z :=
  match index row col with
  | Ret (EValue d) => match route_value rule d with Ret j => Some j | _ => None end
  | _ => None
  end.

Definition rows_of (rule : Rule T) (col : Z) (j : Z) (rows : list (list (expr T))) :
    list (list (expr T)) :=
  filter (fun row => row_table rule col row = Some j) rows.

Lemma rows_of_cons rule col j row rows :
  rows_of rule col j (row :: rows) =
  (if decide (row_table rule col row = Some j) then [row] else []) ++ rows_of rule col j rows.
Proof.
  unfold rows_of. destruct (decide _).
  - by rewrite filter_cons_True.
  - by rewrite filter_cons_False.
Qed.

(** One row of the loop. *)
Lemma insert_rows_cons p rule row rows m j :
  table_rule p = Ret rule -> row_table rule (shardingColumnIndex p) row = Some j ->
  insert_rows p (row :: rows) m = insert_rows p rows (value_map_append j row m).
Proof.
  intros Hr Hj. unfold row_table in Hj. cbn [insert_rows].
  destruct (index row (shardingColumnIndex p)) as [e| |]; [|done..]. cbn [mbind outcome_bind].
  destruct e as [| |d| | | | | | | |]; try done. rewrite Hr. cbn [mbind outcome_bind].
  by destruct (route_value rule d); simplify_eq.
Qed.

Lemma insert_rows_total p rule rows m :
  table_rule p = Ret rule ->
  Forall (fun row => is_Some (row_table rule (shardingColumnIndex p) row)) rows ->
  NoDup (map fst m) ->
  exists m', insert_rows p rows m = Ret m' /\ NoDup (map fst m') /\
    (forall j, value_map_get j m' =
       value_map_get j m ++ rows_of rule (shardingColumnIndex p) j rows) /\
    (forall j, j ∈ map fst m' <->
       j ∈ map fst m \/ exists row, row ∈ rows /\ row_table rule (shardingColumnIndex p) row = Some j).
Proof.
  intros Hr Hrows. revert m. induction Hrows as [|row rows [i Hi] _ IH]; intros m Hnd.
  - exists m. split_and!; [done|done|intros; by rewrite app_nil_r|set_solver].
  - rewrite (insert_rows_cons _ _ _ _ _ _ Hr Hi).
    destruct (value_map_append_keys i row m Hnd) as [Hnd' Hk].
    destruct (IH _ Hnd') as (m' & H1 & H2 & H3 & H4). exists m'. split_and!; [done|done| |].
    + intros j. rewrite H3, value_map_get_append, rows_of_cons, Hi. destruct (j =? i) eqn:E.
      * replace j with i by lia. rewrite decide_True by done. by rewrite <- app_assoc.
      * rewrite decide_False by (intros [=]; lia). done.
    + intros j. rewrite H4, Hk. split.
      * intros [[->|?]|(r & ? & ?)]; [|by left|]; right; [exists row|exists r]; set_solver.
      * intros [?|(r & Hin & Hj)]; [by left; right|]. apply elem_of_cons in Hin as [->|Hin].
        -- left. left. congruence.
        -- right. eauto.
Qed.

Lemma sort_ints_elem l j : j ∈ sort_ints l <-> j ∈ l.
Proof. unfold sort_ints. by rewrite (merge_sort_Permutation Z.le l). Qed.

Lemma sort_ints_ascending l : NoDup l -> ascending (sort_ints l).
Proof.
  intros Hnd. unfold sort_ints, ascending.
  pose proof (StronglySorted_merge_sort Z.le l) as Hs.
  assert (NoDup (merge_sort Z.le l)) as Hn by (by rewrite merge_sort_Permutation).
  revert Hs Hn. generalize (merge_sort Z.le l). induction l0 as [|x k IH]; intros Hs Hn; [constructor|].
  inversion Hs; subst. apply NoDup_cons in Hn as [Hx Hn]. constructor; [by apply IH|].
  rewrite Forall_forall in *. intros y Hy. specialize (H2 y Hy). assert (x <> y) by set_solver. lia.
Qed.

(** The values of a statement with literal keys are split by table. *)
Lemma handleInsertValues_rows p rule :
  isAssignmentMode p = false -> table_rule p = Ret rule -> Lists (ip_stmt p) <> [] ->
  ascending (indexes (si_result (ip_info p))) ->
  Forall (fun row => exists j, row_table rule (shardingColumnIndex p) row = Some j /\
            j ∈ indexes (si_result (ip_info p))) (Lists (ip_stmt p)) ->
  exists m l, let rr := set_indexes (si_result (ip_info p)) l in
    handleInsertValues p = Ret (with_stmt (with_info p (set_result (ip_info p) rr))
                                  (set_ListsAssist (ip_stmt p) m)) /\
    ascending l /\
    (forall j, j ∈ l <-> exists row, row ∈ Lists (ip_stmt p) /\
                           row_table rule (shardingColumnIndex p) row = Some j) /\
    (forall j, value_map_get j m = rows_of rule (shardingColumnIndex p) j (Lists (ip_stmt p))).
Proof.
  intros Hm Hr Hne Hasc Hrows.
  destruct (insert_rows_total p rule (Lists (ip_stmt p)) [] Hr) as (m & H1 & H2 & H3 & H4).
  { eapply Forall_impl; [exact Hrows|]. intros row (j & ? & _). eauto. }
  { constructor. }
  set (l := interList (indexes (si_result (ip_info p))) (sort_ints (map fst m))).
  assert (forall j, j ∈ l <-> exists row, row ∈ Lists (ip_stmt p) /\
            row_table rule (shardingColumnIndex p) row = Some j) as Hl.
  { intros j. unfold l. rewrite interList_elem, sort_ints_elem, H4
      by (try done; by apply sort_ints_ascending).
    rewrite elem_of_nil. split; [naive_solver|]. intros (row & Hin & Hj). split; [|naive_solver].
    rewrite Forall_forall in Hrows. destruct (Hrows row Hin) as (j' & ? & ?). by simplify_eq. }
  exists m, l. split_and!.
  - unfold handleInsertValues. rewrite Hm, H1. cbn [mbind outcome_bind].
    cbn [set_result si_result rr_Inter set_indexes indexes GetShardIndexes].
    change (interList _ _) with l. destruct l as [|i l'] eqn:El. 2: { by rewrite <- El. }
    exfalso.
    destruct (Lists (ip_stmt p)) as [|row rest] eqn:Er; [done|].
    apply Forall_cons in Hrows as [(j & Hj & _) _].
    assert (j ∈ []) as Hin by (apply Hl; exists row; set_solver). by apply elem_of_nil in Hin.
  - unfold l. apply interList_ascending; [done|]. by apply sort_ints_ascending.
  - done.
  - intros j. by rewrite H3.
Qed.

(** ** The text of a table's INSERT *)

(** The physical table behind index [j]: a kingshard rule numbers the table, a
    mycat rule moves it to another database. *)
Definition physical_table (rule : Rule T) (t : TableName) (j : Z) : TableName :=
  if IsMycatShardingRule (GetType rule) then
    mk_TableName
      (if String.eqb (O_ (tn_Schema t)) "" then tn_Schema t
       else match GetDatabaseNameByTableIndex rule j with Ret db => mk_CIStr db db | _ => tn_Schema t end)
      (tn_Name t) (IndexHints t) []
  else
    mk_TableName (tn_Schema t)
      (mk_CIStr (sub_table_name (O_ (tn_Name t)) j) (sub_table_name (L_ (tn_Name t)) j))
      (IndexHints t) [].

(** A mycat rule has a name for the database of [j] when the statement needs it. *)
Definition database_ok (rule : Rule T) (t : TableName) (j : Z) : Prop :=
  IsMycatShardingRule (GetType rule) = true -> O_ (tn_Schema t) <> ""%string ->
  exists db, GetDatabaseNameByTableIndex rule j = Ret db /\ db <> ""%string.

Lemma TableNameDecorator_physical rf rr t (rule : Rule T) j :
  GetCurrentTableIndex rr = Ret j -> GetType rule <> GlobalTableRuleType -> database_ok rule t j ->
  TableNameDecorator_Restore rf rr t rule = TableName_Restore rf (physical_table rule t j).
Proof.
  intros Hj Hty Hdb. unfold TableNameDecorator_Restore, TableName_Restore, physical_table.
  rewrite Hj. replace (String.eqb (GetType rule) GlobalTableRuleType) with false
    by (symmetry; by apply String.eqb_neq).
  unfold database_ok in Hdb. destruct (IsMycatShardingRule (GetType rule)).
  - cbn [tn_Schema tn_Name PartitionNames IndexHints CIStr_String]. unfold CIStr_String.
    destruct (String.eqb (O_ (tn_Schema t)) "") eqn:E; cbn [negb].
    + rewrite E. cbn [negb]. by rewrite !then_nil_l.
    + apply String.eqb_neq in E. destruct (Hdb eq_refl E) as (db & Hd & Hne).
      rewrite Hd. unfold mycat_db. rewrite Hd. cbn [O_ L_].
      apply String.eqb_neq in Hne. rewrite Hne. cbn [negb]. by rewrite then_nil_l.
  - cbn [tn_Schema tn_Name PartitionNames IndexHints O_]. by rewrite then_nil_l.
Qed.

Definition clean_assignment (a : Assignment T) : Assignment T :=
  mk_Assignment (removeSchemaAndTableInfoInColumnName (as_Column a)) (as_Expr a).

(** The INSERT a table should get: its own rows, into its physical table. *)
Definition physical_insert (rule : Rule T) (col : Z) (stmt : InsertStmt T) (t : TableName)
    (alias : CIStr) (j : Z) : InsertStmt T :=
  mk_InsertStmt (IsReplace stmt) (ins_IgnoreErr stmt)
    (mk_join (Some (RTableSource (RTableName (physical_table rule t j)) alias)) None CrossJoin None []
       false false)
    (map removeSchemaAndTableInfoInColumnName (Columns stmt))
    (rows_of rule col j (Lists stmt)) [] (ins_Priority stmt)
    (map clean_assignment (OnDuplicate stmt)) None None.

(** The statement as the planner rewrites it. *)
Definition rewritten_insert (rule : Rule T) (stmt : InsertStmt T) (t : TableName) (alias : CIStr)
    (m : list (Z * list (list (expr T)))) : InsertStmt T :=
  mk_InsertStmt (IsReplace stmt) (ins_IgnoreErr stmt)
    (mk_join (Some (RTableSource (RTableNameD t rule) alias)) None CrossJoin None [] false false)
    (map removeSchemaAndTableInfoInColumnName (Columns stmt))
    (Lists stmt) [] (ins_Priority stmt) (map clean_assignment (OnDuplicate stmt)) None (Some m).

Lemma dropped_ok r : status r = Ret tt -> dropped r = r.
Proof. destruct r as [s st]. cbn. intros ->. done. Qed.

Lemma restored_then_inv a b q :
  restored_sql (a +> b) = Ret q -> status a = Ret tt /\ status b = Ret tt.
Proof. intros [H _]%restored_sql_Ret. by apply then_Ret. Qed.

Lemma then_status a b : status (a +> b) = Ret tt -> status a = Ret tt /\ status b = Ret tt.
Proof. apply then_Ret. Qed.

(** A single table in FROM position. *)
Definition single_table (body : restored) (rf : Z) (alias : CIStr) : restored :=
  annotate "An error occurred while restore TableRefsClause.TableRefs"
    (annotate "An error occurred while restore Join.Left"
       (annotate "An error occurred while restore TableSource.Source" body +> as_name rf alias)
     +> written "").

Lemma single_table_name rf rr t alias :
  TableRefs_Restore (T := T) rf rr
    (mk_join (Some (RTableSource (RTableName t) alias)) None CrossJoin None [] false false) =
  single_table (TableName_Restore rf t) rf alias.
Proof. reflexivity. Qed.

Lemma single_table_decorated rf rr t (rule : Rule T) alias :
  TableRefs_Restore rf rr
    (mk_join (Some (RTableSource (RTableNameD t rule) alias)) None CrossJoin None [] false false) =
  single_table (TableNameDecorator_Restore rf rr t rule) rf alias.
Proof. reflexivity. Qed.

Lemma insert_text rf rr rule col stmt t alias j m q :
  GetCurrentTableIndex rr = Ret j -> GetType rule <> GlobalTableRuleType -> database_ok rule t j ->
  value_map_get j m = rows_of rule col j (Lists stmt) -> rows_of rule col j (Lists stmt) <> [] ->
  restored_sql (InsertStmt_Restore rf rr (physical_insert rule col stmt t alias j)) = Ret q ->
  restored_sql (InsertStmt_Restore rf rr (rewritten_insert rule stmt t alias m)) = Ret q.
Proof.
  intros Hj Hty Hdb Hm Hne Hq. rewrite <- Hq. f_equal.
  unfold rewritten_insert, physical_insert, InsertStmt_Restore in *.
  cbn [IsReplace ins_IgnoreErr ins_Table Columns Lists Setlist ins_Priority OnDuplicate ins_Select
       ListsAssist] in *.
  rewrite single_table_name in *. rewrite single_table_decorated.
  rewrite (TableNameDecorator_physical rf rr t rule j Hj Hty Hdb).
  apply restored_sql_Ret in Hq as [Hq _].
  do 6 (apply then_status in Hq as [_ Hq]). apply then_status in Hq as [Hrows _].
  destruct (rows_of rule col j (Lists stmt)) as [|row rows] eqn:Er; [by destruct Hne|].
  unfold InsertValuesExprDecorator_Restore. rewrite Hj, Hm. cbn [nonempty] in Hrows.
  by rewrite (dropped_ok _ Hrows).
Qed.

(** ** The whole statement *)

(** What an INSERT of literal keys into a sharded table needs of the router and
    of its text; [rule'] is the rule of the parent when the table is linked. *)
Record insert_ok (db : string) (router : Router (T := T)) (seq : SequenceManager S)
    (stmt : InsertStmt T) (t : TableName) (alias : CIStr) (rule rule' : Rule T) (col : Z) : Prop := {
  io_select : ins_Select stmt = None;
  io_values : Setlist stmt = [];
  io_table : ins_Table stmt =
    mk_join (Some (RTableSource (RTableName t) alias)) None CrossJoin None [] false false;
  io_partition : PartitionNames t = [];
  io_db : O_ (tn_Schema t) = ""%string \/ O_ (tn_Schema t) = db;
  io_rule : GetShardRule router db (L_ (tn_Name t)) = Some rule;
  io_type : GetType rule <> GlobalTableRuleType;
  io_parent : GetShardRule router (GetDB rule) (route_table rule) = Some rule';
  io_sequence : GetSequence seq db (L_ (tn_Name t)) = None;
  io_column : sharding_index (GetShardingColumn rule) 0 (Columns stmt) (-1) = col;
  io_found : col <> -1;
  io_first : exists row, head (Lists stmt) = Some row /\ length row = length (Columns stmt);
  io_duplicate : existsb (fun a => String.eqb (L_ (cn_Name (as_Column a))) (GetShardingColumn rule))
                   (OnDuplicate stmt) = false;
  io_rows : Forall (fun row => exists j, row_table rule col row = Some j /\
                      j ∈ GetSubTableIndexes rule) (Lists stmt);
  io_ascending : ascending (GetSubTableIndexes rule);
  io_length : zlen (GetSubTableIndexes rule) < max_i64 }.

(** The state of the planner after the table is recorded. *)
Definition insert_info (db : string) (router : Router (T := T)) (table : string) (rule : Rule T) :
    StmtInfo T :=
  mk_StmtInfo db router {[table := rule]} ∅
    (mk_RouteResult (GetDB rule) (route_table rule) 0 (GetSubTableIndexes rule)) ∅ "".

Lemma record_insert_table db router t rule :
  (O_ (tn_Schema t) = ""%string \/ O_ (tn_Schema t) = db) ->
  GetShardRule router db (L_ (tn_Name t)) = Some rule -> GetType rule <> GlobalTableRuleType ->
  NeedCreateTableNameDecoratorWithoutAlias (NewTableAliasStmtInfo db router) t =
    Ret (rule, insert_info db router (L_ (tn_Name t)) rule).
Proof.
  intros Hdb Hr Hty. unfold NeedCreateTableNameDecoratorWithoutAlias, getTableInfoFromTableName,
    StmtInfo_RecordShardTable, getShardRule, checkAndGetDB. cbn [NewTableAliasStmtInfo si_db si_router].
  replace (negb (String.eqb (O_ (tn_Schema t)) "") && negb (String.eqb (O_ (tn_Schema t)) db)) with false
    by (destruct Hdb as [->| ->]; [done|]; rewrite String.eqb_refl; by destruct (String.eqb db "")).
  cbn [mbind outcome_bind]. rewrite Hr.
  replace (String.eqb (GetType rule) GlobalTableRuleType) with false
    by (symmetry; by apply String.eqb_neq).
  cbn [wrap mbind outcome_bind]. unfold checkStmtRouteResult.
  replace (String.eqb (GetType rule) GlobalTableRuleType) with false
    by (symmetry; by apply String.eqb_neq).
  cbn. unfold insert_info. by rewrite insert_empty.
Qed.

Section insert_stmt.
Context {db : string} {router : Router (T := T)} {seq : SequenceManager S} {stmt : InsertStmt T}
  {t : TableName} {alias : CIStr} {rule rule' : Rule T} {col : Z}.
Hypothesis OK : insert_ok db router seq stmt t alias rule rule' col.

Lemma precheck_ok : precheckInsertStmt (NewInsertPlan db router seq stmt) =
  Ret (NewInsertPlan db router seq stmt).
Proof.
  destruct OK as [H1 H2 _ _ _ _ _ _ _ H3 H4 (row & H5 & H6) _ _ _ _].
  unfold precheckInsertStmt. cbn [NewInsertPlan ip_stmt]. rewrite H1, H2. cbn [is_some].
  destruct (Columns stmt) as [|c cs]; [by rewrite <- H3 in H4|].
  destruct (Lists stmt) as [|r rs]; [done|]. injection H5 as ->.
  assert (index (row :: rs) 0 = Ret row) as -> by done. cbn [mbind outcome_bind].
  unfold zlen. rewrite H6, Z.eqb_refl. done.
Qed.

(** The plan before the values are handled. *)
Definition insert_plan : InsertPlan :=
  mk_InsertPlan (insert_info db router (L_ (tn_Name t)) rule)
    (mk_InsertStmt (IsReplace stmt) (ins_IgnoreErr stmt)
       (mk_join (Some (RTableSource (RTableNameD t rule) alias)) None CrossJoin None [] false false)
       (map removeSchemaAndTableInfoInColumnName (Columns stmt)) (Lists stmt) []
       (ins_Priority stmt) (map clean_assignment (OnDuplicate stmt)) None (ListsAssist stmt))
    (L_ (tn_Name t)) false col seq None.

Lemma insert_plan_rule : table_rule insert_plan = Ret rule.
Proof. unfold table_rule. cbn. by rewrite lookup_singleton_eq. Qed.

(** The statement with the table decorated, and with its names cleaned. *)
Definition decorated_insert (cols : list ColumnName) (dup : list (Assignment T)) : InsertStmt T :=
  mk_InsertStmt (IsReplace stmt) (ins_IgnoreErr stmt)
    (mk_join (Some (RTableSource (RTableNameD t rule) alias)) None CrossJoin None [] false false)
    cols (Lists stmt) (Setlist stmt) (ins_Priority stmt) dup (ins_Select stmt) (ListsAssist stmt).

Definition insert_step (cols : list ColumnName) (dup : list (Assignment T)) (i : Z) : InsertPlan :=
  mk_InsertPlan (insert_info db router (L_ (tn_Name t)) rule) (decorated_insert cols dup)
    (L_ (tn_Name t)) false i seq None.

Lemma insert_step_rule cols dup i : table_rule (insert_step cols dup i) = Ret rule.
Proof. unfold table_rule. cbn. by rewrite lookup_singleton_eq. Qed.

Lemma table_refs_step :
  handleInsertTableRefs (NewInsertPlan db router seq stmt) =
    Ret (false, insert_step (Columns stmt) (OnDuplicate stmt) (-1)).
Proof.
  destruct OK as [_ _ H3 H4 H5 H6 H7 _ _ _ _ _ _ _ _ _].
  unfold handleInsertTableRefs. cbn [NewInsertPlan ip_stmt]. rewrite H3. cbn [is_some]. cbn zeta.
  change (ip_info (with_table _ _)) with (NewTableAliasStmtInfo db router).
  rewrite (record_insert_table db router t rule H5 H6 H7). cbn [wrap mbind outcome_bind].
  unfold CreateTableNameDecorator. rewrite H4. cbn [wrap mbind outcome_bind].
  replace (String.eqb (GetType rule) GlobalTableRuleType) with false
    by (symmetry; by apply String.eqb_neq). reflexivity.
Qed.

Lemma sequence_step cols dup i :
  handleInsertGlobalSequenceValue (insert_step cols dup i) = Ret (insert_step cols dup i).
Proof.
  unfold handleInsertGlobalSequenceValue.
  change (GetSequence _ _ _) with (GetSequence seq db (L_ (tn_Name t))).
  by rewrite (io_sequence _ _ _ _ _ _ _ _ _ OK).
Qed.

Lemma columns_step dup :
  handleInsertColumnNames (insert_step (Columns stmt) dup (-1)) =
    Ret (insert_step (map removeSchemaAndTableInfoInColumnName (Columns stmt)) dup col).
Proof.
  unfold handleInsertColumnNames. cbn zeta. rewrite insert_step_rule.
  change (Columns (ip_stmt (insert_step _ _ _))) with (Columns stmt).
  change (shardingColumnIndex _) with (-1).
  change (isAssignmentMode _) with false. cbn iota.
  pose proof (io_column _ _ _ _ _ _ _ _ _ OK) as H9. pose proof (io_found _ _ _ _ _ _ _ _ _ OK) as H10.
  destruct (Columns stmt) as [|c cs] eqn:Ec; [by rewrite <- H9 in H10|].
  cbn [mbind outcome_bind]. rewrite H9. replace (col =? -1) with false by lia.
  unfold insert_step, decorated_insert. reflexivity.
Qed.

Lemma duplicate_step cols :
  handleInsertOnDuplicate (insert_step cols (OnDuplicate stmt) col) =
    Ret (insert_step cols (map clean_assignment (OnDuplicate stmt)) col).
Proof.
  unfold handleInsertOnDuplicate. cbn zeta. rewrite insert_step_rule.
  change (OnDuplicate (ip_stmt _)) with (OnDuplicate stmt).
  pose proof (io_duplicate _ _ _ _ _ _ _ _ _ OK) as H.
  destruct (OnDuplicate stmt) as [|a l] eqn:Ea; [by unfold insert_step, decorated_insert|].
  cbn [mbind outcome_bind]. rewrite H. reflexivity.
Qed.

Lemma insert_steps : HandleInsertStmt (NewInsertPlan db router seq stmt) =
  (p ← wrap "handleInsertValues error: %v" (handleInsertValues insert_plan);
   '(sqls, rr) ← insert_sqls p;
   Ret (with_sqls (with_info p (set_result (ip_info p) rr)) sqls)).
Proof.
  unfold HandleInsertStmt. rewrite precheck_ok. cbn [mbind outcome_bind].
  rewrite table_refs_step. cbn [wrap mbind outcome_bind].
  rewrite sequence_step. cbn [wrap mbind outcome_bind].
  rewrite columns_step. cbn [wrap mbind outcome_bind].
  rewrite duplicate_step. cbn [wrap mbind outcome_bind].
  unfold insert_step, decorated_insert, insert_plan.
  by rewrite (io_select _ _ _ _ _ _ _ _ _ OK), (io_values _ _ _ _ _ _ _ _ _ OK).
Qed.

Lemma insert_values_step :
  exists m l, handleInsertValues insert_plan =
      Ret (with_stmt (with_info insert_plan (set_result (ip_info insert_plan)
             (set_indexes (si_result (ip_info insert_plan)) l)))
             (rewritten_insert rule stmt t alias m)) /\
    ascending l /\
    (forall j, j ∈ l <-> exists row, row ∈ Lists stmt /\ row_table rule col row = Some j) /\
    (forall j, value_map_get j m = rows_of rule col j (Lists stmt)).
Proof.
  destruct (handleInsertValues_rows insert_plan rule) as (m & l & H1 & H2 & H3 & H4).
  - done.
  - apply insert_plan_rule.
  - destruct OK as [_ _ _ _ _ _ _ _ _ _ _ (row & H & _) _ _ _ _]. cbn. by destruct (Lists stmt).
  - apply (io_ascending _ _ _ _ _ _ _ _ _ OK).
  - apply (io_rows _ _ _ _ _ _ _ _ _ OK).
  - exists m, l. split_and!; [exact H1|done|done|done].
Qed.

End insert_stmt.

(** The tables the rows of an INSERT belong to are sub tables, so there are not
    more of them than the rule has. *)
Lemma ascending_subset_length (l k : list Z) :
  ascending l -> (forall j, j ∈ l -> j ∈ k) -> zlen l <= zlen k.
Proof.
  intros Hl Hsub. unfold zlen. apply inj_le. apply submseteq_length. apply NoDup_submseteq; [|done].
  by apply ascending_NoDup.
Qed.

(** C6: an INSERT of literal keys sends to every table exactly the rows whose key
    the rule puts there. The plan has, for every slice and database, the statements
    of the tables that lie there and get rows, in order; the statement of table [j]
    is the text of inserting the rows of [j], in their order, into the physical
    table of [j]. No row is lost and none is written twice. *)
Theorem insert_sends_rows db router seq stmt t alias rule rule' col tgt q :
  insert_ok db router seq stmt t alias rule rule' col ->
  (forall j, j ∈ GetSubTableIndexes rule -> database_ok rule t j /\ target rule' j = Ret (tgt j)) ->
  (forall j, j ∈ GetSubTableIndexes rule -> rows_of rule col j (Lists stmt) <> [] ->
     restored_sql (InsertStmt_Restore EscapeRestoreFlags (NewRouteResult "" "" [j])
                     (physical_insert rule col stmt t alias j)) = Ret (q j)) ->
  exists p sqls l, HandleInsertStmt (NewInsertPlan db router seq stmt) = Ret p /\
    ip_sqls p = Some sqls /\ ascending l /\
    (forall j, j ∈ l <-> exists row, row ∈ Lists stmt /\ row_table rule col row = Some j) /\
    forall s d, sqls_at sqls s d = map q (filter (fun j => tgt j = (s, d)) l).
Proof.
  intros OK Htgt Hq. rewrite (insert_steps OK).
  destruct (insert_values_step OK) as (m & l & -> & Hasc & Hl & Hm). cbn [wrap mbind outcome_bind].
  assert (forall j, j ∈ l -> j ∈ GetSubTableIndexes rule /\ rows_of rule col j (Lists stmt) <> []) as Hin.
  { intros j (row & Hrow & Hj)%Hl. split.
    - destruct OK as [_ _ _ _ _ _ _ _ _ _ _ _ _ Hrows _ _]. rewrite Forall_forall in Hrows.
      destruct (Hrows row Hrow) as (j' & ? & ?). by simplify_eq.
    - intros Hnil. assert (row ∈ rows_of rule col j (Lists stmt)) as Hr
        by (by apply list_elem_of_filter). rewrite Hnil in Hr. by apply elem_of_nil in Hr. }
  unfold insert_sqls. cbn [with_stmt with_info ip_stmt ip_info set_result si_result si_router].
  erewrite (generateShardingSQLs_eq _ _ _ rule' q tgt).
  - cbn [mbind outcome_bind]. eexists _, _, l. split_and!; [done|done|done|done|].
    intros s d. by rewrite sqls_of_at.
  - cbn. pose proof (ascending_subset_length l (GetSubTableIndexes rule) Hasc (fun j H => proj1 (Hin j H))).
    pose proof (io_length _ _ _ _ _ _ _ _ _ OK). lia.
  - apply (io_parent _ _ _ _ _ _ _ _ _ OK).
  - intros j Hj. by apply Htgt, Hin.
  - intros k j Hj. cbn [indexes set_indexes] in Hj.
    destruct (Hin j) as [Hsub Hne]; [by eapply list_elem_of_lookup_2|].
    assert (GetCurrentTableIndex (cursor_at (set_indexes (si_result (ip_info
      (insert_plan (db := db) (router := router) (seq := seq) (stmt := stmt) (t := t) (alias := alias)
         (rule := rule) (col := col)))) l) k) = Ret j) as Hcur.
    { eapply Next_at; [exact Hj|]. cbn.
      pose proof (ascending_subset_length l (GetSubTableIndexes rule) Hasc (fun j H => proj1 (Hin j H))).
      pose proof (io_length _ _ _ _ _ _ _ _ _ OK). lia. }
    eapply insert_text; [exact Hcur|apply (io_type _ _ _ _ _ _ _ _ _ OK)|by apply Htgt|done|done|].
    etrans; [|exact (Hq j Hsub Hne)]. apply (f_equal restored_sql).
    apply InsertStmt_current. rewrite Hcur. reflexivity.
  - done.
Qed.

(** ** What the planner does with keys that are no literals *)

(** Whatever the rows, a statement has the rows of its tables only. *)
Lemma insert_rows_inv p rule rows m m' :
  table_rule p = Ret rule -> insert_rows p rows m = Ret m' ->
  forall j, value_map_get j m' = value_map_get j m ++ rows_of rule (shardingColumnIndex p) j rows.
Proof.
  intros Hr. revert m. induction rows as [|row rows IH]; intros m Hm j.
  - injection Hm as <-. by rewrite app_nil_r.
  - destruct (row_table rule (shardingColumnIndex p) row) as [i|] eqn:Ei.
    + rewrite (insert_rows_cons _ _ _ _ _ _ Hr Ei) in Hm.
      rewrite (IH _ Hm j), value_map_get_append, rows_of_cons, Ei. destruct (j =? i) eqn:E.
      * replace j with i by lia. rewrite decide_True by done. by rewrite <- app_assoc.
      * by rewrite decide_False by (intros [=]; lia).
    + rewrite rows_of_cons, Ei, decide_False by done. cbn [app]. unfold row_table in Ei.
      cbn [insert_rows] in Hm. destruct (index row (shardingColumnIndex p)) as [e| |]; [|done..].
      cbn [mbind outcome_bind] in Hm. rewrite Hr in Hm. cbn [mbind outcome_bind] in Hm.
      destruct e; try (by apply IH). by destruct (route_value rule d).
Qed.

(** C36: a row of VALUES whose sharding value is an expression and not a literal
    (a negative number is one) is in no statement of the plan: when another row of
    the batch has a literal key the INSERT succeeds and the row is lost. *)
Theorem insert_loses_computed_keys p p' rule row e :
  handleInsertValues p = Ret p' -> isAssignmentMode p = false -> table_rule p = Ret rule ->
  index row (shardingColumnIndex p) = Ret e -> expr_is_value e = false ->
  exists m, ListsAssist (ip_stmt p') = Some m /\ forall j, row ∉ value_map_get j m.
Proof.
  intros Hv Hm Hr He Hlit. unfold handleInsertValues in Hv. rewrite Hm in Hv. cbn zeta in Hv.
  apply bind_Ret in Hv as (m & Hrows & Hv). exists m.
  assert (ListsAssist (ip_stmt p') = Some m) as ->
    by (destruct (GetShardIndexes _); [done|]; by injection Hv as <-).
  split; [done|]. intros j. rewrite (insert_rows_inv _ _ _ _ _ Hr Hrows j). cbn [value_map_get find app].
  unfold rows_of. rewrite list_elem_of_filter. intros [Hj _]. unfold row_table in Hj.
  rewrite He in Hj. by destruct e.
Qed.

End insert.

(** * Examples *)

#[local] Instance no_sequences : Sequence unit :=
  {| GetPKName _ := EmptyString; NextSeq s := (Ret 0, s) |}.

Definition example_rows (rows : list (list (expr (gmap Z Z)))) (sets : list (Assignment (gmap Z Z))) :
    InsertStmt (gmap Z Z) :=
  mk_InsertStmt false false (from_table (table_named "tbl"))
    (match sets with [] => [column "id"; column "name"] | _ => [] end) rows sets NoPriority [] None None.

Definition example_plan (stmt : InsertStmt (gmap Z Z)) : outcome (InsertPlan (S := unit)) :=
  HandleInsertStmt (NewInsertPlan "db" example_router ∅ stmt).

(** The statements of a plan as lists. *)
Definition plan_sqls (p : outcome (InsertPlan (T := gmap Z Z) (S := unit))) :
    option (list (string * list (string * list string))) :=
  match p with
  | Ret p => option_map (fun m => map (fun x => (x.1, map_to_list x.2)) (map_to_list m)) (ip_sqls p)
  | _ => None
  end.

Definition two_rows : InsertStmt (gmap Z Z) :=
  example_rows [[int_lit 7; int_lit 1]; [int_lit 3; int_lit 2]; [int_lit 12; int_lit 3]] [].

Definition example_target (j : Z) : string * string :=
  match target tbl_rule j with Ret sd => sd | _ => (""%string, ""%string) end.

Definition example_text (j : Z) : string :=
  match restored_sql (InsertStmt_Restore EscapeRestoreFlags (NewRouteResult "" "" [j])
          (physical_insert tbl_rule 0 two_rows (table_named "tbl") (NewCIStr "") j)) with
  | Ret q => q
  | _ => ""%string
  end.

Lemma two_rows_ok : insert_ok "db" example_router (∅ : SequenceManager unit) two_rows
  (table_named "tbl") (NewCIStr "") tbl_rule tbl_rule 0.
Proof.
  split; try reflexivity.
  - by left.
  - discriminate.
  - discriminate.
  - eexists. split; reflexivity.
  - unfold two_rows, example_rows. cbn [Lists].
    repeat (apply Forall_cons; split; [eexists; split; [vm_compute; reflexivity|]; apply list_elem_of_In; vm_compute; tauto|]).
    apply Forall_nil_2.
  - repeat constructor.
Qed.

Lemma insert_sends_rows_witness :
  exists p sqls l, example_plan two_rows = Ret p /\ ip_sqls p = Some sqls /\ ascending l /\
    (forall j, j ∈ l <-> exists row, row ∈ Lists two_rows /\ row_table tbl_rule 0 row = Some j) /\
    forall s d, sqls_at sqls s d = map example_text (filter (fun j => example_target j = (s, d)) l).
Proof.
  refine (insert_sends_rows "db" example_router (∅ : SequenceManager unit) two_rows
           (table_named "tbl") (NewCIStr "") tbl_rule tbl_rule 0 example_target example_text
           two_rows_ok _ _).
  - intros j Hj. apply list_elem_of_In in Hj. cbn in Hj.
    repeat destruct Hj as [<-|Hj]; try done; (split; [intros Hm; discriminate Hm|reflexivity]).
  - intros j Hj _. apply list_elem_of_In in Hj. cbn in Hj.
    repeat destruct Hj as [<-|Hj]; try done; reflexivity.
Defined.

(** The statements of the example: rows 7 and 12 belong together. *)
Example two_rows_sqls : plan_sqls (example_plan two_rows) =
  Some [("slice-1", [("db", ["INSERT INTO `tbl_0002` (`id`,`name`) VALUES (7,1),(12,3)";
                             "INSERT INTO `tbl_0003` (`id`,`name`) VALUES (3,2)"])])]%string.
Proof. vm_compute. reflexivity. Qed.

Definition lost_row : list (expr (gmap Z Z)) := [minus_lit 5; int_lit 2].

(** The plan of [INSERT INTO tbl (id, name) VALUES (7, 1), (-5, 2)] before its
    values are handled. *)
Definition lossy_plan : InsertPlan (S := unit) :=
  mk_InsertPlan (insert_info "db" example_router "tbl" tbl_rule)
    (example_rows [[int_lit 7; int_lit 1]; lost_row] []) "tbl" false 0 ∅ None.

Definition lossy_result : InsertPlan (S := unit) :=
  match handleInsertValues lossy_plan with Ret p => p | _ => lossy_plan end.

Lemma lossy_result_eq : handleInsertValues lossy_plan = Ret lossy_result.
Proof. vm_compute. reflexivity. Qed.

Lemma insert_loses_computed_keys_witness :
  lost_row ∈ Lists (ip_stmt lossy_plan) /\
  exists m, ListsAssist (ip_stmt lossy_result) = Some m /\ forall j, lost_row ∉ value_map_get j m.
Proof.
  split; [apply list_elem_of_In; right; left; reflexivity|].
  apply (insert_loses_computed_keys lossy_plan lossy_result tbl_rule lost_row (minus_lit 5)
           lossy_result_eq); reflexivity.
Defined.

(** The whole statement succeeds with one row less. *)
Example negative_key_is_lost :
  plan_sqls (example_plan (example_rows [[int_lit 7; int_lit 1]; lost_row] [])) =
  Some [("slice-1", [("db", ["INSERT INTO `tbl_0002` (`id`,`name`) VALUES (7,1)"])])]%string.
Proof. vm_compute. reflexivity. Qed.

(** INSERT ... SET with a sharding value that is no literal is not routed: the
    row of [INSERT INTO tbl SET id = -5, name = 2] is written to all five tables. *)
Theorem insert_set_writes_everywhere :
  plan_sqls (example_plan (example_rows []
    [mk_Assignment (column "id") (minus_lit 5); mk_Assignment (column "name") (int_lit 2)])) =
  Some [("slice-1", [("db", ["INSERT INTO `tbl_0002` SET `id`=-5,`name`=2";
                             "INSERT INTO `tbl_0003` SET `id`=-5,`name`=2";
                             "INSERT INTO `tbl_0004` SET `id`=-5,`name`=2"])]);
        ("slice-0", [("db", ["INSERT INTO `tbl_0000` SET `id`=-5,`name`=2";
                             "INSERT INTO `tbl_0001` SET `id`=-5,`name`=2"])])]%string.
Proof. vm_compute. reflexivity. Qed.

(** Only the first row is checked against the columns: a later row too short to
    have a sharding value makes the planner panic. *)
Theorem insert_short_row_panics :
  example_plan (example_rows [[int_lit 7; int_lit 1]; []] []) = Panic "index out of range".
Proof. vm_compute. reflexivity. Qed.
