(* ===== verification/Encoding.v ===== *)
(** mysql/encoding.go: the integer and string encodings of the MySQL protocol.
    A packet is a list of bytes; a writer returns the changed packet with the
    next position, a reader returns [None] where the code returns [ok = false]. *)

From Stdlib Require Import Ascii String.
From S2P Require Import Prelude GoStr.

(** * Writers *)

Definition LenEncIntSize (i : Z) : Z :=
  if i <? 251 then 1 else if i <? 2 ^ 16 then 3 else if i <? 2 ^ 24 then 4 else 9.

(** [data[pos] = b0; data[pos+1] = b1; ...] *)
Fixpoint put (data : list Z) (pos : Z) (bs : list Z) : outcome (list Z) :=
  match bs with
  | [] => Ret data
  | b :: bs' => d ← store data pos b; put d (pos + 1) bs'
  end.

(** [byte(i >> n)] *)
Definition byte_at (i n : Z) : Z := u8 (Z.shiftr i n).

Definition bytes2 (i : Z) : list Z := [byte_at i 0; byte_at i 8].
Definition bytes3 (i : Z) : list Z := [byte_at i 0; byte_at i 8; byte_at i 16].
Definition bytes4 (i : Z) : list Z := [byte_at i 0; byte_at i 8; byte_at i 16; byte_at i 24].
Definition bytes8 (i : Z) : list Z :=
  [byte_at i 0; byte_at i 8; byte_at i 16; byte_at i 24;
   byte_at i 32; byte_at i 40; byte_at i 48; byte_at i 56].

Definition WriteLenEncInt (data : list Z) (pos i : Z) : outcome (list Z * Z) :=
  if i <? 251 then d ← put data pos [u8 i]; Ret (d, pos + 1)
  else if i <? 2 ^ 16 then d ← put data pos (252 :: bytes2 i); Ret (d, pos + 3)
  else if i <? 2 ^ 24 then d ← put data pos (253 :: bytes3 i); Ret (d, pos + 4)
  else d ← put data pos (254 :: bytes8 i); Ret (d, pos + 9).

Definition AppendLenEncInt (data : list Z) (i : Z) : list Z :=
  if i <=? 250 then data ++ [u8 i]
  else if i <=? 65535 then data ++ 252 :: bytes2 i
  else if i <=? 16777215 then data ++ 253 :: bytes3 i
  else if i <=? 18446744073709551615 then data ++ 254 :: bytes8 i
  else data.

Definition LenNullString (value : list Z) : Z := zlen value + 1.

(** [pos += copy(data[pos:], value)]: as many bytes as fit. *)
Definition writeEOFString (data : list Z) (pos : Z) (value : list Z) : outcome (list Z * Z) :=
  rest ← reslice data pos (zlen data);
  let n := Z.min (zlen rest) (zlen value) in
  d ← put data pos (take (Z.to_nat n) value);
  Ret (d, pos + n).

Definition WriteNullString (data : list Z) (pos : Z) (value : list Z) : outcome (list Z * Z) :=
  '(d, pos) ← writeEOFString data pos value;
  d ← put d pos [0]; Ret (d, pos + 1).

Definition WriteByte (data : list Z) (pos value : Z) : outcome (list Z * Z) :=
  d ← put data pos [value]; Ret (d, pos + 1).
Definition WriteUint16 (data : list Z) (pos value : Z) : outcome (list Z * Z) :=
  d ← put data pos (bytes2 value); Ret (d, pos + 2).
Definition WriteUint32 (data : list Z) (pos value : Z) : outcome (list Z * Z) :=
  d ← put data pos (bytes4 value); Ret (d, pos + 4).
Definition WriteUint64 (data : list Z) (pos value : Z) : outcome (list Z * Z) :=
  d ← put data pos (bytes8 value); Ret (d, pos + 8).

Definition AppendUint16 (data : list Z) (n : Z) : list Z := data ++ bytes2 n.
Definition AppendUint32 (data : list Z) (n : Z) : list Z := data ++ bytes4 n.
Definition AppendUint64 (data : list Z) (n : Z) : list Z := data ++ bytes8 n.

Definition LenEncStringSize (value : list Z) : Z := LenEncIntSize (zlen value) + zlen value.

Definition WriteLenEncString (data : list Z) (pos : Z) (value : list Z) : outcome (list Z * Z) :=
  '(d, pos) ← WriteLenEncInt data pos (zlen value); writeEOFString d pos value.

Definition AppendLenEncStringBytes (data b : list Z) : list Z :=
  AppendLenEncInt data (zlen b) ++ b.

Definition WriteZeroes (data : list Z) (pos len : Z) : outcome (list Z * Z) :=
  d ← put data pos (replicate (Z.to_nat len) 0); Ret (d, pos + len).

(** * Readers *)

(** [b0 << n | b1 << (n+8) | ...] *)
Fixpoint le_or (n : Z) (bs : list Z) : Z :=
  match bs with
  | [] => 0
  | b :: bs' => Z.lor (Z.shiftl b n) (le_or (n + 8) bs')
  end.

Definition ReadByte (data : list Z) (pos : Z) : outcome (option (Z * Z)) :=
  if zlen data <=? pos then Ret None else b ← index data pos; Ret (Some (b, pos + 1)).

Definition ReadBytes (data : list Z) (pos size : Z) : outcome (option (list Z * Z)) :=
  if zlen data <=? i64 (pos + size - 1) then Ret None
  else d ← reslice data pos (i64 (pos + size)); Ret (Some (d, i64 (pos + size))).

(** [make([]byte, size)] panics on a negative size. *)
Definition ReadBytesCopy (data : list Z) (pos size : Z) : outcome (option (list Z * Z)) :=
  if zlen data <=? i64 (pos + size - 1) then Ret None
  else if size <? 0 then Panic "makeslice: len out of range"
  else d ← reslice data pos (i64 (pos + size)); Ret (Some (d, i64 (pos + size))).

Fixpoint index_byte (bs : list Z) (c : Z) : option nat :=
  match bs with
  | [] => None
  | b :: bs' => if b =? c then Some O else S <$> index_byte bs' c
  end.

Definition ReadNullString (data : list Z) (pos : Z) : outcome (option (list Z * Z)) :=
  rest ← reslice data pos (zlen data);
  match index_byte rest 0 with
  | None => Ret None
  | Some e => d ← reslice data pos (pos + Z.of_nat e); Ret (Some (d, pos + Z.of_nat e + 1))
  end.

(** A fixed number of bytes, least significant first. *)
Definition read_fixed (n : Z) (data : list Z) (pos : Z) : outcome (option (Z * Z)) :=
  if zlen data <=? pos + (n - 1) then Ret None
  else d ← reslice data pos (pos + n); Ret (Some (le_or 0 d, pos + n)).

Definition ReadUint16 := read_fixed 2.
Definition ReadUint32 := read_fixed 4.
Definition ReadUint64 := read_fixed 8.

(** [(value, pos, isNull)] *)
Definition ReadLenEncInt (data : list Z) (pos : Z) : outcome (option (Z * Z * bool)) :=
  if zlen data <=? pos then Ret None else
  b ← index data pos;
  let wide n :=
    if zlen data <=? pos + n then Ret None
    else bs ← mapM (fun k => index data (pos + k)) (seqZ 1 n);
         Ret (Some (le_or 0 bs, pos + n + 1, false)) in
  if b =? 251 then Ret (Some (0, pos + 1, true))
  else if b =? 252 then wide 2
  else if b =? 253 then wide 3
  else if b =? 254 then wide 8
  else Ret (Some (b, pos + 1, false)).

Definition readLenEncString (data : list Z) (pos : Z) : outcome (option (list Z * Z)) :=
  r ← ReadLenEncInt data pos;
  match r with
  | None => Ret None
  | Some (size, pos, _) =>
      let s := i64 size in
      if zlen data <=? i64 (pos + s - 1) then Ret None
      else d ← reslice data pos (i64 (pos + s)); Ret (Some (d, i64 (pos + s)))
  end.

Definition skipLenEncString (data : list Z) (pos : Z) : outcome (option Z) :=
  r ← ReadLenEncInt data pos;
  match r with
  | None => Ret None
  | Some (size, pos, _) =>
      let s := i64 size in
      if zlen data <=? i64 (pos + s - 1) then Ret None else Ret (Some (i64 (pos + s)))
  end.

Definition ReadLenEncStringAsBytes (data : list Z) (pos : Z) :
    outcome (option (list Z * Z * bool)) :=
  r ← ReadLenEncInt data pos;
  match r with
  | None => Ret None
  | Some (size, pos, isNull) =>
      let s := i64 size in
      if zlen data <=? i64 (pos + s - 1) then Ret None
      else d ← reslice data pos (i64 (pos + s)); Ret (Some (d, i64 (pos + s), isNull))
  end.

(** * Little-endian numbers *)

Fixpoint le_bytes (n : nat) (i : Z) : list Z :=
  match n with O => [] | S n' => u8 i :: le_bytes n' (Z.shiftr i 8) end.

Lemma le_bytes_eq i :
  bytes2 i = le_bytes 2 i /\ bytes3 i = le_bytes 3 i /\ bytes4 i = le_bytes 4 i /\
  bytes8 i = le_bytes 8 i.
Proof.
  unfold bytes2, bytes3, bytes4, bytes8, byte_at. cbn [le_bytes].
  rewrite !Z.shiftr_shiftr, !Z.shiftr_0_r by lia. done.
Qed.

Lemma land_shiftl_8 b c : 0 <= b < 256 -> Z.land b (Z.shiftl c 8) = 0.
Proof.
  intros Hb. apply Z.bits_inj'. intros n Hn. rewrite Z.land_spec, Z.bits_0.
  destruct (Z.ltb_spec n 8).
  - rewrite (Z.shiftl_spec_low c 8 n) by lia. apply andb_false_r.
  - rewrite (Z.bits_above_log2 b n); [done|lia|].
    destruct (decide (b = 0)) as [->|]; [cbn; lia|].
    apply Z.log2_lt_pow2; [lia|]. apply Z.lt_le_trans with (2 ^ 8); [lia|].
    apply Z.pow_le_mono_r; lia.
Qed.

Lemma lor_shiftl_8 b c : 0 <= b < 256 -> Z.lor b (Z.shiftl c 8) = b + 256 * c.
Proof.
  intros Hb. pose proof (Z.add_lor_land b (Z.shiftl c 8)) as E.
  rewrite land_shiftl_8 in E by done. rewrite Z.shiftl_mul_pow2 in * by lia.
  change (2 ^ 8) with 256 in *. lia.
Qed.

Lemma le_or_shift n bs : 0 <= n -> le_or n bs = Z.shiftl (le_or 0 bs) n.
Proof.
  revert n. induction bs as [|b bs IH]; intros n Hn; cbn [le_or].
  - by rewrite Z.shiftl_0_l.
  - rewrite (IH (n + 8)), (IH (0 + 8)), Z.shiftl_lor, !Z.shiftl_shiftl by lia.
    do 2 f_equal; lia.
Qed.

Lemma le_or_le_bytes n i : le_or 0 (le_bytes n i) = i mod 2 ^ (8 * Z.of_nat n).
Proof.
  revert i. induction n as [|n IH]; intros i.
  - cbn. by rewrite Z.mod_1_r.
  - cbn [le_bytes le_or]. rewrite Z.shiftl_0_r, le_or_shift, IH by lia.
    pose proof (u8_range i) as Hu. unfold is_u8 in Hu. rewrite lor_shiftl_8 by done.
    rewrite Z.shiftr_div_pow2 by lia. unfold u8. change (2 ^ 8) with 256.
    replace (8 * Z.of_nat (S n)) with (8 + 8 * Z.of_nat n) by lia.
    rewrite Z.pow_add_r by lia. change (2 ^ 8) with 256.
    rewrite Z.rem_mul_r; [|lia|apply Z.pow_pos_nonneg; lia]. lia.
Qed.

Lemma length_le_bytes n i : length (le_bytes n i) = n.
Proof. revert i. induction n; intros i; cbn; auto. Qed.

(** * Packets *)

Lemma store_app {A} (p : list A) x q b : store (p ++ x :: q) (zlen p) b = Ret (p ++ b :: q).
Proof.
  unfold store, zlen. rewrite decide_True by (rewrite length_app; cbn; lia).
  rewrite Nat2Z.id, insert_app_r_alt, Nat.sub_diag by lia. done.
Qed.

Lemma put_app p old q bs :
  length old = length bs -> put (p ++ old ++ q) (zlen p) bs = Ret (p ++ bs ++ q).
Proof.
  revert p old. induction bs as [|b bs IH]; intros p [|o old] Hl; try done.
  cbn [put app]. rewrite store_app. cbn [mbind outcome_bind].
  specialize (IH (p ++ [b]) old ltac:(cbn in Hl; lia)).
  rewrite <- !app_assoc in IH. cbn [app] in IH. rewrite zlen_app, zlen_cons, zlen_nil in IH.
  exact IH.
Qed.

(** A packet cut at a position and at the end of a field. *)
Lemma packet_split (data : list Z) pos n :
  0 <= pos -> 0 <= n -> pos + n <= zlen data ->
  exists p old q, data = p ++ old ++ q /\ zlen p = pos /\ zlen old = n.
Proof.
  intros Hp Hn Hl. unfold zlen in *.
  exists (take (Z.to_nat pos) data), (take (Z.to_nat n) (drop (Z.to_nat pos) data)),
    (drop (Z.to_nat n) (drop (Z.to_nat pos) data)).
  rewrite !take_drop, !length_take, length_drop. split_and!; [done|lia|lia].
Qed.

Lemma index_packet (p : list Z) b q : index (p ++ b :: q) (zlen p) = Ret b.
Proof.
  apply index_Ret. split; [apply zlen_nonneg|]. unfold zlen.
  rewrite Nat2Z.id, lookup_app_r, Nat.sub_diag by lia. done.
Qed.

Lemma index_run (p : list Z) bs q :
  mapM (fun k => index (p ++ bs ++ q) (zlen p + k)) (seqZ 0 (zlen bs)) = Ret bs.
Proof.
  apply mapM_Ret. apply Forall2_same_length_lookup. split.
  { rewrite length_seqZ. unfold zlen. lia. }
  intros k x b Hx Hb. apply lookup_seqZ in Hx as [-> _].
  apply index_Ret. unfold zlen. split; [lia|].
  rewrite lookup_app_r by lia. rewrite lookup_app_l by (apply lookup_lt_Some in Hb; lia).
  replace (Z.to_nat _ - _)%nat with k by lia. done.
Qed.

Lemma reslice_packet (p b q : list Z) :
  reslice (p ++ b ++ q) (zlen p) (zlen p + zlen b) = Ret b.
Proof.
  unfold reslice. rewrite decide_True
    by (rewrite !zlen_app; pose proof (zlen_nonneg p); pose proof (zlen_nonneg b);
        pose proof (zlen_nonneg q); lia).
  f_equal. unfold zlen. rewrite Nat2Z.id, drop_app_length.
  replace (Z.to_nat _) with (length b) by lia. apply take_app_length.
Qed.

(** * Length-encoded integers *)

(** The encoding, by the size classes of the protocol. *)
Definition enc_int (i : Z) : list Z :=
  if i <? 251 then [u8 i]
  else if i <? 2 ^ 16 then 252 :: le_bytes 2 i
  else if i <? 2 ^ 24 then 253 :: le_bytes 3 i
  else 254 :: le_bytes 8 i.

Lemma zlen_enc_int i : zlen (enc_int i) = LenEncIntSize i.
Proof. unfold enc_int, LenEncIntSize. repeat case_match; done. Qed.

Lemma WriteLenEncInt_eq data pos i :
  WriteLenEncInt data pos i = (d ← put data pos (enc_int i); Ret (d, pos + LenEncIntSize i)).
Proof.
  destruct (le_bytes_eq i) as (E2 & E3 & _ & E8).
  unfold WriteLenEncInt, enc_int, LenEncIntSize. rewrite E2, E3, E8. repeat case_match; done.
Qed.

Lemma AppendLenEncInt_eq data i : is_u64 i -> AppendLenEncInt data i = data ++ enc_int i.
Proof.
  intros Hi. destruct (le_bytes_eq i) as (E2 & E3 & _ & E8).
  unfold AppendLenEncInt, enc_int. rewrite E2, E3, E8. change (2 ^ 24) with 16777216.
  unfold_int. repeat case_match; try done; lia.
Qed.

Lemma wide_read (p : list Z) (b : Z) (bs q : list Z) n :
  zlen bs = n ->
  mapM (fun k => index (p ++ b :: bs ++ q) (zlen p + k)) (seqZ 1 n) = Ret bs.
Proof.
  intros <-. pose proof (index_run (p ++ [b]) bs q) as E.
  rewrite <- app_assoc in E. cbn [app] in E. rewrite zlen_app, zlen_cons, zlen_nil in E.
  replace (seqZ 1 (zlen bs)) with (map (Z.add 1) (seqZ 0 (zlen bs)))
    by apply (fmap_add_seqZ 1 0).
  apply mapM_Ret. apply mapM_Ret in E. apply Forall2_fmap_l.
  eapply Forall2_impl; [exact E|]. intros k x Hk. cbn beta in *.
  unfold compose. by replace (zlen p + (1 + k)) with (zlen p + (0 + 1) + k) by lia.
Qed.

Lemma read_wide p tag n bs q :
  (tag = 252 /\ n = 2) \/ (tag = 253 /\ n = 3) \/ (tag = 254 /\ n = 8) -> zlen bs = n ->
  ReadLenEncInt (p ++ tag :: bs ++ q) (zlen p) =
    Ret (Some (le_or 0 bs, zlen p + n + 1, false)).
Proof.
  intros Ht Hn. unfold ReadLenEncInt. rewrite index_packet.
  assert (zlen (p ++ tag :: bs ++ q) = zlen p + n + zlen q + 1) as ->
    by (rewrite zlen_app, zlen_cons, zlen_app; lia).
  pose proof (zlen_nonneg q). pose proof (zlen_nonneg bs).
  destruct (zlen p + n + zlen q + 1 <=? zlen p) eqn:E1; [lia|]. cbn [mbind outcome_bind].
  destruct Ht as [[-> ->]|[[-> ->]|[-> ->]]]; cbn [Z.eqb Pos.eqb];
    (match goal with |- (if ?c then _ else _) = _ => destruct c eqn:E2 end; [lia|]);
    rewrite wide_read by done; done.
Qed.

Lemma ReadLenEncInt_enc p q i :
  is_u64 i ->
  ReadLenEncInt (p ++ enc_int i ++ q) (zlen p) = Ret (Some (i, zlen p + LenEncIntSize i, false)).
Proof.
  intros Hi. unfold enc_int, LenEncIntSize. pose proof (zlen_nonneg q) as Hq.
  destruct (i <? 251) eqn:E1.
  - unfold ReadLenEncInt. cbn [app]. rewrite index_packet. rewrite zlen_app, zlen_cons.
    destruct (_ <=? _) eqn:E; [lia|]. cbn [mbind outcome_bind].
    replace (u8 i) with i by (symmetry; apply Z.mod_small; unfold_int; lia).
    destruct (i =? 251) eqn:?; [lia|]. destruct (i =? 252) eqn:?; [lia|].
    destruct (i =? 253) eqn:?; [lia|]. destruct (i =? 254) eqn:?; [lia|]. done.
  - destruct (i <? 2 ^ 16) eqn:E2; [|destruct (i <? 2 ^ 24) eqn:E3]; cbn [app].
    + rewrite (read_wide _ _ 2), le_or_le_bytes, Z.mod_small by (auto; unfold_int; cbn; lia).
      do 4 f_equal. lia.
    + rewrite (read_wide _ _ 3), le_or_le_bytes, Z.mod_small by (auto; unfold_int; cbn; lia).
      do 4 f_equal. lia.
    + rewrite (read_wide _ _ 8), le_or_le_bytes, Z.mod_small by (auto; unfold_int; cbn; lia).
      do 4 f_equal. lia.
Qed.

(** Writing a 64-bit integer in length-encoded form changes exactly the
    [LenEncIntSize] bytes at the position, and reading there returns the integer
    and the position behind it. *)
Theorem lenenc_int_roundtrip data pos i :
  is_u64 i -> 0 <= pos -> pos + LenEncIntSize i <= zlen data ->
  exists data', WriteLenEncInt data pos i = Ret (data', pos + LenEncIntSize i) /\
    zlen data' = zlen data /\
    (forall j, j < pos \/ pos + LenEncIntSize i <= j ->
       data' !! Z.to_nat j = data !! Z.to_nat j \/ j < 0) /\
    ReadLenEncInt data' pos = Ret (Some (i, pos + LenEncIntSize i, false)).
Proof.
  intros Hi Hp Hl. rewrite <- (zlen_enc_int i) in *.
  destruct (packet_split data pos (zlen (enc_int i))) as (p & old & q & -> & <- & Ho);
    [done|apply zlen_nonneg|done|].
  rewrite WriteLenEncInt_eq, put_app by (unfold zlen in Ho; lia). cbn [mbind outcome_bind].
  exists (p ++ enc_int i ++ q). rewrite <- zlen_enc_int. split_and!; [done| | |].
  - rewrite !zlen_app, Ho. lia.
  - intros j Hj. destruct (decide (j < 0)) as [|Hj0]; [by right|left]. unfold zlen in *.
    destruct Hj as [Hj|Hj].
    + rewrite !lookup_app_l by lia. done.
    + rewrite !(lookup_app_r p), !lookup_app_r by lia. f_equal. lia.
  - rewrite ReadLenEncInt_enc, zlen_enc_int by done. done.
Qed.

Lemma lenenc_int_roundtrip_witness :
  exists data', WriteLenEncInt (replicate 12 7) 2 1000000 = Ret (data', 6) /\
    zlen data' = 12 /\
    (forall j, j < 2 \/ 6 <= j -> data' !! Z.to_nat j = replicate 12 7 !! Z.to_nat j \/ j < 0) /\
    ReadLenEncInt data' 2 = Ret (Some (1000000, 6, false)).
Proof.
  apply (lenenc_int_roundtrip (replicate 12 7) 2 1000000); [unfold_int; lia|lia|].
  vm_compute. discriminate.
Defined.

(** * Length-encoded strings *)

Lemma ReadString_enc p b q :
  zlen p + 9 + zlen b <= max_i64 ->
  ReadLenEncStringAsBytes (p ++ (enc_int (zlen b) ++ b) ++ q) (zlen p) =
    Ret (Some (b, zlen p + LenEncStringSize b, false)).
Proof.
  intros Hm. pose proof (zlen_nonneg b) as Hb. pose proof (zlen_nonneg p) as Hp.
  pose proof (zlen_nonneg q) as Hq.
  unfold ReadLenEncStringAsBytes. rewrite <- app_assoc, ReadLenEncInt_enc by (unfold_int; lia).
  cbn [mbind outcome_bind]. assert (1 <= LenEncIntSize (zlen b) <= 9) as Hs
    by (unfold LenEncIntSize; repeat case_match; lia).
  rewrite (i64_id (zlen b)) by (unfold_int; lia).
  rewrite !i64_id by (unfold_int; lia).
  rewrite !zlen_app, zlen_enc_int.
  destruct (_ <=? _) eqn:E; [lia|]. rewrite <- (zlen_enc_int (zlen b)) at 1 2.
  pose proof (reslice_packet (p ++ enc_int (zlen b)) b q) as R.
  rewrite zlen_app, <- app_assoc in R. rewrite R. cbn [mbind outcome_bind].
  unfold LenEncStringSize. do 4 f_equal. lia.
Qed.

(** A byte string appended or written in length-encoded form is read back
    with the position behind it; the written form occupies [LenEncStringSize]
    bytes. *)
Theorem lenenc_string_roundtrip data b post :
  zlen data + 9 + zlen b <= max_i64 ->
  ReadLenEncStringAsBytes (AppendLenEncStringBytes data b ++ post) (zlen data) =
    Ret (Some (b, zlen data + LenEncStringSize b, false)) /\
  forall pos, 0 <= pos -> pos + LenEncStringSize b <= zlen data ->
    exists data', WriteLenEncString data pos b = Ret (data', pos + LenEncStringSize b) /\
      zlen data' = zlen data /\
      ReadLenEncStringAsBytes data' pos = Ret (Some (b, pos + LenEncStringSize b, false)).
Proof.
  intros Hm. pose proof (zlen_nonneg b) as Hb. pose proof (zlen_nonneg data) as Hd. split.
  - unfold AppendLenEncStringBytes. rewrite AppendLenEncInt_eq by (unfold_int; lia).
    rewrite <- !app_assoc, (app_assoc (enc_int _)). by apply ReadString_enc.
  - intros pos Hp Hl.
    assert (LenEncStringSize b = zlen (enc_int (zlen b) ++ b)) as Hsz
      by (rewrite zlen_app, zlen_enc_int; done).
    destruct (packet_split data pos (LenEncStringSize b)) as (p & old & q & -> & <- & Ho);
      [done|rewrite Hsz; apply zlen_nonneg|done|].
    assert (exists o1 o2, old = o1 ++ o2 /\ length o1 = length (enc_int (zlen b)) /\
              length o2 = length b) as (o1 & o2 & -> & Ho1 & Ho2).
    { exists (take (length (enc_int (zlen b))) old), (drop (length (enc_int (zlen b))) old).
      rewrite Hsz, zlen_app in Ho. generalize dependent (enc_int (zlen b)).
      intros E _ Ho. unfold zlen in Ho.
      rewrite take_drop, length_take, length_drop. split_and!; [done|lia|lia]. }
    exists (p ++ (enc_int (zlen b) ++ b) ++ q). split_and!.
    + unfold WriteLenEncString. rewrite WriteLenEncInt_eq, <- !app_assoc, put_app by done.
      cbn [mbind outcome_bind]. unfold writeEOFString.
      pose proof (reslice_packet (p ++ enc_int (zlen b)) (o2 ++ q) []) as R.
      rewrite app_nil_r, zlen_app, zlen_enc_int, <- app_assoc in R.
      replace (zlen p + LenEncIntSize (zlen b) + zlen (o2 ++ q))
        with (zlen (p ++ enc_int (zlen b) ++ o2 ++ q)) in R
        by (rewrite !zlen_app, zlen_enc_int; lia).
      rewrite R. cbn [mbind outcome_bind].
      assert (zlen o2 = zlen b) as Hz by (unfold zlen; lia).
      rewrite zlen_app, Hz, Z.min_r by (pose proof (zlen_nonneg q); lia).
      replace (take (Z.to_nat (zlen b)) b) with b by (symmetry; apply take_ge; unfold zlen; lia).
      pose proof (put_app (p ++ enc_int (zlen b)) o2 q b Ho2) as Pt.
      rewrite zlen_app, zlen_enc_int, <- !app_assoc in Pt. rewrite Pt. cbn [mbind outcome_bind].
      unfold LenEncStringSize. do 2 f_equal. lia.
    + assert (zlen o1 = zlen (enc_int (zlen b))) by (unfold zlen at 1 2; lia).
      assert (zlen o2 = zlen b) by (unfold zlen; lia). rewrite !zlen_app. lia.
    + apply ReadString_enc. rewrite !zlen_app in Hm. pose proof (zlen_nonneg q).
      pose proof (zlen_nonneg o1). pose proof (zlen_nonneg o2). lia.
Qed.

Lemma lenenc_string_roundtrip_witness :
  ReadLenEncStringAsBytes (AppendLenEncStringBytes [1; 2] [65; 66; 67] ++ [9]) 2 =
    Ret (Some ([65; 66; 67], 6, false)).
Proof.
  apply (lenenc_string_roundtrip [1; 2] [65; 66; 67] [9]). vm_compute. discriminate.
Defined.

(** * Fixed-width integers *)

Lemma read_fixed_le k p n q :
  0 <= n < 2 ^ (8 * Z.of_nat k) ->
  read_fixed (Z.of_nat k) (p ++ le_bytes k n ++ q) (zlen p) = Ret (Some (n, zlen p + Z.of_nat k)).
Proof.
  intros Hn. unfold read_fixed. pose proof (reslice_packet p (le_bytes k n) q) as R.
  assert (zlen (le_bytes k n) = Z.of_nat k) as Hz by (unfold zlen; by rewrite length_le_bytes).
  rewrite Hz in R. rewrite R, !zlen_app, Hz. pose proof (zlen_nonneg q).
  destruct (_ <=? _) eqn:E; [lia|]. cbn [mbind outcome_bind]. by rewrite le_or_le_bytes, Z.mod_small.
Qed.

Lemma ReadUint16_bytes p n q :
  0 <= n < 2 ^ 16 -> ReadUint16 (p ++ bytes2 n ++ q) (zlen p) = Ret (Some (n, zlen p + 2)).
Proof. destruct (le_bytes_eq n) as (-> & _). apply (read_fixed_le 2). Qed.

Lemma ReadUint32_bytes p n q :
  0 <= n < 2 ^ 32 -> ReadUint32 (p ++ bytes4 n ++ q) (zlen p) = Ret (Some (n, zlen p + 4)).
Proof. destruct (le_bytes_eq n) as (_ & _ & -> & _). apply (read_fixed_le 4). Qed.

Lemma ReadUint64_bytes p n q :
  is_u64 n -> ReadUint64 (p ++ bytes8 n ++ q) (zlen p) = Ret (Some (n, zlen p + 8)).
Proof. destruct (le_bytes_eq n) as (_ & _ & _ & ->). apply (read_fixed_le 8). Qed.

(** 16, 32 and 64 bit integers appended to a packet are read back. *)
Theorem uint_roundtrip data n post :
  (0 <= n < 2 ^ 16 ->
     ReadUint16 (AppendUint16 data n ++ post) (zlen data) = Ret (Some (n, zlen data + 2))) /\
  (0 <= n < 2 ^ 32 ->
     ReadUint32 (AppendUint32 data n ++ post) (zlen data) = Ret (Some (n, zlen data + 4))) /\
  (is_u64 n ->
     ReadUint64 (AppendUint64 data n ++ post) (zlen data) = Ret (Some (n, zlen data + 8))).
Proof.
  unfold AppendUint16, AppendUint32, AppendUint64. rewrite <- !app_assoc.
  split_and!; [apply ReadUint16_bytes|apply ReadUint32_bytes|apply ReadUint64_bytes].
Qed.

Lemma uint_roundtrip_witness :
  ReadUint32 (AppendUint32 [1] 305419896 ++ [2]) 1 = Ret (Some (305419896, 5)).
Proof. apply (uint_roundtrip [1] 305419896 [2]). unfold_int. lia. Defined.

(** * Readers on arbitrary packets *)

Lemma le_or_range bs :
  Forall is_u8 bs -> 0 <= le_or 0 bs < 2 ^ (8 * zlen bs).
Proof.
  induction 1 as [|b bs Hb Hbs IH]; [change (0 <= 0 < 1); lia|]. cbn [le_or].
  unfold is_u8 in Hb. rewrite Z.shiftl_0_r, le_or_shift, lor_shiftl_8 by lia. rewrite zlen_cons. set (w := le_or 0 bs) in *.
  replace (8 * (zlen bs + 1)) with (8 + 8 * zlen bs) by lia. pose proof (zlen_nonneg bs).
  rewrite Z.pow_add_r by lia. change (2 ^ 8) with 256. lia.
Qed.

(** A successful or failed read of an integer, never a panic. *)
Lemma ReadLenEncInt_total data pos :
  Forall is_u8 data -> 0 <= pos ->
  ReadLenEncInt data pos = Ret None \/
  exists v p nul, ReadLenEncInt data pos = Ret (Some (v, p, nul)) /\
    pos < p <= zlen data /\ is_u64 v.
Proof.
  intros Hd Hp. unfold ReadLenEncInt. destruct (zlen data <=? pos) eqn:E; [by left|].
  destruct (index_in_range data pos) as (b & -> & Hb); [lia|]. cbn [mbind outcome_bind].
  assert (is_u8 b) as Hu.
  { rewrite Forall_forall in Hd. apply Hd. by eapply list_elem_of_lookup_2. }
  assert (forall n, 1 <= n <= 8 ->
    let r := (if zlen data <=? pos + n then Ret None
              else bs ← mapM (fun k => index data (pos + k)) (seqZ 1 n);
                   Ret (Some (le_or 0 bs, pos + n + 1, false))) in
    r = Ret None \/ exists v p nul, r = Ret (Some (v, p, nul)) /\ pos < p <= zlen data /\ is_u64 v)
    as Hw.
  { intros n Hn. cbv zeta. destruct (zlen data <=? pos + n) eqn:E2; [by left|]. right.
    destruct (packet_split data pos (1 + n)) as (p & old & q & -> & Hpl & Ho); [lia|lia|lia|].
    destruct old as [|o bs]; [rewrite zlen_nil in Ho; lia|]. rewrite zlen_cons in Ho.
    cbn [app]. rewrite <- Hpl, wide_read by lia. cbn [mbind outcome_bind].
    eexists _, _, _. split; [reflexivity|].
    split; [rewrite zlen_app, zlen_cons, zlen_app; pose proof (zlen_nonneg q); lia|].
    rewrite !Forall_app, Forall_cons in Hd. destruct Hd as (_ & (_ & Hbs) & _).
    pose proof (le_or_range bs Hbs). assert (2 ^ (8 * zlen bs) <= 2 ^ 64)
      by (apply Z.pow_le_mono_r; lia). unfold_int. lia. }
  unfold is_u8 in Hu.
  destruct (b =? 251); [right; eexists _, _, _; split; [reflexivity|]; unfold_int; lia|].
  destruct (b =? 252); [apply Hw; lia|]. destruct (b =? 253); [apply Hw; lia|].
  destruct (b =? 254); [apply Hw; lia|].
  right. eexists _, _, _. split; [reflexivity|]. unfold_int. lia.
Qed.

(** Reading a length-encoded string from any packet of bytes either fails,
    or returns the bytes [data[p:p+v]] inside the packet, as long as the length
    [v] it announces does not reach [2^63] from its position; it never reads
    outside the packet and never panics. *)
Theorem ReadLenEncString_safe data pos :
  Forall is_u8 data -> 0 <= pos ->
  (forall v p nul, ReadLenEncInt data pos = Ret (Some (v, p, nul)) -> p + v <= max_i64) ->
  ReadLenEncStringAsBytes data pos = Ret None \/
  exists b p nul, ReadLenEncStringAsBytes data pos = Ret (Some (b, p, nul)) /\
    pos < p <= zlen data /\ zlen b < p - pos /\
    reslice data (p - zlen b) p = Ret b.
Proof.
  intros Hd Hp Hbig. unfold ReadLenEncStringAsBytes.
  destruct (ReadLenEncInt_total data pos Hd Hp) as [->|(v & p & nul & E & Hpp & Hv)]; [by left|].
  rewrite E. cbn [mbind outcome_bind]. specialize (Hbig _ _ _ E).
  rewrite (i64_id v) by (unfold_int; lia). rewrite !i64_id by (unfold_int; lia).
  destruct (zlen data <=? p + v - 1) eqn:E2; [by left|]. right.
  destruct (packet_split data p v) as (pre & b & post & -> & Hpre & Hb);
    [lia|unfold_int; lia|lia|].
  assert (reslice (pre ++ b ++ post) p (p + v) = Ret b) as R
    by (rewrite <- Hpre, <- Hb; apply reslice_packet).
  rewrite R. cbn [mbind outcome_bind]. exists b, (p + v), nul. split; [done|].
  rewrite Hb. replace (p + v - v) with p by lia. unfold_int. split_and!; [lia|lia|lia|done].
Qed.

Lemma ReadLenEncString_safe_witness :
  exists b p nul, ReadLenEncStringAsBytes [3; 65; 66; 67; 0] 0 = Ret (Some (b, p, nul)) /\
    0 < p <= 5 /\ zlen b < p - 0 /\ reslice [3; 65; 66; 67; 0] (p - zlen b) p = Ret b.
Proof.
  destruct (ReadLenEncString_safe [3; 65; 66; 67; 0] 0) as [H|H];
    [repeat constructor; lia|lia| |discriminate H|exact H].
  intros v p nul [= <- <- _]. unfold_int. lia.
Defined.

(** A string that announces a length of [2^63] bytes or more is not
    rejected: its length becomes negative, passes the bounds test, and slicing
    the packet panics; skipping it moves the position backwards. *)
Theorem ReadLenEncString_huge_panics data pos v p nul :
  ReadLenEncInt data pos = Ret (Some (v, p, nul)) -> 0 < p <= zlen data -> zlen data < 2 ^ 62 ->
  2 ^ 63 <= v < 2 ^ 64 ->
  ReadLenEncStringAsBytes data pos = Panic "slice bounds out of range" /\
  skipLenEncString data pos = Ret (Some (p + v - 2 ^ 64)).
Proof.
  intros E Hp Hd Hv. unfold ReadLenEncStringAsBytes, skipLenEncString. rewrite E.
  cbn [mbind outcome_bind]. assert (i64 v = v - 2 ^ 64) as -> by int_lia.
  change (2 ^ 62) with 4611686018427387904 in *.
  rewrite !i64_id by (unfold_int; lia).
  destruct (zlen data <=? p + (v - 2 ^ 64) - 1) eqn:E2; [unfold_int; lia|].
  unfold reslice. rewrite decide_False by (unfold_int; lia). cbn [mbind outcome_bind].
  split; [done|]. do 2 f_equal. lia.
Qed.

Lemma ReadLenEncString_huge_panics_witness :
  ReadLenEncStringAsBytes [254; 255; 255; 255; 255; 255; 255; 255; 255] 0 =
    Panic "slice bounds out of range" /\
  skipLenEncString [254; 255; 255; 255; 255; 255; 255; 255; 255] 0 = Ret (Some 8).
Proof.
  apply (ReadLenEncString_huge_panics [254; 255; 255; 255; 255; 255; 255; 255; 255] 0
           18446744073709551615 9 false); [reflexivity|unfold zlen; cbn; lia|reflexivity|].
  unfold_int. lia.
Defined.
