(* ===== verification/Packet.v ===== *)
(** mysql/conn.go: packets on a socket. A payload is cut into packets with a header
    of its length and a sequence number and put together again; the generic packets
    (OK, EOF, error) are written into recycled buffers and parsed. *)

From Stdlib Require Import Ascii String.
From S2P Require Import Prelude StateM GoStr Encoding.

(** * Connections *)

Definition MaxPacketSize : Z := Z.shiftl 1 24 - 1.

Inductive Policy := ephemeralUnused | ephemeralWrite | ephemeralRead.

Definition EOF : error := Named "io.EOF".
Definition ErrUnexpectedEOF : error := Named "io.ErrUnexpectedEOF".
Definition ErrReset : error := Named "read: connection reset by peer".

(** The socket of a connection: the bytes that will arrive and the error after them,
    and the bytes that left. [bufferedWriter] holds what is written but not flushed;
    a real buffer passes its bytes on when it is full. *)
Record Conn := mk_Conn {
  incoming : list Z;
  ending : error;
  sent : list Z;
  bufferedWriter : option (list Z);
  sequence : Z;
  currentEphemeralPolicy : Policy;
  currentEphemeralBuffer : option (list Z) }.

Definition set_incoming (c : Conn) (l : list Z) : Conn :=
  mk_Conn l (ending c) (sent c) (bufferedWriter c) (sequence c) (currentEphemeralPolicy c)
    (currentEphemeralBuffer c).
Definition set_output (c : Conn) (s : list Z) (b : option (list Z)) : Conn :=
  mk_Conn (incoming c) (ending c) s b (sequence c) (currentEphemeralPolicy c) (currentEphemeralBuffer c).
Definition SetSequence (c : Conn) (s : Z) : Conn :=
  mk_Conn (incoming c) (ending c) (sent c) (bufferedWriter c) s (currentEphemeralPolicy c)
    (currentEphemeralBuffer c).
Definition set_ephemeral (c : Conn) (p : Policy) (b : option (list Z)) : Conn :=
  mk_Conn (incoming c) (ending c) (sent c) (bufferedWriter c) (sequence c) p b.

(** The error of writing bytes to the socket after those that left. *)
Class Wire := write_error : list Z -> list Z -> option error.

(** bucketpool: a buffer of the length that is asked for, with the bytes of an
    earlier packet in it ([Get_length] of the model of the pool). *)
Class BufPool := pool_get : Z -> list Z.
Class BufPoolOk (BP : BufPool) : Prop := zlen_pool_get : forall n, 0 <= n -> zlen (pool_get n) = n.

Section conn.
Context {W : Wire} {BP : BufPool}.

(** ** Reading *)

(** [io.ReadFull] of a slice of length [n] *)
Definition ReadFull (n : Z) : M Conn (list Z) :=
  let* l := gets incoming in
  if n <=? zlen l then
    modify (fun c => set_incoming c (drop (Z.to_nat n) l)) ;;* ret (take (Z.to_nat n) l)
  else
    let* e := gets ending in
    modify (fun c => set_incoming c []) ;;*
    fail (match l with [] => e | _ => if decide (e = EOF) then ErrUnexpectedEOF else e end).

Definition next_sequence (c : Conn) : Conn := SetSequence c (u8 (sequence c + 1)).

Definition readHeaderFrom : M Conn Z :=
  let* r := attempt (ReadFull 4) in
  match r with
  | Err e => fail (if decide (e = EOF \/ e = ErrReset) then EOF
                   else Wrap "io.ReadFull(header size) failed: %v" e)
  | Ret header =>
      let* seq := gets sequence in
      let* h3 := of_outcome (index header 3) in
      if negb (h3 =? seq) then fail (Errorf "invalid sequence, expected %v got %v") else
      modify next_sequence ;;*
      ret (le_or 0 (take 3 header))
  | Panic p => panic p
  end.

Definition readOnePacket : M Conn (list Z) :=
  let* length := readHeaderFrom in
  if length =? 0 then ret [] else
  wrapping "io.ReadFull(packet body of length %v) failed: %v" (ReadFull length).

(** The loop over the packets after one of the greatest size. *)
Fixpoint read_rest (fuel : nat) (data : list Z) : M Conn (list Z) :=
  match fuel with
  | O => panic "out of fuel"
  | S fuel =>
      let* next := readOnePacket in
      if zlen next =? 0 then ret data
      else if zlen next <? MaxPacketSize then ret (data ++ next)
      else read_rest fuel (data ++ next)
  end.

(** Every packet has a header, so the number of bytes that arrive is enough. *)
Definition read_all (data : list Z) : M Conn (list Z) :=
  let* l := gets incoming in read_rest (S (length l)) data.

Definition ReadPacket : M Conn (list Z) :=
  let* data := readOnePacket in
  if zlen data <? MaxPacketSize then ret data else read_all data.

Definition ReadEphemeralPacket : M Conn (list Z) :=
  let* p := gets currentEphemeralPolicy in
  match p with
  | ephemeralUnused =>
      let* length := readHeaderFrom in
      modify (fun c => set_ephemeral c ephemeralRead (currentEphemeralBuffer c)) ;;*
      if length =? 0 then ret []
      else if length <? MaxPacketSize then
        modify (fun c => set_ephemeral c (currentEphemeralPolicy c) (Some (pool_get length))) ;;*
        let* data := wrapping "io.ReadFull(packet body of length %v) failed: %v" (ReadFull length) in
        modify (fun c => set_ephemeral c (currentEphemeralPolicy c) (Some data)) ;;* ret data
      else
        let* data := wrapping "io.ReadFull(packet body of length %v) failed: %v" (ReadFull length) in
        read_all data
  | _ => panic "ReadEphemeralPacket: unexpected currentEphemeralPolicy: %v"
  end.

Definition RecycleReadPacket : M Conn unit :=
  let* p := gets currentEphemeralPolicy in
  match p with
  | ephemeralRead => modify (fun c => set_ephemeral c ephemeralUnused None)
  | _ => panic "trying to call RecycleReadPacket while currentEphemeralPolicy is %d"
  end.

(** ** Writing *)

(** [getWriter().Write] *)
Definition Write_ (bs : list Z) : M Conn unit := fun c =>
  match bufferedWriter c with
  | Some b => (set_output c (sent c) (Some (b ++ bs)), Ret tt)
  | None =>
      match write_error (sent c) bs with
      | Some e => (c, Err e)
      | None => (set_output c (sent c ++ bs) None, Ret tt)
      end
  end.

Definition StartWriterBuffering : M Conn unit := modify (fun c => set_output c (sent c) (Some [])).

Definition Flush : M Conn unit := fun c =>
  match bufferedWriter c with
  | None => (c, Ret tt)
  | Some b =>
      match write_error (sent c) b with
      | Some e => (set_output c (sent c) None, Err e)
      | None => (set_output c (sent c ++ b) None, Ret tt)
      end
  end.

Definition header (packetLength seq : Z) : list Z := bytes3 packetLength ++ [seq].

Fixpoint write_loop (fuel : nat) (data : list Z) : M Conn unit :=
  match fuel with
  | O => panic "out of fuel"
  | S fuel =>
      let length := zlen data in
      let packetLength := if MaxPacketSize <? length then MaxPacketSize else length in
      let* seq := gets sequence in
      wrapping "Write(header) failed: %v" (Write_ (header packetLength seq)) ;;*
      wrapping "Write(packet) failed: %v" (Write_ (take (Z.to_nat packetLength) data)) ;;*
      modify next_sequence ;;*
      if length - packetLength =? 0 then
        if packetLength =? MaxPacketSize then
          let* seq := gets sequence in
          wrapping "Write(empty header) failed: %v" (Write_ (header 0 seq)) ;;*
          modify next_sequence
        else ret tt
      else write_loop fuel (drop (Z.to_nat packetLength) data)
  end.

(** A turn writes the greatest size or is the last one. *)
Definition WritePacket (data : list Z) : M Conn unit :=
  write_loop (S (Z.to_nat (zlen data / MaxPacketSize))) data.

Definition StartEphemeralPacket (length : Z) : M Conn (list Z) :=
  let* p := gets currentEphemeralPolicy in
  match p with
  | ephemeralUnused =>
      modify (fun c => set_ephemeral c ephemeralWrite (Some (pool_get length))) ;;* ret (pool_get length)
  | _ => panic "StartEphemeralPacket cannot be used while a packet is already started."
  end.

Definition recycleWritePacket : M Conn unit :=
  let* p := gets currentEphemeralPolicy in
  match p with
  | ephemeralWrite => modify (fun c => set_ephemeral c ephemeralUnused None)
  | _ => panic "trying to call recycleWritePacket while currentEphemeralPolicy is %d"
  end.

Definition WriteEphemeralPacket : M Conn unit :=
  deferred
    (let* p := gets currentEphemeralPolicy in
     match p with
     | ephemeralWrite =>
         let* b := gets currentEphemeralBuffer in
         wrapping "Conn %v: %v" (WritePacket (default [] b))
     | _ => panic "Conn %v: trying to call writeEphemeralPacket while currentEphemeralPolicy is %v"
     end) recycleWritePacket.

(** The bytes the caller put into the buffer it got. *)
Definition fill (d : outcome (list Z)) : M Conn unit :=
  let* d := of_outcome d in
  modify (fun c => set_ephemeral c (currentEphemeralPolicy c) (Some d)).

(** ** Generic packets *)

Definition OKHeader : Z := 0.
Definition ErrHeader : Z := 255.
Definition EOFHeader : Z := 254.

Definition WriteOK (head affectedRows lastInsertID flags warnings : Z) : M Conn unit :=
  let length := 1 + LenEncIntSize affectedRows + LenEncIntSize lastInsertID + 2 + 2 in
  let* data := StartEphemeralPacket length in
  fill ('(data, pos) ← WriteByte data 0 head;
        '(data, pos) ← WriteLenEncInt data pos affectedRows;
        '(data, pos) ← WriteLenEncInt data pos lastInsertID;
        '(data, pos) ← WriteUint16 data pos flags;
        '(data, pos) ← WriteUint16 data pos warnings;
        Ret data) ;;*
  WriteEphemeralPacket.

Definition WriteOKPacket : Z -> Z -> Z -> Z -> M Conn unit := WriteOK OKHeader.
Definition WriteOKPacketWithEOFHeader : Z -> Z -> Z -> Z -> M Conn unit := WriteOK EOFHeader.

Definition WriteEOFPacket (flags warnings : Z) : M Conn unit :=
  let* data := StartEphemeralPacket 5 in
  fill ('(data, pos) ← WriteByte data 0 EOFHeader;
        '(data, pos) ← WriteUint16 data pos warnings;
        '(data, pos) ← WriteUint16 data pos flags;
        Ret data) ;;*
  WriteEphemeralPacket.

(** The state "HY000" *)
Definition DefaultMySQLState : list Z := [72; 89; 48; 48; 48].

(** [errorMessage] is the formatted message. *)
Definition WriteErrorPacket (errorCode : Z) (sqlState errorMessage : list Z) : M Conn unit :=
  let length := 1 + 2 + 1 + 5 + zlen errorMessage in
  let* data := StartEphemeralPacket length in
  let sqlState := match sqlState with [] => DefaultMySQLState | _ => sqlState end in
  fill ('(data, pos) ← WriteByte data 0 ErrHeader;
        '(data, pos) ← WriteUint16 data pos errorCode;
        '(data, pos) ← WriteByte data pos 35;
        (if negb (zlen sqlState =? 5) then Panic "sqlState has to be 5 characters long" else
         '(data, pos) ← writeEOFString data pos sqlState;
         '(data, pos) ← writeEOFString data pos errorMessage;
         Ret data)) ;;*
  WriteEphemeralPacket.

Definition isEOFHeader (data : list Z) : outcome bool :=
  b ← index data 0; Ret ((b =? EOFHeader) && (zlen data <? 9)).

Definition ServerMoreResultsExists : Z := 8.

(** The first read's success is overwritten by the second's. *)
Definition parseEOFHeader (data : list Z) : outcome (Z * bool) :=
  w ← ReadUint16 data 1;
  s ← ReadUint16 data 3;
  match s with
  | None => Err (Errorf "invalid EOF packet statusFlags: %v")
  | Some (statusFlags, _) =>
      Ret (match w with Some (warnings, _) => warnings | None => 0 end,
           negb (Z.land statusFlags ServerMoreResultsExists =? 0))
  end.

(** [v, pos, ok := read(data, pos)] that fails with the message *)
Definition need {A} (fmt : string) (o : outcome (option A)) : outcome A :=
  r ← o; match r with Some a => Ret a | None => Err (Errorf fmt) end.

Definition parseOKHeader (data : list Z) : outcome (Z * Z * Z * Z) :=
  '(affectedRows, pos, _) ← need "invalid OK packet affectedRows: %v" (ReadLenEncInt data 1);
  '(lastInsertID, pos, _) ← need "invalid OK packet lastInsertID: %v" (ReadLenEncInt data pos);
  '(statusFlags, pos) ← need "invalid OK packet statusFlags: %v" (ReadUint16 data pos);
  '(warnings, pos) ← need "invalid OK packet warnings: %v" (ReadUint16 data pos);
  Ret (affectedRows, lastInsertID, statusFlags, warnings).

Definition IsErrorPacket (data : list Z) : outcome bool := b ← index data 0; Ret (b =? ErrHeader).
Definition IsOKPacket (data : list Z) : outcome bool := b ← index data 0; Ret (b =? OKHeader).

(** The code and the message of the error; its state is looked up by the code. *)
Definition ParseErrorPacket (data : list Z) : outcome (Z * list Z) :=
  '(code, pos) ← need "invalid error packet code" (ReadUint16 data 1);
  '(_, pos) ← need "invalid error packet sqlState" (ReadBytes data (pos + 1) 5);
  msg ← reslice data pos (zlen data);
  Ret (code, msg).

End conn.

(** * The packets of a payload *)

(** Pieces of the greatest size and a last one that is shorter, perhaps empty. *)
Fixpoint pieces (n : nat) (data : list Z) : list (list Z) :=
  match n with
  | O => [data]
  | S n => if zlen data <? MaxPacketSize then [data]
           else take (Z.to_nat MaxPacketSize) data :: pieces n (drop (Z.to_nat MaxPacketSize) data)
  end.

Definition payload_pieces (data : list Z) : list (list Z) := pieces (S (Z.to_nat (zlen data / MaxPacketSize))) data.

(** What stands on the wire, from a sequence number on. *)
Fixpoint on_wire (seq : Z) (l : list (list Z)) : list Z :=
  match l with
  | [] => []
  | p :: l => header (zlen p) seq ++ p ++ on_wire (u8 (seq + 1)) l
  end.

(** The sequence number after [l]. *)
Definition after (seq : Z) (l : list (list Z)) : Z := foldl (fun s _ => u8 (s + 1)) seq l.

Class Healthy (W : Wire) : Prop := healthy : forall s b, write_error s b = None.

Lemma MaxPacketSize_eq : MaxPacketSize = 16777215.
Proof. reflexivity. Qed.

#[local] Opaque MaxPacketSize.

Lemma size_after_piece (data : list Z) :
  MaxPacketSize <= zlen data ->
  zlen (drop (Z.to_nat MaxPacketSize) data) = zlen data - MaxPacketSize.
Proof. intros H. unfold zlen in *. rewrite length_drop. rewrite MaxPacketSize_eq in *. lia. Qed.

Lemma size_of_piece (data : list Z) : MaxPacketSize <= zlen data -> zlen (take (Z.to_nat MaxPacketSize) data) = MaxPacketSize.
Proof. intros H. unfold zlen in *. rewrite length_take. rewrite MaxPacketSize_eq in *. lia. Qed.

Lemma turns_left (data : list Z) :
  MaxPacketSize <= zlen data ->
  Z.to_nat (zlen data / MaxPacketSize) = S (Z.to_nat ((zlen data - MaxPacketSize) / MaxPacketSize)).
Proof.
  intros H. rewrite MaxPacketSize_eq in *.
  replace (zlen data) with ((zlen data - 16777215) + 1 * 16777215) at 1 by lia.
  rewrite Z.div_add by lia. pose proof (Z.div_pos (zlen data - 16777215) 16777215). lia.
Qed.

Section framing.
Context {W : Wire} {HW : Healthy W}.

(** Adds bytes to the output, wherever it goes. *)
Definition add_output (c : Conn) (bs : list Z) : Conn :=
  match bufferedWriter c with
  | Some b => set_output c (sent c) (Some (b ++ bs))
  | None => set_output c (sent c ++ bs) None
  end.

Lemma Write_healthy c bs : Write_ bs c = (add_output c bs, Ret tt).
Proof. unfold Write_, add_output. destruct (bufferedWriter c); [done|]. by rewrite HW. Qed.

Lemma add_output_app c a b : add_output (add_output c a) b = add_output c (a ++ b).
Proof. unfold add_output. destruct c as [i e s [w|] q p f]; cbn; by rewrite <- app_assoc. Qed.

Lemma add_output_sequence c bs s : add_output (SetSequence c s) bs = SetSequence (add_output c bs) s.
Proof. by destruct c as [i e ? [w|] q p f]. Qed.

Lemma sequence_add_output c bs : sequence (add_output c bs) = sequence c.
Proof. by destruct c as [i e ? [w|] q p f]. Qed.

Lemma next_sequence_output c bs : next_sequence (add_output c bs) = add_output (next_sequence c) bs.
Proof. unfold next_sequence. by rewrite add_output_sequence, sequence_add_output. Qed.

(** The connection after the packets were written. *)
Definition wrote (c : Conn) (l : list (list Z)) : Conn :=
  SetSequence (add_output c (on_wire (sequence c) l)) (after (sequence c) l).

Lemma wrote_cons c p l :
  wrote (next_sequence (add_output (add_output c (header (zlen p) (sequence c))) p)) l = wrote c (p :: l).
Proof.
  unfold wrote, next_sequence, after. destruct c as [i e s [w|] q pl f]; cbn -[header zlen u8]; by rewrite <- !app_assoc.
Qed.

Lemma wrote_nil c : wrote c [] = c.
Proof. unfold wrote. destruct c as [i e s [w|] q p f]; cbn; by rewrite app_nil_r. Qed.

Lemma wrote_full c p :
  let c1 := next_sequence (add_output (add_output c (header (zlen p) (sequence c))) p) in
  wrote c [p; []] = next_sequence (add_output c1 (header 0 (sequence c1))).
Proof.
  unfold wrote, next_sequence, after. destruct c as [i e s [w|] q pl f]; cbn -[header zlen u8];
    change (zlen []) with 0; by rewrite ?app_nil_r, <- !app_assoc.
Qed.

Lemma wrapping_run {A} fmt (m : M Conn A) c c' a : m c = (c', Ret a) -> wrapping fmt m c = (c', Ret a).
Proof. unfold wrapping. by intros ->. Qed.

(** A loop turn. *)
Lemma write_turn fuel data c :
  let n := if MaxPacketSize <? zlen data then MaxPacketSize else zlen data in
  let c1 := next_sequence (add_output (add_output c (header n (sequence c))) (take (Z.to_nat n) data)) in
  write_loop (S fuel) data c =
    if zlen data - n =? 0 then
      if n =? MaxPacketSize then (next_sequence (add_output c1 (header 0 (sequence c1))), Ret tt) else (c1, Ret tt)
    else write_loop fuel (drop (Z.to_nat n) data) c1.
Proof.
  cbn zeta. cbn [write_loop]. unfold bind, gets, wrapping, modify, ret. rewrite !Write_healthy. cbn [wrap].
  destruct (_ =? 0); [|done]. destruct (_ =? MaxPacketSize); [|done]. by rewrite Write_healthy.
Qed.

Lemma write_loop_pieces fuel data c :
  fuel = Z.to_nat (zlen data / MaxPacketSize) ->
  write_loop (S fuel) data c = (wrote c (pieces (S fuel) data), Ret tt).
Proof.
  revert data c. induction fuel as [|fuel IH]; intros data c Hf; rewrite write_turn; cbn zeta.
  all: pose proof (zlen_nonneg data) as Hd; pose proof MaxPacketSize_eq as HM.
  - assert (zlen data < MaxPacketSize) as Hlt.
    { destruct (Z.lt_ge_cases (zlen data) MaxPacketSize); [done|]. by rewrite turns_left in Hf. }
    destruct (MaxPacketSize <? zlen data) eqn:E1; [lia|]. rewrite Z.sub_diag, Z.eqb_refl.
    destruct (zlen data =? MaxPacketSize) eqn:E2; [lia|]. cbn [pieces].
    destruct (zlen data <? MaxPacketSize) eqn:E3; [|lia].
    rewrite take_ge by (unfold zlen; lia). by rewrite <- (wrote_nil (next_sequence _)), wrote_cons.
  - destruct (Z.lt_ge_cases (zlen data) MaxPacketSize) as [Hlt|Hge].
    { rewrite Z.div_small in Hf by lia. done. }
    rewrite turns_left in Hf by done. injection Hf as Hf.
    pose proof (size_of_piece data Hge) as Hp. pose proof (size_after_piece data Hge) as Hr.
    cbn [pieces]. destruct (zlen data <? MaxPacketSize) eqn:E3; [lia|].
    destruct (MaxPacketSize <? zlen data) eqn:E1.
    + destruct (zlen data - MaxPacketSize =? 0) eqn:E2; [lia|]. rewrite <- Hr in Hf.
      rewrite (IH _ _ Hf). by rewrite <- Hp at 1; rewrite wrote_cons.
    + assert (zlen data = MaxPacketSize) as Hl by lia. rewrite Z.sub_diag, Z.eqb_refl.
      rewrite Hl at 1. rewrite Z.eqb_refl.
      assert (drop (Z.to_nat MaxPacketSize) data = []) as -> by (apply nil_length_inv; unfold zlen in *; lia).
      change (zlen (@nil Z) <? MaxPacketSize) with true.
      replace (Z.to_nat (zlen data)) with (Z.to_nat MaxPacketSize) by lia.
      rewrite wrote_full, Hp, Hl. done.
Qed.

Lemma WritePacket_pieces data c : WritePacket data c = (wrote c (payload_pieces data), Ret tt).
Proof. by apply write_loop_pieces. Qed.

End framing.

(** * Reading what was written *)

(** Packets of the greatest size, then a shorter one. *)
Fixpoint cut (l : list (list Z)) : Prop :=
  match l with
  | [] => False
  | [p] => zlen p < MaxPacketSize
  | p :: l => zlen p = MaxPacketSize /\ cut l
  end.

Lemma pieces_S n data :
  pieces (S n) data = if zlen data <? MaxPacketSize then [data]
                      else take (Z.to_nat MaxPacketSize) data :: pieces n (drop (Z.to_nat MaxPacketSize) data).
Proof. done. Qed.

Lemma pieces_cut fuel data :
  fuel = Z.to_nat (zlen data / MaxPacketSize) -> cut (pieces (S fuel) data) /\ concat (pieces (S fuel) data) = data.
Proof.
  pose proof MaxPacketSize_eq as HM. revert data. induction fuel as [|fuel IH]; intros data Hf; rewrite pieces_S.
  - destruct (zlen data <? MaxPacketSize) eqn:E; [|by rewrite turns_left in Hf by lia].
    cbn [cut concat]. split; [lia|apply app_nil_r].
  - destruct (zlen data <? MaxPacketSize) eqn:E.
    { rewrite Z.div_small in Hf by (pose proof (zlen_nonneg data); lia). done. }
    rewrite turns_left in Hf by lia. injection Hf as Hf.
    rewrite <- size_after_piece in Hf by lia. destruct (IH _ Hf) as [H1 H2].
    revert H1 H2. generalize (pieces (S fuel) (drop (Z.to_nat MaxPacketSize) data)). intros l H1 H2. cbn [concat]. rewrite H2, take_drop. split; [|done].
    destruct l; [done|]. split; [|done]. apply size_of_piece. lia.
Qed.

Section reading.

Lemma ReadFull_bytes c (bs rest : list Z) :
  incoming c = bs ++ rest -> ReadFull (zlen bs) c = (set_incoming c rest, Ret bs).
Proof.
  intros Hi. unfold ReadFull, bind, gets, modify, ret. rewrite Hi, zlen_app.
  destruct (zlen bs <=? _) eqn:E; [|pose proof (zlen_nonneg rest); lia].
  unfold zlen. rewrite Nat2Z.id, take_app_length, drop_app_length. done.
Qed.

Lemma header_length n : 0 <= n <= MaxPacketSize -> le_or 0 (bytes3 n) = n.
Proof.
  intros Hn. rewrite MaxPacketSize_eq in Hn. destruct (le_bytes_eq n) as (_ & -> & _ & _).
  rewrite le_or_le_bytes, Z.mod_small; [done|]. change (2 ^ (8 * Z.of_nat 3)) with 16777216. lia.
Qed.

Lemma readOnePacket_wire c p rest :
  incoming c = header (zlen p) (sequence c) ++ p ++ rest -> zlen p <= MaxPacketSize ->
  readOnePacket c = (next_sequence (set_incoming c rest), Ret p).
Proof.
  intros Hi Hp. pose proof (zlen_nonneg p) as H0. unfold readOnePacket, readHeaderFrom.
  unfold bind at 1 2. unfold attempt. change 4 with (zlen (header (zlen p) (sequence c))).
  rewrite (ReadFull_bytes c _ _ Hi). unfold gets, of_outcome, bind. cbn [sequence set_incoming].
  change (index (header (zlen p) (sequence c)) 3) with (Ret (sequence c)). cbn beta iota.
  rewrite Z.eqb_refl. cbn [negb]. unfold modify, ret.
  change (take 3 (header (zlen p) (sequence c))) with (bytes3 (zlen p)). rewrite header_length by lia.
  destruct (zlen p =? 0) eqn:E.
  - destruct p as [|x p]; [|rewrite zlen_cons in E; pose proof (zlen_nonneg p); lia]. done.
  - unfold wrapping. rewrite (ReadFull_bytes _ p rest) by done. done.
Qed.

(** The connection after the packets were read. *)
Definition read_up (c : Conn) (l : list (list Z)) (rest : list Z) : Conn :=
  SetSequence (set_incoming c rest) (after (sequence c) l).

Lemma read_up_cons c p l rest mid :
  read_up (next_sequence (set_incoming c mid)) l rest = read_up c (p :: l) rest.
Proof. by destruct c. Qed.

Lemma read_up_one c p rest : next_sequence (set_incoming c rest) = read_up c [p] rest.
Proof. by destruct c. Qed.

Lemma read_rest_wire l fuel data c rest :
  cut l -> (length l <= fuel)%nat -> incoming c = on_wire (sequence c) l ++ rest ->
  read_rest fuel data c = (read_up c l rest, Ret (data ++ concat l)).
Proof.
  revert l data c. induction fuel as [|fuel IH]; intros l data c Hl Hf Hi.
  { destruct l; [done|cbn in Hf; lia]. }
  destruct l as [|p l]; [done|]. cbn [on_wire] in Hi. rewrite <- !app_assoc in Hi.
  assert (zlen p <= MaxPacketSize) as Hp by (destruct l; cbn [cut] in Hl; [|destruct Hl]; lia).
  cbn [read_rest]. unfold bind. rewrite (readOnePacket_wire c p _ Hi Hp). pose proof MaxPacketSize_eq as HM.
  destruct l as [|p' l].
  - cbn [cut] in Hl. rewrite (read_up_one c p). cbn [on_wire concat]. rewrite app_nil_r.
    destruct (zlen p =? 0) eqn:E.
    + destruct p as [|x p]; [|rewrite zlen_cons in E; pose proof (zlen_nonneg p); lia]. by rewrite app_nil_r.
    + destruct (zlen p <? MaxPacketSize) eqn:E2; [done|lia].
  - destruct Hl as [Hm Hl]. destruct (zlen p =? 0) eqn:E; [lia|]. destruct (zlen p <? MaxPacketSize) eqn:E2; [lia|].
    rewrite (IH (p' :: l)); [|done|cbn in *; lia|done]. rewrite (read_up_cons c p). cbn [concat]. by rewrite <- app_assoc.
Qed.

Lemma on_wire_length seq l : (length l <= length (on_wire seq l))%nat.
Proof. revert seq. induction l as [|p l IH]; intros seq; [done|]. cbn. rewrite length_app. specialize (IH (u8 (seq + 1))). lia. Qed.

Lemma ReadPacket_wire c l rest :
  cut l -> incoming c = on_wire (sequence c) l ++ rest -> ReadPacket c = (read_up c l rest, Ret (concat l)).
Proof.
  intros Hl Hi. destruct l as [|p l]; [done|]. cbn [on_wire] in Hi. rewrite <- !app_assoc in Hi.
  assert (zlen p <= MaxPacketSize) as Hp by (destruct l; cbn [cut] in Hl; [|destruct Hl]; lia).
  unfold ReadPacket, bind. rewrite (readOnePacket_wire c p _ Hi Hp). destruct l as [|p' l].
  - cbn [cut] in Hl. destruct (zlen p <? MaxPacketSize) eqn:E; [|lia].
    rewrite (read_up_one c p). cbn [on_wire concat]. by rewrite app_nil_r.
  - destruct Hl as [Hm Hl]. destruct (zlen p <? MaxPacketSize) eqn:E; [lia|].
    unfold read_all, bind, gets. rewrite (read_rest_wire (p' :: l) _ p _ rest); [by rewrite (read_up_cons c p)|done| |done].
    cbn [incoming next_sequence SetSequence set_incoming]. rewrite length_app.
    pose proof (on_wire_length (u8 (sequence c + 1)) (p' :: l)). lia.
Qed.

(** ** A reader always comes to an end *)

Lemma ReadFull_less n c l c' : ReadFull n c = (c', Ret l) -> length (incoming c') = (length (incoming c) - Z.to_nat n)%nat /\
  length l = Z.to_nat n /\ n <= zlen (incoming c).
Proof.
  unfold ReadFull, bind, gets, modify, ret. destruct (n <=? zlen (incoming c)) eqn:E; [|done].
  intros [= <- <-]. cbn [incoming set_incoming]. rewrite length_drop, length_take. unfold zlen in *. lia.
Qed.

Lemma ReadFull_no_panic n c p : (ReadFull n c).2 <> Panic p.
Proof. unfold ReadFull, bind, gets, modify, ret, fail. by destruct (n <=? _). Qed.

Lemma readOnePacket_less c c' l : readOnePacket c = (c', Ret l) -> (length (incoming c') < length (incoming c))%nat.
Proof.
  unfold readOnePacket, readHeaderFrom, bind, attempt. destruct (ReadFull 4 c) as [c1 [h|e|p]] eqn:E; [|done..].
  apply ReadFull_less in E as (H1 & H2 & H3). unfold gets, of_outcome.
  destruct (index h 3) as [h3| |]; [|done..]. destruct (negb _); [done|]. unfold modify, ret, wrapping.
  assert (length (incoming c1) < length (incoming c))%nat as Hlt by (unfold zlen in *; lia).
  destruct (_ =? 0); [by intros [= <- <-]|].
  destruct (ReadFull _ _) as [c2 [d|e|p]] eqn:E; [|done..]. apply ReadFull_less in E as (H4 & _ & _).
  cbn [incoming next_sequence SetSequence] in H4. intros [= <- <-]. lia.
Qed.

Lemma readOnePacket_no_panic c p : (readOnePacket c).2 <> Panic p.
Proof.
  unfold readOnePacket, readHeaderFrom, bind, attempt. pose proof (ReadFull_no_panic 4 c) as Hn.
  destruct (ReadFull 4 c) as [c1 [h|e|q]] eqn:E; [|done|by destruct (Hn q)].
  apply ReadFull_less in E as (_ & H2 & _). unfold gets, of_outcome.
  destruct h as [|h0 [|h1 [|h2 [|h3 [|]]]]]; try done. cbn [index].
  change (index [h0; h1; h2; h3] 3) with (Ret h3). cbn beta iota. destruct (negb _); [done|].
  unfold modify, ret, wrapping. destruct (_ =? 0); [done|].
  match goal with |- context [ReadFull ?n ?c] => pose proof (ReadFull_no_panic n c) as Hm; destruct (ReadFull n c) as [c2 [d|e|q]] end;
    [done|done|by destruct (Hm q)].
Qed.

Lemma read_rest_no_panic fuel data c p : (length (incoming c) < fuel)%nat -> (read_rest fuel data c).2 <> Panic p.
Proof.
  revert data c. induction fuel as [|fuel IH]; intros data c Hf; [lia|]. cbn [read_rest]. unfold bind.
  pose proof (readOnePacket_no_panic c) as Hn. destruct (readOnePacket c) as [c1 [next|e|q]] eqn:E; [|done|by destruct (Hn q)].
  apply readOnePacket_less in E. destruct (_ =? 0); [done|]. destruct (_ <? _); [done|]. apply IH. lia.
Qed.

Lemma ReadPacket_no_panic c p : (ReadPacket c).2 <> Panic p.
Proof.
  unfold ReadPacket, bind. pose proof (readOnePacket_no_panic c) as Hn.
  destruct (readOnePacket c) as [c1 [data|e|q]]; [|done|by destruct (Hn q)].
  destruct (_ <? _); [done|]. apply read_rest_no_panic. lia.
Qed.

End reading.

(** * Properties *)

Section properties.
Context {W : Wire} {HW : Healthy W}.

(** C20: what is written is read: any payload, also one longer than a packet or of
    exactly a multiple of the greatest size, arrives as it was sent, whatever follows
    it on the wire, and both ends agree on the sequence number. *)
Theorem packet_roundtrip (data : list Z) (c : Conn) :
  bufferedWriter c = None ->
  exists bs c',
    WritePacket data c = (c', Ret tt) /\ sent c' = sent c ++ bs /\
    forall r rest, sequence r = sequence c -> incoming r = bs ++ rest ->
      exists r', ReadPacket r = (r', Ret data) /\ incoming r' = rest /\ sequence r' = sequence c'.
Proof.
  intros Hb. destruct (pieces_cut _ data eq_refl) as [Hc Hd]. fold (payload_pieces data) in Hc, Hd.
  exists (on_wire (sequence c) (payload_pieces data)), (wrote c (payload_pieces data)). split_and!.
  - apply WritePacket_pieces.
  - unfold wrote, add_output. by rewrite Hb.
  - intros r rest Hs Hi. rewrite <- Hs in Hi. exists (read_up r (payload_pieces data) rest).
    rewrite (ReadPacket_wire r _ rest Hc Hi), Hd. split_and!; [done|done|].
    unfold read_up, wrote. cbn [sequence SetSequence]. by rewrite Hs.
Qed.

(** Reading a packet ends with a payload or an error, whatever arrives. *)
Theorem ReadPacket_ends c : (exists data, (ReadPacket c).2 = Ret data) \/ (exists e, (ReadPacket c).2 = Err e).
Proof.
  pose proof (ReadPacket_no_panic c) as Hn.
  destruct (ReadPacket c) as [c' [data|e|p]]; cbn in *; eauto. by destruct (Hn p).
Qed.
End properties.
