(* ===== verification/PacketOk.v ===== *)
(** mysql/conn.go and proxy/server/client_conn.go: what the writers of packets leave
    on the wire, however the buffer they got looked before, and that the parsers read
    it back. *)

From Stdlib Require Import Ascii String.
From S2P Require Import Prelude StateM GoStr Encoding Packet.

#[local] Opaque MaxPacketSize.

(** * Writing into a buffer

    [p] is written, [old] is left of what was in the buffer. *)

Lemma put_at (p old bs : list Z) :
  zlen bs <= zlen old ->
  exists old', zlen old' = zlen old - zlen bs /\ put (p ++ old) (zlen p) bs = Ret ((p ++ bs) ++ old').
Proof.
  intros Hl. exists (drop (length bs) old). split.
  - unfold zlen in *. rewrite length_drop. lia.
  - rewrite <- (take_drop (length bs) old) at 1. rewrite put_app by (unfold zlen in *; rewrite length_take; lia).
    by rewrite <- app_assoc.
Qed.

(** A writer puts [bs] at the position and moves it behind. *)
Definition puts (w : list Z -> Z -> outcome (list Z * Z)) (bs : list Z) : Prop :=
  forall p old, zlen bs <= zlen old ->
    exists old', zlen old' = zlen old - zlen bs /\ w (p ++ old) (zlen p) = Ret ((p ++ bs) ++ old', zlen (p ++ bs)).

Lemma puts_of w bs n :
  (forall data pos, w data pos = (d ← put data pos bs; Ret (d, pos + n))) -> zlen bs = n -> puts w bs.
Proof.
  intros Hw Hn p old Hl. destruct (put_at p old bs Hl) as (old' & Ho & E). exists old'. split; [done|].
  rewrite Hw, E. cbn. by rewrite zlen_app, Hn.
Qed.

Lemma puts_byte b : puts (fun d pos => WriteByte d pos b) [b].
Proof. by apply (puts_of _ _ 1). Qed.
Lemma puts_u16 v : puts (fun d pos => WriteUint16 d pos v) (bytes2 v).
Proof. by apply (puts_of _ _ 2). Qed.
Lemma puts_u32 v : puts (fun d pos => WriteUint32 d pos v) (bytes4 v).
Proof. by apply (puts_of _ _ 4). Qed.
Lemma puts_lenenc i : puts (fun d pos => WriteLenEncInt d pos i) (enc_int i).
Proof. apply (puts_of _ _ (LenEncIntSize i)); [intros; apply WriteLenEncInt_eq|apply zlen_enc_int]. Qed.

Lemma puts_string v : puts (fun d pos => writeEOFString d pos v) v.
Proof.
  intros p old Hl. destruct (put_at p old v Hl) as (old' & Ho & E). exists old'. split; [done|].
  unfold writeEOFString. pose proof (reslice_packet p old []) as R. rewrite app_nil_r in R.
  rewrite zlen_app, R. cbn [mbind outcome_bind]. rewrite Z.min_r by done.
  rewrite take_ge by (unfold zlen; lia). rewrite E. cbn [mbind outcome_bind]. by rewrite (zlen_app p v).
Qed.

Lemma puts_then w1 w2 a b : puts w1 a -> puts w2 b ->
  puts (fun d pos => '(d, pos) ← w1 d pos; w2 d pos) (a ++ b).
Proof.
  intros H1 H2 p old Hl. pose proof (zlen_nonneg a). pose proof (zlen_nonneg b). rewrite zlen_app in Hl.
  destruct (H1 p old) as (o1 & Ho1 & E1); [lia|]. destruct (H2 (p ++ a) o1) as (o2 & Ho2 & E2); [lia|].
  exists o2. split; [rewrite zlen_app; lia|]. rewrite E1. cbn [mbind outcome_bind]. by rewrite E2, (app_assoc p a b).
Qed.

Lemma puts_lenenc_string v : puts (fun d pos => WriteLenEncString d pos v) (enc_int (zlen v) ++ v).
Proof. apply (puts_then _ _ _ _ (puts_lenenc _) (puts_string _)). Qed.

(** A whole buffer of the right size is overwritten. *)
Lemma puts_all w bs (buf : list Z) : puts w bs -> zlen buf = zlen bs -> w buf 0 = Ret (bs, zlen bs).
Proof.
  intros H Hl. destruct (H [] buf) as (old & Ho & E); [lia|]. change (zlen []) with 0 in E. cbn [app] in E.
  rewrite E. assert (old = []) as -> by (apply nil_length_inv; unfold zlen in *; lia). by rewrite app_nil_r.
Qed.

Create HintDb puts.
#[export] Hint Resolve puts_byte puts_u16 puts_u32 puts_lenenc puts_string puts_lenenc_string : puts.

(** * Sending *)

Section sending.
Context {W : Wire} {HW : Healthy W} {BP : BufPool} {BPO : BufPoolOk BP}.

(** The connection after the payloads were sent. *)
Definition delivered (c : Conn) (msgs : list (list Z)) : Conn :=
  set_ephemeral (wrote c (flat_map payload_pieces msgs)) ephemeralUnused None.

(** The writer sends the payload and frees its buffer. *)
Definition delivers (m : M Conn unit) (msg : list Z) : Prop :=
  forall c, currentEphemeralPolicy c = ephemeralUnused -> m c = (delivered c [msg], Ret tt).

Lemma wrote_ephemeral c p b l : wrote (set_ephemeral c p b) l = set_ephemeral (wrote c l) p b.
Proof. by destruct c as [i e s [w|] q pl f]. Qed.

Lemma ephemeral_delivers n (w : list Z -> outcome (list Z)) msg :
  w (pool_get n) = Ret msg ->
  delivers (let* data := StartEphemeralPacket n in fill (w data) ;;* WriteEphemeralPacket) msg.
Proof.
  intros Hw c Hc. unfold StartEphemeralPacket, bind, gets, modify, ret. rewrite Hc. cbn beta iota.
  unfold fill, of_outcome, bind, modify. rewrite Hw. unfold WriteEphemeralPacket, deferred, bind, gets, wrapping.
  cbn [currentEphemeralPolicy currentEphemeralBuffer set_ephemeral default]. rewrite WritePacket_pieces. cbn [wrap].
  rewrite !wrote_ephemeral. unfold recycleWritePacket, bind, gets, modify. cbn [currentEphemeralPolicy set_ephemeral].
  unfold delivered. cbn [flat_map]. by rewrite app_nil_r.
Qed.

Lemma wrote_app c l1 l2 : wrote (wrote c l1) l2 = wrote c (l1 ++ l2).
Proof.
  assert (forall s, on_wire s (l1 ++ l2) = on_wire s l1 ++ on_wire (after s l1) l2) as Hw.
  { induction l1 as [|p l IH]; intros s; [done|]. cbn [app on_wire]. rewrite IH. unfold after. cbn [foldl]. by rewrite <- !app_assoc. }
  assert (forall s, after s (l1 ++ l2) = after (after s l1) l2) as Ha by (intros s; apply foldl_app).
  unfold wrote. cbn [sequence SetSequence]. rewrite Hw, Ha, add_output_sequence, add_output_app. by destruct (add_output _ _).
Qed.

Lemma delivered_then c a b : delivered (delivered c a) b = delivered c (a ++ b).
Proof. unfold delivered. by rewrite wrote_ephemeral, flat_map_app, <- wrote_app. Qed.

Lemma delivered_unused c a : currentEphemeralPolicy (delivered c a) = ephemeralUnused.
Proof. done. Qed.

(** ** Generic packets *)

Definition ok_packet (head affectedRows lastInsertID flags warnings : Z) : list Z :=
  [head] ++ enc_int affectedRows ++ enc_int lastInsertID ++ bytes2 flags ++ bytes2 warnings.
Definition eof_packet (flags warnings : Z) : list Z := [EOFHeader] ++ bytes2 warnings ++ bytes2 flags.
Definition error_packet (code : Z) (state msg : list Z) : list Z :=
  [ErrHeader] ++ bytes2 code ++ [35] ++ state ++ msg.

(** The code that runs writers in turn and ends with the buffer. *)
Definition writes (f : list Z -> Z -> outcome (list Z)) (bs : list Z) : Prop :=
  forall p old, zlen bs <= zlen old ->
    exists old', zlen old' = zlen old - zlen bs /\ f (p ++ old) (zlen p) = Ret ((p ++ bs) ++ old').

Lemma writes_nil : writes (fun d pos => Ret d) [].
Proof. intros p old Hl. exists old. change (zlen []) with 0. rewrite app_nil_r. split; [lia|done]. Qed.

Lemma writes_then w g a b :
  puts w a -> writes g b -> writes (fun d pos => '(d, pos) ← w d pos; g d pos) (a ++ b).
Proof.
  intros H1 H2 p old Hl. pose proof (zlen_nonneg a). pose proof (zlen_nonneg b). rewrite zlen_app in Hl.
  destruct (H1 p old) as (o1 & Ho1 & E1); [lia|]. destruct (H2 (p ++ a) o1) as (o2 & Ho2 & E2); [lia|].
  exists o2. split; [rewrite zlen_app; lia|]. rewrite E1. cbn [mbind outcome_bind]. by rewrite E2, (app_assoc p a b).
Qed.

(** The code overwrites a buffer of the right size. *)
Definition fills (f : list Z -> outcome (list Z)) (bs : list Z) : Prop :=
  forall buf, zlen buf = zlen bs -> f buf = Ret bs.

Lemma fills_then w g a b : puts w a -> writes g b -> fills (fun d => '(d, pos) ← w d 0; g d pos) (a ++ b).
Proof.
  intros H1 H2 buf Hl. destruct (writes_then w g a b H1 H2 [] buf) as (old & Ho & E); [lia|].
  change (zlen []) with 0 in E. cbn [app] in E. rewrite E.
  assert (old = []) as -> by (apply nil_length_inv; unfold zlen in *; lia). by rewrite app_nil_r.
Qed.

Lemma send_delivers n f bs :
  fills f bs -> zlen bs = n ->
  delivers (let* data := StartEphemeralPacket n in fill (f data) ;;* WriteEphemeralPacket) bs.
Proof.
  intros Hf Hn. apply ephemeral_delivers, Hf. pose proof (zlen_nonneg bs). rewrite Hn. apply BPO. lia.
Qed.
End sending.

#[export] Hint Resolve writes_nil : puts.

(** The lengths of what is written. *)
Lemma zlen_bytes2 i : zlen (bytes2 i) = 2.
Proof. done. Qed.
Lemma zlen_bytes4 i : zlen (bytes4 i) = 4.
Proof. done. Qed.
Create Rewrite HintDb zlens.
#[export] Hint Rewrite @zlen_app @zlen_cons @zlen_nil zlen_enc_int zlen_bytes2 zlen_bytes4 : zlens.

Ltac zlens := autorewrite with zlens; try lia.

(** Shows that code [writes] what its writers put, one after the other. *)
Ltac run_writers :=
  first [refine (fills_then _ _ _ _ (puts_byte _) _) | refine (fills_then _ _ _ _ (puts_lenenc _) _)
        | refine (fills_then _ _ _ _ (puts_lenenc_string _) _)];
  repeat first [ apply writes_nil
               | refine (writes_then _ _ _ _ (puts_byte _) _) | refine (writes_then _ _ _ _ (puts_u16 _) _)
               | refine (writes_then _ _ _ _ (puts_u32 _) _) | refine (writes_then _ _ _ _ (puts_lenenc _) _)
               | refine (writes_then _ _ _ _ (puts_lenenc_string _) _)
               | refine (writes_then _ _ _ _ (puts_string _) _) ].

(** * Generic packets *)

Section generic.
Context {W : Wire} {HW : Healthy W} {BP : BufPool} {BPO : BufPoolOk BP}.

Lemma WriteOK_delivers head a i f w : delivers (WriteOK head a i f w) (ok_packet head a i f w).
Proof.
  unfold ok_packet. rewrite <- (app_nil_r (bytes2 w)).
  refine (send_delivers _ _ _ _ _); [run_writers|zlens].
Qed.

Lemma WriteEOFPacket_delivers f w : delivers (WriteEOFPacket f w) (eof_packet f w).
Proof.
  unfold eof_packet. rewrite <- (app_nil_r (bytes2 f)). refine (send_delivers _ _ _ _ _); [run_writers|zlens].
Qed.

(** The state of the packet. *)
Definition sent_state (sqlState : list Z) : list Z :=
  match sqlState with [] => DefaultMySQLState | _ => sqlState end.

Lemma WriteErrorPacket_delivers code state msg :
  zlen (sent_state state) = 5 ->
  delivers (WriteErrorPacket code state msg) (error_packet code (sent_state state) msg).
Proof.
  intros Hs. unfold error_packet, WriteErrorPacket. cbn zeta. fold (sent_state state). rewrite Hs, Z.eqb_refl.
  cbn [negb]. rewrite <- (app_nil_r msg) at 2. refine (send_delivers _ _ _ _ _); [run_writers|rewrite app_nil_r; zlens].
Qed.
End generic.

(** * Reading

    [rest] is what the packet holds from the position on. *)

Definition cursor (data : list Z) (pos : Z) (rest : list Z) : Prop := exists p, data = p ++ rest /\ pos = zlen p.

Lemma cursor_start data : cursor data 0 data.
Proof. by exists []. Qed.

Lemma cursor_skip data pos bs rest : cursor data pos (bs ++ rest) -> cursor data (pos + zlen bs) rest.
Proof. intros (p & -> & ->). exists (p ++ bs). split; [apply app_assoc|]. by rewrite zlen_app. Qed.

Lemma cursor_to data pos bs rest n : cursor data pos (bs ++ rest) -> zlen bs = n -> cursor data (pos + n) rest.
Proof. intros H <-. by apply cursor_skip. Qed.

Lemma cursor_head b data : cursor (b :: data) 1 data.
Proof. by exists [b]. Qed.

Lemma cursor_lenenc data pos i rest :
  cursor data pos (enc_int i ++ rest) -> is_u64 i ->
  ReadLenEncInt data pos = Ret (Some (i, pos + LenEncIntSize i, false)) /\ cursor data (pos + LenEncIntSize i) rest.
Proof.
  intros Hc Hi. split; [|by apply (cursor_to _ _ _ _ _ Hc), zlen_enc_int].
  destruct Hc as (p & -> & ->). by apply ReadLenEncInt_enc.
Qed.

Lemma cursor_u16 data pos v rest :
  cursor data pos (bytes2 v ++ rest) -> 0 <= v < 2 ^ 16 ->
  ReadUint16 data pos = Ret (Some (v, pos + 2)) /\ cursor data (pos + 2) rest.
Proof.
  intros Hc Hi. split; [|by apply (cursor_to _ _ _ _ _ Hc)]. destruct Hc as (p & -> & ->). by apply ReadUint16_bytes.
Qed.

Lemma cursor_bytes data pos b rest :
  cursor data pos (b ++ rest) -> zlen data <= max_i64 ->
  ReadBytes data pos (zlen b) = Ret (Some (b, pos + zlen b)) /\ cursor data (pos + zlen b) rest \/ b = [].
Proof.
  intros Hc Hl. destruct b as [|x b]; [by right|left]. split; [|by apply cursor_skip].
  destruct Hc as (p & -> & ->). pose proof (reslice_packet p (x :: b) rest) as R.
  autorewrite with zlens in *. pose proof (zlen_nonneg p). pose proof (zlen_nonneg b). pose proof (zlen_nonneg rest).
  unfold ReadBytes. rewrite !zlen_app, !zlen_cons, !i64_id by (unfold_int; lia). destruct (_ <=? _) eqn:E; [lia|]. by rewrite R.
Qed.

Lemma cursor_rest data pos rest : cursor data pos rest -> reslice data pos (zlen data) = Ret rest.
Proof.
  intros (p & -> & ->). pose proof (reslice_packet p rest []) as R. rewrite app_nil_r in R. by rewrite zlen_app.
Qed.

Lemma cursor_byte data pos b rest : cursor data pos (b :: rest) -> index data pos = Ret b /\ cursor data (pos + 1) rest.
Proof.
  intros Hc. split; [|by apply (cursor_to _ _ [b] _ _ Hc)]. destruct Hc as (p & -> & ->). apply index_packet.
Qed.

(** * The parsers read the packets back *)

Lemma parseOKHeader_ok head a i f w :
  is_u64 a -> is_u64 i -> 0 <= f < 2 ^ 16 -> 0 <= w < 2 ^ 16 ->
  parseOKHeader (ok_packet head a i f w) = Ret (a, i, f, w).
Proof.
  intros Ha Hi Hf Hw. unfold parseOKHeader, need.
  pose proof (cursor_head _ _ : cursor (ok_packet head a i f w) 1 _) as C.
  destruct (cursor_lenenc _ _ _ _ C Ha) as [-> C1]. cbn [mbind outcome_bind].
  destruct (cursor_lenenc _ _ _ _ C1 Hi) as [-> C2]. cbn [mbind outcome_bind].
  destruct (cursor_u16 _ _ _ _ C2 Hf) as [-> C3]. cbn [mbind outcome_bind].
  rewrite <- (app_nil_r (bytes2 w)) in C3. by destruct (cursor_u16 _ _ _ _ C3 Hw) as [-> _].
Qed.

Lemma parseEOFHeader_ok f w :
  0 <= f < 2 ^ 16 -> 0 <= w < 2 ^ 16 ->
  isEOFHeader (eof_packet f w) = Ret true /\
  parseEOFHeader (eof_packet f w) = Ret (w, negb (Z.land f ServerMoreResultsExists =? 0)).
Proof.
  intros Hf Hw. split; [done|]. unfold parseEOFHeader.
  pose proof (cursor_head _ _ : cursor (eof_packet f w) 1 _) as C.
  destruct (cursor_u16 _ _ _ _ C Hw) as [-> C1]. cbn [mbind outcome_bind]. change (1 + 2) with 3 in C1.
  rewrite <- (app_nil_r (bytes2 f)) in C1. by destruct (cursor_u16 _ _ _ _ C1 Hf) as [-> _].
Qed.

Lemma ParseErrorPacket_ok code state msg :
  0 <= code < 2 ^ 16 -> zlen state = 5 -> zlen msg + 9 <= max_i64 ->
  IsErrorPacket (error_packet code state msg) = Ret true /\
  ParseErrorPacket (error_packet code state msg) = Ret (code, msg).
Proof.
  intros Hc Hs Hm. split; [done|]. unfold ParseErrorPacket, need.
  pose proof (cursor_head _ _ : cursor (error_packet code state msg) 1 _) as C.
  destruct (cursor_u16 _ _ _ _ C Hc) as [-> C1]. cbn [mbind outcome_bind].
  destruct (cursor_byte _ _ _ _ C1) as [_ C2].
  destruct (cursor_bytes _ _ _ _ C2) as [[R C3]|E]; [unfold error_packet; zlens| |by rewrite E in Hs].
  rewrite Hs in R, C3. rewrite R. cbn [mbind outcome_bind]. by rewrite (cursor_rest _ _ _ C3).
Qed.
