(* ===== verification/Stmt.v ===== *)
(** Prepared statements of a session, proxy/server/executor_stmt.go and
    executor_handle.go: the places of the parameters, the values a client binds to
    them and the text that is executed. *)

From Stdlib Require Import Ascii String Floats.SpecFloat.
From S2P Require Import Prelude GoStr Keywords Utf8 Lexer LexerSafe Format LexerRound Encoding.

(** * Parameters *)

(** The values [bindStmtArgs] and [handleStmtSendLongData] store in [Stmt.args]. *)
Inductive arg :=
| ANil
| AInt (k : ikind) (z : Z)
| AFloat32 (f : spec_float)
| AFloat64 (f : spec_float)
| ABytes (b : list Z).

(** [fmt.Sprintf("%v", f)] *)
Class FloatV := FormatFloatV : spec_float -> Z -> string.

(** util.go: whether the value is quoted, and its text *)
Definition ItoString {FV : FloatV} (a : arg) : bool * string :=
  match a with
  | ANil => (false, "NULL"%string)
  | ABytes b => (true, of_bytes b)
  | AInt _ z => (false, FormatInt z)
  | AFloat32 f => (false, FormatFloatV f 32)
  | AFloat64 f => (false, FormatFloatV f 64)
  end.

(** The loop of [calcParams]: [quoteChar] and the offsets of the parameters. *)
Fixpoint params_loop (s : string) (i : Z) (quoteChar : option ascii) (offsets : list Z) :
    option ascii * list Z :=
  match s with
  | EmptyString => (quoteChar, offsets)
  | String elem s =>
      if Ascii.eqb elem backslash then params_loop s (i + 1) quoteChar offsets
      else if Ascii.eqb elem double_quote || Ascii.eqb elem single_quote then
        match quoteChar with
        | None => params_loop s (i + 1) (Some elem) offsets
        | Some c => params_loop s (i + 1) (if Ascii.eqb c elem then None else quoteChar) offsets
        end
      else if bool_decide (quoteChar = None) && Ascii.eqb elem "?" then
        params_loop s (i + 1) quoteChar (offsets ++ [i])
      else params_loop s (i + 1) quoteChar offsets
  end.

Definition calcParams (sql : string) : outcome (Z * list Z) :=
  match params_loop sql 0 None [] with
  | (None, offsets) => Ret (zlen offsets, offsets)
  | (Some _, _) => Err (Errorf "fatal situation")
  end.

Fixpoint escapeSQL (sql : string) : string :=
  match sql with
  | EmptyString => EmptyString
  | String elem s =>
      if Ascii.eqb elem backslash || Ascii.eqb elem single_quote
      then String backslash (String elem (escapeSQL s)) else String elem (escapeSQL s)
  end.

(** * Statements *)

Record Stmt := mk_Stmt {
  st_id : Z;
  st_sql : string;
  args : list arg;
  columnCount : Z;
  paramCount : Z;
  paramTypes : list Z;
  offsets : list Z;
}.

Definition set_args (s : Stmt) (l : list arg) : Stmt :=
  mk_Stmt (st_id s) (st_sql s) l (columnCount s) (paramCount s) (paramTypes s) (offsets s).

Definition SetParamTypes (s : Stmt) (types : list Z) : Stmt :=
  mk_Stmt (st_id s) (st_sql s) (args s) (columnCount s) (paramCount s) types (offsets s).

Definition ResetParams (s : Stmt) : Stmt := set_args s (replicate (Z.to_nat (paramCount s)) ANil).

(** What is written for a value. *)
Definition arg_literal {FV : FloatV} (a : arg) : string :=
  let '(quote, tmp) := ItoString a in
  let tmp := escapeSQL tmp in
  if (quote : bool)
  then String single_quote (String.append tmp (String single_quote EmptyString)) else tmp.

Fixpoint rewrite_loop {FV : FloatV} (sql : string) (n : nat) (i startPos : Z) (s : Stmt)
    (builder : string) : outcome string :=
  match n with
  | O => t ← ssub sql startPos (slen sql); Ret (String.append builder t)
  | S n =>
      a ← index (args s) i;
      pos ← index (offsets s) i;
      piece ← ssub sql startPos pos;
      rewrite_loop sql n (i + 1) (pos + 1) s
        (String.append builder (String.append piece (arg_literal a)))
  end.

Definition GetRewriteSQL {FV : FloatV} (s : Stmt) : outcome string :=
  rewrite_loop (st_sql s) (Z.to_nat (paramCount s)) 0 0 s EmptyString.

(** * Binding *)

(** [math.Float32frombits] and [math.Float64frombits]: [mw] bits of the mantissa and
    [ew] of the exponent. *)
Definition frombits (mw ew b : Z) : spec_float :=
  let sign := Z.testbit b (mw + ew) in
  let e := Z.shiftr b mw mod 2 ^ ew in
  let m := b mod 2 ^ mw in
  let bias := 2 ^ (ew - 1) - 1 in
  if e =? 0 then match m with Zpos p => S754_finite sign p (1 - bias - mw) | _ => S754_zero sign end
  else if e =? 2 ^ ew - 1 then (if m =? 0 then S754_infinity sign else S754_nan)
  else match m + 2 ^ mw with Zpos p => S754_finite sign p (e - bias - mw) | _ => S754_nan end.

Definition Float32frombits : Z -> spec_float := frombits 23 8.
Definition Float64frombits : Z -> spec_float := frombits 52 11.

(** Conversions to the signed types *)
Definition i8 (z : Z) : Z := (z + 2 ^ 7) mod 2 ^ 8 - 2 ^ 7.
Definition i16 (z : Z) : Z := (z + 2 ^ 15) mod 2 ^ 16 - 2 ^ 15.

Definition ErrMalformPacket := Named "ErrMalformPacket".

(** The types that are read as length-encoded strings *)
Definition string_types : list Z :=
  [0; 246; 15; 16; 247; 248; 249; 250; 251; 252; 253; 254; 255; 10; 14; 7; 12; 11; 245].

(** [binary.LittleEndian] of the [n] bytes at [pos], if the packet has them *)
Definition fixed_value (paramValues : list Z) (pos n : Z) : outcome Z :=
  if zlen paramValues <? pos + n then Err ErrMalformPacket
  else d ← reslice paramValues pos (pos + n); Ret (le_or 0 d).

(** The value of one parameter of type [tp], and the position behind it. *)
Definition bind_value (tp : Z) (isUnsigned : bool) (paramValues : list Z) (pos : Z) : outcome (arg * Z) :=
  let fixed n (f : Z -> arg) := v ← fixed_value paramValues pos n; Ret (f v, pos + n) in
  if tp =? 6 then Ret (ANil, pos)
  else if tp =? 1 then
    fixed 1 (fun v => if isUnsigned then AInt KUint8 v else AInt KInt8 (i8 v))
  else if (tp =? 2) || (tp =? 13) then
    fixed 2 (fun v => if isUnsigned then AInt KUint16 v else AInt KInt16 (i16 v))
  else if (tp =? 9) || (tp =? 3) then
    fixed 4 (fun v => if isUnsigned then AInt KUint32 v else AInt KInt32 (i32 v))
  else if tp =? 8 then
    fixed 8 (fun v => if isUnsigned then AInt KUint64 v else AInt KInt64 (i64 v))
  else if tp =? 4 then fixed 4 (fun v => AFloat32 (Float32frombits v))
  else if tp =? 5 then fixed 8 (fun v => AFloat64 (Float64frombits v))
  else if bool_decide (tp ∈ string_types) then
    if zlen paramValues <? pos + 1 then Err ErrMalformPacket
    else r ← ReadLenEncStringAsBytes paramValues pos;
         match r with
         | None => Err (Errorf "ReadLenEncStringAsBytes in bindStmtArgs failed")
         | Some (v, pos, isNull) => Ret (if (isNull : bool) then ANil else ABytes v, pos)
         end
  else Err (Errorf "Stmt Unknown FieldType %d").

(** A step that may fail, in a state that stays when it does *)
Definition keep {S A B} (s : S) (m : outcome A) (k : A -> S * outcome B) : S * outcome B :=
  match m with
  | Ret a => k a
  | Err e => (s, Err e)
  | Panic p => (s, Panic p)
  end.

(** The loop over the parameters; an error leaves the values bound so far. *)
Fixpoint bind_loop (n : nat) (i : Z) (nullBitmap paramTypes paramValues : list Z) (l : list arg)
    (pos : Z) : list arg * outcome unit :=
  match n with
  | O => (l, Ret tt)
  | S n =>
      let next l pos := bind_loop n (i + 1) nullBitmap paramTypes paramValues l pos in
      keep l (index nullBitmap (Z.shiftr i 3)) (fun b =>
      if 0 <? Z.land b (Z.shiftl 1 (i mod 8)) then keep l (store l i ANil) (fun l => next l pos)
      else if zlen paramTypes <=? Z.shiftl i 1 + 1 then (l, Err ErrMalformPacket) else
      keep l (index paramTypes (Z.shiftl i 1)) (fun tp =>
      keep l (index paramTypes (Z.shiftl i 1 + 1)) (fun fl =>
      keep l (index l i) (fun old =>
      match old with
      | ANil =>
          keep l ('(a, pos) ← bind_value tp (0 <? Z.land fl 128) paramValues pos;
                  l ← store l i a; Ret (l, pos)) (fun '(l, pos) => next l pos)
      | _ => next l pos
      end))))
  end.

Definition bindStmtArgs (s : Stmt) (nullBitmap types paramValues : list Z) : Stmt * outcome unit :=
  let '(l, r) := bind_loop (Z.to_nat (paramCount s)) 0 nullBitmap types paramValues (args s) 0 in
  (set_args s l, r).

(** * The commands of a session *)

(** [stmtID] and [stmts] of the SessionExecutor. *)
Record Stmts := mk_Stmts { stmtID : Z; stmts : gmap Z Stmt }.

Definition set_stmt (ss : Stmts) (s : Stmt) : Stmts :=
  mk_Stmts (stmtID ss) (<[st_id s := s]> (stmts ss)).

Definition is_semicolon (c : ascii) : bool := Ascii.eqb c ";".

Definition handleStmtPrepare (ss : Stmts) (sql : string) : outcome (Stmt * Stmts) :=
  let sql := trim_right is_semicolon sql in
  '(count, offs) ← calcParams sql;
  let stmt := ResetParams (mk_Stmt (stmtID ss) sql [] 0 count [] offs) in
  Ret (stmt, mk_Stmts (u32 (stmtID ss + 1)) (<[stmtID ss := stmt]> (stmts ss))).

Definition handleStmtClose (ss : Stmts) (data : list Z) : outcome Stmts :=
  if zlen data <? 4 then Ret ss
  else d ← reslice data 0 4; Ret (mk_Stmts (stmtID ss) (delete (le_or 0 d) (stmts ss))).

Definition ErrUnknownStmtHandler := Errorf "Unknown prepared statement handler (%s) given to %s".

(** The statement a packet names in its first four bytes *)
Definition packet_stmt (ss : Stmts) (data : list Z) : outcome Stmt :=
  d ← reslice data 0 4; or_err ErrUnknownStmtHandler (stmts ss !! le_or 0 d).

(** The part of [handleStmtExecute] before the text is executed: the statement with
    its bound values, and the text. *)
Definition execute_sql {FV : FloatV} (s : Stmt) (data : list Z) : Stmt * outcome string :=
  if paramCount s <=? 0 then (s, Ret (st_sql s)) else
  let pos := 9 in
  let nullBitmapLen := Z.shiftr (paramCount s + 7) 3 in
  if zlen data <? pos + nullBitmapLen + 1 then (s, Err ErrMalformPacket) else
  keep s (reslice data pos (pos + nullBitmapLen)) (fun nullBitmaps =>
  let pos := pos + nullBitmapLen in
  let bind s pos :=
    keep s (reslice data pos (zlen data)) (fun paramValues =>
    let '(s, r) := bindStmtArgs s nullBitmaps (paramTypes s) paramValues in
    keep s r (fun _ => (s, GetRewriteSQL s))) in
  keep s (index data pos) (fun bound =>
  if bound =? 1 then
    let pos := pos + 1 in
    let len := Z.shiftl (paramCount s) 1 in
    if zlen data <? pos + len then (s, Err ErrMalformPacket) else
    keep s (reslice data pos (pos + len)) (fun types => bind (SetParamTypes s types) (pos + len))
  else bind s (pos + 1))).

(** [handleStmtExecute]: the text that is handed to [handleQuery]; the values are reset
    after the query, not when binding fails. *)
Definition handleStmtExecute {FV : FloatV} (ss : Stmts) (data : list Z) : Stmts * outcome string :=
  if zlen data <? 9 then (ss, Err ErrMalformPacket) else
  keep ss (packet_stmt ss data) (fun s =>
  keep ss (index data 4) (fun fl =>
  if negb (Z.land fl 1 =? 0) then (ss, Err (Errorf "unsupported flag %d")) else
  match execute_sql s data with
  | (s, Ret q) => (set_stmt ss (ResetParams s), Ret q)
  | (s, r) => (set_stmt ss s, r)
  end)).

Definition handleStmtSendLongData (ss : Stmts) (data : list Z) : outcome Stmts :=
  if zlen data <? 6 then Err ErrMalformPacket else
  s ← packet_stmt ss data;
  d ← reslice data 4 6;
  let paramID := le_or 0 d in
  if u16 (paramCount s) <=? paramID then Err (Errorf "Incorrect arguments to %s") else
  rest ← reslice data 6 (zlen data);
  old ← index (args s) paramID;
  match old with
  | ANil => l ← store (args s) paramID (ABytes rest); Ret (set_stmt ss (set_args s l))
  | ABytes b => l ← store (args s) paramID (ABytes (b ++ rest)); Ret (set_stmt ss (set_args s l))
  | _ => Err (Errorf "invalid param long data type %T")
  end.

Definition handleStmtReset (ss : Stmts) (data : list Z) : outcome Stmts :=
  if zlen data <? 4 then Err ErrMalformPacket
  else s ← packet_stmt ss data; Ret (set_stmt ss (ResetParams s)).

(** * The executed text *)

(** The text with [lits] in place of the bytes at [offs]. *)
Fixpoint rewritten (sql : string) (start : Z) (offs : list Z) (lits : list string) : string :=
  match offs, lits with
  | o :: offs, l :: lits =>
      String.append (String.substring (Z.to_nat start) (Z.to_nat (o - start)) sql)
        (String.append l (rewritten sql (o + 1) offs lits))
  | _, _ => sdrop (Z.to_nat start) sql
  end.

(** The offsets are places of question marks, in order. *)
Definition placed (sql : string) (start : Z) (offs : list Z) : Prop :=
  ascending offs /\ Forall (fun o => start <= o < slen sql /\ String.get (Z.to_nat o) sql = Some "?"%char) offs.

Lemma get_sdrop n k s : String.get k (sdrop n s) = String.get (n + k) s.
Proof. revert s. induction n as [|n IH]; intros s; [done|]. destruct s; [by destruct k|apply IH]. Qed.

Lemma params_loop_places sql s i q offs :
  0 <= i -> s = sdrop (Z.to_nat i) sql -> slen sql = i + slen s ->
  exists l, (params_loop s i q offs).2 = offs ++ l /\ placed sql i l.
Proof.
  revert i q offs. induction s as [|c s IH]; intros i q offs Hi Hs Hl; cbn [params_loop].
  { exists []. rewrite app_nil_r. split; [done|]. split; [constructor|constructor]. }
  assert (s = sdrop (Z.to_nat (i + 1)) sql) as Hs'.
  { replace (Z.to_nat (i + 1)) with (Z.to_nat i + 1)%nat by lia.
    clear - Hs. revert sql Hs. generalize (Z.to_nat i) as n. induction n as [|n IH]; intros [|d sql]; cbn; try done.
    - by intros [= _ <-].
    - apply IH. }
  rewrite slen_cons in Hl.
  assert (forall q offs, exists l, (params_loop s (i + 1) q offs).2 = offs ++ l /\ placed sql i l) as K.
  { intros q' offs'. destruct (IH (i + 1) q' offs') as (l & H1 & H2 & H3); [lia|done|lia|].
    exists l. split; [done|]. split; [done|]. eapply Forall_impl; [exact H3|]. cbn. intros o []. split; [lia|done]. }
  destruct (Ascii.eqb c backslash); [apply K|]. destruct (_ || _)%bool.
  { destruct q as [d|]; apply K. }
  destruct (bool_decide (q = None) && Ascii.eqb c "?") eqn:E; [|apply K].
  apply andb_true_iff in E as [_ ->%Ascii.eqb_eq].
  destruct (IH (i + 1) q (offs ++ [i])) as (l & -> & H2 & H3); [lia|done|lia|].
  exists (i :: l). rewrite <- app_assoc. split; [done|]. split.
  - apply ascending_cons. split; [done|]. eapply Forall_impl; [exact H3|]. cbn. intros o []. lia.
  - pose proof (slen_nonneg s). constructor.
    + split; [lia|]. rewrite <- (Nat.add_0_r (Z.to_nat i)), <- get_sdrop, <- Hs. done.
    + eapply Forall_impl; [exact H3|]. cbn. intros o []. split; [lia|done].
Qed.

Lemma calcParams_places sql n offs :
  calcParams sql = Ret (n, offs) -> n = zlen offs /\ placed sql 0 offs.
Proof.
  unfold calcParams. destruct (params_loop_places sql sql 0 None []) as (l & H1 & H2); [lia|done|lia|].
  destruct (params_loop sql 0 None []) as [[c|] offs']; [done|]. intros [= <- <-]. cbn in H1. by subst.
Qed.

Section rewriting.
Context {FV : FloatV}.

Lemma substring_sdrop n s : String.substring n (String.length s - n) s = sdrop n s.
Proof.
  revert s. induction n as [|n IH]; intros s; [rewrite Nat.sub_0_r; apply substring_all|].
  destruct s; [done|]. apply IH.
Qed.

Lemma rewrite_loop_eq sql s n i start builder :
  placed sql start (drop i (offsets s)) -> 0 <= start <= slen sql ->
  length (drop i (offsets s)) = n -> length (drop i (args s)) = n ->
  rewrite_loop sql n (Z.of_nat i) start s builder =
    Ret (String.append builder (rewritten sql start (drop i (offsets s)) (map arg_literal (drop i (args s))))).
Proof.
  revert i start builder. induction n as [|n IH]; intros i start builder [Ha Hp] Hst Ho Hn; cbn [rewrite_loop].
  { apply nil_length_inv in Ho. rewrite Ho. cbn [rewritten]. unfold ssub. rewrite decide_True by lia.
    cbn [mbind outcome_bind]. do 2 f_equal. rewrite <- substring_sdrop. f_equal. unfold slen. lia. }
  destruct (drop i (offsets s)) as [|o offs] eqn:Eo; [done|].
  destruct (drop i (args s)) as [|a l] eqn:Ea; [done|].
  apply Forall_cons in Hp as [[Hr _] Hp]. apply ascending_cons in Ha as [Ha Hgt].
  assert (forall {A} (m : list A) x r, drop i m = x :: r -> index m (Z.of_nat i) = Ret x /\ drop (S i) m = r) as K.
  { intros A m x r E. split.
    - apply index_Ret. split; [lia|]. rewrite Nat2Z.id, <- (Nat.add_0_r i), <- lookup_drop, E. done.
    - rewrite <- Nat.add_1_r, <- drop_drop, E. done. }
  destruct (K _ _ _ _ Ea) as [-> Ea']. destruct (K _ _ _ _ Eo) as [-> Eo']. cbn [mbind outcome_bind].
  unfold ssub. rewrite decide_True by lia. cbn [mbind outcome_bind].
  replace (Z.of_nat i + 1) with (Z.of_nat (S i)) by lia. rewrite IH; rewrite ?Ea', ?Eo'; [| |lia|by injection Ho|by injection Hn].
  - cbn [map rewritten]. by rewrite <- !append_assoc.
  - split; [done|]. apply Forall_forall. intros o' Ho'. rewrite Forall_forall in Hp, Hgt.
    specialize (Hgt o' Ho'). destruct (Hp o' Ho'). split; [lia|done].
Qed.

(** The text of a statement whose values are all there *)
Lemma GetRewriteSQL_eq s :
  calcParams (st_sql s) = Ret (paramCount s, offsets s) -> zlen (args s) = paramCount s ->
  GetRewriteSQL s = Ret (rewritten (st_sql s) 0 (offsets s) (map arg_literal (args s))).
Proof.
  intros [Hn Hp]%calcParams_places Ha. unfold GetRewriteSQL. unfold zlen in *.
  rewrite (rewrite_loop_eq (st_sql s) s _ 0 0 EmptyString); rewrite ?drop_0; [done|done| |lia|lia].
  pose proof (slen_nonneg (st_sql s)). lia.
Qed.

(** Only the place of a parameter depends on its value. *)
Lemma rewritten_split sql start o1 o o2 l1 l2 :
  length o1 = length l1 ->
  exists p, forall x, rewritten sql start (o1 ++ o :: o2) (l1 ++ x :: l2) =
    String.append p (String.append x (rewritten sql (o + 1) o2 l2)).
Proof.
  revert start l1. induction o1 as [|o' o1 IH]; intros start [|l l1]; try done; intros Hl.
  - by exists (String.substring (Z.to_nat start) (Z.to_nat (o - start)) sql).
  - injection Hl as Hl. destruct (IH (o' + 1) l1 Hl) as [p Hp]. cbn [app rewritten].
    exists (String.append (String.substring (Z.to_nat start) (Z.to_nat (o' - start)) sql) (String.append l p)).
    intros x. by rewrite Hp, !append_assoc.
Qed.

Lemma rewritten_head q sql start offs lits :
  placed sql start offs -> 0 <= start ->
  no_quote q (sdrop (Z.to_nat start) sql) -> no_quote "?" (sdrop (Z.to_nat start) sql) ->
  no_quote q (rewritten sql start offs lits).
Proof.
  intros [Ha Hp] Hst Hq Hm. destruct offs as [|o offs], lits as [|l lits]; try done. cbn [rewritten].
  apply Forall_cons in Hp as [[Hr Hg] _].
  pose proof (get_sdrop (Z.to_nat start) (Z.to_nat (o - start)) sql) as Hd.
  replace (Z.to_nat start + Z.to_nat (o - start))%nat with (Z.to_nat o) in Hd by lia. rewrite Hg in Hd.
  assert (exists k, String.substring (Z.to_nat start) (Z.to_nat (o - start)) sql = stake k (sdrop (Z.to_nat start) sql) /\
                    k = Z.to_nat (o - start)) as (k & -> & Hk).
  { eexists. split; [|done]. clear. unfold stake. generalize (Z.to_nat (o - start)) as k.
    generalize (Z.to_nat start) as n. intros n. revert sql. induction n as [|n IH]; intros [|c sql] k; try done;
      cbn [String.substring sdrop]. by destruct k. apply IH. }
  destruct (sdrop (Z.to_nat start) sql) as [|c t] eqn:E; [by destruct (Z.to_nat (o - start))|].
  cbn [no_quote] in *. destruct k as [|k].
  - rewrite <- Hk in Hd. cbn in Hd. injection Hd as ->. done.
  - unfold stake. cbn [String.substring String.append no_quote]. done.
Qed.

Lemma escapeSQL_escaped s : escapeSQL s = escaped backslash s.
Proof.
  induction s as [|c s IH]; [done|]. cbn [escapeSQL escaped]. rewrite IH.
  destruct (Ascii.eqb_spec c backslash) as [->|]; [done|]. cbn [orb]. done.
Qed.

(** C19: a value that travels as bytes cannot change the statement around its parameter,
    unless the SQL mode has NO_BACKSLASH_ESCAPES: the executed text is the same before and
    after the place of the parameter whatever the value is, and the scanner, when it comes
    to that place, reads what stands there as one string token with exactly the bytes of
    the value. No quote and no parameter follows the place directly. *)
Theorem parameter_is_one_token s i o mode :
  calcParams (st_sql s) = Ret (paramCount s, offsets s) -> zlen (args s) = paramCount s ->
  offsets s !! i = Some o -> HasNoBackslashEscapesMode mode = false ->
  no_quote single_quote (sdrop (Z.to_nat (o + 1)) (st_sql s)) ->
  no_quote "?" (sdrop (Z.to_nat (o + 1)) (st_sql s)) ->
  exists p t, forall b,
    exists q, GetRewriteSQL (set_args s (<[i := ABytes b]> (args s))) =
      Ret (String.append p (String.append q t)) /\
    forall r errs fuel, r_s r = String.append p (String.append q t) -> off r = slen p ->
      exists r', scan (S fuel) (mk_Scanner r errs None mode) =
        Ret (stringLit, r_p r, of_bytes b, mk_Scanner r' errs None mode) /\ rest r' = t.
Proof.
  intros Hc Ha Ho Hmode Hq Hm. destruct (calcParams_places _ _ _ Hc) as [Hn [Hasc Hp]].
  apply take_drop_middle in Ho as Es. set (o1 := take i (offsets s)) in *. set (o2 := drop (S i) (offsets s)) in *.
  assert (i < length (args s))%nat as Hi.
  { apply lookup_lt_Some in Ho. unfold zlen in *. lia. }
  assert (length o1 = length (map arg_literal (take i (args s)))) as Hlen.
  { apply lookup_lt_Some in Ho. unfold o1. rewrite length_map, !length_take. lia. }
  destruct (rewritten_split (st_sql s) 0 o1 o o2 (map arg_literal (take i (args s)))
              (map arg_literal (drop (S i) (args s))) Hlen) as [p Hsplit].
  set (t := rewritten (st_sql s) (o + 1) o2 (map arg_literal (drop (S i) (args s)))) in *.
  assert (no_quote single_quote t) as Ht.
  { assert (0 <= o) by (eapply Forall_lookup in Hp as [? _]; [|exact Ho]; lia).
    apply rewritten_head; [|lia|done|done]. rewrite <- Es in Hasc, Hp.
    apply Forall_app in Hp as [_ [_ Hp]%Forall_cons].
    apply ascending_app in Hasc as (_ & [Hasc Hgt]%ascending_cons & _). split; [done|].
    apply Forall_forall. intros o' Ho'. rewrite Forall_forall in Hp, Hgt. specialize (Hgt o' Ho').
    destruct (Hp o' Ho'). split; [lia|done]. }
  exists p, t. intros b. exists (arg_literal (ABytes b)). split.
  - rewrite GetRewriteSQL_eq; [|done|by cbn; rewrite zlen_insert]. cbn [st_sql offsets set_args args].
    rewrite insert_take_drop by done. rewrite <- Es, map_app. cbn [map]. by rewrite Hsplit.
  - intros r errs fuel Hs Hoff. apply (scan_string mode backslash (of_bytes b) p t); auto.
    rewrite Hs. unfold arg_literal. cbn [ItoString]. rewrite escapeSQL_escaped, append_cons, <- append_assoc. done.
Qed.

End rewriting.

(** * What a client sends *)

(** The values of a COM_STMT_EXECUTE packet; integers have one of the sized kinds. Every
    other type has a length and its bytes on the wire, the dates and times too, whose
    bytes are packed fields. *)
Inductive wire :=
| WNull
| WInt (k : ikind) (z : Z)
| WFloat32 (bits : Z)
| WFloat64 (bits : Z)
| WBytes (tp : Z) (b : list Z).

Definition bound (w : wire) : arg :=
  match w with
  | WNull => ANil
  | WInt k z => AInt k z
  | WFloat32 b => AFloat32 (Float32frombits b)
  | WFloat64 b => AFloat64 (Float64frombits b)
  | WBytes _ b => ABytes b
  end.

Definition int_width (k : ikind) : nat :=
  match k with
  | KInt8 | KUint8 => 1
  | KInt16 | KUint16 => 2
  | KInt32 | KUint32 => 4
  | _ => 8
  end.

Definition int_type (k : ikind) : Z :=
  match int_width k with 1%nat => 1 | 2%nat => 2 | 4%nat => 3 | _ => 8 end.

Definition int_flag (k : ikind) : Z :=
  match k with KUint8 | KUint16 | KUint32 | KUint64 => 128 | _ => 0 end.

(** Type, unsigned flag and bytes of a value *)
Definition wire_type (w : wire) : list Z :=
  match w with
  | WNull => [6; 0]
  | WInt k _ => [int_type k; int_flag k]
  | WFloat32 _ => [4; 0]
  | WFloat64 _ => [5; 0]
  | WBytes tp _ => [tp; 0]
  end.

Definition wire_bytes (w : wire) : list Z :=
  match w with
  | WNull => []
  | WInt k z => le_bytes (int_width k) z
  | WFloat32 b => le_bytes 4 b
  | WFloat64 b => le_bytes 8 b
  | WBytes _ b => enc_int (zlen b) ++ b
  end.

Definition wire_ok (w : wire) : Prop :=
  match w with
  | WInt k z => k <> KInt /\ k <> KUint /\ ikind_range k z
  | WFloat32 b => 0 <= b < 2 ^ 32
  | WFloat64 b => is_u64 b
  | WBytes tp _ => tp ∈ string_types
  | WNull => True
  end.

Definition is_null (w : wire) : bool := match w with WNull => true | _ => false end.

(** The bit of every null value is set, and no other. *)
Definition null_bits (ws : list wire) (bitmap : list Z) : Prop :=
  Forall is_u8 bitmap /\ zlen bitmap = Z.shiftr (zlen ws + 7) 3 /\
  forall i w, ws !! i = Some w -> exists b, bitmap !! Z.to_nat (Z.shiftr (Z.of_nat i) 3) = Some b /\
    Z.testbit b (Z.of_nat i mod 8) = is_null w.

Definition wire_types (ws : list wire) : list Z := concat (map wire_type ws).
Definition wire_values (ws : list wire) : list Z := concat (map wire_bytes ws).

(** No cursor, one iteration, new types. *)
Definition execute_packet (id : Z) (bitmap : list Z) (ws : list wire) : list Z :=
  le_bytes 4 id ++ [0; 1; 0; 0; 0] ++ bitmap ++ [1] ++ wire_types ws ++ wire_values ws.

Lemma zlen_le_bytes n z : zlen (le_bytes n z) = Z.of_nat n.
Proof. unfold zlen. by rewrite length_le_bytes. Qed.

Lemma fixed_value_le p n z q :
  fixed_value (p ++ le_bytes n z ++ q) (zlen p) (Z.of_nat n) = Ret (z mod 2 ^ (8 * Z.of_nat n)).
Proof.
  unfold fixed_value. rewrite !zlen_app, zlen_le_bytes.
  pose proof (zlen_nonneg q). replace (_ <? _) with false by lia.
  pose proof (reslice_packet p (le_bytes n z) q) as R. rewrite zlen_le_bytes in R.
  rewrite R. cbn [mbind outcome_bind]. by rewrite le_or_le_bytes.
Qed.

Lemma signed_mod w z : - w <= z < w -> (z mod (2 * w) + w) mod (2 * w) - w = z.
Proof. intros H. rewrite Zplus_mod_idemp_l, Z.mod_small by lia. lia. Qed.

(** An integer of every kind survives its bytes. *)
Lemma int_wire p k z q :
  k <> KInt -> k <> KUint -> ikind_range k z ->
  bind_value (int_type k) (0 <? Z.land (int_flag k) 128) (p ++ le_bytes (int_width k) z ++ q) (zlen p) =
    Ret (AInt k z, zlen p + Z.of_nat (int_width k)).
Proof.
  intros Hk Hk' Hr. unfold bind_value.
  destruct k; try done; cbn [int_type int_flag int_width Z.eqb Pos.eqb orb];
    rewrite ?(fixed_value_le p 1), ?(fixed_value_le p 2), ?(fixed_value_le p 4), ?(fixed_value_le p 8);
    cbn [mbind outcome_bind]; do 3 f_equal; cbn in Hr; unfold_int.
  1: apply (signed_mod 128); lia.
  1: apply (signed_mod 32768); lia.
  1: apply (signed_mod 2147483648); lia.
  1: apply (signed_mod 9223372036854775808); lia.
  all: apply Z.mod_small; lia.
Qed.

Lemma bind_value_wire p w q tp fl :
  wire_ok w -> w <> WNull -> wire_type w = [tp; fl] -> zlen p + 9 + zlen (wire_bytes w) <= max_i64 ->
  bind_value tp (0 <? Z.land fl 128) (p ++ wire_bytes w ++ q) (zlen p) =
    Ret (bound w, zlen p + zlen (wire_bytes w)).
Proof.
  intros Hok Hn Ht Hm. destruct w as [|k z|b|b|tp' b]; [done|..].
  - destruct Hok as (Hk & Hk' & Hr). injection Ht as <- <-. cbn [wire_bytes bound].
    rewrite zlen_le_bytes. by apply int_wire.
  - cbn in Ht. injection Ht as <- <-. unfold bind_value. cbn [Z.eqb Pos.eqb orb wire_bytes bound].
    rewrite (fixed_value_le p 4). cbn [mbind outcome_bind]. cbn in Hok.
    rewrite Z.mod_small by (cbn; lia). by rewrite zlen_le_bytes.
  - cbn in Ht. injection Ht as <- <-. unfold bind_value. cbn [Z.eqb Pos.eqb orb wire_bytes bound].
    rewrite (fixed_value_le p 8). cbn [mbind outcome_bind]. cbn [wire_ok] in Hok. unfold is_u64 in Hok.
    rewrite Z.mod_small by (change (8 * Z.of_nat 8) with 64; lia). by rewrite zlen_le_bytes.
  - cbn in Ht. injection Ht as -> <-. cbn [wire_ok] in Hok. unfold bind_value. cbn [wire_bytes bound].
    assert (forall z, z ∉ string_types -> (tp =? z) = false) as Hz by (intros z Hz; apply Z.eqb_neq; by intros ->).
    rewrite (Hz 6), (Hz 1), (Hz 2), (Hz 13), (Hz 9), (Hz 3), (Hz 8), (Hz 4), (Hz 5) by (unfold string_types; set_solver).
    cbn [orb]. rewrite bool_decide_true by done. cbn [wire_bytes] in Hm.
    rewrite zlen_app, zlen_enc_int in Hm. rewrite !zlen_app, zlen_enc_int.
    assert (1 <= LenEncIntSize (zlen b)) by (unfold LenEncIntSize; repeat case_match; lia).
    pose proof (zlen_nonneg b). pose proof (zlen_nonneg q). replace (_ <? _) with false by lia.
    rewrite ReadString_enc by lia. cbn [mbind outcome_bind]. unfold LenEncStringSize. done.
Qed.

Lemma is_null_bit b i : 0 <= b -> 0 <= i -> (0 <? Z.land b (Z.shiftl 1 i)) = Z.testbit b i.
Proof.
  intros Hb Hi. rewrite Z.shiftl_1_l. destruct (Z.testbit b i) eqn:E.
  - apply Z.ltb_lt. assert (0 <= Z.land b (2 ^ i)) by (apply Z.land_nonneg; auto).
    assert (Z.land b (2 ^ i) <> 0); [|lia]. intros H0. apply (f_equal (fun x => Z.testbit x i)) in H0.
    by rewrite Z.land_spec, E, Z.pow2_bits_true, Z.bits_0 in H0.
  - apply Z.ltb_ge. assert (Z.land b (2 ^ i) = 0); [|lia]. apply Z.bits_inj'. intros n Hn.
    rewrite Z.land_spec, Z.bits_0. destruct (decide (n = i)) as [->|Hne]; [by rewrite E|].
    rewrite Z.pow2_bits_false by lia. apply andb_false_r.
Qed.

Lemma wire_types_at ws i w :
  ws !! i = Some w -> exists tp fl, wire_type w = [tp; fl] /\
    index (wire_types ws) (Z.shiftl (Z.of_nat i) 1) = Ret tp /\
    index (wire_types ws) (Z.shiftl (Z.of_nat i) 1 + 1) = Ret fl.
Proof.
  intros Hw. exists (nth 0 (wire_type w) 0), (nth 1 (wire_type w) 0).
  split; [by destruct w|]. rewrite !index_Ret, Z.shiftl_mul_pow2 by lia.
  replace (Z.to_nat (Z.of_nat i * 2 ^ 1)) with (2 * i)%nat by lia.
  replace (Z.to_nat (Z.of_nat i * 2 ^ 1 + 1)) with (2 * i + 1)%nat by lia.
  enough (wire_types ws !! (2 * i)%nat = Some (nth 0 (wire_type w) 0) /\
          wire_types ws !! (2 * i + 1)%nat = Some (nth 1 (wire_type w) 0)) as [? ?] by (split_and!; (lia || done)).
  revert i Hw. unfold wire_types. induction ws as [|v ws IH]; intros i Hw; [done|]. cbn [map concat].
  assert (exists a b, wire_type v = [a; b]) as (a & b & Ev) by (destruct v; by eexists _, _).
  destruct i as [|i]; [injection Hw as ->; by rewrite Ev|]. rewrite Ev. cbn [app].
  replace (2 * S i)%nat with (S (S (2 * i))) by lia. replace (S (S (2 * i)) + 1)%nat with (S (S (2 * i + 1))) by lia.
  apply IH, Hw.
Qed.

Lemma zlen_wire_types ws : zlen (wire_types ws) = 2 * zlen ws.
Proof.
  unfold wire_types. induction ws as [|w ws IH]; [done|]. cbn [map concat].
  rewrite zlen_app, IH, zlen_cons. assert (zlen (wire_type w) = 2) as -> by (by destruct w). lia.
Qed.

(** Binding the values of a packet: the values before are bound, those after are not. *)
Lemma bind_loop_wire bitmap done_ todo :
  let ws := done_ ++ todo in
  Forall wire_ok ws -> null_bits ws bitmap -> zlen (wire_values ws) + 9 <= max_i64 ->
  bind_loop (length todo) (zlen done_) bitmap (wire_types ws) (wire_values ws)
    (map bound done_ ++ replicate (length todo) ANil) (zlen (wire_values done_)) =
    (map bound ws, Ret tt).
Proof.
  revert done_. induction todo as [|w todo IH]; intros done_ ws Hok Hbits Hm; cbn [length bind_loop].
  { unfold ws. by rewrite !app_nil_r. }
  assert (ws !! length done_ = Some w) as Hw by (unfold ws; by rewrite lookup_app_r, Nat.sub_diag by lia).
  assert (wire_ok w) as Hokw by (eapply Forall_lookup_1 in Hok; [exact Hok|exact Hw]).
  specialize (IH (done_ ++ [w])). cbv zeta in IH. rewrite <- app_assoc in IH. cbn [app] in IH.
  specialize (IH Hok Hbits Hm). fold ws in IH.
  destruct Hbits as (Hb8 & Hbl & Hbit). destruct (Hbit _ _ Hw) as (b & Hb & Ht).
  change (Z.of_nat (length done_)) with (zlen done_) in *. pose proof (zlen_nonneg done_).
  assert (index bitmap (Z.shiftr (zlen done_) 3) = Ret b) as ->.
  { apply index_Ret. split; [apply Z.shiftr_nonneg; lia|done]. }
  cbn [keep]. eapply Forall_lookup_1 in Hb8; [|exact Hb]. unfold is_u8 in Hb8.
  rewrite is_null_bit, Ht by (lia || (apply Z.mod_pos_bound; lia)).
  replace (zlen (done_ ++ [w])) with (zlen done_ + 1) in IH by (rewrite zlen_app; done).
  assert (forall v, store (map bound done_ ++ ANil :: replicate (length todo) ANil) (zlen done_) v =
            Ret (map bound done_ ++ v :: replicate (length todo) ANil)) as Hst.
  { intros v. unfold store. rewrite decide_True.
    - f_equal. unfold zlen. rewrite Nat2Z.id. rewrite insert_app_r_alt by (rewrite length_map; lia).
      by rewrite length_map, Nat.sub_diag.
    - rewrite zlen_app, zlen_cons. unfold zlen. rewrite length_map. lia. }
  assert (wire_values (done_ ++ [w]) = wire_values done_ ++ wire_bytes w) as Hv.
  { unfold wire_values. rewrite map_app, concat_app. cbn. by rewrite app_nil_r. }
  rewrite Hv, map_app, <- app_assoc, (zlen_app (wire_values done_)) in IH. cbn [map app] in IH. cbn [replicate].
  destruct (is_null w) eqn:En.
  - destruct w; try done. rewrite Hst. cbn [keep]. cbn [wire_bytes bound] in IH. rewrite zlen_nil, Z.add_0_r in IH.
    exact IH.
  - rewrite zlen_wire_types. replace (_ <=? _) with false.
    2: { apply lookup_lt_Some in Hw. rewrite Z.shiftl_mul_pow2 by lia. unfold zlen. lia. }
    destruct (wire_types_at _ _ _ Hw) as (tp & fl & Et & H1 & H2).
    change (Z.of_nat (length done_)) with (zlen done_) in *. rewrite H1, H2. cbn [keep].
    assert (index (map bound done_ ++ ANil :: replicate (length todo) ANil) (zlen done_) = Ret ANil) as ->.
    { apply index_Ret. split; [lia|]. unfold zlen. rewrite Nat2Z.id, lookup_app_r by (rewrite length_map; lia).
      by rewrite length_map, Nat.sub_diag. }
    cbn [keep]. assert (wire_values ws = wire_values done_ ++ wire_bytes w ++ wire_values todo) as Ev.
    { unfold ws, wire_values. rewrite map_app, concat_app. done. }
    rewrite Ev in Hm |- * at 1. rewrite !zlen_app in Hm. pose proof (zlen_nonneg (wire_values todo)).
    rewrite (bind_value_wire _ w _ tp fl); [|done|by destruct w|done|lia].
    cbn [mbind outcome_bind]. rewrite Hst. cbn [mbind outcome_bind keep].
    exact IH.
Qed.

Section packets.
Context {FV : FloatV} (s : Stmt) (bitmap : list Z) (ws : list wire).
Hypothesis Hlen : zlen ws = paramCount s.
Hypothesis Hok : Forall wire_ok ws.
Hypothesis Hbits : null_bits ws bitmap.
Hypothesis Hsize : zlen (wire_values ws) + 9 <= max_i64.
Hypothesis Hargs : args s = replicate (Z.to_nat (paramCount s)) ANil.

Lemma bindStmtArgs_wire :
  bindStmtArgs (SetParamTypes s (wire_types ws)) bitmap (wire_types ws) (wire_values ws) =
    (set_args (SetParamTypes s (wire_types ws)) (map bound ws), Ret tt).
Proof.
  unfold bindStmtArgs. cbn [paramCount args SetParamTypes]. rewrite Hargs.
  assert (Z.to_nat (paramCount s) = length ws) as -> by (unfold zlen in Hlen; lia).
  pose proof (bind_loop_wire bitmap [] ws Hok Hbits Hsize) as E. cbn [app map] in E.
  change (zlen (wire_values [])) with 0 in E. change (zlen (@nil wire)) with 0 in E. by rewrite E.
Qed.

Lemma execute_sql_wire id :
  calcParams (st_sql s) = Ret (paramCount s, offsets s) ->
  exists s', execute_sql s (execute_packet id bitmap ws) =
      (s', Ret (rewritten (st_sql s) 0 (offsets s) (map arg_literal (map bound ws)))) /\
    ResetParams s' = SetParamTypes s (paramTypes s').
Proof.
  intros Hc. unfold execute_sql. destruct (paramCount s <=? 0) eqn:E0.
  { assert (ws = []) as -> by (apply nil_length_inv; unfold zlen in Hlen; lia).
    destruct (calcParams_places _ _ _ Hc) as [Hn _]. rewrite <- Hlen in Hn.
    assert (offsets s = []) as -> by (apply nil_length_inv; unfold zlen in Hn; cbn in Hn; lia).
    exists s. split; [done|]. unfold ResetParams. rewrite <- Hargs. by destruct s. }
  set (pre := le_bytes 4 id ++ [0; 1; 0; 0; 0]).
  assert (execute_packet id bitmap ws = pre ++ bitmap ++ [1] ++ wire_types ws ++ wire_values ws) as ->
    by (unfold execute_packet, pre; by rewrite <- app_assoc).
  assert (zlen pre = 9) as Hpre by (unfold pre; by rewrite zlen_app, zlen_le_bytes).
  destruct Hbits as (_ & Hbl & _). rewrite <- Hlen, <- Hbl.
  pose proof (zlen_nonneg (wire_values ws)). pose proof (zlen_nonneg ws).
  rewrite !zlen_app, Hpre, zlen_wire_types. change (zlen [1]) with 1. replace (_ <? _) with false by lia.
  pose proof (reslice_packet pre bitmap ([1] ++ wire_types ws ++ wire_values ws)) as R. rewrite Hpre in R.
  rewrite R. clear R. cbn [keep].
  pose proof (index_packet (pre ++ bitmap) 1 (wire_types ws ++ wire_values ws)) as R.
  rewrite <- app_assoc, zlen_app, Hpre in R. cbn [app] in R |- *. rewrite R. clear R. cbn [keep Z.eqb Pos.eqb].
  rewrite Z.shiftl_mul_pow2 by lia. change (2 ^ 1) with 2. replace (_ <? _) with false by lia.
  pose proof (reslice_packet (pre ++ bitmap ++ [1]) (wire_types ws) (wire_values ws)) as R.
  rewrite <- !app_assoc, !zlen_app, Hpre, zlen_wire_types in R. change (zlen [1]) with 1 in R. cbn [app] in R.
  replace (9 + zlen bitmap + 1) with (9 + (zlen bitmap + 1)) by lia.
  replace (zlen ws * 2) with (2 * zlen ws) by lia. rewrite R. clear R. cbn [keep paramTypes SetParamTypes].
  pose proof (reslice_packet (pre ++ bitmap ++ [1] ++ wire_types ws) (wire_values ws) []) as R.
  rewrite app_nil_r, <- !app_assoc, !zlen_app, Hpre, zlen_wire_types in R. change (zlen [1]) with 1 in R. cbn [app] in R.
  replace (9 + (zlen bitmap + 1) + 2 * zlen ws) with (9 + (zlen bitmap + (1 + 2 * zlen ws))) by lia.
  replace (9 + (zlen bitmap + (1 + (2 * zlen ws + zlen (wire_values ws)))))
    with (9 + (zlen bitmap + (1 + 2 * zlen ws)) + zlen (wire_values ws)) by lia.
  rewrite R. cbn [keep]. rewrite bindStmtArgs_wire. cbn [keep]. eexists. split.
  - f_equal. rewrite GetRewriteSQL_eq; [done|done|]. cbn. rewrite <- Hlen. unfold zlen. by rewrite length_map.
  - unfold ResetParams. cbn. by rewrite <- Hargs.
Qed.

End packets.

(** C18: a client that prepares a statement and executes it with NULLs, integers, floats
    and values that travel as bytes gets the text with exactly the literals of these
    values at the places [calcParams] found; afterwards the statement has no value left
    and can be executed again. The literal of a value that travels as bytes is the quoted
    bytes, which for the types of dates and times are the packed fields and no date. *)
Theorem prepared_statement_executes {FV : FloatV} ss sql s ss' bitmap ws :
  0 <= stmtID ss < 2 ^ 32 -> handleStmtPrepare ss sql = Ret (s, ss') ->
  zlen ws = paramCount s -> Forall wire_ok ws -> null_bits ws bitmap ->
  zlen (wire_values ws) + 9 <= max_i64 ->
  exists ss'', handleStmtExecute ss' (execute_packet (st_id s) bitmap ws) =
      (ss'', Ret (rewritten (trim_right is_semicolon sql) 0 (offsets s) (map arg_literal (map bound ws)))) /\
    (exists types, stmts ss'' !! st_id s = Some (SetParamTypes s types)) /\
    args s = replicate (Z.to_nat (paramCount s)) ANil.
Proof.
  intros Hid Hp Hlen Hok Hbits Hsize. unfold handleStmtPrepare in Hp.
  destruct (calcParams _) as [[n offs]| |] eqn:Hc; [|done..]. cbn [mbind outcome_bind] in Hp.
  injection Hp as <- <-. cbn [st_id ResetParams set_args] in *.
  set (s := ResetParams _). assert (calcParams (st_sql s) = Ret (paramCount s, offsets s)) as Hc' by done.
  destruct (execute_sql_wire s bitmap ws Hlen Hok Hbits Hsize eq_refl (stmtID ss) Hc') as (s' & E & Hr).
  pose proof (zlen_nonneg bitmap). pose proof (zlen_nonneg (wire_values ws)). pose proof (zlen_nonneg ws).
  unfold handleStmtExecute, packet_stmt.
  replace (zlen (execute_packet (stmtID ss) bitmap ws) <? 9) with false.
  2: { unfold execute_packet. rewrite !zlen_app, zlen_le_bytes, zlen_wire_types.
       change (zlen [0; 1; 0; 0; 0]) with 5. change (zlen [1]) with 1. symmetry. apply Z.ltb_ge. lia. }
  pose proof (reslice_packet [] (le_bytes 4 (stmtID ss)) (drop 4 (execute_packet (stmtID ss) bitmap ws))) as R.
  rewrite zlen_le_bytes in R.
  change ([] ++ le_bytes 4 (stmtID ss) ++ drop 4 (execute_packet (stmtID ss) bitmap ws))
    with (execute_packet (stmtID ss) bitmap ws) in R.
  change (zlen [] + Z.of_nat 4) with 4 in R. change (zlen (@nil Z)) with 0 in R. rewrite R. clear R.
  cbn [mbind outcome_bind]. rewrite le_or_le_bytes, Z.mod_small by (change (8 * Z.of_nat 4) with 32; lia).
  cbn [stmts]. rewrite lookup_insert_eq. cbn [or_err keep].
  change (index (execute_packet (stmtID ss) bitmap ws) 4) with (@Ret Z 0). cbn [keep].
  change (negb (Z.land 0 1 =? 0)) with false. cbn iota. fold s. rewrite E. eexists. split; [reflexivity|].
  split; [|done]. exists (paramTypes s'). cbn [set_stmt stmts]. rewrite Hr. cbn [st_id SetParamTypes].
  change (st_id s) with (stmtID ss). apply lookup_insert_eq.
Qed.

(** * Examples *)

#[export] Instance example_float_text : FloatV := fun _ _ => EmptyString.

Definition no_stmts : Stmts := mk_Stmts 0 ∅.

Definition example_sql : string := "insert into t values (?, ?, ?);".
Definition example_stmt : Stmt :=
  mk_Stmt 0 "insert into t values (?, ?, ?)" [ANil; ANil; ANil] 0 3 [] [22; 25; 28].
Definition example_stmts : Stmts := mk_Stmts 1 {[0 := example_stmt]}.
Definition example_values : list wire := [WInt KInt32 (-5); WBytes 253 (sbytes "it's"); WNull].

Lemma example_prepared : handleStmtPrepare no_stmts example_sql = Ret (example_stmt, example_stmts).
Proof. vm_compute. reflexivity. Qed.

Lemma example_null_bits : null_bits example_values [4].
Proof.
  split_and!; [repeat constructor; lia|done|]. intros [|[|[|i]]] w; [| | |done]; intros [= <-]; by eexists.
Qed.

Lemma prepared_statement_executes_witness :
  exists ss'', handleStmtExecute example_stmts (execute_packet 0 [4] example_values) =
      (ss'', Ret "insert into t values (-5, 'it\'s', NULL)"%string) /\
    (exists types, stmts ss'' !! 0 = Some (SetParamTypes example_stmt types)) /\
    args example_stmt = [ANil; ANil; ANil].
Proof.
  refine (prepared_statement_executes no_stmts example_sql example_stmt example_stmts [4] example_values
            _ example_prepared eq_refl _ example_null_bits _).
  - cbn. lia.
  - repeat constructor; cbn; (done || lia).
  - vm_compute. discriminate.
Defined.

Lemma parameter_is_one_token_witness :
  let s := mk_Stmt 0 "select a from t where b = ? and c = ?" [ANil; AInt KInt64 3] 0 2 [] [26; 36] in
  exists p t, forall b,
    exists q, GetRewriteSQL (set_args s (<[0%nat := ABytes b]> (args s))) =
      Ret (String.append p (String.append q t)) /\
    forall r errs fuel, r_s r = String.append p (String.append q t) -> off r = slen p ->
      exists r', scan (S fuel) (mk_Scanner r errs None 0) =
        Ret (stringLit, r_p r, of_bytes b, mk_Scanner r' errs None 0) /\ rest r' = t.
Proof.
  intros s. apply (parameter_is_one_token s 0%nat 26 0); [vm_compute; reflexivity|reflexivity|reflexivity|reflexivity| |];
    vm_compute; discriminate.
Defined.

(** A string with an escaped quote confuses the search for the parameters: the
    backslash is skipped and the quote behind it still ends the string, so a statement is
    refused, or a question mark inside a string is taken for a parameter. A question mark
    in a comment or a quoted name is one, too. *)
Theorem escaped_quote_confuses_params :
  calcParams "select 'it\'s', ?" = Err (Errorf "fatal situation") /\
  calcParams "select '\'?\'', ?" = Ret (2, [10; 16]) /\
  calcParams "select a /* why? */ from `t?` where a = ?" = Ret (3, [15; 27; 40]).
Proof. split_and!; vm_compute; reflexivity. Qed.

(** When binding fails the values bound before stay in the statement: the next
    execution skips them and does not read the values the client sends for them. Here a
    packet ends before its second value, and the packet after it, with the values 8 and
    9, executes the statement with the values 7 and 8. *)
Theorem failed_binding_stays :
  let s := mk_Stmt 0 "select ?, ?" [ANil; ANil] 0 2 [] [7; 10] in
  let short := take 19 (execute_packet 0 [0] [WInt KInt32 7; WInt KInt32 7]) in
  let '(ss, r) := handleStmtExecute (mk_Stmts 1 {[0 := s]}) short in
  r = Err ErrMalformPacket /\
  (handleStmtExecute ss (execute_packet 0 [0] [WInt KInt32 8; WInt KInt32 9])).2 =
    Ret "select 7, 8"%string.
Proof. split; vm_compute; reflexivity. Qed.

(** A date is sent as binary fields and read as the bytes of a string. *)
Example date_is_garbled :
  bind_value 10 false ([4] ++ le_bytes 2 2020 ++ [1; 2]) 0 = Ret (ABytes [228; 7; 1; 2], 5).
Proof. vm_compute. reflexivity. Qed.
