(* ===== verification/TimeWheel.v ===== *)
(** util/time_wheel.go: the timing wheel that closes idle sessions. The state is
    the wheel with its two request channels; [start] is a step relation in
    which any ready case of the select can be taken. The abstract view of the
    wheel is the number of ticks left for every pending key. *)

From Stdlib Require Import String.
From S2P Require Import Prelude.

Section TimeWheel.
Context {K : Type} `{Countable K} {F : Type}.

(** * Data *)

Record Task := mkTask {
  delay : Z;
  key : K;
  round : Z;
  callback : F;
}.

Record TimeWheel := mkTimeWheel {
  tick : Z;
  bucketsNum : Z;
  buckets : list (gmap K Task);
  bucketIndexes : gmap K Z;
  currentIndex : Z;
  addC : list Task;
  removeC : list K;
}.

Definition set_wheel (tw : TimeWheel) bs bi ci : TimeWheel :=
  mkTimeWheel (tick tw) (bucketsNum tw) bs bi ci (addC tw) (removeC tw).

Definition set_chans (tw : TimeWheel) ac rc : TimeWheel :=
  mkTimeWheel (tick tw) (bucketsNum tw) (buckets tw) (bucketIndexes tw) (currentIndex tw) ac rc.

(** [int(d.Seconds())] of a non-negative duration in nanoseconds: the float
    [sec + nsec/1e9] rounds up to the next whole second when the distance to it
    is at most half a unit in the last place of a number as large as [sec]. *)
Definition whole_seconds (d : Z) : Z :=
  let s := d `div` 1000000000 in
  let ns := d mod 1000000000 in
  if (1 <=? s) && ((1000000000 - ns) * 2 ^ 53 <=? 1000000000 * 2 ^ Z.log2 s)
  then s + 1 else s.

Definition Seconds (d : Z) : Z := if d <? 0 then - whole_seconds (- d) else whole_seconds d.

(** * Operations *)

(** [make] refuses more than [2^45] elements of eight bytes. *)
Definition NewTimeWheel (tick bucketsNum : Z) : outcome TimeWheel :=
  if bucketsNum <=? 0 then Err (Errorf "bucket number must be greater than 0")
  else if Seconds tick <? 1 then Err (Errorf "tick cannot be less than 1s")
  else if 2 ^ 45 <? bucketsNum then Panic "makeslice: len out of range"
  else Ret (mkTimeWheel tick bucketsNum (replicate (Z.to_nat bucketsNum) ∅) ∅ 0 [] []).

(** The loop over the bucket; [ks] is the order in which the map is visited. *)
Fixpoint tick_loop (bucket : gmap K Task) (bi : gmap K Z) (ks : list K) {struct ks} :
    outcome (gmap K Task * gmap K Z * list F) :=
  match ks with
  | [] => Ret (bucket, bi, [])
  | k :: ks' =>
      match bucket !! k with
      | None => Panic "invalid memory address or nil pointer dereference"
      | Some t =>
          if 0 <? round t then
            tick_loop (<[k := mkTask (delay t) (key t) (round t - 1) (callback t)]> bucket) bi ks'
          else
            '(b, bi', fs) ← tick_loop (delete k bucket) (delete k bi) ks';
            Ret (b, bi', callback t :: fs)
      end
  end.

(** Returns the wheel with the callbacks it starts. *)
Definition handleTick (ks : list K) (tw : TimeWheel) : outcome (TimeWheel * list F) :=
  bucket ← index (buckets tw) (currentIndex tw);
  '(b, bi, fs) ← tick_loop bucket (bucketIndexes tw) ks;
  bs ← store (buckets tw) (currentIndex tw) b;
  Ret (set_wheel tw bs bi
         (if currentIndex tw =? bucketsNum tw - 1 then 0 else currentIndex tw + 1), fs).

Definition calculateRound (tw : TimeWheel) (d : Z) : Z :=
  Z.quot (Z.quot (Seconds d) (Seconds (tick tw))) (bucketsNum tw).

Definition calculateIndex (tw : TimeWheel) (d : Z) : Z :=
  Z.rem (i64 (currentIndex tw + Z.quot (Seconds d) (Seconds (tick tw)))) (bucketsNum tw).

Definition add (tw : TimeWheel) (task : Task) : outcome TimeWheel :=
  let round := calculateRound tw (delay task) in
  let idx := calculateIndex tw (delay task) in
  let task := mkTask (delay task) (key task) round (callback task) in
  bs ← match bucketIndexes tw !! key task with
       | Some originIndex =>
           b ← index (buckets tw) originIndex;
           store (buckets tw) originIndex (delete (key task) b)
       | None => Ret (buckets tw)
       end;
  b ← index bs idx;
  bs ← store bs idx (<[key task := task]> b);
  Ret (set_wheel tw bs (<[key task := idx]> (bucketIndexes tw)) (currentIndex tw)).

Definition remove (tw : TimeWheel) (k : K) : outcome TimeWheel :=
  match bucketIndexes tw !! k with
  | Some idx =>
      b ← index (buckets tw) idx;
      bs ← store (buckets tw) idx (delete k b);
      Ret (set_wheel tw bs (delete k (bucketIndexes tw)) (currentIndex tw))
  | None => Ret tw
  end.

(** [Add] and [Remove] post a request; a nil key is [None]. A send blocks while
    1024 requests wait. *)
Definition Add (tw : TimeWheel) (d : Z) (k : option K) (f : F) : outcome TimeWheel :=
  match k with
  | Some k => if d <=? 0 then Err (Errorf "invalid params")
              else Ret (set_chans tw (addC tw ++ [mkTask d k 0 f]) (removeC tw))
  | None => Err (Errorf "invalid params")
  end.

Definition Remove (tw : TimeWheel) (k : option K) : outcome TimeWheel :=
  match k with
  | Some k => Ret (set_chans tw (addC tw) (removeC tw ++ [k]))
  | None => Err (Errorf "invalid params")
  end.

(** [ks] is an order in which [range] can visit the current bucket. *)
Definition range_order (tw : TimeWheel) (ks : list K) : Prop :=
  exists b, buckets tw !! Z.to_nat (currentIndex tw) = Some b /\ ks ≡ₚ (map_to_list b).*1.

Inductive event :=
| EAdd (t : Task)
| ERemove (k : K)
| ETick (fs : list F)
| EPostAdd (t : Task)
| EPostRemove (k : K).

(** The select of [start], and the callers that post requests beside it. *)
Inductive step : TimeWheel -> event -> TimeWheel -> Prop :=
| step_tick tw ks tw' fs :
    range_order tw ks -> handleTick ks tw = Ret (tw', fs) -> step tw (ETick fs) tw'
| step_add tw t ac tw' :
    addC tw = t :: ac -> add (set_chans tw ac (removeC tw)) t = Ret tw' ->
    step tw (EAdd t) tw'
| step_remove tw k rc tw' :
    removeC tw = k :: rc -> remove (set_chans tw (addC tw) rc) k = Ret tw' ->
    step tw (ERemove k) tw'
| step_post_add tw d k f tw' :
    is_i64 d -> zlen (addC tw) < 1024 -> Add tw d (Some k) f = Ret tw' ->
    step tw (EPostAdd (mkTask d k 0 f)) tw'
| step_post_remove tw k tw' :
    zlen (removeC tw) < 1024 -> Remove tw (Some k) = Ret tw' ->
    step tw (EPostRemove k) tw'.

Inductive steps : TimeWheel -> list event -> TimeWheel -> Prop :=
| steps_nil tw : steps tw [] tw
| steps_cons tw e tw' es tw'' : step tw e tw' -> steps tw' es tw'' -> steps tw (e :: es) tw''.

(** * The abstract view *)

(** The task of a key in a bucket. *)
Definition slot (bs : list (gmap K Task)) (i : nat) (k : K) : option Task :=
  b ← bs !! i; b !! k.

(** The pending task of a key and the ticks that pass before the one that fires it. *)
Definition pending (tw : TimeWheel) (k : K) : option (Z * F) :=
  i ← bucketIndexes tw !! k;
  t ← slot (buckets tw) (Z.to_nat i) k;
  Some ((i - currentIndex tw) mod bucketsNum tw + round t * bucketsNum tw, callback t).

(** Ticks a delay asks for. *)
Definition ticks_of (tw : TimeWheel) (d : Z) : Z := Seconds d `div` Seconds (tick tw).

Record wf (tw : TimeWheel) : Prop := {
  wf_num : 1 <= bucketsNum tw <= 2 ^ 45;
  wf_tick : 1 <= Seconds (tick tw);
  wf_len : zlen (buckets tw) = bucketsNum tw;
  wf_cur : 0 <= currentIndex tw < bucketsNum tw;
  wf_index k i : bucketIndexes tw !! k = Some i ->
    0 <= i < bucketsNum tw /\ is_Some (slot (buckets tw) (Z.to_nat i) k);
  wf_slot i k t : slot (buckets tw) i k = Some t ->
    bucketIndexes tw !! k = Some (Z.of_nat i) /\ 0 <= round t;
  wf_adds : Forall (fun t => 0 < delay t <= max_i64) (addC tw);
}.

(** * Lemmas *)

Lemma whole_seconds_bounds d :
  0 <= d -> d `div` 1000000000 <= whole_seconds d <= d `div` 1000000000 + 1.
Proof. intros Hd. unfold whole_seconds. cbv zeta. destruct (_ && _); split; lia. Qed.

Lemma Seconds_bounds d : 0 < d <= max_i64 -> 0 <= Seconds d <= 2 ^ 34.
Proof.
  intros Hd. unfold Seconds. destruct (d <? 0) eqn:E; [lia|].
  pose proof (whole_seconds_bounds d ltac:(lia)). change (2 ^ 34) with 17179869184. unfold_int.
  assert (d `div` 1000000000 <= 9223372037) by (apply Z.div_le_upper_bound; lia).
  assert (0 <= d `div` 1000000000) by (apply Z.div_pos; lia). lia.
Qed.

Lemma ticks_bounds tw d :
  wf tw -> 0 < d <= max_i64 ->
  0 <= ticks_of tw d <= 2 ^ 34 /\ Z.quot (Seconds d) (Seconds (tick tw)) = ticks_of tw d.
Proof.
  intros W Hd. pose proof (Seconds_bounds d Hd). pose proof (wf_tick _ W). unfold ticks_of.
  rewrite Z.quot_div_nonneg by lia. split; [|done]. split; [apply Z.div_pos; lia|].
  apply Z.div_le_upper_bound; nia.
Qed.

(** Changing one bucket of the wheel. *)
Lemma update_bucket (bs : list (gmap K Task)) i :
  0 <= i < zlen bs ->
  exists b, index bs i = Ret b /\ (forall k, slot bs (Z.to_nat i) k = b !! k) /\
    forall b', exists bs', store bs i b' = Ret bs' /\ zlen bs' = zlen bs /\
      forall j k, slot bs' j k = if decide (j = Z.to_nat i) then b' !! k else slot bs j k.
Proof.
  intros Hi. destruct (index_in_range bs i Hi) as (b & E & Hb). exists b. split; [done|].
  split; [intros k; unfold slot; by rewrite Hb|]. intros b'.
  rewrite store_in_range by done. eexists. split; [done|].
  split; [apply zlen_insert|]. intros j k. unfold slot. case_decide.
  - subst j. rewrite list_lookup_insert_eq; [done|]. by eapply lookup_lt_Some.
  - by rewrite list_lookup_insert_ne.
Qed.

Lemma pending_None tw k : wf tw -> pending tw k = None <-> bucketIndexes tw !! k = None.
Proof.
  intros W. unfold pending. split; [|by intros ->].
  destruct (bucketIndexes tw !! k) as [i|] eqn:E; [|done]. cbn.
  destruct (wf_index _ W _ _ E) as (Hi & t & Ht). by rewrite Ht.
Qed.

(** Two wheels that agree on where a key is pending agree on it. *)
Lemma pending_local tw tw' k :
  bucketIndexes tw' !! k = bucketIndexes tw !! k ->
  currentIndex tw' = currentIndex tw -> bucketsNum tw' = bucketsNum tw ->
  (forall i, slot (buckets tw') i k = slot (buckets tw) i k) ->
  pending tw' k = pending tw k.
Proof.
  intros Hi Hc Hn Hb. unfold pending. rewrite Hi, Hc, Hn.
  destruct (bucketIndexes tw !! k) as [i|]; [cbn|done]. by rewrite Hb.
Qed.

(** * Removing a key *)

(** The buckets without a key: what [remove] leaves, and [add] before it inserts. *)
Lemma drop_key tw k i :
  wf tw -> bucketIndexes tw !! k = Some i ->
  exists b bs', index (buckets tw) i = Ret b /\ store (buckets tw) i (delete k b) = Ret bs' /\
    zlen bs' = zlen (buckets tw) /\
    forall j k', slot bs' j k' = if decide (k' = k) then None else slot (buckets tw) j k'.
Proof.
  intros W E. destruct (wf_index _ W _ _ E) as (Hi & t & Ht).
  destruct (update_bucket (buckets tw) i) as (b & Eb & Hb & U); [by rewrite (wf_len _ W)|].
  destruct (U (delete k b)) as (bs' & Es & Hl & Hs). exists b, bs'. split_and!; try done.
  intros j k'. rewrite Hs. destruct (decide (k' = k)) as [->|N]; case_decide as Hj.
  - by rewrite lookup_delete_eq.
  - destruct (slot (buckets tw) j k) as [t'|] eqn:Ht'; [|done].
    destruct (wf_slot _ W _ _ _ Ht') as [E' _]. rewrite E in E'. injection E' as ->. lia.
  - subst j. by rewrite lookup_delete_ne, Hb.
  - done.
Qed.

Lemma drop_key_wf tw k bs' :
  wf tw -> zlen bs' = zlen (buckets tw) ->
  (forall j k', slot bs' j k' = if decide (k' = k) then None else slot (buckets tw) j k') ->
  wf (set_wheel tw bs' (delete k (bucketIndexes tw)) (currentIndex tw)).
Proof.
  intros W Hl Hs. destruct W as [Hn Ht Hlen Hc Hi Hsl Ha]. constructor; cbn; try done; [lia|..].
  - intros k' i' Hk'. apply lookup_delete_Some in Hk' as [N Hk'].
    rewrite Hs, decide_False by done. eauto.
  - intros i' k' t' Ht'. rewrite Hs in Ht'. case_decide; [done|].
    rewrite lookup_delete_ne by done. eauto.
Qed.

Lemma remove_spec tw k :
  wf tw ->
  exists tw', remove tw k = Ret tw' /\ wf tw' /\ pending tw' k = None /\
    forall j, j <> k -> pending tw' j = pending tw j.
Proof.
  intros W. unfold remove. destruct (bucketIndexes tw !! k) as [i|] eqn:E.
  - destruct (drop_key tw k i W E) as (b & bs' & E1 & E2 & Hl & Hs).
    rewrite E1. cbn [mbind outcome_bind]. rewrite E2. cbn [mbind outcome_bind].
    pose proof (drop_key_wf tw k bs' W Hl Hs) as W'. eexists. split; [done|]. split_and!.
    + done.
    + apply pending_None; [done|]. apply lookup_delete_eq.
    + intros j N. apply pending_local; cbn; try done.
      * by rewrite lookup_delete_ne.
      * intros i'. by rewrite Hs, decide_False.
  - exists tw. split_and!; try done. by apply pending_None.
Qed.

(** * Adding a task *)

Lemma drop_old tw k :
  wf tw ->
  exists bs, match bucketIndexes tw !! k with
    | Some o => b ← index (buckets tw) o; store (buckets tw) o (delete k b)
    | None => Ret (buckets tw)
    end = Ret bs /\ zlen bs = bucketsNum tw /\
    forall j k', slot bs j k' = if decide (k' = k) then None else slot (buckets tw) j k'.
Proof.
  intros W. destruct (bucketIndexes tw !! k) as [o|] eqn:Eo.
  - destruct (drop_key tw _ o W Eo) as (b & bs' & E1 & E2 & Hl & Hs). exists bs'.
    rewrite E1. cbn [mbind outcome_bind]. rewrite (wf_len _ W) in Hl. done.
  - exists (buckets tw). split; [done|]. split; [apply (wf_len _ W)|]. intros j k'.
    case_decide; [subst k'|done]. destruct (slot _ _ _) as [x|] eqn:Ex; [|done].
    destruct (wf_slot _ W _ _ _ Ex). congruence.
Qed.

Lemma task_place tw d :
  wf tw -> 0 < d <= max_i64 ->
  calculateIndex tw d = (currentIndex tw + ticks_of tw d) mod bucketsNum tw /\
  calculateRound tw d = ticks_of tw d `div` bucketsNum tw /\ 0 <= calculateRound tw d.
Proof.
  intros W Hd. destruct (ticks_bounds tw d W Hd) as [Hq Eq].
  pose proof (wf_num _ W) as Hn. pose proof (wf_cur _ W) as Hc.
  unfold calculateIndex, calculateRound. rewrite Eq. split_and!.
  - change (2 ^ 45) with 35184372088832 in *. change (2 ^ 34) with 17179869184 in *.
    rewrite i64_id by (unfold_int; lia). apply Z.rem_mod_nonneg; lia.
  - apply Z.quot_div_nonneg; lia.
  - rewrite Z.quot_div_nonneg by lia. apply Z.div_pos; lia.
Qed.

Lemma add_spec tw t :
  wf tw -> 0 < delay t <= max_i64 ->
  exists tw', add tw t = Ret tw' /\ wf tw' /\
    pending tw' (key t) = Some (ticks_of tw (delay t), callback t) /\
    forall j, j <> key t -> pending tw' j = pending tw j.
Proof.
  intros W Hd. destruct (task_place tw (delay t) W Hd) as (Ei & Er & Hr).
  destruct (ticks_bounds tw (delay t) W Hd) as [Hq _].
  pose proof (wf_num _ W) as Hn. pose proof (wf_cur _ W) as Hc.
  set (q := ticks_of tw (delay t)) in *. rewrite Er in Hr.
  unfold add. rewrite Ei, Er. cbn [key delay callback].
  pose proof (Z.mod_pos_bound (currentIndex tw + q) (bucketsNum tw) ltac:(lia)) as Hm.
  set (i := (currentIndex tw + q) mod bucketsNum tw) in *.
  set (t' := mkTask _ _ _ _).
  destruct (drop_old tw (key t) W) as (bs & -> & Hl & Hs).
  cbn [mbind outcome_bind]. destruct (update_bucket bs i) as (b & Eb & Hb & U); [lia|].
  rewrite Eb. cbn [mbind outcome_bind].
  destruct (U (<[key t := t']> b)) as (bs' & Es & Hl' & Hs'). rewrite Es.
  cbn [mbind outcome_bind].
  assert (forall j k, slot bs' j k =
     if decide (k = key t) then if decide (j = Z.to_nat i) then Some t' else None
     else slot (buckets tw) j k) as S.
  { intros j k. rewrite Hs'. destruct (decide (j = _)) as [->|Nj], (decide (k = _)) as [->|Nk].
    - by rewrite lookup_insert_eq.
    - rewrite lookup_insert_ne, <- Hb, Hs, decide_False by done. done.
    - by rewrite Hs, decide_True.
    - by rewrite Hs, decide_False. }
  eexists. split; [done|]. destruct W as [_ Ht _ _ Hi Hsl Ha]. split_and!.
  - constructor; cbn; try done; [lia|..].
    + intros k j Hk. rewrite S. destruct (decide (k = key t)) as [->|N].
      * rewrite lookup_insert_eq in Hk. injection Hk as <-. rewrite decide_True by done. eauto.
      * rewrite lookup_insert_ne in Hk by done. eauto.
    + intros j k x. rewrite S. destruct (decide (k = key t)) as [->|N].
      * case_decide; [|done]. intros [= <-]. rewrite lookup_insert_eq. cbn.
        split; [f_equal; lia|done].
      * rewrite lookup_insert_ne by done. eauto.
  - unfold pending. cbn. rewrite lookup_insert_eq. cbn. rewrite S, !decide_True by done. cbn.
    do 2 f_equal. unfold i. rewrite Zminus_mod_idemp_l.
    replace (currentIndex tw + q - currentIndex tw) with q by lia.
    pose proof (Z.div_mod q (bucketsNum tw) ltac:(lia)). lia.
  - intros j N. apply pending_local; cbn; try done.
    + by rewrite lookup_insert_ne.
    + intros i'. by rewrite S, decide_False.
Qed.

(** * One tick *)

(** What a tick does to the task of a key of the current bucket. *)
Definition age (t : Task) : option Task :=
  if 0 <? round t then Some (mkTask (delay t) (key t) (round t - 1) (callback t)) else None.

(** The callback a tick starts for a key of the current bucket. *)
Definition fires (bucket : gmap K Task) (k : K) : option F :=
  t ← bucket !! k; if 0 <? round t then None else Some (callback t).

Lemma tick_loop_cons bucket bi k ks t :
  bucket !! k = Some t ->
  tick_loop bucket bi (k :: ks) =
    ('(b, bi', fs) ← tick_loop (partial_alter (fun o => o ≫= age) k bucket)
                       (if fires bucket k is Some _ then delete k bi else bi) ks;
     Ret (b, bi', option_list (fires bucket k) ++ fs)).
Proof.
  intros Ht. cbn [tick_loop]. unfold fires. rewrite Ht. cbn.
  assert (partial_alter (fun o => o ≫= age) k bucket =
    if 0 <? round t then <[k := mkTask (delay t) (key t) (round t - 1) (callback t)]> bucket
    else delete k bucket) as ->.
  { apply map_eq. intros j. destruct (decide (j = k)) as [->|N].
    - rewrite lookup_partial_alter_eq, Ht. cbn. unfold age.
      destruct (0 <? round t); [by rewrite lookup_insert_eq|by rewrite lookup_delete_eq].
    - rewrite lookup_partial_alter_ne by done.
      destruct (0 <? round t); [by rewrite lookup_insert_ne|by rewrite lookup_delete_ne]. }
  destruct (0 <? round t); [|done]. by destruct (tick_loop _ bi ks) as [[[]]| |].
Qed.

Lemma tick_loop_spec bucket bi ks :
  NoDup ks -> (forall k, k ∈ ks -> is_Some (bucket !! k)) ->
  exists b' bi', tick_loop bucket bi ks = Ret (b', bi', omap (fires bucket) ks) /\
    (forall k, b' !! k = if decide (k ∈ ks) then bucket !! k ≫= age else bucket !! k) /\
    (forall k, bi' !! k = if decide (k ∈ ks /\ is_Some (fires bucket k)) then None else bi !! k).
Proof.
  revert bucket bi. induction ks as [|k ks IH]; intros bucket bi ND Hin.
  { eexists _, _. split; [done|]. split; intros k; case_decide; set_solver. }
  apply NoDup_cons in ND as [Nk ND]. destruct (Hin k ltac:(left)) as [t Ht].
  rewrite (tick_loop_cons _ _ _ _ _ Ht).
  set (bk := partial_alter _ k bucket). set (bi1 := if fires bucket k is Some _ then _ else _).
  assert (bk !! k = bucket !! k ≫= age) as Hk by apply lookup_partial_alter_eq.
  assert (forall j, j <> k -> bk !! j = bucket !! j) as Hne
    by (intros j N; by apply lookup_partial_alter_ne).
  assert (forall j, j <> k -> fires bk j = fires bucket j) as Hfi
    by (intros j N; unfold fires; by rewrite Hne).
  destruct (IH bk bi1 ND) as (b' & bi' & -> & Hb' & Hbi').
  { intros j Hj. rewrite Hne by (by intros ->). apply Hin. by right. }
  cbn [mbind outcome_bind]. eexists _, _. split; [|split; intros j].
  - do 2 f_equal. rewrite (list_omap_ext (fires bk) (fires bucket) ks ks).
    + cbn [omap list_omap]. by destruct (fires bucket k).
    + apply Forall_Forall2_diag, Forall_forall. intros j Hj. apply Hfi. by intros ->.
  - rewrite Hb'. destruct (decide (j = k)) as [->|N].
    + rewrite decide_False by done. rewrite decide_True by apply list_elem_of_here. done.
    + rewrite Hne by done. apply decide_ext. set_solver.
  - rewrite Hbi'. destruct (decide (j = k)) as [->|N].
    + rewrite decide_False by naive_solver. unfold bi1. destruct (fires bucket k) as [f|].
      * rewrite lookup_delete_eq, decide_True; [done|]. split; [apply list_elem_of_here|eauto].
      * rewrite decide_False; [done|]. intros [_ [? ?]]. done.
    + rewrite Hfi by done. unfold bi1.
      replace ((if fires bucket k is Some _ then delete k bi else bi) !! j) with (bi !! j)
        by (by destruct (fires bucket k); rewrite ?lookup_delete_ne).
      apply decide_ext. set_solver.
Qed.

(** Time left after a tick, by the bucket of the task. *)
Lemma next_distance n c i :
  0 <= c < n -> 0 <= i < n ->
  let c' := if c =? n - 1 then 0 else c + 1 in
  0 <= c' < n /\ (i - c') mod n = if decide (i = c) then n - 1 else (i - c) mod n - 1.
Proof.
  intros Hc Hi c'. split; [subst c'; destruct (c =? n - 1) eqn:E; lia|].
  assert ((i - c') mod n = (i - c - 1) mod n) as ->.
  { subst c'. destruct (c =? n - 1) eqn:E; [|f_equal; lia].
    replace (i - c - 1) with (i - 0 + (-1) * n) by lia. by rewrite Z_mod_plus_full. }
  case_decide as D.
  - replace (i - c - 1) with (n - 1 + (-1) * n) by lia.
    rewrite Z_mod_plus_full, Z.mod_small; lia.
  - destruct (decide (c < i)).
    + rewrite !Z.mod_small by lia. lia.
    + replace (i - c - 1) with (i - c - 1 + n + (-1) * n) by lia.
      replace (i - c) with (i - c + n + (-1) * n) at 2 by lia.
      rewrite !Z_mod_plus_full, !Z.mod_small by lia. lia.
Qed.

(** The effect of a tick on the abstract view, and the callback it starts. *)
Definition tick_pending (p : option (Z * F)) : option (Z * F) :=
  '(r, f) ← p; if r =? 0 then None else Some (r - 1, f).
Definition due (p : option (Z * F)) : option F :=
  '(r, f) ← p; if r =? 0 then Some f else None.

Lemma pending_eq tw k i t :
  wf tw -> slot (buckets tw) i k = Some t ->
  pending tw k = Some ((Z.of_nat i - currentIndex tw) mod bucketsNum tw + round t * bucketsNum tw,
                       callback t) /\ 0 <= Z.of_nat i < bucketsNum tw /\ 0 <= round t.
Proof.
  intros W Ht. destruct (wf_slot _ W _ _ _ Ht) as [E Hr].
  destruct (wf_index _ W _ _ E) as [Hi _]. split; [|done].
  unfold pending. rewrite E. cbn. by rewrite Nat2Z.id, Ht.
Qed.

(** A key of the current bucket is due exactly when its round is over. *)
Lemma due_current tw b k :
  wf tw -> (forall k, slot (buckets tw) (Z.to_nat (currentIndex tw)) k = b !! k) ->
  due (pending tw k) = fires b k.
Proof.
  intros W Hb. pose proof (wf_num _ W). pose proof (wf_cur _ W). unfold fires.
  destruct (pending tw k) as [[r f]|] eqn:P.
  - unfold pending in P. apply bind_Some in P as (i & Ei & P).
    apply bind_Some in P as (t & Et & [= <- <-]). cbn.
    destruct (wf_index _ W _ _ Ei) as [Hi _]. destruct (wf_slot _ W _ _ _ Et) as [_ Hr].
    destruct (decide (i = currentIndex tw)) as [->|N].
    + rewrite <- Hb, Et. cbn. rewrite Z.sub_diag, Z.mod_0_l by lia.
      destruct (0 <? round t) eqn:E1, (_ =? 0) eqn:E2; try done; nia.
    + assert (b !! k = None) as ->.
      { rewrite <- Hb. destruct (slot (buckets tw) (Z.to_nat (currentIndex tw)) k) as [t'|] eqn:E';
          [|done].
        destruct (wf_slot _ W _ _ _ E') as [E'' _]. rewrite Ei in E''.
        exfalso. injection E'' as E3. lia. }
      cbn. destruct (_ =? 0) eqn:E2; [|done]. exfalso.
      assert ((i - currentIndex tw) mod bucketsNum tw = 0) as Z0.
      { pose proof (Z.mod_pos_bound (i - currentIndex tw) (bucketsNum tw)). nia. }
      apply Z.mod_divide in Z0 as [q Hq]; [|lia]. assert (q = 0) by nia. nia.
  - apply pending_None in P; [|done]. destruct (b !! k) as [t|] eqn:Et; [|done].
    rewrite <- Hb in Et. destruct (wf_slot _ W _ _ _ Et). congruence.
Qed.

Lemma range_order_spec tw ks b :
  wf tw -> range_order tw ks -> index (buckets tw) (currentIndex tw) = Ret b ->
  NoDup ks /\ forall k, k ∈ ks <-> is_Some (b !! k).
Proof.
  intros W (b' & Hb' & Hks) Hb. apply index_Ret in Hb as [_ Hb]. rewrite Hb in Hb'.
  injection Hb' as <-. split.
  - rewrite Hks. apply NoDup_fst_map_to_list.
  - intros k. rewrite Hks, list_elem_of_fmap. split.
    + intros ([k' t] & -> & Hin). apply elem_of_map_to_list in Hin. eauto.
    + intros [t Ht]. exists (k, t). split; [done|]. by apply elem_of_map_to_list.
Qed.

(** A wheel whose current bucket has aged and whose hand has moved. *)
Lemma tick_wf tw b bs' bi' c' :
  wf tw -> (forall k, slot (buckets tw) (Z.to_nat (currentIndex tw)) k = b !! k) ->
  zlen bs' = zlen (buckets tw) -> 0 <= c' < bucketsNum tw ->
  (forall j k, slot bs' j k = if decide (j = Z.to_nat (currentIndex tw)) then b !! k ≫= age
                              else slot (buckets tw) j k) ->
  (forall k, bi' !! k = if fires b k is Some _ then None else bucketIndexes tw !! k) ->
  wf (set_wheel tw bs' bi' c').
Proof.
  intros W Hb Hl Hc' Hs Hbi. pose proof (wf_cur _ W) as Hc.
  constructor; cbn; [apply W|apply W|rewrite Hl; apply W|done|..|apply W].
  - intros k i Hk. rewrite Hbi in Hk. destruct (fires b k) eqn:Ef; [done|].
    destruct (wf_index _ W _ _ Hk) as (Hi & t & Ht). split; [done|]. rewrite Hs.
    case_decide as D; [|eauto]. unfold fires in Ef. rewrite D, Hb in Ht. rewrite Ht in *.
    cbn in *. unfold age. destruct (0 <? round t); [eauto|done].
  - intros i k t Ht. rewrite Hs in Ht. rewrite Hbi. case_decide as D.
    + apply bind_Some in Ht as (t0 & Ht0 & Ha). unfold fires. rewrite Ht0. cbn.
      rewrite <- Hb in Ht0. destruct (wf_slot _ W _ _ _ Ht0) as [E Hr].
      unfold age in Ha. destruct (0 <? round t0) eqn:E0; [|done]. injection Ha as <-. cbn.
      subst i. split; [done|lia].
    + destruct (wf_slot _ W _ _ _ Ht) as [E Hr]. split; [|done]. unfold fires.
      destruct (b !! k) as [t0|] eqn:Et0; [exfalso|done]. rewrite <- Hb in Et0.
      destruct (wf_slot _ W _ _ _ Et0) as [E' _]. rewrite E in E'. injection E'. lia.
Qed.

Lemma tick_pending_eq tw b bs' bi' k :
  wf tw -> (forall k, slot (buckets tw) (Z.to_nat (currentIndex tw)) k = b !! k) ->
  (forall j k, slot bs' j k = if decide (j = Z.to_nat (currentIndex tw)) then b !! k ≫= age
                              else slot (buckets tw) j k) ->
  (forall k, bi' !! k = if fires b k is Some _ then None else bucketIndexes tw !! k) ->
  pending (set_wheel tw bs' bi'
    (if currentIndex tw =? bucketsNum tw - 1 then 0 else currentIndex tw + 1)) k =
  tick_pending (pending tw k).
Proof.
  intros W Hb Hs Hbi. pose proof (wf_cur _ W) as Hc. pose proof (wf_num _ W) as Hn.
  pose proof (due_current tw b k W Hb) as Hd. unfold pending at 1. cbn. rewrite Hbi.
  destruct (bucketIndexes tw !! k) as [i|] eqn:Ei; cycle 1.
  { rewrite (proj2 (pending_None tw k W) Ei). by destruct (fires b k). }
  destruct (wf_index _ W _ _ Ei) as (Hi & t & Ht).
  destruct (pending_eq tw k _ t W Ht) as (P & _ & Hr). rewrite Z2Nat.id in P by lia.
  rewrite P in *. cbn in Hd |- *. rewrite <- Hd.
  destruct (next_distance _ _ i Hc Hi) as [_ ND]. cbv zeta in ND.
  destruct (_ + _ =? 0) eqn:E0; [done|]. cbn. rewrite Hs.
  case_decide as D.
  - assert (i = currentIndex tw) as -> by lia. rewrite <- Hb, Ht. cbn. unfold age.
    rewrite Z.sub_diag, Z.mod_0_l in E0 |- * by lia.
    destruct (0 <? round t) eqn:E1; [cbn|nia]. rewrite ND, decide_True by done.
    cbn. do 2 f_equal. lia.
  - rewrite decide_False by lia. rewrite Ht. cbn. rewrite ND. do 2 f_equal. lia.
Qed.

Lemma handleTick_spec tw ks :
  wf tw -> range_order tw ks ->
  exists tw', handleTick ks tw = Ret (tw', omap (fun k => due (pending tw k)) ks) /\ wf tw' /\
    tick tw' = tick tw /\ (forall k, pending tw' k = tick_pending (pending tw k)) /\
    NoDup ks /\ forall k, is_Some (due (pending tw k)) -> k ∈ ks.
Proof.
  intros W Ho. pose proof (wf_num _ W) as Hn. pose proof (wf_cur _ W) as Hc. unfold handleTick.
  destruct (update_bucket (buckets tw) (currentIndex tw)) as (b & Eb & Hb & U);
    [by rewrite (wf_len _ W)|].
  destruct (range_order_spec _ _ _ W Ho Eb) as [ND Hks]. rewrite Eb. cbn [mbind outcome_bind].
  destruct (tick_loop_spec b (bucketIndexes tw) ks ND) as (b' & bi' & -> & Hb' & Hbi');
    [by intros k; rewrite Hks|]. cbn [mbind outcome_bind].
  destruct (U b') as (bs' & -> & Hl & Hs). cbn [mbind outcome_bind].
  assert (forall k, is_Some (fires b k) -> k ∈ ks) as Hf.
  { intros k [f Hk]. apply Hks. unfold fires in Hk. apply bind_Some in Hk as (t & Ht & _). eauto. }
  assert (forall k, bi' !! k = if fires b k is Some _ then None else bucketIndexes tw !! k) as Hbi.
  { intros k. rewrite Hbi'. specialize (Hf k). destruct (fires b k); case_decide; naive_solver. }
  assert (forall j k, slot bs' j k = if decide (j = Z.to_nat (currentIndex tw)) then b !! k ≫= age
                              else slot (buckets tw) j k) as Hsl.
  { intros j k. rewrite Hs, Hb'. case_decide; [|done]. case_decide as D; [done|].
    rewrite Hks in D. destruct (b !! k); [naive_solver|done]. }
  eexists. split; [do 2 f_equal; apply list_omap_ext, Forall_Forall2_diag, Forall_forall;
    intros k _; symmetry; by apply due_current|].
  split; [apply (tick_wf tw b); try done; by apply (next_distance _ _ 0); lia|].
  split; [done|]. split; [intros k; by apply (tick_pending_eq tw b)|]. split; [done|].
  intros k. rewrite (due_current tw b) by done. apply Hf.
Qed.

(** * The wheel against its abstract view *)

(** The abstract timers: the ticks left and the callback of every pending key. *)
Definition timers : Type := K -> option (Z * F).

(** What an event does to the timers of a wheel with the given tick. *)
Definition timers_step (tw : TimeWheel) (p : timers) (e : event) : timers :=
  match e with
  | EAdd t => fun k => if decide (k = key t) then Some (ticks_of tw (delay t), callback t) else p k
  | ERemove j => fun k => if decide (k = j) then None else p k
  | ETick _ => fun k => tick_pending (p k)
  | EPostAdd _ | EPostRemove _ => p
  end.

Lemma set_chans_wf tw ac rc :
  wf tw -> Forall (fun t => 0 < delay t <= max_i64) ac -> wf (set_chans tw ac rc).
Proof. intros [] Ha. by constructor. Qed.

Lemma step_refines tw e tw' :
  wf tw -> step tw e tw' ->
  wf tw' /\ (forall k, pending tw' k = timers_step tw (pending tw) e k) /\
  (forall fs, e = ETick fs -> exists ks, NoDup ks /\ fs = omap (fun k => due (pending tw k)) ks /\
     forall k, is_Some (due (pending tw k)) -> k ∈ ks).
Proof.
  intros W S. destruct S as [tw ks tw' fs Ho E|tw t ac tw' Ea E|tw k rc tw' Er E
    |tw d k f tw' Hd _ E|tw k tw' _ E].
  - destruct (handleTick_spec tw ks W Ho) as (tw1 & E1 & W1 & _ & Hp & ND & Hin).
    rewrite E in E1. injection E1 as -> ->. split_and!; [done|done|]. intros fs [= <-]. eauto.
  - pose proof (wf_adds _ W) as Ha. rewrite Ea in Ha. apply Forall_cons in Ha as [Ht Ha].
    destruct (add_spec (set_chans tw ac (removeC tw)) t) as (tw1 & E1 & W1 & Hk & Hp);
      [by apply set_chans_wf|done|]. rewrite E in E1. injection E1 as ->.
    split_and!; [done| |done]. intros j. cbn. case_decide; [by subst|]. by rewrite Hp.
  - destruct (remove_spec (set_chans tw (addC tw) rc) k) as (tw1 & E1 & W1 & Hk & Hp);
      [apply set_chans_wf; [done|apply W]|]. rewrite E in E1. injection E1 as ->.
    split_and!; [done| |done]. intros j. cbn. case_decide; [by subst|]. by rewrite Hp.
  - cbn in E. destruct (d <=? 0) eqn:E0; [done|]. injection E as <-.
    split_and!; [|done|done]. apply set_chans_wf; [done|]. apply Forall_app. split; [apply W|].
    unfold is_i64 in Hd. repeat constructor; cbn; lia.
  - injection E as <-. split_and!; [|done|done]. apply set_chans_wf; [done|apply W].
Qed.

Lemma step_tick_const tw e tw' : step tw e tw' -> tick tw' = tick tw.
Proof.
  intros S. destruct S as [tw ks tw' fs Ho E|tw t ac tw' Ea E|tw k rc tw' Er E
    |tw d k f tw' Hd _ E|tw k tw' _ E].
  - unfold handleTick in E. invert_ret. destruct a0 as [[b bi] fs']. invert_ret. done.
  - unfold add in E. invert_ret. done.
  - unfold remove in E. case_match; invert_ret; done.
  - cbn in E. invert_ret; done.
  - cbn in E. invert_ret; done.
Qed.

Lemma NewTimeWheel_wf tck n tw :
  NewTimeWheel tck n = Ret tw -> wf tw /\ forall k, pending tw k = None.
Proof.
  unfold NewTimeWheel. intros E. invert_ret. split; [|done].
  assert (forall i k, slot (replicate (Z.to_nat n) (∅ : gmap K Task)) i k = None) as Hs.
  { intros i k. unfold slot. destruct (_ !! i) as [b|] eqn:Eb; [|done].
    apply lookup_replicate in Eb as [-> _]. apply lookup_empty. }
  constructor; cbn; try (unfold zlen; rewrite ?length_replicate); try lia; [done| |constructor].
  intros i k t. by rewrite Hs.
Qed.

Lemma steps_wf tw es tw' : wf tw -> steps tw es tw' -> wf tw'.
Proof.
  intros W S. induction S as [|tw e tw1 es tw2 S1 S IH]; [done|].
  apply IH. by eapply step_refines.
Qed.

(** C34: every wheel reached from a new one refines the abstract timers: adding a
    task sets its key to [delay/tick] ticks, removing a key forgets it, and a
    tick decreases every pending key, ends those at zero and starts exactly
    their callbacks, each once, in whatever order the bucket is visited. *)
Theorem wheel_refines_timers tck n tw0 es tw e tw' :
  NewTimeWheel tck n = Ret tw0 -> steps tw0 es tw -> step tw e tw' ->
  (forall k, pending tw' k = timers_step tw (pending tw) e k) /\
  (forall fs, e = ETick fs -> exists ks, NoDup ks /\ fs = omap (fun k => due (pending tw k)) ks /\
     forall k, is_Some (due (pending tw k)) -> k ∈ ks).
Proof.
  intros E S S1. apply NewTimeWheel_wf in E as [W _]. apply (steps_wf _ _ _ W) in S.
  by destruct (step_refines _ _ _ S S1).
Qed.

(** The loop of a reachable wheel never panics and is never stuck: a tick
    can be handled in any order of the bucket, and so can the first waiting
    request of each channel. *)
Theorem wheel_progress tck n tw0 es tw :
  NewTimeWheel tck n = Ret tw0 -> steps tw0 es tw ->
  (forall ks, range_order tw ks -> is_ret (handleTick ks tw)) /\
  (exists fs tw', step tw (ETick fs) tw') /\
  (forall t ac, addC tw = t :: ac -> exists tw', step tw (EAdd t) tw') /\
  (forall k rc, removeC tw = k :: rc -> exists tw', step tw (ERemove k) tw').
Proof.
  intros E S. apply NewTimeWheel_wf in E as [W0 _]. apply (steps_wf _ _ _ W0) in S as W.
  assert (exists ks, range_order tw ks) as [ks0 Ho].
  { destruct (index_in_range (buckets tw) (currentIndex tw)) as (b & _ & Hb).
    - rewrite (wf_len _ W). apply (wf_cur _ W).
    - exists (map_to_list b).*1, b. done. }
  split_and!.
  - intros ks Hk. by destruct (handleTick_spec tw ks W Hk) as (tw' & -> & _).
  - destruct (handleTick_spec tw ks0 W Ho) as (tw' & E' & _). eexists _, tw'. by econstructor.
  - intros t ac Ea. pose proof (wf_adds _ W) as Ha. rewrite Ea in Ha.
    apply Forall_cons in Ha as [Ht Ha].
    destruct (add_spec (set_chans tw ac (removeC tw)) t) as (tw' & E' & _);
      [by apply set_chans_wf|done|]. exists tw'. by econstructor.
  - intros k rc Er.
    destruct (remove_spec (set_chans tw (addC tw) rc) k) as (tw' & E' & _);
      [apply set_chans_wf; [done|apply W]|]. exists tw'. by econstructor.
Qed.

(** * When a timer fires *)

Definition is_tick (e : event) : bool := match e with ETick _ => true | _ => false end.
Definition ticks (es : list event) : Z := zlen (filter is_tick es).

Lemma ticks_cons e es : ticks (e :: es) = (if is_tick e then 1 else 0) + ticks es.
Proof.
  unfold ticks. rewrite filter_cons.
  case_decide as D; destruct (is_tick e); try done; rewrite ?zlen_cons; lia.
Qed.

(** The events that replace or remove the task of a key. *)
Definition touches (k : K) (e : event) : Prop :=
  match e with EAdd t => key t = k | ERemove j => j = k | _ => False end.

Lemma untouched_step tw e tw' k r f :
  wf tw -> step tw e tw' -> ~ touches k e -> pending tw k = Some (r, f) ->
  pending tw' k = if is_tick e then tick_pending (Some (r, f)) else Some (r, f).
Proof.
  intros W S N P. destruct (step_refines _ _ _ W S) as (_ & -> & _).
  destruct e; cbn in *; rewrite ?P; try done; by rewrite decide_False by congruence.
Qed.

Lemma timer_run tw es tw' k r f :
  wf tw -> steps tw es tw' -> Forall (fun e => ~ touches k e) es -> 0 <= r ->
  pending tw k = Some (r, f) ->
  (ticks es <= r /\ pending tw' k = Some (r - ticks es, f)) \/
  exists es1 fs es2, es = es1 ++ ETick fs :: es2 /\ ticks es1 = r /\ f ∈ fs.
Proof.
  intros W S. revert r. induction S as [tw|tw e tw1 es tw2 S1 S IH]; intros r N Hr P.
  { left. split; [done|]. rewrite P. do 2 f_equal. change (ticks []) with 0. lia. }
  apply Forall_cons in N as [N1 N].
  destruct (step_refines _ _ _ W S1) as (W1 & _ & Hf).
  pose proof (untouched_step _ _ _ _ _ _ W S1 N1 P) as P1.
  rewrite (ticks_cons e es). destruct (is_tick e) eqn:Et.
  - destruct e as [| |fs| |]; try done. destruct (decide (r = 0)) as [->|N0].
    + right. destruct (Hf fs eq_refl) as (ks & _ & -> & Hin). eexists [], _, es.
      split; [done|]. split; [done|]. apply list_elem_of_omap. exists k.
      rewrite P. split; [apply Hin; by rewrite P|done].
    + cbn in P1. rewrite (proj2 (Z.eqb_neq r 0) N0) in P1.
      destruct (IH W1 (r - 1) N ltac:(lia) P1) as [[H1 H2]|(es1 & fs' & es2 & -> & H1 & H2)].
      * left. split; [lia|]. rewrite H2. do 2 f_equal. lia.
      * right. exists (ETick fs :: es1), fs', es2. split; [done|]. split; [|done].
        rewrite ticks_cons. cbn [is_tick]. lia.
  - destruct (IH W1 r N Hr P1) as [[H1 H2]|(es1 & fs' & es2 & -> & H1 & H2)].
    + left. split; [lia|]. rewrite H2. by rewrite Z.add_0_l.
    + right. exists (e :: es1), fs', es2. split; [done|]. split; [|done].
      rewrite ticks_cons, Et. lia.
Qed.

(** A task whose request has been taken fires: as long as its key is not
    added again or removed, it stays pending for [delay/tick] ticks, and the
    tick after them starts its callback. *)
Theorem timer_fires tck n tw0 es0 tw t tw1 es tw2 :
  NewTimeWheel tck n = Ret tw0 -> steps tw0 es0 tw -> step tw (EAdd t) tw1 ->
  steps tw1 es tw2 -> Forall (fun e => ~ touches (key t) e) es ->
  (ticks es <= ticks_of tw (delay t) /\
   pending tw2 (key t) = Some (ticks_of tw (delay t) - ticks es, callback t)) \/
  exists es1 fs es2, es = es1 ++ ETick fs :: es2 /\ ticks es1 = ticks_of tw (delay t) /\
    callback t ∈ fs.
Proof.
  intros E S0 S1 S N. apply NewTimeWheel_wf in E as [W0 _]. apply (steps_wf _ _ _ W0) in S0 as W.
  destruct (step_refines _ _ _ W S1) as (W1 & Hp & _).
  specialize (Hp (key t)). cbn in Hp. rewrite decide_True in Hp by done.
  apply (timer_run tw1); try done. inversion S1; subst.
  pose proof (wf_adds _ W) as Ha.
  match goal with Ea : addC tw = _ |- _ => rewrite Ea in Ha end.
  apply Forall_cons in Ha as [Ht _]. by apply (ticks_bounds tw).
Qed.

End TimeWheel.

Arguments Task : clear implicits.
Arguments TimeWheel K {_ _} F.

(** * Concrete runs *)

(** A wheel of three buckets and one-second ticks over string keys; the callback
    of a key is the key. *)
Definition second : Z := 1000000000.
Definition wheel3 : TimeWheel string string :=
  mkTimeWheel second 3 [∅; ∅; ∅] ∅ 0 [] [].

Definition idle : Task string string := mkTask (4 * second) "c1" 0 "c1".

(** [wheel3] after the request of [idle] was posted and taken. *)
Definition wheel3_posted : TimeWheel string string := set_chans wheel3 [idle] [].
Definition wheel3_added : TimeWheel string string :=
  mkTimeWheel second 3 [∅; {["c1" := mkTask (4 * second) "c1" 1 "c1"]}; ∅] {["c1" := 1]} 0 [] [].
Definition wheel3_ticked : TimeWheel string string :=
  mkTimeWheel second 3 [∅; {["c1" := mkTask (4 * second) "c1" 1 "c1"]}; ∅] {["c1" := 1]} 1 [] [].

Lemma wheel3_new : NewTimeWheel second 3 = Ret wheel3.
Proof. reflexivity. Qed.

Lemma wheel3_post : step wheel3 (EPostAdd idle) wheel3_posted.
Proof. apply (step_post_add wheel3 (4 * second) "c1" "c1"); vm_compute; intuition congruence. Qed.

Lemma wheel3_add : step wheel3_posted (EAdd idle) wheel3_added.
Proof. by apply (step_add wheel3_posted idle []). Qed.

Lemma wheel3_tick : step wheel3_added (ETick []) wheel3_ticked.
Proof. apply (step_tick wheel3_added []); [|done]. by exists ∅. Qed.

Lemma wheel_refines_timers_witness :
  pending wheel3_ticked "c1" = timers_step wheel3_added (pending wheel3_added) (ETick []) "c1" /\
  pending wheel3_ticked "c1" = Some (3, "c1").
Proof.
  split; [|reflexivity].
  apply (wheel_refines_timers second 3 wheel3 [EPostAdd idle; EAdd idle] wheel3_added (ETick []));
    [exact wheel3_new| |exact wheel3_tick].
  econstructor; [exact wheel3_post|]. econstructor; [exact wheel3_add|]. constructor.
Defined.

Lemma wheel_progress_witness : exists fs tw', step wheel3_added (ETick fs) tw'.
Proof.
  apply (wheel_progress second 3 wheel3 [EPostAdd idle; EAdd idle] wheel3_added);
    [exact wheel3_new|].
  econstructor; [exact wheel3_post|]. econstructor; [exact wheel3_add|]. constructor.
Defined.

Lemma timer_fires_witness :
  (ticks (K := string) (F := string) [ETick []] <= 4 /\
   pending wheel3_ticked "c1" = Some (4 - 1, "c1")) \/
  exists es1 fs es2, [ETick []] = es1 ++ ETick fs :: es2 /\ ticks (K := string) es1 = 4 /\
    "c1" ∈ fs.
Proof.
  apply (timer_fires second 3 wheel3 [EPostAdd idle] wheel3_posted idle wheel3_added
           [ETick []] wheel3_ticked).
  - exact wheel3_new.
  - econstructor; [exact wheel3_post|constructor].
  - exact wheel3_add.
  - econstructor; [exact wheel3_tick|constructor].
  - repeat constructor. intros [].
Defined.

(** [Add] and [Remove] use different channels, and the select can take the
    removal first: a session that was added and then removed still fires. *)
Theorem remove_overtakes_add :
  exists tw,
    steps wheel3 [EPostAdd idle; EPostRemove "c1"; ERemove "c1"; EAdd idle] tw /\
    pending tw "c1" = Some (4, "c1").
Proof.
  exists wheel3_added. split; [|reflexivity].
  econstructor; [exact wheel3_post|].
  econstructor; [by apply (step_post_remove wheel3_posted "c1")|].
  econstructor; [by eapply step_remove|].
  econstructor; [by apply (step_add _ idle [])|]. constructor.
Qed.
