(* ===== verification/Balancer.v ===== *)
(** backend/balancer.go and the construction of backend/slice.go: the connection
    pools of a slice and the weighted round robin over its slaves. The three
    groups of slaves (those of the master's data centre, those used for reads
    and those of statistic users) have the same fields; here each is a [Group]
    of the slice. *)

From Stdlib Require Import Ascii String.
From S2P Require Import Prelude GoStr Models.

(** * Data *)

Record ConnectionPool := mkConnectionPool {
  addr : string; cp_user : string; cp_password : string; cp_db : string;
  cp_capacity : Z; cp_maxCapacity : Z; idleTimeout : Z;
  charset : string; collationID : Z;
  opened : bool;
}.

Record Group := mkGroup {
  pools : list ConnectionPool;
  weights : list Z;
  last : Z;
  queue : list Z;
}.

Record Slice := mkSlice {
  Cfg : models.Slice;
  s_charset : string;
  s_collationID : Z;
  Master : option ConnectionPool;
  MasterDC : Group;
  Slaves : Group;
  Statistic : Group;
}.

Definition no_group : Group := mkGroup [] [] 0 [].

Definition set_MasterDC (s : Slice) (g : Group) : Slice :=
  mkSlice (Cfg s) (s_charset s) (s_collationID s) (Master s) g (Slaves s) (Statistic s).
Definition set_Slaves (s : Slice) (g : Group) : Slice :=
  mkSlice (Cfg s) (s_charset s) (s_collationID s) (Master s) (MasterDC s) g (Statistic s).
Definition set_Statistic (s : Slice) (g : Group) : Slice :=
  mkSlice (Cfg s) (s_charset s) (s_collationID s) (Master s) (MasterDC s) (Slaves s) g.
Definition set_Master (s : Slice) (cp : ConnectionPool) : Slice :=
  mkSlice (Cfg s) (s_charset s) (s_collationID s) (Some cp) (MasterDC s) (Slaves s) (Statistic s).

(** * The balancer *)

Definition divide_by_zero : string := "integer divide by zero".

(** [a % b] and [a / b] on int. *)
Definition go_rem (a b : Z) : outcome Z :=
  if b =? 0 then Panic divide_by_zero else Ret (Z.rem a b).
Definition go_quot (a b : Z) : outcome Z :=
  if b =? 0 then Panic divide_by_zero else Ret (i64 (Z.quot a b)).

(** The inner loop of [gcd]: whether [min] divides every element. *)
Fixpoint is_common (ary : list Z) (min : Z) {struct ary} : outcome bool :=
  match ary with
  | [] => Ret true
  | a :: ary' => r ← go_rem a min; if negb (r =? 0) then Ret false else is_common ary' min
  end.

(** The outer loop; [fuel] bounds its iterations. *)
Fixpoint gcd_loop (fuel : nat) (ary : list Z) (min : Z) {struct fuel} : outcome Z :=
  match fuel with
  | O => Panic "out of fuel"
  | S fuel' =>
      c ← is_common ary min;
      if c : bool then Ret min
      else if min - 1 <? 1 then Ret (min - 1) else gcd_loop fuel' ary (min - 1)
  end.

Definition gcd (ary : list Z) : outcome Z :=
  m ← index ary 0;
  let min := fold_left (fun m a => if a <? m then a else m) ary m in
  gcd_loop (S (Z.to_nat min)) ary min.

Section Random.
(** [Intn i n] is the [i]-th number [r.Intn(n)] draws. *)
Context (Intn : nat -> Z -> Z).

(** One round of the shuffle. *)
Definition swap (sum x : Z) (q : list Z) : outcome (list Z) :=
  temp ← index q x;
  let other := Z.rem sum (x + 1) in
  o ← index q other;
  q ← store q x o;
  store q other temp.

Fixpoint shuffle (n i : nat) (sum : Z) (q : list Z) {struct n} : outcome (list Z) :=
  match n with
  | O => Ret q
  | S n' => q' ← swap sum (Intn i sum) q; shuffle n' (S i) sum q'
  end.

(** The body the three initialisers share: the round robin queue of the weights. *)
Definition init_queue (ws : list Z) : outcome (list Z) :=
  g ← gcd ws;
  shares ← mapM (fun w => go_quot w g) ws;
  let sum := fold_left (fun s n => i64 (s + n)) shares 0 in
  if sum <? 0 then Panic "makeslice: cap out of range" else
  let q := concat (imap (fun i n => replicate (Z.to_nat n) (Z.of_nat i)) shares) in
  if 1 <? zlen ws then shuffle (Z.to_nat sum) 0 sum q else Ret q.

Definition init_group (g : Group) : outcome Group :=
  q ← init_queue (weights g); Ret (mkGroup (pools g) (weights g) 0 q).

Definition initMasterDCBalancer (s : Slice) : outcome Slice :=
  g ← init_group (MasterDC s); Ret (set_MasterDC s g).
Definition initBalancer (s : Slice) : outcome Slice :=
  g ← init_group (Slaves s); Ret (set_Slaves s g).
Definition initStatisticSlaveBalancer (s : Slice) : outcome Slice :=
  g ← init_group (Statistic s); Ret (set_Statistic s g).

(** * Construction of a slice *)

Definition ErrNoMasterDB : error := Named "ErrNoMasterDB".
Definition ErrNoDatabase : error := Named "ErrNoDatabase".

(** [time.ParseDuration] of a whole number of seconds. *)
Definition Int2TimeDuration (t : Z) : outcome Z :=
  if max_i64 <? Z.abs t * 1000000000 then Err (Errorf "time: invalid duration")
  else Ret (t * 1000000000).

Definition NewConnectionPool (addr user password db : string) (capacity maxCapacity idle : Z)
    (charset : string) (collationID : Z) : ConnectionPool :=
  mkConnectionPool addr user password db capacity maxCapacity idle charset collationID false.

Definition DefaultCapacity : Z := 64.

(** [NewResourcePool] panics on capacities that are not in order. *)
Definition Open (cp : ConnectionPool) : outcome ConnectionPool :=
  let cap := if cp_capacity cp =? 0 then DefaultCapacity else cp_capacity cp in
  let max := if cp_maxCapacity cp =? 0 then cap else cp_maxCapacity cp in
  if (cap <=? 0) || (max <=? 0) || (max <? cap) then Panic "invalid/out of range capacity"
  else Ret (mkConnectionPool (addr cp) (cp_user cp) (cp_password cp) (cp_db cp) cap max
              (idleTimeout cp) (charset cp) (collationID cp) true).

(** The pool of one address of the slice. *)
Definition open_pool (s : Slice) (a : string) : outcome ConnectionPool :=
  idle ← Int2TimeDuration (models.IdleTimeout (Cfg s));
  Open (NewConnectionPool a (models.Slice_UserName (Cfg s)) (models.Slice_Password (Cfg s)) ""
          (models.Capacity (Cfg s)) (models.MaxCapacity (Cfg s)) idle
          (s_charset s) (s_collationID s)).

Definition ParseMaster (s : Slice) (masterStr : string) : outcome Slice :=
  if String.eqb masterStr "" then Err ErrNoMasterDB
  else cp ← open_pool s masterStr; Ret (set_Master s cp).

(** The address and weight of one entry [addr@weight]. *)
Definition addr_weight (e : string) : outcome (string * Z) :=
  match Split "@" e with
  | [a; w] => w ← Atoi w; Ret (a, w)
  | a :: _ => Ret (a, 1)
  | [] => Panic "index out of range"
  end.

(** The loop of [ParseSlave] and [ParseStatisticSlave] over the group it fills. *)
Fixpoint parse_nodes (s : Slice) (g : Group) (es : list string) {struct es} : outcome Group :=
  match es with
  | [] => Ret g
  | e :: es' =>
      '(a, w) ← addr_weight e;
      cp ← open_pool s a;
      parse_nodes s (mkGroup (pools g ++ [cp]) (weights g ++ [w]) (last g) (queue g)) es'
  end.

Definition ParseSlave (s : Slice) (es : list string) : outcome Slice :=
  if zlen es =? 0 then Ret s else
  g ← parse_nodes s (mkGroup [] [] (last (Slaves s)) (queue (Slaves s))) es;
  initBalancer (set_Slaves s g).

Definition ParseStatisticSlave (s : Slice) (es : list string) : outcome Slice :=
  if zlen es =? 0 then Ret s else
  g ← parse_nodes s (mkGroup [] [] (last (Statistic s)) (queue (Statistic s))) es;
  initStatisticSlaveBalancer (set_Statistic s g).

(** The loop of [ParseMasterDCSlave] appends each weight to the weights of the
    slaves used for reads. *)
Fixpoint parse_dc_nodes (s : Slice) (g : Group) (es : list string) {struct es} : outcome Group :=
  match es with
  | [] => Ret g
  | e :: es' =>
      '(a, w) ← addr_weight e;
      cp ← open_pool s a;
      parse_dc_nodes s (mkGroup (pools g ++ [cp]) (weights (Slaves s) ++ [w]) (last g) (queue g)) es'
  end.

Definition ParseMasterDCSlave (s : Slice) (es : list string) : outcome Slice :=
  if zlen es =? 0 then Ret s else
  g ← parse_dc_nodes s (mkGroup [] [] (last (MasterDC s)) (queue (MasterDC s))) es;
  initMasterDCBalancer (set_MasterDC s g).

(** proxy/server/namespace.go: [parseSlice] *)
Definition parseSlice (cfg : models.Slice) (charset : string) (collationID : Z)
    (masterDC forceMaster : bool) : outcome Slice :=
  let s := mkSlice cfg charset collationID None no_group no_group no_group in
  s ← ParseMaster s (models.Master cfg);
  let slaveConfigs :=
    if masterDC || forceMaster then models.Slaves cfg else models.SlaveDCSlaves cfg in
  s ← ParseMasterDCSlave s (models.Slaves cfg);
  s ← ParseSlave s slaveConfigs;
  ParseStatisticSlave s (models.StatisticSlaves cfg).

End Random.

(** * Choosing a slave *)

(** [getNextSlave] and [getNextMasterDCSlave] on their group: the group they
    leave and the pool or error they return. *)
Definition next_in (g : Group) : Group * outcome ConnectionPool :=
  let queueLen := zlen (queue g) in
  if queueLen =? 0 then (g, Err ErrNoDatabase)
  else if queueLen =? 1 then (g, i ← index (queue g) 0; index (pools g) i)
  else
    let l := Z.rem (last g) queueLen in
    let g := mkGroup (pools g) (weights g) l (queue g) in
    match index (queue g) l with
    | Ret i =>
        if zlen (pools g) <=? i then (g, Err ErrNoDatabase)
        else match index (pools g) i with
             | Ret cp => (mkGroup (pools g) (weights g) (Z.rem (l + 1) queueLen) (queue g), Ret cp)
             | e => (g, e)
             end
    | Err e => (g, Err e)
    | Panic p => (g, Panic p)
    end.

Definition getNextSlave (s : Slice) : Slice * outcome ConnectionPool :=
  let '(g, r) := next_in (Slaves s) in (set_Slaves s g, r).

Definition getNextMasterDCSlave (s : Slice) : Slice * outcome ConnectionPool :=
  let '(g, r) := next_in (MasterDC s) in (set_MasterDC s g, r).

(** Writes the position of the read slaves before it reads its own. *)
Definition getNextStatisticSlave (s : Slice) : Slice * outcome ConnectionPool :=
  let g := Statistic s in
  let queueLen := zlen (queue g) in
  if queueLen =? 0 then (s, Err ErrNoDatabase)
  else if queueLen =? 1 then (s, i ← index (queue g) 0; index (pools g) i)
  else
    let r := Slaves s in
    let s := set_Slaves s (mkGroup (pools r) (weights r) (Z.rem (last g) queueLen) (queue r)) in
    match index (queue g) (last g) with
    | Ret i =>
        if zlen (pools g) <=? i then (s, Err ErrNoDatabase)
        else match index (pools g) i with
             | Ret cp => (set_Statistic s
                 (mkGroup (pools g) (weights g) (Z.rem (last g + 1) queueLen) (queue g)), Ret cp)
             | e => (s, e)
             end
    | Err e => (s, Err e)
    | Panic p => (s, Panic p)
    end.

(** [n] calls in a row. *)
Fixpoint calls {A} (f : Slice -> Slice * outcome A) (n : nat) (s : Slice) {struct n} :
    outcome (list A * Slice) :=
  match n with
  | O => Ret ([], s)
  | S n' =>
      let '(s', r) := f s in
      a ← r; '(l, s'') ← calls f n' s'; Ret (a :: l, s'')
  end.

(** * The greatest common divisor *)

Lemma is_common_spec ary m :
  1 <= m -> is_common ary m = Ret (forallb (fun a => Z.rem a m =? 0) ary).
Proof.
  intros Hm. induction ary as [|a ary IH]; [done|]. cbn [is_common forallb]. unfold go_rem.
  rewrite (proj2 (Z.eqb_neq m 0)) by lia. cbn [mbind outcome_bind].
  by destruct (Z.rem a m =? 0).
Qed.

(** [d] divides every element. *)
Definition common (ary : list Z) (d : Z) : Prop := Forall (Z.divide d) ary.

Lemma common_forallb ary m :
  1 <= m -> forallb (fun a => Z.rem a m =? 0) ary = true <-> common ary m.
Proof.
  intros Hm. unfold common. induction ary as [|a ary IH]; [done|]. cbn [forallb].
  rewrite andb_true_iff, IH, Forall_cons, Z.eqb_eq, Z.rem_divide by lia. done.
Qed.

Lemma gcd_loop_spec fuel ary m :
  1 <= m -> (Z.to_nat m < fuel)%nat -> (forall d, common ary d -> d <= m) ->
  exists g, gcd_loop fuel ary m = Ret g /\ 1 <= g /\ common ary g /\
    forall d, common ary d -> d <= g.
Proof.
  revert m. induction fuel as [|fuel IH]; intros m Hm Hf Hd; [lia|]. cbn [gcd_loop].
  rewrite is_common_spec by done. cbn [mbind outcome_bind].
  destruct (forallb _ _) eqn:E.
  - exists m. apply common_forallb in E; [|done]. done.
  - assert (~ common ary m) as N by (rewrite <- common_forallb by done; by rewrite E).
    assert (m <> 1) as N1.
    { intros ->. apply N, Forall_forall. intros a _. apply Z.divide_1_l. }
    rewrite (proj2 (Z.ltb_ge _ _)) by lia. apply IH; [lia|lia|].
    intros d Hc. pose proof (Hd d Hc). assert (d <> m) by (by intros ->). lia.
Qed.

Lemma fold_min_le (ary : list Z) m :
  let r := fold_left (fun m a => if a <? m then a else m) ary m in
  r <= m /\ Forall (fun a => r <= a) ary /\ (r = m \/ r ∈ ary).
Proof.
  revert m. induction ary as [|a ary IH]; intros m; cbn; [split; [lia|by auto]|].
  destruct (IH (if a <? m then a else m)) as (H1 & H2 & H3).
  rewrite Forall_cons, elem_of_cons. destruct (a <? m) eqn:E.
  - split; [lia|]. split; [split; [lia|done]|]. destruct H3 as [->|H3]; auto.
  - split; [lia|]. split; [split; [lia|done]|]. destruct H3 as [->|H3]; auto.
Qed.

Lemma gcd_ok ary :
  ary <> [] -> Forall (Z.le 1) ary ->
  exists g, gcd ary = Ret g /\ 1 <= g /\ common ary g /\ forall d, common ary d -> d <= g.
Proof.
  intros N Hp. destruct ary as [|a0 ary0]; [done|]. unfold gcd.
  change (index (a0 :: ary0) 0) with (Ret a0). cbn [mbind outcome_bind].
  remember (a0 :: ary0) as ary eqn:Ea.
  destruct (fold_min_le ary a0) as (H1 & H2 & H3). cbv zeta in *.
  set (m := fold_left _ _ _) in *.
  assert (m ∈ ary) as Hin by (destruct H3 as [->|?]; [subst ary; left|done]).
  assert (1 <= m) as Hm by (rewrite Forall_forall in Hp; by apply Hp).
  apply gcd_loop_spec; [done|lia|].
  intros d Hd. unfold common in Hd. rewrite Forall_forall in Hd. apply Z.divide_pos_le; [lia|].
  by apply Hd.
Qed.

(** The loop that lowers a candidate from the smallest weight ends with the
    greatest common divisor of positive weights. *)
Theorem gcd_greatest ary :
  ary <> [] -> Forall (Z.le 1) ary -> gcd ary = Ret (foldr Z.gcd 0 ary).
Proof.
  intros N Hp. destruct (gcd_ok ary N Hp) as (g & -> & Hg & Hc & Hmax). f_equal.
  set (G := foldr Z.gcd 0 ary).
  assert (forall l, common l (foldr Z.gcd 0 l)) as HG.
  { induction l as [|a l IH]; cbn; [constructor|]. constructor; [apply Z.gcd_divide_l|].
    eapply Forall_impl; [exact IH|]. intros x. apply Z.divide_trans, Z.gcd_divide_r. }
  assert (forall l d, common l d -> (d | foldr Z.gcd 0 l)) as HD.
  { intros l d. induction 1; cbn; [apply Z.divide_0_r|by apply Z.gcd_greatest]. }
  assert (0 <= G) as Hn by (unfold G; destruct ary; cbn; [lia|apply Z.gcd_nonneg]).
  pose proof (Hmax G (HG ary)). pose proof (HD ary g Hc) as Hdiv. fold G in Hdiv.
  destruct (decide (G = 0)) as [E0|].
  - destruct ary as [|a ary]; [done|]. pose proof (HG (a :: ary)) as H0. fold G in H0.
    rewrite E0 in H0. inversion H0 as [|? ? H1]; subst. apply Z.divide_0_l in H1.
    inversion Hp; subst. lia.
  - apply Z.divide_pos_le in Hdiv; lia.
Qed.

Lemma gcd_greatest_witness : gcd [6; 4; 10] = Ret 2.
Proof. apply (gcd_greatest [6; 4; 10]); [discriminate|repeat constructor; lia]. Defined.

(** A weight of zero beside weights that are not negative makes the
    initialisation of a slice panic. *)
Theorem zero_weight_panics Intn s :
  0 ∈ weights (Slaves s) -> Forall (Z.le 0) (weights (Slaves s)) ->
  initBalancer Intn s = Panic divide_by_zero.
Proof.
  unfold initBalancer, init_group, init_queue, gcd. generalize (weights (Slaves s)).
  intros ws Hin Hp. destruct ws as [|w0 ws0]; [by apply not_elem_of_nil in Hin|].
  change (index (w0 :: ws0) 0) with (Ret w0). cbn [mbind outcome_bind].
  remember (w0 :: ws0) as ws eqn:Ew.
  destruct (fold_min_le ws w0) as (H1 & H2 & H3). cbv zeta in *. set (m := fold_left _ _ _) in *.
  assert (m ∈ ws) as Hm by (destruct H3 as [->|?]; [subst ws; left|done]).
  rewrite Forall_forall in H2, Hp. pose proof (H2 0 Hin). pose proof (Hp m Hm).
  replace m with 0 by lia. subst ws. done.
Qed.

(** * The round robin queue *)

Section Queue.
Context (Intn : nat -> Z -> Z).
(** [Intn] draws from the half-open interval below its bound. *)
Context (Intn_range : forall i n, 0 < n -> 0 <= Intn i n < n).

Lemma swap_perm sum x q :
  zlen q = sum -> 0 <= x < sum -> exists q', swap sum x q = Ret q' /\ q' ≡ₚ q.
Proof.
  intros Hl Hx. unfold swap. destruct (index_in_range q x) as (t & -> & Ht); [lia|].
  cbn [mbind outcome_bind].
  pose proof (Z.rem_bound_pos sum (x + 1) ltac:(lia) ltac:(lia)) as Ho.
  destruct (index_in_range q (Z.rem sum (x + 1))) as (o & -> & Hq); [lia|].
  cbn [mbind outcome_bind]. rewrite store_in_range by lia. cbn [mbind outcome_bind].
  rewrite store_in_range by (rewrite zlen_insert; lia).
  eexists. split; [done|]. by apply Permutation_insert_swap.
Qed.

Lemma shuffle_perm n i sum q :
  zlen q = sum -> 0 < sum -> exists q', shuffle Intn n i sum q = Ret q' /\ q' ≡ₚ q.
Proof.
  intros Hl Hs. revert i q Hl. induction n as [|n IH]; intros i q Hl; [by exists q|].
  cbn [shuffle]. destruct (swap_perm sum (Intn i sum) q Hl) as (q1 & -> & P1); [by apply Intn_range|].
  cbn [mbind outcome_bind]. destruct (IH (S i) q1) as (q2 & -> & P2).
  { unfold zlen in *. by rewrite P1. }
  exists q2. split; [done|]. by rewrite P2.
Qed.

(** The queue before the shuffle: slave [i] as often as its share. *)
Definition shares_queue (ns : list Z) : list Z :=
  concat (imap (fun i n => replicate (Z.to_nat n) (Z.of_nat i)) ns).

Lemma concat_replicate_length {A} (f : nat -> A) ns :
  Forall (Z.le 0) ns ->
  zlen (concat (imap (fun i n => replicate (Z.to_nat n) (f i)) ns)) = zsum ns.
Proof.
  intros H. revert f. induction H as [|n ns Hn Hns IH]; intros f; [done|].
  rewrite imap_cons. cbn [concat]. rewrite zlen_app. unfold compose.
  rewrite (IH (fun i => f (S i))). unfold zlen. rewrite length_replicate. unfold zsum.
  cbn [foldr]. lia.
Qed.

Lemma i64_sum ns :
  Forall (Z.le 0) ns -> forall acc, 0 <= acc -> acc + zsum ns <= max_i64 ->
  fold_left (fun s n => i64 (s + n)) ns acc = acc + zsum ns.
Proof.
  induction 1 as [|n ns Hn Hns IH]; intros acc Ha Hm; unfold zsum in *; cbn [foldr fold_left] in *;
    [lia|]. pose proof (zsum_nonneg ns Hns) as Hz. unfold zsum in Hz.
  rewrite i64_id by (unfold_int; lia). rewrite IH; lia.
Qed.

Lemma Forall_le_weaken a b l : b <= a -> Forall (Z.le a) l -> Forall (Z.le b) l.
Proof. intros Hab H. eapply Forall_impl; [exact H|]. intros x Hx. lia. Qed.

Lemma le_zsum ws : Forall (Z.le 0) ws -> Forall (fun w => w <= zsum ws) ws.
Proof.
  induction 1 as [|w ws Hw Hws IH]; [done|]. pose proof (zsum_nonneg ws Hws) as Hz.
  unfold zsum in *. cbn [foldr]. constructor; [lia|].
  eapply Forall_impl; [exact IH|]. cbn beta. intros x Hx. lia.
Qed.

(** The shares of positive weights. *)
Lemma shares_ok ws g :
  1 <= g -> common ws g -> Forall (Z.le 1) ws -> zsum ws <= max_i64 ->
  mapM (fun w => go_quot w g) ws = Ret (map (fun w => w / g) ws) /\
  Forall (Z.le 1) (map (fun w => w / g) ws) /\ zsum (map (fun w => w / g) ws) <= zsum ws.
Proof.
  intros Hg Hc Hp Hm. pose proof (le_zsum ws (Forall_le_weaken 1 0 ws ltac:(lia) Hp)) as Hws.
  assert (forall w, w ∈ ws -> 1 <= w / g <= w) as Hq.
  { intros w Hw. unfold common in Hc. rewrite Forall_forall in Hc, Hp. pose proof (Hp w Hw).
    destruct (Hc w Hw) as [k ->]. rewrite Z.div_mul by lia. nia. }
  rewrite Forall_forall in Hp, Hws. split_and!.
  - apply mapM_pure. intros w Hw. unfold go_quot.
    specialize (Hq w Hw). specialize (Hp w Hw). specialize (Hws w Hw). cbn beta in *.
    rewrite (proj2 (Z.eqb_neq g 0)), Z.quot_div_nonneg by lia.
    rewrite i64_id by (unfold_int; lia). done.
  - apply Forall_forall. intros x Hx. apply list_elem_of_In, in_map_iff in Hx as (w & <- & Hw).
    apply Hq. by apply list_elem_of_In.
  - clear -Hq. unfold zsum. induction ws as [|w ws IH]; [done|]. cbn [map foldr].
    pose proof (Hq w ltac:(left)). opose proof (IH _) as HI; [|lia].
    intros v Hv. apply Hq. by right.
Qed.

Lemma init_queue_ok ws :
  ws <> [] -> Forall (Z.le 1) ws -> zsum ws <= max_i64 ->
  exists g q, gcd ws = Ret g /\ init_queue Intn ws = Ret q /\
    q ≡ₚ shares_queue (map (fun w => w / g) ws) /\
    Forall (Z.le 1) (map (fun w => w / g) ws) /\ 0 < zlen q.
Proof.
  intros N Hp Hm. destruct (gcd_ok ws N Hp) as (g & E & Hg & Hc & _). exists g.
  destruct (shares_ok ws g Hg Hc Hp Hm) as (Em & Hn1 & Hs).
  assert (map (fun w => w / g) ws <> []) as Nn by (by destruct ws).
  set (ns := map _ ws) in *.
  pose proof (Forall_le_weaken 1 0 ns ltac:(lia) Hn1) as Hn.
  assert (0 < zsum ns) as Hs0.
  { destruct Hn1 as [|n ns' H1 H2]; [done|]. inversion Hn; subst.
    pose proof (zsum_nonneg ns' ltac:(done)). unfold zsum in *. cbn [foldr]. lia. }
  assert (zlen (shares_queue ns) = zsum ns) as Hl by by apply concat_replicate_length.
  unfold init_queue. rewrite E. cbn [mbind outcome_bind]. rewrite Em. cbn [mbind outcome_bind].
  rewrite i64_sum by (done || lia). rewrite Z.add_0_l, (proj2 (Z.ltb_ge _ 0)) by lia.
  fold (shares_queue ns). destruct (1 <? zlen ws).
  - destruct (shuffle_perm (Z.to_nat (zsum ns)) 0 (zsum ns) (shares_queue ns) Hl) as (q & -> & P);
      [lia|]. exists q. split_and!; try done. unfold zlen in *. rewrite P. lia.
  - eexists. split_and!; try done. lia.
Qed.

(** * A round of calls *)

(** One call on a group whose position is in the queue. *)
Lemma next_in_ok g i cp :
  0 <= last g < zlen (queue g) -> index (queue g) (last g) = Ret i ->
  index (pools g) i = Ret cp ->
  next_in g = (mkGroup (pools g) (weights g) ((last g + 1) mod zlen (queue g)) (queue g), Ret cp).
Proof.
  intros Hl Hi Hc. unfold next_in. rewrite (proj2 (Z.eqb_neq _ 0)) by lia.
  destruct (zlen (queue g) =? 1) eqn:E1.
  - assert (last g = 0) as E0 by lia. rewrite E0 in Hi. rewrite Hi. cbn [mbind outcome_bind].
    rewrite Hc. f_equal. apply Z.eqb_eq in E1. rewrite E1, Z.mod_1_r. destruct g. cbn in *. by subst.
  - cbn [queue pools weights]. rewrite Z.rem_small, Hi by lia. apply index_Ret in Hc as Hc'.
    destruct Hc' as [Hi0 Hi1]. apply lookup_lt_Some in Hi1.
    rewrite (proj2 (Z.leb_gt _ _)), Hc by (unfold zlen; lia).
    by rewrite Z.rem_mod_nonneg by lia.
Qed.

Definition at_last (s : Slice) (l : Z) : Slice :=
  set_Slaves s (mkGroup (pools (Slaves s)) (weights (Slaves s)) l (queue (Slaves s))).

(** The calls up to the end of the queue follow it. *)
Lemma calls_follow_queue s n (l : nat) picks :
  (l + n = length (queue (Slaves s)))%nat ->
  Forall2 (fun i cp => index (pools (Slaves s)) i = Ret cp) (drop l (queue (Slaves s))) picks ->
  0 < zlen (queue (Slaves s)) ->
  calls getNextSlave n (at_last s (Z.of_nat l mod zlen (queue (Slaves s)))) =
    Ret (picks, at_last s 0).
Proof.
  revert l picks. induction n as [|n IH]; intros l picks Hl HF Hq.
  { rewrite drop_ge in HF by lia. inversion HF; subst. cbn [calls]. do 3 f_equal.
    unfold zlen. rewrite <- Hl, Nat.add_0_r. apply Z.mod_same. unfold zlen in Hq. lia. }
  destruct (lookup_lt_is_Some_2 (queue (Slaves s)) l) as [i Hi]; [lia|].
  rewrite (drop_S _ _ _ Hi) in HF. inversion HF as [|? cp ? picks' Hcp HF']; subst.
  assert (Z.of_nat l < zlen (queue (Slaves s))) as Hll by (unfold zlen; lia).
  cbn [calls]. unfold getNextSlave at 1.
  rewrite (next_in_ok _ i cp); cbn; rewrite ?Z.mod_small by lia; [|lia| |done].
  - cbn [mbind outcome_bind]. specialize (IH (S l) picks' ltac:(lia) HF' Hq).
    unfold at_last, set_Slaves in IH |- *. cbn in IH |- *.
    replace (Z.of_nat l + 1) with (Z.of_nat (S l)) by lia. by rewrite IH.
  - apply index_Ret. rewrite Nat2Z.id. split; [lia|done].
Qed.

Lemma picks_of_shares (ps : list ConnectionPool) (ns : list Z) (k : nat) pre :
  length ps = length ns -> length pre = k ->
  Forall2 (fun i cp => index (pre ++ ps) i = Ret cp)
    (concat (imap (fun i n => replicate (Z.to_nat n) (Z.of_nat (k + i))) ns))
    (concat (zip_with (fun n p => replicate (Z.to_nat n) p) ns ps)).
Proof.
  revert ps k pre. induction ns as [|n ns IH]; intros [|p ps] k pre Hl Hk; try done.
  rewrite imap_cons. cbn [concat zip_with]. apply Forall2_app.
  - rewrite Nat.add_0_r. apply Forall2_replicate. apply index_Ret. rewrite Nat2Z.id.
    split; [lia|]. by rewrite lookup_app_r, Hk, Nat.sub_diag by lia.
  - specialize (IH ps (S k) (pre ++ [p])). rewrite <- app_assoc in IH. cbn [app] in IH.
    cbn in Hl. unfold compose. rewrite (imap_ext _
      (fun i n => replicate (Z.to_nat n) (Z.of_nat (S k + i)))).
    + apply IH; [lia|]. rewrite length_app. cbn. lia.
    + intros i x _. cbn beta. by rewrite <- Nat.add_succ_comm.
Qed.

Lemma Forall2_perm_l {A B} (R : A -> B -> Prop) l l' k :
  l' ≡ₚ l -> Forall2 R l k -> exists k', k' ≡ₚ k /\ Forall2 R l' k'.
Proof.
  intros P H. symmetry in P. revert k H.
  induction P as [|x l l' P IH|x y l|l1 l2 l3 P1 IH1 P2 IH2]; intros k H.
  - by exists k.
  - inversion H; subst. destruct (IH _ ltac:(done)) as (k' & Pk & Hk). eexists (_ :: k').
    split; [by rewrite Pk|by constructor].
  - inversion H as [|? ? ? ? H1 H2]; subst. inversion H2; subst.
    eexists (_ :: _ :: _). split; [apply Permutation_swap|by repeat constructor].
  - destruct (IH1 _ H) as (k1 & Pk1 & H1). destruct (IH2 _ H1) as (k2 & Pk2 & H2).
    exists k2. split; [by rewrite Pk2|done].
Qed.

(** C40: weighted round robin: after the initialisation, as many calls of
    [getNextSlave] as the queue is long return every slave exactly
    [weight/gcd] times, whatever the random draws were, and leave the slice
    ready to repeat the same round. *)
Theorem round_robin_fair s :
  weights (Slaves s) <> [] -> Forall (Z.le 1) (weights (Slaves s)) ->
  zsum (weights (Slaves s)) <= max_i64 -> length (pools (Slaves s)) = length (weights (Slaves s)) ->
  exists g s' picks, gcd (weights (Slaves s)) = Ret g /\ initBalancer Intn s = Ret s' /\
    calls getNextSlave (length (queue (Slaves s'))) s' = Ret (picks, s') /\
    picks ≡ₚ concat (zip_with (fun w p => replicate (Z.to_nat (w / g)) p)
                       (weights (Slaves s)) (pools (Slaves s))).
Proof.
  intros N Hp Hm Hlen. destruct (init_queue_ok _ N Hp Hm) as (g & q & E & Eq & P & Hn & Hq).
  set (ns := map _ _) in *.
  destruct (Forall2_perm_l _ _ q _ P (picks_of_shares (pools (Slaves s)) ns 0 []
              ltac:(subst ns; by rewrite length_map) eq_refl)) as (picks & Pp & HF).
  exists g. unfold initBalancer, init_group. rewrite Eq. cbn [mbind outcome_bind].
  eexists _, picks. split_and!; [done|done| |].
  - cbn [Slaves queue].
    pose proof (calls_follow_queue
      (set_Slaves s (mkGroup (pools (Slaves s)) (weights (Slaves s)) 0 q)) (length q) 0 picks) as C.
    cbn in C. rewrite Z.mod_0_l in C by lia. apply C; done.
  - rewrite Pp. subst ns. rewrite <- (map_id (pools (Slaves s))) at 1.
    rewrite zip_with_fmap_l. by rewrite map_id.
Qed.

End Queue.

(** * Slices of a namespace *)

(** An entry keeps the groups aligned. *)
Lemma parse_nodes_length s es : forall g g',
  parse_nodes s g es = Ret g' -> length (pools g) = length (weights g) ->
  length (pools g') = length (weights g') /\ length (weights g') = (length (weights g) + length es)%nat.
Proof.
  induction es as [|e es IH]; intros g g' E Hl; cbn [parse_nodes] in E.
  - injection E as <-. split; [done|]. cbn. lia.
  - invert_ret. destruct a as [a w]. invert_ret. apply IH in E; cbn in *.
    + rewrite length_app in E. cbn in E. lia.
    + rewrite !length_app. cbn. lia.
Qed.

Lemma parse_dc_nodes_last s es : forall g g',
  parse_dc_nodes s g es = Ret g' -> es <> [] -> weights (Slaves s) = [] ->
  (exists w, weights g' = [w]) /\ exists cps, pools g' = pools g ++ cps /\ cps <> [].
Proof.
  induction es as [|e es IH]; intros g g' E N Hw; [done|]. cbn [parse_dc_nodes] in E.
  invert_ret. destruct a as [a w]. invert_ret. destruct es as [|e' es].
  - injection E as <-. cbn. rewrite Hw. split; [by exists w|]. by eexists.
  - apply IH in E as ((w' & Ew) & cps & Ep & _); [|done|done]. split; [by exists w'|].
    cbn in Ep. rewrite Ep, <- app_assoc. by eexists.
Qed.

Lemma init_queue_single Intn w : 0 < w -> init_queue Intn [w] = Ret [0].
Proof.
  intros Hw. assert (gcd [w] = Ret w) as E.
  { unfold gcd. change (index [w] 0) with (Ret w). cbn [mbind outcome_bind fold_left].
    rewrite Z.ltb_irrefl. cbn [gcd_loop]. rewrite is_common_spec by lia.
    cbn [forallb mbind outcome_bind]. by rewrite Z.rem_same by lia. }
  unfold init_queue. rewrite E. cbn [mbind outcome_bind mapM]. unfold go_quot.
  rewrite (proj2 (Z.eqb_neq w 0)), Z.quot_same by lia. reflexivity.
Qed.

Lemma ParseSlave_MasterDC Intn s es s' :
  ParseSlave Intn s es = Ret s' -> MasterDC s' = MasterDC s.
Proof.
  unfold ParseSlave, initBalancer. intros E. invert_ret; [done|]. done.
Qed.

Lemma ParseStatisticSlave_MasterDC Intn s es s' :
  ParseStatisticSlave Intn s es = Ret s' -> MasterDC s' = MasterDC s.
Proof.
  unfold ParseStatisticSlave, initStatisticSlaveBalancer. intros E. invert_ret; [done|]. done.
Qed.

Lemma ParseMasterDCSlave_first Intn s es s' :
  ParseMasterDCSlave Intn s es = Ret s' -> es <> [] -> weights (Slaves s) = [] ->
  exists w cp, weights (MasterDC s') = [w] /\ index (pools (MasterDC s')) 0 = Ret cp /\
    init_queue Intn [w] = Ret (queue (MasterDC s')).
Proof.
  intros E N Hw. unfold ParseMasterDCSlave, initMasterDCBalancer, init_group in E. invert_ret.
  - destruct es; [done|]. rewrite zlen_cons in *. pose proof (zlen_nonneg es). lia.
  - match goal with H : parse_dc_nodes _ _ _ = _ |- _ =>
      apply parse_dc_nodes_last in H as ((w & Ew) & cps & Ep & Nc); [|done|done] end.
    cbn in *. destruct cps as [|cp cps]; [done|]. exists w, cp. rewrite Ew in *. cbn in *.
    rewrite Ep. split_and!; try done.
Qed.

(** Whatever slaves and weights the master's data centre is configured with,
    the weights of a started slice are just the last one, and when it is
    positive every read there goes to the first slave: each weight was appended
    to the weights of another group, which is still empty. *)
Theorem master_dc_uses_first Intn cfg cs col masterDC forceMaster s :
  parseSlice Intn cfg cs col masterDC forceMaster = Ret s -> models.Slaves cfg <> [] ->
  exists w, weights (MasterDC s) = [w] /\
    (0 < w -> exists cp, index (pools (MasterDC s)) 0 = Ret cp /\
                getNextMasterDCSlave s = (s, Ret cp)).
Proof.
  intros E N. unfold parseSlice in E. invert_ret.
  match goal with
  | H1 : ParseMaster _ _ = Ret ?s1, H2 : ParseMasterDCSlave _ _ _ = Ret ?s2 |- _ =>
      apply ParseMasterDCSlave_first in H2 as (w & cp & Ew & Ep & Eq); [|done|];
      [|unfold ParseMaster in H1; invert_ret; done] end.
  apply ParseStatisticSlave_MasterDC in E.
  match goal with H : ParseSlave _ _ _ = _ |- _ => apply ParseSlave_MasterDC in H end.
  assert (MasterDC s = MasterDC a0) as EM by congruence. rewrite <- EM in *.
  exists w. split; [done|]. intros Hw.
  rewrite init_queue_single in Eq by lia. injection Eq as Eq.
  exists cp. split; [done|]. unfold getNextMasterDCSlave, next_in. rewrite <- Eq.
  change (zlen [0]) with 1. change (index [0] 0) with (@Ret Z 0).
  cbn [Z.eqb Pos.eqb mbind outcome_bind]. rewrite Ep. by destruct s.
Qed.

(** * Witnesses *)

Definition intn_demo (i : nat) (n : Z) : Z := (Z.of_nat i * 7 + 3) mod n.

Lemma intn_demo_range i n : 0 < n -> 0 <= intn_demo i n < n.
Proof. intros Hn. by apply Z.mod_pos_bound. Qed.

Definition slice_demo : models.Slice :=
  models.mk_Slice "slice-0" "u" "p" "m:3306" ["a:1@4"; "b:1@6"] [] "" ["c:1@0"] 16 32 60.

Definition pool_demo (a : string) : ConnectionPool :=
  mkConnectionPool a "u" "p" "" 16 32 (60 * 1000000000) "utf8" 33 true.

Definition slaves_demo : Slice :=
  mkSlice slice_demo "utf8" 33 None no_group
    (mkGroup [pool_demo "a:1"; pool_demo "b:1"] [4; 6] 0 []) no_group.

Lemma round_robin_fair_witness :
  exists g s' picks, gcd [4; 6] = Ret g /\ initBalancer intn_demo slaves_demo = Ret s' /\
    calls getNextSlave (length (queue (Slaves s'))) s' = Ret (picks, s') /\
    picks ≡ₚ concat (zip_with (fun w p => replicate (Z.to_nat (w / g)) p)
                       [4; 6] [pool_demo "a:1"; pool_demo "b:1"]).
Proof.
  apply (round_robin_fair intn_demo intn_demo_range slaves_demo).
  - discriminate.
  - repeat constructor; lia.
  - vm_compute. discriminate.
  - reflexivity.
Defined.

Lemma zero_weight_panics_witness :
  initBalancer intn_demo (set_Slaves slaves_demo (mkGroup [] [0; 3] 0 [])) = Panic divide_by_zero.
Proof.
  apply (zero_weight_panics intn_demo (set_Slaves slaves_demo (mkGroup [] [0; 3] 0 []))).
  - left.
  - repeat constructor; lia.
Defined.

Definition master_dc_demo : Slice :=
  mkSlice slice_demo "utf8" 33 (Some (pool_demo "m:3306"))
    (mkGroup [pool_demo "a:1"; pool_demo "b:1"] [6] 0 [0])
    (mkGroup [pool_demo "a:1"; pool_demo "b:1"] [4; 6] 0 [1; 1; 1; 0; 0])
    no_group.

Lemma master_dc_uses_first_witness :
  exists w, weights (MasterDC master_dc_demo) = [w] /\
    (0 < w -> exists cp, index (pools (MasterDC master_dc_demo)) 0 = Ret cp /\
                getNextMasterDCSlave master_dc_demo = (master_dc_demo, Ret cp)).
Proof.
  apply (master_dc_uses_first intn_demo slice_demo "utf8" 33 true false master_dc_demo).
  - vm_compute. reflexivity.
  - discriminate.
Defined.

(** [getNextStatisticSlave] moves the position of the read slaves. *)
Example statistic_moves_reads :
  let g := mkGroup [pool_demo "a:1"; pool_demo "b:1"] [1; 1] 1 [0; 1] in
  let s := mkSlice slice_demo "utf8" 33 None no_group
             (mkGroup [pool_demo "a:1"; pool_demo "b:1"] [1; 1] 0 [0; 1]) g in
  last (Slaves (getNextStatisticSlave s).1) = 1.
Proof. reflexivity. Qed.
