(* ===== verification/Merge.v ===== *)
(** proxy/plan/merge_result.go, proxy/plan/decorator_limit.go and
    mysql/resultset_sort.go: the results of the shards are merged into one.
    Rows are lists of values; of the columns only the names matter here. The raw
    row data of the shards travels beside the values in the code and is rebuilt
    from them at the end, so only the rebuilt rows are modelled. *)

From Stdlib Require Import Ascii String.
From S2P Require Import Prelude GoStr Hack Encoding.

(** * Libraries the merging calls *)

(** [strconv.ParseFloat(s, 64)] and [strconv.AppendFloat(nil, f, 'f', -1, 64)]. *)
Class FloatText := {
  ParseFloat : string -> outcome spec_float;
  FormatFloat : spec_float -> string;
}.

(** [sort.Sort]; its comparison may panic. *)
Class GoSort := go_sort : forall {A}, (A -> A -> outcome bool) -> list A -> outcome (list A).

(** [lt] is a strict weak order of the elements of [l]. *)
Record weak_order {A} (lt : A -> A -> bool) (l : list A) : Prop := {
  wo_irrefl x : x ∈ l -> lt x x = false;
  wo_trans x y z : x ∈ l -> y ∈ l -> z ∈ l -> lt x y = true -> lt y z = true -> lt x z = true;
  wo_total x y z : x ∈ l -> y ∈ l -> z ∈ l -> lt x y = false -> lt y z = false -> lt x z = false;
}.

Definition sorted_by {A} (lt : A -> A -> bool) (l : list A) : Prop :=
  StronglySorted (fun x y => lt y x = false) l.

(** With a comparison that returns and orders the elements, [sort.Sort] returns
    them sorted. *)
Class GoSortOk `{GoSort} : Prop :=
  go_sort_ok : forall A (less : A -> A -> outcome bool) (lt : A -> A -> bool) l,
    (forall x y, x ∈ l -> y ∈ l -> less x y = Ret (lt x y)) -> weak_order lt l ->
    exists l', go_sort less l = Ret l' /\ l' ≡ₚ l /\ sorted_by lt l'.

(** * Floats *)

(** [float64(z)] *)
Definition float_of_int (z : Z) : spec_float := binary_normalize 53 1024 z 0 false.

(** The integer part of a finite float. *)
Definition float_trunc (f : spec_float) : option Z :=
  match f with
  | S754_zero _ => Some 0
  | S754_finite s m e =>
      let n := if 0 <=? e then Z.shiftl (Zpos m) e else Z.shiftr (Zpos m) (- e) in
      Some (if s then - n else n)
  | _ => None
  end.

(** [int64(f)]; amd64 yields the smallest integer when the value does not fit. *)
Definition float_to_i64 (f : spec_float) : Z :=
  match float_trunc f with
  | Some z => if decide (is_i64 z) then z else min_i64
  | None => min_i64
  end.

(** [uint64(f)]: on amd64 values from [2^63] are converted after subtracting it. *)
Definition two63 : spec_float := float_of_int (2 ^ 63).
Definition float_to_u64 (f : spec_float) : Z :=
  if SFltb f two63 then u64 (float_to_i64 f)
  else Z.lxor (u64 (float_to_i64 (SFsub 53 1024 f two63))) (2 ^ 63).

(** * Rows and aggregate functions *)

Abbreviation ResultRow := (list gval).

Section Merge.
Context {FT : FloatText}.

Definition GetInt (r : ResultRow) (column : Z) : outcome Z :=
  d ← index r column;
  match d with
  | GInt KUint64 v => Ret (i64 v)
  | GInt KInt64 v => Ret v
  | GFloat64 v => Ret (float_to_i64 v)
  | GString v | GBytes v => ParseInt v
  | GNil => Ret 0
  | _ => Err (Errorf "data type is %T")
  end.

Definition GetUint (r : ResultRow) (column : Z) : outcome Z :=
  d ← index r column;
  match d with
  | GInt KUint64 v => Ret v
  | GInt KInt64 v => Ret (u64 v)
  | GFloat64 v => Ret (float_to_u64 v)
  | GString v | GBytes v => ParseUint v
  | GNil => Ret 0
  | _ => Err (Errorf "data type is %T")
  end.

Definition GetFloat (r : ResultRow) (column : Z) : outcome spec_float :=
  d ← index r column;
  match d with
  | GFloat64 v => Ret v
  | GInt KUint64 v => Ret (float_of_int v)
  | GInt KInt64 v => Ret (float_of_int v)
  | GString v | GBytes v => ParseFloat v
  | GNil => Ret (S754_zero false)
  | _ => Err (Errorf "data type is %T")
  end.

Inductive funcType := FCount | FSum | FMax | FMin.

Record AggregateFuncMerger := mkMerger { func : funcType; fieldIndex : Z }.

Definition CreateAggregateFunctionMerger (ft : string) (fieldIndex : Z) :
    outcome AggregateFuncMerger :=
  let f := ToLower ft in
  if String.eqb f "count" then Ret (mkMerger FCount fieldIndex)
  else if String.eqb f "sum" then Ret (mkMerger FSum fieldIndex)
  else if String.eqb f "max" then Ret (mkMerger FMax fieldIndex)
  else if String.eqb f "min" then Ret (mkMerger FMin fieldIndex)
  else Err (Errorf "aggregate function type is not support: %s").

Definition get_from {A} : outcome A -> outcome A := wrap "get from int value error: %v".
Definition get_to {A} : outcome A -> outcome A := wrap "get to int value error: %v".

(** [originValue + valueToMerge] as int64; COUNT and SUM of an int64 share it. *)
Definition sumToInt64 (idx : Z) (from to : ResultRow) : outcome ResultRow :=
  v ← get_from (GetInt from idx); o ← get_to (GetInt to idx);
  store to idx (GInt KInt64 (i64 (o + v))).

Definition sumToUint64 (idx : Z) (from to : ResultRow) : outcome ResultRow :=
  v ← get_from (GetUint from idx); o ← get_to (GetUint to idx);
  store to idx (GInt KUint64 (u64 (o + v))).

Definition sumToFloat64 (idx : Z) (from to : ResultRow) : outcome ResultRow :=
  v ← get_from (GetFloat from idx); o ← get_to (GetFloat to idx);
  store to idx (GFloat64 (SFadd 53 1024 o v)).

Definition SumMergeTo (idx : Z) (from to : ResultRow) : outcome ResultRow :=
  f ← index from idx;
  match f with
  | GNil => Ret to
  | _ =>
      t ← index to idx;
      match t with
      | GInt KInt64 _ => sumToInt64 idx from to
      | GInt KUint64 _ => sumToUint64 idx from to
      | GFloat64 _ | GString _ | GBytes _ | GNil => sumToFloat64 idx from to
      | _ => Err (Errorf "cannot sum value %v (%T) to %v (%T)")
      end
  end.

Definition type_assertion : string := "interface conversion".

(** The comparisons of MAX and MIN: whether [f] replaces [t]; the type of [f]
    must be that of [t]. *)
Definition value_gt (f t : gval) : outcome bool :=
  match t with
  | GInt KInt64 b =>
      match f with GInt KInt64 a => Ret (b <? a) | _ => Panic type_assertion end
  | GInt KUint64 b =>
      match f with GInt KUint64 a => Ret (b <? a) | _ => Panic type_assertion end
  | GFloat64 b =>
      match f with GFloat64 a => Ret (SFltb b a) | _ => Panic type_assertion end
  | GString b =>
      match f with GString a => Ret (sltb b a) | _ => Panic type_assertion end
  | _ => Err (Errorf "cannot compare value %v (%T) to %v (%T)")
  end.

Definition value_lt (f t : gval) : outcome bool :=
  match t with
  | GInt KInt64 b =>
      match f with GInt KInt64 a => Ret (a <? b) | _ => Panic type_assertion end
  | GInt KUint64 b =>
      match f with GInt KUint64 a => Ret (a <? b) | _ => Panic type_assertion end
  | GFloat64 b =>
      match f with GFloat64 a => Ret (SFltb a b) | _ => Panic type_assertion end
  | GString b =>
      match f with GString a => Ret (sltb a b) | _ => Panic type_assertion end
  | _ => Err (Errorf "cannot compare value %v (%T) to %v (%T)")
  end.

(** MAX with [value_gt], MIN with [value_lt]. *)
Definition ExtremeMergeTo (better : gval -> gval -> outcome bool) (idx : Z)
    (from to : ResultRow) : outcome ResultRow :=
  f ← index from idx;
  t ← index to idx;
  match f, t with
  | GNil, _ => Ret to
  | _, GNil => store to idx f
  | _, _ => b ← better f t; if (b : bool) then store to idx f else Ret to
  end.

Definition MergeTo (a : AggregateFuncMerger) (from to : ResultRow) : outcome ResultRow :=
  let idx := fieldIndex a in
  if (zlen from <=? idx) || (zlen to <=? idx) then Err (Errorf "field index out of bound: %d")
  else match func a with
       | FCount => sumToInt64 idx from to
       | FSum => SumMergeTo idx from to
       | FMax => ExtremeMergeTo value_gt idx from to
       | FMin => ExtremeMergeTo value_lt idx from to
       end.

(** * Results and plans *)

Record Result := mkResult {
  Status : Z; InsertID : Z; AffectedRows : Z;
  Fields : list string;
  Values : list ResultRow;
}.

Definition set_Values (r : Result) (vs : list ResultRow) : Result :=
  mkResult (Status r) (InsertID r) (AffectedRows r) (Fields r) vs.

(** The fields of a SelectPlan the merging reads; [hasGroupBy] is
    [stmt.GroupBy != nil]. [aggregateFuncs] holds the mergers in the order in
    which the map is visited. *)
Record SelectPlan := mkSelectPlan {
  distinct : bool;
  hasGroupBy : bool;
  groupByColumn : list Z;
  orderByColumn : list Z;
  orderByDirections : list bool;
  originColumnCount : Z;
  columnCount : Z;
  aggregateFuncs : list AggregateFuncMerger;
  offset : Z;
  count : Z;
}.

Definition HasLimit (p : SelectPlan) : bool := negb (count p =? -1).
Definition HasOrderBy (p : SelectPlan) : bool := negb (zlen (orderByDirections p) =? 0).

(** [len(r.Fields) - p.GetColumnCount()] *)
Definition deltaColumnCount (p : SelectPlan) (r : Result) : Z := zlen (Fields r) - columnCount p.

Definition exec_step (r v : Result) : Result :=
  mkResult (Z.lor (Status r) (Status v))
    (if InsertID r =? 0 then InsertID v
     else if negb (InsertID v =? 0) && (InsertID v <? InsertID r) then InsertID v
     else InsertID r)
    (u64 (AffectedRows r + AffectedRows v)) (Fields r) (Values r).

Definition MergeExecResult (rs : list Result) : Result :=
  fold_left exec_step rs (mkResult 0 0 0 [] []).

(** The results of an empty list are never merged: [rs[0]] would panic. *)
Definition mergeMultiResultSet (rs : list Result) : outcome Result :=
  match rs with
  | [] => Panic "index out of range"
  | r :: rs' =>
      Ret (fold_left (fun a b =>
             mkResult (Z.lor (Status a) (Status b)) (InsertID a) (AffectedRows a) (Fields a)
               (Values a ++ Values b)) rs' r)
  end.

(** * Keys of rows *)

Definition formatValue (v : gval) : outcome string :=
  match v with
  | GNil => Ret "NULL"
  | GInt (KInt8 | KInt16 | KInt32 | KInt64 | KInt) z => Ret (FormatInt z)
  | GInt _ z => Ret (FormatUint z)
  | GFloat32 f | GFloat64 f => Ret (FormatFloat f)
  | GBytes s | GString s => Ret s
  | GOther _ => Err (Errorf "invalid type %T")
  end%string.

Fixpoint generateMapKey (groupColumns : list gval) : outcome string :=
  match groupColumns with
  | [] => Ret ""
  | v :: vs =>
      b ← formatValue v; k ← generateMapKey vs;
      Ret (String.append b (String.append "+" k))
  end%string.

(** * DISTINCT *)

(** The first loop: the positions of the rows whose key was seen before. *)
Fixpoint dup_loop (colCnt : Z) (i : Z) (seen : gset string) (rows : list ResultRow)
    {struct rows} : outcome (list Z) :=
  match rows with
  | [] => Ret []
  | row :: rows' =>
      keySlice ← reslice row 0 colCnt;
      mk ← generateMapKey keySlice;
      rest ← dup_loop colCnt (i + 1) ({[mk]} ∪ seen) rows';
      Ret (if decide (mk ∈ seen) then i :: rest else rest)
  end.

(** The second loop: the rows whose position is not listed. *)
Fixpoint remove_rows (i : Z) (rowToRemove : list Z) (rows : list ResultRow) {struct rows} :
    list ResultRow :=
  match rows with
  | [] => []
  | row :: rows' =>
      match rowToRemove with
      | [] => rows
      | j :: js => if i =? j then remove_rows (i + 1) js rows'
                   else row :: remove_rows (i + 1) rowToRemove rows'
      end
  end.

Definition removeDistinctRowInResult (p : SelectPlan) (r : Result) : outcome Result :=
  let colCnt := originColumnCount p + deltaColumnCount p r in
  rowToRemove ← dup_loop colCnt 0 ∅ (Values r);
  if zlen rowToRemove =? 0 then Ret r
  else Ret (set_Values r (remove_rows 0 rowToRemove (Values r))).

(** * GROUP BY and aggregates *)

(** All mergers of the plan on one row. *)
Definition merge_row (fs : list AggregateFuncMerger) (from to : ResultRow) : outcome ResultRow :=
  foldl (fun acc f => to ← acc; wrap "MergeTo error, func: %v, value: %v, err: %v" (MergeTo f from to))
    (Ret to) fs.

Fixpoint group_loop (p : SelectPlan) (delta : Z) (rows : list ResultRow)
    (resultMap : gmap string ResultRow) {struct rows} : outcome (gmap string ResultRow) :=
  match rows with
  | [] => Ret resultMap
  | v :: rows' =>
      keySlice ← mapM (fun idx => index v (idx + delta)) (groupByColumn p);
      mk ← generateMapKey keySlice;
      match resultMap !! mk with
      | None => group_loop p delta rows' (<[mk := v]> resultMap)
      | Some cur =>
          cur' ← merge_row (aggregateFuncs p) v cur;
          group_loop p delta rows' (<[mk := cur']> resultMap)
      end
  end.

(** [ks] is the order in which the map is visited. *)
Definition buildResultFromResultMap (r : Result) (resultMap : gmap string ResultRow)
    (ks : list string) : Result :=
  if Z.of_nat (size resultMap) =? 0 then r
  else set_Values r (omap (fun k => resultMap !! k) ks).

(** [order] gives the order in which a map is visited. *)
Context (order : gmap string ResultRow -> list string).

Definition buildSelectGroupByResult (p : SelectPlan) (r : Result) : outcome Result :=
  m ← group_loop p (deltaColumnCount p r) (Values r) ∅;
  Ret (buildResultFromResultMap r m (order m)).

(** [currRet] is nil when there is no row. *)
Definition buildSelectOnlyResult (p : SelectPlan) (rs : Result) : outcome Result :=
  if zlen (aggregateFuncs p) =? 0 then Ret rs
  else
    currRet ← match Values rs with
              | [] => Ret []
              | v :: vs => foldl (fun acc from => to ← acc; merge_row (aggregateFuncs p) from to)
                             (Ret v) vs
              end;
    Ret (set_Values rs [currRet]).

(** * ORDER BY *)

Record SortKey := mkSortKey { Desc : bool; Column : Z }.

Definition three_way (lt gt : bool) : Z := if lt then -1 else if gt then 1 else 0.

(** [bytes.Compare] *)
Definition bytes_compare (a b : string) : Z := three_way (sltb a b) (sltb b a).

Definition cmpValue (v1 v2 : gval) : outcome Z :=
  match v1, v2 with
  | GNil, GNil => Ret 0
  | GNil, _ => Ret (-1)
  | _, GNil => Ret 1
  | GString a, GString b => Ret (bytes_compare a b)
  | GBytes a, GBytes b => Ret (bytes_compare a b)
  | GInt KInt64 a, GInt KInt64 b => Ret (three_way (a <? b) (b <? a))
  | GInt KUint64 a, GInt KUint64 b => Ret (three_way (a <? b) (b <? a))
  | GFloat64 a, GFloat64 b => Ret (three_way (SFltb a b) (SFltb b a))
  | (GString _ | GBytes _ | GInt (KInt64 | KUint64) _ | GFloat64 _), _ => Panic type_assertion
  | _, _ => Panic "invalid type %T"
  end.

Fixpoint Less (sk : list SortKey) (v1 v2 : ResultRow) {struct sk} : outcome bool :=
  match sk with
  | [] => Ret false
  | k :: sk' =>
      a ← index v1 (Column k); b ← index v2 (Column k);
      v ← cmpValue a b;
      let v := if Desc k then - v else v in
      if v <? 0 then Ret true else if 0 <? v then Ret false else Less sk' v1 v2
  end.

Context {GS : GoSort}.

Definition SortWithoutColumnName (r : Result) (sk : list SortKey) : outcome Result :=
  vs ← go_sort (Less sk) (Values r); Ret (set_Values r vs).

Fixpoint sort_keys (delta : Z) (columns : list Z) (dirs : list bool) {struct dirs} :
    outcome (list SortKey) :=
  match dirs with
  | [] => Ret []
  | d :: ds =>
      c ← index columns 0;
      ks ← sort_keys delta (drop 1 columns) ds;
      Ret (mkSortKey d (c + delta) :: ks)
  end.

Definition sortSelectResult (p : SelectPlan) (ret : Result) : outcome Result :=
  if negb (HasOrderBy p) then Ret ret
  else
    sk ← sort_keys (deltaColumnCount p ret) (orderByColumn p) (orderByDirections p);
    SortWithoutColumnName ret sk.

(** * LIMIT *)

Definition limitSelectResult (p : SelectPlan) (ret : Result) : outcome Result :=
  if negb (HasLimit p) then Ret ret
  else
    let start := offset p in
    let rowLen := zlen (Values ret) in
    let end_ := MinInt64 (i64 (start + count p)) rowLen in
    if rowLen <=? start then Ret (set_Values ret [])
    else vs ← reslice (Values ret) start end_; Ret (set_Values ret vs).

(** * The merged result *)

Definition trimExtraFields (p : SelectPlan) (r : Result) : outcome Result :=
  let e := deltaColumnCount p r + originColumnCount p in
  if e =? -1 then Ret r
  else
    fs ← reslice (Fields r) 0 e;
    vs ← mapM (fun v => reslice v 0 e) (Values r);
    Ret (mkResult (Status r) (InsertID r) (AffectedRows r) fs vs).

(** One row of the text protocol; [0xfb] is NULL. *)
Fixpoint row_data (vs : list gval) (row : list Z) {struct vs} : outcome (list Z) :=
  match vs with
  | [] => Ret row
  | GNil :: vs' => row_data vs' (row ++ [251])
  | v :: vs' => b ← formatValue v; row_data vs' (AppendLenEncStringBytes row (sbytes b))
  end.

Definition GenerateSelectResultRowData (r : Result) : outcome (list (list Z)) :=
  mapM (fun vs =>
    if negb (zlen vs =? zlen (Fields r)) then Err (Errorf "row %d has %d column not equal %d")
    else row_data vs []) (Values r).

(** The merged result with its rebuilt row data. *)
Definition MergeSelectResult (p : SelectPlan) (rs : list Result) :
    outcome (Result * list (list Z)) :=
  ret ← mergeMultiResultSet rs;
  ret ← (if distinct p then removeDistinctRowInResult p ret else Ret ret);
  ret ← (if hasGroupBy p then buildSelectGroupByResult p ret else buildSelectOnlyResult p ret);
  ret ← sortSelectResult p ret;
  ret ← limitSelectResult p ret;
  ret ← wrap "trimExtraFields error: %v" (trimExtraFields p ret);
  datas ← wrap "generate RowData error: %v" (GenerateSelectResultRowData ret);
  Ret (ret, datas).

(** decorator_limit.go and [handleLimit]: the offset and count of the plan and
    the count sent to the shards; [None] is a statement without LIMIT. *)
Definition NeedRewriteLimitOrCreateRewrite (limit : option (Z * option Z)) :
    bool * Z * Z * option (Z * option Z) :=
  match limit with
  | None => (false, -1, -1, None)
  | Some (count, None) => (false, 0, count, None)
  | Some (count, Some offset) =>
      if offset =? 0 then (false, 0, count, None)
      else (true, offset, count, Some (i64 (count + offset), None))
  end.

Definition handleLimit (p : SelectPlan) (limit : option (Z * option Z)) :
    SelectPlan * option (Z * option Z) :=
  let '(need, originOffset, originCount, newLimit) := NeedRewriteLimitOrCreateRewrite limit in
  (mkSelectPlan (distinct p) (hasGroupBy p) (groupByColumn p) (orderByColumn p)
     (orderByDirections p) (originColumnCount p) (columnCount p) (aggregateFuncs p)
     originOffset originCount,
   if (need : bool) then newLimit else limit).

(** plan.go: the result of a statement that is routed to no table; [fields] are
    the fields of the statement with the added columns, so [columnCount] is their
    number and never below [originColumnCount]. *)
Definition newEmptyResultset (p : SelectPlan) (fields : list string) : outcome Result :=
  let fieldLen := zlen fields - (columnCount p - originColumnCount p) in
  if fieldLen <? 0 then Panic "makeslice: len out of range"
  else if fieldLen <? zlen fields then Panic "index out of range"
  else Ret (mkResult 0 0 0 fields []).

End Merge.
