(* ===== verification/Resultset.v ===== *)
(** mysql/field.go, mysql/result.go, proxy/server/client_conn.go and
    backend/direct_connection.go: a result on the wire. The proxy writes results to
    its clients and reads those of the MySQL servers; both follow the text protocol, a
    packet with the number of columns, one per column, an EOF packet, one per row and
    an EOF packet. *)

From Stdlib Require Import Ascii String.
From S2P Require Import Prelude StateM GoStr Encoding Merge Packet PacketOk.

(** * Fields *)

(** [Data] is the packet the field was parsed from. *)
Record Field := mk_Field {
  Data : option (list Z);
  Schema : list Z; Table : list Z; OrgTable : list Z; Name : list Z; OrgName : list Z;
  Charset : Z; ColumnLength : Z; Type_ : Z; Flag : Z; Decimal : Z;
  DefaultValueLength : Z; DefaultValue : option (list Z) }.

(** [binary.LittleEndian.UintN(p[pos:])] *)
Definition le_uint (n : Z) (p : list Z) (pos : Z) : outcome Z :=
  rest ← reslice p pos (zlen p);
  if zlen rest <? n then Panic "index out of range" else Ret (le_or 0 (take (Z.to_nat n) rest)).

Definition ErrMalformPacket : error := Named "Malform packet error".

(** A reader that fails leaves zeros. *)
Definition or_zeros (o : outcome (option (Z * Z * bool))) : outcome (Z * Z) :=
  r ← o; Ret (match r with Some (v, pos, _) => (v, pos) | None => (0, 0) end).

Definition Parse (p : list Z) : outcome Field :=
  pos ← need "skipLenEncString in Parse failed" (skipLenEncString p 0);
  '(schema, pos, _) ← need "read Schema failed" (ReadLenEncStringAsBytes p pos);
  '(table, pos, _) ← need "read Table failed" (ReadLenEncStringAsBytes p pos);
  '(org_table, pos, _) ← need "read OrgTable failed" (ReadLenEncStringAsBytes p pos);
  '(name, pos, _) ← need "read Name failed" (ReadLenEncStringAsBytes p pos);
  '(org_name, pos, _) ← need "read OrgName failed" (ReadLenEncStringAsBytes p pos);
  let pos := pos + 1 in
  charset ← le_uint 2 p pos;
  let pos := pos + 2 in
  columnLength ← le_uint 4 p pos;
  let pos := pos + 4 in
  typ ← index p pos;
  let pos := pos + 1 in
  flag ← le_uint 2 p pos;
  let pos := pos + 2 in
  decimal ← index p pos;
  let pos := pos + 1 in
  let pos := pos + 2 in
  let f := mk_Field (Some p) schema table org_table name org_name charset columnLength typ flag decimal in
  if pos <? zlen p then
    '(len, pos) ← or_zeros (ReadLenEncInt p pos);
    if zlen p <? i64 (pos + i64 len) then Err ErrMalformPacket else
    dv ← reslice p pos (i64 (pos + i64 len)); Ret (f len (Some dv))
  else Ret (f 0 None).

(** The bytes of "def" *)
Definition def : list Z := [100; 101; 102].

Definition Dump (f : Field) : list Z :=
  match Data f with
  | Some d => d
  | None =>
      let data := AppendLenEncStringBytes [] def in
      let data := AppendLenEncStringBytes data (Schema f) in
      let data := AppendLenEncStringBytes data (Table f) in
      let data := AppendLenEncStringBytes data (OrgTable f) in
      let data := AppendLenEncStringBytes data (Name f) in
      let data := AppendLenEncStringBytes data (OrgName f) in
      let data := data ++ [12] in
      let data := AppendUint16 data (Charset f) in
      let data := AppendUint32 data (ColumnLength f) in
      let data := data ++ [Type_ f] in
      let data := AppendUint16 data (Flag f) in
      let data := data ++ [Decimal f] in
      let data := data ++ [0; 0] in
      match DefaultValue f with
      | Some dv => AppendUint64 data (DefaultValueLength f) ++ dv
      | None => data
      end
  end.

(** * Results *)

(** A field that was never set is a nil pointer. *)
Record Resultset := mk_Resultset {
  rs_Fields : list (option Field);
  FieldNames : gmap string Z;
  rs_Values : list ResultRow;
  RowDatas : list (list Z) }.

Record Result := mk_Result {
  r_Status : Z; r_InsertID : Z; r_AffectedRows : Z;
  r_Resultset : option Resultset }.

Definition UnsignedFlag : Z := Z.shiftl 1 5.

(** The types of columns, by what [ParseText] makes of their values. *)
Inductive column_kind := IntColumn | FloatColumn | TextColumn | OtherColumn.

Definition kind_of (typ : Z) : column_kind :=
  if decide (typ ∈ [1; 2; 3; 9; 8; 13]) then IntColumn
  else if decide (typ ∈ [4; 5; 246]) then FloatColumn
  else if decide (typ ∈ [15; 253; 254; 12; 10; 11; 7]) then TextColumn
  else OtherColumn.

Section text.
Context {FT : FloatText}.

Definition text_value (f : Field) (v : list Z) : outcome gval :=
  let isUnsigned := 0 <? Z.land (Flag f) UnsignedFlag in
  match kind_of (Type_ f) with
  | IntColumn => if isUnsigned then z ← ParseUint (of_bytes v); Ret (GInt KUint64 z)
                 else z ← ParseInt (of_bytes v); Ret (GInt KInt64 z)
  | FloatColumn => x ← ParseFloat (of_bytes v); Ret (GFloat64 x)
  | TextColumn => Ret (GString (of_bytes v))
  | OtherColumn => Ret (GBytes (of_bytes v))
  end.

Fixpoint parse_text (p : list Z) (pos : Z) (fs : list Field) : outcome ResultRow :=
  match fs with
  | [] => Ret []
  | f :: fs =>
      '(v, pos, isNull) ← need "ReadLenEncStringAsBytes in ParseText failed" (ReadLenEncStringAsBytes p pos);
      x ← (if (isNull : bool) then Ret GNil else text_value f v);
      xs ← parse_text p pos fs; Ret (x :: xs)
  end.

Definition ParseText (p : list Z) (fs : list Field) : outcome ResultRow := parse_text p 0 fs.
End text.

(** ** Building a result *)

Definition ErrInvalidArgument : error := Named "argument is invalid".

Definition BinaryFlag : Z := Z.shiftl 1 7.
Definition NotNullFlag : Z := Z.shiftl 1 0.

Definition set_type (f : Field) (charset typ flag : Z) : Field :=
  mk_Field (Data f) (Schema f) (Table f) (OrgTable f) (Name f) (OrgName f) charset (ColumnLength f) typ flag (Decimal f)
    (DefaultValueLength f) (DefaultValue f).

Definition formatField (field : Field) (value : gval) : outcome Field :=
  match value with
  | GInt (KInt8 | KInt16 | KInt32 | KInt64 | KInt) _ => Ret (set_type field 63 8 (Z.lor BinaryFlag NotNullFlag))
  | GInt _ _ => Ret (set_type field 63 8 (Z.lor (Z.lor BinaryFlag NotNullFlag) UnsignedFlag))
  | GFloat32 _ | GFloat64 _ => Ret (set_type field 63 5 (Z.lor BinaryFlag NotNullFlag))
  | GString _ | GBytes _ => Ret (set_type field 33 253 (Flag field))
  | GNil | GOther _ => Err (Errorf "unsupport type %T for resultset")
  end.

(** [&Field{}] with a name *)
Definition named_field (name : string) : Field := mk_Field None [] [] [] (sbytes name) [] 0 0 0 0 0 0 None.

Section build.
Context {FT : FloatText}.

(** A field of the first row; its place is recorded before it gets its name. *)
Definition build_field (fields : option (list (option Field))) (names : list string) (j : Z) (value : gval)
    (fs : list (option Field)) (fn : gmap string Z) : outcome (list (option Field) * gmap string Z) :=
  match fields with
  | Some fields =>
      f ← index fields j;
      fs ← store fs j f;
      match f with
      | None => Panic "nil pointer dereference"
      | Some f => Ret (fs, <[of_bytes (Name f) := j]> fn)
      end
  | None =>
      name ← index names j;
      f ← formatField (named_field name) value;
      fs ← store fs j (Some f); Ret (fs, <[EmptyString := j]> fn)
  end.

Fixpoint build_row (first : bool) fields names (j : Z) (vs : ResultRow) fs fn (row : list Z) :
    outcome (list (option Field) * gmap string Z * list Z) :=
  match vs with
  | [] => Ret (fs, fn, row)
  | value :: vs =>
      '(fs, fn) ← (if first then build_field fields names j value fs fn else Ret (fs, fn));
      b ← formatValue value;
      build_row first fields names (j + 1) vs fs fn (AppendLenEncStringBytes row (sbytes b))
  end.

Fixpoint build_rows (first : bool) fields names (values : list ResultRow) fs fn (rows : list (list Z)) :
    outcome (list (option Field) * gmap string Z * list (list Z)) :=
  match values with
  | [] => Ret (fs, fn, rows)
  | vs :: values =>
      if negb (zlen vs =? zlen fs) then Err (Errorf "row %d has %d column not equal %d") else
      '(fs, fn, row) ← build_row first fields names 0 vs fs fn [];
      build_rows false fields names values fs fn (rows ++ [row])
  end.

Definition BuildResultset (fields : list (option Field)) (names : list string) (values : list ResultRow) :
    outcome Resultset :=
  fields ← (if negb (zlen fields =? 0) then
              if zlen names =? zlen fields then Ret (Some fields) else Err ErrInvalidArgument
            else Ret None);
  '(fs, fn, rows) ← build_rows true fields names values (replicate (length names) None) ∅ [];
  Ret (mk_Resultset fs fn values rows).
End build.

(** * The proxy writes *)

Section write.
Context {W : Wire} {BP : BufPool}.

(** [copy(data[pos:], v); pos += len(v)] *)
Definition copy_in (data : list Z) (pos : Z) (v : list Z) : outcome (list Z * Z) :=
  '(data, _) ← writeEOFString data pos v; Ret (data, pos + zlen v).

Definition writeColumnCount (count : Z) : M Conn unit :=
  let* data := StartEphemeralPacket (LenEncIntSize count) in
  fill ('(data, _) ← WriteLenEncInt data 0 count; Ret data) ;;*
  WriteEphemeralPacket.

Definition writeRow (row : list Z) : M Conn unit :=
  let* data := StartEphemeralPacket (zlen row) in
  fill ('(data, _) ← writeEOFString data 0 row; Ret data) ;;*
  WriteEphemeralPacket.

Definition column_size (f : Field) : Z :=
  4 + LenEncIntSize (zlen (Schema f)) + zlen (Schema f) + LenEncIntSize (zlen (Table f)) + zlen (Table f) +
  LenEncIntSize (zlen (OrgTable f)) + zlen (OrgTable f) + LenEncIntSize (zlen (Name f)) + zlen (Name f) +
  LenEncIntSize (zlen (OrgName f)) + zlen (OrgName f) + 1 + 2 + 4 + 1 + 2 + 1 + 2 +
  LenEncIntSize (DefaultValueLength f) + zlen (default [] (DefaultValue f)).

(** The buffer and the position behind what was written. *)
Definition pack_column (field : Field) (data : list Z) : outcome (list Z * Z) :=
  '(data, pos) ← WriteLenEncString data 0 def;
  '(data, pos) ← WriteLenEncInt data pos (zlen (Schema field));
  '(data, pos) ← copy_in data pos (Schema field);
  '(data, pos) ← WriteLenEncInt data pos (zlen (Table field));
  '(data, pos) ← copy_in data pos (Table field);
  '(data, pos) ← WriteLenEncInt data pos (zlen (OrgTable field));
  '(data, pos) ← copy_in data pos (OrgTable field);
  '(data, pos) ← WriteLenEncInt data pos (zlen (Name field));
  '(data, pos) ← copy_in data pos (Name field);
  '(data, pos) ← WriteLenEncInt data pos (zlen (OrgName field));
  '(data, pos) ← copy_in data pos (OrgName field);
  '(data, pos) ← WriteByte data pos 12;
  '(data, pos) ← WriteUint16 data pos (Charset field);
  '(data, pos) ← WriteUint32 data pos (ColumnLength field);
  '(data, pos) ← WriteByte data pos (Type_ field);
  '(data, pos) ← WriteUint16 data pos (Flag field);
  '(data, pos) ← WriteByte data pos (Decimal field);
  '(data, pos) ← WriteUint16 data pos 0;
  '(data, pos) ← WriteLenEncInt data pos (DefaultValueLength field);
  copy_in data pos (default [] (DefaultValue field)).

Definition writeColumnDefinition (field : option Field) : M Conn unit :=
  match field with
  | None => panic "nil pointer dereference"
  | Some field =>
      let* data := StartEphemeralPacket (column_size field) in
      let* (data, pos) := of_outcome (pack_column field data) in
      fill (Ret data) ;;*
      if negb (pos =? zlen data)
      then fail (Errorf "internal error: packing of column definition used %v bytes instead of %v")
      else WriteEphemeralPacket
  end.

Definition writeEOFPacket (status : Z) : M Conn unit := WriteEOFPacket status 0.

Fixpoint in_turn {A} (f : A -> M Conn unit) (l : list A) : M Conn unit :=
  match l with [] => ret tt | x :: l => f x ;;* in_turn f l end.

Definition writeFieldList (status : Z) (fs : list (option Field)) : M Conn unit :=
  in_turn writeColumnDefinition fs ;;* writeEOFPacket status.

Definition writeResultset (status : Z) (r : Resultset) : M Conn unit :=
  StartWriterBuffering ;;*
  writeColumnCount (zlen (rs_Fields r)) ;;*
  writeFieldList status (rs_Fields r) ;;*
  in_turn writeRow (RowDatas r) ;;*
  writeEOFPacket status ;;*
  Flush.

Definition writeOKResult (status : Z) (r : Result) : M Conn unit :=
  match r_Resultset r with
  | None => WriteOKPacket (r_AffectedRows r) (r_InsertID r) status 0
  | Some rs => writeResultset status rs
  end.
End write.

(** * The backend connection reads *)

Definition ClientProtocol41 : Z := Z.shiftl 1 9.
Definition ClientTransactions : Z := Z.shiftl 1 13.
Definition LocalInFileHeader : Z := 251.

Record DirectConnection := mk_DirectConnection { conn : Conn; capability : Z; status : Z }.

Definition set_conn (dc : DirectConnection) (c : Conn) : DirectConnection :=
  mk_DirectConnection c (capability dc) (status dc).
Definition set_status (s : Z) (dc : DirectConnection) : DirectConnection :=
  mk_DirectConnection (conn dc) (capability dc) s.

Definition has_capability (flag : Z) (dc : DirectConnection) : bool := 0 <? Z.land (capability dc) flag.

Record SQLError := mk_SQLError { Code : Z; State : list Z; Message : list Z }.

(** [SQLError.Error] *)
Definition sql_error (e : SQLError) : error :=
  Named (String.append "ERROR " (String.append (FormatUint (Code e)) (String.append " ("
    (String.append (of_bytes (State e)) (String.append "): " (of_bytes (Message e))))))).

Section read.
Context {FT : FloatText}.

Definition readPacket : M DirectConnection (list Z) := on conn set_conn ReadPacket.

Definition isEOFPacket (data : list Z) : outcome bool :=
  b ← index data 0; Ret ((b =? EOFHeader) && (zlen data <=? 5)).

Definition handleOKPacket (data : list Z) : M DirectConnection Result :=
  let* (affectedRows, pos) := of_outcome (or_zeros (ReadLenEncInt data 1)) in
  let* (insertID, pos) := of_outcome (or_zeros (ReadLenEncInt data pos)) in
  let* p41 := gets (has_capability ClientProtocol41) in
  let* tx := gets (has_capability ClientTransactions) in
  if p41 || tx then
    let* s := of_outcome (le_uint 2 data pos) in
    modify (set_status s) ;;* ret (mk_Result s insertID affectedRows None)
  else ret (mk_Result 0 insertID affectedRows None).

Definition handleErrorPacket (data : list Z) : M DirectConnection SQLError :=
  let* code := of_outcome (le_uint 2 data 1) in
  let* p41 := gets (has_capability ClientProtocol41) in
  if p41 then
    let* state := of_outcome (reslice data 4 9) in
    let* msg := of_outcome (reslice data 9 (zlen data)) in ret (mk_SQLError code state msg)
  else
    let* msg := of_outcome (reslice data 3 (zlen data)) in ret (mk_SQLError code [] msg).

(** [return dc.handleErrorPacket(data)] *)
Definition fail_with {A} (data : list Z) : M DirectConnection A :=
  let* e := handleErrorPacket data in fail (sql_error e).

(** The status of an EOF packet, which becomes that of the result. *)
Definition eof_status (data : list Z) (s : Z) : M DirectConnection Z :=
  let* p41 := gets (has_capability ClientProtocol41) in
  if p41 then
    let* s := of_outcome (le_uint 2 data 3) in modify (set_status s) ;;* ret s
  else ret s.

(** [result.Fields[i], err = Parse()]: the element is assigned before the error is
    looked at. *)
Definition parse_into (fs : list (option Field)) (i : Z) (data : list Z) : outcome (list (option Field) * Field) :=
  match Parse data with
  | Ret f => fs ← store fs i (Some f); Ret (fs, f)
  | Err e => _ ← store fs i None; Err e
  | Panic p => Panic p
  end.

(** Every packet takes bytes of the connection, so their number bounds the loops. *)
Fixpoint columns_loop (fuel : nat) (i : Z) (s : Z) (fs : list (option Field)) (names : gmap string Z) :
    M DirectConnection (Z * list (option Field) * gmap string Z) :=
  match fuel with
  | O => panic "out of fuel"
  | S fuel =>
      let* data := readPacket in
      let* eof := of_outcome (isEOFPacket data) in
      if (eof : bool) then
        let* s := eof_status data s in
        if negb (i =? zlen fs) then fail ErrMalformPacket else ret (s, fs, names)
      else
        let* b := of_outcome (index data 0) in
        if b =? ErrHeader then fail_with data else
        let* (fs, f) := of_outcome (parse_into fs i data) in
        columns_loop fuel (i + 1) s fs (<[of_bytes (Name f) := i]> names)
  end.

Definition fuel_of (dc : DirectConnection) : nat := S (length (incoming (conn dc))).

Definition readResultColumns (count : Z) : M DirectConnection (Z * list (option Field) * gmap string Z) :=
  let* fuel := gets fuel_of in columns_loop fuel 0 0 (replicate (Z.to_nat count) None) ∅.

Fixpoint rows_loop (fuel : nat) (s : Z) (rows : list (list Z)) : M DirectConnection (Z * list (list Z)) :=
  match fuel with
  | O => panic "out of fuel"
  | S fuel =>
      let* data := readPacket in
      let* eof := of_outcome (isEOFPacket data) in
      if (eof : bool) then let* s := eof_status data s in ret (s, rows)
      else
        let* b := of_outcome (index data 0) in
        if b =? ErrHeader then fail_with data else rows_loop fuel s (rows ++ [data])
  end.

(** The fields are all set when the rows are read. *)
Definition readResultRows (s : Z) (fs : list (option Field)) : M DirectConnection (Z * list (list Z) * list ResultRow) :=
  let* fuel := gets fuel_of in
  let* (s, rows) := rows_loop fuel s [] in
  let* values := of_outcome (mapM (fun row => ParseText row (omap id fs)) rows) in
  ret (s, rows, values).

(** [make([]T, n)] with more elements than fit the address space *)
Definition max_fields : Z := 2 ^ 45.

Definition readResultset (data : list Z) : M DirectConnection Result :=
  let* (count, pos) := of_outcome (or_zeros (ReadLenEncInt data 0)) in
  if negb (pos - zlen data =? 0) then fail ErrMalformPacket else
  if max_fields <? count then panic "makeslice: len out of range" else
  let* (s, fs, names) := readResultColumns count in
  let* (s, rows, values) := readResultRows s fs in
  ret (mk_Result s 0 0 (Some (mk_Resultset fs names values rows))).

Definition readResult : M DirectConnection Result :=
  let* data := readPacket in
  let* b := of_outcome (index data 0) in
  if b =? OKHeader then handleOKPacket data
  else if b =? ErrHeader then fail_with data
  else if b =? LocalInFileHeader then fail ErrMalformPacket
  else readResultset data.
End read.
