(* ===== verification/ResultsetOk.v ===== *)
(** A result that the proxy writes is the result that a connection reads. *)

From Stdlib Require Import Ascii String.
From S2P Require Import Prelude StateM GoStr Encoding Merge Packet PacketOk Resultset.

#[local] Opaque MaxPacketSize.

(** * What is written *)

Definition column_packet (f : Field) : list Z :=
  (enc_int (zlen def) ++ def) ++ enc_int (zlen (Schema f)) ++ Schema f ++ enc_int (zlen (Table f)) ++ Table f ++
  enc_int (zlen (OrgTable f)) ++ OrgTable f ++ enc_int (zlen (Name f)) ++ Name f ++
  enc_int (zlen (OrgName f)) ++ OrgName f ++ [12] ++ bytes2 (Charset f) ++ bytes4 (ColumnLength f) ++
  [Type_ f] ++ bytes2 (Flag f) ++ [Decimal f] ++ bytes2 0 ++ enc_int (DefaultValueLength f) ++
  default [] (DefaultValue f).

(** The packets of a result. *)
Definition messages (st : Z) (fs : list Field) (rows : list (list Z)) : list (list Z) :=
  [enc_int (zlen fs)] ++ (map column_packet fs ++ [eof_packet st 0]) ++ rows ++ [eof_packet st 0].

Lemma column_packet_size f : zlen (column_packet f) = column_size f.
Proof. unfold column_packet, column_size. zlens. change (LenEncIntSize (zlen def)) with 1. change (zlen def) with 3. lia. Qed.

Lemma puts_copy v : puts (fun d pos => copy_in d pos v) v.
Proof.
  intros p old Hl. destruct (puts_string v p old Hl) as (o & Ho & E). exists o. split; [done|].
  unfold copy_in. rewrite E. cbn [mbind outcome_bind]. by rewrite zlen_app.
Qed.

Lemma puts_fill w g a b buf :
  puts w a -> puts g b -> zlen buf = zlen (a ++ b) -> ('(d, pos) ← w buf 0; g d pos) = Ret (a ++ b, zlen (a ++ b)).
Proof. intros H1 H2 Hl. exact (puts_all _ _ buf (puts_then _ _ _ _ H1 H2) Hl). Qed.

Ltac run_puts :=
  repeat first [ apply puts_copy
               | refine (puts_then _ _ _ _ (puts_byte _) _) | refine (puts_then _ _ _ _ (puts_u16 _) _)
               | refine (puts_then _ _ _ _ (puts_u32 _) _) | refine (puts_then _ _ _ _ (puts_lenenc _) _)
               | refine (puts_then _ _ _ _ (puts_copy _) _) ].

Lemma pack_column_fills f buf :
  zlen buf = column_size f -> pack_column f buf = Ret (column_packet f, zlen (column_packet f)).
Proof.
  intros Hl. rewrite <- column_packet_size in Hl. unfold pack_column.
  refine (puts_fill _ _ _ _ _ (puts_lenenc_string def) _ Hl). run_puts.
Qed.

Section writing.
Context {W : Wire} {HW : Healthy W} {BP : BufPool} {BPO : BufPoolOk BP}.

Definition idle (c : Conn) : Prop := currentEphemeralPolicy c = ephemeralUnused /\ currentEphemeralBuffer c = None.

Definition delivers_all (m : M Conn unit) (msgs : list (list Z)) : Prop :=
  forall c, idle c -> m c = (delivered c msgs, Ret tt).

Lemma delivers_one m msg : delivers m msg -> delivers_all m [msg].
Proof. intros H c [Hc _]. by apply H. Qed.

Lemma delivers_none : delivers_all (ret tt) [].
Proof. intros c [Hp Hb]. unfold ret, delivered. cbn [flat_map]. rewrite wrote_nil. destruct c; cbn in *. by subst. Qed.

Lemma delivers_then m1 m2 a b : delivers_all m1 a -> delivers_all m2 b -> delivers_all (m1 ;;* m2) (a ++ b).
Proof. intros H1 H2 c Hc. unfold bind. rewrite (H1 c Hc), H2 by done. by rewrite delivered_then. Qed.

Lemma in_turn_delivers {A} (f : A -> M Conn unit) g l :
  (forall x, delivers (f x) (g x)) -> delivers_all (in_turn f l) (map g l).
Proof.
  intros H. induction l as [|x l IH]; [apply delivers_none|]. cbn [in_turn map].
  apply (delivers_then _ _ [g x]); [apply delivers_one, H|done].
Qed.

Lemma writeColumnCount_delivers n : delivers (writeColumnCount n) (enc_int n).
Proof.
  rewrite <- (app_nil_r (enc_int n)). refine (send_delivers _ _ _ _ _); [run_writers|zlens].
Qed.

Lemma writeRow_delivers row : delivers (writeRow row) row.
Proof.
  rewrite <- (app_nil_r row) at 2. refine (send_delivers _ _ _ _ _); [|by rewrite app_nil_r].
  refine (fills_then _ _ _ _ (puts_string _) _). apply writes_nil.
Qed.

Lemma bind_runs {S A B} (m : M S A) (k : A -> M S B) s s' a : m s = (s', Ret a) -> bind m k s = k a s'.
Proof. intros E. unfold bind. by rewrite E. Qed.

Lemma StartEphemeralPacket_unused n c :
  currentEphemeralPolicy c = ephemeralUnused ->
  StartEphemeralPacket n c = (set_ephemeral c ephemeralWrite (Some (pool_get n)), Ret (pool_get n)).
Proof. intros Hc. unfold StartEphemeralPacket, bind, gets. by rewrite Hc. Qed.

Lemma writeColumnDefinition_delivers f : delivers (writeColumnDefinition (Some f)) (column_packet f).
Proof.
  intros c Hc. pose proof (column_packet_size f) as Hs. pose proof (zlen_nonneg (column_packet f)).
  pose proof (ephemeral_delivers (column_size f) (fun _ => Ret (column_packet f)) _ eq_refl c Hc) as E.
  pose proof (StartEphemeralPacket_unused (column_size f) c Hc) as S. rewrite (bind_runs _ _ _ _ _ S) in E.
  unfold writeColumnDefinition. rewrite (bind_runs _ _ _ _ _ S).
  erewrite (bind_runs (of_outcome _) _ _ _ (column_packet f, zlen (column_packet f))).
  - rewrite Z.eqb_refl. exact E.
  - unfold of_outcome. f_equal. apply pack_column_fills, BPO. lia.
Qed.

Lemma writeResultset_delivers st fs rows names values c :
  idle c -> bufferedWriter c = None ->
  exists c', writeResultset st (mk_Resultset (map Some fs) names values rows) c = (c', Ret tt) /\
    sent c' = sent c ++ on_wire (sequence c) (flat_map payload_pieces (messages st fs rows)) /\
    sequence c' = after (sequence c) (flat_map payload_pieces (messages st fs rows)) /\
    bufferedWriter c' = None /\ idle c'.
Proof.
  intros Hc Hb. set (msgs := messages st fs rows).
  assert (writeFieldList_delivers : delivers_all (writeFieldList st (map Some fs)) (map column_packet fs ++ [eof_packet st 0])).
  { apply delivers_then; [|apply delivers_one, WriteEOFPacket_delivers].
    induction fs as [|f fs IH]; [apply delivers_none|]. apply (delivers_then _ _ [column_packet f]); [|done].
    apply delivers_one, writeColumnDefinition_delivers. }
  assert (rows_delivers : delivers_all (in_turn writeRow rows) rows).
  { rewrite <- (map_id rows) at 2. apply in_turn_delivers, writeRow_delivers. }
  exists (set_output (delivered (set_output c (sent c) (Some [])) msgs)
            (sent c ++ on_wire (sequence c) (flat_map payload_pieces msgs)) None).
  split_and!; [|done..]. unfold writeResultset. cbn [rs_Fields RowDatas].
  assert (zlen (map Some fs) = zlen fs) as -> by (unfold zlen; by rewrite length_map).
  erewrite bind_runs by done. erewrite bind_runs by (by apply (delivers_one _ _ (writeColumnCount_delivers _))).
  erewrite bind_runs by (by apply writeFieldList_delivers). erewrite bind_runs by (by apply rows_delivers).
  erewrite bind_runs by (by apply (delivers_one _ _ (WriteEOFPacket_delivers _ _))).
  rewrite !delivered_then, <- !app_assoc. unfold msgs, messages. rewrite <- !app_assoc. unfold Flush.
  unfold delivered, wrote, add_output. cbn [bufferedWriter set_output set_ephemeral SetSequence sent]. by rewrite HW.
Qed.
End writing.

(** * Columns *)

(** A column whose lengths fit and whose length of the default value is right. *)
Record wf_field (f : Field) : Prop := {
  wf_size : column_size f + 9 <= max_i64;
  wf_charset : 0 <= Charset f < 2 ^ 16;
  wf_length : 0 <= ColumnLength f < 2 ^ 32;
  wf_flag : 0 <= Flag f < 2 ^ 16;
  wf_default : DefaultValueLength f = zlen (default [] (DefaultValue f)) }.

(** The field at the other end: it keeps its packet, and a default value that is
    missing is empty. *)
Definition received (f : Field) : Field :=
  mk_Field (Some (column_packet f)) (Schema f) (Table f) (OrgTable f) (Name f) (OrgName f) (Charset f)
    (ColumnLength f) (Type_ f) (Flag f) (Decimal f) (DefaultValueLength f) (Some (default [] (DefaultValue f))).

Lemma cursor_inside data pos rest : cursor data pos rest -> 0 <= pos /\ pos + zlen rest = zlen data.
Proof. intros (p & -> & ->). pose proof (zlen_nonneg p). rewrite zlen_app. lia. Qed.

Lemma LenEncIntSize_pos i : 1 <= LenEncIntSize i <= 9.
Proof. unfold LenEncIntSize. repeat case_match; lia. Qed.

Lemma cursor_string data pos b rest :
  cursor data pos (enc_int (zlen b) ++ b ++ rest) -> zlen data + 9 <= max_i64 ->
  ReadLenEncStringAsBytes data pos = Ret (Some (b, pos + LenEncStringSize b, false)) /\
  cursor data (pos + LenEncStringSize b) rest.
Proof.
  intros Hc Hl. rewrite app_assoc in Hc. split.
  - destruct Hc as (p & -> & ->). apply ReadString_enc. autorewrite with zlens in Hl.
    pose proof (zlen_nonneg rest). pose proof (zlen_nonneg (enc_int (zlen b))). rewrite zlen_enc_int in *. lia.
  - apply (cursor_to _ _ _ _ _ Hc). unfold LenEncStringSize. zlens.
Qed.

Lemma cursor_u data pos v rest (k : nat) bs :
  bs = le_bytes k v -> cursor data pos (bs ++ rest) -> 0 <= v < 2 ^ (8 * Z.of_nat k) ->
  le_uint (Z.of_nat k) data pos = Ret v /\ cursor data (pos + Z.of_nat k) rest.
Proof.
  intros -> Hc Hv. assert (zlen (le_bytes k v) = Z.of_nat k) as Hz by (unfold zlen; by rewrite length_le_bytes).
  split; [|by apply (cursor_to _ _ _ _ _ Hc)]. unfold le_uint. rewrite (cursor_rest _ _ _ Hc).
  cbn [mbind outcome_bind]. rewrite zlen_app, Hz. pose proof (zlen_nonneg rest). destruct (_ <? _) eqn:E; [lia|].
  rewrite Nat2Z.id. rewrite take_app_length' by (symmetry; apply length_le_bytes). by rewrite le_or_le_bytes, Z.mod_small.
Qed.

Lemma cursor_le16 data pos v rest :
  cursor data pos (bytes2 v ++ rest) -> 0 <= v < 2 ^ 16 -> le_uint 2 data pos = Ret v /\ cursor data (pos + 2) rest.
Proof. destruct (le_bytes_eq v) as (E & _). by apply (cursor_u _ _ _ _ 2). Qed.

Lemma cursor_le32 data pos v rest :
  cursor data pos (bytes4 v ++ rest) -> 0 <= v < 2 ^ 32 -> le_uint 4 data pos = Ret v /\ cursor data (pos + 4) rest.
Proof. destruct (le_bytes_eq v) as (_ & _ & E & _). by apply (cursor_u _ _ _ _ 4). Qed.

Lemma skip_def rest : 0 <= zlen rest -> zlen rest + 9 <= max_i64 ->
  skipLenEncString ((enc_int (zlen def) ++ def) ++ rest) 0 = Ret (Some 4).
Proof.
  intros H Hl. unfold skipLenEncString. rewrite <- app_assoc.
  pose proof (cursor_start (enc_int (zlen def) ++ def ++ rest)) as C.
  destruct (cursor_lenenc _ _ _ _ C) as [-> _]; [done|]. cbn [mbind outcome_bind]. zlens.
  change (LenEncIntSize (zlen def)) with 1. change (i64 (zlen def)) with 3. change (zlen def) with 3.
  change (i64 (0 + 1 + 3 - 1)) with 3. destruct (_ <=? _) eqn:E; [lia|done].
Qed.

(** Reads the next part of a packet. *)
Ltac read_with C lem :=
  let C' := fresh "C" in destruct (lem _ _ _ _ C) as [-> C']; [try done|cbn [mbind outcome_bind]]; clear C; rename C' into C.

Lemma Parse_column f : wf_field f -> Parse (column_packet f) = Ret (received f).
Proof.
  intros [Hs Hc Hl Hf Hd]. rewrite <- column_packet_size in Hs. unfold Parse.
  assert (need "skipLenEncString in Parse failed" (skipLenEncString (column_packet f) 0) = Ret 4) as ->.
  { unfold need, column_packet in *. rewrite skip_def; [done|apply zlen_nonneg|]. rewrite zlen_app in Hs.
    change (zlen (enc_int (zlen def) ++ def)) with 4 in Hs. lia. }
  pose proof (cursor_to _ 0 _ _ 4 (cursor_start (column_packet f)) eq_refl) as C. change (0 + 4) with 4 in C.
  cbn [mbind outcome_bind]. unfold need. do 5 read_with C cursor_string.
  destruct (cursor_byte _ _ _ _ C) as [_ C0]. clear C. rename C0 into C.
  read_with C cursor_le16. read_with C cursor_le32.
  destruct (cursor_byte _ _ _ _ C) as [-> C0]. clear C. rename C0 into C. cbn [mbind outcome_bind].
  read_with C cursor_le16. destruct (cursor_byte _ _ _ _ C) as [-> C0]. cbn [mbind outcome_bind]. clear C.
  pose proof (cursor_to _ _ _ _ 2 C0 eq_refl) as C. clear C0.
  match type of C with cursor _ ?p _ => generalize dependent p end. intros pos C.
  pose proof (cursor_inside _ _ _ C) as Hin. rewrite zlen_app, zlen_enc_int in Hin.
  pose proof (LenEncIntSize_pos (DefaultValueLength f)). pose proof (zlen_nonneg (default [] (DefaultValue f))).
  destruct (_ <? _) eqn:E; [|lia]. unfold or_zeros.
  destruct (cursor_lenenc _ _ _ _ C) as [-> C1]; [unfold_int; lia|]. cbn [mbind outcome_bind].
  rewrite (i64_id (DefaultValueLength f)), i64_id by (unfold_int; lia). rewrite (proj2 (Z.ltb_ge _ _)) by lia.
  pose proof (cursor_rest _ _ _ C1) as R. pose proof (cursor_inside _ _ _ C1) as Hin1.
  replace (zlen (column_packet f)) with (pos + LenEncIntSize (DefaultValueLength f) + zlen (default [] (DefaultValue f))) in R by lia.
  by rewrite <- Hd in R; rewrite R.
Qed.

(** * Rows *)

Section rows.
Context {FT : FloatText}.

(** The value is one that the text protocol gives for such a column. *)
Definition typed (f : Field) (v : gval) : Prop :=
  match v, kind_of (Type_ f) with
  | GNil, _ => True
  | GInt KInt64 z, IntColumn => is_i64 z /\ Z.land (Flag f) UnsignedFlag <= 0
  | GInt KUint64 z, IntColumn => is_u64 z /\ 0 < Z.land (Flag f) UnsignedFlag
  | GFloat64 x, FloatColumn => ParseFloat (FormatFloat x) = Ret x
  | GString _, TextColumn | GBytes _, OtherColumn => True
  | _, _ => False
  end.

Lemma text_value_typed f v s :
  typed f v -> v <> GNil -> formatValue v = Ret s -> text_value f (sbytes s) = Ret v.
Proof.
  intros Ht Hv Hs. unfold typed, text_value in *. rewrite of_bytes_sbytes.
  destruct v as [|[] z| | | | |]; try done; destruct (kind_of (Type_ f)); try done; cbn [formatValue] in Hs; injection Hs as <-.
  - destruct Ht as [Hz Hf]. destruct (0 <? _) eqn:E; [lia|]. by rewrite ParseInt_FormatInt.
  - destruct Ht as [Hz Hf]. destruct (0 <? _) eqn:E; [|lia]. by rewrite ParseUint_FormatUint.
  - by rewrite Ht.
  - done.
  - done.
Qed.

Lemma row_data_prefix vs row0 row : row_data vs row0 = Ret row -> exists body, row = row0 ++ body.
Proof.
  revert row0. induction vs as [|v vs IH]; intros row0 H; cbn [row_data] in H.
  { injection H as <-. exists []. by rewrite app_nil_r. }
  assert (exists piece, row_data vs (row0 ++ piece) = Ret row) as (piece & H1).
  { destruct (decide (v = GNil)) as [->|Hv]; [by eexists|].
    assert (exists s, row_data vs (AppendLenEncStringBytes row0 (sbytes s)) = Ret row) as (s & H1).
    { destruct v; try done; destruct (formatValue _) as [t| |]; try done; by exists t. }
    unfold AppendLenEncStringBytes, AppendLenEncInt in H1. repeat case_match; rewrite <- ?app_assoc in H1; by eexists. }
  destruct (IH _ H1) as (body & ->). exists (piece ++ body). by rewrite app_assoc.
Qed.

(** The bytes of the first value and those of the others. *)
Lemma row_data_cons v vs row0 row :
  row_data (v :: vs) row0 = Ret row -> zlen row <= max_i64 ->
  exists piece, row_data vs (row0 ++ piece) = Ret row /\
    (v = GNil /\ piece = [251] \/
     v <> GNil /\ exists s, formatValue v = Ret s /\ piece = enc_int (zlen (sbytes s)) ++ sbytes s /\ is_u64 (zlen (sbytes s))).
Proof.
  intros H Hl. destruct (decide (v = GNil)) as [->|Hv]; [exists [251]; by eauto|].
  assert (exists s, formatValue v = Ret s /\ row_data vs (AppendLenEncStringBytes row0 (sbytes s)) = Ret row) as (s & Es & H1).
  { destruct v; try done; cbn [row_data] in H; destruct (formatValue _) as [t| |]; try done; eauto. }
  assert (is_u64 (zlen (sbytes s))) as Hs.
  { apply row_data_prefix in H1 as (body & ->). unfold AppendLenEncStringBytes in Hl. rewrite !zlen_app in Hl.
    pose proof (zlen_nonneg body). pose proof (zlen_nonneg (sbytes s)).
    pose proof (zlen_nonneg (AppendLenEncInt row0 (zlen (sbytes s)))). unfold_int. lia. }
  exists (enc_int (zlen (sbytes s)) ++ sbytes s). split; [|right; by eauto 6].
  unfold AppendLenEncStringBytes in H1. rewrite AppendLenEncInt_eq, <- app_assoc in H1 by done. done.
Qed.

Lemma cursor_null data pos rest :
  cursor data pos (251 :: rest) -> zlen data + 9 <= max_i64 ->
  ReadLenEncStringAsBytes data pos = Ret (Some ([], pos + 1, true)) /\ cursor data (pos + 1) rest.
Proof.
  intros Hc Hl. destruct (cursor_byte _ _ _ _ Hc) as [Hi C]. split; [|done].
  pose proof (cursor_inside _ _ _ Hc) as Hin. pose proof (cursor_inside _ _ _ C) as Hin1. pose proof (zlen_nonneg rest).
  unfold ReadLenEncStringAsBytes, ReadLenEncInt. rewrite zlen_cons in Hin.
  destruct (_ <=? pos) eqn:E; [lia|]. rewrite Hi. cbn [mbind outcome_bind]. change (i64 0) with 0.
  change (251 =? 251) with true. cbn [mbind outcome_bind]. change (i64 0) with 0.
  rewrite !i64_id by (unfold_int; lia). rewrite Z.add_0_r. rewrite (proj2 (Z.leb_gt _ _)) by lia.
  unfold reslice. rewrite decide_True by lia. by rewrite Z.sub_diag.
Qed.

Lemma row_data_parse vs row0 row fs :
  row_data vs row0 = Ret row -> zlen row + 9 <= max_i64 -> Forall2 typed fs vs ->
  parse_text row (zlen row0) fs = Ret vs.
Proof.
  revert row0 fs. induction vs as [|v vs IH]; intros row0 fs H Hl Ht; inversion Ht as [|f v' fs' vs' Hf Hfs]; subst; [done|].
  destruct (row_data_cons _ _ _ _ H ltac:(lia)) as (piece & H1 & Hp).
  specialize (IH _ _ H1 Hl Hfs). apply row_data_prefix in H1 as (body & ->). rewrite zlen_app in IH.
  assert (cursor ((row0 ++ piece) ++ body) (zlen row0) (piece ++ body)) as C by (exists row0; by rewrite <- app_assoc).
  cbn [parse_text]. unfold need. destruct Hp as [[-> ->]|(Hv & s & Es & -> & Hs)].
  - destruct (cursor_null _ _ _ C Hl) as [-> _]. cbn [mbind outcome_bind]. change (zlen [251]) with 1 in IH. by rewrite IH.
  - rewrite <- !app_assoc in C. destruct (cursor_string _ _ _ _ C) as [R _]; [by rewrite <- !app_assoc in *|].
    rewrite <- !app_assoc in *. rewrite R. cbn [mbind outcome_bind]. rewrite (text_value_typed f v s) by done.
    cbn [mbind outcome_bind]. rewrite zlen_app, zlen_enc_int in IH. unfold LenEncStringSize. by rewrite IH.
Qed.

(** The first byte of a row tells it from an EOF and an error packet. *)
Definition plain (data : list Z) : Prop :=
  exists b bs, data = b :: bs /\ b <> ErrHeader /\ (b = EOFHeader -> 5 < zlen data).

Lemma plain_packet data : plain data -> isEOFPacket data = Ret false /\ exists b, index data 0 = Ret b /\ (b =? ErrHeader) = false.
Proof.
  intros (b & bs & -> & Hb & Hl). unfold isEOFPacket. change (index (b :: bs) 0) with (Ret b). cbn [mbind outcome_bind]. split.
  - destruct (b =? EOFHeader) eqn:E; [|done]. rewrite (proj2 (Z.leb_gt _ _)) by lia. done.
  - exists b. split; [done|lia].
Qed.

Lemma enc_int_head i : is_u64 i ->
  exists b bs, enc_int i = b :: bs /\ 0 <= b < 255 /\ b <> 251 /\ (b = 0 -> i = 0) /\ (b = 254 -> zlen bs = 8).
Proof.
  intros Hi. unfold enc_int. destruct (i <? 251) eqn:E.
  { exists i, []. unfold u8. unfold_int. rewrite Z.mod_small by lia. split_and!; done || lia. }
  repeat case_match; eexists _, _; (split; [done|]); split_and!; try lia; try done; intros; lia || apply length_le_bytes.
Qed.

Lemma row_plain v vs row : row_data (v :: vs) [] = Ret row -> zlen row <= max_i64 -> plain row.
Proof.
  intros H Hl. destruct (row_data_cons _ _ _ _ H Hl) as (piece & H1 & Hp). apply row_data_prefix in H1 as (body & ->).
  cbn [app]. destruct Hp as [[_ ->]|(_ & s & _ & -> & Hs)]; [by exists 251, body|].
  destruct (enc_int_head _ Hs) as (b & bs & -> & Hb & _ & _ & H8). exists b, ((bs ++ sbytes s) ++ body).
  split; [done|]. unfold ErrHeader, EOFHeader. split; [lia|]. intros E. specialize (H8 E). rewrite !zlen_app, zlen_cons.
  pose proof (zlen_nonneg body). pose proof (zlen_nonneg (sbytes s)). lia.
Qed.
End rows.

(** * What is read *)

(** The packets [msgs] stand on the connection and then [rest]; [s] is the sequence
    number after them. *)
Definition awaits (c : Conn) (msgs : list (list Z)) (rest : list Z) (s : Z) : Prop :=
  incoming c = on_wire (sequence c) (flat_map payload_pieces msgs) ++ rest /\
  after (sequence c) (flat_map payload_pieces msgs) = s.

Lemma on_wire_app s l1 l2 : on_wire s (l1 ++ l2) = on_wire s l1 ++ on_wire (after s l1) l2.
Proof. revert s. induction l1 as [|p l IH]; intros s; [done|]. cbn [app on_wire]. rewrite IH. by rewrite <- !app_assoc. Qed.

Lemma ReadPacket_awaits c m ms rest s :
  awaits c (m :: ms) rest s -> exists c', ReadPacket c = (c', Ret m) /\ awaits c' ms rest s.
Proof.
  intros [Hi Hs]. cbn [flat_map] in *. rewrite on_wire_app, <- app_assoc in Hi.
  destruct (pieces_cut _ m eq_refl) as [Hc Hm]. fold (payload_pieces m) in Hc, Hm.
  exists (read_up c (payload_pieces m) (on_wire (after (sequence c) (payload_pieces m)) (flat_map payload_pieces ms) ++ rest)).
  rewrite (ReadPacket_wire c _ _ Hc Hi), Hm. split; [done|]. split; [done|]. unfold after in *. by rewrite foldl_app in Hs.
Qed.

Lemma awaits_length c msgs rest s : awaits c msgs rest s -> (length msgs <= length (incoming c))%nat.
Proof.
  intros [-> _]. rewrite length_app. pose proof (on_wire_length (sequence c) (flat_map payload_pieces msgs)) as H.
  enough (length msgs <= length (flat_map payload_pieces msgs))%nat by lia. clear H.
  induction msgs as [|m ms IH]; [done|]. cbn [flat_map length]. rewrite length_app.
  destruct (pieces_cut _ m eq_refl) as [Hc _]. fold (payload_pieces m) in Hc. destruct (payload_pieces m); [done|]. cbn [length]. lia.
Qed.

Definition ready (dc : DirectConnection) (msgs : list (list Z)) (rest : list Z) (s : Z) : Prop :=
  awaits (conn dc) msgs rest s /\ has_capability ClientProtocol41 dc = true.

Lemma readPacket_ready dc m ms rest s :
  ready dc (m :: ms) rest s -> exists dc', readPacket dc = (dc', Ret m) /\ ready dc' ms rest s.
Proof.
  intros [Ha Hc]. destruct (ReadPacket_awaits _ _ _ _ _ Ha) as (c' & E & Ha'). exists (set_conn dc c').
  unfold readPacket, on. rewrite E. done.
Qed.

Lemma ready_fuel dc msgs rest s : ready dc msgs rest s -> (length msgs < fuel_of dc)%nat.
Proof. intros [Ha _]. apply awaits_length in Ha. unfold fuel_of. lia. Qed.

Lemma eof_status_ready dc ms rest s st s0 :
  ready dc ms rest s -> 0 <= st < 2 ^ 16 ->
  exists dc', eof_status (eof_packet st 0) s0 dc = (dc', Ret st) /\ ready dc' ms rest s /\ status dc' = st.
Proof.
  intros [Ha Hc] Hst. exists (set_status st dc). unfold eof_status, bind, gets, of_outcome, modify, ret. rewrite Hc.
  assert (cursor (eof_packet st 0) 3 (bytes2 st ++ [])) as C by (by exists ([EOFHeader] ++ bytes2 0)).
  by destruct (cursor_le16 _ _ _ _ C Hst) as [-> _].
Qed.

Lemma isEOFPacket_eof st (dc : DirectConnection) : of_outcome (isEOFPacket (eof_packet st 0)) dc = (dc, Ret true).
Proof. done. Qed.

Section reading.
Context {FT : FloatText}.

Lemma columns_loop_ready todo got fuel dc names s0 st ms rest s :
  ready dc (map column_packet todo ++ eof_packet st 0 :: ms) rest s -> (length todo < fuel)%nat ->
  Forall wf_field todo -> 0 <= st < 2 ^ 16 ->
  exists dc' names',
    columns_loop fuel (zlen got) s0 (map Some got ++ replicate (length todo) None) names dc =
      (dc', Ret (st, map Some (got ++ map received todo), names')) /\ ready dc' ms rest s.
Proof.
  intros Hr Hf Hw Hst. revert got fuel dc names Hr Hf. induction Hw as [|f todo Hwf Hw IH]; intros got [|fuel] dc names Hr Hf; cbn [length] in Hf; try lia.
  all: destruct (readPacket_ready _ _ _ _ _ Hr) as (dc1 & E1 & Hr1); cbn [columns_loop]; rewrite (bind_runs _ _ _ _ _ E1).
  - erewrite (bind_runs _ _ _ _ true) by apply isEOFPacket_eof. cbn beta iota. destruct (eof_status_ready _ _ _ _ _ s0 Hr1 Hst) as (dc2 & E2 & Hr2 & _).
    rewrite (bind_runs _ _ _ _ _ E2). cbn [length replicate map]. rewrite !app_nil_r.
    assert (zlen (map Some got) = zlen got) as -> by (unfold zlen; by rewrite length_map). rewrite Z.eqb_refl. by exists dc2, names.
  - assert (plain (column_packet f)) as Hp by (by eexists _, _).
    destruct (plain_packet _ Hp) as [He (b & Hb & Hbe)].
    erewrite bind_runs by (unfold of_outcome; by rewrite He). cbn beta iota.
    erewrite bind_runs by (unfold of_outcome; by rewrite Hb).
    cbn beta iota. rewrite Hbe. erewrite bind_runs.
    2: { unfold of_outcome, parse_into. rewrite (Parse_column f Hwf). cbn [length replicate].
         replace (zlen got) with (zlen (map Some got)) by (unfold zlen; by rewrite length_map).
         rewrite store_app. done. }
    cbn beta iota. specialize (IH (got ++ [received f]) fuel dc1 (<[of_bytes (Name f) := zlen got]> names) Hr1 ltac:(lia)).
    rewrite zlen_app, map_app, <- !app_assoc in IH. exact IH.
Qed.

Lemma rows_loop_ready todo got fuel dc s0 st ms rest s :
  ready dc (todo ++ eof_packet st 0 :: ms) rest s -> (length todo < fuel)%nat -> Forall plain todo -> 0 <= st < 2 ^ 16 ->
  exists dc', rows_loop fuel s0 got dc = (dc', Ret (st, got ++ todo)) /\ ready dc' ms rest s /\ status dc' = st.
Proof.
  intros Hr Hf Hw Hst. revert got fuel dc Hr Hf. induction Hw as [|row todo Hp Hw IH]; intros got [|fuel] dc Hr Hf; cbn [length] in Hf; try lia.
  all: destruct (readPacket_ready _ _ _ _ _ Hr) as (dc1 & E1 & Hr1); cbn [rows_loop]; rewrite (bind_runs _ _ _ _ _ E1).
  - erewrite (bind_runs _ _ _ _ true) by apply isEOFPacket_eof. cbn beta iota. destruct (eof_status_ready _ _ _ _ _ s0 Hr1 Hst) as (dc2 & E2 & Hr2 & Hs2).
    rewrite (bind_runs _ _ _ _ _ E2). rewrite app_nil_r. by exists dc2.
  - destruct (plain_packet _ Hp) as [He (b & Hb & Hbe)].
    erewrite bind_runs by (unfold of_outcome; by rewrite He). cbn beta iota.
    erewrite bind_runs by (unfold of_outcome; by rewrite Hb).
    cbn beta iota. rewrite Hbe. destruct (IH (got ++ [row]) fuel dc1 Hr1 ltac:(lia)) as (dc' & E & Hr' & Hs').
    rewrite <- app_assoc in E. by exists dc'.
Qed.
End reading.

(** * Properties *)

Section properties.
Context {W : Wire} {HW : Healthy W} {BP : BufPool} {BPO : BufPoolOk BP} {FT : FloatText}.

Lemma rows_plain fs (vss : list ResultRow) rows :
  fs <> [] -> Forall (Forall2 typed fs) vss -> Forall2 (fun vs row => row_data vs [] = Ret row) vss rows ->
  Forall (fun row => zlen row + 9 <= max_i64) rows ->
  Forall plain rows /\ mapM (fun row => ParseText row (map received fs)) rows = Ret vss.
Proof.
  intros Hfs Ht Hrs Hl. assert (Forall2 (fun row vs => plain row /\ ParseText row (map received fs) = Ret vs) rows vss) as H.
  { induction Hrs as [|vs row vss rows Hr Hrs IH]; [done|]. apply Forall_cons in Ht as [Hv Ht]. apply Forall_cons in Hl as [Hlr Hl].
    constructor; [|by apply IH]. split.
    - destruct vs as [|v vs]; [by apply Forall2_nil_inv_r in Hv|]. apply (row_plain v vs); [done|lia].
    - apply (row_data_parse vs [] row); [done|done|]. by apply Forall2_fmap_l. }
  split.
  - apply Forall_lookup. intros i row Hi. destruct (Forall2_lookup_l _ _ _ _ _ H Hi) as (vs & _ & Hp & _). done.
  - apply mapM_Ret. eapply Forall2_impl; [exact H|]. by intros ? ? [_ ?].
Qed.

Lemma GenerateSelectResultRowData_rows mr rows :
  GenerateSelectResultRowData mr = Ret rows -> Forall2 (fun vs row => row_data vs [] = Ret row) (Values mr) rows.
Proof.
  intros H. apply mapM_Ret in H. eapply Forall2_impl; [exact H|]. cbn. intros vs row. by destruct (negb _).
Qed.

Lemma readResultset_ready fs rows values dc dc0 st rest s :
  ready dc0 (map column_packet fs ++ eof_packet st 0 :: rows ++ [eof_packet st 0]) rest s ->
  dc = dc0 -> 0 < zlen fs <= max_fields -> Forall wf_field fs -> 0 <= st < 2 ^ 16 ->
  Forall plain rows -> mapM (fun row => ParseText row (map received fs)) rows = Ret values ->
  exists dc' names, readResultset (enc_int (zlen fs)) dc =
      (dc', Ret (mk_Result st 0 0 (Some (mk_Resultset (map Some (map received fs)) names values rows)))) /\
    ready dc' [] rest s /\ status dc' = st.
Proof.
  intros Hr -> Hn Hw Hst Hp Hv. pose proof (cursor_start (enc_int (zlen fs) ++ [])) as C.
  assert (is_u64 (zlen fs)) as Hu by (unfold max_fields in Hn; unfold_int; lia).
  destruct (cursor_lenenc _ _ _ _ C Hu) as [R _]. rewrite app_nil_r in R.
  unfold readResultset. erewrite bind_runs by (unfold of_outcome, or_zeros; by rewrite R). cbn beta iota.
  rewrite zlen_enc_int, Z.add_0_l, Z.sub_diag. cbn [Z.eqb negb]. rewrite (proj2 (Z.ltb_ge _ _)) by lia.
  pose proof (ready_fuel _ _ _ _ Hr) as Hf. rewrite length_app, length_map in Hf. cbn [length] in Hf.
  destruct (columns_loop_ready fs [] (fuel_of dc0) dc0 ∅ 0 st _ rest s Hr ltac:(lia) Hw Hst) as (dc1 & names & E1 & Hr1).
  erewrite bind_runs.
  2: { unfold readResultColumns, bind at 1, gets. unfold zlen. rewrite Nat2Z.id. exact E1. }
  cbn beta iota. cbn [app]. pose proof (ready_fuel _ _ _ _ Hr1) as Hf1. rewrite length_app in Hf1. cbn [length] in Hf1.
  destruct (rows_loop_ready rows [] (fuel_of dc1) dc1 st st [] rest s Hr1 ltac:(lia) Hp Hst) as (dc2 & E2 & Hr2 & Hs2).
  exists dc2, names. split; [|done]. erewrite (bind_runs _ _ dc1 dc2 (st, rows, values)); [done|].
  unfold readResultRows. unfold bind at 1, gets. rewrite (bind_runs _ _ _ _ _ E2). cbn beta iota.
  erewrite (bind_runs _ _ dc2 dc2 values); [done|]. unfold of_outcome. f_equal.
  assert (forall l : list Field, omap id (map Some l) = l) as Ho by (induction l as [|x l IH]; cbn; [done|by f_equal]).
  cbn [app]. by rewrite Ho.
Qed.

(** C7: a result that the proxy writes is the result that a connection reads: the merged
    values with the row data built from them, the columns and the status arrive as they
    were, for any number of rows and packets of any size, and both ends agree on what
    follows and on the sequence number. *)
Theorem resultset_roundtrip (fs : list Field) (mr : Merge.Result) (rows : list (list Z)) (st : Z)
    (names : gmap string Z) (c : Conn) :
  0 < zlen fs <= max_fields -> Forall wf_field fs -> Forall (Forall2 typed fs) (Values mr) ->
  GenerateSelectResultRowData mr = Ret rows -> Forall (fun row => zlen row + 9 <= max_i64) rows ->
  0 <= st < 2 ^ 16 -> idle c -> bufferedWriter c = None ->
  exists bs c',
    writeOKResult st (mk_Result st 0 0 (Some (mk_Resultset (map Some fs) names (Values mr) rows))) c = (c', Ret tt) /\
    sent c' = sent c ++ bs /\
    forall dc rest, sequence (conn dc) = sequence c -> has_capability ClientProtocol41 dc = true ->
      incoming (conn dc) = bs ++ rest ->
      exists dc' names',
        readResult dc =
          (dc', Ret (mk_Result st 0 0 (Some (mk_Resultset (map Some (map received fs)) names' (Values mr) rows)))) /\
        incoming (conn dc') = rest /\ sequence (conn dc') = sequence c' /\ status dc' = st.
Proof.
  intros Hn Hw Ht Hg Hl Hst Hc Hb. assert (fs <> []) as Hfs by (intros ->; unfold zlen in Hn; cbn in Hn; lia).
  destruct (rows_plain fs _ rows Hfs Ht (GenerateSelectResultRowData_rows _ _ Hg) Hl) as [Hp Hv].
  destruct (writeResultset_delivers st fs rows names (Values mr) c Hc Hb) as (c' & E & Hsent & Hseq & _).
  exists (on_wire (sequence c) (flat_map payload_pieces (messages st fs rows))), c'. split_and!; [done|done|].
  intros dc rest Hs Hcap Hi. assert (ready dc (messages st fs rows) rest (sequence c')) as Hr.
  { split; [|done]. unfold awaits. by rewrite Hs, Hseq. }
  destruct (readPacket_ready _ _ _ _ _ Hr) as (dc1 & E1 & Hr1). rewrite <- app_assoc in Hr1.
  destruct (readResultset_ready fs rows (Values mr) dc1 dc1 st rest _ Hr1) as (dc2 & names' & E2 & [[Hi2 Hs2] _] & Hst2); [done..|].
  exists dc2, names'. split_and!; [|done..]. unfold readResult. rewrite (bind_runs _ _ _ _ _ E1).
  assert (is_u64 (zlen fs)) as Hu by (unfold max_fields in Hn; unfold_int; lia).
  destruct (enc_int_head _ Hu) as (b & bs & Eb & Hb1 & Hb2 & Hb3 & _).
  erewrite (bind_runs _ _ _ _ b) by (unfold of_outcome; by rewrite Eb).
  unfold OKHeader, ErrHeader, LocalInFileHeader. 
  rewrite !(proj2 (Z.eqb_neq b _)) by (intros ->; lia). exact E2.
Qed.

(** An error that a server reports reaches the client as it is: the packet the proxy
    writes for it is read as an error with the same code, state and message. *)
Theorem error_roundtrip (code : Z) (state msg : list Z) (c : Conn) :
  0 <= code < 2 ^ 16 -> zlen state = 5 -> idle c -> bufferedWriter c = None ->
  exists bs c', WriteErrorPacket code state msg c = (c', Ret tt) /\ sent c' = sent c ++ bs /\
    forall dc rest, sequence (conn dc) = sequence c -> has_capability ClientProtocol41 dc = true ->
      incoming (conn dc) = bs ++ rest ->
      exists dc', readResult dc = (dc', Err (sql_error (mk_SQLError code state msg))) /\
        incoming (conn dc') = rest /\ sequence (conn dc') = sequence c'.
Proof.
  intros Hcode Hlen Hc Hb. assert (sent_state state = state) as Es by (by destruct state).
  pose proof (delivers_one _ _ (WriteErrorPacket_delivers code state msg ltac:(by rewrite Es)) c Hc) as E. rewrite Es in E.
  set (p := error_packet code state msg) in *. exists (on_wire (sequence c) (flat_map payload_pieces [p])), (delivered c [p]).
  split_and!; [done|unfold delivered, wrote, add_output; by rewrite Hb|]. intros dc rest Hs Hcap Hi.
  assert (ready dc [p] rest (sequence (delivered c [p]))) as Hr.
  { split; [|done]. unfold awaits. by rewrite Hs. }
  destruct (readPacket_ready _ _ _ _ _ Hr) as (dc1 & E1 & [[Hi1 Hs1] Hc1]). exists dc1. split_and!; [|done..].
  unfold readResult. rewrite (bind_runs _ _ _ _ _ E1). erewrite (bind_runs _ _ _ _ ErrHeader) by done.
  change (ErrHeader =? OKHeader) with false. change (ErrHeader =? ErrHeader) with true. cbn beta iota.
  unfold fail_with. erewrite (bind_runs _ _ dc1 dc1 (mk_SQLError code state msg)); [done|]. unfold handleErrorPacket.
  assert (cursor p 1 (bytes2 code ++ [35] ++ state ++ msg)) as C by (apply (cursor_head ErrHeader)).
  destruct (cursor_le16 _ _ _ _ C Hcode) as [R1 C1]. erewrite bind_runs by (unfold of_outcome; by rewrite R1).
  unfold bind at 1, gets. rewrite Hc1. destruct (cursor_byte _ _ _ _ C1) as [_ C2]. change (1 + 2 + 1) with 4 in C2.
  pose proof (cursor_to _ _ _ _ 5 C2 Hlen) as C3. change (4 + 5) with 9 in C3.
  erewrite (bind_runs _ _ dc1 dc1 state); [erewrite (bind_runs _ _ dc1 dc1 msg); [done|]|].
  - unfold of_outcome. by rewrite (cursor_rest _ _ _ C3).
  - unfold of_outcome. f_equal. destruct C2 as (q & -> & E4). pose proof (reslice_packet q state msg) as R.
    rewrite Hlen, <- E4 in R. exact R.
Qed.

(** A result whose fields were never set, as [BuildResultset] leaves them when there is
    no row, makes the writer panic. *)
Theorem unset_field_panics (st : Z) fs names values rows c :
  idle c -> (writeResultset st (mk_Resultset (None :: fs) names values rows) c).2 = Panic "nil pointer dereference".
Proof.
  intros Hc. unfold writeResultset. erewrite bind_runs by done.
  erewrite bind_runs by (by apply (delivers_one _ _ (writeColumnCount_delivers _))). done.
Qed.

End properties.

(** * Examples *)

Module wire_demo.
Definition perfect_wire : Wire := fun _ _ => None.
Lemma perfect_healthy : @Healthy perfect_wire.
Proof. done. Defined.

(** Buffers with the bytes of earlier packets in them. *)
Definition dirty_pool : BufPool := fun n => replicate (Z.to_nat n) 170.
Lemma dirty_ok : @BufPoolOk dirty_pool.
Proof. intros n Hn. unfold pool_get, dirty_pool, zlen. rewrite length_replicate. lia. Defined.

Definition no_floats : FloatText := {| ParseFloat := fun _ => Err ErrSyntax; FormatFloat := fun _ => EmptyString |}.

Definition start : Conn := mk_Conn [] EOF [] None 1 ephemeralUnused None.
Definition reader (bs : list Z) : DirectConnection :=
  mk_DirectConnection (mk_Conn bs EOF [] None 1 ephemeralUnused None) (Z.lor ClientProtocol41 ClientTransactions) 0.

Definition column (name : list Z) (typ : Z) : Field := mk_Field None [116] [116] [116] name name 33 20 typ 0 0 0 None.
Definition columns : list Field := [column [105; 100] 8; column [110] 253].
Definition merged : Merge.Result :=
  Merge.mkResult 2 0 0 ["id"; "n"]%string [[GInt KInt64 (-7); GString "ann"]; [GNil; GString ""]].
Definition merged_rows : list (list Z) := [[2; 45; 55; 3; 97; 110; 110]; [251; 0]].

Lemma columns_wf : Forall wf_field columns.
Proof. repeat constructor; vm_compute; done. Qed.
End wire_demo.

Section examples.
#[local] Existing Instances wire_demo.perfect_wire wire_demo.perfect_healthy wire_demo.dirty_pool wire_demo.dirty_ok
  wire_demo.no_floats.
Import wire_demo.

Lemma resultset_roundtrip_witness :
  exists bs c',
    writeOKResult 2 (mk_Result 2 0 0 (Some (mk_Resultset (map Some columns) ∅ (Values merged) merged_rows))) start =
      (c', Ret tt) /\
    exists dc' names', readResult (reader (bs ++ [9])) =
      (dc', Ret (mk_Result 2 0 0 (Some (mk_Resultset (map Some (map received columns)) names' (Values merged) merged_rows)))).
Proof.
  destruct (resultset_roundtrip columns merged merged_rows 2 ∅ start) as (bs & c' & E & _ & R).
  - split; vm_compute; done.
  - apply columns_wf.
  - repeat constructor; vm_compute; done.
  - reflexivity.
  - repeat constructor; vm_compute; done.
  - split; vm_compute; done.
  - split; reflexivity.
  - reflexivity.
  - exists bs, c'. split; [exact E|].
    destruct (R (reader (bs ++ [9])) [9] eq_refl eq_refl eq_refl) as (dc' & n' & E' & _). exists dc', n'. exact E'.
Defined.

Lemma error_roundtrip_witness :
  exists bs c', WriteErrorPacket 1062 [50; 51; 48; 48; 48] [100; 117; 112] start = (c', Ret tt) /\
    exists dc', readResult (reader (bs ++ [9])) = (dc', Err (Named "ERROR 1062 (23000): dup")).
Proof.
  destruct (error_roundtrip 1062 [50; 51; 48; 48; 48] [100; 117; 112] start) as (bs & c' & E & _ & R);
    [split; vm_compute; done|reflexivity|split; reflexivity|reflexivity|].
  exists bs, c'. split; [exact E|]. destruct (R (reader (bs ++ [9])) [9] eq_refl eq_refl eq_refl) as (dc' & E' & _). exists dc'. exact E'.
Defined.

Lemma packet_roundtrip_witness :
  exists bs c', WritePacket [1; 2; 3] start = (c', Ret tt) /\
    exists r', ReadPacket (conn (reader (bs ++ [9]))) = (r', Ret [1; 2; 3]).
Proof.
  destruct (packet_roundtrip [1; 2; 3] start) as (bs & c' & E & _ & R); [reflexivity|].
  exists bs, c'. split; [exact E|]. destruct (R (conn (reader (bs ++ [9]))) [9] eq_refl eq_refl) as (r' & E' & _). exists r'. exact E'.
Defined.
End examples.

(** [Dump] writes the length of the default value as eight bytes, [Parse] reads it as a
    length-encoded integer: the value is read too early. *)
Example Dump_shifts_default :
  let f := mk_Field None [] [] [] [110] [110] 33 20 253 0 0 3 (Some [97; 98; 99]) in
  DefaultValue <$> Parse (Dump f) = Ret (Some [0; 0; 0]).
Proof. reflexivity. Qed.

(** The fields are entered in [FieldNames] before they have their names, so the map
    holds the empty name only. *)
Example BuildResultset_forgets_names :
  FieldNames <$> @BuildResultset wire_demo.no_floats [] ["a"; "b"]%string [[GString "x"; GString "y"]] = Ret {[EmptyString := 1]}.
Proof. vm_compute. reflexivity. Qed.

(** A NULL is written as the text NULL, which a client cannot tell from the string. *)
Example BuildResultset_null_is_text :
  RowDatas <$> @BuildResultset wire_demo.no_floats [Some (wire_demo.column [97] 253)] ["a"%string] [[GNil]; [GString "NULL"]] =
    Ret [[4; 78; 85; 76; 76]; [4; 78; 85; 76; 76]].
Proof. reflexivity. Qed.
