(* ===== verification/MergeSort.v ===== *)
(** ORDER BY and LIMIT across shards: the comparison of rows is a total
    preorder, and sorting the limited results of the shards gives, up to ties,
    the rows the statement asks for. *)

From Stdlib Require Import Ascii String.
From S2P Require Import Prelude GoStr Hack Encoding Merge.

(** * Three-way comparisons *)

(** A comparison that orders the elements of [P]. *)
Record is_cmp {A} (P : A -> Prop) (c : A -> A -> Z) : Prop := {
  cmp_opp x y : P x -> P y -> c x y = - c y x;
  cmp_le_trans x y z : P x -> P y -> P z -> c x y <= 0 -> c y z <= 0 -> c x z <= 0;
}.

Section Cmp.
Context {A : Type} (P : A -> Prop) (c : A -> A -> Z) (C : is_cmp P c).

Lemma cmp_refl x : P x -> c x x = 0.
Proof. intros Hx. pose proof (cmp_opp _ _ C x x Hx Hx). lia. Qed.

Lemma cmp_eq_sym x y : P x -> P y -> c x y = 0 -> c y x = 0.
Proof. intros Hx Hy. rewrite (cmp_opp _ _ C x y) by done. lia. Qed.

Lemma cmp_lt_le x y z : P x -> P y -> P z -> c x y < 0 -> c y z <= 0 -> c x z < 0.
Proof.
  intros Hx Hy Hz H1 H2. pose proof (cmp_le_trans _ _ C x y z Hx Hy Hz ltac:(lia) H2).
  destruct (decide (c x z = 0)) as [E|]; [|lia]. exfalso.
  pose proof (cmp_le_trans _ _ C y z x Hy Hz Hx H2) as H3.
  rewrite (cmp_opp _ _ C z x), (cmp_opp _ _ C y x) in H3 by done. lia.
Qed.

Lemma cmp_le_lt x y z : P x -> P y -> P z -> c x y <= 0 -> c y z < 0 -> c x z < 0.
Proof.
  intros Hx Hy Hz H1 H2. pose proof (cmp_le_trans _ _ C x y z Hx Hy Hz H1 ltac:(lia)).
  destruct (decide (c x z = 0)) as [E|]; [|lia]. exfalso.
  pose proof (cmp_le_trans _ _ C z x y Hz Hx Hy) as H3.
  rewrite (cmp_opp _ _ C z x), (cmp_opp _ _ C z y) in H3 by done. lia.
Qed.

Lemma is_cmp_neg : is_cmp P (fun x y => - c x y).
Proof.
  constructor.
  - intros x y Hx Hy. rewrite (cmp_opp _ _ C x y) by done. lia.
  - intros x y z Hx Hy Hz H1 H2. rewrite <- (cmp_opp _ _ C z x) by done.
    apply (cmp_le_trans _ _ C z y x); try done;
      [rewrite (cmp_opp _ _ C z y) by done|rewrite (cmp_opp _ _ C y x) by done]; lia.
Qed.

Lemma is_cmp_map {B} (f : B -> A) : is_cmp (fun b => P (f b)) (fun x y => c (f x) (f y)).
Proof.
  constructor; [intros; by apply (cmp_opp _ _ C)|].
  intros x y z Hx Hy Hz. by apply (cmp_le_trans _ _ C (f x) (f y) (f z)).
Qed.

Lemma is_cmp_lex (d : A -> A -> Z) :
  is_cmp P d -> is_cmp P (fun x y => if c x y =? 0 then d x y else c x y).
Proof.
  intros D. constructor.
  - intros x y Hx Hy. rewrite (cmp_opp _ _ C x y) by done.
    destruct (c y x =? 0) eqn:E, (- c y x =? 0) eqn:E'; try lia. by apply (cmp_opp _ _ D).
  - intros x y z Hx Hy Hz.
    pose proof (cmp_le_trans _ _ C x y z Hx Hy Hz). pose proof (cmp_lt_le x y z Hx Hy Hz).
    pose proof (cmp_le_lt x y z Hx Hy Hz).
    destruct (c x y =? 0) eqn:E1, (c y z =? 0) eqn:E2, (c x z =? 0) eqn:E3; try lia.
    by apply (cmp_le_trans _ _ D).
Qed.

(** A strict weak order. *)
Lemma is_cmp_weak_order l : Forall P l -> weak_order (fun x y => c x y <? 0) l.
Proof.
  intros HP. rewrite Forall_forall in HP. constructor.
  - intros x Hx. rewrite cmp_refl by auto. done.
  - intros x y z Hx Hy Hz H1 H2. rewrite Z.ltb_lt in *.
    apply (cmp_lt_le x y z); auto; lia.
  - intros x y z Hx Hy Hz H1 H2. rewrite Z.ltb_ge in *.
    rewrite (cmp_opp _ _ C x z) by auto.
    assert (c z x <= 0); [|lia]. apply (cmp_le_trans _ _ C z y x); auto;
      [rewrite (cmp_opp _ _ C z y) by auto|rewrite (cmp_opp _ _ C y x) by auto]; lia.
Qed.

End Cmp.

Lemma is_cmp_impl {A} (P Q : A -> Prop) c : (forall x, Q x -> P x) -> is_cmp P c -> is_cmp Q c.
Proof.
  intros H C. constructor; [intros; apply (cmp_opp _ _ C); auto|].
  intros x y z Hx Hy Hz. apply (cmp_le_trans _ _ C); auto.
Qed.

(** * The comparisons of the code *)

Lemma is_cmp_Z : is_cmp (fun _ : Z => True) (fun a b => three_way (a <? b) (b <? a)).
Proof. constructor; unfold three_way; intros; repeat case_match; lia. Qed.

Lemma byte_of_inj a b : byte_of a = byte_of b -> a = b.
Proof.
  unfold byte_of. intros E. apply Nat2Z.inj in E.
  by rewrite <- (ascii_nat_embedding a), E, ascii_nat_embedding.
Qed.

Lemma sltb_asym a : forall b, sltb a b = true -> sltb b a = false.
Proof.
  induction a as [|x a IH]; intros [|y b]; cbn; try done.
  destruct (byte_of x <? byte_of y) eqn:E1, (byte_of y <? byte_of x) eqn:E2; try done; [lia|auto].
Qed.

Lemma sltb_le_trans a : forall b c, sltb b a = false -> sltb c b = false -> sltb c a = false.
Proof.
  induction a as [|x a IH]; intros [|y b] [|z c]; cbn; try done.
  destruct (byte_of y <? byte_of x) eqn:E1, (byte_of x <? byte_of y) eqn:E2,
    (byte_of z <? byte_of y) eqn:E3, (byte_of y <? byte_of z) eqn:E4,
    (byte_of z <? byte_of x) eqn:E5, (byte_of x <? byte_of z) eqn:E6; try done; try lia.
  apply IH.
Qed.

Lemma is_cmp_bytes : is_cmp (fun _ : string => True) bytes_compare.
Proof.
  constructor; unfold bytes_compare, three_way.
  - intros x y _ _. pose proof (sltb_asym x y). pose proof (sltb_asym y x).
    destruct (sltb x y), (sltb y x); try done; naive_solver.
  - intros x y z _ _ _. pose proof (sltb_le_trans x y z). pose proof (sltb_asym z x).
    pose proof (sltb_asym x y). pose proof (sltb_asym y z).
    destruct (sltb x y), (sltb y x), (sltb y z), (sltb z y), (sltb x z), (sltb z x); cbn;
      naive_solver lia.
Qed.

(** The values a column of one type holds, NULL included. *)
Inductive okind := OInt | OUint | OString | OBytes.

Definition of_kind (o : okind) (v : gval) : bool :=
  match o, v with
  | _, GNil => true
  | OInt, GInt KInt64 _ | OUint, GInt KUint64 _ | OString, GString _ | OBytes, GBytes _ => true
  | _, _ => false
  end.

(** [cmpValue] on a column of one type. *)
Definition value_cmp (v1 v2 : gval) : Z :=
  match cmpValue v1 v2 with Ret z => z | _ => 0 end.

Lemma cmpValue_kind o v1 v2 :
  of_kind o v1 -> of_kind o v2 -> cmpValue v1 v2 = Ret (value_cmp v1 v2).
Proof.
  intros H1 H2. unfold value_cmp.
  destruct o, v1 as [|[]| | | | |]; try done; by destruct v2 as [|[]| | | | |].
Qed.

Lemma is_cmp_value o : is_cmp (fun v => of_kind o v) value_cmp.
Proof.
  constructor; unfold value_cmp.
  - intros x y Hx Hy.
    destruct o, x as [|[]| | | | |]; try done; destruct y as [|[]| | | | |]; try done; cbn;
      first [by apply (cmp_opp _ _ is_cmp_Z)|by apply (cmp_opp _ _ is_cmp_bytes)].
  - intros x y z Hx Hy Hz.
    destruct o, x as [|[]| | | | |]; try done; destruct y as [|[]| | | | |]; try done;
      destruct z as [|[]| | | | |]; try done; cbn;
      first [lia|by apply (cmp_le_trans _ _ is_cmp_Z)|by apply (cmp_le_trans _ _ is_cmp_bytes)].
Qed.

(** The value of a row in a column. *)
Definition col (r : ResultRow) (k : SortKey) : gval :=
  match index r (Column k) with Ret v => v | _ => GNil end.

(** [Less] as a comparison. *)
Fixpoint row_cmp (sk : list SortKey) (v1 v2 : ResultRow) {struct sk} : Z :=
  match sk with
  | [] => 0
  | k :: sk' =>
      let v := value_cmp (col v1 k) (col v2 k) in
      let v := if Desc k then - v else v in
      if v =? 0 then row_cmp sk' v1 v2 else v
  end.

(** A row whose sort columns exist and have the given types. *)
Definition row_ok (sk : list SortKey) (os : list okind) (r : ResultRow) : Prop :=
  Forall2 (fun k o => 0 <= Column k < zlen r /\ of_kind o (col r k)) sk os.

Lemma is_cmp_row sk os : length sk = length os -> is_cmp (row_ok sk os) (row_cmp sk).
Proof.
  revert os. induction sk as [|k sk IH]; intros [|o os] Hl; try done.
  cbn [row_cmp]. set (c := fun v1 v2 => if Desc k then - value_cmp (col v1 k) (col v2 k)
                                        else value_cmp (col v1 k) (col v2 k)).
  assert (is_cmp (row_ok (k :: sk) (o :: os)) c) as C.
  { apply (is_cmp_impl (fun r => of_kind o (col r k))).
    - intros r Hr. inversion Hr; subst. naive_solver.
    - pose proof (is_cmp_map _ _ (is_cmp_value o) (fun r => col r k)) as C0. unfold c.
      destruct (Desc k); [apply (is_cmp_neg _ _ C0)|exact C0]. }
  apply (is_cmp_lex _ c C). apply (is_cmp_impl (row_ok sk os)); [|apply IH; cbn in Hl; lia].
  intros r Hr. by inversion Hr.
Qed.

Lemma Less_cmp sk os v1 v2 :
  row_ok sk os v1 -> row_ok sk os v2 -> Less sk v1 v2 = Ret (row_cmp sk v1 v2 <? 0).
Proof.
  revert os. induction sk as [|k sk IH]; intros os H1 H2; [done|].
  inversion H1 as [|? o ? os' [R1 K1] H1']; subst. inversion H2 as [|? ? ? ? [R2 K2] H2']; subst.
  cbn [Less row_cmp]. unfold col in *.
  destruct (index_in_range v1 (Column k) R1) as (a & Ea & _).
  destruct (index_in_range v2 (Column k) R2) as (b & Eb & _). rewrite Ea, Eb in *.
  cbn [mbind outcome_bind]. rewrite (cmpValue_kind o a b K1 K2). cbn [mbind outcome_bind].
  set (v := if Desc k then _ else _). destruct (v <? 0) eqn:E1.
  - by rewrite (proj2 (Z.eqb_neq v 0)), E1 by lia.
  - destruct (0 <? v) eqn:E2.
    + by rewrite (proj2 (Z.eqb_neq v 0)), E1 by lia.
    + rewrite (proj2 (Z.eqb_eq v 0)) by lia. by apply (IH os').
Qed.

(** * The first rows of many sorted lists *)

Section TopK.
Context {A : Type} (P : A -> Prop) (c : A -> A -> Z) (C : is_cmp P c).

Definition ordered (l : list A) : Prop := StronglySorted (fun x y => c x y <= 0) l.

(** How many elements are at most, and below, a given one. *)
Definition at_most (t : A) (l : list A) : nat := length (filter (fun x => c x t <= 0) l).
Definition below (t : A) (l : list A) : nat := length (filter (fun x => c x t < 0) l).

Lemma at_most_app t l k : at_most t (l ++ k) = (at_most t l + at_most t k)%nat.
Proof. unfold at_most. by rewrite filter_app, length_app. Qed.

Lemma at_most_perm t l k : l ≡ₚ k -> at_most t l = at_most t k.
Proof. intros E. unfold at_most. by rewrite E. Qed.

Lemma below_perm t l k : l ≡ₚ k -> below t l = below t k.
Proof. intros E. unfold below. by rewrite E. Qed.

Lemma at_most_all t l : Forall (fun x => c x t <= 0) l -> at_most t l = length l.
Proof. intros H. unfold at_most. by rewrite filter_all. Qed.

Lemma at_most_none t l : Forall (fun x => ~ c x t <= 0) l -> at_most t l = 0%nat.
Proof. intros H. unfold at_most. by rewrite filter_none. Qed.

Lemma at_most_le_below x y l :
  P x -> P y -> Forall P l -> c x y < 0 -> (at_most x l <= below y l)%nat.
Proof.
  intros Hx Hy Hl Hxy. unfold at_most, below. induction Hl as [|a l Ha Hl IH]; [done|].
  rewrite !filter_cons. case_decide as D1; case_decide as D2; cbn [length]; try lia.
  pose proof (cmp_le_lt P c C a x y Ha Hx Hy D1 Hxy). lia.
Qed.

(** The position of an element in an ordered list. *)
Lemma ordered_position l i x :
  ordered l -> Forall P l -> l !! i = Some x -> (below x l <= i < at_most x l)%nat.
Proof.
  intros O HP E. apply list_elem_of_split_length in E as (l1 & l2 & -> & ->).
  unfold ordered in O. apply StronglySorted_app in O as (H12 & O1 & O2).
  apply Forall_app in HP as [P1 P2]. apply Forall_cons in P2 as [Px P2].
  apply StronglySorted_inv in O2 as [_ H2].
  unfold at_most, below. rewrite !filter_app, !length_app, !filter_cons.
  rewrite (cmp_refl P c C x Px).
  rewrite (decide_False (P := 0 < 0)), (decide_True (P := 0 <= 0)) by lia. cbn [length].
  rewrite (filter_all (fun y => c y x <= 0) l1), (filter_none (fun y => c y x < 0) l2).
  - pose proof (length_filter (fun y => c y x < 0) l1). cbn. lia.
  - rewrite Forall_forall in *. intros y Hy. pose proof (H2 y Hy).
    rewrite (cmp_opp P c C y x) by auto. lia.
  - rewrite Forall_forall. intros y Hy. apply (H12 y x); [done|left].
Qed.

(** What a list keeps below a bound when only its first [k] elements remain. *)
Lemma shard_count k t l :
  ordered l -> Forall P l -> P t ->
  at_most t (take k l) = at_most t l \/ (k <= at_most t (take k l))%nat.
Proof.
  intros O HP Ht. destruct (decide (Exists (fun x => c x t <= 0) (drop k l))) as [E|N].
  - right. apply Exists_exists in E as (d & Hd & Hdt).
    assert (length (take k l) = k) as Hk.
    { rewrite length_take. assert (drop k l <> []) as Hne by (by intros E0; rewrite E0 in Hd; inversion Hd).
      destruct (decide (length l <= k)%nat); [|lia]. by rewrite drop_ge in Hne. }
    rewrite at_most_all, Hk; [done|].
    rewrite <- (take_drop k l) in O, HP. unfold ordered in O.
    apply StronglySorted_app in O as (H12 & _ & _). apply Forall_app in HP as [P1 P2].
    rewrite Forall_forall in *. intros x Hx.
    apply (cmp_le_trans P c C x d t); auto.
  - left. rewrite <- (take_drop k l) at 2. rewrite at_most_app.
    rewrite (at_most_none t (drop k l)); [lia|]. by apply not_Exists_Forall in N; [|apply _].
Qed.

Lemma shards_count k t ls :
  Forall ordered ls -> Forall (Forall P) ls -> P t ->
  at_most t (concat (take k <$> ls)) = at_most t (concat ls) \/
  (k <= at_most t (concat (take k <$> ls)))%nat.
Proof.
  intros O HP Ht. induction ls as [|l ls IH]; [by left|].
  apply Forall_cons in O as [O1 O]. apply Forall_cons in HP as [P1 P2].
  cbn [fmap list_fmap concat]. rewrite !at_most_app.
  destruct (shard_count k t l O1 P1 Ht), (IH O P2); lia.
Qed.

Lemma at_most_take_le k t ls :
  (at_most t (concat (take k <$> ls)) <= at_most t (concat ls))%nat.
Proof.
  induction ls as [|l ls IH]; [done|]. cbn [fmap list_fmap concat]. rewrite !at_most_app.
  rewrite <- (take_drop k l) at 2. rewrite at_most_app. lia.
Qed.

(** Lengths: either no element was dropped or [k] are left. *)
Lemma take_length k (ls : list (list A)) :
  concat (take k <$> ls) = concat ls \/ (k <= length (concat (take k <$> ls)))%nat.
Proof.
  induction ls as [|l ls IH]; [by left|]. cbn [fmap list_fmap concat]. rewrite length_app.
  destruct (decide (length l <= k)%nat).
  - rewrite take_ge by done. destruct IH as [->|]; [by left|right; lia].
  - right. rewrite length_take. lia.
Qed.

Lemma take_concat_length k (ls : list (list A)) :
  (length (concat (take k <$> ls)) <= length (concat ls))%nat.
Proof.
  induction ls as [|l ls IH]; [done|]. cbn [fmap list_fmap concat].
  rewrite !length_app, length_take. lia.
Qed.

Lemma take_concat_P k (ls : list (list A)) :
  Forall (Forall P) ls -> Forall P (concat (take k <$> ls)) /\ Forall P (concat ls).
Proof.
  induction 1 as [|l ls Hl Hls [IH1 IH2]]; [done|]. cbn [fmap list_fmap concat].
  rewrite !Forall_app. split_and!; try done. by apply Forall_take.
Qed.

(** The first [k] elements of the union, up to ties, are found among the first
    [k] of every list. *)
Lemma topk ls k sA sB :
  Forall ordered ls -> Forall (Forall P) ls ->
  sA ≡ₚ concat ls -> ordered sA -> sB ≡ₚ concat (take k <$> ls) -> ordered sB ->
  Forall2 (fun x y => c x y = 0) (take k sB) (take k sA).
Proof.
  intros O HP EA OA EB OB. destruct (take_concat_P k ls HP) as [PB PA].
  assert (Forall P sA) as PsA by (by rewrite EA). assert (Forall P sB) as PsB by (by rewrite EB).
  apply Forall2_same_length_lookup_2.
  - rewrite !length_take, EA, EB. destruct (take_length k ls) as [->|]; [done|].
    pose proof (take_concat_length k ls). lia.
  - intros i x y Hx Hy. apply lookup_take_Some in Hx as [Hx Hi].
    apply lookup_take_Some in Hy as [Hy _].
    pose proof (Forall_lookup_1 _ _ _ _ PsB Hx) as Px.
    pose proof (Forall_lookup_1 _ _ _ _ PsA Hy) as Py.
    pose proof (ordered_position sB i x OB PsB Hx) as [Bx Mx].
    pose proof (ordered_position sA i y OA PsA Hy) as [By My].
    rewrite (at_most_perm _ _ _ EB), (below_perm _ _ _ EB) in *.
    rewrite (at_most_perm _ _ _ EA), (below_perm _ _ _ EA) in *.
    destruct (Z.lt_trichotomy (c x y) 0) as [L|[E|G]]; [exfalso|done|exfalso].
    + pose proof (at_most_le_below x y _ Px Py PA L). pose proof (at_most_take_le k x ls). lia.
    + assert (c y x < 0) as L by (rewrite (cmp_opp P c C y x) by done; lia).
      pose proof (at_most_le_below y x _ Py Px PB L).
      destruct (shards_count k y ls O HP Py); lia.
Qed.

End TopK.

(** * ORDER BY with LIMIT over shards *)

(** The rows [LIMIT offset, count] keeps. *)
Definition sql_limit {A} (limit : option (Z * option Z)) (rows : list A) : list A :=
  match limit with
  | None => rows
  | Some (c, o) => take (Z.to_nat c) (drop (Z.to_nat (default 0 o)) rows)
  end.

Definition limit_ok (limit : option (Z * option Z)) : Prop :=
  match limit with
  | None => True
  | Some (c, o) => 0 <= c /\ 0 <= default 0 o /\ c + default 0 o <= max_i64
  end.

(** The number of rows a shard is asked for; without LIMIT, [n] is any number. *)
Definition shard_rows (limit : option (Z * option Z)) (n : nat) : nat :=
  match limit with None => n | Some (c, o) => Z.to_nat (c + default 0 o) end.

Lemma take_of_drop {A} (c o : nat) (l : list A) : take c (drop o l) = drop o (take (o + c) l).
Proof. by rewrite take_drop_commute. Qed.

(** A shard runs the rewritten limit. *)
Lemma handleLimit_shard {A} p limit n (rows : list A) :
  limit_ok limit -> (length rows <= n)%nat ->
  sql_limit (handleLimit p limit).2 rows = take (shard_rows limit n) rows.
Proof.
  intros L Hn. unfold handleLimit, NeedRewriteLimitOrCreateRewrite.
  destruct limit as [[c [o|]]|]; cbn in *.
  - destruct (o =? 0) eqn:E; cbn.
    + assert (o = 0) as -> by lia. by rewrite drop_0, Z.add_0_r.
    + by rewrite drop_0, i64_id by (unfold_int; lia).
  - by rewrite drop_0, Z.add_0_r.
  - by rewrite take_ge.
Qed.

Lemma sql_limit_take {A} limit n (rows : list A) :
  limit_ok limit -> (length rows <= n)%nat ->
  sql_limit limit rows = sql_limit limit (take (shard_rows limit n) rows).
Proof.
  intros L Hn. destruct limit as [[c o]|]; cbn in *; [|by rewrite take_ge].
  rewrite !take_of_drop, take_take. do 2 f_equal. lia.
Qed.

Lemma sql_limit_Forall2 {A B} (R : A -> B -> Prop) limit l k :
  Forall2 R l k -> Forall2 R (sql_limit limit l) (sql_limit limit k).
Proof. destruct limit as [[c o]|]; cbn; [|done]. intros H. by apply Forall2_take, Forall2_drop. Qed.

(** [limitSelectResult] keeps the rows of the statement's limit. *)
Lemma limitSelectResult_ok p limit r :
  limit_ok limit ->
  limitSelectResult (handleLimit p limit).1 r = Ret (set_Values r (sql_limit limit (Values r))).
Proof.
  intros L. unfold handleLimit, NeedRewriteLimitOrCreateRewrite, limitSelectResult, HasLimit.
  assert (forall c o, 0 <= c -> 0 <= o -> c + o <= max_i64 ->
    (if zlen (Values r) <=? o then Ret (set_Values r [])
     else vs ← reslice (Values r) o (MinInt64 (i64 (o + c)) (zlen (Values r))); Ret (set_Values r vs)) =
    Ret (set_Values r (take (Z.to_nat c) (drop (Z.to_nat o) (Values r))))) as K.
  { intros c o Hc Ho Hm. rewrite i64_id by (unfold_int; lia).
    destruct (zlen (Values r) <=? o) eqn:E.
    - rewrite drop_ge by (unfold zlen in E; lia). by rewrite take_nil.
    - unfold MinInt64, reslice. set (n := zlen (Values r)) in *.
      rewrite decide_True by (destruct (_ <? n) eqn:E2; lia). cbn [mbind outcome_bind]. do 2 f_equal.
      destruct (o + c <? n) eqn:E2; [f_equal; lia|].
      rewrite !take_ge; [done| |]; rewrite length_drop; unfold n, zlen in *; lia. }
  destruct limit as [[c [o|]]|]; cbn in L |- *.
  - destruct (o =? 0) eqn:E; cbn.
    + assert (o = 0) as -> by lia. destruct (c =? -1) eqn:E1; [lia|]. cbn.
      destruct L as (L1 & L2 & L3). by rewrite (K c 0) by lia.
    + destruct (c =? -1) eqn:E1; [lia|]. cbn. destruct L as (L1 & L2 & L3). by rewrite K by lia.
  - destruct (c =? -1) eqn:E1; [lia|]. cbn. destruct L as (L1 & L2 & L3). by rewrite (K c 0) by lia.
  - by destruct r.
Qed.

(** Merging the results of at least one shard concatenates their rows. *)
Lemma mergeMulti_Values r0 rs :
  exists st, mergeMultiResultSet (r0 :: rs) =
    Ret (mkResult st (InsertID r0) (AffectedRows r0) (Fields r0) (concat (Values <$> (r0 :: rs)))).
Proof.
  cbn [mergeMultiResultSet]. revert r0. induction rs as [|r rs IH]; intros r0.
  - exists (Status r0). cbn. rewrite app_nil_r. by destruct r0.
  - cbn [fold_left]. destruct (IH (mkResult (Z.lor (Status r0) (Status r)) (InsertID r0)
      (AffectedRows r0) (Fields r0) (Values r0 ++ Values r))) as [st E].
    exists st. rewrite E. do 2 f_equal. cbn. by rewrite app_assoc.
Qed.

(** [handleLimit] changes only the limit of the plan. *)
Lemma handleLimit_fields p limit :
  let q := (handleLimit p limit).1 in
  distinct q = distinct p /\ hasGroupBy q = hasGroupBy p /\ aggregateFuncs q = aggregateFuncs p /\
  orderByColumn q = orderByColumn p /\ orderByDirections q = orderByDirections p /\
  columnCount q = columnCount p /\ originColumnCount q = originColumnCount p.
Proof. cbv zeta. unfold handleLimit. by destruct (NeedRewriteLimitOrCreateRewrite limit) as [[[]]]. Qed.

Definition formattable (v : gval) : bool := match v with GOther _ => false | _ => true end.

Section OrderLimit.
Context {FT : FloatText} {GS : GoSort} {GSO : GoSortOk}.
Context (order : gmap string ResultRow -> list string).

Lemma sort_rows sk os vs :
  length sk = length os -> Forall (row_ok sk os) vs ->
  exists vs', go_sort (Less sk) vs = Ret vs' /\ vs' ≡ₚ vs /\ ordered (row_cmp sk) vs'.
Proof.
  intros Hl Hv. pose proof (is_cmp_row sk os Hl) as C.
  destruct (go_sort_ok _ (Less sk) (fun x y => row_cmp sk x y <? 0) vs) as (vs' & E & P & S).
  - rewrite Forall_forall in Hv. intros x y Hx Hy. apply (Less_cmp sk os); auto.
  - by apply (is_cmp_weak_order _ _ C).
  - exists vs'. split; [done|]. split; [done|]. unfold ordered.
    assert (Forall (row_ok sk os) vs') as Hv' by (by rewrite P).
    clear -S C Hv'. induction S as [|x l S IH Hx]; [constructor|].
    apply Forall_cons in Hv' as [H1 H2]. constructor; [by apply IH|].
    rewrite Forall_forall in *. intros y Hy. specialize (Hx y Hy). cbn in Hx.
    rewrite (cmp_opp _ _ C x y) by auto. apply Z.ltb_ge in Hx. lia.
Qed.

Lemma row_data_total vs row :
  Forall (fun v => formattable v) vs -> exists d, row_data vs row = Ret d.
Proof.
  intros H. revert row. induction H as [|v vs Hv Hvs IH]; intros row; [by eexists|].
  destruct v as [|[]| | | | |]; try done; cbn [row_data formatValue mbind outcome_bind]; apply IH.
Qed.

(** Trimming the added columns and rebuilding the rows. *)
Lemma finish_ok p r e :
  e = deltaColumnCount p r + originColumnCount p -> 0 <= e <= zlen (Fields r) ->
  Forall (fun v => zlen v = zlen (Fields r) /\ Forall (fun x => formattable x) v) (Values r) ->
  exists ret datas,
    (ret ← wrap "trimExtraFields error: %v" (trimExtraFields p r);
     datas ← wrap "generate RowData error: %v" (GenerateSelectResultRowData ret);
     Ret (ret, datas)) = Ret (ret, datas) /\
    Values ret = take (Z.to_nat e) <$> Values r.
Proof.
  intros -> He HV. unfold trimExtraFields. set (e := deltaColumnCount p r + originColumnCount p) in *.
  rewrite (proj2 (Z.eqb_neq e (-1))) by lia. rewrite Forall_forall in HV.
  assert (forall A (l : list A), 0 <= e <= zlen l -> reslice l 0 e = Ret (take (Z.to_nat e) l)) as R.
  { intros A l Hl. unfold reslice. rewrite decide_True by lia. cbn. by rewrite drop_0, Z.sub_0_r. }
  rewrite R by done. cbn [mbind outcome_bind].
  assert (@mapM outcome _ _ (list gval) ResultRow (fun v => reslice v 0 e) (Values r) =
          Ret (map (take (Z.to_nat e)) (Values r))) as ->.
  { apply mapM_pure. intros v Hv. apply R. by destruct (HV v Hv) as [-> _]. }
  cbn [mbind outcome_bind wrap]. set (ret := mkResult _ _ _ _ _).
  assert (exists datas, GenerateSelectResultRowData ret = Ret datas) as [datas ->].
  { unfold GenerateSelectResultRowData. subst ret. cbn [Values Fields].
    assert (forall l, (forall v, v ∈ l -> v ∈ Values r) -> exists d, mapM (fun vs =>
      if negb (zlen vs =? zlen (take (Z.to_nat e) (Fields r)))
      then Err (Errorf "row %d has %d column not equal %d") else row_data vs [])
      (map (take (Z.to_nat e)) l) = Ret d) as K; [|by apply K].
    induction l as [|v l IH]; intros Hl; [by eexists|].
    destruct (HV v (Hl v ltac:(left))) as [Hw Hf].
    destruct (IH ltac:(intros w Hw'; apply Hl; by right)) as [d Hd].
    destruct (row_data_total (take (Z.to_nat e) v) [] (Forall_take _ _ _ Hf)) as [b Hb].
    cbn [map mapM]. rewrite Hd. unfold zlen in *. rewrite !length_take.
    replace (Z.of_nat (Z.to_nat e `min` length v)) with
      (Z.of_nat (Z.to_nat e `min` length (Fields r))) by lia.
    rewrite Z.eqb_refl. cbn [negb]. rewrite Hb. cbn [mbind outcome_bind]. by eexists. }
  cbn [mbind outcome_bind wrap]. by eexists _, _.
Qed.

Lemma sortSelectResult_ok q r sk os :
  HasOrderBy q = true ->
  sort_keys (zlen (Fields r) - columnCount q) (orderByColumn q) (orderByDirections q) = Ret sk ->
  length sk = length os -> Forall (row_ok sk os) (Values r) ->
  exists vs, sortSelectResult q r = Ret (set_Values r vs) /\ vs ≡ₚ Values r /\
    ordered (row_cmp sk) vs.
Proof.
  intros Eo Ek El HR. unfold sortSelectResult, deltaColumnCount, SortWithoutColumnName.
  rewrite Eo, Ek. cbn [negb mbind outcome_bind].
  destruct (sort_rows sk os (Values r) El HR) as (vs & -> & P & O). by exists vs.
Qed.

(** A statement without DISTINCT, GROUP BY and aggregates is only sorted and limited. *)
Lemma merge_plain q rs :
  distinct q = false -> hasGroupBy q = false -> aggregateFuncs q = [] ->
  MergeSelectResult order q rs =
    (ret ← mergeMultiResultSet rs;
     ret ← sortSelectResult q ret;
     ret ← limitSelectResult q ret;
     ret ← wrap "trimExtraFields error: %v" (trimExtraFields q ret);
     datas ← wrap "generate RowData error: %v" (GenerateSelectResultRowData ret);
     Ret (ret, datas)).
Proof.
  intros Ed Eg Ea. unfold MergeSelectResult, buildSelectOnlyResult. rewrite Ed, Eg, Ea.
  by destruct (mergeMultiResultSet rs).
Qed.

(** An ORDER BY query on shards: every shard holds its rows in the order of the
    statement, all rows have the width of the fields and sort columns of the
    same types. *)
Record order_query (p : SelectPlan) (fields : list string) (sk : list SortKey)
    (os : list okind) (shards : list (list ResultRow)) : Prop := {
  oq_plain : distinct p = false /\ hasGroupBy p = false /\ aggregateFuncs p = [];
  oq_order : HasOrderBy p = true;
  oq_keys : sort_keys (zlen fields - columnCount p) (orderByColumn p) (orderByDirections p) = Ret sk;
  oq_width : 0 <= zlen fields - columnCount p + originColumnCount p <= zlen fields;
  oq_kinds : length sk = length os;
  oq_sorted : Forall (ordered (row_cmp sk)) shards;
  oq_rows : Forall (Forall (row_ok sk os)) shards;
  oq_values : Forall (Forall (fun v => zlen v = zlen fields /\ Forall (fun x => formattable x) v)) shards;
}.

(** C9: ORDER BY with LIMIT: when every shard returns the first rows of its
    sorted rows, as many as the rewritten LIMIT asks for, the merged result
    exists and its rows are, up to rows that compare equal, those that
    [LIMIT offset, count] selects from the sorted union of all shards. *)
Theorem order_limit_pushdown p fields sk os shards limit rs all :
  order_query p fields sk os shards -> limit_ok limit ->
  rs <> [] -> Forall (fun r => Fields r = fields) rs ->
  Values <$> rs = sql_limit (handleLimit p limit).2 <$> shards ->
  all ≡ₚ concat shards -> ordered (row_cmp sk) all ->
  exists ret datas rows,
    MergeSelectResult order (handleLimit p limit).1 rs = Ret (ret, datas) /\
    Values ret = take (Z.to_nat (zlen fields - columnCount p + originColumnCount p)) <$> rows /\
    Forall2 (fun r a => row_cmp sk r a = 0) rows (sql_limit limit all).
Proof.
  intros [(Ed & Eg & Ea) Eo Ek Ew El Os Or Ov] L N EF EV EA OA.
  destruct rs as [|r0 rs]; [done|]. apply Forall_cons in EF as [EF _].
  set (n := length (concat shards)). set (k := shard_rows limit n).
  assert (concat (Values <$> (r0 :: rs)) = concat (take k <$> shards)) as EC.
  { rewrite EV. f_equal. apply list_fmap_ext. intros i rows Hi. apply handleLimit_shard; [done|].
    subst n. apply list_elem_of_lookup_2, list_elem_of_split in Hi as (l1 & l2 & ->).
    rewrite concat_app. cbn [concat]. rewrite !length_app. lia. }
  destruct (mergeMulti_Values r0 rs) as [st E0]. rewrite EC, EF in E0.
  destruct (handleLimit_fields p limit) as (Q1 & Q2 & Q3 & Q4 & Q5 & Q6 & Q7).
  rewrite merge_plain, E0 by congruence. cbn [mbind outcome_bind].
  set (R := mkResult _ _ _ _ _).
  destruct (sortSelectResult_ok (handleLimit p limit).1 R sk os) as (sB & -> & PB & OB).
  { unfold HasOrderBy in *. by rewrite Q5. }
  { by rewrite Q4, Q5, Q6. } { done. } { exact (proj1 (take_concat_P _ _ _ Or)). }
  cbn [mbind outcome_bind]. rewrite limitSelectResult_ok by done. cbn [mbind outcome_bind].
  change (Values (set_Values R sB)) with sB.
  change (Values R) with (concat (take k <$> shards)) in PB.
  destruct (finish_ok (handleLimit p limit).1 (set_Values (set_Values R sB) (sql_limit limit sB))
    (zlen fields - columnCount p + originColumnCount p)) as (ret & datas & -> & Ev).
  - unfold deltaColumnCount. by rewrite Q6, Q7.
  - done.
  - assert (Forall (fun v => zlen v = zlen fields /\ Forall (fun x => formattable x) v) sB) as HV
      by (rewrite PB; exact (proj1 (take_concat_P _ _ _ Ov))).
    cbn [Values Fields set_Values]. destruct limit as [[c o]|]; [|done].
    by apply Forall_take, Forall_drop.
  - exists ret, datas, (sql_limit limit sB). split; [done|]. split; [exact Ev|].
    assert (length all <= n)%nat as Hn by (subst n; by rewrite EA).
    assert (length sB <= n)%nat as HnB by (rewrite PB; apply take_concat_length).
    rewrite (sql_limit_take limit n all L Hn), (sql_limit_take limit n sB L HnB).
    apply sql_limit_Forall2. by apply (topk _ _ (is_cmp_row sk os El) shards).
Qed.

End OrderLimit.

(** * A sort that satisfies the contract *)

Section InsertionSort.
Context {A : Type} (less : A -> A -> outcome bool).

Fixpoint insert_m (x : A) (l : list A) : outcome (list A) :=
  match l with
  | [] => Ret [x]
  | y :: l' => b ← less x y; if (b : bool) then Ret (x :: l) else r ← insert_m x l'; Ret (y :: r)
  end.

Fixpoint isort (l : list A) : outcome (list A) :=
  match l with
  | [] => Ret []
  | x :: l' => r ← isort l'; insert_m x r
  end.

Context (lt : A -> A -> bool) (all : list A).
Context (Hless : forall x y, x ∈ all -> y ∈ all -> less x y = Ret (lt x y)).
Context (W : weak_order lt all).

Lemma insert_m_ok x l :
  x ∈ all -> Forall (.∈ all) l -> sorted_by lt l ->
  exists r, insert_m x l = Ret r /\ r ≡ₚ x :: l /\ sorted_by lt r.
Proof.
  intros Hx Hl S. induction S as [|y l S IH Hy]; [eexists; split_and!; [done|done|by repeat constructor]|].
  apply Forall_cons in Hl as [Ay Al]. cbn [insert_m]. rewrite Hless by done.
  cbn [mbind outcome_bind]. rewrite Forall_forall in Al, Hy. destruct (lt x y) eqn:E.
  - eexists. split_and!; [done|done|]. unfold sorted_by. constructor.
    + by constructor; [|rewrite Forall_forall].
    + apply Forall_cons. split.
      * destruct (lt y x) eqn:E2; [|done]. pose proof (wo_trans _ _ W y x y Ay Hx Ay E2 E) as H.
        by rewrite (wo_irrefl _ _ W y Ay) in H.
      * rewrite Forall_forall. intros z Hz. destruct (lt z x) eqn:E2; [|done].
        pose proof (wo_trans _ _ W z x y (Al z Hz) Hx Ay E2 E) as H. by rewrite (Hy z Hz) in H.
  - destruct IH as (r & -> & P & Sr); [by rewrite Forall_forall|]. cbn [mbind outcome_bind].
    eexists. split_and!; [done| |].
    + rewrite P. apply Permutation_swap.
    + constructor; [done|]. rewrite P. apply Forall_cons. split; [done|by rewrite Forall_forall].
Qed.

Lemma isort_ok l :
  Forall (.∈ all) l -> exists r, isort l = Ret r /\ r ≡ₚ l /\ sorted_by lt r.
Proof.
  induction 1 as [|x l Hx Hl (r & E & P & S)]; [eexists; split_and!; [done|done|constructor]|].
  cbn [isort]. rewrite E. cbn [mbind outcome_bind].
  destruct (insert_m_ok x r) as (r' & -> & P' & S'); [done|by rewrite P|done|].
  exists r'. split; [done|]. split; [by rewrite P', P|done].
Qed.

End InsertionSort.

Definition isort_GoSort : GoSort := fun A => isort.

Lemma isort_GoSortOk : @GoSortOk isort_GoSort.
Proof.
  intros A less lt l Hl W. apply (isort_ok less lt l Hl W). by apply Forall_forall.
Qed.

(** * Witness: [SELECT id FROM t ORDER BY id LIMIT 1, 2] over two shards *)

Definition no_floats : FloatText :=
  {| ParseFloat := fun _ => Err ErrSyntax; FormatFloat := fun _ => "" |}.

Definition int_row (z : Z) : ResultRow := [GInt KInt64 z].

Definition order_plan : SelectPlan :=
  mkSelectPlan false false [] [0] [false] 1 1 [] (-1) (-1).

Definition shard_result (zs : list Z) : Result := mkResult 2 0 0 ["id"] (int_row <$> zs).

Lemma order_query_demo :
  order_query order_plan ["id"] [mkSortKey false 0] [OInt]
    [int_row <$> [1; 4; 6; 7]; int_row <$> [2; 3]].
Proof.
  constructor; try done; try (repeat constructor; done).
Qed.

Lemma order_limit_pushdown_witness :
  exists ret datas rows,
    @MergeSelectResult no_floats (fun m => (map_to_list m).*1) isort_GoSort
      (handleLimit order_plan (Some (2, Some 1))).1 [shard_result [1; 4; 6]; shard_result [2; 3]] =
      Ret (ret, datas) /\
    Values ret = take 1 <$> rows /\
    Forall2 (fun r a => row_cmp [mkSortKey false 0] r a = 0) rows (int_row <$> [2; 3]).
Proof.
  destruct (@order_limit_pushdown no_floats isort_GoSort isort_GoSortOk (fun m => (map_to_list m).*1)
    order_plan ["id"] [mkSortKey false 0] [OInt] [int_row <$> [1; 4; 6; 7]; int_row <$> [2; 3]]
    (Some (2, Some 1)) [shard_result [1; 4; 6]; shard_result [2; 3]]
    (int_row <$> [1; 2; 3; 4; 6; 7])) as (ret & datas & rows & H1 & H2 & H3).
  - exact order_query_demo.
  - cbn. unfold_int. lia.
  - discriminate.
  - repeat constructor.
  - reflexivity.
  - cbn. solve_Permutation.
  - repeat constructor; discriminate.
  - exists ret, datas, rows. split; [exact H1|]. split; [exact H2|exact H3].
Defined.
