(* ===== verification/MergeGroup.v ===== *)
(** DISTINCT, GROUP BY and aggregate functions over shards: the merged rows
    against the aggregates of all rows. *)

From Stdlib Require Import Ascii String Floats.SpecFloat.
From S2P Require Import Prelude GoStr Hack Encoding Merge.

(** * Aggregates of a column *)

(** The value of a row in a column. *)
Definition at_col (i : Z) (r : ResultRow) : gval :=
  match index r i with Ret v => v | _ => GNil end.

(** The types of columns the text protocol is read into: integers of both signs, floats
    (DECIMAL and DOUBLE, so every SUM of a server) and texts. *)
Inductive colType := TInt | TUint | TFloat | TText.

Definition int_of (v : gval) : option Z := match v with GInt KInt64 z => Some z | _ => None end.
Definition uint_of (v : gval) : option Z := match v with GInt KUint64 z => Some z | _ => None end.
Definition float_of (v : gval) : option spec_float := match v with GFloat64 x => Some x | _ => None end.
Definition text_of (v : gval) : option string := match v with GString x => Some x | _ => None end.

Abbreviation fadd := (SFadd 53 1024).

(** The sum of the floats of a column, from left to right; NULL where there is none. *)
Definition float_sum (vs : list gval) : gval :=
  match vs with
  | GFloat64 x :: vs => GFloat64 (foldl fadd x (omap float_of vs))
  | _ => match omap float_of vs with [] => GNil | xs => GFloat64 (foldl fadd (S754_zero false) xs) end
  end.

(** The first element that no element exceeds. *)
Definition extreme {A} (lt : A -> A -> bool) (l : list A) : option A :=
  match l with [] => None | x :: xs => Some (foldl (fun t x => if lt t x then x else t) x xs) end.

(** The greatest or the smallest of the values that are not NULL; NULL where there is none. *)
Definition extreme_of {A} (mk : A -> gval) (get : gval -> option A) (lt : A -> A -> bool) (vs : list gval) : gval :=
  from_option mk GNil (extreme lt (omap get vs)).

(** What a function computes of the values of a column of a type. *)
Definition agg (f : funcType) (ty : colType) (vs : list gval) : gval :=
  match f, ty with
  | (FCount | FSum), TInt => GInt KInt64 (i64 (zsum (omap int_of vs)))
  | (FCount | FSum), TUint => GInt KUint64 (u64 (zsum (omap uint_of vs)))
  | (FCount | FSum), _ => float_sum vs
  | FMax, TInt => extreme_of (GInt KInt64) int_of Z.ltb vs
  | FMin, TInt => extreme_of (GInt KInt64) int_of (flip Z.ltb) vs
  | FMax, TUint => extreme_of (GInt KUint64) uint_of Z.ltb vs
  | FMin, TUint => extreme_of (GInt KUint64) uint_of (flip Z.ltb) vs
  | FMax, TFloat => extreme_of GFloat64 float_of SFltb vs
  | FMin, TFloat => extreme_of GFloat64 float_of (flip SFltb) vs
  | FMax, TText => extreme_of GString text_of sltb vs
  | FMin, TText => extreme_of GString text_of (flip sltb) vs
  end.

(** The values of a column a function can merge: of its type, or NULL for MAX, MIN and
    SUM of floats; COUNT is an int64, and texts have no sum. *)
Definition agg_value (f : funcType) (ty : colType) (v : gval) : Prop :=
  match v with
  | GNil => f = FMax \/ f = FMin \/ (f = FSum /\ ty = TFloat)
  | GInt KInt64 z => ty = TInt /\ is_i64 z
  | GInt KUint64 z => ty = TUint /\ is_u64 z /\ f <> FCount
  | GFloat64 _ => ty = TFloat /\ f <> FCount
  | GString _ => ty = TText /\ (f = FMax \/ f = FMin)
  | _ => False
  end.

(** Merging one value into an aggregate. *)
Definition comb (f : funcType) (t v : gval) : gval :=
  let pick {A} (mk : A -> gval) (lt : A -> A -> bool) (a b : A) : gval :=
    match f with FMax => mk (if lt a b then b else a) | _ => mk (if lt b a then b else a) end in
  match t, v with
  | _, GNil => t
  | GNil, GFloat64 b => match f with FSum => GFloat64 (fadd (S754_zero false) b) | _ => v end
  | GNil, _ => v
  | GInt KInt64 a, GInt KInt64 b =>
      match f with FCount | FSum => GInt KInt64 (i64 (a + b)) | _ => pick (GInt KInt64) Z.ltb a b end
  | GInt KUint64 a, GInt KUint64 b =>
      match f with FCount | FSum => GInt KUint64 (u64 (a + b)) | _ => pick (GInt KUint64) Z.ltb a b end
  | GFloat64 a, GFloat64 b =>
      match f with FCount | FSum => GFloat64 (fadd a b) | _ => pick GFloat64 SFltb a b end
  | GString a, GString b => pick GString sltb a b
  | _, _ => t
  end.

(** The shapes of a value to merge. *)
Lemma agg_value_cases f ty v : agg_value f ty v ->
  (v = GNil /\ (f = FMax \/ f = FMin \/ f = FSum /\ ty = TFloat)) \/
  (exists z, ty = TInt /\ v = GInt KInt64 z /\ is_i64 z) \/
  (exists z, ty = TUint /\ v = GInt KUint64 z /\ is_u64 z /\ f <> FCount) \/
  (exists x, ty = TFloat /\ v = GFloat64 x /\ f <> FCount) \/
  (exists x, ty = TText /\ v = GString x /\ (f = FMax \/ f = FMin)).
Proof. destruct v as [|[]| | | | |]; cbn; try done; intros H; naive_solver eauto 10. Qed.

Lemma zsum_snoc l z : zsum (l ++ [z]) = zsum l + z.
Proof. rewrite zsum_app. unfold zsum. cbn. lia. Qed.

Lemma extreme_snoc {A} (lt : A -> A -> bool) l x :
  extreme lt (l ++ [x]) = Some (match extreme lt l with Some t => if lt t x then x else t | None => x end).
Proof. destruct l as [|y l]; [done|]. cbn. by rewrite foldl_app. Qed.

Lemma extreme_elem {A} (lt : A -> A -> bool) l x : extreme lt l = Some x -> x ∈ l.
Proof.
  revert x. induction l as [|y l IH] using rev_ind; [done|]. intros x. rewrite extreme_snoc. intros [= <-].
  destruct (extreme lt l) as [t|]; [|set_solver]. destruct (lt t y); set_solver.
Qed.

Lemma float_sum_snoc_null vs : vs <> [] -> float_sum (vs ++ [GNil]) = float_sum vs.
Proof. destruct vs as [|v vs]; [done|]. intros _. cbn. rewrite omap_app. cbn. by rewrite app_nil_r. Qed.

Lemma float_sum_snoc vs b : vs <> [] -> Forall (agg_value FSum TFloat) vs ->
  float_sum (vs ++ [GFloat64 b]) = comb FSum (float_sum vs) (GFloat64 b).
Proof.
  intros N Hv. destruct vs as [|v vs]; [done|]. apply Forall_cons in Hv as [Hv _].
  apply agg_value_cases in Hv as [[-> _]|[(z & [=] & _)|[(z & [=] & _)|[(x & _ & -> & _)|(x & [=] & _)]]]];
    cbn; rewrite omap_app; cbn; [|by rewrite foldl_app].
  destruct (omap float_of vs) as [|y ys]; [done|]. cbn. by rewrite foldl_app.
Qed.

Lemma extreme_of_snoc {A} (mk : A -> gval) get lt vs x v : get v = Some x ->
  extreme_of mk get lt (vs ++ [v]) =
    match extreme lt (omap get vs) with Some t => mk (if lt t x then x else t) | None => mk x end.
Proof. intros E. unfold extreme_of. rewrite omap_app. cbn. rewrite E, extreme_snoc. by destruct (extreme _ _). Qed.

Lemma extreme_of_null {A} (mk : A -> gval) get lt vs : get GNil = None -> extreme_of mk get lt (vs ++ [GNil]) = extreme_of mk get lt vs.
Proof. intros E. unfold extreme_of. rewrite omap_app. cbn. by rewrite E, app_nil_r. Qed.

Lemma agg_snoc f ty vs v :
  vs <> [] -> Forall (agg_value f ty) vs -> agg_value f ty v -> agg f ty (vs ++ [v]) = comb f (agg f ty vs) v.
Proof.
  intros N Hvs Hv.
  apply agg_value_cases in Hv as [[-> Hf]|[(z & -> & -> & _)|[(z & -> & -> & _ & Hf)|[(x & -> & -> & Hf)|(x & -> & -> & Hf)]]]].
  - replace (comb f (agg f ty vs) GNil) with (agg f ty vs) by (destruct (agg f ty vs) as [|[]| | | | |]; done).
    destruct Hf as [->|[->|[-> ->]]]; [destruct ty; by apply extreme_of_null..|by apply float_sum_snoc_null].
  - destruct f; cbn [agg].
    1,2: rewrite omap_app; cbn; by rewrite zsum_snoc, i64_add_l.
    all: rewrite (extreme_of_snoc _ _ _ _ z) by done; unfold extreme_of; by destruct (extreme _ _).
  - destruct f; [done|..]; cbn [agg].
    1: rewrite omap_app; cbn; by rewrite zsum_snoc, u64_add_l.
    all: rewrite (extreme_of_snoc _ _ _ _ z) by done; unfold extreme_of; by destruct (extreme _ _).
  - destruct f; [done|by apply float_sum_snoc|..]; cbn [agg];
      rewrite (extreme_of_snoc _ _ _ _ x) by done; unfold extreme_of; by destruct (extreme _ _).
  - destruct Hf as [->| ->]; cbn [agg];
      rewrite (extreme_of_snoc _ _ _ _ x) by done; unfold extreme_of; by destruct (extreme _ _).
Qed.

Lemma agg_single f ty v : agg_value f ty v -> agg f ty [v] = v.
Proof.
  intros Hv. apply agg_value_cases in Hv as [[-> Hf]|[(z & -> & -> & Hz)|[(z & -> & -> & Hz & Hf)|[(x & -> & -> & Hf)|(x & -> & -> & Hf)]]]].
  - destruct Hf as [->|[->|[-> ->]]]; [by destruct ty..|done].
  - destruct f; cbn; try done; unfold zsum; cbn; by rewrite Z.add_0_r, i64_id.
  - destruct f; cbn; try done; unfold zsum; cbn; by rewrite Z.add_0_r, u64_id.
  - by destruct f.
  - by destruct Hf as [->| ->].
Qed.

Lemma extreme_is_value {A} f ty (mk : A -> gval) get lt vs :
  f = FMax \/ f = FMin -> (forall v x, get v = Some x -> v = mk x) -> Forall (agg_value f ty) vs ->
  agg_value f ty (extreme_of mk get lt vs).
Proof.
  intros Hf Hof Hvs. unfold extreme_of. destruct (extreme lt (omap get vs)) as [x|] eqn:E; [|cbn; naive_solver].
  apply extreme_elem, list_elem_of_omap in E as (v & Hv & Ev). cbn. rewrite <- (Hof _ _ Ev).
  rewrite Forall_forall in Hvs. by apply Hvs.
Qed.

Lemma float_sum_cases vs : float_sum vs = GNil \/ exists x, float_sum vs = GFloat64 x.
Proof. unfold float_sum. repeat case_match; eauto. Qed.

Lemma agg_is_value f ty vs : vs <> [] -> Forall (agg_value f ty) vs -> agg_value f ty (agg f ty vs).
Proof.
  intros N Hvs. assert (forall v x, int_of v = Some x -> v = GInt KInt64 x) as H1 by (intros [|[]| | | | |] x; by intros [= ->]).
  assert (forall v x, uint_of v = Some x -> v = GInt KUint64 x) as H2 by (intros [|[]| | | | |] x; by intros [= ->]).
  assert (forall v x, float_of v = Some x -> v = GFloat64 x) as H3 by (intros [|[]| | | | |] x; by intros [= ->]).
  assert (forall v x, text_of v = Some x -> v = GString x) as H4 by (intros [|[]| | | | |] x; by intros [= ->]).
  destruct f; cbn [agg].
  3,4: destruct ty; apply extreme_is_value; auto.
  all: destruct vs as [|v vs]; [done|]; apply Forall_cons in Hvs as [Hv _];
    apply agg_value_cases in Hv as [[-> Hf]|[(z & -> & -> & Hz)|[(z & -> & -> & Hz & Hf)|[(x & -> & -> & Hf)|(x & -> & -> & Hf)]]]];
    try (exfalso; intuition discriminate); try (split_and!; [done|apply u64_range|done]); try (split; [done|apply i64_range]); try done.
  - destruct Hf as [|[|[_ ->]]]; [done|done|]. destruct (float_sum_cases (GNil :: vs)) as [->|[x ->]]; cbn; naive_solver.
Qed.

(** * One merge step *)

Section Group.
Context {FT : FloatText}.

(** The rows of the results: of width [n], with values of the type of the column where
    the plan has a function. *)
Definition mergeable (n : Z) (ty : Z -> colType) (fs : list AggregateFuncMerger) (r : ResultRow) : Prop :=
  zlen r = n /\
  Forall (fun f => 0 <= fieldIndex f < n /\ agg_value (func f) (ty (fieldIndex f)) (at_col (fieldIndex f) r)) fs.

Lemma at_col_index r i : 0 <= i < zlen r -> index r i = Ret (at_col i r).
Proof. intros Hi. unfold at_col. by destruct (index_in_range r i Hi) as (v & -> & _). Qed.

Lemma at_col_store r i v j :
  0 <= i < zlen r -> at_col j (<[Z.to_nat i := v]> r) = if decide (j = i) then v else at_col j r.
Proof.
  intros Hi. unfold at_col, index. destruct (decide (0 <= j)) as [Hj|Hj].
  - case_decide as D.
    + subst j. rewrite list_lookup_insert_eq; [done|]. unfold zlen in Hi. lia.
    + rewrite list_lookup_insert_ne by lia. done.
  - by rewrite decide_False by lia.
Qed.

Lemma MergeTo_ok ty a from to :
  0 <= fieldIndex a < zlen from -> zlen from = zlen to ->
  agg_value (func a) ty (at_col (fieldIndex a) from) -> agg_value (func a) ty (at_col (fieldIndex a) to) ->
  exists r, MergeTo a from to = Ret r /\ zlen r = zlen to /\
    forall j, at_col j r = if decide (j = fieldIndex a)
      then comb (func a) (at_col j to) (at_col j from) else at_col j to.
Proof.
  intros Hi Hw Hf Ht. set (i := fieldIndex a) in *. unfold MergeTo. fold i.
  rewrite (proj2 (Z.leb_gt _ _)), (proj2 (Z.leb_gt (zlen to) i)) by lia. cbn [orb].
  assert (forall v, v = comb (func a) (at_col i to) (at_col i from) ->
    exists r, store to i v = Ret r /\ zlen r = zlen to /\
    forall j, at_col j r = if decide (j = i) then comb (func a) (at_col j to) (at_col j from)
                           else at_col j to) as K.
  { intros v ->. rewrite store_in_range by lia. eexists. split; [done|].
    split; [apply zlen_insert|]. intros j. rewrite at_col_store by lia.
    case_decide as D; [by subst j|done]. }
  assert (at_col i to = comb (func a) (at_col i to) (at_col i from) ->
    exists r, Ret to = Ret r /\ zlen r = zlen to /\
    forall j, at_col j r = if decide (j = i) then comb (func a) (at_col j to) (at_col j from)
                           else at_col j to) as K0.
  { intros E. exists to. split_and!; [done|done|]. intros j. case_decide; [by subst j|done]. }
  pose proof (at_col_index from i ltac:(lia)) as Ef. pose proof (at_col_index to i ltac:(lia)) as Et.
  clear Hi Hw. revert K K0 Ef Et Hf Ht. generalize (at_col i from), (at_col i to). intros vf vt K K0 Ef Et Hf Ht.
  unfold SumMergeTo, ExtremeMergeTo, sumToInt64, sumToUint64, sumToFloat64, GetInt, GetUint, GetFloat, get_from, get_to.
  rewrite Ef, Et. cbn [mbind outcome_bind].
  apply agg_value_cases in Hf as [[-> Hf]|[(x & -> & -> & _)|[(x & -> & -> & _ & Hf)|[(x & -> & -> & Hf)|(x & -> & -> & Hf)]]]];
  apply agg_value_cases in Ht as [[-> Ht]|[(y & Ty & -> & _)|[(y & Ty & -> & _ & Ht)|[(y & Ty & -> & Ht)|(y & Ty & -> & Ht)]]]];
    try discriminate Ty; destruct (func a); cbn in *; try (by apply K); try (by apply K0); try (exfalso; intuition discriminate).
  all: unfold value_gt, value_lt; cbn; case_match; [apply K|apply K0]; done.
Qed.

Lemma merge_row_cons f fs from to r :
  MergeTo f from to = Ret r -> merge_row (f :: fs) from to = merge_row fs from r.
Proof. intros E. unfold merge_row. cbn [foldl mbind outcome_bind]. by rewrite E. Qed.

Lemma merge_row_ok n ty fs from to :
  NoDup (fieldIndex <$> fs) -> mergeable n ty fs from -> mergeable n ty fs to ->
  exists r, merge_row fs from to = Ret r /\ zlen r = n /\
    (forall f, f ∈ fs -> at_col (fieldIndex f) r =
       comb (func f) (at_col (fieldIndex f) to) (at_col (fieldIndex f) from)) /\
    (forall j, j ∉ (fieldIndex <$> fs) -> at_col j r = at_col j to).
Proof.
  intros ND [Wf Hf] [Wt Ht]. revert to Wt Ht. induction fs as [|f fs IH]; intros to Wt Ht.
  { exists to. split_and!; [done|done|set_solver|done]. }
  cbn in ND. apply NoDup_cons in ND as [Nf ND].
  apply Forall_cons in Hf as [[Hi Hv] Hf]. apply Forall_cons in Ht as [[_ Hv'] Ht].
  destruct (MergeTo_ok (ty (fieldIndex f)) f from to) as (t1 & E1 & W1 & C1); [lia|lia|done|done|].
  rewrite (merge_row_cons _ _ _ _ _ E1).
  assert (forall j, j ∈ (fieldIndex <$> fs) -> at_col j t1 = at_col j to) as Same.
  { intros j Hj. rewrite C1, decide_False; [done|]. by intros ->. }
  destruct (IH ND Hf t1) as (r & E & Wr & Cr & Or); [lia| |].
  { rewrite Forall_forall in *. intros g Hg. rewrite Same; [by apply Ht|].
    by apply list_elem_of_fmap_2. }
  exists r. split_and!; [done|done| |].
  - intros g Hg. apply elem_of_cons in Hg as [->|Hg].
    + rewrite Or, C1, decide_True by done. done.
    + rewrite Cr, Same by (done || by apply list_elem_of_fmap_2). done.
  - intros j Hj. cbn in Hj. apply not_elem_of_cons in Hj as [N1 N2].
    by rewrite Or, C1, decide_False by done.
Qed.

(** [row] is the merged row of the rows of a group: the aggregates of the
    columns that have a function, the first row elsewhere. *)
Definition group_row (n : Z) (ty : Z -> colType) (fs : list AggregateFuncMerger) (rows : list ResultRow)
    (row : ResultRow) : Prop :=
  zlen row = n /\
  (forall f, f ∈ fs -> at_col (fieldIndex f) row = agg (func f) (ty (fieldIndex f)) (at_col (fieldIndex f) <$> rows)) /\
  (forall j, j ∉ (fieldIndex <$> fs) -> exists v vs, rows = v :: vs /\ at_col j row = at_col j v).

Lemma group_row_single n ty fs v : mergeable n ty fs v -> group_row n ty fs [v] v.
Proof.
  intros [W H]. rewrite Forall_forall in H. split_and!; [done| |by eauto].
  intros f Hf. cbn. rewrite agg_single; [done|]. by apply H.
Qed.

(** Merging one more row into the row of a group. *)
Lemma group_row_snoc n ty fs rows row v :
  NoDup (fieldIndex <$> fs) -> Forall (mergeable n ty fs) rows -> rows <> [] -> mergeable n ty fs v ->
  group_row n ty fs rows row ->
  exists r, merge_row fs v row = Ret r /\ group_row n ty fs (rows ++ [v]) r.
Proof.
  intros ND HR N Hv (W & Ha & Ho).
  assert (forall f, f ∈ fs -> Forall (agg_value (func f) (ty (fieldIndex f))) (at_col (fieldIndex f) <$> rows)) as Hcol.
  { intros f Hf. apply Forall_fmap. eapply Forall_impl; [exact HR|]. intros x [_ Hx].
    rewrite Forall_forall in Hx. by apply Hx. }
  assert (mergeable n ty fs row) as Hrow.
  { split; [done|]. destruct Hv as [_ Hv]. rewrite Forall_forall in Hv |- *. intros f Hf.
    split; [by apply Hv|]. rewrite Ha by done. apply agg_is_value; [by destruct rows|by apply Hcol]. }
  destruct (merge_row_ok n ty fs v row ND Hv Hrow) as (r & E & Wr & Cr & Or).
  exists r. split; [done|]. split_and!; [done| |].
  - intros f Hf. rewrite Cr, Ha, fmap_app by done. cbn. rewrite agg_snoc; [done| |by apply Hcol|].
    + by destruct rows.
    + destruct Hv as [_ Hv]. rewrite Forall_forall in Hv. by apply Hv.
  - intros j Hj. destruct (Ho j Hj) as (w & ws & -> & Ew). exists w, (ws ++ [v]).
    split; [done|]. by rewrite Or.
Qed.

Lemma reduce_ok n ty fs vs : forall pre row,
  NoDup (fieldIndex <$> fs) -> Forall (mergeable n ty fs) (pre ++ vs) -> pre <> [] ->
  group_row n ty fs pre row ->
  exists r, foldl (fun acc from => to ← acc; merge_row fs from to) (Ret row) vs = Ret r /\
    group_row n ty fs (pre ++ vs) r.
Proof.
  induction vs as [|v vs IH]; intros pre row ND HR N G.
  { exists row. by rewrite app_nil_r. }
  apply Forall_app in HR as [H1 H2]. apply Forall_cons in H2 as [Hv H2].
  destruct (group_row_snoc n ty fs pre row v) as (r1 & E1 & G1); try done.
  cbn [foldl mbind outcome_bind]. rewrite E1.
  destruct (IH (pre ++ [v]) r1) as (r & E & Gr); try done.
  - rewrite <- app_assoc. cbn. apply Forall_app. split; [done|by constructor].
  - by destruct pre.
  - exists r. split; [exact E|]. by rewrite <- app_assoc in Gr.
Qed.

(** C23: a query with aggregates and without GROUP BY of which at least one row arrives:
    the rows of the shards are merged into one row whose aggregate columns are the
    aggregates of all rows: sums of int64 and uint64 modulo their width, sums of floats
    (what SUM of a server is read as) in floating point and in the order of the rows, MAX
    and MIN of numbers and texts over the values that are not NULL. The values of a
    column have one type, and each column has at most one function. *)
Theorem aggregates_merge p rs n ty :
  aggregateFuncs p <> [] -> NoDup (fieldIndex <$> aggregateFuncs p) ->
  Values rs <> [] -> Forall (mergeable n ty (aggregateFuncs p)) (Values rs) ->
  exists row, buildSelectOnlyResult p rs = Ret (set_Values rs [row]) /\
    group_row n ty (aggregateFuncs p) (Values rs) row.
Proof.
  intros N ND NV HR. unfold buildSelectOnlyResult. destruct (Values rs) as [|v vs] eqn:EV; [done|].
  destruct (zlen (aggregateFuncs p) =? 0) eqn:E0.
  { destruct (aggregateFuncs p) as [|f fs] eqn:Ef; [done|]. rewrite zlen_cons in E0.
    pose proof (zlen_nonneg fs). lia. }
  apply Forall_cons in HR as HR'. destruct HR' as [Hv _].
  destruct (reduce_ok n ty (aggregateFuncs p) vs [v] v) as (row & E & G); try done.
  { by apply group_row_single. }
  exists row. rewrite E. done.
Qed.

(** * GROUP BY *)

Definition row_key (p : SelectPlan) (delta : Z) (v : ResultRow) : outcome string :=
  keySlice ← mapM (fun idx => index v (idx + delta)) (groupByColumn p); generateMapKey keySlice.

Section GroupBy.
Context (n : Z) (ty : Z -> colType) (p : SelectPlan) (delta : Z) (key : ResultRow -> string).

(** The rows of a key. *)
Definition of_key (k : string) (rows : list ResultRow) : list ResultRow :=
  filter (fun v => key v = k) rows.

(** The map holds the merged row of every key of the rows seen. *)
Definition groups (rows : list ResultRow) (m : gmap string ResultRow) : Prop :=
  forall k, match m !! k with
            | None => of_key k rows = []
            | Some row => of_key k rows <> [] /\ group_row n ty (aggregateFuncs p) (of_key k rows) row
            end.

Lemma of_key_snoc k rows v :
  of_key k (rows ++ [v]) = of_key k rows ++ (if decide (key v = k) then [v] else []).
Proof. unfold of_key. rewrite filter_app. f_equal. Qed.

Lemma group_loop_ok rows : forall pre m,
  NoDup (fieldIndex <$> aggregateFuncs p) ->
  Forall (mergeable n ty (aggregateFuncs p)) (pre ++ rows) ->
  Forall (fun v => row_key p delta v = Ret (key v)) rows -> groups pre m ->
  exists m', group_loop p delta rows m = Ret m' /\ groups (pre ++ rows) m'.
Proof.
  induction rows as [|v rows IH]; intros pre m ND HM HK G.
  { exists m. by rewrite app_nil_r. }
  apply Forall_cons in HK as [Hk HK]. apply Forall_app in HM as HM'. destruct HM' as [M1 M2].
  apply Forall_cons in M2 as [Mv M2]. unfold row_key in Hk. apply bind_Ret in Hk as (ks & E1 & E2).
  cbn [group_loop]. rewrite E1. cbn [mbind outcome_bind]. rewrite E2. cbn [mbind outcome_bind].
  replace (pre ++ v :: rows) with ((pre ++ [v]) ++ rows) in * by (by rewrite <- app_assoc).
  assert (forall row, (m !! key v = None -> row = v) ->
    group_row n ty (aggregateFuncs p) (of_key (key v) pre ++ [v]) row ->
    groups (pre ++ [v]) (<[key v := row]> m)) as K.
  { intros row _ HG k. rewrite of_key_snoc. destruct (decide (key v = k)) as [<-|Nk].
    - rewrite lookup_insert_eq. split; [by destruct (of_key (key v) pre)|done].
    - rewrite lookup_insert_ne, app_nil_r by done. apply G. }
  pose proof (G (key v)) as Gv. destruct (m !! key v) as [cur|] eqn:Em.
  - destruct Gv as [Ne Gr].
    destruct (group_row_snoc n ty (aggregateFuncs p) (of_key (key v) pre) cur v) as (r & E & Gr'); try done.
    { unfold of_key. apply Forall_forall. intros x Hx. apply list_elem_of_filter in Hx as [_ Hx].
      rewrite Forall_forall in M1. by apply M1. }
    rewrite E. cbn [mbind outcome_bind]. apply IH; try done. by apply K.
  - apply IH; try done. apply K; [done|]. rewrite Gv. cbn. by apply group_row_single.
Qed.

End GroupBy.

(** C22: GROUP BY: the merged result has exactly one row for every key, in some order,
    and it is the merged row of all rows of that key, from whichever shards they come.
    The key is the text [generateMapKey] makes of the grouping columns, and the values of
    an aggregate column have one type that its function merges ([mergeable]). *)
Theorem group_by_merges order p r n ty key :
  (forall m, order m ≡ₚ (map_to_list m).*1) ->
  NoDup (fieldIndex <$> aggregateFuncs p) ->
  Forall (mergeable n ty (aggregateFuncs p)) (Values r) ->
  Forall (fun v => row_key p (deltaColumnCount p r) v = Ret (key v)) (Values r) ->
  exists r' ks, buildSelectGroupByResult order p r = Ret r' /\ NoDup ks /\
    (forall k, k ∈ ks <-> k ∈ (key <$> Values r)) /\
    Forall2 (fun k row => group_row n ty (aggregateFuncs p) (of_key key k (Values r)) row)
      ks (Values r').
Proof.
  intros Ho ND HM HK. destruct (group_loop_ok n ty p (deltaColumnCount p r) key (Values r) [] ∅)
    as (m & E & G); try done.
  cbn [app] in G. unfold buildSelectGroupByResult. rewrite E. cbn [mbind outcome_bind].
  assert (forall k, is_Some (m !! k) <-> k ∈ (key <$> Values r)) as Hdom.
  { intros k. specialize (G k). rewrite list_elem_of_fmap. split.
    - intros [row Hr]. rewrite Hr in G. destruct G as [Ne _].
      destruct (of_key key k (Values r)) as [|v vs] eqn:Ek; [done|].
      assert (v ∈ of_key key k (Values r)) as Hv by (rewrite Ek; left).
      unfold of_key in Hv. apply list_elem_of_filter in Hv as [<- Hv]. eauto.
    - intros (v & -> & Hv). destruct (m !! key v); [eauto|].
      assert (v ∈ of_key key (key v) (Values r)) as H by (by apply list_elem_of_filter).
      rewrite G in H. by apply not_elem_of_nil in H. }
  assert (forall k, k ∈ order m <-> is_Some (m !! k)) as Hks.
  { intros k. rewrite Ho, list_elem_of_fmap. split.
    - intros ([k' row] & -> & Hin). apply elem_of_map_to_list in Hin. eauto.
    - intros [row Hr]. exists (k, row). split; [done|]. by apply elem_of_map_to_list. }
  assert (NoDup (order m)) as NDk by (rewrite Ho; apply NoDup_fst_map_to_list).
  eexists _, (order m). split; [done|]. split; [done|].
  split; [intros k; by rewrite Hks|].
  unfold buildResultFromResultMap. destruct (Z.of_nat (size m) =? 0) eqn:Es.
  - assert (m = ∅) as -> by (apply map_size_empty_inv; lia).
    assert (order ∅ = []) as ->.
    { apply elem_of_nil_inv. intros k Hk. apply Hks in Hk as [x Hx]. by rewrite lookup_empty in Hx. }
    assert (Values r = []) as ->; [|constructor].
    destruct (Values r) as [|v vs]; [done|]. destruct (proj2 (Hdom (key v))) as [x Hx]; [left|].
    by rewrite lookup_empty in Hx.
  - cbn [Values set_Values]. clear -G Hks. assert (forall k, k ∈ order m -> is_Some (m !! k)) as H
      by (intros k Hk; by apply Hks). clear Hks. induction (order m) as [|k ks IH]; [constructor|].
    destruct (H k ltac:(left)) as [row Hr]. cbn [omap list_omap]. rewrite Hr. constructor.
    + specialize (G k). rewrite Hr in G. apply G.
    + apply IH. intros k' Hk'. apply H. by right.
Qed.

End Group.

(** * DISTINCT *)

Section Distinct.
Context {FT : FloatText} (colCnt : Z) (key : ResultRow -> string).

(** The key of a row for DISTINCT. *)
Definition distinct_key (v : ResultRow) : outcome string :=
  keySlice ← reslice v 0 colCnt; generateMapKey keySlice.

(** The first row of every key. *)
Fixpoint first_rows (seen : gset string) (rows : list ResultRow) {struct rows} : list ResultRow :=
  match rows with
  | [] => []
  | v :: vs => if decide (key v ∈ seen) then first_rows seen vs
               else v :: first_rows ({[key v]} ∪ seen) vs
  end.

Lemma remove_rows_nil i rows : remove_rows i [] rows = rows.
Proof. by destruct rows. Qed.

(** The two passes of the code select the same rows as one pass. *)
Lemma distinct_passes rows : forall i seen,
  Forall (fun v => distinct_key v = Ret (key v)) rows ->
  exists js, dup_loop colCnt i seen rows = Ret js /\ Forall (Z.le i) js /\
    remove_rows i js rows = first_rows seen rows.
Proof.
  induction rows as [|v rows IH]; intros i seen HK; [by eexists|].
  apply Forall_cons in HK as [Hk HK]. unfold distinct_key in Hk.
  apply bind_Ret in Hk as (ks & E1 & E2). cbn [dup_loop first_rows].
  rewrite E1. cbn [mbind outcome_bind]. rewrite E2. cbn [mbind outcome_bind].
  destruct (IH (i + 1) ({[key v]} ∪ seen) HK) as (js & E & Hj & R). rewrite E.
  cbn [mbind outcome_bind]. eexists. split; [done|].
  assert (Forall (Z.le i) js) as Hj' by (eapply Forall_impl; [exact Hj|]; intros; lia).
  case_decide as D.
  - split; [by constructor|]. cbn [remove_rows]. rewrite Z.eqb_refl, R. f_equal. set_solver.
  - split; [done|]. rewrite <- R. destruct js as [|j js]; cbn [remove_rows].
    + by rewrite remove_rows_nil.
    + apply Forall_cons in Hj as [Hj _]. by rewrite (proj2 (Z.eqb_neq i j)) by lia.
Qed.

Lemma first_rows_keys rows : forall seen,
  NoDup (key <$> first_rows seen rows) /\
  forall k, k ∈ (key <$> first_rows seen rows) <-> (k ∉ seen) /\ k ∈ (key <$> rows).
Proof.
  induction rows as [|v rows IH]; intros seen; cbn; [split; [constructor|set_solver]|].
  case_decide as D.
  - destruct (IH seen) as [ND H]. split; [done|]. intros k. rewrite H. set_solver.
  - destruct (IH ({[key v]} ∪ seen)) as [ND H]. cbn. split.
    + constructor; [|done]. rewrite H. set_solver.
    + intros k. rewrite !elem_of_cons, H. destruct (decide (k = key v)) as [->|]; set_solver.
Qed.

End Distinct.

(** DISTINCT keeps exactly the first row of every key: the result is
    [first_rows], its keys are pairwise different, and every key that occurs in
    the rows occurs in the result. *)
Theorem distinct_first_rows {FT : FloatText} p r key :
  Forall (fun v => distinct_key (originColumnCount p + deltaColumnCount p r) v = Ret (key v))
    (Values r) ->
  removeDistinctRowInResult p r = Ret (set_Values r (first_rows key ∅ (Values r))) /\
  NoDup (key <$> first_rows key ∅ (Values r)) /\
  (forall k, k ∈ (key <$> first_rows key ∅ (Values r)) <-> k ∈ (key <$> Values r)).
Proof.
  intros HK. destruct (first_rows_keys key (Values r) ∅) as [ND H].
  split; [|split; [done|intros k; rewrite H; set_solver]].
  unfold removeDistinctRowInResult.
  destruct (distinct_passes _ key (Values r) 0 ∅ HK) as (js & E & _ & R). rewrite E.
  cbn [mbind outcome_bind]. rewrite <- R. destruct (zlen js =? 0) eqn:E0; [|done].
  assert (js = []) as -> by (destruct js; [done|]; rewrite zlen_cons in E0; pose proof (zlen_nonneg js); lia).
  rewrite remove_rows_nil. by destruct r.
Qed.

(** * Results of statements that change rows *)

(** The smallest of the numbers that are not zero, or zero. *)
Definition least_nonzero (l : list Z) : Z :=
  foldl (fun m z => if m =? 0 then z else if z =? 0 then m else Z.min m z) 0 l.

(** The merged result of an INSERT, UPDATE or DELETE has the sum of the
    affected rows and the smallest insert id that is not zero. *)
Theorem exec_results_merge rs :
  Forall (fun r => 0 <= InsertID r) rs ->
  AffectedRows (MergeExecResult rs) = u64 (zsum (AffectedRows <$> rs)) /\
  InsertID (MergeExecResult rs) = least_nonzero (InsertID <$> rs).
Proof.
  intros Hp. unfold MergeExecResult, least_nonzero.
  set (r0 := mkResult 0 0 0 [] []).
  assert (forall r, 0 <= InsertID r -> AffectedRows r = u64 (AffectedRows r) ->
    AffectedRows (fold_left exec_step rs r) = u64 (AffectedRows r + zsum (AffectedRows <$> rs)) /\
    InsertID (fold_left exec_step rs r) =
      foldl (fun m z => if m =? 0 then z else if z =? 0 then m else Z.min m z) (InsertID r)
        (InsertID <$> rs)) as K; [|apply (K r0); done].
  induction Hp as [|a rs Ha Hrs IH]; intros r Hr HA.
  { split; [|done]. cbn. by rewrite Z.add_0_r. }
  cbn [fold_left fmap list_fmap foldl]. destruct (IH (exec_step r a)) as [I1 I2].
  { unfold exec_step. cbn [InsertID]. repeat case_match; lia. }
  { cbn. unfold u64. by rewrite Z.mod_mod. }
  rewrite I1, I2. split.
  - cbn [exec_step AffectedRows]. rewrite u64_add_l. unfold zsum. cbn [foldr]. f_equal. lia.
  - f_equal. cbn [exec_step InsertID]. destruct (InsertID r =? 0); [done|].
    destruct (InsertID a =? 0) eqn:E1; cbn [negb andb]; [done|].
    destruct (InsertID a <? InsertID r) eqn:E2; lia.
Qed.

(** * Where merging fails *)

(** Aggregates without GROUP BY over shards that return no row (a HAVING
    that no shard satisfies) panic instead of returning an empty result. *)
Theorem no_aggregate_rows_panics {FT : FloatText} {GS : GoSort} order p r0 rs :
  distinct p = false -> hasGroupBy p = false -> aggregateFuncs p <> [] ->
  HasOrderBy p = false -> HasLimit p = false -> Forall (fun r => Values r = []) (r0 :: rs) ->
  0 < deltaColumnCount p r0 + originColumnCount p <= zlen (Fields r0) ->
  MergeSelectResult order p (r0 :: rs) = Panic "slice bounds out of range".
Proof.
  intros Ed Eg Ea Eo El HV He. unfold MergeSelectResult. rewrite Ed, Eg.
  assert (forall rs a, Forall (fun r => Values r = []) (a :: rs) -> exists st,
    mergeMultiResultSet (a :: rs) = Ret (mkResult st (InsertID a) (AffectedRows a) (Fields a) [])) as K.
  { clear. cbn [mergeMultiResultSet]. induction rs as [|b rs IH]; intros a Ha; cbn [fold_left].
    - exists (Status a). apply Forall_cons in Ha as [Ha _]. by destruct a; cbn in *; subst.
    - apply Forall_cons in Ha as [Ha H]. apply Forall_cons in H as [Hb H].
      rewrite Ha, Hb. apply (IH (mkResult _ _ _ _ _)). by constructor. }
  destruct (K rs r0 HV) as [st ->]. cbn [mbind outcome_bind].
  unfold buildSelectOnlyResult. destruct (zlen (aggregateFuncs p) =? 0) eqn:E0.
  { destruct (aggregateFuncs p) as [|f fs]; [done|]. rewrite zlen_cons in E0.
    pose proof (zlen_nonneg fs). lia. }
  cbn [Values mbind outcome_bind]. unfold sortSelectResult, limitSelectResult.
  rewrite Eo, El. cbn [negb mbind outcome_bind]. unfold trimExtraFields.
  change (deltaColumnCount p _) with (deltaColumnCount p r0).
  set (e := deltaColumnCount p r0 + originColumnCount p) in *.
  rewrite (proj2 (Z.eqb_neq e (-1))) by lia. cbn [Fields Values set_Values].
  assert (exists fs, reslice (Fields r0) 0 e = Ret fs) as [fs ->]
    by (unfold reslice; rewrite decide_True by lia; by eexists).
  assert (reslice (@nil gval) 0 e = Panic "slice bounds out of range") as Hn
    by (unfold reslice; rewrite decide_False; [done|change (zlen (@nil gval)) with 0; lia]).
  cbn [mbind outcome_bind mapM]. by rewrite Hn.
Qed.

(** Two different rows can have the same key, and DISTINCT loses one of them:
    the separator of the columns also occurs in their values. *)
Theorem distinct_loses_row {FT : FloatText} :
  let a := [GString "a+"; GString "b"] in
  let b := [GString "a"; GString "+b"] in
  let p := mkSelectPlan true false [] [] [] 2 2 [] (-1) (-1) in
  a <> b /\
  removeDistinctRowInResult p (mkResult 2 0 0 ["x"; "y"] [a; b]) = Ret (mkResult 2 0 0 ["x"; "y"] [a]).
Proof. split; [done|]. vm_compute. reflexivity. Qed.

(** [LIMIT offset, 18446744073709551615], the way to ask for all rows after
    an offset: the count is read as -1, the shards are asked for [offset - 1]
    rows, and the merged result is not limited at all, so the rows before the
    offset are returned and those after it are not. *)
Theorem limit_max_count_misread p off :
  0 < off <= max_i64 ->
  HasLimit (handleLimit p (Some (i64 18446744073709551615, Some off))).1 = false /\
  (handleLimit p (Some (i64 18446744073709551615, Some off))).2 = Some (off - 1, None).
Proof.
  intros Ho. unfold handleLimit, NeedRewriteLimitOrCreateRewrite.
  change (i64 18446744073709551615) with (-1). destruct (off =? 0) eqn:E; [lia|].
  cbn. split; [done|]. do 2 f_equal. rewrite i64_id by (unfold_int; lia). lia.
Qed.

(** A statement that is routed to no table and whose ORDER BY or GROUP BY
    added a column panics instead of returning an empty result. *)
Theorem empty_result_panics p fields :
  originColumnCount p < columnCount p -> columnCount p = zlen fields -> 0 <= originColumnCount p ->
  newEmptyResultset p fields = Panic "index out of range".
Proof.
  intros H1 H2 H3. unfold newEmptyResultset.
  destruct (_ <? 0) eqn:E1; [lia|]. destruct (_ <? zlen fields) eqn:E2; [done|lia].
Qed.

(** * Witnesses *)

Definition no_float_text : FloatText :=
  {| ParseFloat := fun _ => Err ErrSyntax; FormatFloat := fun _ => "" |}.

(** COUNT, a SUM of floats with a NULL, MAX of texts and the group. *)
Definition half : spec_float := S754_finite false 4503599627370496 (-53).
Definition agg_row (n : Z) (x : gval) (t : string) (g : Z) : ResultRow := [GInt KInt64 n; x; GString t; GInt KInt64 g].
Definition agg_types (i : Z) : colType := if i =? 1 then TFloat else if i =? 2 then TText else TInt.
Definition agg_plan : SelectPlan :=
  mkSelectPlan false true [3] [] [] 4 4 [mkMerger FMax 2; mkMerger FSum 1; mkMerger FCount 0] (-1) (-1).
Definition agg_result : Result :=
  mkResult 2 0 0 ["count(*)"; "sum(x)"; "max(t)"; "g"]
    [agg_row 3 (GFloat64 half) "a" 1; agg_row 2 (GFloat64 half) "b" 2; agg_row 4 (GFloat64 half) "c" 1; agg_row 1 GNil "b" 1].

Lemma agg_mergeable : Forall (mergeable 4 agg_types (aggregateFuncs agg_plan)) (Values agg_result).
Proof. repeat constructor; cbn; unfold_int; naive_solver lia. Qed.

Lemma aggregates_merge_witness :
  @buildSelectOnlyResult no_float_text agg_plan agg_result =
    Ret (set_Values agg_result [agg_row 10 (GFloat64 (fadd (fadd half half) half)) "c" 1]).
Proof.
  destruct (@aggregates_merge no_float_text agg_plan agg_result 4 agg_types) as (row & E & G).
  - discriminate.
  - repeat constructor; set_solver.
  - discriminate.
  - exact agg_mergeable.
  - rewrite E. vm_compute in E. injection E as <-. vm_compute. reflexivity.
Defined.

Definition agg_key (r : ResultRow) : string :=
  match r with [_; _; _; GInt _ z] => String.append (FormatInt z) "+" | _ => "" end.

Lemma group_by_merges_witness :
  exists r' ks,
    @buildSelectGroupByResult no_float_text (fun m => (map_to_list m).*1) agg_plan agg_result = Ret r' /\
    NoDup ks /\ (forall k, k ∈ ks <-> k ∈ (agg_key <$> Values agg_result)) /\
    Forall2 (fun k row => group_row 4 agg_types (aggregateFuncs agg_plan)
      (of_key agg_key k (Values agg_result)) row) ks (Values r').
Proof.
  apply (@group_by_merges no_float_text (fun m => (map_to_list m).*1) agg_plan agg_result 4 agg_types agg_key).
  - done.
  - repeat constructor; set_solver.
  - exact agg_mergeable.
  - repeat constructor.
Defined.

Definition distinct_plan : SelectPlan := mkSelectPlan true false [] [] [] 1 1 [] (-1) (-1).
Definition distinct_result : Result :=
  mkResult 2 0 0 ["g"] [[GInt KInt64 1]; [GInt KInt64 2]; [GInt KInt64 1]].
Definition one_key (r : ResultRow) : string :=
  match r with [GInt _ z] => String.append (FormatInt z) "+" | _ => "" end.

Lemma distinct_first_rows_witness :
  @removeDistinctRowInResult no_float_text distinct_plan distinct_result =
    Ret (set_Values distinct_result [[GInt KInt64 1]; [GInt KInt64 2]]).
Proof.
  apply (@distinct_first_rows no_float_text distinct_plan distinct_result one_key).
  repeat constructor.
Defined.

Lemma exec_results_merge_witness :
  AffectedRows (MergeExecResult [mkResult 0 7 2 [] []; mkResult 0 3 5 [] []]) = 7.
Proof.
  apply (exec_results_merge [mkResult 0 7 2 [] []; mkResult 0 3 5 [] []]).
  repeat constructor; cbn; lia.
Defined.

Lemma no_aggregate_rows_panics_witness :
  @MergeSelectResult no_float_text (fun m => (map_to_list m).*1) (fun A _ l => Ret l)
    (mkSelectPlan false false [] [] [] 1 1 [mkMerger FCount 0] (-1) (-1))
    [mkResult 2 0 0 ["count(*)"] []; mkResult 2 0 0 ["count(*)"] []] =
  Panic "slice bounds out of range".
Proof.
  apply (@no_aggregate_rows_panics no_float_text (fun A _ l => Ret l)); try reflexivity.
  - discriminate.
  - repeat constructor.
  - vm_compute. split; [reflexivity|discriminate].
Defined.

Lemma limit_max_count_misread_witness :
  HasLimit (handleLimit distinct_plan (Some (-1, Some 5))).1 = false /\
  (handleLimit distinct_plan (Some (-1, Some 5))).2 = Some (4, None).
Proof. apply (limit_max_count_misread distinct_plan 5). unfold_int. lia. Defined.

Lemma empty_result_panics_witness :
  newEmptyResultset (mkSelectPlan false false [] [1] [false] 1 2 [] (-1) (-1)) ["id"; "name"] =
    Panic "index out of range".
Proof. apply empty_result_panics; vm_compute; reflexivity || discriminate. Defined.
