(* ===== verification/PlanSelect.v ===== *)
(** proxy/plan/plan_select.go (tables, joins, field lists, GROUP BY, ORDER BY and
    the plan of a SELECT) and plan_select_subquery.go (subqueries in FROM). *)

From Stdlib Require Import Ascii String.
From S2P Require Import Prelude GoStr Hack NumKey Shard ShardMycat Models Rule.
From S2P Require Import Router PlanUtil Format Ast Dml PlanWhere PlanSQL Sequence.
From S2P Require Import PlanInsert Merge.

(** [for k, v := range m { ...; break }]: some entry of a map that has one. *)
Class MapFirst := first_entry : forall {A}, gmap string A -> option (string * A).

Class MapFirstOk (MF : MapFirst) : Prop := {
  first_entry_lookup {A} (m : gmap string A) k a : first_entry m = Some (k, a) -> m !! k = Some a;
  first_entry_None {A} (m : gmap string A) : first_entry m = None -> m = ∅ }.

(** [defer func() { if v := recover(); v != nil { err = fmt.Errorf(...) } }()] *)
Definition recovered {A} (fmt : string) (m : outcome A) : outcome A :=
  match m with Panic p => Err (Wrap fmt (Errorf p)) | _ => m end.

Section select.
Context {T} {TM : TreeMap T} {LZ : LocalZone} {FE : FloatE} {MF : MapFirst}.

(** * Tables *)

Definition NeedCreateTableNameDecorator (s : StmtInfo T) (n : TableName) (alias : string) :
    outcome (Rule T * StmtInfo T) :=
  let '(db, table) := getTableInfoFromTableName n in
  wrap "record shard table in SelectPlan error, db: %s, table, %s, alias: %s, err: %v"
    (RecordShardTable s db table alias).

(** The decorated table of a table source; a subquery records no alias. *)
Definition decorate_table (s : StmtInfo T) (tableName : TableName) (alias : string) :
    outcome (resultset T * StmtInfo T) :=
  '(rule, s') ← wrap "check NeedCreateTableNameDecorator error: %v"
                  (NeedCreateTableNameDecorator s tableName alias);
  d ← wrap "create TableNameDecorator error: %v" (CreateTableNameDecorator tableName rule);
  Ret (d, s').

Definition rewriteTableNameInTableSource (s : StmtInfo T) (tableName : TableName) (asName : CIStr) :
    outcome (resultset T * StmtInfo T) := decorate_table s tableName (L_ asName).

Definition rewriteSubqueryTableNameInTableSource (s : StmtInfo T) (tableName : TableName) :
    outcome (resultset T * StmtInfo T) := decorate_table s tableName "".

Fixpoint precheckJoinClause (Using : list ColumnName) : outcome unit :=
  match Using with
  | [] => Ret tt
  | c :: rest =>
      if negb (String.eqb (CIStr_String (cn_Schema c)) "")
      then Err (Errorf "JOIN does not support USING column with schema")
      else if negb (String.eqb (CIStr_String (cn_Table c)) "")
      then Err (Errorf "JOIN does not support USING column with table")
      else precheckJoinClause rest
  end.

(** ** Subqueries

    SubqueryColumnNameRewriteVisitor: a column of a sharded table is decorated;
    looking its rule up also records the table. *)
Definition subquery_column (s : StmtInfo T) (c : ColumnName) : expr T * StmtInfo T :=
  match getShardRule s (O_ (cn_Schema c)) (L_ (cn_Table c)) with
  | Ret (rule, s') =>
      if String.eqb (GetType rule) GlobalTableRuleType then (EColumn c, s')
      else (EColumnD c rule false, s')
  | _ => (EColumn c, s)
  end.

Fixpoint subquery_columns (s : StmtInfo T) (e : expr T) : expr T * StmtInfo T :=
  let fix go (s : StmtInfo T) (l : list (expr T)) : list (expr T) * StmtInfo T :=
    match l with
    | [] => ([], s)
    | e :: l =>
        let '(e', s1) := subquery_columns s e in
        let '(l', s2) := go s1 l in (e' :: l', s2)
    end in
  match e with
  | EColumn c => subquery_column s c
  | EFunc n args => let '(args', s1) := go s args in (EFunc n args', s1)
  | EBinary op l r =>
      let '(l', s1) := subquery_columns s l in
      let '(r', s2) := subquery_columns s1 r in (EBinary op l' r', s2)
  | EIn e vs nt sel =>
      let '(e', s1) := subquery_columns s e in
      let '(vs', s2) := go s1 vs in
      match sel with
      | Some q => let '(q', s3) := subquery_columns s2 q in (EIn e' vs' nt (Some q'), s3)
      | None => (EIn e' vs' nt None, s2)
      end
  | EBetween e a b nt =>
      let '(e', s1) := subquery_columns s e in
      let '(a', s2) := subquery_columns s1 a in
      let '(b', s3) := subquery_columns s2 b in (EBetween e' a' b' nt, s3)
  | EParen e => let '(e', s1) := subquery_columns s e in (EParen e', s1)
  | EOther n cs => let '(cs', s1) := go s cs in (EOther n cs', s1)
  | EColumnD _ _ _ | EValue _ | EInD _ _ _ _ _ | EBetweenD _ _ _ _ _ => (e, s)
  end.

(** [node.Accept(visitor)] whose result is dropped: a column at the root stays. *)
Definition subquery_accept (s : StmtInfo T) (e : expr T) : expr T * StmtInfo T :=
  match e with
  | EColumn _ => (e, (subquery_columns s e).2)
  | _ => subquery_columns s e
  end.

Fixpoint visit_list {A} (f : StmtInfo T -> A -> A * StmtInfo T) (s : StmtInfo T) (l : list A) :
    list A * StmtInfo T :=
  match l with
  | [] => ([], s)
  | a :: l => let '(a', s1) := f s a in let '(l', s2) := visit_list f s1 l in (a' :: l', s2)
  end.

Definition visit_option {A} (f : StmtInfo T -> A -> A * StmtInfo T) (s : StmtInfo T) (o : option A) :
    option A * StmtInfo T :=
  match o with Some a => let '(a', s') := f s a in (Some a', s') | None => (None, s) end.

Definition subquery_field (s : StmtInfo T) (f : SelectField T) : SelectField T * StmtInfo T :=
  let '(e, s') := visit_option subquery_columns s (sf_Expr f) in
  (mk_SelectField (WildCard f) e (AsName f), s').

Definition subquery_item (s : StmtInfo T) (i : ByItem T) : ByItem T * StmtInfo T :=
  let '(e, s') := subquery_columns s (by_Expr i) in (mk_ByItem e (by_Desc i), s').

Definition rewriteSubqueryTableSource (s : StmtInfo T) (r : resultset T) :
    outcome (resultset T * StmtInfo T) :=
  match r with
  | RTableName t => rewriteSubqueryTableNameInTableSource s t
  | RSelect _ => Err (Errorf "cannot handle subquery in subquery")
  | _ => Err (Errorf "field Source cannot handle, type: %T")
  end.

Fixpoint handleSubqueryJoin (s : StmtInfo T) (j : join T) {struct j} :
    outcome (join T * StmtInfo T) :=
  match j with
  | mk_join Left Right Tp On Using nj sj =>
      _ ← wrap "precheck Join error: %v" (precheckJoinClause Using);
      '(Left, s) ←
        match Left with
        | None => Ret (None, s)
        | Some (RTableSource src a) =>
            '(src', s') ← wrap "rewrite left TableSource error: %v" (rewriteSubqueryTableSource s src);
            Ret (Some (RTableSource src' a), s')
        | Some (RJoin l) =>
            '(l', s') ← wrap "handle nested left Join error: %v" (handleSubqueryJoin s l);
            Ret (Some (RJoin l'), s')
        | Some _ => Err (Errorf "invalid left Join type: %T")
        end;
      '(Right, s) ←
        match Right with
        | None => Ret (None, s)
        | Some (RTableSource src a) =>
            '(src', s') ← wrap "rewrite right TableSource error: %v" (rewriteSubqueryTableSource s src);
            Ret (Some (RTableSource src' a), s')
        | Some _ => Err (Errorf "right is not TableSource, type: %T")
        end;
      let '(On, s) := visit_option subquery_columns s On in
      Ret (mk_join Left Right Tp On Using nj sj, s)
  end.

Definition handleSubqueryTableRefs (s : StmtInfo T) (From : option (join T)) :
    outcome (option (join T) * StmtInfo T) :=
  match From with
  | None => Ret (None, s)
  | Some j => '(j', s') ← wrap "handleSubqueryTableRefs error: %v" (handleSubqueryJoin s j);
              Ret (Some j', s')
  end.

Definition handleSubquerySelectStmt (s : StmtInfo T) (q : SelectStmt T) :
    outcome (SelectStmt T * StmtInfo T) :=
  recovered "handleSubqueryExpr panic: %v"
    match q with
    | mk_SelectStmt pr sc st di th Fields From Where GroupBy Having ws OrderBy li lk =>
        '(From, s) ← wrap "handle From error: %v" (handleSubqueryTableRefs s From);
        let '(Where, s) := visit_option subquery_accept s Where in
        let '(Fields, s) := visit_option (visit_list subquery_field) s Fields in
        let '(GroupBy, s) := visit_option (visit_list subquery_item) s GroupBy in
        let '(Having, s) := visit_option subquery_columns s Having in
        let '(OrderBy, s) := visit_option (visit_list subquery_item) s OrderBy in
        Ret (mk_SelectStmt pr sc st di th Fields From Where GroupBy Having ws OrderBy li lk, s)
    end.

(** plan.go: the alias of a subquery stands for any rule of the statement. *)
Definition RecordSubqueryTableAlias (s : StmtInfo T) (alias : string) : outcome (Rule T * StmtInfo T) :=
  if String.eqb alias "" then Err (Errorf "subquery table alias is nil") else
  if decide (tableRules s = ∅) then Err (Errorf "no explicit table exist except subquery") else
  let table := String.append "gaea_subquery_" alias in
  s1 ← wrap "set subquery table alias error: %v" (setTableAlias s table alias);
  match first_entry (tableRules s1) with
  | None => Panic "nil pointer dereference"
  | Some (_, rule) =>
      Ret (rule, mk_StmtInfo (si_db s1) (si_router s1) (<[table := rule]> (tableRules s1))
                   (globalTableRules s1) (si_result s1) (tableAlias s1) (hintPhyDB s1))
  end.

(** ** FROM *)

Definition rewriteTableSource (s : StmtInfo T) (src : resultset T) (asName : CIStr) :
    outcome (resultset T * StmtInfo T) :=
  match src with
  | RTableName t => rewriteTableNameInTableSource s t asName
  | RSelect q =>
      '(q', s1) ← wrap "handleSubquerySelectStmt error: %v" (handleSubquerySelectStmt s q);
      if negb (String.eqb (L_ asName) "") then
        '(_, s2) ← wrap "record subquery alias error: %v" (RecordSubqueryTableAlias s1 (L_ asName));
        Ret (RSelect q', s2)
      else Ret (RSelect q', s1)
  | _ => Err (Errorf "field Source cannot handle, type: %T")
  end.

Definition rewriteOnCondition (s : StmtInfo T) (on : expr T) : outcome (expr T * StmtInfo T) :=
  '(has, result, decorator, s1) ← wrap "rewrite Expr in OnCondition error: %v"
                                    (handleComparisonExpr s on);
  Ret (decorator, if (has : bool) then set_result s1 (rr_Inter (si_result s1) result) else s1).

Fixpoint handleJoin (s : StmtInfo T) (j : join T) {struct j} : outcome (join T * StmtInfo T) :=
  match j with
  | mk_join Left Right Tp On Using nj sj =>
      _ ← wrap "precheck Join error: %v" (precheckJoinClause Using);
      '(Left, s) ←
        match Left with
        | None => Ret (None, s)
        | Some (RTableSource src a) =>
            '(src', s') ← wrap "rewrite left TableSource error: %v" (rewriteTableSource s src a);
            Ret (Some (RTableSource src' a), s')
        | Some (RJoin l) =>
            '(l', s') ← wrap "handle nested left Join error: %v" (handleJoin s l);
            Ret (Some (RJoin l'), s')
        | Some _ => Err (Errorf "invalid left Join type: %T")
        end;
      '(Right, s) ←
        match Right with
        | None => Ret (None, s)
        | Some (RTableSource src a) =>
            '(src', s') ← wrap "rewrite right TableSource error: %v" (rewriteTableSource s src a);
            Ret (Some (RTableSource src' a), s')
        | Some _ => Err (Errorf "right is not TableSource, type: %T")
        end;
      '(On, s) ←
        match On with
        | None => Ret (None, s)
        | Some e => '(e', s') ← wrap "rewrite on condition error: %v" (rewriteOnCondition s e);
                    Ret (Some e', s')
        end;
      Ret (mk_join Left Right Tp On Using nj sj, s)
  end.

Definition handleTableRefs (s : StmtInfo T) (From : option (join T)) :
    outcome (option (join T) * StmtInfo T) :=
  match From with
  | None => Ret (None, s)
  | Some j => '(j', s') ← handleJoin s j; Ret (Some j', s')
  end.

(** * Fields, GROUP BY, ORDER BY *)

(** The fields with their columns rewritten, and the mergers of the outermost
    aggregate functions; a panic of the visitor comes back as an error. *)
Definition rewrite_field (s : StmtInfo T) (f : SelectField T) : outcome (SelectField T) :=
  match sf_Expr f with
  | None => Ret f
  | Some e => e' ← rewrite_columns s e; Ret (mk_SelectField (WildCard f) (Some e') (AsName f))
  end.

Fixpoint field_mergers (i : Z) (fields : list (SelectField T)) {struct fields} :
    outcome (list AggregateFuncMerger) :=
  match fields with
  | [] => Ret []
  | f :: rest =>
      match sf_Expr f with
      | Some (EOther (NAggregate F _) _) =>
          m ← wrap "create aggregate function merger error, column index: %d, err: %v"
                (CreateAggregateFunctionMerger F i);
          ms ← field_mergers (i + 1) rest; Ret (m :: ms)
      | _ => field_mergers (i + 1) rest
      end
  end.

Definition handleFieldList (s : StmtInfo T) (fields : list (SelectField T)) :
    outcome (list (SelectField T) * list AggregateFuncMerger) :=
  recovered "handleFieldList panic: %v"
    (fields' ← mapM (rewrite_field s) fields;
     mergers ← field_mergers 0 fields';
     Ret (fields', mergers)).

(** The item with its column decorated, and the field that is added for it. *)
Definition createSelectFieldFromByItem (s : StmtInfo T) (item : ByItem T) :
    outcome (ByItem T * SelectField T) :=
  let field e := mk_SelectField None (Some e) (mk_CIStr "" "") in
  match by_Expr item with
  | EFunc FnName _ =>
      if String.eqb (L_ FnName) "database" then Ret (item, field (by_Expr item))
      else Err (Errorf "ByItem.Expr is a FuncCallExpr but not DATABASE()")
  | EColumn c =>
      need ← NeedCreateColumnNameExprDecoratorInField s c;
      let e := match need with
               | Some (rule, isAlias) => EColumnD c rule isAlias
               | None => EColumn c
               end in
      Ret (mk_ByItem e (by_Desc item), field e)
  | _ => Err (Errorf "ByItem.Expr is not a ColumnNameExpr")
  end.

Definition createSelectFieldsFromByItems (s : StmtInfo T) (items : list (ByItem T)) :
    outcome (list (ByItem T * SelectField T)) :=
  mapM (createSelectFieldFromByItem s) items.

(** [i+len(stmt.Fields.Fields)] for every added field *)
Definition added_columns (fields : list (SelectField T)) {A} (added : list A) : list Z :=
  seqZ (zlen fields) (zlen added).

(** The names of the fields before columns were added, with their places: the last
    field of a name wins, and the name of a column beats the alias of its field. *)
Fixpoint select_names (i : Z) (n : nat) (fields : list (SelectField T)) (m : gmap string Z)
    {struct n} : gmap string Z :=
  match n, fields with
  | S n, f :: rest =>
      let m := if negb (String.eqb (L_ (AsName f)) "") then <[L_ (AsName f) := i]> m else m in
      let m := match sf_Expr f with
               | Some (EColumn c) => <[L_ (cn_Name c) := i]> m
               | _ => m
               end in
      select_names (i + 1) n rest m
  | _, _ => m
  end.

(** One of the two loops of [handleExtraFieldList]: an added column whose name is
    already selected is taken out again. [at_] is the place of the first added
    column of the loop before any was taken out. *)
Fixpoint extra_loop (names : gmap string Z) (at_ : Z) (columns : list Z)
    (fields : list (SelectField T)) (deleteNum : Z) {struct columns} :
    outcome (list Z * list (SelectField T) * Z) :=
  match columns with
  | [] => Ret ([], fields, deleteNum)
  | c :: rest =>
      let c := c - deleteNum in
      let currColumnIndex := at_ - deleteNum in
      field ← index fields currColumnIndex;
      match sf_Expr field with
      | Some (EColumn col) =>
          match names !! L_ (cn_Name col) with
          | Some idx =>
              let fields := delete (Z.to_nat currColumnIndex) fields in
              '(rest, fields, n) ← extra_loop names (at_ + 1) rest fields (deleteNum + 1);
              Ret (idx :: rest, fields, n)
          | None =>
              '(rest, fields, n) ← extra_loop names (at_ + 1) rest fields deleteNum;
              Ret (c :: rest, fields, n)
          end
      | _ =>
          '(rest, fields, n) ← extra_loop names (at_ + 1) rest fields deleteNum;
          Ret (c :: rest, fields, n)
      end
  end.

Definition handleExtraFieldList (originColumnCount : Z) (groupBy orderBy : list Z)
    (fields : list (SelectField T)) : outcome (list Z * list Z * list (SelectField T)) :=
  let names := select_names 0 (Z.to_nat originColumnCount) fields ∅ in
  '(groupBy, fields, n) ← extra_loop names originColumnCount groupBy fields 0;
  '(orderBy, fields, _) ← extra_loop names (originColumnCount + zlen groupBy) orderBy fields n;
  Ret (groupBy, orderBy, fields).

(** * The plan of a SELECT *)

(** The rewritten statement, the data of the merge and the statements. *)
Record SelectPlan_ := mk_SelectPlan_ {
  sp_info : StmtInfo T;
  sp_stmt : SelectStmt T;
  sp_merge : SelectPlan;
  sp_sqls : SQLs }.

Definition handleHaving (s : StmtInfo T) (Having : option (expr T)) : outcome (option (expr T)) :=
  match Having with
  | None => Ret None
  | Some e => recovered "handleHaving panic: %v" (e' ← rewrite_columns s e; Ret (Some e'))
  end.

(** [e.( *driver.ValueExpr).GetInt64()] on the integers the grammar has there; a
    parameter marker is no ValueExpr. *)
Definition limit_int (e : expr T) : outcome Z :=
  match e with
  | EValue (DInt64 z) | EValue (DBool z) => Ret z
  | EValue (DUint64 z) => Ret (i64 z)
  | EValue _ => Ret 0
  | _ => Panic "interface conversion"
  end.

Definition limit_values (l : option (Limit T)) : outcome (option (Z * option Z)) :=
  match l with
  | None => Ret None
  | Some l =>
      count ← limit_int (lim_Count l);
      match lim_Offset l with
      | None => Ret (Some (count, None))
      | Some o => offset ← limit_int o; Ret (Some (count, Some offset))
      end
  end.

(** The plan with its limit, and the limit of the shards. *)
Definition handle_limit (p : SelectPlan) (l : option (Limit T)) : outcome (SelectPlan * option (Limit T)) :=
  v ← limit_values l;
  let '(p', v') := handleLimit p v in
  Ret (p', if decide (v' = v) then l
           else option_map (fun cl => mk_Limit (EValue (DInt64 cl.1)) None) v').

(** plan.go: a statement on global tables only reads its first copy, ... *)
Definition postHandleGlobalTableRouteResultInQuery (s : StmtInfo T) : StmtInfo T :=
  if decide (tableRules s = ∅) then
    match first_entry (globalTableRules s) with
    | Some (tableName, rule) =>
        set_result s (mk_RouteResult (GetDB rule) tableName (currentIndex (si_result s)) [0])
    | None => s
    end
  else s.

(** ... and writes all of them. *)
Definition postHandleGlobalTableRouteResultInModify (s : StmtInfo T) : StmtInfo T :=
  if decide (tableRules s = ∅) then
    match first_entry (globalTableRules s) with
    | Some (tableName, rule) =>
        set_result s (mk_RouteResult (GetDB rule) tableName (currentIndex (si_result s))
                        (GetSubTableIndexes rule))
    | None => s
    end
  else s.

(** Both kinds of rule have the methods of MycatRule. *)
Definition postHandleHintDatabaseFunction (s : StmtInfo T) : outcome (StmtInfo T) :=
  if String.eqb (hintPhyDB s) "" then Ret s else
  match GetShardRule (si_router s) (rr_db (si_result s)) (rr_table (si_result s)) with
  | None => Err (Errorf "sharding rule of route result not found, result: %v")
  | Some rule =>
      if negb (IsMycatShardingRule (GetType rule))
      then Err (Errorf "only mycat rule supports database function hint")
      else match GetTableIndexByDatabaseName rule (hintPhyDB s) with
           | None => Err (Errorf "hint db not found: %s")
           | Some idx => Ret (set_result s (set_indexes (si_result s) [idx]))
           end
  end.

(** GROUP BY and ORDER BY: the items, the columns of the result they are in and the
    fields with the added ones. Without a field list the added columns have no place. *)
Definition handle_by (s : StmtInfo T) (fmt : string) (items : option (list (ByItem T)))
    (fields : option (list (SelectField T))) :
    outcome (option (list (ByItem T)) * list Z * option (list (SelectField T))) :=
  match items with
  | None => Ret (None, [], fields)
  | Some items =>
      added ← wrap fmt (createSelectFieldsFromByItems s items);
      match fields with
      | None => Panic "nil pointer dereference"
      | Some fs => Ret (Some (map fst added), added_columns fs added, Some (fs ++ map snd added))
      end
  end.

Definition HandleSelectStmt (s : StmtInfo T) (stmt : SelectStmt T) : outcome SelectPlan_ :=
  match stmt with
  | mk_SelectStmt pr sc st Distinct th Fields From Where GroupBy Having ws OrderBy lim lk =>
      '(From, s) ← wrap "handle From error: %v" (handleTableRefs s From);
      '(Fields, mergers, originCount) ←
        match Fields with
        | None => Ret (None, [], 0)
        | Some fs => '(fs', ms) ← wrap "handle Fields error: %v" (handleFieldList s fs);
                     Ret (Some fs', ms, zlen fs')
        end;
      '(GroupBy', groupCols, Fields) ←
        wrap "handle GroupBy error: %v" (handle_by s "get group by fields error: %v" GroupBy Fields);
      '(OrderBy', orderCols, Fields) ←
        wrap "handle OrderBy error: %v" (handle_by s "get order by fields error: %v" OrderBy Fields);
      '(groupCols, orderCols, Fields) ←
        match Fields with
        | None => Ret ([], [], None)
        | Some fs => '(g, o, fs') ← handleExtraFieldList originCount groupCols orderCols fs;
                     Ret (g, o, Some fs')
        end;
      '(Where', s) ← wrap "handle Where error: %v" (handleWhere s Where);
      Having' ← wrap "handle Having error: %v" (handleHaving s Having);
      '(merge, lim') ← handle_limit
        (mkSelectPlan Distinct (is_some GroupBy) groupCols orderCols
           (match OrderBy with Some l => map by_Desc l | None => [] end)
           originCount (match Fields with Some fs => zlen fs | None => 0 end) mergers (-1) (-1)) lim;
      s ← wrap "handle Hint error: %v"
            (postHandleHintDatabaseFunction (postHandleGlobalTableRouteResultInQuery s));
      let stmt' := mk_SelectStmt pr sc st Distinct th Fields From Where' GroupBy' Having' ws OrderBy'
                     lim' lk in
      '(sqls, rr) ← wrap "generate select SQL error: %v"
        (generateShardingSQLs (fun rr => SelectStmt_Restore EscapeRestoreFlags rr 0 stmt')
           (si_result s) (si_router s));
      Ret (mk_SelectPlan_ (set_result s rr) stmt' merge sqls)
  end.

Definition NewSelectPlan (db : string) (r : Router (T := T)) : StmtInfo T := NewTableAliasStmtInfo db r.

(** * The columns of GROUP BY and ORDER BY

    The fields added for GROUP BY and ORDER BY are looked up by name among the
    fields of the client; one that is found is not added. *)

Section extra_fields.
Implicit Types (f : SelectField T) (fields todo : list (SelectField T)).

(** The place of an added field among the client's. *)
Definition named (names : gmap string Z) f : option Z :=
  match sf_Expr f with Some (EColumn c) => names !! L_ (cn_Name c) | _ => None end.

Definition kept (names : gmap string Z) : list (SelectField T) -> list (SelectField T) :=
  filter (fun f => named names f = None).

Fixpoint places (names : gmap string Z) (at_ : Z) todo : list Z :=
  match todo with
  | [] => []
  | f :: todo =>
      match named names f with
      | Some i => i :: places names at_ todo
      | None => at_ :: places names (at_ + 1) todo
      end
  end.

Lemma places_length names at_ todo : zlen (places names at_ todo) = zlen todo.
Proof.
  revert at_. induction todo as [|f todo IH]; intros at_; [done|]. cbn [places].
  destruct (named names f); rewrite !zlen_cons, IH; done.
Qed.

Lemma extra_loop_step names at_ c columns fields n f :
  index fields (at_ - n) = Ret f ->
  extra_loop names at_ (c :: columns) fields n =
    match named names f with
    | Some idx =>
        '(rest, fields, n) ← extra_loop names (at_ + 1) columns
                               (delete (Z.to_nat (at_ - n)) fields) (n + 1);
        Ret (idx :: rest, fields, n)
    | None =>
        '(rest, fields, n') ← extra_loop names (at_ + 1) columns fields n;
        Ret (c - n :: rest, fields, n')
    end.
Proof.
  intros H. cbn [extra_loop]. rewrite H. cbn [mbind outcome_bind]. unfold named.
  destruct (sf_Expr f) as [[]|]; reflexivity.
Qed.

Lemma extra_loop_eq names pre todo rest at_ n :
  zlen pre = at_ - n ->
  extra_loop names at_ (seqZ at_ (zlen todo)) (pre ++ todo ++ rest) n =
    Ret (places names (at_ - n) todo, pre ++ kept names todo ++ rest,
         n + zlen todo - zlen (kept names todo)).
Proof.
  revert pre at_ n. induction todo as [|f todo IH]; intros pre at_ n Hpre.
  - cbn. rewrite !Z.add_0_r, Z.sub_0_r. reflexivity.
  - rewrite zlen_cons, seqZ_cons by (unfold zlen; lia).
    replace (Z.pred (zlen todo + 1)) with (zlen todo) by lia.
    assert (length pre = Z.to_nat (at_ - n)) as Hlen by (unfold zlen in Hpre; lia).
    rewrite (extra_loop_step _ _ _ _ _ _ f).
    2: { apply index_Ret. pose proof (zlen_nonneg pre). split; [lia|].
         rewrite <- Hlen, lookup_app_r, Nat.sub_diag by lia. done. }
    cbn [places]. unfold kept. destruct (named names f) as [i|] eqn:E.
    + rewrite filter_cons_False by congruence. rewrite <- Hlen.
      replace (delete (length pre) (pre ++ (f :: todo) ++ rest)) with (pre ++ todo ++ rest)
        by (symmetry; apply delete_middle).
      replace (Z.succ at_) with (at_ + 1) by lia.
      rewrite IH by lia. cbn [mbind outcome_bind]. unfold kept.
      replace (at_ + 1 - (n + 1)) with (at_ - n) by lia.
      replace (n + 1 + zlen todo) with (n + (zlen todo + 1)) by lia. done.
    + rewrite filter_cons_True by done.
      replace (pre ++ (f :: todo) ++ rest) with ((pre ++ [f]) ++ todo ++ rest)
        by (rewrite <- app_assoc; done).
      replace (Z.succ at_) with (at_ + 1) by lia.
      rewrite IH by (rewrite zlen_app; unfold zlen in *; cbn [length]; lia).
      cbn [mbind outcome_bind]. unfold kept. rewrite <- app_assoc, zlen_cons.
      replace (at_ + 1 - n) with (at_ - n + 1) by lia.
      match goal with |- Ret (_, _, ?a) = Ret (_, _, ?b) => replace a with b by lia end. done.
Qed.

(** A name that is found is the alias or the column of the field at its place. *)
Definition outputs (name : string) f : Prop :=
  L_ (AsName f) = name \/ exists c, sf_Expr f = Some (EColumn c) /\ L_ (cn_Name c) = name.

Lemma select_names_spec i n fields m name x :
  0 <= i -> select_names i n fields m !! name = Some x ->
  m !! name = Some x \/
  exists f, i <= x < i + Z.of_nat n /\ fields !! Z.to_nat (x - i) = Some f /\ outputs name f.
Proof.
  revert i fields m. induction n as [|n IH]; intros i fields m Hi H; [by left|].
  destruct fields as [|f fields]; [by left|]. cbn [select_names] in H.
  apply IH in H as [H|(f' & Hx & Hf & Ho)]; [|right; exists f'|lia].
  - assert (m !! name = Some x \/ x = i /\ outputs name f) as [?|[-> Ho]].
    { set (m1 := if negb (String.eqb (L_ (AsName f)) "") then <[L_ (AsName f) := i]> m else m) in H.
      assert (m1 !! name = Some x -> m !! name = Some x \/ x = i /\ outputs name f) as K.
      { unfold m1. destruct (negb _); [|by left]. intros [[Hn ->]|[_ ?]]%lookup_insert_Some; [|by left].
        right. split; [done|by left]. }
      destruct (sf_Expr f) as [[]|] eqn:Ef; auto.
      apply lookup_insert_Some in H as [[Hn <-]|[_ H]]; [|auto]. right. split; [done|]. right. eauto. }
    + by left.
    + right. exists f. rewrite Z.sub_diag. split_and!; [lia..|done|done].
  - split_and!; [lia..| |done]. replace (Z.to_nat (x - i)) with (S (Z.to_nat (x - (i + 1)))) by lia. done.
Qed.

(** The field at the place of an added field is that field, or a field of the
    client that outputs the column under the same name. *)
Definition stands_for f f' : Prop :=
  f' = f \/ exists c, sf_Expr f = Some (EColumn c) /\ outputs (L_ (cn_Name c)) f'.

Lemma places_spec names orig pre todo post :
  (forall name x, names !! name = Some x ->
     0 <= x /\ exists f, orig !! Z.to_nat x = Some f /\ outputs name f) ->
  Forall2 (fun f x => 0 <= x /\ exists f', (orig ++ pre ++ kept names todo ++ post) !! Z.to_nat x = Some f' /\
             stands_for f f') todo (places names (zlen (orig ++ pre)) todo).
Proof.
  intros Hn. revert pre. induction todo as [|f todo IH]; intros pre; [constructor|]. cbn [places].
  unfold kept. destruct (named names f) as [x|] eqn:E.
  - rewrite filter_cons_False by congruence. constructor; [|apply IH].
    unfold named in E. destruct (sf_Expr f) as [[]|] eqn:Ef; try done.
    apply Hn in E as (Hx & f' & Hf' & Ho). split; [done|]. exists f'.
    split; [by apply lookup_app_l_Some|]. right. eauto.
  - rewrite filter_cons_True by done. constructor.
    + split; [unfold zlen; lia|]. exists f. split; [|by left]. unfold zlen. rewrite Nat2Z.id, app_assoc.
      rewrite lookup_app_r, Nat.sub_diag by lia. done.
    + replace (zlen (orig ++ pre) + 1) with (zlen (orig ++ pre ++ [f]))
        by (unfold zlen; rewrite !length_app; cbn; lia).
      replace (orig ++ pre ++ (f :: filter (fun g => named names g = None) todo) ++ post)
        with (orig ++ (pre ++ [f]) ++ kept names todo ++ post) by (rewrite <- app_assoc; done).
      apply IH.
Qed.

(** The fields the planner adds for GROUP BY and ORDER BY: it never fails, the
    fields of the client keep their places, and the place recorded for an item holds
    the item's own column or a field of the client that outputs that name. *)
Theorem handleExtraFieldList_spec (orig group order : list (SelectField T)) :
  exists g o fields,
    handleExtraFieldList (zlen orig) (seqZ (zlen orig) (zlen group))
      (seqZ (zlen orig + zlen group) (zlen order)) (orig ++ group ++ order) = Ret (g, o, fields) /\
    take (length orig) fields = orig /\
    Forall2 (fun f x => 0 <= x /\ exists f', fields !! Z.to_nat x = Some f' /\ stands_for f f') group g /\
    Forall2 (fun f x => 0 <= x /\ exists f', fields !! Z.to_nat x = Some f' /\ stands_for f f') order o.
Proof.
  unfold handleExtraFieldList.
  set (names := select_names 0 _ _ ∅).
  assert (forall name x, names !! name = Some x ->
            0 <= x /\ exists f, orig !! Z.to_nat x = Some f /\ outputs name f) as Hn.
  { intros name x [H|(f & Hx & Hf & Ho)]%select_names_spec; [by rewrite lookup_empty in H| |lia].
    unfold zlen in Hx. split; [lia|]. exists f. split; [|done]. rewrite Z.sub_0_r in Hf.
    rewrite lookup_app_l in Hf by lia. done. }
  rewrite (extra_loop_eq names orig group order) by lia. cbn [mbind outcome_bind].
  rewrite places_length.
  replace (orig ++ kept names group ++ order) with ((orig ++ kept names group) ++ order ++ [])
    by (rewrite app_nil_r, app_assoc; done).
  rewrite (extra_loop_eq names (orig ++ kept names group) order []) by (rewrite zlen_app; lia).
  cbn [mbind outcome_bind]. eexists _, _, _. split; [reflexivity|]. split_and!.
  - rewrite <- app_assoc. by rewrite take_app_length.
  - pose proof (places_spec names orig [] group (kept names order ++ []) Hn) as H.
    rewrite !app_nil_r in H. rewrite app_nil_r, Z.sub_0_r, <- app_assoc. exact H.
  - pose proof (places_spec names orig (kept names group) order [] Hn) as H.
    rewrite <- app_assoc. rewrite zlen_app in H. replace (zlen orig + zlen group - _) with (zlen orig + zlen (kept names group)) by lia. exact H.
Qed.
End extra_fields.

End select.
