(* ===== verification/PlanTable.v ===== *)
(** Statements on one sharded table: the state of the planner after the FROM clause,
    and that a SELECT reaches the tables of the rows its condition selects. The
    theorems about UPDATE and DELETE share these lemmas. *)

From Stdlib Require Import Ascii String.
From S2P Require Import Prelude GoStr Hack NumKey Shard ShardMycat Models Rule.
From S2P Require Import Router PlanUtil Format Ast Dml PlanWhere PlanSQL PlanExample.
From S2P Require Import PlanRewrite Sequence PlanInsert Merge MergeSort PlanSelect.

Section table.
Context {T} {TM : TreeMap T} {LZ : LocalZone} {FE : FloatE} {MF : MapFirst}.

(** * One sharded table

    The state of the planner after its FROM clause. *)
Definition table_info (db : string) (router : Router (T := T)) (table alias : string) (rule : Rule T) :
    StmtInfo T :=
  mk_StmtInfo db router {[table := rule]} ∅
    (mk_RouteResult (GetDB rule) (route_table rule) 0 (GetSubTableIndexes rule))
    (if String.eqb alias "" then ∅ else {[alias := table]}) "".

(** The FROM clause with one table. *)
Definition one_table (r : resultset T) (alias : CIStr) : join T :=
  mk_join (Some (RTableSource r alias)) None CrossJoin None [] false false.

Section one_table.
Context (db : string) (router : Router (T := T)) (t : TableName) (alias : CIStr) (rule : Rule T).
Hypothesis Hdb : O_ (tn_Schema t) = ""%string \/ O_ (tn_Schema t) = db.
Hypothesis Hrule : GetShardRule router db (L_ (tn_Name t)) = Some rule.
Hypothesis Htype : GetType rule <> GlobalTableRuleType.
Hypothesis Hpart : PartitionNames t = [].

Lemma record_table :
  RecordShardTable (NewTableAliasStmtInfo db router) (O_ (tn_Schema t)) (L_ (tn_Name t)) (L_ alias) =
    Ret (rule, table_info db router (L_ (tn_Name t)) (L_ alias) rule).
Proof.
  pose proof (record_insert_table db router t rule Hdb Hrule Htype) as H.
  unfold NeedCreateTableNameDecoratorWithoutAlias, getTableInfoFromTableName in H.
  apply wrap_Ret in H. unfold RecordShardTable. rewrite H. cbn [wrap mbind outcome_bind].
  unfold table_info. destruct (String.eqb (L_ alias) "") eqn:E; cbn [negb]; [done|].
  unfold setTableAlias. cbn [insert_info tableAlias]. rewrite lookup_empty. done.
Qed.

Lemma handleJoin_one_table :
  handleJoin (NewTableAliasStmtInfo db router) (one_table (RTableName t) alias) =
    Ret (one_table (RTableNameD t rule) alias, table_info db router (L_ (tn_Name t)) (L_ alias) rule).
Proof.
  unfold one_table. cbn [handleJoin precheckJoinClause wrap mbind outcome_bind rewriteTableSource].
  unfold rewriteTableNameInTableSource, decorate_table, NeedCreateTableNameDecorator,
    getTableInfoFromTableName.
  rewrite record_table. cbn [wrap mbind outcome_bind]. unfold CreateTableNameDecorator. rewrite Hpart.
  reflexivity.
Qed.

Lemma table_info_resolves : resolves rule (table_info db router (L_ (tn_Name t)) (L_ alias) rule).
Proof.
  split; cbn; intros u r Hr; [|by rewrite lookup_empty in Hr].
  by apply lookup_singleton_Some in Hr as [_ <-].
Qed.

End one_table.

(** ** Rows are reached

    A statement on one table whose condition selects a row is sent to the table of
    the row. *)
Lemma routed_statement_sent {restore : RouteResult -> restored} (s : StmtInfo T)
    (router : Router (T := T)) (rule rule' : Rule T) m r' i :
  zlen (indexes (si_result s)) < max_i64 -> currentIndex (si_result s) = 0 ->
  rr_db (si_result s) = GetDB rule -> rr_table (si_result s) = route_table rule ->
  GetShardRule router (GetDB rule) (route_table rule) = Some rule' ->
  (forall r1 r2, GetCurrentTableIndex r1 = GetCurrentTableIndex r2 -> restore r1 = restore r2) ->
  generateShardingSQLs restore (si_result s) router = Ret (m, r') -> i ∈ indexes (si_result s) ->
  exists sl d q, target rule' i = Ret (sl, d) /\
    restored_sql (restore (NewRouteResult "" "" [i])) = Ret q /\ q ∈ sqls_at m sl d.
Proof.
  intros Hlen H0 Hdb Htb Hr Hcur Hg Hi. apply list_elem_of_lookup in Hi as [n Hn].
  destruct (generateShardingSQLs_inv _ _ _ Hlen _ _ H0 Hg n i Hn) as (rl & sl & d & q & H1 & H2 & H3 & H4).
  rewrite Hdb, Htb, Hr in H1. injection H1 as <-. exists sl, d, q. split_and!; [done| |done].
  etrans; [|exact H3]. apply (f_equal restored_sql). apply Hcur.
  destruct (Next_at _ _ _ Hn Hlen) as (_ & -> & _). reflexivity.
Qed.

(** A configured base rule on a table, and what the router knows of it. *)
Record table_ok (cfg : models.Shard) (b : BaseRule T) (db : string) (router : Router (T := T))
    (t : TableName) : Prop := {
  to_tables : tables_ok cfg;
  to_int : int_rule cfg;
  to_parse : parseRule cfg = Ret b;
  to_db : O_ (tn_Schema t) = ""%string \/ O_ (tn_Schema t) = db;
  to_rule : GetShardRule router db (L_ (tn_Name t)) = Some (RBase b);
  to_self : GetShardRule router (br_db b) (br_table b) = Some (RBase b);
  to_partition : PartitionNames t = [];
  to_length : zlen (GetSubTableIndexes (RBase b)) < max_i64 }.

(** The row has key [x] and lies in table [i]. *)
Record row_at (b : BaseRule T) (row : string -> gval) (x i : Z) : Prop := {
  ra_key : int_num (row (br_shardingColumn b)) = Some x;
  ra_table : FindTableIndex (RBase b) (row (br_shardingColumn b)) = Ret i }.

(** The condition holds for the row. *)
Record selects (b : BaseRule T) (row : string -> gval) (truth : expr T -> bool) (w : option (expr T)) :
    Prop := {
  se_lits : from_option (fun w => lits_ok int_num (br_shardingColumn b) w = true) True w;
  se_true : from_option (fun w => eval int_num row truth w = true) True w }.

Section reach.
Context `{!TreeMapOk T} (cfg : models.Shard) (b : BaseRule T) (db : string) (router : Router (T := T))
  (t : TableName) (alias : CIStr) (row : string -> gval) (truth : expr T -> bool) (x i : Z).
Hypothesis Ht : table_ok cfg b db router t.
Hypothesis Hrow : row_at b row x i.

#[local] Abbreviation info := (table_info db router (L_ (tn_Name t)) (L_ alias) (RBase b)).

Lemma table_type : GetType (RBase b) <> GlobalTableRuleType.
Proof. by destruct (configured_stored _ _ _ _ _ (to_tables _ _ _ _ _ Ht) (to_int _ _ _ _ _ Ht)
         (to_parse _ _ _ _ _ Ht) (ra_key _ _ _ _ Hrow) (ra_table _ _ _ _ Hrow)) as [_ ?]. Qed.

(** The condition keeps the row's table, and changes nothing but the tables. *)
Lemma handleWhere_reaches w w' s' :
  selects b row truth w -> handleWhere info w = Ret (w', s') ->
  i ∈ indexes (si_result s') /\ zlen (indexes (si_result s')) < max_i64 /\
  currentIndex (si_result s') = 0 /\ rr_db (si_result s') = GetDB (RBase b) /\
  rr_table (si_result s') = route_table (RBase b) /\ si_router s' = router /\
  tableRules s' <> ∅.
Proof.
  intros [Hl He] Hw. pose proof (handleWhere_hinted _ _ _ _ Hw) as (l & Hlen & Hh).
  assert (i ∈ indexes (si_result s')) as Hi.
  { destruct (configured_stored _ _ _ _ _ (to_tables _ _ _ _ _ Ht) (to_int _ _ _ _ _ Ht)
         (to_parse _ _ _ _ _ Ht) (ra_key _ _ _ _ Hrow) (ra_table _ _ _ _ Hrow)) as [Hst _].
    destruct w as [w|]; [|injection Hw as <- <-; apply Hst].
    apply (where_finds_rows_lemma cfg b row truth x i info w w' s'); [apply Ht|apply Ht|apply Ht|apply Hrow|apply Hrow
      |apply table_info_resolves|reflexivity|exact Hl|exact Hw|exact He]. }
  destruct (hinted_result _ _ Hh) as (Er & _ & -> & -> & _ & _). rewrite Er in *.
  cbn [set_result set_indexes si_result indexes currentIndex rr_db rr_table si_router tableRules] in *.
  split_and!; try done. eapply Z.le_lt_trans; [exact Hlen|apply Ht].
Qed.

(** C1: a SELECT on one table that is sharded by an integer column (a hash, mod or mycat
    mod, long, string or murmur rule, or number ranges of positive size below 2^63; no
    location is negative), without PARTITION and without a DATABASE() hint, is sent to
    the table of every row with an int64 key other than -2^63 that its WHERE condition
    selects: the statement of that table is among those generated for the slice and the
    database of the table. The condition compares the sharding column with integer
    literals only, and a NOT BETWEEN on it has its bounds in order: see
    [date_less_than_drops_table], [hash_quoted_negative] and
    [not_between_reversed_misses] for what happens otherwise. *)
Theorem select_reaches_rows pr sc st di th fields w gb hv ws ob lim lk p :
  let stmt := mk_SelectStmt pr sc st di th fields (Some (one_table (RTableName t) alias)) w gb hv ws
                ob lim lk in
  selects b row truth w ->
  HandleSelectStmt (NewSelectPlan db router) stmt = Ret p -> hintPhyDB (sp_info p) = ""%string ->
  exists sl d q, target (RBase b) i = Ret (sl, d) /\
    restored_sql (SelectStmt_Restore EscapeRestoreFlags (NewRouteResult "" "" [i]) 0 (sp_stmt p)) = Ret q /\
    q ∈ sqls_at (sp_sqls p) sl d.
Proof.
  intros stmt Hse Hp Hh. unfold HandleSelectStmt, stmt, handleTableRefs, NewSelectPlan in Hp.
  rewrite (handleJoin_one_table db router t alias (RBase b)) in Hp; try apply Ht; try apply table_type.
  cbn [wrap mbind outcome_bind] in Hp. apply bind_Ret in Hp as ([[fs ms] n] & _ & Hp).
  apply bind_Ret in Hp as ([[gb' gc] fs1] & _ & Hp). apply bind_Ret in Hp as ([[ob' oc] fs2] & _ & Hp).
  apply bind_Ret in Hp as ([[gc' oc'] fs3] & _ & Hp). apply bind_Ret in Hp as ([w' s1] & Hw%wrap_Ret & Hp).
  apply bind_Ret in Hp as (hv' & _ & Hp). apply bind_Ret in Hp as ([mg lim'] & _ & Hp).
  apply bind_Ret in Hp as (s2 & Hs2%wrap_Ret & Hp). apply bind_Ret in Hp as ([m r] & Hg%wrap_Ret & [= <-]).
  destruct (handleWhere_reaches _ _ _ Hse Hw) as (Hi & Hlen & H0 & Hdb & Htb & Hr & Hne).
  assert (s2 = s1) as ->.
  { unfold postHandleGlobalTableRouteResultInQuery in Hs2. rewrite decide_False in Hs2 by done.
    unfold postHandleHintDatabaseFunction in Hs2. cbn [sp_info set_result hintPhyDB] in Hh.
    destruct (String.eqb (hintPhyDB s1) "") eqn:E; [by injection Hs2|].
    destruct (GetShardRule _ _ _); [|done]. destruct (negb _); [done|].
    destruct (GetTableIndexByDatabaseName _ _); [|done]. injection Hs2 as <-.
    cbn in Hh. by rewrite Hh in E. }
  rewrite Hr in Hg.
  refine (routed_statement_sent (restore := fun rr => SelectStmt_Restore EscapeRestoreFlags rr 0 _)
            s1 router (RBase b) (RBase b) m r i Hlen H0 Hdb Htb _ _ Hg Hi); [apply Ht|].
  intros. by apply SelectStmt_current.
Qed.

End reach.
End table.

(** * Witnesses *)

#[export] Instance example_first : MapFirst :=
  fun A m => match map_to_list m with [] => None | p :: _ => Some p end.

Definition id_is (z : Z) : expr (gmap Z Z) := EBinary EQ (EColumn (column "id")) (int_lit z).

Lemma tbl_ok : table_ok (example_shard "tbl" ModRuleType) (base_of tbl_rule) "db" example_router
  (table_named "tbl").
Proof.
  split; [apply example_shard_tables|by right; left|reflexivity|by left|reflexivity|reflexivity
         |reflexivity|vm_compute; reflexivity].
Qed.

Definition row_7 : string -> gval := fun _ => GInt KInt64 7.

Lemma row_7_at : row_at (base_of tbl_rule) row_7 7 2.
Proof. by split. Qed.


(** [SELECT fields FROM tbl WHERE w ORDER BY o] *)
Definition select_from (fields : list (SelectField (gmap Z Z))) (w : option (expr (gmap Z Z)))
    (o : option (list (ByItem (gmap Z Z)))) : SelectStmt (gmap Z Z) :=
  mk_SelectStmt NoPriority true false false [] (Some fields) (Some (from_table (table_named "tbl"))) w
    None None None o None SelectLockNone.

Definition field (e : expr (gmap Z Z)) : SelectField (gmap Z Z) := mk_SelectField None (Some e) (NewCIStr "").

Definition select_plan (stmt : SelectStmt (gmap Z Z)) : SelectPlan_ (T := gmap Z Z) :=
  match HandleSelectStmt (NewSelectPlan "db" example_router) stmt with
  | Ret p => p
  | _ => mk_SelectPlan_ (NewSelectPlan "db" example_router) stmt
           (mkSelectPlan false false [] [] [] 0 0 [] 0 0) ∅
  end.

Definition example_select : SelectStmt (gmap Z Z) :=
  select_from [field (EColumn (column "id"))] (Some (id_is 7)) None.

Lemma example_select_planned :
  HandleSelectStmt (NewSelectPlan "db" example_router) example_select = Ret (select_plan example_select) /\
  hintPhyDB (sp_info (select_plan example_select)) = ""%string /\
  sqls_at (sp_sqls (select_plan example_select)) "slice-1" "db" =
    ["SELECT `id` FROM `tbl_0002` WHERE `id`=7"%string].
Proof. split_and!; vm_compute; reflexivity. Qed.

Lemma select_reaches_rows_witness :
  exists sl d q, target tbl_rule 2 = Ret (sl, d) /\
    restored_sql (SelectStmt_Restore EscapeRestoreFlags (NewRouteResult "" "" [2]) 0
                    (sp_stmt (select_plan example_select))) = Ret q /\
    q ∈ sqls_at (sp_sqls (select_plan example_select)) sl d.
Proof.
  refine (select_reaches_rows (example_shard "tbl" ModRuleType) (base_of tbl_rule) "db" example_router
              (table_named "tbl") (NewCIStr "") row_7 (fun _ => true) 7 2 tbl_ok row_7_at
              NoPriority true false false [] (Some [field (EColumn (column "id"))]) (Some (id_is 7))
              None None None None None SelectLockNone (select_plan example_select) _ _ _);
    [split; reflexivity|apply example_select_planned|apply example_select_planned].
Defined.

(** * What is merged wrongly *)

(** One column of a result row *)
Definition ints (l : list Z) : ResultRow := map (GInt KInt64) l.

#[local] Abbreviation merge_rows p rs :=
  (@MergeSelectResult no_floats (fun m => (map_to_list m).*1) isort_GoSort p rs).

(** The values of the merged rows *)
Definition merged_values (p : SelectPlan) (rs : list Result) : outcome (list ResultRow) :=
  '(ret, _) ← merge_rows p rs; Ret (Values ret).

Definition star : SelectField (gmap Z Z) :=
  mk_SelectField (Some (mk_WildCardField (NewCIStr "") (NewCIStr ""))) None (NewCIStr "").

(** A column that is selected beside a wildcard and ordered by is looked up at a
    wrong place: for [SELECT id, * FROM tbl ORDER BY id] on a table with the columns
    name and id, the rows of the shards are merged in the order of name. *)
Theorem order_by_beside_wildcard :
  let p := select_plan (select_from [field (EColumn (column "id")); star]
                          None (Some [mk_ByItem (EColumn (column "id")) false])) in
  let shard rows := mkResult 2 0 0 ["id"; "name"; "id"] (map ints rows) in
  orderByColumn (sp_merge p) = [0] /\
  sqls_at (sp_sqls p) "slice-0" "db" =
    ["SELECT `id`,* FROM `tbl_0000` ORDER BY `id`"; "SELECT `id`,* FROM `tbl_0001` ORDER BY `id`"]%string /\
  merged_values (sp_merge p) [shard [[5; 9; 5]]; shard [[1; 7; 1]; [6; 2; 6]]] =
    Ret (map ints [[6; 2; 6]; [1; 7; 1]; [5; 9; 5]]).
Proof. split_and!; vm_compute; reflexivity. Qed.

(** [COUNT(DISTINCT name)] is merged like COUNT: a name that two shards have is
    counted twice. *)
Theorem count_distinct_counts_twice :
  let p := select_plan (select_from
             [field (EOther (NAggregate "count" true) [EColumn (column "name")])] None None) in
  let shard n := mkResult 2 0 0 ["n"] [ints [n]] in
  sqls_at (sp_sqls p) "slice-0" "db" =
    ["SELECT count(DISTINCT name) FROM `tbl_0000`"; "SELECT count(DISTINCT name) FROM `tbl_0001`"]%string /\
  merged_values (sp_merge p) [shard 1; shard 1] = Ret [ints [2]].
Proof. split_and!; vm_compute; reflexivity. Qed.
