(* ===== verification/PlanModify.v ===== *)
(** proxy/plan/plan_update.go and plan_delete.go: UPDATE and DELETE of one
    sharded table. *)

From Stdlib Require Import Ascii String.
From S2P Require Import Prelude GoStr Hack NumKey Shard ShardMycat Models Rule.
From S2P Require Import Router PlanUtil Format Ast Dml PlanWhere PlanSQL PlanExample.
From S2P Require Import PlanRewrite Sequence PlanInsert Merge MergeSort PlanSelect PlanTable.

Section modify.
Context {T} {TM : TreeMap T} {LZ : LocalZone} {FE : FloatE} {MF : MapFirst}.

(** The state, the rewritten statement and the generated SQL. *)
Record ModifyPlan {A : Type} := mk_ModifyPlan { mp_info : StmtInfo T; mp_stmt : A; mp_sqls : SQLs }.
Arguments mk_ModifyPlan {A}.

(** handleUpdateTableRefs and handleDeleteTableRefs *)
Definition handleModifyTableRefs (s : StmtInfo T) (refs : option (join T)) :
    outcome (option (join T) * StmtInfo T) :=
  match refs with
  | None => Ret (None, s)
  | Some (mk_join _ (Some _) _ _ _ _ _) =>
      Err (Errorf "does not support update multiple tables in sharding")
  | Some j => '(j', s') ← handleJoin s j; Ret (Some j', s')
  end.

(** handleUpdateOrderBy and handleDeleteOrderBy *)
Definition modify_item (s : StmtInfo T) (item : ByItem T) : outcome (ByItem T) :=
  match by_Expr item with
  | EColumn c =>
      need ← NeedCreateColumnNameExprDecoratorInField s c;
      Ret (mk_ByItem (match need with
                      | Some (rule, isAlias) => EColumnD c rule isAlias
                      | None => EColumn c
                      end) (by_Desc item))
  | _ => Err (Errorf "ByItem.Expr is not a ColumnNameExpr")
  end.

Definition handleModifyOrderBy (s : StmtInfo T) (order : option (list (ByItem T))) :
    outcome (option (list (ByItem T))) :=
  match order with
  | None => Ret None
  | Some items => items' ← mapM (modify_item s) items; Ret (Some items')
  end.

(** The sharding column may not be assigned; the other columns lose their database
    and table, which is right because there is one table only. *)
Definition update_assignment (s : StmtInfo T) (a : Assignment T) : outcome (Assignment T) :=
  need ← NeedCreateColumnNameExprDecoratorInCondition s (as_Column a);
  match need with
  | Some (r, _) =>
      if String.eqb (GetShardingColumn r) (L_ (cn_Name (as_Column a)))
      then Err (Errorf "cannot update shard column value")
      else Ret (clean_assignment a)
  | None => Ret (clean_assignment a)
  end.

Definition handleUpdateAssignmentList (s : StmtInfo T) (l : list (Assignment T)) :
    outcome (list (Assignment T)) := mapM (update_assignment s) l.

Definition HandleUpdatePlan (s : StmtInfo T) (stmt : UpdateStmt T) : outcome (ModifyPlan (A := UpdateStmt T)) :=
  '(refs, s) ← wrap "handle From error: %v" (handleModifyTableRefs s (upd_TableRefs stmt));
  assigns ← wrap "handle assignment list error: %v" (handleUpdateAssignmentList s (upd_List stmt));
  '(where_, s) ← wrap "handle Where error: %v" (handleWhere s (upd_Where stmt));
  order ← wrap "handle OrderBy error: %v" (handleModifyOrderBy s (upd_Order stmt));
  let s := postHandleGlobalTableRouteResultInModify s in
  let stmt' := mk_UpdateStmt refs assigns where_ order (upd_Limit stmt) (upd_Priority stmt)
                 (upd_IgnoreErr stmt) (upd_TableHints stmt) in
  '(sqls, rr) ← wrap "generate sqls error: %v"
    (generateShardingSQLs (fun rr => UpdateStmt_Restore EscapeRestoreFlags rr stmt')
       (si_result s) (si_router s));
  Ret (mk_ModifyPlan (set_result s rr) stmt' sqls).

Definition HandleDeletePlan (s : StmtInfo T) (stmt : DeleteStmt T) : outcome (ModifyPlan (A := DeleteStmt T)) :=
  '(refs, s) ← wrap "handle From error: %v" (handleModifyTableRefs s (del_TableRefs stmt));
  '(where_, s) ← wrap "handle Where error: %v" (handleWhere s (del_Where stmt));
  order ← wrap "handle OrderBy error: %v" (handleModifyOrderBy s (del_Order stmt));
  let s := postHandleGlobalTableRouteResultInModify s in
  let stmt' := mk_DeleteStmt refs (del_Tables stmt) (del_BeforeFrom stmt) where_ order (del_Limit stmt)
                 (del_Priority stmt) (del_IgnoreErr stmt) (del_Quick stmt) (del_TableHints stmt) in
  '(sqls, rr) ← wrap "generate sqls error: %v"
    (generateShardingSQLs (fun rr => DeleteStmt_Restore EscapeRestoreFlags rr stmt')
       (si_result s) (si_router s));
  Ret (mk_ModifyPlan (set_result s rr) stmt' sqls).

Section one_table.
Context (db : string) (router : Router (T := T)) (t : TableName) (alias : CIStr) (rule : Rule T).
Hypothesis Hdb : O_ (tn_Schema t) = ""%string \/ O_ (tn_Schema t) = db.
Hypothesis Hrule : GetShardRule router db (L_ (tn_Name t)) = Some rule.
Hypothesis Htype : GetType rule <> GlobalTableRuleType.
Hypothesis Hpart : PartitionNames t = [].

Lemma handleModify_one_table :
  handleModifyTableRefs (NewTableAliasStmtInfo db router) (Some (one_table (RTableName t) alias)) =
    Ret (Some (one_table (RTableNameD t rule) alias),
         table_info db router (L_ (tn_Name t)) (L_ alias) rule).
Proof.
  unfold handleModifyTableRefs. unfold one_table at 1. by rewrite (handleJoin_one_table db router t alias rule).
Qed.

(** A column that may be assigned is not the sharding column. *)
Lemma update_assignment_inv a a' :
  update_assignment (table_info db router (L_ (tn_Name t)) (L_ alias) rule) a = Ret a' ->
  L_ (cn_Name (as_Column a)) <> GetShardingColumn rule /\ a' = clean_assignment a.
Proof.
  unfold update_assignment. intros H. apply bind_Ret in H as (need & Hn & H).
  destruct need as [[r al]|].
  - apply (resolves_need rule Htype _ _ _ _ (table_info_resolves db router t alias rule)) in Hn. subst r.
    destruct (String.eqb _ _) eqn:E; [done|]. injection H as <-. apply String.eqb_neq in E. split; [congruence|done].
  - injection H as <-. split; [|done]. intros Hcol.
    unfold NeedCreateColumnNameExprDecoratorInCondition, GetSettedRuleFromColumnInfo in Hn.
    destruct (_ && _).
    + apply bind_Ret in Hn as (o & Ho & Hn). unfold getSettedRuleByColumnName in Ho.
      cbn [table_info tableRules] in Ho. rewrite map_to_list_singleton in Ho. cbn [map snd] in Ho.
      rewrite filter_cons_True in Ho by congruence. cbn in Ho. by injection Ho as <-.
    + apply bind_Ret in Hn as ([r al] & _ & [=]).
Qed.

End one_table.

Lemma mapM_Forall2 {A B} (f : A -> outcome B) l k : mapM f l = Ret k -> Forall2 (fun a b => f a = Ret b) l k.
Proof. apply mapM_Ret. Qed.

(** C28: an UPDATE that gets a plan assigns no value to the sharding column, however
    the column is written, so no row has to move to another table. *)
Theorem update_keeps_sharding_column db router t alias rule stmt p :
  (O_ (tn_Schema t) = ""%string \/ O_ (tn_Schema t) = db) ->
  GetShardRule router db (L_ (tn_Name t)) = Some rule -> GetType rule <> GlobalTableRuleType ->
  PartitionNames t = [] -> upd_TableRefs stmt = Some (one_table (RTableName t) alias) ->
  HandleUpdatePlan (NewTableAliasStmtInfo db router) stmt = Ret p ->
  Forall (fun a => L_ (cn_Name (as_Column a)) <> GetShardingColumn rule) (upd_List stmt) /\
  upd_List (mp_stmt p) = map clean_assignment (upd_List stmt).
Proof.
  intros Hdb Hr Hty Hp Hrefs Hplan. unfold HandleUpdatePlan in Hplan.
  rewrite Hrefs, (handleModify_one_table db router t alias rule Hdb Hr Hty Hp) in Hplan.
  cbn [wrap mbind outcome_bind] in Hplan. apply bind_Ret in Hplan as (as_ & Has & Hplan).
  apply wrap_Ret, mapM_Forall2 in Has.
  assert (upd_List (mp_stmt p) = as_) as ->.
  { apply bind_Ret in Hplan as ([w s1] & _ & Hplan). apply bind_Ret in Hplan as (o & _ & Hplan).
    apply bind_Ret in Hplan as ([m r] & _ & [= <-]). done. }
  clear Hplan. induction Has as [|a a' l k Ha _ IH]; [done|].
  apply (update_assignment_inv db router t alias rule Hty) in Ha as [Hne ->]. destruct IH as [IH1 ->].
  split; [|done]. by constructor.
Qed.

(** ** Rows are reached *)

Lemma postHandle_sharded (s : StmtInfo T) : tableRules s <> ∅ -> postHandleGlobalTableRouteResultInModify s = s.
Proof. intros H. unfold postHandleGlobalTableRouteResultInModify. by rewrite decide_False. Qed.

Section reach.
Context `{!TreeMapOk T} (cfg : models.Shard) (b : BaseRule T) (db : string) (router : Router (T := T))
  (t : TableName) (alias : CIStr) (row : string -> gval) (truth : expr T -> bool) (x i : Z).
Hypothesis Ht : table_ok cfg b db router t.
Hypothesis Hrow : row_at b row x i.

#[local] Abbreviation info := (table_info db router (L_ (tn_Name t)) (L_ alias) (RBase b)).

(** A statement whose condition holds for the row, written after its WHERE. *)
Lemma modify_reaches {restore : RouteResult -> restored} w w' s' m r' :
  selects b row truth w -> handleWhere info w = Ret (w', s') ->
  (forall r1 r2, GetCurrentTableIndex r1 = GetCurrentTableIndex r2 -> restore r1 = restore r2) ->
  generateShardingSQLs restore (si_result (postHandleGlobalTableRouteResultInModify s'))
    (si_router (postHandleGlobalTableRouteResultInModify s')) = Ret (m, r') ->
  exists sl d q, target (RBase b) i = Ret (sl, d) /\
    restored_sql (restore (NewRouteResult "" "" [i])) = Ret q /\ q ∈ sqls_at m sl d.
Proof.
  intros Hse Hw Hcur Hg. destruct (handleWhere_reaches _ _ _ _ _ _ _ _ _ _ Ht Hrow _ _ _ Hse Hw) as (Hi & Hlen & H0 & Hdb & Htb & Hr & Hne).
  rewrite postHandle_sharded, Hr in Hg by done.
  eapply (routed_statement_sent s' router (RBase b)); try done. apply Ht.
Qed.

(** C15: a DELETE on one table that is sharded by an integer column, without PARTITION, is
    sent to the table of every row its WHERE condition selects: the statement of that
    table is among those generated for the slice and the database of the table. The
    rules, the keys and the conditions are those of [select_reaches_rows]: no date
    rule, integer literals only, the bounds of a NOT BETWEEN in order. *)
Theorem delete_reaches_rows stmt p :
  del_TableRefs stmt = Some (one_table (RTableName t) alias) ->
  selects b row truth (del_Where stmt) ->
  HandleDeletePlan (NewTableAliasStmtInfo db router) stmt = Ret p ->
  exists sl d q, target (RBase b) i = Ret (sl, d) /\
    restored_sql (DeleteStmt_Restore EscapeRestoreFlags (NewRouteResult "" "" [i]) (mp_stmt p)) = Ret q /\
    q ∈ sqls_at (mp_sqls p) sl d.
Proof.
  intros Hrefs Hse Hp. unfold HandleDeletePlan in Hp. rewrite Hrefs in Hp.
  rewrite (handleModify_one_table db router t alias (RBase b)) in Hp; try apply Ht; try (by eapply table_type).
  cbn [wrap mbind outcome_bind] in Hp. apply bind_Ret in Hp as ([w s1] & Hw%wrap_Ret & Hp).
  apply bind_Ret in Hp as (o & _ & Hp). apply bind_Ret in Hp as ([m r] & Hg%wrap_Ret & [= <-]).
  refine (modify_reaches (restore := fun rr => DeleteStmt_Restore EscapeRestoreFlags rr _)
            _ _ _ _ _ Hse Hw _ Hg). intros. by apply DeleteStmt_current.
Qed.

(** C14: an UPDATE on one table that is sharded by an integer column, without PARTITION,
    is sent to the table of every row its WHERE condition selects, under the same
    conditions. *)
Theorem update_reaches_rows stmt p :
  upd_TableRefs stmt = Some (one_table (RTableName t) alias) ->
  selects b row truth (upd_Where stmt) ->
  HandleUpdatePlan (NewTableAliasStmtInfo db router) stmt = Ret p ->
  exists sl d q, target (RBase b) i = Ret (sl, d) /\
    restored_sql (UpdateStmt_Restore EscapeRestoreFlags (NewRouteResult "" "" [i]) (mp_stmt p)) = Ret q /\
    q ∈ sqls_at (mp_sqls p) sl d.
Proof.
  intros Hrefs Hse Hp. unfold HandleUpdatePlan in Hp. rewrite Hrefs in Hp.
  rewrite (handleModify_one_table db router t alias (RBase b)) in Hp; try apply Ht; try (by eapply table_type).
  cbn [wrap mbind outcome_bind] in Hp. apply bind_Ret in Hp as (as_ & _ & Hp).
  apply bind_Ret in Hp as ([w s1] & Hw%wrap_Ret & Hp).
  apply bind_Ret in Hp as (o & _ & Hp). apply bind_Ret in Hp as ([m r] & Hg%wrap_Ret & [= <-]).
  refine (modify_reaches (restore := fun rr => UpdateStmt_Restore EscapeRestoreFlags rr _)
            _ _ _ _ _ Hse Hw _ Hg). intros. by apply UpdateStmt_current.
Qed.

End reach.
End modify.
Arguments ModifyPlan T A : clear implicits.
Arguments mk_ModifyPlan {T A}.

(** * Witnesses

    [DELETE FROM tbl WHERE id = 7], [UPDATE tbl SET name = 1 WHERE id = 7] *)

Definition example_delete : DeleteStmt (gmap Z Z) :=
  mk_DeleteStmt (Some (from_table (table_named "tbl"))) None false (Some (id_is 7)) None None NoPriority
    false false [].

Definition example_update : UpdateStmt (gmap Z Z) :=
  mk_UpdateStmt (Some (from_table (table_named "tbl"))) [mk_Assignment (column "name") (int_lit 1)]
    (Some (id_is 7)) None None NoPriority false [].

Definition plan_or {A} (o : outcome (ModifyPlan (gmap Z Z) A)) (stmt : A) : ModifyPlan (gmap Z Z) A :=
  match o with Ret p => p | _ => mk_ModifyPlan (NewTableAliasStmtInfo "db" example_router) stmt ∅ end.

Definition example_delete_plan : ModifyPlan (gmap Z Z) (DeleteStmt (gmap Z Z)) :=
  plan_or (HandleDeletePlan (NewTableAliasStmtInfo "db" example_router) example_delete) example_delete.

Definition example_update_plan : ModifyPlan (gmap Z Z) (UpdateStmt (gmap Z Z)) :=
  plan_or (HandleUpdatePlan (NewTableAliasStmtInfo "db" example_router) example_update) example_update.

Lemma example_delete_planned :
  HandleDeletePlan (NewTableAliasStmtInfo "db" example_router) example_delete = Ret example_delete_plan /\
  sqls_at (mp_sqls example_delete_plan) "slice-1" "db" = ["DELETE FROM `tbl_0002` WHERE `id`=7"%string].
Proof. split; vm_compute; reflexivity. Qed.

Lemma example_update_planned :
  HandleUpdatePlan (NewTableAliasStmtInfo "db" example_router) example_update = Ret example_update_plan /\
  sqls_at (mp_sqls example_update_plan) "slice-1" "db" =
    ["UPDATE `tbl_0002` SET `name`=1 WHERE `id`=7"%string].
Proof. split; vm_compute; reflexivity. Qed.

Lemma delete_reaches_rows_witness :
  exists sl d q, target tbl_rule 2 = Ret (sl, d) /\
    restored_sql (DeleteStmt_Restore EscapeRestoreFlags (NewRouteResult "" "" [2])
                    (mp_stmt example_delete_plan)) = Ret q /\
    q ∈ sqls_at (mp_sqls example_delete_plan) sl d.
Proof.
  apply (delete_reaches_rows (example_shard "tbl" ModRuleType) (base_of tbl_rule) "db" example_router
              (table_named "tbl") (NewCIStr "") row_7 (fun _ => true) 7 2 tbl_ok row_7_at example_delete);
    [reflexivity|split; reflexivity|apply example_delete_planned].
Defined.

Lemma update_reaches_rows_witness :
  exists sl d q, target tbl_rule 2 = Ret (sl, d) /\
    restored_sql (UpdateStmt_Restore EscapeRestoreFlags (NewRouteResult "" "" [2])
                    (mp_stmt example_update_plan)) = Ret q /\
    q ∈ sqls_at (mp_sqls example_update_plan) sl d.
Proof.
  apply (update_reaches_rows (example_shard "tbl" ModRuleType) (base_of tbl_rule) "db" example_router
              (table_named "tbl") (NewCIStr "") row_7 (fun _ => true) 7 2 tbl_ok row_7_at example_update);
    [reflexivity|split; reflexivity|apply example_update_planned].
Defined.

Lemma update_keeps_sharding_column_witness :
  Forall (fun a => L_ (cn_Name (as_Column a)) <> "id"%string) (upd_List example_update) /\
  upd_List (mp_stmt example_update_plan) = map clean_assignment (upd_List example_update).
Proof.
  apply (update_keeps_sharding_column "db" example_router (table_named "tbl") (NewCIStr "") tbl_rule);
    [by left|reflexivity|discriminate|reflexivity|reflexivity|apply example_update_planned].
Defined.
