(* ===== verification/Conn.v ===== *)
(** backend/direct_connection.go, backend/pooled_connection.go and the connections
    of backend/connection_pool.go and backend/slice.go: what the proxy sends to the
    MySQL servers. The servers and the network are a parameter that answers every
    command, knowing all that was sent before. *)

From Stdlib Require Import Ascii String.
From S2P Require Import Prelude StateM GoStr Format SessionVars Charset Models Merge Balancer Pool.

(** * Connections *)

(** A connection: its pool and its number in it. *)
Abbreviation cid := (prod string nat).

Inductive command :=
| ComInitDB (db : string)
| ComQuery (sql : string)
| ComFieldList (table wildcard : string)
| Hangup.  (** the socket is closed on the side of the proxy *)

(** What connecting gives: the status of the server after the handshake and, when it
    is needed, [set autocommit = 1]; no socket; a socket that is closed again because
    the handshake failed. *)
Inductive redial := Connected (status : Z) | NotDialed | NotShaken.

(** What a command gives: an OK packet or a result set, whose last status is in the
    result; an error packet, perhaps after a status that was read; no answer; a broken
    pipe at the write, with what the attempts to connect again gave. *)
Inductive reply :=
| Answer (r : Result)
| Refused (e : error) (status : option Z)
| Lost (e : error)
| Broken (e : error) (d : redial).

Definition events : Type := list (cid * command).

Class Server := {
  answer : events -> cid -> command -> reply;
  accept : events -> cid -> redial;
}.

Record DirectConnection := mkDirectConnection {
  conn : bool;          (** [dc.conn != nil]; the socket may be closed: [Hangup] in the log *)
  dc_closed : bool;
  dc_db : string;
  dc_charset : string;
  dc_collation : Z;
  dc_variables : SessionVariables;
  dc_status : Z;
}.

Record World := mkWorld {
  slices : gmap string Slice;
  rpools : gmap string ResourcePool;
  conns : gmap cid DirectConnection;
  log : events;
}.

Definition set_conn (w : World) (c : cid) (d : DirectConnection) : World :=
  mkWorld (slices w) (rpools w) (<[c := d]> (conns w)) (log w).
Definition set_pool (w : World) (n : string) (p : ResourcePool) : World :=
  mkWorld (slices w) (<[n := p]> (rpools w)) (conns w) (log w).
Definition set_slice (w : World) (n : string) (s : Slice) : World :=
  mkWorld (<[n := s]> (slices w)) (rpools w) (conns w) (log w).
Definition logged (w : World) (c : cid) (m : command) : World :=
  mkWorld (slices w) (rpools w) (conns w) (log w ++ [(c, m)]).

Definition with_conn (d : DirectConnection) (b closed : bool) (st : Z) : DirectConnection :=
  mkDirectConnection b closed (dc_db d) (dc_charset d) (dc_collation d) (dc_variables d) st.
Definition with_status (d : DirectConnection) (st : Z) : DirectConnection :=
  with_conn d (conn d) (dc_closed d) st.
Definition with_db (d : DirectConnection) (db : string) : DirectConnection :=
  mkDirectConnection (conn d) (dc_closed d) db (dc_charset d) (dc_collation d) (dc_variables d) (dc_status d).
Definition with_charset (d : DirectConnection) (cs : string) (col : Z) : DirectConnection :=
  mkDirectConnection (conn d) (dc_closed d) (dc_db d) cs col (dc_variables d) (dc_status d).
Definition with_variables (d : DirectConnection) (v : SessionVariables) : DirectConnection :=
  mkDirectConnection (conn d) (dc_closed d) (dc_db d) (dc_charset d) (dc_collation d) v (dc_status d).

Definition nil_pointer : string := "invalid memory address or nil pointer dereference".

(** [pc.directConnection] *)
Definition the_conn (c : cid) : M World DirectConnection := fun w =>
  match conns w !! c with Some d => (w, Ret d) | None => (w, Panic nil_pointer) end.

Definition update_conn (c : cid) (f : DirectConnection -> DirectConnection) : M World unit :=
  let* d := the_conn c in modify (fun w => set_conn w c (f d)).

Section server.
Context {SV : Server}.

(** [dc.Close()] *)
Definition Close (c : cid) : M World unit :=
  let* d := the_conn c in
  (if conn d then modify (fun w => logged w c Hangup) else ret tt) ;;*
  update_conn c (fun d => with_conn d false true (dc_status d)).

(** [dc.conn.Close()] *)
Definition conn_Close (c : cid) : M World unit :=
  let* d := the_conn c in
  if conn d then modify (fun w => logged w c Hangup) else panic nil_pointer.

(** The connection after the attempts of [writePacket] to connect again. *)
Definition redialed (d : DirectConnection) (r : redial) : DirectConnection :=
  match r with
  | Connected st => with_conn d true true st
  | NotDialed => with_conn d false true (dc_status d)
  | NotShaken => with_conn d true true (dc_status d)
  end.

(** A command and its answer. *)
Definition send (c : cid) (m : command) : M World Result :=
  let* d := the_conn c in
  if negb (conn d) then panic nil_pointer else
  let* a := gets (fun w => answer (log w) c m) in
  modify (fun w => logged w c m) ;;*
  match a with
  | Answer r => ret r
  | Refused e st =>
      match st with Some st => update_conn c (fun d => with_status d st) | None => ret tt end ;;* fail e
  | Lost e => fail e
  | Broken e r =>
      modify (fun w => logged w c Hangup) ;;* update_conn c (fun d => redialed d r) ;;* fail e
  end.

Definition exec (c : cid) (query : string) : M World Result :=
  let* r := send c (ComQuery query) in
  update_conn c (fun d => with_status d (Status r)) ;;* ret r.

Definition Execute (c : cid) (sql : string) : M World Result := exec c sql.

Definition Begin (c : cid) : M World unit := exec c "begin" ;;* ret tt.
Definition Commit (c : cid) : M World unit := exec c "commit" ;;* ret tt.
Definition Rollback (c : cid) : M World unit := exec c "rollback" ;;* ret tt.
Definition RollbackTo (c : cid) (savepoint : string) : M World unit :=
  exec c ("rollback to " +:+ savepoint) ;;* ret tt.
Definition Savepoint (c : cid) (savepoint : string) : M World unit :=
  exec c ("savepoint " +:+ savepoint) ;;* ret tt.

(** [v] is 0 or not. *)
Definition SetAutoCommit (c : cid) (v : Z) : M World unit :=
  let* r := attempt (exec c (if v =? 0 then "set autocommit = 0" else "set autocommit = 1")) in
  match r with
  | Ret _ => ret tt
  | Err e => conn_Close c ;;* fail e
  | Panic p => panic p
  end.

Definition UseDB (c : cid) (dbName : string) : M World unit :=
  let* d := the_conn c in
  if negb (conn d) then panic nil_pointer else
  if String.eqb (dc_db d) dbName || String.eqb dbName "" then ret tt else
  send c (ComInitDB dbName) ;;* update_conn c (fun d => with_db d dbName).

(** Whether the charset changed. *)
Definition SetCharset (c : cid) (charset : string) (collation : Z) : M World bool :=
  let charset := trim_func is_quote charset in
  let collation := if collation =? 0
                   then default 0 (CollationNames !! default ""%string (Charsets !! charset)) else collation in
  let* d := the_conn c in
  if String.eqb (dc_charset d) charset && (dc_collation d =? collation) then ret false else
  match CharsetIds !! charset with
  | None => fail (Errorf "invalid charset %s")
  | Some _ =>
      match Collations !! collation with
      | None => fail (Errorf "invalid collation %d")
      | Some _ => update_conn c (fun d => with_charset d charset collation) ;;* ret true
      end
  end.

Definition ServerStatusInTrans : Z := 1.
Definition ServerStatusAutocommit : Z := 2.

Definition IsAutoCommit (d : DirectConnection) : bool := 0 <? Z.land (dc_status d) ServerStatusAutocommit.
Definition IsInTransaction (d : DirectConnection) : bool := 0 <? Z.land (dc_status d) ServerStatusInTrans.

Definition ResetConnection (c : cid) : M World unit :=
  let* d := the_conn c in
  (if IsInTransaction d then Rollback c else ret tt) ;;*
  let* d := the_conn c in
  if IsAutoCommit d then ret tt else SetAutoCommit c 1.

(** ** Session variables *)

Definition appendSetCharset (buf charset collation : string) : string :=
  buf +:+ (if String.eqb buf "" then "SET NAMES '" else ",") +:+ charset +:+ "' COLLATE '" +:+ collation +:+ "'".

Definition append_key (buf key : string) : string :=
  buf +:+ (if String.eqb buf "" then "SET " else ",") +:+ key +:+ " = ".

(** The values of session variables are strings and integers. *)
Definition appendSetVariable (buf key : string) (value : gval) : string :=
  append_key buf key +:+
  match value with
  | GString v => if String.eqb (ToLower v) KeywordDefault then v else "'" +:+ v +:+ "'"
  | GInt _ z => FormatInt z
  | _ => "''"
  end.

Definition appendSetVariableToDefault (buf key : string) : string := append_key buf key +:+ "DEFAULT".

Context {MR : MapRange}.

(** The text [WriteSetStatement] sends. *)
Definition set_statement (charset collation : string) (vs : SessionVariables) : string :=
  let buf := appendSetCharset "" charset collation in
  let buf := foldl (fun buf '(_, v) => appendSetVariable buf (v_name v) (v_value v)) buf (map_range (variables vs)) in
  foldl (fun buf '(_, v) => appendSetVariableToDefault buf (v_name v)) buf (map_range (unused vs)).

Definition SetSessionVariables (c : cid) (frontend : SessionVariables) : M World bool :=
  let* d := the_conn c in
  let* r := of_outcome (SetEqualsWith (dc_variables d) frontend) in
  update_conn c (fun d => with_variables d r.2) ;;* ret r.1.

Definition WriteSetStatement (c : cid) : M World unit :=
  let* d := the_conn c in
  match Collations !! dc_collation d with
  | None => fail (Errorf "invalid collationId: %v")
  | Some collation =>
      let setSQL := set_statement (dc_charset d) collation (dc_variables d) in
      update_conn c (fun d => with_variables d (GetUnusedAndClear (dc_variables d)).2) ;;*
      if String.eqb setSQL "" then ret tt else exec c setSQL ;;* ret tt
  end.

(** [initBackendConn] of proxy/server/executor.go. *)
Definition initBackendConn (c : cid) (phyDB charset : string) (collation : Z)
    (vs : SessionVariables) : M World unit :=
  UseDB c phyDB ;;*
  let* charsetChanged := SetCharset c charset collation in
  let* variablesChanged := SetSessionVariables c vs in
  if charsetChanged || variablesChanged then WriteSetStatement c else ret tt.

(** * Pools *)

Definition the_pool (n : string) : M World ResourcePool := fun w =>
  match rpools w !! n with Some p => (w, Ret p) | None => (w, Panic nil_pointer) end.

Definition update_pool (n : string) (f : ResourcePool -> ResourcePool) : M World unit :=
  let* p := the_pool n in modify (fun w => set_pool w n (f p)).

Definition ErrClosed : error := Named "ErrClosed".
Definition ErrTimeout : error := Named "ErrTimeout".
Definition ErrConnectionPoolClosed : error := Named "ErrConnectionPoolClosed".

(** [ConnectionPool.connect], the factory of the pool. *)
Definition connect (cp : Balancer.ConnectionPool) (c : cid) : M World unit :=
  let* r := gets (fun w => accept (log w) c) in
  match r with
  | Connected st =>
      modify (fun w => set_conn w c
        (mkDirectConnection true false (cp_db cp) (charset cp) (collationID cp) NewSessionVariables st))
  | NotDialed | NotShaken => fail (Errorf "connect")
  end.

(** [Get] of the connection pool, when nobody else uses it meanwhile. *)
Definition pool_Get (cp : Balancer.ConnectionPool) (n : string) : M World cid :=
  let* p := the_pool n in
  match resources p with
  | [] => fail (if closed p then ErrClosed else ErrTimeout)
  | (o, _) :: l =>
      update_pool n (fun p => set_resources p l) ;;*
      let* r := match o with
                | Some r => ret r
                | None =>
                    let* p := the_pool n in
                    update_pool n make ;;*
                    let* e := attempt (connect cp (n, made p)) in
                    match e with
                    | Ret _ => update_pool n (fun p => add_active p 1) ;;* ret (made p)
                    | Err e => update_pool n (fun p => set_resources p (resources p ++ [no_resource])) ;;* fail e
                    | Panic q => panic q
                    end
                end in
      update_pool n (fun p => add_available p (-1)) ;;*
      update_pool n (fun p => add_inUse p 1) ;;*
      ret (n, r)
  end.

(** [Put] of the resource pool. *)
Definition rp_Put (n : string) (o : option nat) : M World unit :=
  (if is_some o then ret tt else update_pool n (fun p => add_active p (-1))) ;;*
  let* p := the_pool n in
  if closed p then panic "send on closed channel" else
  if decide (MaxCap p <= zlen (resources p)) then panic "attempt to Put into a full ResourcePool" else
  update_pool n (fun p => set_resources p (resources p ++ [(o, 0)])) ;;*
  update_pool n (fun p => add_inUse p (-1)) ;;*
  update_pool n (fun p => add_available p 1).

(** [PooledConnection.Recycle] and [ConnectionPool.Put]. *)
Definition Recycle (c : cid) : M World unit :=
  let* d := the_conn c in
  if dc_closed d then rp_Put c.1 None else
  let* e := attempt (ResetConnection c) in
  match e with
  | Ret _ => rp_Put c.1 (Some c.2)
  | Err _ => Close c ;;* rp_Put c.1 None
  | Panic p => panic p
  end.

(** * Slices *)

Definition MasterFlag : Z := 1.
Definition SlaveFlag : Z := 2.
Definition MasterDCFlag : Z := 4.
Definition StatisticUser : Z := 1.

(** The name of the pool of a server. The slaves of one kind that have the same
    address share their pool here. *)
Definition pool_name (slice role addr : string) : string := slice +:+ "/" +:+ role +:+ "/" +:+ addr.

(** A slave of the slice, chosen by the balancer. *)
Definition slave_conn (sliceName role : string) (next : Slice -> Slice * outcome Balancer.ConnectionPool) :
    M World cid :=
  let* s := gets (fun w => slices w !! sliceName) in
  match s with
  | None => panic nil_pointer
  | Some s =>
      modify (fun w => set_slice w sliceName (next s).1) ;;*
      let* cp := of_outcome (next s).2 in
      pool_Get cp (pool_name sliceName role (addr cp))
  end.

Definition GetMasterConn (sliceName : string) : M World cid :=
  let* s := gets (fun w => slices w !! sliceName) in
  match s with
  | Some s =>
      match Master s with
      | Some cp => pool_Get cp (pool_name sliceName "master" (addr cp))
      | None => panic nil_pointer
      end
  | None => panic nil_pointer
  end.

Definition GetSlaveConn (sliceName : string) : M World cid := slave_conn sliceName "slave" getNextSlave.
Definition GetMasterDCSlaveConn (sliceName : string) : M World cid :=
  slave_conn sliceName "masterdc" getNextMasterDCSlave.
Definition GetStatisticSlaveConn (sliceName : string) : M World cid :=
  slave_conn sliceName "statistic" getNextStatisticSlave.

Definition GetConn (sliceName : string) (executeFlag userType : Z) : M World cid :=
  if Z.land SlaveFlag executeFlag =? SlaveFlag then
    if userType =? StatisticUser then GetStatisticSlaveConn sliceName
    else
      let* r := attempt (GetSlaveConn sliceName) in
      match r with
      | Err _ => GetMasterConn sliceName
      | o => of_outcome o
      end
  else if Z.land MasterDCFlag executeFlag =? MasterDCFlag then GetMasterDCSlaveConn sliceName
  else GetMasterConn sliceName.
End server.
