(* ===== verification/Session.v ===== *)
(** proxy/server/executor.go and proxy/server/executor_handle.go: the session of a
    client, its transaction and the execution of its statements on the connections of
    the slices. The requests of a session come one after the other; those of different
    sessions interleave as wholes. The goroutines that [executeInMultiSlices] starts use
    different connections and are run one after the other. *)

From Stdlib Require Import Ascii String.
From S2P Require Import Prelude GoStr Keywords Utf8 Lexer Preview.
From S2P Require Import Format SessionVars Charset Models PlanUtil Ast Merge Balancer.
From S2P Require Import StateM Pool Conn.

(** * Data *)

Record UserProperty := mk_UserProperty { up_RWFlag : Z; up_RWSplit : Z; up_OtherProperty : Z }.

(** What a session reads of its namespace and of the manager. *)
Record Namespace := mk_Namespace {
  allowedDBs : gmap string bool;
  defaultPhyDBs : gmap string string;
  userProperties : gmap string UserProperty;
  defaultCharset : string;
  defaultCollationID : Z;
  masterDC : bool;
  writeElapsedInterval : Z;
}.

Record SessionExecutor := mk_SessionExecutor {
  user : string;
  db : string;
  status : Z;
  lastInsertID : Z;
  collation : Z;
  charset : string;
  sessionVariables : SessionVariables;
  txConns : gmap string cid;
  elapsedTables : gmap string Z;
}.

(** The servers and pools, the session, and the switch of the general log. *)
Record State := mkState { world : World; session : SessionExecutor; ProcessGeneralLog : Z }.

Definition set_db (se : SessionExecutor) (d : string) : SessionExecutor :=
  mk_SessionExecutor (user se) d (status se) (lastInsertID se) (collation se) (charset se)
    (sessionVariables se) (txConns se) (elapsedTables se).
Definition set_status (se : SessionExecutor) (st : Z) : SessionExecutor :=
  mk_SessionExecutor (user se) (db se) st (lastInsertID se) (collation se) (charset se)
    (sessionVariables se) (txConns se) (elapsedTables se).
Definition SetLastInsertID (se : SessionExecutor) (id : Z) : SessionExecutor :=
  mk_SessionExecutor (user se) (db se) (status se) id (collation se) (charset se)
    (sessionVariables se) (txConns se) (elapsedTables se).
Definition set_charset (se : SessionExecutor) (cs : string) (col : Z) : SessionExecutor :=
  mk_SessionExecutor (user se) (db se) (status se) (lastInsertID se) col cs
    (sessionVariables se) (txConns se) (elapsedTables se).
Definition set_variables (se : SessionExecutor) (vs : SessionVariables) : SessionExecutor :=
  mk_SessionExecutor (user se) (db se) (status se) (lastInsertID se) (collation se) (charset se)
    vs (txConns se) (elapsedTables se).
Definition set_txConns (se : SessionExecutor) (tx : gmap string cid) : SessionExecutor :=
  mk_SessionExecutor (user se) (db se) (status se) (lastInsertID se) (collation se) (charset se)
    (sessionVariables se) tx (elapsedTables se).
Definition set_elapsed (se : SessionExecutor) (e : gmap string Z) : SessionExecutor :=
  mk_SessionExecutor (user se) (db se) (status se) (lastInsertID se) (collation se) (charset se)
    (sessionVariables se) (txConns se) e.

Definition onw {A} (m : M World A) : M State A :=
  on world (fun s w => mkState w (session s) (ProcessGeneralLog s)) m.
Definition update (f : SessionExecutor -> SessionExecutor) : M State unit :=
  modify (fun s => mkState (world s) (f (session s)) (ProcessGeneralLog s)).

(** * Namespace *)

Definition GetUserProperty (ns : Namespace) (u : string) : outcome UserProperty :=
  match userProperties ns !! u with Some p => Ret p | None => Panic nil_pointer end.

Definition ReadWrite : Z := 2.
Definition ReadWriteSplit : Z := 1.

Definition IsAllowWrite (ns : Namespace) (u : string) : outcome bool :=
  p ← GetUserProperty ns u; Ret (up_RWFlag p =? ReadWrite).

Definition GetRWSplit (ns : Namespace) (u : string) : outcome Z :=
  p ← GetUserProperty ns u; Ret (if up_RWSplit p =? ReadWriteSplit then SlaveFlag else MasterFlag).

Definition IsAllowedDB (ns : Namespace) (dbname : string) : bool := default false (allowedDBs ns !! dbname).

Definition GetDefaultPhyDB (ns : Namespace) (dbname : string) : outcome string :=
  if String.eqb dbname "" then Ret ""%string
  else or_err (Errorf "invalid db %s") (defaultPhyDBs ns !! dbname).

(** * Transactions *)

Definition initClientConnStatus : Z := ServerStatusAutocommit.

Definition newSessionExecutor : SessionExecutor :=
  mk_SessionExecutor "" "" initClientConnStatus 0 0 "" NewSessionVariables ∅ ∅.

Definition isAutoCommit (se : SessionExecutor) : bool := 0 <? Z.land (status se) ServerStatusAutocommit.
Definition isInTransaction (se : SessionExecutor) : bool :=
  (0 <? Z.land (status se) ServerStatusInTrans) || negb (isAutoCommit se).

(** [se.status &= ^mysql.ServerStatusInTrans] *)
Definition clear_trans (se : SessionExecutor) : SessionExecutor :=
  set_status se (Z.ldiff (status se) ServerStatusInTrans).

Section session.
Context {SV : Server} {MR : MapRange} (ns : Namespace).

Definition getTransactionConn (sliceName : string) : M State cid :=
  let* se := gets session in
  match txConns se !! sliceName with
  | Some pc => ret pc
  | None =>
      let* pc := onw (GetMasterConn sliceName) in
      let* r := attempt (onw (if isAutoCommit se then Begin pc else SetAutoCommit pc 0)) in
      match r with
      | Ret _ => update (fun se => set_txConns se (<[sliceName := pc]> (txConns se))) ;;* ret pc
      | Err e => onw (Close pc) ;;* onw (Recycle pc) ;;* fail e
      | Panic p => panic p
      end
  end.

Definition getBackendConn (sliceName : string) (executeFlag : Z) : M State cid :=
  let* se := gets session in
  if isInTransaction se then getTransactionConn sliceName
  else
    let* p := of_outcome (GetUserProperty ns (user se)) in
    onw (GetConn sliceName executeFlag (up_OtherProperty p)).

(** The connections that were got, and the error that ended the loop. *)
Fixpoint get_conns (executeFlag : Z) (names : list string) (pcs : gmap string cid) :
    M State (gmap string cid * option error) :=
  match names with
  | [] => ret (pcs, None)
  | n :: names =>
      let* r := attempt (getBackendConn n executeFlag) in
      match r with
      | Ret pc => get_conns executeFlag names (<[n := pc]> pcs)
      | Err e => ret (pcs, Some e)
      | Panic p => panic p
      end
  end.

Definition getBackendConns {A} (sqls : gmap string A) (executeFlag : Z) :
    M State (gmap string cid * option error) :=
  get_conns executeFlag (map_range sqls).*1 ∅.

Definition recycleBackendConn (pc : cid) : M State unit :=
  let* se := gets session in
  if isInTransaction se then ret tt else onw (Recycle pc).

Fixpoint recycle_all (pcs : list (string * cid)) : M World unit :=
  match pcs with
  | [] => ret tt
  | (_, pc) :: pcs => Recycle pc ;;* recycle_all pcs
  end.

Definition recycleBackendConns (pcs : gmap string cid) : M State unit :=
  let* se := gets session in
  if isInTransaction se then ret tt else onw (recycle_all (map_range pcs)).

Fixpoint begin_all (l : list (string * cid)) : M World unit :=
  match l with
  | [] => ret tt
  | (_, co) :: l => Begin co ;;* begin_all l
  end.

Definition handleBegin : M State unit :=
  let* se := gets session in
  onw (begin_all (map_range (txConns se))) ;;*
  update (fun se => set_status se (Z.lor (status se) ServerStatusInTrans)).

(** The loop at the end of a transaction; the last error. *)
Fixpoint end_all (op : cid -> M World unit) (l : list (string * cid)) (err : option error) :
    M World (option error) :=
  match l with
  | [] => ret err
  | (_, pc) :: l =>
      let* r := attempt (op pc) in
      Recycle pc ;;*
      end_all op l (match r with Err e => Some e | _ => err end)
  end.

(** [commit], [rollback], [rollbackTo] and [savepoint] after their change of the status. *)
Definition end_transaction (op : cid -> M World unit) : M State unit :=
  let* se := gets session in
  let* err := onw (end_all op (map_range (txConns se)) None) in
  update (fun se => set_txConns se ∅) ;;*
  match err with Some e => fail e | None => ret tt end.

Definition commit : M State unit := update clear_trans ;;* end_transaction Commit.
Definition rollback : M State unit := update clear_trans ;;* end_transaction Rollback.
Definition rollbackTo (savepoint : string) : M State unit := end_transaction (fun c => RollbackTo c savepoint).
Definition savepoint (savepoint : string) : M State unit := end_transaction (fun c => Savepoint c savepoint).

Definition handleSetAutoCommit (autocommit : bool) : M State unit :=
  if autocommit then
    update (fun se => clear_trans (set_status se (Z.lor (status se) ServerStatusAutocommit))) ;;*
    let* se := gets session in
    let* err := onw (end_all (fun c => SetAutoCommit c 1) (map_range (txConns se)) None) in
    update (fun se => set_txConns se ∅) ;;*
    match err with Some e => fail (Wrap "set autocommit error, %v" e) | None => ret tt end
  else update (fun se => set_status se (Z.ldiff (status se) ServerStatusAutocommit)).

(** * Execution *)

(** [executeInSlice]: [MasterFlag] is the flag of a request that has none. *)
Definition ExecuteSQL (executeFlag : Z) (slice dbname sql : string) : M State Result :=
  let* pc := getBackendConn "slice-0" executeFlag in
  deferred
    (let* se := gets session in
     let* phyDB := of_outcome (GetDefaultPhyDB ns dbname) in
     onw (initBackendConn pc phyDB (charset se) (collation se) (sessionVariables se)) ;;*
     onw (Execute pc sql))
    (recycleBackendConn pc).

(** The statements for one database; an error is the result of its statement. *)
Fixpoint run_sqls (pc : cid) (sqls : list string) : M World (list (outcome Result)) :=
  match sqls with
  | [] => ret []
  | v :: sqls =>
      let* r := attempt (Execute pc v) in
      let* rs := run_sqls pc sqls in
      ret (r :: rs)
  end.

(** The goroutine of one slice: it stops at a database that cannot be used. *)
Fixpoint run_dbs (se : SessionExecutor) (pc : cid) (dbs : list (string * list string)) :
    M World (list (outcome Result)) :=
  match dbs with
  | [] => ret []
  | (d, sqls) :: dbs =>
      let* r := attempt (initBackendConn pc d (charset se) (collation se) (sessionVariables se)) in
      match r with
      | Ret _ =>
          let* rs := run_sqls pc sqls in
          let* rest := run_dbs se pc dbs in
          ret (rs ++ rest)
      | Err e => ret [Err e]
      | Panic p => panic p
      end
  end.

Fixpoint run_slices (se : SessionExecutor) (sqls : gmap string (gmap string (list string)))
    (pcs : list (string * cid)) : M World (list (outcome Result)) :=
  match pcs with
  | [] => ret []
  | (n, pc) :: pcs =>
      let* rs := run_dbs se pc (map_range (default ∅ (sqls !! n))) in
      let* rest := run_slices se sqls pcs in
      ret (rs ++ rest)
  end.

(** The first error of the results, or all of them. *)
Fixpoint first_error (rs : list (outcome Result)) : outcome (list Result) :=
  match rs with
  | [] => Ret []
  | r :: rs => r ← r; rs ← first_error rs; Ret (r :: rs)
  end.

Definition ErrConnNotEqual : error := Named "ErrConnNotEqual".
Definition ErrNoPlan : error := Named "ErrNoPlan".

Definition executeInMultiSlices (pcs : gmap string cid) (sqls : gmap string (gmap string (list string))) :
    M State (list Result) :=
  if negb (size pcs =? size sqls)%nat then fail ErrConnNotEqual
  else if (size pcs =? 0)%nat then fail ErrNoPlan
  else
    let* se := gets session in
    let* rs := onw (run_slices se sqls (map_range pcs)) in
    of_outcome (first_error rs).

Definition ExecuteSQLs (executeFlag : Z) (sqls : gmap string (gmap string (list string))) :
    M State (list Result) :=
  if (size sqls =? 0)%nat then fail (Errorf "no sql to execute")
  else
    let* r := getBackendConns sqls executeFlag in
    deferred
      (match r.2 with Some e => fail e | None => executeInMultiSlices r.1 sqls end)
      (recycleBackendConns r.1).

(** * Variables *)

Record VariableAssignment := mk_VariableAssignment {
  va_Name : string; va_IsGlobal : bool; va_Value : expr unit; va_ExtendValue : option (expr unit);
}.

Context {FE : FloatE}.

Definition variableRestoreFlag : Z := Z.lor RestoreKeyWordLowercase RestoreNameLowercase.

Definition getVariableExprResult (v : expr unit) : string :=
  ToLower (text (Restore variableRestoreFlag (NewRouteResult "" "" []) v)).

Definition getOnOffVariable (v : string) : outcome string :=
  if String.eqb v "1" || String.eqb v "on" then Ret "1"%string
  else if String.eqb v "0" || String.eqb v "off" then Ret "0"%string
  else Err (Errorf "not an on off string").

Definition setStringSessionVariable (name valueStr : string) : M State unit :=
  if String.eqb (ToLower valueStr) KeywordDefault
  then update (fun se => set_variables se (Delete (sessionVariables se) name))
  else
    let* se := gets session in
    let* vs := of_outcome (Set_ (sessionVariables se) name (GString valueStr)) in
    update (fun se => set_variables se vs).

Definition setIntSessionVariable (name valueStr : string) : M State unit :=
  if String.eqb (ToLower valueStr) KeywordDefault
  then update (fun se => set_variables se (Delete (sessionVariables se) name))
  else
    let* value := of_outcome (ParseInt valueStr) in
    let* se := gets session in
    let* vs := of_outcome (Set_ (sessionVariables se) name (GInt KInt64 value)) in
    update (fun se => set_variables se vs).

Definition setGeneralLogVariable (valueStr : string) : M State unit :=
  match Atoi valueStr with
  | Ret v => modify (fun s => mkState (world s) (session s) (u32 v))
  | _ => fail (Named "ErrInvalidArgument")
  end.

Definition ErrUnknownCharacterSet : error := Named "ErrUnknownCharacterSet".
Definition ErrWrongValueForVar : error := Named "ErrWrongValueForVar".

(** The collation of [SET NAMES charset COLLATE extend]. *)
Definition names_collation (charset : string) (extend : option (expr unit)) : outcome Z :=
  match extend with
  | Some e =>
      let collationName := getVariableExprResult e in
      cid ← or_err ErrUnknownCharacterSet (CollationNames !! collationName);
      toCharset ← or_err ErrUnknownCharacterSet (CollationNameToCharset !! collationName);
      if String.eqb toCharset charset then Ret cid else Err ErrUnknownCharacterSet
  | None => or_err ErrUnknownCharacterSet (CharsetIds !! charset)
  end.

Definition handleSetVariable (v : VariableAssignment) : M State unit :=
  if va_IsGlobal v then fail (Errorf "does not support set variable in global scope") else
  let name := ToLower (va_Name v) in
  let value := getVariableExprResult (va_Value v) in
  let named l := bool_decide (name ∈ l) in
  if named ["character_set_results"; "character_set_client"; "character_set_connection"]%string then
    if String.eqb value "null" then ret tt
    else if String.eqb value KeywordDefault
    then update (fun se => set_charset se (defaultCharset ns) (defaultCollationID ns))
    else
      let* cid := of_outcome (or_err ErrUnknownCharacterSet (CharsetIds !! value)) in
      update (fun se => set_charset se value cid)
  else if named ["autocommit"%string] then
    if bool_decide (value ∈ [KeywordDefault; "on"; "1"]%string) then handleSetAutoCommit true
    else if bool_decide (value ∈ ["off"; "0"]%string) then handleSetAutoCommit false
    else fail ErrWrongValueForVar
  else if named ["setnames"%string] then
    let charset := if String.eqb value KeywordDefault then defaultCharset ns else value in
    let* collationID := of_outcome (names_collation charset (va_ExtendValue v)) in
    update (fun se => set_charset se charset collationID)
  else if named ["sql_mode"%string] then setStringSessionVariable "sql_mode" value
  else if named ["sql_safe_updates"%string] then
    match getOnOffVariable value with
    | Ret onOffValue => setIntSessionVariable "sql_safe_updates" onOffValue
    | _ => fail ErrWrongValueForVar
    end
  else if named ["time_zone"%string] then setStringSessionVariable "time_zone" value
  else if named ["max_allowed_packet"%string] then fail (Named "ErrVariableIsReadonly")
  else if named ["wait_timeout"; "interactive_timeout"; "net_write_timeout"; "net_read_timeout"; "sql_select_limit"]%string
  then ret tt
  else if named ["transaction"%string] then fail (Errorf "does not support set transaction in gaea")
  else if named ["gaea_general_log"%string] then
    match getOnOffVariable value with
    | Ret onOffValue => setGeneralLogVariable onOffValue
    | _ => fail ErrWrongValueForVar
    end
  else ret tt.

Fixpoint handleSet (vs : list VariableAssignment) : M State unit :=
  match vs with
  | [] => ret tt
  | v :: vs => handleSetVariable v ;;* handleSet vs
  end.

(** * Statements without a plan *)

(** What the parser makes of such a statement; the kind of SHOW is all that matters of it. *)
Inductive showType := ShowDatabases | ShowVariables | ShowOther.

Inductive statement :=
| ShowStmt (tp : showType)
| SetStmt (vars : list VariableAssignment)
| BeginStmt | CommitStmt | RollbackStmt
| RollbackToStmt (name : string) | SavepointStmt (name : string)
| UseStmt (dbName : string)
| OtherStmt.

Definition handleUseDB (dbName : string) : M State unit :=
  if String.eqb dbName "" then fail (Errorf "must have database, the length of dbName is zero")
  else if IsAllowedDB ns dbName then update (fun se => set_db se dbName)
  else fail (Named "ErrNoDB").

(** Result sets of one column; every database of the configuration is listed. *)
Definition createShowDatabaseResult : Result :=
  let dbs := (map_range (allowedDBs ns)).*1 in
  mkResult 0 0 (zlen dbs) ["Database"%string] (map (fun d => [GString d]) dbs).

Definition createShowGeneralLogResult (on : bool) : Result :=
  mkResult 0 0 1 ["gaea_general_log"%string] [[GString (if on then "ON" else "OFF")%string]].

Definition modifyResultStatus (r : Result) (se : SessionExecutor) : Result :=
  mkResult (Z.lor (Status r) (status se)) (InsertID r) (AffectedRows r) (Fields r) (Values r).

Definition handleShow (sql : string) (tp : showType) : M State Result :=
  let execute :=
    let* se := gets session in
    let* r := wrapping "execute sql error, sql: %s, err: %v" (ExecuteSQL MasterFlag "slice-0" (db se) sql) in
    let* se := gets session in
    ret (modifyResultStatus r se) in
  match tp with
  | ShowDatabases => ret createShowDatabaseResult
  | ShowVariables =>
      if negb (Index sql "gaea_general_log" =? -1)
      then let* g := gets ProcessGeneralLog in ret (createShowGeneralLogResult (negb (g =? 0)))
      else execute
  | ShowOther => execute
  end.

(** The parser of the grammar. *)
Context (parse : string -> outcome statement).

(** A result that is nil is [None]. *)
Definition handleQueryWithoutPlan (sql : string) : M State (option Result) :=
  let* n := of_outcome (wrap "parse sql error, sql: %s, err: %v" (parse sql)) in
  match n with
  | ShowStmt tp => let* r := handleShow sql tp in ret (Some r)
  | SetStmt vars => handleSet vars ;;* ret None
  | BeginStmt => handleBegin ;;* ret None
  | CommitStmt => commit ;;* ret None
  | RollbackStmt => rollback ;;* ret None
  | RollbackToStmt name => rollbackTo name ;;* ret None
  | SavepointStmt name => savepoint name ;;* ret None
  | UseStmt dbName => handleUseDB dbName ;;* ret None
  | OtherStmt => fail (Errorf "cannot handle sql without plan, ns: %s, sql: %s")
  end.

(** * Plans *)

(** The plans of proxy/plan and what their [ExecuteIn] needs. *)
Inductive Plan :=
| SelectPlan_ (sqls : gmap string (gmap string (list string))) (empty : outcome Result)
    (merge : list Result -> outcome Result)
| InsertPlan_ (sqls : gmap string (gmap string (list string)))
| ModifyPlan_ (sqls : gmap string (gmap string (list string)))   (** UPDATE and DELETE *)
| UnshardPlan (db sql : string) (insert : bool)
| SelectLastInsertIDPlan
| ExplainPlan (r : Result).

Definition createLastInsertIDResult (id : Z) : Result :=
  mkResult 0 0 0 ["last_insert_id()"%string] [[GString (FormatUint id)]].

Definition record_id (r : Result) : M State unit :=
  if InsertID r =? 0 then ret tt else update (fun se => SetLastInsertID se (InsertID r)).

Definition ExecuteIn (executeFlag : Z) (p : Plan) : M State (option Result) :=
  match p with
  | SelectPlan_ sqls empty merge =>
      if (size sqls =? 0)%nat then (let* r := of_outcome empty in ret (Some r)) else
      let* rs := wrapping "execute in SelectPlan error: %v" (ExecuteSQLs executeFlag sqls) in
      let* r := of_outcome (wrap "merge select result error: %v" (merge rs)) in
      ret (Some r)
  | InsertPlan_ sqls =>
      let* rs := wrapping "execute in InsertPlan error: %v" (ExecuteSQLs executeFlag sqls) in
      let r := MergeExecResult rs in
      record_id r ;;* ret (Some r)
  | ModifyPlan_ sqls =>
      if (size sqls =? 0)%nat then ret None else
      let* rs := wrapping "execute in UpdatePlan error: %v" (ExecuteSQLs executeFlag sqls) in
      ret (Some (MergeExecResult rs))
  | UnshardPlan db sql insert =>
      let* r := ExecuteSQL executeFlag "slice-0" db sql in
      (if insert then record_id r else ret tt) ;;* ret (Some r)
  | SelectLastInsertIDPlan =>
      let* se := gets session in ret (Some (createLastInsertIDResult (lastInsertID se)))
  | ExplainPlan r => ret (Some r)
  end.

(** * Queries *)

Context {HL : HighLetters} (getPlan : string -> string -> outcome (Plan * list string)).

Definition readRequestIsReadMaster (se : SessionExecutor) (currentTables : list string) (now : Z) : bool :=
  existsb (fun t =>
    match elapsedTables se !! t with
    | Some timeMs => let elapsed := i64 (now - timeMs) in (0 <=? elapsed) && (elapsed <? writeElapsedInterval ns)
    | None => false
    end) currentTables.

Definition masterDCSlaveComment : string := "/*master_dc_slave*/".
Definition masterComment : string := "/*master*/".

Definition getExecuteFlagFromSlave (se : SessionExecutor) (sql : string) (currentTables : list string) (now : Z) :
    outcome Z :=
  if negb (bool_decide (Preview sql = StmtSelect)) then Ret MasterFlag else
  let lcomment := ToLower (TrimFunc IsSpace (Leading (SplitMarginComments sql).2)) in
  flag ← GetRWSplit ns (user se);
  let flag := if negb (masterDC ns) &&
                 (String.eqb lcomment masterDCSlaveComment || readRequestIsReadMaster se currentTables now)
              then MasterDCFlag else flag in
  Ret (if String.eqb lcomment masterComment then MasterFlag else flag).

Definition updateWriteTableCurrentTime (sql : string) (tables : list string) (now : Z) : M State unit :=
  if bool_decide (Preview sql ∈ [StmtInsert; StmtUpdate; StmtDelete])
  then update (fun se => set_elapsed se (foldl (fun m t => <[t := now]> m) (elapsedTables se) tables))
  else ret tt.

Definition isSQLNotAllowedByUser (se : SessionExecutor) (t : stmtType) : outcome bool :=
  w ← IsAllowWrite ns (user se);
  Ret (negb w && bool_decide (t ∈ [StmtDelete; StmtInsert; StmtUpdate])).

(** [now] is the time in milliseconds; the plan comes with the tables of the statement. *)
Definition doQuery (now : Z) (sql : string) : M State (option Result) :=
  let stmtType := Preview sql in
  let* se := gets session in
  let* refused := of_outcome (isSQLNotAllowedByUser se stmtType) in
  if refused : bool then fail (Errorf "write DML is now allowed by read user") else
  if canHandleWithoutPlan stmtType then handleQueryWithoutPlan sql else
  let* p := of_outcome (wrap "get plan error, db: %s, sql: %s, err: %v" (getPlan (db se) sql)) in
  let* flag := of_outcome (getExecuteFlagFromSlave se sql p.2 now) in
  updateWriteTableCurrentTime sql p.2 now ;;*
  let* r := ExecuteIn flag p.1 in
  let* se := gets session in
  match r with
  | Some r => ret (Some (modifyResultStatus r se))
  | None => panic nil_pointer
  end.

(** [handleFieldList]: [sliceName] is the first slice of the rule of the table; the fields
    of the answer are not looked at. *)
Definition handleFieldList (sliceName table wildcard : string) : M State unit :=
  let* se := gets session in
  let* flag := of_outcome (GetRWSplit ns (user se)) in
  let* pc := getBackendConn sliceName flag in
  deferred
    (let* se := gets session in
     let* phyDB := of_outcome (GetDefaultPhyDB ns (db se)) in
     onw (initBackendConn pc phyDB (charset se) (collation se) (sessionVariables se)) ;;*
     onw (send pc (ComFieldList table wildcard)) ;;* ret tt)
    (recycleBackendConn pc).

Definition ErrInternalServer : error := Named "ErrInternalServer".

(** [handleQuery] behind the check of the black list: a panic becomes an error. *)
Definition handleQuery (now : Z) (sql : string) : M State (option Result) := fun s =>
  let '(s', o) := doQuery now (trim_right (Ascii.eqb ";") sql) s in
  (s', match o with Panic _ => Err ErrInternalServer | o => o end).

(** The commands of a client that change its session or reach a server. *)
Inductive request :=
| ComQuit
| ComQuery_ (now : Z) (sql : string)
| ComInitDB_ (db : string)
| ComFieldList_ (sliceName table wildcard : string).

Definition ExecuteCommand (r : request) : M State (option Result) :=
  match r with
  | ComQuit => attempt rollback ;;* ret None
  | ComQuery_ now sql => handleQuery now sql
  | ComInitDB_ d => handleUseDB d ;;* ret None
  | ComFieldList_ n t wc => handleFieldList n t wc ;;* ret None
  end.
End session.
