(* ===== verification/ConnInv.v ===== *)
(** The pools of connections and the servers: what a computation on one connection
    leaves alone, and that a connection that is got is nobody else's and goes back to
    its pool. *)

From Stdlib Require Import Ascii String.
From S2P Require Import Prelude GoStr Format SessionVars Charset Models Merge Balancer.
From S2P Require Import StateM Pool Conn.

(** * Pools *)

Definition ids (p : ResourcePool) : list nat := omap fst (resources p).

(** The numbers of the connections of a pool that are out of it. *)
Definition held (n : string) (out : gset cid) : gset nat := set_map snd (filter (fun c => c.1 = n) out).

Lemma elem_of_held n out r : r ∈ held n out <-> (n, r) ∈ out.
Proof.
  unfold held. rewrite elem_of_map. split.
  - intros ([n' r'] & -> & [Hn Hc]%elem_of_filter). cbn in *. by subst.
  - intros H. exists (n, r). split; [done|]. by apply elem_of_filter.
Qed.

Lemma held_add n out r : held n ({[(n, r)]} ∪ out) = {[r]} ∪ held n out.
Proof. apply set_eq. intros x. rewrite elem_of_union, !elem_of_held. set_solver. Qed.

Lemma held_add_ne n m out r : n <> m -> held n ({[(m, r)]} ∪ out) = held n out.
Proof. intros H. apply set_eq. intros x. rewrite !elem_of_held. set_solver. Qed.

Lemma held_remove n out r : held n (out ∖ {[(n, r)]}) = held n out ∖ {[r]}.
Proof. apply set_eq. intros x. rewrite elem_of_difference, !elem_of_held. set_solver. Qed.

Lemma held_remove_ne n m out r : n <> m -> held n (out ∖ {[(m, r)]}) = held n out.
Proof. intros H. apply set_eq. intros x. rewrite !elem_of_held. set_solver. Qed.

Record pool_ok (p : ResourcePool) (h : gset nat) : Prop := {
  po_nodup : NoDup (ids p);
  po_made : forall r, r ∈ ids p -> (r < made p)%nat;
  po_held : forall r, r ∈ h -> (r < made p)%nat /\ r ∉ ids p;
  po_capacity : zlen (resources p) + Z.of_nat (size h) = capacity p;
  po_max : capacity p <= MaxCap p;
  po_open : closed p = false;
  po_available : available p = zlen (resources p);
  po_inUse : inUse p = Z.of_nat (size h);
  po_active : active p = zlen (ids p) + Z.of_nat (size h);
}.

Lemma ids_app p l : ids (set_resources p (resources p ++ l)) = ids p ++ omap fst l.
Proof. unfold ids. cbn [resources set_resources]. by rewrite omap_app. Qed.

(** [Put] gives the pool its connection back, or the place of a closed one. *)
Lemma put_ok p h r o :
  pool_ok p h -> r ∈ h -> o = Some r \/ o = None ->
  (zlen (resources p) < MaxCap p) /\
  pool_ok (add_available (add_inUse (set_resources (if is_some o then p else add_active p (-1))
             (resources p ++ [(o, 0)])) (-1)) 1) (h ∖ {[r]}).
Proof.
  intros [H1 H2 H3 H4 H5 H6 H7 H8 H9] Hr Ho.
  assert (Z.of_nat (size (h ∖ {[r]})) = Z.of_nat (size h) - 1) as Hsz.
  { rewrite size_difference by set_solver. rewrite size_singleton.
    assert (size h <> 0)%nat; [|lia]. intros E%size_empty_iff. set_solver. }
  destruct (H3 r Hr) as [Hm Hn]. pose proof (zlen_nonneg (resources p)).
  assert (1 <= size h)%nat as Hs1. { assert (size h <> 0)%nat; [|lia]. intros E%size_empty_iff. set_solver. }
  split; [lia|].
  destruct Ho as [->| ->]; cbn [is_some]; constructor; cbn; unfold ids in *; cbn [resources add_active set_resources add_inUse add_available made];
    rewrite ?omap_app, ?zlen_app, ?zlen_cons, ?zlen_nil; cbn [omap list_omap fst]; rewrite ?app_nil_r, ?Hsz, ?zlen_app, ?zlen_cons, ?zlen_nil; try lia; try done.
  - apply NoDup_app. split_and!; [done| |apply NoDup_singleton]. intros x Hx Hx'. set_solver.
  - intros x Hx. apply elem_of_app in Hx as [Hx|Hx]; [auto|]. set_solver.
  - intros x Hx. destruct (H3 x ltac:(set_solver)) as [? ?]. split; [done|]. set_solver.
  - intros x Hx. apply H3. set_solver.
Qed.


(** A connection of the channel, or a new one, is out of the pool. *)
Lemma take_ok p h o u l :
  pool_ok p h -> resources p = (o, u) :: l ->
  match o with
  | Some r => (r ∉ h) /\ pool_ok (add_inUse (add_available (set_resources p l) (-1)) 1) ({[r]} ∪ h)
  | None => (made p ∉ h) /\
      pool_ok (add_inUse (add_available (add_active (make (set_resources p l)) 1) (-1)) 1) ({[made p]} ∪ h) /\
      pool_ok (set_resources (make (set_resources p l)) (l ++ [no_resource])) h
  end.
Proof.
  intros [H1 H2 H3 H4 H5 H6 H7 H8 H9] Hl. unfold ids in *. rewrite Hl in *. rewrite ?zlen_cons in *.
  destruct o as [r|]; cbn [omap list_omap fst] in *.
  - apply NoDup_cons in H1 as [Hr H1]. assert (r ∉ h) as Hh. { intros Hh. destruct (H3 r Hh). set_solver. }
    split; [done|]. rewrite ?zlen_cons in *.
    assert (size ({[r]} ∪ h) = S (size h)) as Hsz by (by rewrite size_union, size_singleton by set_solver).
    constructor; cbn; unfold ids; cbn [resources set_resources add_available add_inUse]; rewrite ?Hsz; try lia; try done.
    + intros x Hx. apply H2. set_solver.
    + intros x [->%elem_of_singleton|Hx]%elem_of_union; [split; [apply H2; set_solver|done]|].
      destruct (H3 x Hx). split; [done|set_solver].
  - assert (made p ∉ h) as Hh. { intros Hh. destruct (H3 _ Hh). lia. }
    assert (size ({[made p]} ∪ h) = S (size h)) as Hsz by (by rewrite size_union, size_singleton by set_solver).
    split; [done|]. split.
    + constructor; cbn; unfold ids; cbn [resources set_resources add_available add_inUse make add_active]; rewrite ?Hsz; try lia; try done.
      * intros x Hx. specialize (H2 x Hx). lia.
      * intros x [->%elem_of_singleton|Hx]%elem_of_union; [split; [lia|]|destruct (H3 x Hx); split; [lia|done]].
        intros Hx. specialize (H2 _ Hx). lia.
    + constructor; cbn; unfold ids; cbn [resources set_resources make]; rewrite ?omap_app, ?zlen_app; cbn [omap list_omap fst no_resource]; rewrite ?app_nil_r, ?zlen_cons, ?zlen_nil; try lia; try done.
      * intros x Hx. specialize (H2 x Hx). lia.
      * intros x Hx. destruct (H3 x Hx). split; [lia|done].
Qed.

(** * Slices *)

(** The queue of a group names slaves of it, and their pools were made. *)
Record group_ok (P : string -> Prop) (n role : string) (g : Group) : Prop := {
  go_queue : Forall (fun i => 0 <= i < zlen (pools g)) (queue g);
  go_last : 0 <= last g;
  go_pools : Forall (fun cp => P (pool_name n role (addr cp))) (pools g);
}.

Record slice_ok (P : string -> Prop) (n : string) (s : Slice) : Prop := {
  so_master : exists cp, Master s = Some cp /\ P (pool_name n "master" (addr cp));
  so_dc : group_ok P n "masterdc" (MasterDC s);
  so_slave : group_ok P n "slave" (Slaves s);
  so_statistic : group_ok P n "statistic" (Statistic s);
  so_last : last (Statistic s) < Z.max 1 (zlen (queue (Statistic s)));
}.

Lemma group_ok_impl (P Q : string -> Prop) n role g :
  (forall k, P k -> Q k) -> group_ok P n role g -> group_ok Q n role g.
Proof. intros H [H1 H2 H3]. constructor; [done|done|]. eapply Forall_impl; [done|]. cbn. auto. Qed.

Lemma slice_ok_impl (P Q : string -> Prop) n s : (forall k, P k -> Q k) -> slice_ok P n s -> slice_ok Q n s.
Proof.
  intros H [(cp & Hm & Hp) H2 H3 H4 H5]. constructor; [|by eapply group_ok_impl..|done]. exists cp. auto.
Qed.

Lemma group_ok_last P n role g l :
  group_ok P n role g -> 0 <= l -> group_ok P n role (mkGroup (pools g) (weights g) l (queue g)).
Proof. by intros [H1 H2 H3]. Qed.

(** What a slice and the choice of a slave give. *)
Definition chosen (P : string -> Prop) (n role : string) (o : outcome Balancer.ConnectionPool) : Prop :=
  match o with Ret cp => P (pool_name n role (addr cp)) | Err _ => True | Panic _ => False end.

Lemma group_index P n role g k i :
  group_ok P n role g -> queue g !! k = Some i ->
  exists cp, index (pools g) i = Ret cp /\ P (pool_name n role (addr cp)) /\ i < zlen (pools g).
Proof.
  intros [H1 H2 H3] Hk. rewrite Forall_lookup in H1. specialize (H1 _ _ Hk). cbn in H1.
  destruct (index_in_range (pools g) i H1) as (cp & -> & Hc). exists cp. split_and!; [done| |lia].
  rewrite Forall_lookup in H3. by eapply (H3 _ cp).
Qed.

Lemma next_in_chosen P n role g :
  group_ok P n role g -> group_ok P n role (next_in g).1 /\ chosen P n role (next_in g).2.
Proof.
  intros Hg. unfold next_in. pose proof (zlen_nonneg (queue g)). pose proof (go_last _ _ _ _ Hg).
  destruct (zlen (queue g) =? 0) eqn:E0; [done|].
  destruct (zlen (queue g) =? 1) eqn:E1.
  { destruct (index_in_range (queue g) 0) as (i & -> & Hi); [lia|]. split; [done|]. cbn.
    by destruct (group_index _ _ _ _ _ _ Hg Hi) as (cp & -> & Hp & _). }
  pose proof (Z.rem_bound_pos (last g) (zlen (queue g)) ltac:(lia) ltac:(lia)) as Hl. cbn [queue pools last weights].
  destruct (index_in_range (queue g) (Z.rem (last g) (zlen (queue g)))) as (i & -> & Hi); [lia|].
  destruct (group_index _ _ _ _ _ _ Hg Hi) as (cp & -> & Hp & Hlt).
  rewrite (proj2 (Z.leb_gt _ _)) by lia. split; [|done]. apply group_ok_last; [done|].
  apply Z.rem_nonneg; lia.
Qed.

Lemma next_slave_chosen P n s :
  slice_ok P n s -> slice_ok P n (getNextSlave s).1 /\ chosen P n "slave" (getNextSlave s).2.
Proof.
  intros [H1 H2 H3 H4 H5]. unfold getNextSlave. destruct (next_in_chosen _ _ _ _ H3) as [Ha Hb].
  destruct (next_in (Slaves s)) as [g r]. split; [by constructor|done].
Qed.

Lemma next_dc_chosen P n s :
  slice_ok P n s -> slice_ok P n (getNextMasterDCSlave s).1 /\ chosen P n "masterdc" (getNextMasterDCSlave s).2.
Proof.
  intros [H1 H2 H3 H4 H5]. unfold getNextMasterDCSlave. destruct (next_in_chosen _ _ _ _ H2) as [Ha Hb].
  destruct (next_in (MasterDC s)) as [g r]. split; [by constructor|done].
Qed.

Lemma next_statistic_chosen P n s :
  slice_ok P n s -> slice_ok P n (getNextStatisticSlave s).1 /\ chosen P n "statistic" (getNextStatisticSlave s).2.
Proof.
  intros Hs. pose proof Hs as [H1 H2 H3 H4 H5]. unfold getNextStatisticSlave. pose proof (zlen_nonneg (queue (Statistic s))).
  pose proof (go_last _ _ _ _ H4). destruct (zlen (queue (Statistic s)) =? 0) eqn:E0; [done|].
  destruct (zlen (queue (Statistic s)) =? 1) eqn:E1.
  { destruct (index_in_range (queue (Statistic s)) 0) as (i & -> & Hi); [lia|]. split; [done|]. cbn.
    by destruct (group_index _ _ _ _ _ _ H4 Hi) as (cp & -> & Hp & _). }
  destruct (index_in_range (queue (Statistic s)) (last (Statistic s))) as (i & -> & Hi); [lia|].
  destruct (group_index _ _ _ _ _ _ H4 Hi) as (cp & -> & Hp & Hlt). rewrite (proj2 (Z.leb_gt _ _)) by lia.
  split; [|done]. constructor; cbn; try done.
  - apply group_ok_last; [done|]. apply Z.rem_nonneg; lia.
  - apply group_ok_last; [done|]. apply Z.rem_nonneg; lia.
  - pose proof (Z.rem_bound_pos (last (Statistic s) + 1) (zlen (queue (Statistic s)))). lia.
Qed.

(** * The world *)

(** The status the servers report: a rollback ends the transaction, and so does the
    change to the autocommit mode. *)
Class Honest (SV : Server) := {
  honest_rollback : forall l c r, answer l c (ComQuery "rollback") = Answer r -> Z.land (Status r) ServerStatusInTrans = 0;
  honest_autocommit : forall l c r, answer l c (ComQuery "set autocommit = 1") = Answer r ->
    Z.land (Status r) ServerStatusInTrans = 0 /\ 0 < Z.land (Status r) ServerStatusAutocommit;
}.

(** A connection a pool keeps: it has a connection object (whose socket may have broken
    since, or been closed by a failed change of the autocommit mode), nobody marked it
    closed, and its server, when it reports its status as documented, last said that it
    is in no transaction and in the autocommit mode. *)
Definition ready {SV : Server} (d : DirectConnection) : Prop :=
  conn d = true /\ dc_closed d = false /\ (Honest SV -> IsInTransaction d = false /\ IsAutoCommit d = true).

(** The slices of the namespace. *)
Class SliceNames := slice_names : gset string.

Section world.
Context {SN : SliceNames} {SV : Server}.

Record inv (w : World) (out : gset cid) : Prop := {
  inv_names : forall n, n ∈ slice_names -> is_Some (slices w !! n);
  inv_slices : forall n s, slices w !! n = Some s -> slice_ok (fun k => is_Some (rpools w !! k)) n s;
  inv_pools : forall n p, rpools w !! n = Some p -> pool_ok p (held n out);
  inv_out : forall c, c ∈ out -> is_Some (rpools w !! c.1) /\ exists d, conns w !! c = Some d /\ conn d = true;
  inv_idle : forall n p r, rpools w !! n = Some p -> r ∈ ids p ->
    exists d, conns w !! (n, r) = Some d /\ ready d;
}.

Lemma inv_logged w out c m : inv w out -> inv (logged w c m) out.
Proof. by intros [Hn Hs H1 H2 H3]. Qed.

Lemma inv_slice w out n s :
  inv w out -> slice_ok (fun k => is_Some (rpools w !! k)) n s -> inv (set_slice w n s) out.
Proof.
  intros [Hn Hs H1 H2 H3] Hok. constructor; cbn; try done.
  - intros k Hk. destruct (decide (n = k)) as [->|]; [by rewrite lookup_insert_eq|rewrite lookup_insert_ne by done; auto].
  - intros k s'. rewrite lookup_insert_Some. intros [[<- <-]|[_ Hk]]; auto.
Qed.

Lemma slices_pool w p n :
  (forall k s, slices w !! k = Some s -> slice_ok (fun k => is_Some (rpools w !! k)) k s) ->
  forall k s, slices w !! k = Some s -> slice_ok (fun k => is_Some (<[n := p]> (rpools w) !! k)) k s.
Proof.
  intros H k s Hk. eapply slice_ok_impl; [|by apply H]. cbn. intros m Hm. rewrite lookup_insert_is_Some'. by right.
Qed.

Lemma out_not_idle w out n p r : inv w out -> (n, r) ∈ out -> rpools w !! n = Some p -> r ∉ ids p.
Proof.
  intros [_ _ H1 _ _] Hc Hp. destruct (po_held _ _ (H1 n p Hp) r) as [_ H]; [by apply elem_of_held|done].
Qed.

Lemma inv_conn w out c d : inv w out -> c ∈ out -> conn d = true -> inv (set_conn w c d) out.
Proof.
  intros Hi Hc Hd. pose proof Hi as [Hn Hs H1 H2 H3]. constructor; cbn; [done..| |].
  - intros c' Hc'. destruct (H2 c' Hc') as [Hp Hx]. split; [done|].
    destruct (decide (c' = c)) as [->|Hne]; [exists d; by rewrite lookup_insert_eq|by rewrite lookup_insert_ne].
  - intros n p r Hp Hr. rewrite lookup_insert_ne; [by eapply H3|]. intros ->. by eapply (out_not_idle w out n p r).
Qed.

(** Computations that leave the connections where they are. *)
Definition keeps_conns {A} (c : cid) (m : M World A) : Prop :=
  forall w out, c ∈ out -> inv w out -> inv (m w).1 out.

(** They do not panic either. *)
Definition calm {A} (c : cid) (m : M World A) : Prop :=
  forall w out, c ∈ out -> inv w out -> inv (m w).1 out /\ is_panic (m w).2 = false.

Lemma calm_keeps {A} c (m : M World A) : calm c m -> keeps_conns c m.
Proof. intros H w out Hc Hi. by apply H. Qed.

Lemma keeps_ret {A} c (a : A) : keeps_conns c (ret a).
Proof. by intros w out. Qed.
Lemma keeps_fail {A} c e : keeps_conns c (A := A) (fail e).
Proof. by intros w out. Qed.
Lemma keeps_panic {A} c e : keeps_conns c (A := A) (panic e).
Proof. by intros w out. Qed.
Lemma keeps_of_outcome {A} c (o : outcome A) : keeps_conns c (of_outcome o).
Proof. by intros w out. Qed.
Lemma keeps_bind {A B} c (m : M World A) (f : A -> M World B) :
  keeps_conns c m -> (forall a, keeps_conns c (f a)) -> keeps_conns c (bind m f).
Proof.
  intros Hm Hf w out Hc Hi. unfold bind. specialize (Hm w out Hc Hi). destruct (m w) as [w' [a| |]]; cbn in *; [|done..].
  by apply Hf.
Qed.
Lemma keeps_attempt {A} c (m : M World A) : keeps_conns c m -> keeps_conns c (attempt m).
Proof.
  intros Hm w out Hc Hi. unfold attempt. specialize (Hm w out Hc Hi). by destruct (m w) as [w' [a| |]].
Qed.

Lemma calm_ret {A} c (a : A) : calm c (ret a).
Proof. by intros w out. Qed.
Lemma calm_fail {A} c e : calm c (A := A) (fail e).
Proof. by intros w out. Qed.
Lemma calm_gets {A} c (f : World -> A) : calm c (gets f).
Proof. by intros w out. Qed.
Lemma calm_log c m : calm c (modify (fun w => logged w c m)).
Proof. intros w out Hc Hi. split; [by apply inv_logged|done]. Qed.
Lemma calm_bind {A B} c (m : M World A) (f : A -> M World B) :
  calm c m -> (forall a, calm c (f a)) -> calm c (bind m f).
Proof.
  intros Hm Hf w out Hc Hi. unfold bind. destruct (Hm w out Hc Hi) as [H1 H2].
  destruct (m w) as [w' [a| |]]; cbn in *; [|done..]. by apply Hf.
Qed.
Lemma calm_attempt {A B} c (m : M World A) (f : outcome A -> M World B) :
  calm c m -> (forall a, calm c (f (Ret a))) -> (forall e, calm c (f (Err e))) -> calm c (bind (attempt m) f).
Proof.
  intros Hm H1 H2 w out Hc Hi. unfold bind, attempt. destruct (Hm w out Hc Hi) as [Hi' Hp].
  destruct (m w) as [w' [a| |]]; cbn in *; [by apply H1|by apply H2|done].
Qed.

(** The connection at hand. *)
Lemma calm_conn {B} c (f : DirectConnection -> M World B) :
  (forall d, conn d = true -> calm c (f d)) -> calm c (bind (the_conn c) f).
Proof.
  intros Hf w out Hc Hi. destruct (inv_out w out Hi c Hc) as [_ (d & Hd & Hcd)].
  unfold bind, the_conn. cbn beta. rewrite Hd. by apply Hf.
Qed.
Lemma calm_update c f : (forall d, conn d = true -> conn (f d) = true) -> calm c (update_conn c f).
Proof.
  intros Hf. apply calm_conn. intros d Hd w out Hc Hi. split; [apply inv_conn; auto|done].
Qed.
End world.

#[export] Hint Resolve keeps_ret keeps_fail keeps_panic keeps_of_outcome keeps_bind keeps_attempt
  calm_ret calm_fail calm_gets calm_log calm_bind : dbproxy.

(** The servers can be reached again: a broken pipe never leaves a connection without
    a socket. *)
Class Dials (SV : Server) := dials : forall l c m e, answer l c m <> Broken e NotDialed.

Section friendly.
Context {SN : SliceNames} {SV : Server} {MR : MapRange}.

Context {DI : Dials SV}.

Lemma calm_send c m : calm c (send c m).
Proof.
  apply calm_conn. intros d Hd. rewrite Hd. cbn [negb]. unfold bind, gets. intros w out Hc Hi.
  pose proof (inv_logged w out c m Hi) as Hi'. cbn [modify fst snd].
  destruct (answer (log w) c m) as [r|e [st|]|e|e r] eqn:E; cbn [fst snd]; try (split; [done|done]).
  - refine (calm_bind c _ _ _ _ _ _ Hc Hi'); [by apply calm_update|intros; apply calm_fail].
  - apply (inv_logged _ _ c Hangup) in Hi'. refine (calm_bind c _ _ _ _ _ _ Hc Hi'); [|intros; apply calm_fail].
    apply calm_update. destruct r; cbn; try done. exfalso. by eapply dials.
Qed.

Lemma calm_exec c q : calm c (exec c q).
Proof.
  apply calm_bind; [apply calm_send|]. intros r. apply calm_bind; [by apply calm_update|]. intros; apply calm_ret.
Qed.
Lemma calm_exec_ c q : calm c (exec c q ;;* ret tt).
Proof. apply calm_bind; [apply calm_exec|]. intros; apply calm_ret. Qed.
Lemma calm_Begin c : calm c (Begin c).
Proof. apply calm_exec_. Qed.
Lemma calm_Commit c : calm c (Commit c).
Proof. apply calm_exec_. Qed.
Lemma calm_Rollback c : calm c (Rollback c).
Proof. apply calm_exec_. Qed.
Lemma calm_RollbackTo c s : calm c (RollbackTo c s).
Proof. apply calm_exec_. Qed.
Lemma calm_Savepoint c s : calm c (Savepoint c s).
Proof. apply calm_exec_. Qed.

Lemma calm_SetAutoCommit c v : calm c (SetAutoCommit c v).
Proof.
  apply calm_attempt; [apply calm_exec|intros; apply calm_ret|]. intros e. apply calm_bind; [|intros; apply calm_fail].
  apply calm_conn. intros d Hd. rewrite Hd. apply calm_log.
Qed.

Lemma calm_ResetConnection c : calm c (ResetConnection c).
Proof.
  apply calm_conn. intros d Hd. apply calm_bind; [destruct (IsInTransaction d); [apply calm_Rollback|apply calm_ret]|].
  intros _. apply calm_conn. intros d' Hd'. destruct (IsAutoCommit d'); [apply calm_ret|apply calm_SetAutoCommit].
Qed.

Lemma keeps_UseDB c n : keeps_conns c (UseDB c n).
Proof.
  apply calm_keeps, calm_conn. intros d Hd. rewrite Hd. cbn [negb]. destruct (_ || _); [apply calm_ret|].
  apply calm_bind; [apply calm_send|]. intros _. by apply calm_update.
Qed.

Lemma keeps_SetCharset c cs col : keeps_conns c (SetCharset c cs col).
Proof.
  apply calm_keeps, calm_conn. intros d Hd. destruct (_ && _); [apply calm_ret|].
  destruct (CharsetIds !! _); [|apply calm_fail]. destruct (Collations !! _); [|apply calm_fail].
  apply calm_bind; [by apply calm_update|]. intros; apply calm_ret.
Qed.

Lemma keeps_conn {B} c (f : DirectConnection -> M World B) :
  (forall d, conn d = true -> keeps_conns c (f d)) -> keeps_conns c (bind (the_conn c) f).
Proof.
  intros Hf w out Hc Hi. destruct (inv_out w out Hi c Hc) as [_ (d & Hd & Hcd)].
  unfold bind, the_conn. cbn beta. rewrite Hd. by apply Hf.
Qed.

Lemma keeps_SetSessionVariables c vs : keeps_conns c (SetSessionVariables c vs).
Proof.
  apply keeps_conn. intros d Hd. apply keeps_bind; [apply keeps_of_outcome|]. intros r.
  apply calm_keeps, calm_bind; [by apply calm_update|]. intros; apply calm_ret.
Qed.

Lemma keeps_WriteSetStatement c : keeps_conns c (WriteSetStatement c).
Proof.
  apply calm_keeps, calm_conn. intros d Hd. destruct (Collations !! _); [|apply calm_fail].
  apply calm_bind; [by apply calm_update|]. intros _. destruct (String.eqb _ _); [apply calm_ret|apply calm_exec_].
Qed.

Lemma keeps_initBackendConn c n cs col vs : keeps_conns c (initBackendConn c n cs col vs).
Proof.
  apply keeps_bind; [apply keeps_UseDB|]. intros _. apply keeps_bind; [apply keeps_SetCharset|]. intros b1.
  apply keeps_bind; [apply keeps_SetSessionVariables|]. intros b2.
  destruct (b1 || b2); [apply keeps_WriteSetStatement|apply keeps_ret].
Qed.

(** ** Getting and recycling *)

Lemma set_pool_inv w out out' n p :
  inv w out -> pool_ok p (held n out') -> (forall m, m <> n -> held m out' = held m out) ->
  is_Some (rpools w !! n) ->
  (forall c, c ∈ out' -> c ∉ out -> c.1 = n /\ exists d, conns w !! c = Some d /\ conn d = true) ->
  (forall r, r ∈ ids p -> exists d, conns w !! (n, r) = Some d /\ ready d) ->
  inv (set_pool w n p) out'.
Proof.
  intros [Hnames Hsl H1 H2 H3] Hp Hh Hn Hnew Hid. constructor; cbn; [done|by apply slices_pool| | |].
  - intros m q Hq. destruct (decide (m = n)) as [->|Hne].
    + rewrite lookup_insert_eq in Hq. by injection Hq as <-.
    + rewrite lookup_insert_ne in Hq by done. rewrite Hh by done. by apply H1.
  - intros c Hc. assert (is_Some (rpools w !! c.1) /\ exists d, conns w !! c = Some d /\ conn d = true) as [Hs Hd].
    { destruct (decide (c ∈ out)) as [Ho|Ho]; [by apply H2|]. destruct (Hnew c Hc Ho) as [-> Hd]. by split. }
    split; [|done]. destruct (decide (c.1 = n)) as [->|Hne]; [by rewrite lookup_insert_eq; eexists|by rewrite lookup_insert_ne].
  - intros m q r Hq Hr. destruct (decide (m = n)) as [->|Hne].
    + rewrite lookup_insert_eq in Hq. injection Hq as <-. by apply Hid.
    + rewrite lookup_insert_ne in Hq by done. by eapply H3.
Qed.


Lemma bind_the_pool {B} n (k : ResourcePool -> M World B) w p :
  rpools w !! n = Some p -> bind (the_pool n) k w = k p w.
Proof. intros H. unfold bind, the_pool. cbn beta. by rewrite H. Qed.

Lemma bind_update_pool {B} n f (k : unit -> M World B) w p :
  rpools w !! n = Some p -> bind (update_pool n f) k w = k tt (set_pool w n (f p)).
Proof.
  intros H. unfold update_pool, bind at 1. rewrite (bind_the_pool _ _ _ _ H). done.
Qed.

Lemma update_pool_eq n f w p :
  rpools w !! n = Some p -> update_pool n f w = (set_pool w n (f p), Ret tt).
Proof. intros H. unfold update_pool. by rewrite (bind_the_pool _ _ _ _ H). Qed.

Lemma pool_of_set w n p : rpools (set_pool w n p) !! n = Some p.
Proof. cbn. apply lookup_insert_eq. Qed.

Lemma set_set_pool w n p q : set_pool (set_pool w n p) n q = set_pool w n q.
Proof. unfold set_pool. cbn. by rewrite insert_insert_eq. Qed.

Lemma inv_conn_new w out c d :
  inv w out -> c ∉ out -> (forall p, rpools w !! c.1 = Some p -> c.2 ∉ ids p) -> inv (set_conn w c d) out.
Proof.
  intros [Hn Hs H1 H2 H3] Hc Hid. constructor; cbn; [done..| |].
  - intros c' Hc'. rewrite lookup_insert_ne by set_solver. by apply H2.
  - intros n p r Hp Hr. rewrite lookup_insert_ne; [by eapply H3|]. intros ->. by eapply Hid.
Qed.

(** Whether a connection was got, it is a new one beside those that are out. *)
Definition got (out : gset cid) (r : World * outcome cid) : Prop :=
  match r.2 with Ret c => (c ∉ out) /\ inv r.1 ({[c]} ∪ out) | _ => inv r.1 out end.

Lemma new_conn_ok w out n p u l d :
  inv w out -> rpools w !! n = Some p -> resources p = (None, u) :: l ->
  conn d = true ->
  ((n, made p) ∉ out) /\
  inv (set_pool (set_conn w (n, made p) d) n
         (add_inUse (add_available (add_active (make (set_resources p l)) 1) (-1)) 1)) ({[(n, made p)]} ∪ out).
Proof.
  intros Hi Hp Hl Hd. pose proof (inv_pools w out Hi n p Hp) as Hok.
  destruct (take_ok _ _ _ _ _ Hok Hl) as (Hm & Hok' & _).
  assert ((n, made p) ∉ out) as Hout by (by rewrite <- elem_of_held). split; [done|].
  assert (made p ∉ ids p) as Hnid. { intros Hx. specialize (po_made _ _ Hok _ Hx). lia. }
  apply (set_pool_inv _ out); cbn.
  - apply inv_conn_new; [done|done|]. intros q Hq. cbn in Hq |- *. rewrite Hp in Hq. by injection Hq as <-.
  - by rewrite held_add.
  - intros m Hne. by apply held_add_ne.
  - by eexists.
  - intros c Hc Hnc. assert (c = (n, made p)) as -> by set_solver. split; [done|]. exists d. by rewrite lookup_insert_eq.
  - intros r Hr. assert (r ∈ ids p) as Hr' by (unfold ids; rewrite Hl; done).
    rewrite lookup_insert_ne by (intros [= E]; by subst r). by eapply inv_idle.
Qed.

Lemma idle_conn_ok w out n p r u l :
  inv w out -> rpools w !! n = Some p -> resources p = (Some r, u) :: l ->
  ((n, r) ∉ out) /\
  inv (set_pool w n (add_inUse (add_available (set_resources p l) (-1)) 1)) ({[(n, r)]} ∪ out).
Proof.
  intros Hi Hp Hl. pose proof (inv_pools w out Hi n p Hp) as Hok.
  destruct (take_ok _ _ _ _ _ Hok Hl) as (Hm & Hok').
  assert ((n, r) ∉ out) as Hout by (by rewrite <- elem_of_held). split; [done|].
  assert (forall x, x ∈ ids p -> exists d, conns w !! (n, x) = Some d /\ ready d) as Hid
    by (intros; by eapply inv_idle).
  apply (set_pool_inv _ out); cbn; [done|by rewrite held_add| |by eexists| |].
  - intros m Hne. by apply held_add_ne.
  - intros c Hc Hnc. assert (c = (n, r)) as -> by set_solver. split; [done|].
    destruct (Hid r) as (d & ? & ? & _); [unfold ids; rewrite Hl; left|by exists d].
  - intros x Hx. apply Hid. unfold ids. rewrite Hl. by right.
Qed.

Lemma back_conn_ok w out n p u l :
  inv w out -> rpools w !! n = Some p -> resources p = (None, u) :: l ->
  inv (set_pool w n (set_resources (make (set_resources p l)) (l ++ [no_resource]))) out.
Proof.
  intros Hi Hp Hl. pose proof (inv_pools w out Hi n p Hp) as Hok.
  destruct (take_ok _ _ _ _ _ Hok Hl) as (_ & _ & Hok').
  apply (set_pool_inv _ out); cbn; [done|done|done|by eexists|done|].
  intros x Hx. eapply inv_idle; [done|done|]. unfold ids in *. rewrite Hl. cbn in Hx |- *.
  by rewrite omap_app, app_nil_r in Hx.
Qed.

Lemma pool_Get_ok cp n w out : inv w out -> got out (pool_Get cp n w).
Proof.
  intros Hi. unfold pool_Get. destruct (rpools w !! n) as [p|] eqn:Hp.
  2: { unfold bind, the_pool. cbn beta. rewrite Hp. done. }
  rewrite (bind_the_pool _ _ _ _ Hp). destruct (resources p) as [|[o u] l] eqn:Hl; [done|].
  rewrite (bind_update_pool _ _ _ _ _ Hp). set (p1 := set_resources p l). destruct o as [r|].
  - change (bind (ret r) ?k) with (k r). cbn beta.
    rewrite (bind_update_pool _ _ _ _ p1) by apply pool_of_set. rewrite set_set_pool.
    rewrite (bind_update_pool _ _ _ _ _ (pool_of_set _ _ _)), set_set_pool. cbn. by eapply idle_conn_ok.
  - unfold bind at 1. rewrite (bind_the_pool _ _ _ p1) by apply pool_of_set.
    rewrite (bind_update_pool _ _ _ _ _ (pool_of_set _ _ _)), set_set_pool.
    unfold bind at 1, attempt, connect, bind at 1, gets. cbn [fst snd log set_pool].
    destruct (accept _ _) as [st| |]; cbn [fail modify fst snd];
      [|rewrite (bind_update_pool _ _ _ _ _ (pool_of_set _ _ _)), set_set_pool; cbn; by eapply back_conn_ok..].
    set (d := mkDirectConnection _ _ _ _ _ _ _).
    assert (forall q r, set_pool (set_conn (set_pool w n q) (n, made p1) d) n r =
                        set_pool (set_conn w (n, made p) d) n r) as Hw.
    { intros q r. unfold set_pool, set_conn. cbn. by rewrite insert_insert_eq. }
    rewrite (bind_update_pool _ _ _ _ (make p1)) by (cbn; apply lookup_insert_eq). rewrite Hw. cbn [ret fst snd].
    rewrite (bind_update_pool _ _ _ _ _ (pool_of_set _ _ _)), set_set_pool.
    rewrite (bind_update_pool _ _ _ _ _ (pool_of_set _ _ _)), set_set_pool. cbn. by eapply new_conn_ok.
Qed.


(** What a pool gets back. *)
Definition returned (p : ResourcePool) (o : option nat) : ResourcePool :=
  add_available (add_inUse (set_resources (if is_some o then p else add_active p (-1))
    (resources p ++ [(o, 0)])) (-1)) 1.

Lemma rp_Put_eq n o w p :
  rpools w !! n = Some p -> closed p = false -> zlen (resources p) < MaxCap p ->
  rp_Put n o w = (set_pool w n (returned p o), Ret tt).
Proof.
  intros Hp Hc Hm. unfold rp_Put, returned. destruct o as [r|]; cbn [is_some].
  - change (bind (ret tt) ?k) with (k tt). cbn beta. rewrite (bind_the_pool _ _ _ _ Hp), Hc, decide_False by lia.
    rewrite (bind_update_pool _ _ _ _ _ Hp). rewrite (bind_update_pool _ _ _ _ _ (pool_of_set _ _ _)), set_set_pool.
    rewrite (update_pool_eq _ _ _ _ (pool_of_set _ _ _)), set_set_pool. done.
  - rewrite (bind_update_pool _ _ _ _ _ Hp). rewrite (bind_the_pool _ _ _ _ (pool_of_set _ _ _)).
    cbn [closed add_active MaxCap resources]. rewrite Hc, decide_False by lia.
    do 2 rewrite (bind_update_pool _ _ _ _ _ (pool_of_set _ _ _)), set_set_pool.
    rewrite (update_pool_eq _ _ _ _ (pool_of_set _ _ _)), set_set_pool. done.
Qed.

(** Bringing a connection back; [w'] is [w] with that connection changed. *)
Lemma put_back_ok w out c d o :
  inv w out -> c ∈ out -> o = Some c.2 /\ ready d \/ o = None ->
  exists w', rp_Put c.1 o (set_conn w c d) = (w', Ret tt) /\ inv w' (out ∖ {[c]}).
Proof.
  intros Hi Hc Ho. destruct (inv_out w out Hi c Hc) as [[p Hp] _].
  pose proof (inv_pools w out Hi _ _ Hp) as Hok. destruct c as [n r]. cbn [fst snd] in *.
  destruct (put_ok p _ r o Hok) as [Hm Hok']; [by apply elem_of_held|naive_solver|].
  exists (set_pool (set_conn w (n, r) d) n (returned p o)).
  split; [apply rp_Put_eq; [done|apply (po_open _ _ Hok)|done]|].
  assert (r ∉ ids p) as Hr by (by eapply (out_not_idle w out)).
  pose proof Hi as [Hnames Hsl H1 H2 H3]. constructor; cbn; [done|by apply slices_pool| | |].
  - intros m q Hq. destruct (decide (m = n)) as [->|Hne].
    + rewrite lookup_insert_eq in Hq. injection Hq as <-. by rewrite held_remove.
    + rewrite lookup_insert_ne in Hq by done. rewrite held_remove_ne by done. by apply H1.
  - intros c' [Hc' Hne]%elem_of_difference. destruct (H2 c' Hc') as [Hs Hd]. split.
    + destruct (decide (c'.1 = n)) as [->|?]; [by rewrite lookup_insert_eq; eexists|by rewrite lookup_insert_ne].
    + rewrite lookup_insert_ne by set_solver. done.
  - intros m q x Hq Hx. destruct (decide (m = n)) as [->|Hne].
    + rewrite lookup_insert_eq in Hq. injection Hq as <-. destruct (decide (x = r)) as [->|Hxr].
      * rewrite lookup_insert_eq. destruct Ho as [(-> & ? & ?)| ->]; [by exists d|].
        exfalso. revert Hx. unfold returned, ids. cbn. rewrite omap_app. cbn. by rewrite app_nil_r.
      * rewrite lookup_insert_ne by congruence. eapply H3; [done|]. revert Hx. unfold returned, ids. cbn.
        rewrite omap_app, elem_of_app. destruct Ho as [(-> & _)| ->]; destruct (is_some _); cbn; set_solver.
    + rewrite lookup_insert_ne in Hq by done. rewrite lookup_insert_ne by congruence. by eapply H3.
Qed.

Lemma set_conn_same w c d : conns w !! c = Some d -> set_conn w c d = w.
Proof. intros H. unfold set_conn. rewrite insert_id by done. by destruct w. Qed.

Lemma Close_eq w c d :
  conns w !! c = Some d ->
  exists w', Close c w = (w', Ret tt) /\ (w' = set_conn w c (with_conn d false true (dc_status d)) \/
     w' = set_conn (logged w c Hangup) c (with_conn d false true (dc_status d))).
Proof.
  intros Hd. unfold Close, update_conn, the_conn, bind, modify. cbn beta. rewrite Hd.
  destruct (conn d); cbn; rewrite Hd; eexists; eauto.
Qed.

Lemma rp_Put_drop w out c :
  inv w out -> c ∈ out -> exists w1 w2, Close c w = (w1, Ret tt) /\ rp_Put c.1 None w1 = (w2, Ret tt) /\
    inv w2 (out ∖ {[c]}).
Proof.
  intros Hi Hc. destruct (inv_out w out Hi c Hc) as [_ (d & Hd & _)].
  destruct (Close_eq w c d Hd) as (w1 & -> & Hw). exists w1.
  destruct Hw as [->| ->]; [|apply (inv_logged _ _ c Hangup) in Hi];
    (edestruct put_back_ok as (w2 & E & Hi2); [exact Hi|exact Hc|by right|]; exists w2; split; [done|]; by split).
Qed.

(** A command that returned was sent, and the status it brought is known. *)
Lemma exec_Ret c q w w1 r :
  exec c q w = (w1, Ret r) ->
  exists d, conns w !! c = Some d /\ conn d = true /\ answer (log w) c (ComQuery q) = Answer r /\
    w1 = set_conn (logged w c (ComQuery q)) c (with_status d (Status r)).
Proof.
  unfold exec, send, update_conn, the_conn, bind, gets, modify. cbn beta.
  destruct (conns w !! c) as [d|] eqn:Hd; [|done]. destruct (conn d) eqn:Hc; [|done]. cbn [negb].
  destruct (answer (log w) c (ComQuery q)) as [r'|e [st|]|e|e x]; cbn; rewrite ?Hd; cbn; intros [= <- <-].
  by exists d.
Qed.

Lemma exec_closed c q w w1 r d :
  exec c q w = (w1, Ret r) -> conns w !! c = Some d ->
  exists d', conns w1 !! c = Some d' /\ dc_closed d' = dc_closed d /\ dc_status d' = Status r.
Proof.
  intros (d0 & Hd & _ & _ & ->)%exec_Ret Hd0. rewrite Hd in Hd0. injection Hd0 as <-.
  eexists. cbn. rewrite lookup_insert_eq. by split.
Qed.

Lemma status_not_in_trans d st : Z.land st ServerStatusInTrans = 0 -> dc_status d = st -> IsInTransaction d = false.
Proof. intros H <-. unfold IsInTransaction. by rewrite H. Qed.

(** What [ResetConnection] finds when it looks at the mode. *)
Lemma reset_mode c w w1 d :
  bind (the_conn c) (fun d => if IsAutoCommit d then ret tt else SetAutoCommit c 1) w = (w1, Ret tt) ->
  conns w !! c = Some d -> (Honest SV -> IsInTransaction d = false) ->
  exists d', conns w1 !! c = Some d' /\ dc_closed d' = dc_closed d /\
    (Honest SV -> IsInTransaction d' = false /\ IsAutoCommit d' = true).
Proof.
  intros H Hd Ht. unfold bind, the_conn in H. cbn beta in H. rewrite Hd in H.
  destruct (IsAutoCommit d) eqn:Ha; [injection H as <-; exists d; auto|].
  unfold SetAutoCommit, bind, attempt in H. cbn in H.
  destruct (exec c "set autocommit = 1" w) as [w2 [r|e|]] eqn:E; [|destruct (conn_Close c w2) as [? []]; done|done].
  injection H as <-. destruct (exec_closed _ _ _ _ _ _ E Hd) as (d2 & Hd2 & Hc & Hs). exists d2.
  apply exec_Ret in E as (_ & _ & _ & Ha' & _). split_and!; [done|done|]. intros HO. apply honest_autocommit in Ha' as [H1 H2].
  split; [by eapply status_not_in_trans|]. unfold IsAutoCommit. rewrite Hs. by apply Z.ltb_lt.
Qed.

Lemma ResetConnection_open c w w1 d :
  ResetConnection c w = (w1, Ret tt) -> conns w !! c = Some d ->
  exists d', conns w1 !! c = Some d' /\ dc_closed d' = dc_closed d /\
    (Honest SV -> IsInTransaction d' = false /\ IsAutoCommit d' = true).
Proof.
  intros H Hd. unfold ResetConnection in H. unfold bind at 1, the_conn at 1 in H. cbn beta in H. rewrite Hd in H.
  destruct (IsInTransaction d) eqn:Ht; [|eapply reset_mode; [exact H|done|done]].
  unfold Rollback, bind at 1 2 in H. destruct (exec c "rollback" w) as [w' [r| |]] eqn:E; [|done..].
  destruct (exec_closed _ _ _ _ _ _ E Hd) as (d' & Hd' & <- & Hs).
  apply exec_Ret in E as (_ & _ & _ & Ha' & _). eapply reset_mode; [exact H|done|]. intros HO. apply honest_rollback in Ha'.
  by eapply status_not_in_trans.
Qed.

(** A connection that is recycled is back in its pool, or closed and replaced. *)
Lemma Recycle_ok w out c :
  inv w out -> c ∈ out -> exists w', Recycle c w = (w', Ret tt) /\ inv w' (out ∖ {[c]}).
Proof.
  intros Hi Hc. unfold Recycle. destruct (inv_out w out Hi c Hc) as [_ (d & Hd & Hcd)].
  unfold bind at 1, the_conn at 1. cbn beta. rewrite Hd. destruct (dc_closed d) eqn:Hcl.
  { rewrite <- (set_conn_same w c d Hd). by apply put_back_ok; [..|right]. }
  unfold bind at 1, attempt. destruct (calm_ResetConnection c w out Hc Hi) as [Hi1 Hnp].
  destruct (ResetConnection c w) as [w1 [u|e|q]] eqn:Er; cbn in Hi1, Hnp; [| |done].
  - destruct u. destruct (ResetConnection_open _ _ _ _ Er Hd) as (d1 & Hd1 & Hc1 & Ht1).
    destruct (inv_out w1 out Hi1 c Hc) as [_ (d2 & Hd2 & Hcd2)]. rewrite Hd1 in Hd2. injection Hd2 as <-.
    rewrite <- (set_conn_same w1 c d1 Hd1). apply put_back_ok; [done|done|]. left. split; [done|]. split_and!; [done|congruence|done].
  - unfold bind. destruct (rp_Put_drop w1 out c Hi1 Hc) as (w2 & w3 & -> & E & Hi3). exists w3. by split.
Qed.


Lemma GetMasterConn_ok n w out : inv w out -> got out (GetMasterConn n w).
Proof.
  intros Hi. unfold GetMasterConn, bind, gets. destruct (slices w !! n) as [s|]; [|done].
  destruct (Master s); [by apply pool_Get_ok|done].
Qed.

Lemma pool_Get_calm cp n w : is_Some (rpools w !! n) -> is_panic (pool_Get cp n w).2 = false.
Proof.
  intros [p Hp]. unfold pool_Get. rewrite (bind_the_pool _ _ _ _ Hp). destruct (resources p) as [|[o u] l] eqn:Hl; [done|].
  rewrite (bind_update_pool _ _ _ _ _ Hp). set (p1 := set_resources p l). destruct o as [r|].
  - change (bind (ret r) ?k) with (k r). cbn beta.
    by do 2 rewrite (bind_update_pool _ _ _ _ _ (pool_of_set _ _ _)).
  - unfold bind at 1. rewrite (bind_the_pool _ _ _ p1) by apply pool_of_set.
    rewrite (bind_update_pool _ _ _ _ _ (pool_of_set _ _ _)), set_set_pool.
    unfold bind at 1, attempt, connect, bind at 1, gets. cbn [fst snd log set_pool].
    destruct (accept _ _) as [st| |]; cbn [fail modify fst snd];
      [|by rewrite (bind_update_pool _ _ _ _ _ (pool_of_set _ _ _))..].
    rewrite (bind_update_pool _ _ _ _ (make p1)) by (cbn; apply lookup_insert_eq). cbn [ret fst snd].
    by do 2 rewrite (bind_update_pool _ _ _ _ _ (pool_of_set _ _ _)).
Qed.

(** The choice of a slave keeps a slice in order. *)
Definition chooses (role : string) (next : Slice -> Slice * outcome Balancer.ConnectionPool) : Prop :=
  forall P n s, slice_ok P n s -> slice_ok P n (next s).1 /\ chosen P n role (next s).2.

Lemma slave_conn_ok n role next w out : chooses role next -> inv w out -> got out (slave_conn n role next w).
Proof.
  intros Hn Hi. unfold slave_conn, bind, gets, modify, of_outcome. destruct (slices w !! n) as [s|] eqn:Hs; [|done].
  destruct (Hn _ n s (inv_slices _ _ Hi n s Hs)) as [Hok _].
  apply (inv_slice _ _ n (next s).1) in Hi; [|done]. destruct (next s).2; [by apply pool_Get_ok|done..].
Qed.

Lemma slave_conn_calm n role next w out :
  chooses role next -> inv w out -> n ∈ slice_names -> is_panic (slave_conn n role next w).2 = false.
Proof.
  intros Hn Hi Hin. destruct (inv_names _ _ Hi n Hin) as [s Hs]. unfold slave_conn, bind, gets, modify, of_outcome. rewrite Hs.
  destruct (Hn _ n s (inv_slices _ _ Hi n s Hs)) as [_ Hc]. destruct (next s).2; [by apply pool_Get_calm|done..].
Qed.

Lemma master_calm n w out : inv w out -> n ∈ slice_names -> is_panic (GetMasterConn n w).2 = false.
Proof.
  intros Hi Hin. destruct (inv_names _ _ Hi n Hin) as [s Hs]. unfold GetMasterConn, bind, gets. rewrite Hs.
  destruct (so_master _ _ _ (inv_slices _ _ Hi n s Hs)) as (cp & -> & Hp). by apply pool_Get_calm.
Qed.

Lemma GetConn_ok n flag u w out : inv w out -> got out (GetConn n flag u w).
Proof.
  intros Hi. unfold GetConn. destruct (_ =? _).
  - destruct (u =? StatisticUser); [apply slave_conn_ok; [exact @next_statistic_chosen|done]|].
    unfold bind, attempt. pose proof (slave_conn_ok n "slave" getNextSlave w out (@next_slave_chosen) Hi) as H.
    unfold GetSlaveConn. destruct (slave_conn _ _ _ w) as [w' [c| |]]; cbn in H |- *; [done| |done].
    by apply GetMasterConn_ok.
  - destruct (_ =? _); [apply slave_conn_ok; [exact @next_dc_chosen|done]|by apply GetMasterConn_ok].
Qed.

(** The slices of the namespace give a connection or an error. *)
Lemma GetConn_calm n flag u w out : inv w out -> n ∈ slice_names -> is_panic (GetConn n flag u w).2 = false.
Proof.
  intros Hi Hn. unfold GetConn. destruct (_ =? _).
  - destruct (u =? StatisticUser); [eapply slave_conn_calm; [exact @next_statistic_chosen|done|done]|].
    unfold bind, attempt. pose proof (slave_conn_ok n "slave" getNextSlave w out (@next_slave_chosen) Hi) as H.
    pose proof (slave_conn_calm n "slave" getNextSlave w out (@next_slave_chosen) Hi Hn) as H'.
    unfold GetSlaveConn. destruct (slave_conn _ _ _ w) as [w' [c| |]]; cbn in H, H' |- *; [done| |done].
    by eapply master_calm.
  - destruct (_ =? _); [eapply slave_conn_calm; [exact @next_dc_chosen|done|done]|by eapply master_calm].
Qed.

End friendly.
