(* ===== verification/ConnVars.v ===== *)
(** The settings of a session on the connections it uses: [initBackendConn] of
    proxy/server/executor.go with the procedures of backend/direct_connection.go it
    calls. *)

From Stdlib Require Import Ascii String.
From S2P Require Import Prelude GoStr Format SessionVars Charset Models Merge Balancer.
From S2P Require Import StateM Pool Conn ConnInv.

(** * The text of the settings *)

Definition value_text (value : gval) : string :=
  match value with
  | GString v => if String.eqb (ToLower v) KeywordDefault then v else "'" +:+ v +:+ "'"
  | GInt _ z => FormatInt z
  | _ => "''"
  end.

(** An assignment, and a return to the default. *)
Definition assigns (e : string * Variable_) : string := "," +:+ v_name e.2 +:+ " = " +:+ value_text (v_value e.2).
Definition resets (e : string * Variable_) : string := "," +:+ v_name e.2 +:+ " = DEFAULT".

Definition joined (l : list string) : string := foldr String.append EmptyString l.

(** What the servers are asked to set: names, the variables [vl], the defaults of [ul]. *)
Definition settings (charset collation : string) (vl ul : list (string * Variable_)) : string :=
  "SET NAMES '" +:+ charset +:+ "' COLLATE '" +:+ collation +:+ "'" +:+ joined (map assigns vl) +:+ joined (map resets ul).

Lemma append_key_eq buf k : buf <> ""%string -> append_key buf k = (buf +:+ "," +:+ k +:+ " = ")%string.
Proof. intros H. unfold append_key. by rewrite (proj2 (String.eqb_neq _ _) H). Qed.

Lemma app_nonempty a b : a <> ""%string -> (a +:+ b)%string <> ""%string.
Proof. destruct a; [done|]. intros _. discriminate. Qed.

(** A loop that appends to a buffer which is not empty. *)
Lemma foldl_joined (step : string -> string * Variable_ -> string) (item : string * Variable_ -> string) l buf :
  (forall b e, b <> ""%string -> step b e = (b +:+ item e)%string) -> buf <> ""%string ->
  foldl step buf l = (buf +:+ joined (map item l))%string.
Proof.
  intros Hs. revert buf. induction l as [|e l IH]; intros buf Hb; cbn; [by rewrite append_nil|].
  rewrite Hs, IH by (done || by apply app_nonempty). by rewrite append_assoc.
Qed.

Section settings.
Context {MR : MapRange} {MRO : MapRangeOk MR} {SV : Server}.

Lemma append_variable b k v : b <> ""%string -> appendSetVariable b (v_name v) (v_value v) = (b +:+ assigns (k, v))%string.
Proof. intros H. unfold appendSetVariable, assigns. rewrite append_key_eq by done. cbn [snd]. by rewrite !append_assoc. Qed.

Lemma append_default b k v : b <> ""%string -> appendSetVariableToDefault b (v_name v) = (b +:+ resets (k, v))%string.
Proof. intros H. unfold appendSetVariableToDefault, resets. rewrite append_key_eq by done. cbn [snd]. by rewrite <- !append_assoc. Qed.

Lemma set_statement_eq cs col vs :
  set_statement cs col vs = settings cs col (map_range (variables vs)) (map_range (unused vs)).
Proof.
  unfold set_statement, settings, appendSetCharset. cbn [String.eqb].
  set (b := ("" +:+ "SET NAMES '" +:+ _)%string). assert (b <> ""%string) as Hb by discriminate.
  rewrite (foldl_joined (fun buf '(_, v) => appendSetVariable buf (v_name v) (v_value v)) assigns); [|intros b' [k v] H; apply append_variable, H|done].
  rewrite (foldl_joined (fun buf '(_, v) => appendSetVariableToDefault buf (v_name v)) resets); [|intros b' [k v] H; apply append_default, H|by apply app_nonempty].
  subst b. change ("" +:+ ?x)%string with x. by rewrite !append_assoc.
Qed.

(** * Bringing the settings to a connection *)

(** A command that returned was sent. *)
Lemma send_Ret c m w w1 r : send c m w = (w1, Ret r) -> exists d, conns w !! c = Some d /\ w1 = logged w c m.
Proof.
  unfold send, update_conn, the_conn, bind, gets, modify. cbn beta.
  destruct (conns w !! c) as [d|] eqn:Hd; [|done]. destruct (conn d); [|done]. cbn [negb].
  destruct (answer (log w) c m) as [r'|e [st|]|e|e x]; cbn; rewrite ?Hd; cbn; intros [= <- <-]. by exists d.
Qed.

(** The settings of a session, as [SetCharset] reads them. *)
Definition charset_of (charset : string) : string := trim_func is_quote charset.
Definition collation_of (charset : string) (collation : Z) : Z :=
  if collation =? 0 then default 0 (CollationNames !! default ""%string (Charsets !! charset_of charset)) else collation.

(** [UseDB]: the command that is sent, and the database afterwards. *)
Definition db_commands (d : DirectConnection) (db : string) : list command :=
  if String.eqb (dc_db d) db || String.eqb db "" then [] else [ComInitDB db].

Lemma UseDB_Ret c db w w1 d : UseDB c db w = (w1, Ret tt) -> conns w !! c = Some d ->
  exists d1, conns w1 !! c = Some d1 /\ log w1 = log w ++ map (pair c) (db_commands d db) /\
    dc_charset d1 = dc_charset d /\ dc_collation d1 = dc_collation d /\ dc_variables d1 = dc_variables d.
Proof.
  intros H Hd. unfold UseDB, db_commands in *. unfold bind at 1, the_conn at 1 in H. cbn beta in H. rewrite Hd in H.
  destruct (negb _); [done|]. destruct (_ || _); [injection H as <-; exists d; by rewrite app_nil_r|].
  unfold bind in H. destruct (send _ _ w) as [w2 [r| |]] eqn:E; [|done..]. apply send_Ret in E as (d' & Hd' & ->).
  unfold update_conn, bind, the_conn, modify in H. cbn in H. rewrite Hd in H. injection H as <-.
  eexists. cbn. rewrite lookup_insert_eq. by split_and!.
Qed.

Lemma SetCharset_Ret c cs col w w1 b d : SetCharset c cs col w = (w1, Ret b) -> conns w !! c = Some d ->
  exists d1, conns w1 !! c = Some d1 /\ log w1 = log w /\ dc_variables d1 = dc_variables d /\
    dc_charset d1 = charset_of cs /\ dc_collation d1 = collation_of cs col /\
    (b = false <-> dc_charset d = charset_of cs /\ dc_collation d = collation_of cs col).
Proof.
  intros H Hd. unfold SetCharset in H. fold (charset_of cs) in H. fold (collation_of cs col) in H.
  unfold bind at 1, the_conn at 1 in H. cbn beta in H. rewrite Hd in H.
  destruct (_ && _) eqn:E.
  { apply andb_prop in E as [E1%String.eqb_eq E2%Z.eqb_eq]. injection H as <- <-. exists d. by split_and!. }
  destruct (CharsetIds !! _); [|done]. destruct (Collations !! _); [|done].
  unfold update_conn, bind, the_conn, modify in H. cbn in H. rewrite Hd in H. injection H as <- <-.
  eexists. cbn. rewrite lookup_insert_eq. split_and!; try done.
  split; [done|]. intros [E1 E2]. by rewrite E1, E2, String.eqb_refl, Z.eqb_refl in E.
Qed.

Lemma SetSessionVariables_Ret c vs w d : conns w !! c = Some d -> vars_ok (dc_variables d) -> vars_ok vs ->
  exists b s', SetSessionVariables c vs w = (set_conn w c (with_variables d s'), Ret b) /\ followed (dc_variables d) vs b s'.
Proof.
  intros Hd H1 H2. destruct (SetEqualsWith_followed (dc_variables d) vs H1 H2) as (b & s' & E & Hf). exists b, s'. split; [|done].
  unfold SetSessionVariables, of_outcome, update_conn, bind, the_conn, modify. cbn beta. rewrite Hd, E. cbn. by rewrite Hd.
Qed.

Lemma WriteSetStatement_Ret c w w1 d : WriteSetStatement c w = (w1, Ret tt) -> conns w !! c = Some d ->
  exists d1 col, conns w1 !! c = Some d1 /\ Collations !! dc_collation d = Some col /\
    log w1 = log w ++ [(c, ComQuery (set_statement (dc_charset d) col (dc_variables d)))] /\
    dc_charset d1 = dc_charset d /\ dc_collation d1 = dc_collation d /\
    dc_variables d1 = mk_SessionVariables (variables (dc_variables d)) ∅.
Proof.
  intros H Hd. unfold WriteSetStatement in H. unfold bind at 1, the_conn at 1 in H. cbn beta in H. rewrite Hd in H.
  destruct (Collations !! dc_collation d) as [col|] eqn:Ec; [|done].
  unfold bind at 1, update_conn, bind at 1, the_conn, modify in H. cbn [fst snd] in H. rewrite Hd in H.
  destruct (String.eqb_spec (set_statement (dc_charset d) col (dc_variables d)) "") as [E|E]; [by rewrite set_statement_eq in E|].
  unfold bind in H. destruct (exec c _ _) as [w2 [r| |]] eqn:Ex; [|done..]. injection H as <-.
  apply exec_Ret in Ex as (d2 & Hd2 & _ & _ & ->). cbn in Hd2. rewrite lookup_insert_eq in Hd2. injection Hd2 as <-.
  exists (with_status (with_variables d (GetUnusedAndClear (dc_variables d)).2) (Status r)), col. cbn. rewrite lookup_insert_eq. by split_and!.
Qed.

(** The variables of the connection that the session does not have. *)
Definition gone (s vs : SessionVariables) : gmap string Variable_ :=
  filter (fun e => variables vs !! e.1 = None) (variables s).

Lemma left_over_gone s vs k : unused s = ∅ -> left_over s vs k = gone s vs !! k.
Proof.
  intros Hu. unfold left_over, gone. rewrite Hu, lookup_empty, map_lookup_filter.
  destruct (variables s !! k) as [v|]; [|done]. destruct (variables vs !! k) eqn:E; cbn; [by rewrite option_guard_False by (cbn; congruence)|].
  by rewrite option_guard_True.
Qed.

Lemma map_range_perm {A} (m m' : gmap string A) : (forall k, m !! k = m' !! k) -> map_range m ≡ₚ map_to_list m'.
Proof. intros H. rewrite (MRO _ m). by rewrite (map_eq m m' H). Qed.

(** C21: before a statement runs, its connection is brought to the settings of the session.
    When [initBackendConn] returns, the connection has the character set, the collation
    and the variables of the session and owes no reset; if it had them already nothing
    was sent for them, and otherwise exactly one statement was sent that names the
    character set and the collation, assigns every variable of the session and sets
    every variable that only the connection had back to its default. The variables on
    both sides have passed their checks, as [Set] guarantees. *)
Theorem initBackendConn_settings c phy cs col vs w w' d :
  conns w !! c = Some d -> vars_ok (dc_variables d) -> unused (dc_variables d) = ∅ -> vars_ok vs ->
  initBackendConn c phy cs col vs w = (w', Ret tt) ->
  exists d' sets, conns w' !! c = Some d' /\ log w' = log w ++ map (pair c) (db_commands d phy ++ sets) /\
    dc_charset d' = charset_of cs /\ dc_collation d' = collation_of cs col /\
    variables (dc_variables d') = variables vs /\ unused (dc_variables d') = ∅ /\
    let same := dc_charset d = charset_of cs /\ dc_collation d = collation_of cs col /\
                variables (dc_variables d) = variables vs in
    (same /\ sets = [] \/
     ~ same /\ exists collation vl ul, Collations !! collation_of cs col = Some collation /\
       sets = [ComQuery (settings (charset_of cs) collation vl ul)] /\
       vl ≡ₚ map_to_list (variables vs) /\ ul ≡ₚ map_to_list (gone (dc_variables d) vs)).
Proof.
  intros Hd Hv Hu Hvs H. unfold initBackendConn in H.
  unfold bind at 1 in H. destruct (UseDB c phy w) as [w1 [u| |]] eqn:E1; [|done..]. destruct u.
  destruct (UseDB_Ret _ _ _ _ _ E1 Hd) as (d1 & Hd1 & L1 & C1 & D1 & V1).
  unfold bind at 1 in H. destruct (SetCharset c cs col w1) as [w2 [b| |]] eqn:E2; [|done..].
  destruct (SetCharset_Ret _ _ _ _ _ _ _ E2 Hd1) as (d2 & Hd2 & L2 & V2 & C2 & D2 & Hb).
  destruct (SetSessionVariables_Ret c vs w2 d2 Hd2) as (b' & s' & E3 & F1 & F2 & F3); [by rewrite V2, V1|done|].
  unfold bind at 1 in H. rewrite E3 in H. rewrite V2, V1 in F2, F3.
  assert (forall k, unused s' !! k = gone (dc_variables d) vs !! k) as Hg by (intros k; rewrite F2; by apply left_over_gone).
  rewrite C1, D1 in Hb. destruct (b || b') eqn:Ebb.
  - destruct (WriteSetStatement_Ret _ _ _ (with_variables d2 s') H) as (d4 & cn & Hd4 & Hc & L4 & C4 & D4 & V4); [cbn; apply lookup_insert_eq|].
    cbn [dc_charset dc_collation dc_variables with_variables log set_conn] in *.
    exists d4, [ComQuery (set_statement (dc_charset d2) cn s')]. split; [done|]. rewrite map_app, app_assoc, <- L1, <- L2.
    rewrite L4, V4, C4, D4, C2, D2. cbn. rewrite D2 in Hc. split_and!; try done. right. split.
    + intros (A1 & A2 & A3). destruct b; [discriminate (proj2 Hb (conj A1 A2))|]. destruct b'; [discriminate (proj2 F3 A3)|done].
    + exists cn, (map_range (variables s')), (map_range (unused s')). rewrite set_statement_eq. split_and!; [done|done| |].
      * apply map_range_perm. by rewrite F1.
      * by apply map_range_perm.
  - apply orb_false_iff in Ebb as [-> ->]. injection H as <-.
    destruct (proj1 Hb eq_refl) as [A1 A2]. pose proof (proj1 F3 eq_refl) as A3.
    exists (with_variables d2 s'), []. cbn. rewrite lookup_insert_eq, app_nil_r. split_and!; try done; [congruence| |by left].
    apply map_eq. intros k. rewrite Hg, lookup_empty. unfold gone. apply map_lookup_filter_None. right. intros v Hk. cbn. by rewrite <- A3, Hk.
Qed.
End settings.

(** * An example *)

Module settings_demo.
(** A server that accepts everything. *)
#[local] Instance agreeing : Server := {|
  answer _ _ _ := Answer (mkResult 2 0 0 [] []);
  accept _ _ := Connected 2;
|}.

Definition c0 : cid := ("p"%string, 0%nat).
Definition d0 : DirectConnection := mkDirectConnection true false "db" "utf8" 33 strict_mode 2.
Definition w0 : World := mkWorld ∅ ∅ {[c0 := d0]} [].
Definition w1 : World := (initBackendConn (MR := list_range) c0 "db" "utf8" 33 zone_8 w0).1.

(** The session has a time zone, the connection had a mode. *)
Lemma initBackendConn_settings_witness :
  exists d', conns w1 !! c0 = Some d' /\ variables (dc_variables d') = variables zone_8 /\ unused (dc_variables d') = ∅ /\
    log w1 = [(c0, ComQuery "SET NAMES 'utf8' COLLATE 'utf8_general_ci',time_zone = '+8:00',sql_mode = DEFAULT")]%string.
Proof.
  destruct (initBackendConn_settings (MR := list_range) (MRO := list_range_ok) c0 "db" "utf8" 33 zone_8 w0 w1 d0)
    as (d' & sets & H1 & H2 & _ & _ & H3 & H4 & _).
  - reflexivity.
  - apply map_Forall_insert_2; [split_and!; reflexivity|apply map_Forall_empty].
  - reflexivity.
  - apply map_Forall_insert_2; [split_and!; reflexivity|apply map_Forall_empty].
  - reflexivity.
  - exists d'. split_and!; [exact H1|exact H3|exact H4|vm_compute; reflexivity].
Defined.
End settings_demo.
