(* ===== verification/SessionInv.v ===== *)
(** The connections of the sessions: whatever the clients ask and the servers answer,
    every connection is in its pool, in the transaction of one session, or in the
    hands of the statement that is being executed. *)

From Stdlib Require Import Ascii String.
From S2P Require Import Prelude GoStr Keywords Utf8 Lexer Preview.
From S2P Require Import Format SessionVars Charset Models PlanUtil Ast Merge Balancer.
From S2P Require Import StateM Pool Conn Session ConnInv.

(** * Sessions *)

Section sessions.
Context {SN : SliceNames} {SV : Server} {MR : MapRange} {DI : Dials SV}.

Definition own (se : SessionExecutor) : gset cid := map_img (txConns se).

(** What holds between the requests of a session; [F] is what is out elsewhere. *)
Record sinv (F : gset cid) (s : State) : Prop := {
  si_inv : inv (world s) (own (session s) ∪ F);
  si_frame : own (session s) ## F;
  si_inj : forall n m c, txConns (session s) !! n = Some c -> txConns (session s) !! m = Some c -> n = m;
  si_tx : isInTransaction (session s) = false -> txConns (session s) = ∅;
}.

Lemma elem_of_own se c : c ∈ own se <-> exists n, txConns se !! n = Some c.
Proof. apply elem_of_map_img. Qed.

Lemma own_empty se : txConns se = ∅ -> own se = ∅.
Proof. intros H. unfold own. rewrite H. apply map_img_empty_L. Qed.

(** Another world with the same connections out. *)
Lemma sinv_world F s w :
  sinv F s -> inv w (own (session s) ∪ F) -> sinv F (mkState w (session s) (ProcessGeneralLog s)).
Proof. intros [H1 H2 H3 H4] Hi. by constructor. Qed.

(** The settings of a session do not matter. *)
Lemma sinv_update F s f :
  sinv F s -> txConns (f (session s)) = txConns (session s) ->
  (isInTransaction (f (session s)) = false -> isInTransaction (session s) = false \/ txConns (session s) = ∅) ->
  sinv F (mkState (world s) (f (session s)) (ProcessGeneralLog s)).
Proof.
  intros [H1 H2 H3 H4] Ht Hs. unfold own in *. constructor; cbn; unfold own; rewrite ?Ht; try done.
  intros Hf. destruct (Hs Hf); [by apply H4|done].
Qed.

Lemma keeps_onw {A} F s c (m : M World A) :
  sinv F s -> keeps_conns c m -> c ∈ own (session s) ∪ F ->
  sinv F (onw m s).1 /\ session (onw m s).1 = session s.
Proof.
  intros Hs Hm Hc. unfold onw, on. specialize (Hm (world s) _ Hc (si_inv _ _ Hs)).
  destruct (m (world s)) as [w o]. cbn in *. split; [by apply sinv_world|done].
Qed.

(** A connection of the transaction of a session with the given status. *)
Definition tx_got (F : gset cid) (st : Z) (n : string) (r : State * outcome cid) : Prop :=
  sinv F r.1 /\ status (session r.1) = st /\
  match r.2 with Ret c => txConns (session r.1) !! n = Some c | _ => True end.

Lemma getTransactionConn_ok F s n :
  sinv F s -> isInTransaction (session s) = true -> tx_got F (status (session s)) n (getTransactionConn n s).
Proof.
  intros Hs Htx. unfold getTransactionConn, bind at 1, gets. cbn beta.
  destruct (txConns (session s) !! n) as [pc|] eqn:Hn; [split; [done|split; [done|exact Hn]]|].
  pose proof (GetMasterConn_ok n (world s) _ (si_inv _ _ Hs)) as Hg. unfold bind, attempt, onw, on.
  destruct (GetMasterConn n (world s)) as [w1 [pc| |]]; cbn in Hg |- *;
    [|split; [by apply sinv_world|by split]..].
  destruct Hg as [Hpc Hi]. assert (pc ∈ {[pc]} ∪ (own (session s) ∪ F)) as Hin by set_solver.
  assert (calm pc (if isAutoCommit (session s) then Begin pc else SetAutoCommit pc 0)) as Hcalm
    by (destruct (isAutoCommit _); [apply calm_Begin|apply calm_SetAutoCommit]).
  destruct (Hcalm w1 _ Hin Hi) as [Hi2 Hnp].
  destruct ((if isAutoCommit (session s) then Begin pc else SetAutoCommit pc 0) w1) as [w2 [u|e|q]]; cbn in Hi2, Hnp |- *; [|clear Hnp|done].
  - split_and!; [|done|apply lookup_insert_eq]. destruct Hs as [H1 H2 H3 H4].
    assert (own (set_txConns (session s) (<[n := pc]> (txConns (session s)))) = {[pc]} ∪ own (session s)) as Ho.
    { unfold own. cbn. by rewrite map_img_insert_notin_L by done. }
    constructor; cbn; rewrite ?Ho; [by rewrite <- (assoc_L (∪))|set_solver| |].
    + intros n1 n2 c. rewrite !lookup_insert_Some. intros [[<- <-]|[Hne1 Hc1]] [[<- E]|[Hne2 Hc2]]; try done.
      * exfalso. apply Hpc. apply elem_of_union_l, elem_of_own. by exists n2.
      * exfalso. subst. apply Hpc. apply elem_of_union_l, elem_of_own. by exists n1.
      * by eapply H3.
    + intros Hf. unfold isInTransaction, isAutoCommit in *. cbn in Hf. congruence.
  - destruct (rp_Put_drop w2 _ pc Hi2 Hin) as (w3 & w4 & E3 & E4 & Hi4). rewrite E3. cbn.
    assert (Recycle pc w3 = (w4, Ret tt)) as Hrec.
    { destruct (inv_out w2 _ Hi2 pc Hin) as [_ (d & Hd & _)]. destruct (Close_eq w2 pc d Hd) as (w3' & E & Hw).
      rewrite E3 in E. injection E as <-. unfold Recycle, bind, the_conn. cbn beta.
      destruct Hw as [->| ->]; cbn; rewrite lookup_insert_eq; cbn; exact E4. }
    rewrite Hrec. cbn. split_and!; [|done|done]. apply sinv_world; [done|].
    replace (own (session s) ∪ F) with (({[pc]} ∪ (own (session s) ∪ F)) ∖ {[pc]}) by set_solver. done.
Qed.


(** What a statement got: a connection of the transaction, or one of its own. *)
Definition stmt_got (F : gset cid) (s : State) (n : string) (r : State * outcome cid) : Prop :=
  if isInTransaction (session s) then tx_got F (status (session s)) n r
  else session r.1 = session s /\
       match r.2 with Ret c => (c ∉ F) /\ sinv ({[c]} ∪ F) r.1 | _ => sinv F r.1 end.

(** A connection that is out for a session without a transaction. *)
Lemma sinv_take F s w c :
  sinv F s -> txConns (session s) = ∅ -> c ∉ own (session s) ∪ F -> inv w ({[c]} ∪ (own (session s) ∪ F)) ->
  sinv ({[c]} ∪ F) (mkState w (session s) (ProcessGeneralLog s)).
Proof.
  intros [H1 H2 H3 H4] Ht Hc Hi. constructor; cbn; [|set_solver|done|done].
  by replace (own (session s) ∪ ({[c]} ∪ F)) with ({[c]} ∪ (own (session s) ∪ F)) by set_solver.
Qed.

Lemma getBackendConn_ok ns F s n flag : sinv F s -> stmt_got F s n (getBackendConn ns n flag s).
Proof.
  intros Hs. unfold getBackendConn, bind at 1, gets. cbn beta.
  destruct (isInTransaction (session s)) eqn:Htx.
  { unfold stmt_got. rewrite Htx. by apply getTransactionConn_ok. }
  unfold bind, of_outcome. destruct (GetUserProperty ns (user (session s))) as [u| |]; cbn beta iota;
    [|unfold stmt_got; by rewrite Htx..].
  pose proof (GetConn_ok n flag (up_OtherProperty u) (world s) _ (si_inv _ _ Hs)) as Hg.
  unfold onw, on. destruct (GetConn _ _ _ (world s)) as [w o]. unfold stmt_got. rewrite Htx. cbn in Hg |- *. split; [done|].
  destruct o as [c| |]; [|by apply sinv_world..].
  destruct Hg as [Hc Hi]. split; [set_solver|]. apply sinv_take; [done|by apply (si_tx _ _ Hs)|done|done].
Qed.

Lemma recycle_ok F s c :
  sinv ({[c]} ∪ F) s -> c ∉ F -> isInTransaction (session s) = false ->
  exists s', recycleBackendConn c s = (s', Ret tt) /\ sinv F s' /\ session s' = session s.
Proof.
  intros Hs Hc Htx. unfold recycleBackendConn, bind, gets. cbn beta. rewrite Htx. unfold onw, on.
  destruct (Recycle_ok (world s) _ c (si_inv _ _ Hs)) as (w & -> & Hi); [set_solver|].
  eexists. split; [reflexivity|]. split; [|done]. pose proof Hs as [H1 H2 H3 H4].
  constructor; cbn; [|set_solver|done|done].
  replace (own (session s) ∪ F) with ((own (session s) ∪ ({[c]} ∪ F)) ∖ {[c]}); [done|].
  rewrite (own_empty _ (H4 Htx)). set_solver.
Qed.

(** ** Lists of connections *)

(** The computation leaves the connections of the list where they are. *)
Definition keeps_all {A} (l : list cid) (m : M World A) : Prop :=
  forall w out, Forall (fun c => c ∈ out) l -> inv w out -> inv (m w).1 out.

Lemma keeps_all_one {A} c (m : M World A) l : keeps_conns c m -> c ∈ l -> keeps_all l m.
Proof. intros Hm Hc w out Hl Hi. apply Hm; [|done]. rewrite Forall_forall in Hl. by apply Hl. Qed.

Lemma keeps_all_bind {A B} l (m : M World A) (f : A -> M World B) :
  keeps_all l m -> (forall a, keeps_all l (f a)) -> keeps_all l (bind m f).
Proof.
  intros Hm Hf w out Hl Hi. unfold bind. specialize (Hm w out Hl Hi). destruct (m w) as [w' [a| |]]; cbn in *; [|done..].
  by apply Hf.
Qed.

Lemma keeps_all_ret {A} l (a : A) : keeps_all l (ret a).
Proof. by intros w out. Qed.

Lemma keeps_run_sqls c sqls : keeps_conns c (run_sqls c sqls).
Proof.
  induction sqls as [|v sqls IH]; [apply keeps_ret|]. apply keeps_bind; [apply keeps_attempt, calm_keeps, calm_exec|].
  intros r. apply keeps_bind; [done|]. intros rs. apply keeps_ret.
Qed.

Lemma keeps_run_dbs se c dbs : keeps_conns c (run_dbs se c dbs).
Proof.
  induction dbs as [|[d sqls] dbs IH]; [apply keeps_ret|].
  apply keeps_bind; [apply keeps_attempt, keeps_initBackendConn|]. intros [u|e|q]; [|apply keeps_ret|apply keeps_panic].
  apply keeps_bind; [apply keeps_run_sqls|]. intros rs. apply keeps_bind; [done|]. intros rest. apply keeps_ret.
Qed.

Lemma keeps_run_slices se sqls pcs l : (forall e, e ∈ pcs -> e.2 ∈ l) -> keeps_all l (run_slices se sqls pcs).
Proof.
  induction pcs as [|[n c] pcs IH]; intros Hl; [apply keeps_all_ret|].
  apply keeps_all_bind; [apply (keeps_all_one c); [apply keeps_run_dbs|by apply (Hl (n, c)); left]|].
  intros rs. apply keeps_all_bind; [apply IH; intros e He; apply Hl; by right|]. intros rest. apply keeps_all_ret.
Qed.

Lemma keeps_begin_all pcs l : (forall e, e ∈ pcs -> e.2 ∈ l) -> keeps_all l (begin_all pcs).
Proof.
  induction pcs as [|[n c] pcs IH]; intros Hl; [apply keeps_all_ret|].
  apply keeps_all_bind; [apply (keeps_all_one c); [apply calm_keeps, calm_Begin|by apply (Hl (n, c)); left]|].
  intros _. apply IH. intros e He. apply Hl. by right.
Qed.

Lemma recycle_all_ok pcs w out :
  NoDup pcs.*2 -> Forall (fun c => c ∈ out) pcs.*2 -> inv w out ->
  exists w', recycle_all pcs w = (w', Ret tt) /\ inv w' (out ∖ list_to_set pcs.*2).
Proof.
  revert w out. induction pcs as [|[n c] pcs IH]; intros w out Hnd Hl Hi; cbn [fmap list_fmap snd] in *.
  { exists w. split; [done|]. by replace (out ∖ list_to_set []) with out by set_solver. }
  apply NoDup_cons in Hnd as [Hc Hnd]. apply Forall_cons in Hl as [Hco Hl].
  destruct (Recycle_ok w out c Hi Hco) as (w1 & E1 & Hi1).
  destruct (IH w1 (out ∖ {[c]}) Hnd) as (w2 & E2 & Hi2); [|done|].
  { apply Forall_forall. intros x Hx. rewrite Forall_forall in Hl. specialize (Hl x Hx). set_solver. }
  exists w2. cbn [recycle_all]. unfold bind. rewrite E1. split; [done|]. rewrite list_to_set_cons.
  by replace (out ∖ ({[c]} ∪ list_to_set pcs.*2)) with (out ∖ {[c]} ∖ list_to_set pcs.*2) by set_solver.
Qed.

Lemma end_all_ok op pcs err w out :
  (forall c, calm c (op c)) -> NoDup pcs.*2 -> Forall (fun c => c ∈ out) pcs.*2 -> inv w out ->
  exists w' e, end_all op pcs err w = (w', Ret e) /\ inv w' (out ∖ list_to_set pcs.*2).
Proof.
  intros Hop. revert err w out. induction pcs as [|[n c] pcs IH]; intros err w out Hnd Hl Hi; cbn [fmap list_fmap snd] in *.
  { exists w, err. split; [done|]. by replace (out ∖ list_to_set []) with out by set_solver. }
  apply NoDup_cons in Hnd as [Hc Hnd]. apply Forall_cons in Hl as [Hco Hl].
  cbn [end_all]. unfold bind, attempt. destruct (Hop c w out Hco Hi) as [Hi1 Hnp].
  destruct (op c w) as [w1 o]. cbn in Hi1, Hnp.
  destruct (Recycle_ok w1 out c Hi1 Hco) as (w2 & E2 & Hi2).
  assert (Forall (fun c' => c' ∈ out ∖ {[c]}) pcs.*2) as Hl'.
  { apply Forall_forall. intros x Hx. rewrite Forall_forall in Hl. specialize (Hl x Hx). set_solver. }
  rewrite list_to_set_cons.
  replace (out ∖ ({[c]} ∪ list_to_set pcs.*2)) with (out ∖ {[c]} ∖ list_to_set pcs.*2) by set_solver.
  destruct o as [u|e|q]; [| |done]; cbn beta iota; rewrite E2; by apply IH.
Qed.


(** ** The connections of a transaction *)

Context {MRO : MapRangeOk MR}.

Lemma range_img (m : gmap string cid) : list_to_set (map_range m).*2 = (map_img m : gset cid).
Proof.
  apply set_eq. intros c. rewrite elem_of_list_to_set, elem_of_map_img, list_elem_of_fmap. split.
  - intros ([n c'] & -> & H%elem_of_map_range). by exists n.
  - intros [n H]. exists (n, c). split; [done|]. by apply elem_of_map_range.
Qed.

Definition injective (m : gmap string cid) : Prop :=
  forall n k c, m !! n = Some c -> m !! k = Some c -> n = k.

Lemma range_NoDup (m : gmap string cid) : injective m -> NoDup (map_range m).*2.
Proof.
  intros Hm. apply NoDup_fmap_2_strong.
  - intros [n c] [k c'] H1%elem_of_map_range H2%elem_of_map_range. cbn. intros <-. f_equal. by eapply Hm.
  - apply (NoDup_fmap_1 fst). apply NoDup_map_range.
Qed.

Lemma range_Forall (m : gmap string cid) (out : gset cid) :
  map_img m ⊆ out -> Forall (fun c => c ∈ out) (map_range m).*2.
Proof.
  intros H. apply Forall_forall. intros c Hc. apply H. rewrite <- range_img. by apply elem_of_list_to_set.
Qed.

Lemma own_range F s :
  sinv F s -> NoDup (map_range (txConns (session s))).*2 /\
    Forall (fun c => c ∈ own (session s) ∪ F) (map_range (txConns (session s))).*2 /\
    (own (session s) ∪ F) ∖ list_to_set (map_range (txConns (session s))).*2 = F.
Proof.
  intros [H1 H2 H3 H4]. split_and!; [by apply range_NoDup|apply range_Forall; set_solver|].
  rewrite range_img. fold (own (session s)). set_solver.
Qed.

(** A session whose connections went back. *)
Lemma sinv_done F w se g : inv w F -> txConns se = ∅ -> sinv F (mkState w se g).
Proof.
  intros Hi Ht. constructor; cbn; rewrite ?(own_empty _ Ht); [by rewrite (left_id_L ∅ (∪))|set_solver|by rewrite Ht|done].
Qed.

(** The end of a transaction, after a change [f] of the status. *)
Lemma end_all_sinv F s op err :
  sinv F s -> (forall c, calm c (op c)) ->
  exists w e, end_all op (map_range (txConns (session s))) err (world s) = (w, Ret e) /\ inv w F.
Proof.
  intros Hs Hop. destruct (own_range F s Hs) as (H1 & H2 & H3).
  destruct (end_all_ok op _ err (world s) _ Hop H1 H2 (si_inv _ _ Hs)) as (w & e & E & Hi).
  exists w, e. by rewrite H3 in Hi.
Qed.

Definition kept {A : Type} (F : gset cid) (m : M State A) : Prop := forall s, sinv F s -> sinv F (m s).1.

Lemma kept_bind {A B} F (m : M State A) (f : A -> M State B) :
  kept F m -> (forall a, kept F (f a)) -> kept F (bind m f).
Proof.
  intros Hm Hf s Hs. unfold bind. specialize (Hm s Hs). destruct (m s) as [s' [a| |]]; cbn in *; [|done..]. by apply Hf.
Qed.
Lemma kept_ret {A : Type} F (a : A) : kept F (ret a).
Proof. by intros s. Qed.
Lemma kept_fail {A : Type} F e : kept F (fail e : M State A).
Proof. by intros s. Qed.
Lemma kept_panic {A : Type} F e : kept F (panic e : M State A).
Proof. by intros s. Qed.
Lemma kept_gets {A : Type} F (f : State -> A) : kept F (gets f).
Proof. by intros s. Qed.
Lemma kept_of_outcome {A : Type} F (o : outcome A) : kept F (of_outcome o).
Proof. by intros s. Qed.
Lemma kept_wrapping {A : Type} F fmt (m : M State A) : kept F m -> kept F (wrapping fmt m).
Proof. intros Hm s Hs. unfold wrapping. specialize (Hm s Hs). by destruct (m s). Qed.
Lemma kept_attempt {A : Type} F (m : M State A) : kept F m -> kept F (attempt m).
Proof. intros Hm s Hs. unfold attempt. specialize (Hm s Hs). by destruct (m s) as [? []]. Qed.

(** Changes of the session that leave its transaction alone. *)
Lemma kept_update F f :
  (forall se, txConns (f se) = txConns se /\ isInTransaction (f se) = isInTransaction se) -> kept F (update f).
Proof.
  intros Hf s Hs. apply sinv_update; [done|apply Hf|]. destruct (Hf (session s)) as [_ ->]. auto.
Qed.

Lemma end_transaction_kept F op : (forall c, calm c (op c)) -> kept F (end_transaction op).
Proof.
  intros Hop s Hs. unfold end_transaction, bind, gets, onw, on. cbn beta iota.
  destruct (end_all_sinv F s op None Hs Hop) as (w & e & -> & Hi). cbn.
  destruct e; cbn; by apply sinv_done.
Qed.

Lemma finish_kept F op f :
  (forall c, calm c (op c)) -> (forall se, txConns (f se) = txConns se) ->
  kept F (update f ;;* end_transaction op).
Proof.
  intros Hop Hf s Hs. unfold end_transaction, update, modify, bind, gets, onw, on. cbn. rewrite Hf.
  destruct (end_all_sinv F s op None Hs Hop) as (w & e & -> & Hi). cbn. destruct e; cbn; by apply sinv_done.
Qed.

Lemma commit_kept F : kept F commit.
Proof. apply finish_kept; [apply calm_Commit|done]. Qed.
Lemma rollback_kept F : kept F rollback.
Proof. apply finish_kept; [apply calm_Rollback|done]. Qed.
Lemma rollbackTo_kept F n : kept F (rollbackTo n).
Proof. apply end_transaction_kept. intros c. apply calm_RollbackTo. Qed.
Lemma savepoint_kept F n : kept F (savepoint n).
Proof. apply end_transaction_kept. intros c. apply calm_Savepoint. Qed.

Lemma land_lor a b : Z.land (Z.lor a b) b = b.
Proof. apply Z.bits_inj'. intros n Hn. rewrite Z.land_spec, Z.lor_spec. by destruct (Z.testbit a n), (Z.testbit b n). Qed.

Lemma land_ldiff a b : Z.land (Z.ldiff a b) b = 0.
Proof.
  apply Z.bits_inj'. intros n Hn. rewrite Z.land_spec, Z.ldiff_spec, Z.bits_0. by destruct (Z.testbit a n), (Z.testbit b n).
Qed.

Lemma handleSetAutoCommit_kept F b : kept F (handleSetAutoCommit b).
Proof.
  intros s Hs. destruct b; cbn [handleSetAutoCommit].
  - unfold update, modify, bind, gets, onw, on. cbn.
    destruct (end_all_sinv F s (fun c => SetAutoCommit c 1) None Hs (fun c => calm_SetAutoCommit c 1)) as (w & e & -> & Hi).
    cbn. destruct e; cbn; by apply sinv_done.
  - apply sinv_update; [done|done|]. intros Hf. exfalso. revert Hf.
    unfold isInTransaction, isAutoCommit. cbn. rewrite orb_false_iff, negb_false_iff, !Z.ltb_lt, !Z.ltb_ge. intros [_ H].
    by rewrite land_ldiff in H.
Qed.

Lemma handleBegin_kept F : kept F handleBegin.
Proof.
  intros s Hs. unfold handleBegin, bind, gets, onw, on, update, modify. cbn beta iota.
  destruct (own_range F s Hs) as (_ & H2 & _).
  pose proof (keeps_begin_all (map_range (txConns (session s))) _ (fun e He => list_elem_of_fmap_2 snd _ _ He) (world s) _ H2 (si_inv _ _ Hs)) as Hi.
  destruct (begin_all _ (world s)) as [w [u| |]]; cbn in Hi |- *; [|by apply sinv_world..].
  apply (sinv_world F s w) in Hi; [|done]. apply (sinv_update _ _ (fun se => set_status se (Z.lor (status se) ServerStatusInTrans))) in Hi; [done|done|].
  cbn. intros Hf. exfalso. revert Hf. unfold isInTransaction. cbn. rewrite orb_false_iff, Z.ltb_ge. intros [H _].
  by rewrite land_lor in H.
Qed.


(** ** Statements *)

(** What is done with a connection while it is out. *)
Definition body_ok {A : Type} (c : cid) (m : M State A) : Prop :=
  forall F s, sinv F s -> c ∈ own (session s) ∪ F -> sinv F (m s).1 /\ session (m s).1 = session s.

Lemma body_bind {A B : Type} c (m : M State A) (f : A -> M State B) :
  body_ok c m -> (forall a, body_ok c (f a)) -> body_ok c (bind m f).
Proof.
  intros Hm Hf F s Hs Hc. destruct (Hm F s Hs Hc) as [H1 H2]. unfold bind.
  destruct (m s) as [s' [a| |]]; cbn in H1, H2 |- *; [|done..].
  destruct (Hf a F s') as [H3 H4]; [done|by rewrite H2|]. split; [done|congruence].
Qed.
Lemma body_ret {A : Type} c (a : A) : body_ok c (ret a).
Proof. by intros F s. Qed.
Lemma body_gets {A : Type} c (f : State -> A) : body_ok c (gets f).
Proof. by intros F s. Qed.
Lemma body_of_outcome {A : Type} c (o : outcome A) : body_ok c (of_outcome o).
Proof. by intros F s. Qed.
Lemma body_onw {A : Type} c (m : M World A) : keeps_conns c m -> body_ok c (onw m).
Proof. intros Hm F s Hs Hc. by eapply keeps_onw. Qed.

(** A statement on one connection: it is got, used and brought back. *)
Lemma with_conn_kept {A : Type} ns F n flag (body : cid -> M State A) :
  (forall c, body_ok c (body c)) ->
  kept F (bind (getBackendConn ns n flag) (fun c => deferred (body c) (recycleBackendConn c))).
Proof.
  intros Hb s Hs. pose proof (getBackendConn_ok ns F s n flag Hs) as Hg. unfold bind.
  destruct (getBackendConn ns n flag s) as [s1 o]. unfold stmt_got in Hg. cbn [fst snd] in Hg.
  destruct (isInTransaction (session s)) eqn:Htx.
  - destruct Hg as (H1 & H2 & H3). cbn in *. destruct o as [c| |]; [|done..].
    destruct (Hb c F s1 H1) as [H4 H5]; [apply elem_of_union_l, elem_of_own; by exists n|].
    unfold deferred, recycleBackendConn, bind, gets. destruct (body c s1) as [s2 o2]. cbn in H4, H5 |- *.
    assert (isInTransaction (session s2) = true) as ->; [|done].
    rewrite H5. unfold isInTransaction, isAutoCommit in *. by rewrite H2.
  - destruct Hg as [H1 H2]. destruct o as [c| |]; [|done..]. destruct H2 as [Hc H2].
    destruct (Hb c _ s1 H2) as [H4 H5]; [set_solver|]. unfold deferred.
    destruct (body c s1) as [s2 o2]. cbn in H4, H5.
    destruct (recycle_ok F s2 c H4 Hc) as (s3 & -> & H6 & H7); [congruence|done].
Qed.

Lemma ExecuteSQL_kept ns F flag sl d sql : kept F (ExecuteSQL ns flag sl d sql).
Proof.
  apply with_conn_kept. intros c. apply body_bind; [apply body_gets|]. intros se.
  apply body_bind; [apply body_of_outcome|]. intros phy.
  apply body_bind; [apply body_onw, keeps_initBackendConn|]. intros _. apply body_onw, calm_keeps, calm_exec.
Qed.

(** What the loop over the slices got: connections of the transaction, or connections
    that nobody else has. *)
Definition loop_got (F : gset cid) (s : State) (r : State * outcome (gmap string cid * option error)) : Prop :=
  if isInTransaction (session s) then
    sinv F r.1 /\ status (session r.1) = status (session s) /\
    match r.2 with Ret (pcs, _) => map_img pcs ⊆ own (session r.1) /\ injective pcs | _ => True end
  else
    session r.1 = session s /\
    match r.2 with
    | Ret (pcs, _) => injective pcs /\ (map_img pcs : gset cid) ## F /\ sinv (map_img pcs ∪ F) r.1
    | _ => sinv F r.1
    end.

Lemma map_img_insert_L (m : gmap string cid) n c :
  m !! n = None -> map_img (<[n := c]> m) = {[c]} ∪ (map_img m : gset cid).
Proof. intros H. by rewrite map_img_insert_notin_L. Qed.

Lemma injective_insert (m : gmap string cid) n c :
  injective m -> c ∉ (map_img m : gset cid) -> injective (<[n := c]> m).
Proof.
  intros Hm Hc n1 n2 c'. rewrite !lookup_insert_Some. intros [[<- <-]|[Hn1 H1]] [[<- E]|[Hn2 H2]]; try done.
  - exfalso. apply Hc. apply elem_of_map_img. by exists n2.
  - subst c'. exfalso. apply Hc. apply elem_of_map_img. by exists n1.
  - by eapply Hm.
Qed.

Lemma map_img_mono (m k : gmap string cid) : m ⊆ k -> map_img m ⊆ (map_img k : gset cid).
Proof. intros H c. rewrite !elem_of_map_img. intros [n Hn]. exists n. by eapply lookup_weaken. Qed.

Lemma getTransactionConn_grows n s : txConns (session s) ⊆ txConns (session (getTransactionConn n s).1).
Proof.
  unfold getTransactionConn, bind, gets, attempt, onw, on, update, modify.
  destruct (txConns (session s) !! n) as [pc|] eqn:Hn; [done|].
  destruct (GetMasterConn n (world s)) as [w1 [pc| |]]; cbn; [|done..].
  destruct ((if isAutoCommit (session s) then Begin pc else SetAutoCommit pc 0) w1) as [w2 [u|e|q]]; cbn; [by apply insert_subseteq| |done].
  destruct (Close pc w2) as [w3 [| |]]; cbn; [|done..]. by destruct (Recycle pc w3) as [w4 [| |]].
Qed.

(** In a transaction the connections are those of the transaction. *)
Lemma get_conns_tx ns F flag names pcs s :
  sinv F s -> isInTransaction (session s) = true -> pcs ⊆ txConns (session s) ->
  loop_got F s (get_conns ns flag names pcs s).
Proof.
  intros Hs Htx Hp. unfold loop_got. rewrite Htx. revert pcs s Hs Htx Hp.
  induction names as [|n names IH]; intros pcs s Hs Htx Hp; cbn [get_conns].
  { split_and!; [done|done|cbn]. split; [by apply map_img_mono|].
    intros n k c Hn Hk. eapply (si_inj _ _ Hs); by eapply lookup_weaken. }
  pose proof (getBackendConn_ok ns F s n flag Hs) as Hg. unfold stmt_got in Hg. rewrite Htx in Hg.
  unfold bind, attempt. 
  assert (txConns (session s) ⊆ txConns (session (getBackendConn ns n flag s).1)) as Hsub.
  { unfold getBackendConn, bind at 1, gets. cbn beta. rewrite Htx. by apply getTransactionConn_grows. }
  destruct (getBackendConn ns n flag s) as [s1 o]. destruct Hg as (H1 & H2 & H3). cbn in H1, H2, H3, Hsub.
  assert (isInTransaction (session s1) = true) as Htx1
    by (unfold isInTransaction, isAutoCommit in *; by rewrite H2).
  assert (pcs ⊆ txConns (session s1)) as Hp1 by (by etrans).
  destruct o as [c|e|q].
  - rewrite <- H2. apply IH; [done|done|]. by apply insert_subseteq_l.
  - cbn. split_and!; [done|done|by apply map_img_mono|].
    intros k m c Hk Hm. eapply (si_inj _ _ H1); by eapply lookup_weaken.
  - cbn. done.
Qed.

Lemma getBackendConn_calm ns F s n flag u :
  sinv F s -> isInTransaction (session s) = false -> GetUserProperty ns (user (session s)) = Ret u ->
  n ∈ slice_names -> is_panic (getBackendConn ns n flag s).2 = false.
Proof.
  intros Hs Htx Hu Hn. unfold getBackendConn, bind at 1, gets. cbn beta. rewrite Htx.
  unfold bind, of_outcome. rewrite Hu. unfold onw, on.
  pose proof (GetConn_calm n flag (up_OtherProperty u) (world s) _ (si_inv _ _ Hs) Hn) as H.
  by destruct (GetConn _ _ _ (world s)).
Qed.

(** Outside of a transaction every slice gives a connection of its own. *)
Lemma get_conns_free ns F flag u names pcs s :
  sinv (map_img pcs ∪ F) s -> isInTransaction (session s) = false ->
  GetUserProperty ns (user (session s)) = Ret u ->
  NoDup names -> Forall (fun n => pcs !! n = None /\ n ∈ slice_names) names ->
  injective pcs -> (map_img pcs : gset cid) ## F ->
  loop_got F s (get_conns ns flag names pcs s).
Proof.
  intros Hs Htx Hu Hnd Hnames Hinj Hd. unfold loop_got. rewrite Htx. revert pcs s Hs Htx Hu Hnames Hinj Hd.
  induction names as [|n names IH]; intros pcs s Hs Htx Hu Hnames Hinj Hd; cbn [get_conns]; [done|].
  apply NoDup_cons in Hnd as [Hn Hnd]. apply Forall_cons in Hnames as [[Hpn Hin] Hnames].
  pose proof (getBackendConn_ok ns _ s n flag Hs) as Hg. unfold stmt_got in Hg. rewrite Htx in Hg.
  pose proof (getBackendConn_calm ns _ s n flag u Hs Htx Hu Hin) as Hc. unfold bind, attempt.
  destruct (getBackendConn ns n flag s) as [s1 o]. destruct Hg as [H1 H2]. cbn in H1, H2, Hc.
  destruct o as [c|e|q]; [|done|done]. destruct H2 as [Hfresh H2].
  pose proof (map_img_insert_L pcs n c Hpn) as Himg.
  rewrite <- H1. apply IH; rewrite ?H1, ?Himg; try done.
  - by rewrite <- (assoc_L (∪)).
  - apply Forall_forall. intros k Hk. rewrite Forall_forall in Hnames. destruct (Hnames k Hk). split; [|done].
    by rewrite lookup_insert_ne by (intros ->; done).
  - apply injective_insert; [done|set_solver].
  - set_solver.
Qed.

(** The names of the slices of a plan. *)
Definition known {A : Type} (m : gmap string A) : Prop := forall n, is_Some (m !! n) -> n ∈ slice_names.

Lemma range_names {A : Type} (m : gmap string A) :
  known m -> NoDup (map_range m).*1 /\ Forall (fun n => (∅ : gmap string cid) !! n = None /\ n ∈ slice_names) (map_range m).*1.
Proof.
  intros Hk. split; [apply NoDup_map_range|]. apply Forall_forall.
  intros n ([k a] & -> & H%elem_of_map_range)%list_elem_of_fmap. split; [apply lookup_empty|]. apply Hk. by exists a.
Qed.

Lemma getBackendConns_ok {A : Type} ns F s (sqls : gmap string A) flag :
  sinv F s -> known sqls -> loop_got F s (getBackendConns ns sqls flag s).
Proof.
  intros Hs Hk. unfold getBackendConns. destruct (isInTransaction (session s)) eqn:Htx.
  { apply get_conns_tx; [done|done|apply map_empty_subseteq]. }
  destruct (range_names sqls Hk) as [Hnd Hf].
  assert (sinv (map_img (∅ : gmap string cid) ∪ F) s) as Hs' by (by rewrite map_img_empty_L, (left_id_L ∅ (∪))).
  assert (injective ∅) as Hi by (intros ? ? ?; by rewrite lookup_empty).
  assert ((map_img (∅ : gmap string cid) : gset cid) ## F) as Hd by (rewrite map_img_empty_L; set_solver).
  destruct (GetUserProperty ns (user (session s))) as [u|e|q] eqn:Hu; [by eapply get_conns_free| |].
  { exfalso. revert Hu. unfold GetUserProperty. by destruct (userProperties ns !! _). }
  unfold loop_got. rewrite Htx. destruct (map_range sqls).*1 as [|n names]; cbn [get_conns].
  - done.
  - unfold bind, attempt, getBackendConn, bind, gets, of_outcome. rewrite Htx, Hu. done.
Qed.

Lemma keeps_all_onw {A} F s l (m : M World A) :
  sinv F s -> keeps_all l m -> Forall (fun c => c ∈ own (session s) ∪ F) l ->
  sinv F (onw m s).1 /\ session (onw m s).1 = session s.
Proof.
  intros Hs Hm Hc. unfold onw, on. specialize (Hm (world s) _ Hc (si_inv _ _ Hs)).
  destruct (m (world s)) as [w o]. cbn in *. split; [by apply sinv_world|done].
Qed.

Lemma executeInMultiSlices_ok F s pcs sqls :
  sinv F s -> map_img pcs ⊆ own (session s) ∪ F ->
  sinv F (executeInMultiSlices pcs sqls s).1 /\ session (executeInMultiSlices pcs sqls s).1 = session s.
Proof.
  intros Hs Hp. unfold executeInMultiSlices. destruct (negb _); [done|]. destruct (_ =? _)%nat; [done|].
  unfold bind at 1, gets. cbn beta iota.
  assert (keeps_all (map_range pcs).*2 (run_slices (session s) sqls (map_range pcs))) as Hk
    by (apply keeps_run_slices; intros e He; by apply list_elem_of_fmap_2).
  destruct (keeps_all_onw F s _ _ Hs Hk (range_Forall pcs _ Hp)) as [H1 H2].
  unfold bind, of_outcome. by destruct (onw _ s) as [s1 [| |]].
Qed.

(** The connections of a statement go back together. *)
Lemma recycleBackendConns_ok F s pcs :
  sinv (map_img pcs ∪ F) s -> injective pcs -> (map_img pcs : gset cid) ## F -> isInTransaction (session s) = false ->
  exists s', recycleBackendConns pcs s = (s', Ret tt) /\ sinv F s' /\ session s' = session s.
Proof.
  intros Hs Hinj Hd Htx. unfold recycleBackendConns, bind, gets. cbn beta. rewrite Htx. unfold onw, on.
  destruct (recycle_all_ok (map_range pcs) (world s) _ (range_NoDup pcs Hinj)
    (range_Forall pcs (own (session s) ∪ (map_img pcs ∪ F)) ltac:(set_solver)) (si_inv _ _ Hs)) as (w & -> & Hi).
  eexists. split; [reflexivity|]. split; [|done]. pose proof (si_tx _ _ Hs Htx) as Ht.
  apply sinv_done; [|done]. rewrite range_img, (own_empty _ Ht) in Hi.
  by replace F with ((∅ ∪ (map_img pcs ∪ F)) ∖ map_img pcs) by set_solver.
Qed.

Lemma ExecuteSQLs_kept ns F flag sqls : known sqls -> kept F (ExecuteSQLs ns flag sqls).
Proof.
  intros Hk s Hs. unfold ExecuteSQLs. destruct (_ =? _)%nat; [done|]. unfold bind.
  pose proof (getBackendConns_ok ns F s sqls flag Hs Hk) as Hg. unfold loop_got in Hg.
  destruct (getBackendConns ns sqls flag s) as [s1 o]. cbn [fst snd] in Hg.
  destruct (isInTransaction (session s)) eqn:Htx.
  - destruct Hg as (H1 & H2 & H3). destruct o as [[pcs oe]| |]; [|done..]. destruct H3 as [H3 _].
    assert (isInTransaction (session s1) = true) as Htx1
      by (unfold isInTransaction, isAutoCommit in *; by rewrite H2).
    cbn [fst snd]. unfold deferred, recycleBackendConns, bind, gets. destruct oe as [e|]; cbn [fail].
    + by rewrite Htx1.
    + destruct (executeInMultiSlices_ok F s1 pcs sqls H1) as [H4 H5]; [set_solver|].
      destruct (executeInMultiSlices pcs sqls s1) as [s2 o2]. cbn in H4, H5 |- *. by rewrite H5, Htx1.
  - destruct Hg as [H1 H2]. destruct o as [[pcs oe]| |]; [|done..]. destruct H2 as (Hinj & Hd & H2).
    cbn [fst snd]. unfold deferred.
    destruct (executeInMultiSlices_ok _ s1 pcs sqls H2) as [H4 H5]; [set_solver|].
    assert (exists s2 o2, match oe with Some e => fail e | None => executeInMultiSlices pcs sqls end s1 = (s2, o2) /\
      sinv (map_img pcs ∪ F) s2 /\ session s2 = session s) as (s2 & o2 & -> & H6 & H7).
    { destruct oe; [by exists s1, (Err e)|]. destruct (executeInMultiSlices pcs sqls s1) as [s2 o2].
      exists s2, o2. cbn in *. split_and!; [done|done|congruence]. }
    destruct (recycleBackendConns_ok F s2 pcs H6 Hinj Hd) as (s3 & -> & H8 & H9); [congruence|done].
Qed.

(** ** Requests *)

Context {FE : FloatE} {HL : HighLetters}.

Lemma session_kept F f :
  (forall se, txConns (f se) = txConns se /\ status (f se) = status se) -> kept F (update f).
Proof.
  intros Hf. apply kept_update. intros se. destruct (Hf se) as [H1 H2]. split; [done|].
  unfold isInTransaction, isAutoCommit. by rewrite H2.
Qed.

Lemma setGeneralLogVariable_kept F v : kept F (setGeneralLogVariable v).
Proof. unfold setGeneralLogVariable. destruct (Atoi v); [|apply kept_fail..]. intros s [H1 H2 H3 H4]. by constructor. Qed.

Lemma setStringSessionVariable_kept F n v : kept F (setStringSessionVariable n v).
Proof.
  unfold setStringSessionVariable. destruct (String.eqb _ _); [by apply session_kept|].
  apply kept_bind; [apply kept_gets|]. intros se. apply kept_bind; [apply kept_of_outcome|]. intros vs. by apply session_kept.
Qed.

Lemma setIntSessionVariable_kept F n v : kept F (setIntSessionVariable n v).
Proof.
  unfold setIntSessionVariable. destruct (String.eqb _ _); [by apply session_kept|].
  apply kept_bind; [apply kept_of_outcome|]. intros z.
  apply kept_bind; [apply kept_gets|]. intros se. apply kept_bind; [apply kept_of_outcome|]. intros vs. by apply session_kept.
Qed.

Lemma handleSetVariable_kept ns F v : kept F (handleSetVariable ns v).
Proof.
  assert (forall o cs, kept F (bind (of_outcome o) (fun col => update (fun se => set_charset se cs col)))) as Hcs.
  { intros o cs. apply kept_bind; [apply kept_of_outcome|]. intros col. by apply session_kept. }
  unfold handleSetVariable. repeat case_match;
    first [apply kept_fail|apply kept_ret|by apply session_kept|apply Hcs|apply handleSetAutoCommit_kept
          |apply setStringSessionVariable_kept|apply setIntSessionVariable_kept|apply setGeneralLogVariable_kept].
Qed.

Lemma handleSet_kept ns F vs : kept F (handleSet ns vs).
Proof. induction vs as [|v vs IH]; [apply kept_ret|]. apply kept_bind; [apply handleSetVariable_kept|done]. Qed.

Lemma handleUseDB_kept ns F d : kept F (handleUseDB ns d).
Proof.
  unfold handleUseDB. destruct (String.eqb _ _); [apply kept_fail|]. destruct (IsAllowedDB ns d); [by apply session_kept|apply kept_fail].
Qed.

Lemma handleShow_kept ns F sql tp : kept F (handleShow ns sql tp).
Proof.
  unfold handleShow. repeat case_match; try apply kept_ret;
    (apply kept_bind; [apply kept_gets|intros ?]); try apply kept_ret;
    (apply kept_bind; [apply kept_wrapping, ExecuteSQL_kept|intros ?]); (apply kept_bind; [apply kept_gets|intros ?]); apply kept_ret.
Qed.

Lemma kept_then {A B : Type} F (m : M State A) (b : B) : kept F m -> kept F (m ;;* ret b).
Proof. intros H. apply kept_bind; [done|]. intros _. apply kept_ret. Qed.

Lemma handleQueryWithoutPlan_kept ns parse F sql : kept F (handleQueryWithoutPlan ns parse sql).
Proof.
  apply kept_bind; [apply kept_of_outcome|]. intros n. destruct n; try apply kept_then; try apply kept_fail.
  - apply kept_bind; [apply handleShow_kept|]. intros r. apply kept_ret.
  - apply handleSet_kept.
  - apply handleBegin_kept.
  - apply commit_kept.
  - apply rollback_kept.
  - apply rollbackTo_kept.
  - apply savepoint_kept.
  - apply handleUseDB_kept.
Qed.

(** The slices a plan names are slices of the namespace. [UnshardPlan] names none: its
    slice, always slice-0, is looked up when it is executed, and a namespace without it
    panics there before a connection is taken. *)
Definition plan_known (p : Plan) : Prop :=
  match p with
  | SelectPlan_ sqls _ _ | InsertPlan_ sqls | ModifyPlan_ sqls => known sqls
  | _ => True
  end.

Lemma record_id_kept F r : kept F (record_id r).
Proof. unfold record_id. destruct (_ =? _); [apply kept_ret|by apply session_kept]. Qed.

Lemma ExecuteIn_kept ns F flag p : plan_known p -> kept F (ExecuteIn ns flag p).
Proof.
  intros Hp. destruct p as [sqls em mg|sqls|sqls|d sql ins| |r]; cbn [ExecuteIn].
  - destruct (_ =? _)%nat.
    { apply kept_bind; [apply kept_of_outcome|]. intros r. apply kept_ret. }
    apply kept_bind; [by apply kept_wrapping, ExecuteSQLs_kept|]. intros rs.
    apply kept_bind; [apply kept_of_outcome|]. intros r. apply kept_ret.
  - apply kept_bind; [by apply kept_wrapping, ExecuteSQLs_kept|]. intros rs. apply kept_then, record_id_kept.
  - destruct (_ =? _)%nat; [apply kept_ret|]. apply kept_bind; [by apply kept_wrapping, ExecuteSQLs_kept|]. intros rs. apply kept_ret.
  - apply kept_bind; [apply ExecuteSQL_kept|]. intros r. apply kept_then. destruct ins; [apply record_id_kept|apply kept_ret].
  - apply kept_bind; [apply kept_gets|]. intros se. apply kept_ret.
  - apply kept_ret.
Qed.

(** The plans of the planner use slices of the namespace. *)
Class Plans (getPlan : string -> string -> outcome (Plan * list string)) :=
  plans_known : forall d sql p ts, getPlan d sql = Ret (p, ts) -> plan_known p.

(** The planners a proxy may meet: the plan of a statement also depends on the
    numbers its sequences have reached. *)
Class Planners (planners : (string -> string -> outcome (Plan * list string)) -> Prop) :=
  planners_known : forall g, planners g -> Plans g.

Section requests.
Context (ns : Namespace) (parse : string -> outcome statement).
Context (getPlan : string -> string -> outcome (Plan * list string)) {PL : Plans getPlan}.

Lemma doQuery_kept F now sql : kept F (doQuery ns parse getPlan now sql).
Proof.
  apply kept_bind; [apply kept_gets|]. intros se. apply kept_bind; [apply kept_of_outcome|]. intros refused.
  destruct refused; [apply kept_fail|]. destruct (canHandleWithoutPlan _); [apply handleQueryWithoutPlan_kept|].
  intros s Hs. unfold bind at 1, of_outcome. destruct (wrap _ _) as [[p ts]| |] eqn:Hp; [|done..].
  apply wrap_Ret in Hp. revert s Hs.
  match goal with |- forall s, sinv F s -> sinv F (?m s).1 => change (kept F m) end.
  apply kept_bind; [apply kept_of_outcome|]. intros flag. apply kept_bind.
  { unfold updateWriteTableCurrentTime. case_match; [by apply session_kept|apply kept_ret]. }
  intros _. apply kept_bind; [apply ExecuteIn_kept; by eapply plans_known|]. intros r.
  apply kept_bind; [apply kept_gets|]. intros se'. destruct r; [apply kept_ret|apply kept_panic].
Qed.

Lemma handleFieldList_kept F n t wc : kept F (handleFieldList ns n t wc).
Proof.
  apply kept_bind; [apply kept_gets|]. intros se. apply kept_bind; [apply kept_of_outcome|]. intros flag.
  apply with_conn_kept. intros c. apply body_bind; [apply body_gets|]. intros se'.
  apply body_bind; [apply body_of_outcome|]. intros phy.
  apply body_bind; [apply body_onw, keeps_initBackendConn|]. intros _.
  apply body_bind; [apply body_onw, calm_keeps, calm_send|]. intros r. apply body_ret.
Qed.

Lemma ExecuteCommand_kept F r : kept F (ExecuteCommand ns parse getPlan r).
Proof.
  destruct r as [|now sql|d|n t wc]; cbn [ExecuteCommand]; try apply kept_then.
  - apply kept_attempt, rollback_kept.
  - intros s Hs. unfold handleQuery. pose proof (doQuery_kept F now (trim_right (Ascii.eqb ";") sql) s Hs) as H.
    by destruct (doQuery _ _ _ now _ s) as [s' o].
  - apply handleUseDB_kept.
  - apply handleFieldList_kept.
Qed.
End requests.

End sessions.
