(* ===== verification/Sessions.v ===== *)
(** The proxy with all its sessions: clients connect and send requests in any order,
    and the servers answer as they like. The pools of a slice are those its
    configuration opens. *)

From Stdlib Require Import Ascii String.
From stdpp Require Import relations.
From S2P Require Import Prelude GoStr Keywords Utf8 Lexer Preview.
From S2P Require Import Format SessionVars Charset Models PlanUtil Ast Merge Balancer.
From S2P Require Import StateM Pool Conn Session ConnInv SessionInv.

(** * The pools of a slice *)

(** The names of the pools the construction of a slice opens. *)
Definition pool_names (n : string) (s : Slice) : list string :=
  match Master s with Some cp => [pool_name n "master" (addr cp)] | None => [] end ++
  map (fun cp => pool_name n "masterdc" (addr cp)) (pools (MasterDC s)) ++
  map (fun cp => pool_name n "slave" (addr cp)) (pools (Slaves s)) ++
  map (fun cp => pool_name n "statistic" (addr cp)) (pools (Statistic s)).

(** ** The queues *)

Section queues.
Context (Intn : nat -> Z -> Z).

Lemma store_Forall (P : Z -> Prop) q i x q' : Forall P q -> P x -> store q i x = Ret q' -> Forall P q'.
Proof.
  intros Hq Hx. unfold store. case_decide; [|done]. intros [= <-]. by apply Forall_insert.
Qed.

Lemma index_Forall (P : Z -> Prop) q i x : Forall P q -> index q i = Ret x -> P x.
Proof.
  intros Hq [_ H]%index_Ret. rewrite Forall_lookup in Hq. by eapply Hq.
Qed.

Lemma swap_Forall (P : Z -> Prop) sum x q q' : Forall P q -> swap sum x q = Ret q' -> Forall P q'.
Proof.
  intros Hq H. unfold swap in H. destruct (index q x) as [t| |] eqn:E1; [|done..]. cbn [mbind outcome_bind] in H.
  destruct (index q (Z.rem sum (x + 1))) as [o| |] eqn:E2; [|done..]. cbn [mbind outcome_bind] in H.
  destruct (store q x o) as [q1| |] eqn:E3; [|done..]. cbn [mbind outcome_bind] in H.
  pose proof (index_Forall P q _ _ Hq E1). pose proof (index_Forall P q _ _ Hq E2).
  apply (store_Forall P) in E3; [|done|done]. by eapply store_Forall; [| |exact H].
Qed.

Lemma shuffle_Forall (P : Z -> Prop) n i sum q q' : Forall P q -> shuffle Intn n i sum q = Ret q' -> Forall P q'.
Proof.
  revert i q. induction n as [|n IH]; intros i q Hq H; cbn [shuffle] in H; [by injection H as <-|].
  destruct (swap sum (Intn i sum) q) as [q1| |] eqn:E; [|done..]. cbn [mbind outcome_bind] in H.
  apply (IH (S i) q1); [by eapply swap_Forall|done].
Qed.

(** The queue of some weights names their positions, whatever they are. *)
Lemma init_queue_range ws q : init_queue Intn ws = Ret q -> Forall (fun i => 0 <= i < zlen ws) q.
Proof.
  unfold init_queue. destruct (gcd ws) as [g| |]; [|done..]. cbn [mbind outcome_bind].
  destruct (mapM (fun w => go_quot w g) ws) as [shares| |] eqn:E; [|done..]. cbn [mbind outcome_bind].
  assert (length shares = length ws) as Hl by (symmetry; eapply Forall2_length; by apply mapM_Ret).
  set (l := concat _). assert (Forall (fun i => 0 <= i < zlen ws) l) as Hc.
  { apply Forall_concat, Forall_forall. intros x Hx. apply list_elem_of_lookup in Hx as (i & Hi).
    rewrite list_lookup_imap in Hi. apply fmap_Some in Hi as (n & Hn & ->). apply lookup_lt_Some in Hn.
    apply Forall_replicate. unfold zlen. lia. }
  destruct (_ <? 0); [done|]. destruct (1 <? _); [by apply shuffle_Forall|by intros [= <-]].
Qed.

(** Each group of a slice names its own slaves. *)
Definition in_order (g : Group) : Prop := Forall (fun i => 0 <= i < zlen (pools g)) (queue g) /\ last g = 0.

Lemma init_group_in_order g g' :
  init_group Intn g = Ret g' -> (length (weights g) <= length (pools g))%nat -> in_order g'.
Proof.
  unfold init_group. destruct (init_queue Intn (weights g)) as [q| |] eqn:E; [|done..]. cbn. intros [= <-] Hl.
  split; [|done]. cbn. apply init_queue_range in E. eapply Forall_impl; [exact E|]. cbn. unfold zlen. lia.
Qed.

Lemma parse_nodes_weights s g es g' :
  parse_nodes s g es = Ret g' -> (length (weights g) <= length (pools g))%nat ->
  (length (weights g') <= length (pools g'))%nat.
Proof.
  revert g. induction es as [|e es IH]; intros g; cbn [parse_nodes]; [by intros [= <-]|].
  destruct (addr_weight e) as [[a w]| |]; [|done..]. cbn [mbind outcome_bind].
  destruct (open_pool s a) as [cp| |]; [|done..]. cbn [mbind outcome_bind]. intros H Hl. apply (IH _ H).
  cbn. rewrite !length_app. cbn. lia.
Qed.

Lemma parse_dc_nodes_weights s g es g' :
  weights (Slaves s) = [] -> parse_dc_nodes s g es = Ret g' -> (length (weights g) <= length (pools g))%nat ->
  (length (weights g') <= length (pools g'))%nat.
Proof.
  intros Hw. revert g. induction es as [|e es IH]; intros g; cbn [parse_dc_nodes]; [by intros [= <-]|].
  destruct (addr_weight e) as [[a w]| |]; [|done..]. cbn [mbind outcome_bind].
  destruct (open_pool s a) as [cp| |]; [|done..]. cbn [mbind outcome_bind]. intros H Hl. apply (IH _ H).
  cbn. rewrite Hw, !length_app. cbn. lia.
Qed.

(** What the construction of a slice gives. *)
Record made_slice (s : Slice) : Prop := {
  ms_master : is_Some (Master s);
  ms_dc : in_order (MasterDC s);
  ms_slaves : in_order (Slaves s);
  ms_statistic : in_order (Statistic s);
}.

Lemma no_group_in_order : in_order no_group.
Proof. by split. Qed.

Lemma dc_made s es s' :
  made_slice s -> weights (Slaves s) = [] -> ParseMasterDCSlave Intn s es = Ret s' -> made_slice s'.
Proof.
  intros [H1 H2 H3 H4] Hw. unfold ParseMasterDCSlave, initMasterDCBalancer. destruct (_ =? _); [intros [= <-]; by constructor|].
  destruct (parse_dc_nodes _ _ es) as [g| |] eqn:E; [|done..]. cbn [mbind outcome_bind].
  apply parse_dc_nodes_weights in E; [|done|done].
  destruct (init_group Intn _) as [g'| |] eqn:E'; [|done..]. intros [= <-]. cbn [set_MasterDC MasterDC] in E'.
  constructor; [done| |done|done]. by eapply init_group_in_order.
Qed.

Lemma slave_made s es s' : made_slice s -> ParseSlave Intn s es = Ret s' -> made_slice s'.
Proof.
  intros [H1 H2 H3 H4]. unfold ParseSlave, initBalancer. destruct (_ =? _); [intros [= <-]; by constructor|].
  destruct (parse_nodes _ _ es) as [g| |] eqn:E; [|done..]. cbn [mbind outcome_bind].
  apply parse_nodes_weights in E; [|done].
  destruct (init_group Intn _) as [g'| |] eqn:E'; [|done..]. intros [= <-]. cbn [set_Slaves Slaves] in E'.
  constructor; [done|done| |done]. by eapply init_group_in_order.
Qed.

Lemma statistic_made s es s' : made_slice s -> ParseStatisticSlave Intn s es = Ret s' -> made_slice s'.
Proof.
  intros [H1 H2 H3 H4]. unfold ParseStatisticSlave, initStatisticSlaveBalancer. destruct (_ =? _); [intros [= <-]; by constructor|].
  destruct (parse_nodes _ _ es) as [g| |] eqn:E; [|done..]. cbn [mbind outcome_bind].
  apply parse_nodes_weights in E; [|done].
  destruct (init_group Intn _) as [g'| |] eqn:E'; [|done..]. intros [= <-]. cbn [set_Statistic Statistic] in E'.
  constructor; [done|done|done|]. by eapply init_group_in_order.
Qed.

Lemma parseSlice_made cfg cs col dc force s : parseSlice Intn cfg cs col dc force = Ret s -> made_slice s.
Proof.
  unfold parseSlice, ParseMaster. destruct (String.eqb _ _); [done|].
  destruct (open_pool _ _) as [cp| |]; [|done..]. cbn [mbind outcome_bind].
  set (s0 := set_Master _ cp). assert (made_slice s0) as H0 by (constructor; [by eexists|apply no_group_in_order..]).
  destruct (ParseMasterDCSlave Intn s0 _) as [s1| |] eqn:E1; [|done..]. cbn [mbind outcome_bind].
  apply dc_made in E1; [|done|done].
  destruct (ParseSlave Intn s1 _) as [s2| |] eqn:E2; [|done..]. cbn [mbind outcome_bind].
  apply slave_made in E2; [|done]. by apply statistic_made.
Qed.
End queues.

Lemma in_order_ok P n role g :
  in_order g -> (forall cp, cp ∈ pools g -> P (pool_name n role (addr cp))) -> group_ok P n role g.
Proof. intros [H1 H2] H3. constructor; [done|lia|by apply Forall_forall]. Qed.

Lemma made_slice_ok (P : string -> Prop) n s :
  made_slice s -> (forall k, k ∈ pool_names n s -> P k) -> slice_ok P n s.
Proof.
  intros [[cp Hm] H2 H3 H4] HP. unfold pool_names in HP. rewrite Hm in HP. setoid_rewrite elem_of_app in HP.
  setoid_rewrite elem_of_app in HP. setoid_rewrite elem_of_app in HP.
  assert (forall (f : Balancer.ConnectionPool -> string) l x, x ∈ l -> f x ∈ map f l) as Hmap
    by (intros f l x Hx; by apply (list_elem_of_fmap_2 f)).
  constructor.
  - exists cp. split; [done|]. apply HP. left. by left.
  - apply in_order_ok; [done|]. intros c Hc. apply HP. right. left. by apply (Hmap (fun cp => pool_name n "masterdc" (addr cp))).
  - apply in_order_ok; [done|]. intros c Hc. apply HP. right. right. left. by apply (Hmap (fun cp => pool_name n "slave" (addr cp))).
  - apply in_order_ok; [done|]. intros c Hc. apply HP. right. right. right. by apply (Hmap (fun cp => pool_name n "statistic" (addr cp))).
  - destruct H4 as [_ ->]. pose proof (zlen_nonneg (queue (Statistic s))). lia.
Qed.

(** * The proxy *)

Record Proxy := mkProxy { p_world : World; sessions : list SessionExecutor; general_log : Z }.

(** The session of a client that logged in. *)
Definition logged_in (user db : string) (collation : Z) (charset : string) : SessionExecutor :=
  let se := newSessionExecutor in
  mk_SessionExecutor user db (status se) (lastInsertID se) collation charset
    (sessionVariables se) (txConns se) (elapsedTables se).

(** The connections the transactions of the sessions hold. *)
Definition all_own (l : list SessionExecutor) : gset cid := ⋃ (own <$> l).

Lemma elem_of_all_own l c : c ∈ all_own l <-> exists i se, l !! i = Some se /\ c ∈ own se.
Proof.
  unfold all_own. rewrite elem_of_union_list. split.
  - intros (X & (se & -> & (i & Hi)%list_elem_of_lookup)%list_elem_of_fmap & Hc). by exists i, se.
  - intros (i & se & Hi & Hc). exists (own se). split; [|done]. apply list_elem_of_fmap_2. by eapply list_elem_of_lookup_2.
Qed.

(** The connections of the sessions other than [i]. *)
Definition others (i : nat) (l : list SessionExecutor) : gset cid := all_own (delete i l).

Record sys_inv {SN : SliceNames} {SV : Server} (p : Proxy) : Prop := {
  sy_inv : inv (p_world p) (all_own (sessions p));
  sy_disjoint : forall i j a b, sessions p !! i = Some a -> sessions p !! j = Some b -> i <> j -> own a ## own b;
  sy_inj : forall i a n m c, sessions p !! i = Some a -> txConns a !! n = Some c -> txConns a !! m = Some c -> n = m;
  sy_tx : forall i a, sessions p !! i = Some a -> isInTransaction a = false -> txConns a = ∅;
}.

Lemma elem_of_others i l c : c ∈ others i l <-> exists j se, i <> j /\ l !! j = Some se /\ c ∈ own se.
Proof.
  unfold others. rewrite elem_of_all_own. split.
  - intros (j & se & Hj & Hc). destruct (decide (j < i)%nat).
    + rewrite list_lookup_delete_lt in Hj by done. exists j, se. split; [lia|done].
    + rewrite list_lookup_delete_ge in Hj by lia. exists (S j), se. split; [lia|done].
  - intros (j & se & Hne & Hj & Hc). destruct (decide (j < i)%nat).
    + exists j, se. by rewrite list_lookup_delete_lt.
    + exists (pred j), se. rewrite list_lookup_delete_ge by lia. by replace (S (pred j)) with j by lia.
Qed.

Lemma all_own_split i l se : l !! i = Some se -> all_own l = own se ∪ others i l.
Proof.
  intros Hi. apply set_eq. intros c. rewrite elem_of_union, elem_of_all_own, elem_of_others. split.
  - intros (j & b & Hj & Hc). destruct (decide (i = j)) as [<-|Hne]; [left; congruence|right; by exists j, b].
  - intros [Hc|(j & b & _ & Hj & Hc)]; [by exists i, se|by exists j, b].
Qed.

Lemma others_insert i l se : others i (<[i := se]> l) = others i l.
Proof. 
  apply set_eq. intros c. rewrite !elem_of_others. 
  split; intros (j & b & Hne & Hj & Hc); exists j, b; (split; [done|]; split; [|done]).
  - by rewrite list_lookup_insert_ne in Hj.
  - by rewrite list_lookup_insert_ne.
Qed.

(** ** The start *)

Section start.
Context {SN : SliceNames} {SV : Server}.

(** The slices of the namespace and their pools as they are opened. *)
Record opened_world (w : World) : Prop := {
  ow_names : forall n, n ∈ slice_names -> is_Some (slices w !! n);
  ow_slices : forall n s, slices w !! n = Some s ->
    exists Intn cfg cs col dc force, parseSlice Intn cfg cs col dc force = Ret s;
  ow_pools : forall n s k, slices w !! n = Some s -> k ∈ pool_names n s -> is_Some (rpools w !! k);
  ow_new : forall k p, rpools w !! k = Some p -> exists cap max idle, NewResourcePool cap max idle = Ret p;
}.

Lemma omap_no_resource n : omap fst (replicate n no_resource) = [].
Proof. by induction n. Qed.

Lemma new_pool_ok cap max idle p : NewResourcePool cap max idle = Ret p -> pool_ok p ∅ /\ ids p = [].
Proof.
  intros [Hc ->]%NewResourcePool_Ret. unfold ids. cbn. split; [|apply omap_no_resource].
  constructor; cbn; unfold ids; cbn; rewrite ?omap_no_resource; unfold zlen; rewrite ?length_replicate, ?size_empty; cbn;
    try lia; try set_solver; by constructor.
Qed.

Lemma held_empty n : held n ∅ = ∅.
Proof. apply set_eq. intros x. rewrite elem_of_held. set_solver. Qed.

Lemma opened_inv w g : opened_world w -> sys_inv (mkProxy w [] g).
Proof.
  intros [H1 H2 H3 H4]. constructor; cbn; [|done..]. constructor.
  - done.
  - intros n s Hn. destruct (H2 n s Hn) as (Intn & cfg & cs & col & dc & fo & Hp). apply made_slice_ok; [by eapply parseSlice_made|].
    intros k Hk. by eapply H3.
  - intros n p Hp. destruct (H4 n p Hp) as (cap & max & idle & Hn). change (all_own []) with (∅ : gset cid).
    rewrite held_empty. by eapply new_pool_ok.
  - intros c. change (all_own []) with (∅ : gset cid). set_solver.
  - intros n p r Hp Hr. destruct (H4 n p Hp) as (cap & max & idle & Hn). destruct (new_pool_ok _ _ _ _ Hn) as [_ E].
    rewrite E in Hr. set_solver.
Qed.
End start.

Section proxy.
Context {SN : SliceNames} {SV : Server} {MR : MapRange} {DI : Dials SV} {MRO : MapRangeOk MR}.
Context {FE : FloatE} {HL : HighLetters} (ns : Namespace) (parse : string -> outcome statement).
Context (planners : (string -> string -> outcome (Plan * list string)) -> Prop) {PL : Planners planners}.

(** Session [i] executes a command. *)
Definition serve (getPlan : string -> string -> outcome (Plan * list string)) (p : Proxy) (i : nat) (se : SessionExecutor) (r : request) : Proxy :=
  let s := (ExecuteCommand ns parse getPlan r (mkState (p_world p) se (general_log p))).1 in
  mkProxy (world s) (<[i := session s]> (sessions p)) (ProcessGeneralLog s).

Inductive step : Proxy -> Proxy -> Prop :=
| Login p user db collation charset :
    step p (mkProxy (p_world p) (sessions p ++ [logged_in user db collation charset]) (general_log p))
| Serve getPlan p i se r : planners getPlan -> sessions p !! i = Some se -> step p (serve getPlan p i se r).

Lemma sys_session p i se :
  sessions p !! i = Some se -> sys_inv p -> sinv (others i (sessions p)) (mkState (p_world p) se (general_log p)).
Proof.
  intros Hi [H1 H2 H3 H4]. constructor; cbn; [by rewrite <- all_own_split| |intros n m c; by apply (H3 i se)|by apply (H4 i se)].
  intros c Hc. rewrite elem_of_others. intros (j & b & Hne & Hj & Hb). by eapply (H2 i j se b).
Qed.

Lemma serve_inv getPlan {PG : Plans getPlan} p i se r :
  sessions p !! i = Some se -> sys_inv p -> sys_inv (serve getPlan p i se r).
Proof.
  intros Hi Hp. pose proof (sys_session p i se Hi Hp) as Hs. destruct Hp as [H1 H2 H3 H4].
  apply (ExecuteCommand_kept ns parse getPlan _ r) in Hs. unfold serve.
  destruct (ExecuteCommand _ _ _ r _) as [[w se' g] o]. cbn in Hs |- *. destruct Hs as [K1 K2 K3 K4]. cbn in *.
  assert (<[i := se']> (sessions p) !! i = Some se') as Hi'
    by (apply list_lookup_insert_eq; by eapply lookup_lt_Some).
  constructor; cbn [p_world sessions].
  - by rewrite (all_own_split i _ se' Hi'), others_insert.
  - intros j k a b. rewrite !list_lookup_insert_Some.
    assert (forall m c, i <> m -> sessions p !! m = Some c -> own se' ## own c) as Hd.
    { intros m c Hne Hm x Hx Hx'. apply (K2 x Hx). apply elem_of_others. by exists m, c. }
    intros [(<- & <- & _)|[Hj Ha]] [(<- & <- & _)|[Hk Hb]] Hne; [done|by eapply Hd|symmetry; by eapply Hd|by eapply H2].
  - intros j a n m c. rewrite list_lookup_insert_Some. intros [(<- & <- & _)|[Hj Ha]]; [apply K3|by apply (H3 j a)].
  - intros j a. rewrite list_lookup_insert_Some. intros [(<- & <- & _)|[Hj Ha]]; [done|by eapply H4].
Qed.

Lemma login_inv p u d col cs :
  sys_inv p -> sys_inv (mkProxy (p_world p) (sessions p ++ [logged_in u d col cs]) (general_log p)).
Proof.
  intros [H1 H2 H3 H4]. assert (own (logged_in u d col cs) = ∅) as Ho by (by apply own_empty).
  constructor; cbn [p_world sessions].
  - unfold all_own. rewrite fmap_app, union_list_app_L. cbn. rewrite Ho.
    by replace (_ ∪ _ : gset cid) with (all_own (sessions p)) by (unfold all_own; set_solver).
  - intros i j a b. rewrite !lookup_snoc_Some. intros [[_ Ha]|[_ <-]] [[_ Hb]|[_ <-]] Hne; rewrite ?Ho;
      [by eapply H2|set_solver..].
  - intros i a n m c. rewrite lookup_snoc_Some. intros [[_ Ha]|[_ <-]]; [by apply (H3 i a)|done].
  - intros i a. rewrite lookup_snoc_Some. intros [[_ Ha]|[_ <-]]; [by eapply H4|done].
Qed.

Lemma step_inv p p' : step p p' -> sys_inv p -> sys_inv p'.
Proof. destruct 1; [apply login_inv|apply serve_inv; [by apply planners_known|done]]. Qed.

Lemma reachable_inv p p' : rtc step p p' -> sys_inv p -> sys_inv p'.
Proof. induction 1; eauto using step_inv. Qed.
End proxy.

(** * An example *)

(** Two slices with a master each, and servers that follow the transactions. *)
Module demo.

Definition cfg (name master : string) : models.Slice :=
  models.mk_Slice name "u" "p" master [] [] "" [] 2 2 0.

#[local] Definition drawn (_ : nat) (_ : Z) : Z := 0.

Definition slice (name master : string) : Slice :=
  match parseSlice drawn (cfg name master) "utf8" 33 true false with
  | Ret s => s
  | _ => mkSlice (cfg name master) "" 0 None no_group no_group no_group
  end.

Definition new_pool : ResourcePool :=
  match NewResourcePool 2 2 0 with Ret p => p | _ => mkResourcePool [] 0 true 0 0 0 0 0 0 0 false 0 end.

Definition world0 : World :=
  mkWorld {[ "slice-0" := slice "slice-0" "a:3306"; "slice-1" := slice "slice-1" "b:3306" ]}%string
    {[ "slice-0/master/a:3306" := new_pool; "slice-1/master/b:3306" := new_pool ]}%string ∅ [].

(** The status of a connection at its server, after what was sent. *)
Definition status_of (l : events) (c : cid) : Z :=
  foldl (fun st '(c', m) =>
    if decide (c' = c) then
      match m with
      | ComQuery q =>
          if String.eqb q "begin" then Z.lor st ServerStatusInTrans
          else if String.eqb q "commit" || String.eqb q "rollback" then Z.ldiff st ServerStatusInTrans
          else if String.eqb q "set autocommit = 0" then Z.ldiff st ServerStatusAutocommit
          else if String.eqb q "set autocommit = 1" then ServerStatusAutocommit
          else st
      | _ => st
      end
    else st) ServerStatusAutocommit l.

#[export] Instance servers : Server := {
  answer l c m := Answer (mkResult (status_of (l ++ [(c, m)]) c) 0 0 [] []);
  accept l c := Connected ServerStatusAutocommit;
}.
#[export] Instance servers_dial : Dials servers.
Proof. intros l c m e. discriminate. Qed.
#[export] Instance servers_honest : Honest servers.
Proof.
  split; intros l c r [= <-]; cbn [Status]; unfold status_of; rewrite foldl_app; cbn; rewrite decide_True by done; [|done].
  apply land_ldiff.
Qed.
#[export] Instance names : SliceNames := ({[ "slice-0"; "slice-1" ]}%string : gset string).
#[export] Instance ranges : MapRange := list_range.
#[export] Instance ranges_ok : MapRangeOk ranges := list_range_ok.
#[export] Instance floats : FloatE := fun _ _ => EmptyString.
#[export] Instance letters : HighLetters := fun _ => false.

Definition ns : Namespace :=
  mk_Namespace {[ "db" := true ]} {[ "db" := "db" ]} {[ "u" := mk_UserProperty 2 0 0 ]}%string "utf8" 33 true 0.

Definition parse (sql : string) : outcome statement :=
  if String.eqb sql "begin" then Ret BeginStmt
  else if String.eqb sql "commit" then Ret CommitStmt
  else if String.eqb sql "rollback" then Ret RollbackStmt
  else Ret OtherStmt.

(** An insertion goes to both slices, anything else to the first. *)
Definition getPlan (db sql : string) : outcome (Plan * list string) :=
  if String.eqb sql "insert into t values (1), (2)" then
    Ret (InsertPlan_ {[ "slice-0" := {[ "db" := ["insert into t values (1)"] ]};
                        "slice-1" := {[ "db" := ["insert into t values (2)"] ]} ]}, ["t"])%string
  else Ret (UnshardPlan db sql false, []).

#[export] Instance plans : Plans getPlan.
Proof.
  intros d sql p ts. unfold getPlan. assert (plan_known (UnshardPlan d sql false)) as Hu by done.
  assert (forall a b : gmap string (list string), plan_known (InsertPlan_ {[ "slice-0" := a; "slice-1" := b ]}%string)) as Hi.
  { intros a b n [x Hx]. rewrite lookup_insert_Some, lookup_singleton_Some in Hx. unfold slice_names, names.
    set_solver. }
  destruct (String.eqb _ _); intros [= <- <-]; auto.
Qed.

#[export] Instance planners : Planners (eq getPlan).
Proof. intros g <-. apply plans. Qed.

Definition se0 : SessionExecutor := logged_in "u" "db" 33 "utf8".

Definition start : Proxy := mkProxy world0 [] 0.

Lemma names0 : pool_names "slice-0" (slice "slice-0" "a:3306") = ["slice-0/master/a:3306"%string].
Proof. vm_compute. reflexivity. Qed.
Lemma names1 : pool_names "slice-1" (slice "slice-1" "b:3306") = ["slice-1/master/b:3306"%string].
Proof. vm_compute. reflexivity. Qed.

Lemma opened : opened_world world0.
Proof.
  assert (forall n s, slices world0 !! n = Some s ->
    (n = "slice-0" /\ s = slice "slice-0" "a:3306" \/ n = "slice-1" /\ s = slice "slice-1" "b:3306")%string) as Hs.
  { intros n s. cbn. rewrite lookup_insert_Some, lookup_singleton_Some. naive_solver. }
  constructor.
  - intros n. unfold slice_names, names. rewrite elem_of_union, !elem_of_singleton. intros [->| ->]; by eexists.
  - intros n s [[-> ->]|[-> ->]]%Hs; [exists drawn, (cfg "slice-0" "a:3306"), "utf8"%string, 33, true, false; done|].
    exists drawn, (cfg "slice-1" "b:3306"), "utf8"%string, 33, true, false; done.
  - intros n s k [[-> ->]|[-> ->]]%Hs; [rewrite names0|rewrite names1]; intros ->%list_elem_of_singleton; by exists new_pool.
  - intros k p. cbn. rewrite lookup_insert_Some, lookup_singleton_Some. intros Hp.
    exists 2, 2, 0. destruct Hp as [[_ <-]|[_ [_ <-]]]; reflexivity.
Qed.

(** Requests one after the other. *)
Fixpoint run (p : Proxy) (l : list (nat * request)) : Proxy :=
  match l with
  | [] => p
  | (i, r) :: l =>
      match sessions p !! i with
      | Some se => run (serve ns parse getPlan p i se r) l
      | None => run p l
      end
  end.

Lemma run_steps l p : rtc (step ns parse (eq getPlan)) p (run p l).
Proof.
  revert p. induction l as [|[i r] l IH]; intros p; cbn [run]; [done|].
  destruct (sessions p !! i) as [se|] eqn:E; [|done]. eapply rtc_l; [by apply Serve|done].
Qed.

(** Two clients that logged in. *)
Definition two : Proxy := mkProxy world0 [se0; se0] 0.

Lemma two_reachable : rtc (step ns parse (eq getPlan)) start two.
Proof.
  eapply rtc_l; [apply (Login _ _ _ _ "u" "db" 33 "utf8")|]. eapply rtc_l; [apply (Login _ _ _ _ "u" "db" 33 "utf8")|]. done.
Qed.

(** The first is in the middle of a transaction over both slices while the second reads. *)
Definition busy : Proxy :=
  run two [(0%nat, ComQuery_ 0 "begin"); (0%nat, ComQuery_ 0 "insert into t values (1), (2)");
           (1%nat, ComQuery_ 0 "select 1")]%string.

Lemma busy_reachable : rtc (step ns parse (eq getPlan)) start busy.
Proof. eapply rtc_trans; [apply two_reachable|apply run_steps]. Qed.
End demo.
