(* ===== verification/History.v ===== *)
(** Histories: the proxy behaves like one with better servers until a pipe breaks and the
    attempts to connect again end in a given way. So what holds with servers whose pipes
    never break like that holds with all servers, in every history in which none did. *)

From Stdlib Require Import Ascii String.
From stdpp Require Import relations.
From S2P Require Import Prelude GoStr Keywords Utf8 Lexer Preview.
From S2P Require Import Format SessionVars Charset Models PlanUtil Ast Merge Balancer.
From S2P Require Import StateM Pool Conn Session ConnInv SessionInv Sessions.

(** * Agreement of computations *)

(** The states with a record of what was sent. *)
Class Recorded (S : Type) := record : S -> events.
#[export] Instance world_recorded : Recorded World := log.
#[export] Instance state_recorded : Recorded State := fun s => log (world s).

Section history.
Context {SV : Server} (bad : redial -> bool).

(** A pipe that breaks for bad is an answer that is lost. *)
Definition mend (a : reply) : reply :=
  match a with Broken e d => if bad d then Lost e else a | a => a end.

Definition mended : Server := {|
  answer l c m := mend (@answer SV l c m);
  accept l c := @accept SV l c;
|}.

(** A command of the history met such a pipe. *)
Definition met (l : events) : Prop :=
  exists l1 c m l2 e d, l = l1 ++ (c, m) :: l2 /\ m <> Hangup /\ @answer SV l1 c m = Broken e d /\ bad d = true.

Lemma met_app l l' : met l -> met (l ++ l').
Proof.
  intros (l1 & c & m & l2 & e & d & -> & H). exists l1, c, m, (l2 ++ l'), e, d. by rewrite <- app_assoc.
Qed.

(** The computations do the same, or such a pipe was met; the record only grows. *)
Definition agree {S A : Type} {R : Recorded S} (m m' : M S A) : Prop :=
  forall s, (exists l, record (m s).1 = record s ++ l) /\ (m s = m' s \/ met (record (m s).1)).

Section combinators.
Context {S : Type} {R : Recorded S}.

Lemma agree_same {A} (m : M S A) : (forall s, exists l, record (m s).1 = record s ++ l) -> agree m m.
Proof. intros H s. split; [apply H|by left]. Qed.
Lemma agree_quiet {A} (m : M S A) : (forall s, record (m s).1 = record s) -> agree m m.
Proof. intros H. apply agree_same. intros s. exists []. by rewrite app_nil_r. Qed.
Lemma agree_ret {A} (a : A) : agree (ret a) (ret a).
Proof. by apply agree_quiet. Qed.
Lemma agree_fail {A} e : agree (A := A) (fail e) (fail e).
Proof. by apply agree_quiet. Qed.
Lemma agree_panic {A} e : agree (A := A) (panic e) (panic e).
Proof. by apply agree_quiet. Qed.
Lemma agree_gets {A} (f : S -> A) : agree (gets f) (gets f).
Proof. by apply agree_quiet. Qed.
Lemma agree_of_outcome {A} (o : outcome A) : agree (of_outcome o) (of_outcome o).
Proof. by apply agree_quiet. Qed.

Lemma agree_bind {A B} (m m' : M S A) (f f' : A -> M S B) :
  agree m m' -> (forall a, agree (f a) (f' a)) -> agree (bind m f) (bind m' f').
Proof.
  intros Hm Hf s. destruct (Hm s) as [[l El] Hs]. unfold bind.
  destruct (m s) as [s1 o] eqn:Em; cbn [fst] in *.
  destruct o as [a|e|p]; cbn [fst]; [|split; [by exists l|destruct Hs as [<-|Hs]; [by left|by right]]..].
  destruct (Hf a s1) as [[l' El'] Hs']. split; [exists (l ++ l'); by rewrite El', El, app_assoc|].
  destruct Hs as [<-|Hs]; [destruct Hs' as [Hs'|Hs']; [by left|by right]|]. right. rewrite El'. by apply met_app.
Qed.

Lemma agree_attempt {A} (m m' : M S A) : agree m m' -> agree (attempt m) (attempt m').
Proof.
  intros Hm s. destruct (Hm s) as [Hl Hs]. unfold attempt.
  destruct (m s) as [s1 [a|e|p]]; cbn [fst] in *; (split; [done|destruct Hs as [<-|Hs]; [by left|by right]]).
Qed.

Lemma agree_wrapping {A} fmt (m m' : M S A) : agree m m' -> agree (wrapping fmt m) (wrapping fmt m').
Proof.
  intros Hm s. destruct (Hm s) as [Hl Hs]. unfold wrapping.
  destruct (m s) as [s1 o]; cbn [fst] in *. split; [done|destruct Hs as [<-|Hs]; [by left|by right]].
Qed.

Lemma agree_deferred {A} (m m' : M S A) (d d' : M S unit) : agree m m' -> agree d d' -> agree (deferred m d) (deferred m' d').
Proof.
  intros Hm Hd s. destruct (Hm s) as [[l El] Hs]. unfold deferred. destruct (m s) as [s1 o]; cbn [fst] in *.
  destruct (Hd s1) as [[l' El'] Hs']. destruct (d s1) as [s2 o'] eqn:Ed; cbn [fst] in *.
  assert (forall (x : S * outcome A), x.1 = s2 -> exists l0, record x.1 = record s ++ l0) as K
    by (intros x ->; exists (l ++ l'); by rewrite El', El, app_assoc).
  assert (met (record s1) \/ met (record s2) -> met (record s2)) as K'
    by (intros [H|H]; [rewrite El'; by apply met_app|done]).
  destruct o'; cbn [fst]; (split; [by apply (K (s2, o))|]).
  all: destruct Hs as [<-|Hs]; [destruct Hs' as [Hs'|Hs']; [left; by rewrite <- Hs'|right; by apply K'; right]|right; apply K'; by left].
Qed.
End combinators.

Lemma agree_onw {A} (m m' : M World A) : agree m m' -> agree (onw m) (onw m').
Proof.
  intros Hm s. destruct (Hm (world s)) as [Hl Hs]. unfold onw, on.
  destruct (m (world s)) as [w o]; cbn [fst] in *. split; [done|destruct Hs as [<-|Hs]; [by left|by right]].
Qed.

Lemma agree_update f : agree (update f) (update f).
Proof. by apply agree_quiet. Qed.
Lemma agree_the_conn c : agree (the_conn c) (the_conn c).
Proof. apply agree_quiet. intros w. unfold the_conn. by destruct (conns w !! c). Qed.
Lemma agree_the_pool n : agree (the_pool n) (the_pool n).
Proof. apply agree_quiet. intros w. unfold the_pool. by destruct (rpools w !! n). Qed.
Lemma agree_update_conn c f : agree (update_conn c f) (update_conn c f).
Proof. apply agree_quiet. intros w. unfold update_conn, bind, the_conn. by destruct (conns w !! c). Qed.
Lemma agree_update_pool n f : agree (update_pool n f) (update_pool n f).
Proof. apply agree_quiet. intros w. unfold update_pool, bind, the_pool. by destruct (rpools w !! n). Qed.
Lemma agree_log c m : agree (modify (fun w => logged w c m)) (modify (fun w => logged w c m)).
Proof. apply agree_same. intros w. by exists [(c, m)]. Qed.
End history.

Create HintDb agree discriminated.
#[export] Hint Resolve agree_ret agree_fail agree_panic agree_gets agree_of_outcome agree_update agree_the_conn agree_the_pool
  agree_update_conn agree_update_pool agree_log : agree.

(** Follows a computation through its binds and branches. *)
Ltac agrees :=
  repeat first
    [ solve [auto with agree nocore]
    | apply agree_bind; [|intros ?] | apply agree_attempt | apply agree_wrapping | apply agree_deferred
    | apply agree_onw | case_match | solve [apply agree_quiet; reflexivity] ].

(** * The connections *)

Section connections.
Context {SV : Server} {MR : MapRange} (bad : redial -> bool).
#[local] Abbreviation agree := (agree (SV := SV) bad).
#[local] Abbreviation better := (mended (SV := SV) bad).

(** What [send] does with the answer. *)
Definition react (c : cid) (a : reply) : M World Result :=
  match a with
  | Answer r => ret r
  | Refused e st =>
      match st with Some st => update_conn c (fun d => with_status d st) | None => ret tt end ;;* fail e
  | Lost e => fail e
  | Broken e r => modify (fun w => logged w c Hangup) ;;* update_conn c (fun d => redialed d r) ;;* fail e
  end.

Lemma agree_react c a : agree (react c a) (react c a).
Proof. unfold react. agrees. Qed.

Lemma mend_cases a : mend bad a = a \/ exists e d, a = Broken e d /\ bad d = true.
Proof. destruct a as [| | |e d]; cbn; [by left..|]. destruct (bad d) eqn:E; [right; eauto|by left]. Qed.

Lemma agree_send c m : m <> Hangup -> agree (send (SV := SV) c m) (send (SV := better) c m).
Proof.
  intros Hm. apply agree_bind; [agrees|]. intros d. destruct (negb _); [agrees|]. intros w.
  change ((exists l, record (react c (@answer SV (log w) c m) (logged w c m)).1 = record w ++ l) /\
    (react c (@answer SV (log w) c m) (logged w c m) = react c (mend bad (@answer SV (log w) c m)) (logged w c m) \/
     met (SV := SV) bad (record (react c (@answer SV (log w) c m) (logged w c m)).1))).
  destruct (agree_react c (@answer SV (log w) c m) (logged w c m)) as [[l E] _].
  change (record (logged w c m)) with (log w ++ [(c, m)]) in E. rewrite <- app_assoc in E. cbn [app] in E.
  split; [by exists ((c, m) :: l)|]. destruct (mend_cases (@answer SV (log w) c m)) as [->|(e & x & Ha & Hb)]; [by left|].
  right. rewrite E. by exists (log w), c, m, l, e, x.
Qed.
Lemma agree_exec c q : agree (exec (SV := SV) c q) (exec (SV := better) c q).
Proof. apply agree_bind; [by apply agree_send|]. intros r. agrees. Qed.
#[local] Hint Resolve agree_exec : agree.

Lemma agree_exec_ c q : agree (exec (SV := SV) c q ;;* ret tt) (exec (SV := better) c q ;;* ret tt).
Proof. agrees. Qed.
Lemma agree_conn_Close c : agree (conn_Close c) (conn_Close c).
Proof. unfold conn_Close. agrees. Qed.
Lemma agree_Close c : agree (Close c) (Close c).
Proof. unfold Close. agrees. Qed.
Lemma agree_rp_Put n o : agree (rp_Put n o) (rp_Put n o).
Proof. unfold rp_Put. agrees. Qed.
#[local] Hint Resolve agree_exec_ agree_conn_Close agree_Close agree_rp_Put : agree.

Lemma agree_SetAutoCommit c v : agree (SetAutoCommit (SV := SV) c v) (SetAutoCommit (SV := better) c v).
Proof. unfold SetAutoCommit. agrees. Qed.
#[local] Hint Resolve agree_SetAutoCommit : agree.

Lemma agree_UseDB c n : agree (UseDB (SV := SV) c n) (UseDB (SV := better) c n).
Proof.
  apply agree_bind; [agrees|]. intros d. destruct (negb _); [agrees|]. destruct (_ || _); [agrees|].
  apply agree_bind; [by apply agree_send|]. intros r. agrees.
Qed.

Lemma agree_initBackendConn c n cs col vs :
  agree (initBackendConn (SV := SV) c n cs col vs) (initBackendConn (SV := better) c n cs col vs).
Proof.
  apply agree_bind; [apply agree_UseDB|]. intros _. apply agree_bind; [unfold SetCharset; agrees|]. intros b1.
  apply agree_bind; [unfold SetSessionVariables; agrees|]. intros b2. unfold WriteSetStatement. agrees.
Qed.

Lemma agree_ResetConnection c : agree (ResetConnection (SV := SV) c) (ResetConnection (SV := better) c).
Proof. unfold ResetConnection, Rollback. agrees. Qed.
#[local] Hint Resolve agree_initBackendConn agree_ResetConnection : agree.

Lemma agree_Recycle c : agree (Recycle (SV := SV) c) (Recycle (SV := better) c).
Proof. unfold Recycle. agrees. Qed.

Lemma agree_connect cp c : agree (connect (SV := SV) cp c) (connect (SV := better) cp c).
Proof. unfold connect. apply agree_bind; [by apply agree_quiet|]. intros r. agrees. Qed.
#[local] Hint Resolve agree_Recycle agree_connect : agree.

Lemma agree_pool_Get cp n : agree (pool_Get (SV := SV) cp n) (pool_Get (SV := better) cp n).
Proof. unfold pool_Get. agrees. Qed.
#[local] Hint Resolve agree_pool_Get : agree.

Lemma agree_GetMasterConn n : agree (GetMasterConn (SV := SV) n) (GetMasterConn (SV := better) n).
Proof. unfold GetMasterConn. agrees. Qed.

Lemma agree_slave_conn n role next : agree (slave_conn (SV := SV) n role next) (slave_conn (SV := better) n role next).
Proof. unfold slave_conn. agrees. Qed.
#[local] Hint Resolve agree_GetMasterConn agree_slave_conn : agree.

Lemma agree_GetConn n flag u : agree (GetConn (SV := SV) n flag u) (GetConn (SV := better) n flag u).
Proof. unfold GetConn, GetStatisticSlaveConn, GetSlaveConn, GetMasterDCSlaveConn. agrees. Qed.
End connections.

#[export] Hint Resolve agree_exec agree_exec_ agree_Close agree_SetAutoCommit agree_initBackendConn agree_Recycle
  agree_GetMasterConn agree_GetConn : agree.

(** * The sessions *)

Section sessions.
Context {SV : Server} {MR : MapRange} {FE : FloatE} {HL : HighLetters} (bad : redial -> bool).
Context (ns : Namespace) (parse : string -> outcome statement) (getPlan : string -> string -> outcome (Plan * list string)).
#[local] Abbreviation agree := (agree (SV := SV) bad).
#[local] Abbreviation better := (mended (SV := SV) bad).

Lemma agree_getTransactionConn n : agree (getTransactionConn (SV := SV) n) (getTransactionConn (SV := better) n).
Proof. unfold getTransactionConn, Begin. agrees. Qed.
#[local] Hint Resolve agree_getTransactionConn : agree.

Lemma agree_getBackendConn n flag : agree (getBackendConn (SV := SV) ns n flag) (getBackendConn (SV := better) ns n flag).
Proof. unfold getBackendConn. agrees. Qed.
#[local] Hint Resolve agree_getBackendConn : agree.

Lemma agree_get_conns flag names pcs : agree (get_conns (SV := SV) ns flag names pcs) (get_conns (SV := better) ns flag names pcs).
Proof. revert pcs. induction names as [|n names IH]; intros pcs; cbn [get_conns]; agrees. Qed.

Lemma agree_recycle_all pcs : agree (recycle_all (SV := SV) pcs) (recycle_all (SV := better) pcs).
Proof. induction pcs as [|[n c] pcs IH]; cbn [recycle_all]; agrees. Qed.
#[local] Hint Resolve agree_get_conns agree_recycle_all : agree.

Lemma agree_recycleBackendConn c : agree (recycleBackendConn (SV := SV) c) (recycleBackendConn (SV := better) c).
Proof. unfold recycleBackendConn. agrees. Qed.

Lemma agree_begin_all l : agree (begin_all (SV := SV) l) (begin_all (SV := better) l).
Proof. induction l as [|[n c] l IH]; cbn [begin_all]; unfold Begin; agrees. Qed.
#[local] Hint Resolve agree_recycleBackendConn agree_begin_all : agree.

Lemma agree_handleBegin : agree (handleBegin (SV := SV)) (handleBegin (SV := better)).
Proof. unfold handleBegin. agrees. Qed.

Lemma agree_end_all (op op' : cid -> M World unit) l err :
  (forall c, agree (op c) (op' c)) -> agree (end_all (SV := SV) op l err) (end_all (SV := better) op' l err).
Proof. intros Hop. revert err. induction l as [|[n c] l IH]; intros err; cbn [end_all]; agrees. Qed.

Lemma agree_end_transaction (op op' : cid -> M World unit) :
  (forall c, agree (op c) (op' c)) -> agree (end_transaction (SV := SV) op) (end_transaction (SV := better) op').
Proof.
  intros Hop. apply agree_bind; [agrees|]. intros se. apply agree_bind; [by apply agree_onw, agree_end_all|]. intros err. agrees.
Qed.

Lemma agree_commit : agree (commit (SV := SV)) (commit (SV := better)).
Proof. apply agree_bind; [agrees|]. intros _. apply agree_end_transaction. intros c. unfold Commit. agrees. Qed.
Lemma agree_rollback : agree (rollback (SV := SV)) (rollback (SV := better)).
Proof. apply agree_bind; [agrees|]. intros _. apply agree_end_transaction. intros c. unfold Rollback. agrees. Qed.
Lemma agree_rollbackTo n : agree (rollbackTo (SV := SV) n) (rollbackTo (SV := better) n).
Proof. apply agree_end_transaction. intros c. unfold RollbackTo. agrees. Qed.
Lemma agree_savepoint n : agree (savepoint (SV := SV) n) (savepoint (SV := better) n).
Proof. apply agree_end_transaction. intros c. unfold Savepoint. agrees. Qed.

Lemma agree_handleSetAutoCommit b : agree (handleSetAutoCommit (SV := SV) b) (handleSetAutoCommit (SV := better) b).
Proof.
  destruct b; cbn [handleSetAutoCommit]; [|agrees]. apply agree_bind; [agrees|]. intros _. apply agree_bind; [agrees|]. intros se.
  apply agree_bind; [apply agree_onw, agree_end_all; agrees|]. intros err. agrees.
Qed.
#[local] Hint Resolve agree_handleBegin agree_commit agree_rollback agree_rollbackTo agree_savepoint agree_handleSetAutoCommit : agree.

(** ** Statements *)

Lemma agree_ExecuteSQL flag sl d sql : agree (ExecuteSQL (SV := SV) ns flag sl d sql) (ExecuteSQL (SV := better) ns flag sl d sql).
Proof. unfold ExecuteSQL, Execute. agrees. Qed.

Lemma agree_run_sqls c sqls : agree (run_sqls (SV := SV) c sqls) (run_sqls (SV := better) c sqls).
Proof. induction sqls as [|q sqls IH]; cbn [run_sqls]; unfold Execute; agrees. Qed.
#[local] Hint Resolve agree_ExecuteSQL agree_run_sqls : agree.

Lemma agree_run_dbs se c dbs : agree (run_dbs (SV := SV) se c dbs) (run_dbs (SV := better) se c dbs).
Proof. induction dbs as [|[d sqls] dbs IH]; cbn [run_dbs]; agrees. Qed.
#[local] Hint Resolve agree_run_dbs : agree.

Lemma agree_run_slices se sqls pcs : agree (run_slices (SV := SV) se sqls pcs) (run_slices (SV := better) se sqls pcs).
Proof. induction pcs as [|[n c] pcs IH]; cbn [run_slices]; agrees. Qed.
#[local] Hint Resolve agree_run_slices : agree.

Lemma agree_ExecuteSQLs flag sqls : agree (ExecuteSQLs (SV := SV) ns flag sqls) (ExecuteSQLs (SV := better) ns flag sqls).
Proof. unfold ExecuteSQLs, getBackendConns, executeInMultiSlices, recycleBackendConns. agrees. Qed.
#[local] Hint Resolve agree_ExecuteSQLs : agree.

Lemma agree_handleSetVariable v : agree (handleSetVariable (SV := SV) ns v) (handleSetVariable (SV := better) ns v).
Proof.
  assert (forall n t, agree (setStringSessionVariable n t) (setStringSessionVariable n t)) as H1
    by (intros n t; unfold setStringSessionVariable; agrees).
  assert (forall n t, agree (setIntSessionVariable n t) (setIntSessionVariable n t)) as H2
    by (intros n t; unfold setIntSessionVariable; agrees).
  assert (forall t, agree (setGeneralLogVariable t) (setGeneralLogVariable t)) as H3
    by (intros t; unfold setGeneralLogVariable; agrees).
  unfold handleSetVariable. agrees.
Qed.
#[local] Hint Resolve agree_handleSetVariable : agree.

Lemma agree_handleSet vs : agree (handleSet (SV := SV) ns vs) (handleSet (SV := better) ns vs).
Proof. induction vs as [|v vs IH]; cbn [handleSet]; agrees. Qed.

Lemma agree_handleShow sql tp : agree (handleShow (SV := SV) ns sql tp) (handleShow (SV := better) ns sql tp).
Proof. unfold handleShow. agrees. Qed.

Lemma agree_handleUseDB d : agree (handleUseDB ns d) (handleUseDB ns d).
Proof. unfold handleUseDB. agrees. Qed.
#[local] Hint Resolve agree_handleSet agree_handleShow agree_handleUseDB : agree.

Lemma agree_handleQueryWithoutPlan sql :
  agree (handleQueryWithoutPlan (SV := SV) ns parse sql) (handleQueryWithoutPlan (SV := better) ns parse sql).
Proof. unfold handleQueryWithoutPlan. agrees. Qed.

Lemma agree_ExecuteIn flag p : agree (ExecuteIn (SV := SV) ns flag p) (ExecuteIn (SV := better) ns flag p).
Proof. unfold ExecuteIn, record_id. agrees. Qed.
#[local] Hint Resolve agree_handleQueryWithoutPlan agree_ExecuteIn : agree.

Lemma agree_doQuery now sql : agree (doQuery (SV := SV) ns parse getPlan now sql) (doQuery (SV := better) ns parse getPlan now sql).
Proof. unfold doQuery, updateWriteTableCurrentTime. agrees. Qed.

Lemma agree_handleQuery now sql :
  agree (handleQuery (SV := SV) ns parse getPlan now sql) (handleQuery (SV := better) ns parse getPlan now sql).
Proof.
  intros s. destruct (agree_doQuery now (trim_right (Ascii.eqb ";") sql) s) as [Hl Hs]. unfold handleQuery.
  destruct (doQuery (SV := SV) _ _ _ _ _ s) as [s1 o]; cbn [fst] in *. split; [done|destruct Hs as [<-|Hs]; [by left|by right]].
Qed.

Lemma agree_handleFieldList n t wc :
  agree (handleFieldList (SV := SV) ns n t wc) (handleFieldList (SV := better) ns n t wc).
Proof.
  assert (forall c, agree (send (SV := SV) c (ComFieldList t wc)) (send (SV := better) c (ComFieldList t wc))) as H
    by (intros c; by apply agree_send).
  unfold handleFieldList. agrees.
Qed.
#[local] Hint Resolve agree_handleQuery agree_handleFieldList : agree.

Lemma agree_ExecuteCommand r :
  agree (ExecuteCommand (SV := SV) ns parse getPlan r) (ExecuteCommand (SV := better) ns parse getPlan r).
Proof. unfold ExecuteCommand. agrees. Qed.
End sessions.

(** * The proxy *)

Section proxies.
Context {SV : Server} {MR : MapRange} {FE : FloatE} {HL : HighLetters} (bad : redial -> bool).
Context (ns : Namespace) (parse : string -> outcome statement).
Context (planners : (string -> string -> outcome (Plan * list string)) -> Prop).
#[local] Abbreviation better := (mended (SV := SV) bad).

Lemma step_better p q :
  step (SV := SV) ns parse planners p q ->
  (exists l, log (p_world q) = log (p_world p) ++ l) /\
  (step (SV := better) ns parse planners p q \/ met (SV := SV) bad (log (p_world q))).
Proof.
  destruct 1 as [p u d col cs|g p i se r Hg Hi]; [split; [exists []; by rewrite app_nil_r|left; constructor]|].
  pose proof (Serve (SV := better) ns parse planners g p i se r Hg Hi) as Hb. unfold serve in *.
  destruct (agree_ExecuteCommand (SV := SV) bad ns parse g r (mkState (p_world p) se (general_log p))) as [Hl [E|Hm]].
  - split; [exact Hl|left]. rewrite E. exact Hb.
  - split; [exact Hl|by right].
Qed.

(** Without such a pipe in its history the proxy got where it is with the better servers too. *)
Lemma reachable_better p q :
  rtc (step (SV := SV) ns parse planners) p q -> ~ met (SV := SV) bad (log (p_world q)) ->
  rtc (step (SV := better) ns parse planners) p q.
Proof.
  intros Hrun. refine (@rtc_ind_r _ _ (fun q => ~ met (SV := SV) bad (log (p_world q)) -> rtc _ p q) p _ _ q Hrun); [done|].
  clear q Hrun. intros q q' _ Hst IH Hm.
  destruct (step_better _ _ Hst) as [[l E] Hb]. eapply rtc_r; [|by destruct Hb].
  apply IH. intros H. apply Hm. rewrite E. by apply met_app.
Qed.
End proxies.

#[export] Instance mended_honest (SV : Server) bad : Honest SV -> Honest (mended (SV := SV) bad).
Proof.
  assert (forall l c m r, @answer (mended (SV := SV) bad) l c m = Answer r -> @answer SV l c m = Answer r) as Ha.
  { intros l c m r. cbn. destruct (@answer SV l c m) as [| | |e d]; cbn; [done..|]. by destruct (bad d). }
  intros HO. split; intros l c r H%Ha; [by eapply honest_rollback|by eapply honest_autocommit].
Qed.

(** A broken pipe whose server could not be dialled again. *)
Definition not_dialed (d : redial) : bool := match d with NotDialed => true | _ => false end.
Definition unreachable {SV : Server} (l : events) : Prop := met (SV := SV) not_dialed l.

#[export] Instance mended_dials (SV : Server) : Dials (mended (SV := SV) not_dialed).
Proof. intros l c m e. cbn. destruct (@answer SV l c m) as [| | |e' [| |]]; discriminate. Qed.

Section properties.
Context {SN : SliceNames} {SV : Server} {MR : MapRange} {MRO : MapRangeOk MR} {FE : FloatE} {HL : HighLetters}.
Context (ns : Namespace) (parse : string -> outcome statement).
Context (planners : (string -> string -> outcome (Plan * list string)) -> Prop) {PL : Planners planners}.

(** What holds between the requests, with any servers. *)
Lemma proxy_inv w g p :
  opened_world w -> rtc (step (SV := SV) ns parse planners) (mkProxy w [] g) p -> ~ unreachable (log (p_world p)) ->
  sys_inv (SV := mended (SV := SV) not_dialed) p.
Proof.
  intros Hw Hrun Hm. apply (reachable_inv ns parse planners (mkProxy w [] g)); [by apply reachable_better|by apply opened_inv].
Qed.


(** C10: nobody inherits a transaction: a connection that waits in a pool was never
    marked closed and has its connection object, and, when the servers report their
    status as documented, the last status it was told is in no transaction and in the
    autocommit mode, whatever the sessions did with it and whatever failed, as long as no
    server of a broken pipe was unreachable. (The socket itself may be closed: see
    [closed_socket_is_pooled].) *)
Theorem idle_connections_clean w g p n rp r :
  opened_world w -> rtc (step ns parse planners) (mkProxy w [] g) p -> ~ unreachable (log (p_world p)) ->
  Honest SV -> rpools (p_world p) !! n = Some rp -> r ∈ ids rp ->
  exists d, conns (p_world p) !! (n, r) = Some d /\ conn d = true /\ dc_closed d = false /\
    IsInTransaction d = false /\ IsAutoCommit d = true.
Proof.
  intros Hw Hrun Hm HO Hn Hr. destruct (proxy_inv w g p Hw Hrun Hm) as [H1 _ _ _].
  destruct (inv_idle _ _ H1 n rp r Hn Hr) as (d & Hd & Hc & Hcl & Hs). exists d. destruct Hs as [Ht Ha]; [apply _|].
  by split_and!.
Qed.
End properties.

(** * Examples *)

Import demo.

Lemma busy_all_reached : ~ unreachable (log (p_world busy)).
Proof. intros (l1 & c & m & l2 & e & d & _ & _ & [=] & _). Qed.


(** The connection of the reader. *)
Lemma idle_connections_clean_witness :
  exists d, conns (p_world busy) !! ("slice-0/master/a:3306"%string, 1%nat) = Some d /\ conn d = true /\ dc_closed d = false /\
    IsInTransaction d = false /\ IsAutoCommit d = true.
Proof.
  assert (ids <$> rpools (p_world busy) !! "slice-0/master/a:3306"%string = Some [1%nat]) as (rp & Hr & Hi)%fmap_Some
    by (vm_compute; reflexivity).
  apply (idle_connections_clean ns parse (eq getPlan) world0 0 busy "slice-0/master/a:3306" rp 1 opened busy_reachable busy_all_reached servers_honest Hr).
  rewrite <- Hi. by apply list_elem_of_singleton.
Defined.

(** ** Where the theorems end *)

(** Servers that lose the answer to the change of the autocommit mode, or whose pipe
    breaks there and that cannot be dialled again. *)
Module failing.

Definition failing (a : reply) : Server := {|
  answer l c m :=
    match m with
    | ComQuery q =>
        if String.eqb q "set autocommit = 1" then a
        else if String.eqb q "create table t (i int)" then Answer (mkResult ServerStatusAutocommit 0 0 [] [])
        else answer (Server := servers) l c m
    | m => answer (Server := servers) l c m
    end;
  accept l c := Connected ServerStatusAutocommit;
|}.

Definition parse (sql : string) : outcome statement :=
  if String.eqb sql "set autocommit = 1" then
    Ret (SetStmt [mk_VariableAssignment "autocommit" false (EValue (DInt64 1)) None])
  else demo.parse sql.

(** A client begins a transaction, defines a table, which commits it, and turns the
    autocommit mode on. *)
Definition session_of (a : reply) : Proxy :=
  foldl (fun p sql => match sessions p !! 0%nat with
    | Some se => serve (SV := failing a) ns parse getPlan p 0 se (ComQuery_ 0 sql)
    | None => p
    end) two ["begin"; "create table t (i int)"; "set autocommit = 1"]%string.

Lemma session_reachable a : rtc (step (SV := failing a) ns parse (eq getPlan)) start (session_of a).
Proof.
  eapply rtc_l; [apply (Login _ _ _ _ "u" "db" 33 "utf8")|]. eapply rtc_l; [apply (Login _ _ _ _ "u" "db" 33 "utf8")|].
  unfold session_of. change (mkProxy _ _ _) with two. generalize two.
  generalize ["begin"; "create table t (i int)"; "set autocommit = 1"]%string. intros l.
  induction l as [|sql l IH]; intros p; cbn [foldl]; [done|]. eapply rtc_trans; [|apply IH].
  destruct (sessions p !! 0%nat) as [se|] eqn:E; [|done]. apply rtc_once. by apply Serve.
Qed.
End failing.

Import failing.

(** A connection whose socket was closed after a lost answer goes back to its pool: the
    last status it knows is clean, so that nothing has to be reset. *)
Example closed_socket_is_pooled :
  let p := session_of (Lost (Errorf "read")) in
  ids <$> rpools (p_world p) !! "slice-0/master/a:3306"%string = Some [0%nat] /\
  list.last (filter (fun e => e.1 = ("slice-0/master/a:3306"%string, 0%nat)) (log (p_world p))) =
    Some (("slice-0/master/a:3306"%string, 0%nat), Hangup).
Proof. vm_compute. split; reflexivity. Qed.

(** When the server cannot be dialled again the panic in [SetAutoCommit] comes before the
    connection is recycled: the session is in no transaction, the connection has no
    socket, and its place is not given back. *)
Example unreachable_keeps_place :
  let p := session_of (Broken (Errorf "broken pipe") NotDialed) in
  (fun rp => (capacity rp, zlen (resources rp), inUse rp)) <$> rpools (p_world p) !! "slice-0/master/a:3306"%string = Some (2, 1, 1) /\
  (fun se => (isInTransaction se, size (own se))) <$> sessions p !! 0%nat = Some (false, 1%nat) /\
  conn <$> conns (p_world p) !! ("slice-0/master/a:3306"%string, 0%nat) = Some false.
Proof. vm_compute. split_and!; reflexivity. Qed.
