(* ===== verification/SessionTx.v ===== *)
(** What the servers are sent: a session speaks only on its own connections, and while
    it is in a transaction each of them is in a transaction of its server. *)

From Stdlib Require Import Ascii String.
From stdpp Require Import relations.
From S2P Require Import Prelude GoStr Keywords Utf8 Lexer Preview.
From S2P Require Import Format SessionVars Charset Models PlanUtil Ast Merge Balancer.
From S2P Require Import StateM Pool Conn Session ConnInv SessionInv Sessions History.

(** * The transactions of the servers *)

(** The statement that brings the settings of a session to a connection. *)
Definition names_text (s : string) : Prop := exists r, s = ("SET NAMES '" +:+ r)%string.

(** The statements of the clients, as they are sent. *)
Class ClientText := client_text : string -> Prop.

Definition opening (m : command) : Prop := m = ComQuery "begin" \/ m = ComQuery "set autocommit = 0".

Section open.
Context {CT : ClientText}.

(** What may be said in a transaction: the proxy changes the database and the settings,
    asks for fields and opens the transaction once more; everything else is what the
    client says. The proxy does not hang up, commit or roll back. *)
Definition plain (m : command) : Prop :=
  match m with
  | ComQuery q => opening m \/ names_text q \/ client_text q
  | ComInitDB _ | ComFieldList _ _ => True
  | Hangup => False
  end.

(** A transaction was opened on the connection, and since then nothing else was said on it. *)
Definition tx_open (l : events) (c : cid) : Prop :=
  exists l1 m l2, l = l1 ++ (c, m) :: l2 /\ opening m /\ Forall (fun e => e.1 = c -> plain e.2) l2.

Lemma tx_open_snoc l c m : opening m -> tx_open (l ++ [(c, m)]) c.
Proof. intros H. by exists l, m, []. Qed.

Lemma tx_open_app l l' c : tx_open l c -> Forall (fun e => e.1 = c -> plain e.2) l' -> tx_open (l ++ l') c.
Proof.
  intros (l1 & m & l2 & -> & Ho & Hp) Hl. exists l1, m, (l2 ++ l'). rewrite <- app_assoc. split; [done|].
  split; [done|]. by apply Forall_app.
Qed.
End open.

(** * What a computation sends *)

Definition sends {A} (P : cid -> command -> Prop) (m : M World A) : Prop :=
  forall w, exists l, log (m w).1 = log w ++ l /\ Forall (fun e => P e.1 e.2) l.

Section sends.
Context (P : cid -> command -> Prop).

Lemma sends_quiet {A} (m : M World A) : (forall w, log (m w).1 = log w) -> sends P m.
Proof. intros H w. exists []. by rewrite app_nil_r. Qed.

Lemma sends_ret {A} (a : A) : sends P (ret a).
Proof. by apply sends_quiet. Qed.
Lemma sends_fail {A} e : sends P (fail e : M World A).
Proof. by apply sends_quiet. Qed.
Lemma sends_panic {A} e : sends P (panic e : M World A).
Proof. by apply sends_quiet. Qed.
Lemma sends_gets {A} (f : World -> A) : sends P (gets f).
Proof. by apply sends_quiet. Qed.
Lemma sends_of_outcome {A} (o : outcome A) : sends P (of_outcome o).
Proof. by apply sends_quiet. Qed.
Lemma sends_the_conn c : sends P (the_conn c).
Proof. apply sends_quiet. intros w. unfold the_conn. by destruct (conns w !! c). Qed.
Lemma sends_the_pool n : sends P (the_pool n).
Proof. apply sends_quiet. intros w. unfold the_pool. by destruct (rpools w !! n). Qed.
Lemma sends_update_conn c f : sends P (update_conn c f).
Proof. apply sends_quiet. intros w. unfold update_conn, bind, the_conn. by destruct (conns w !! c). Qed.
Lemma sends_update_pool n f : sends P (update_pool n f).
Proof. apply sends_quiet. intros w. unfold update_pool, bind, the_pool. by destruct (rpools w !! n). Qed.

Lemma sends_bind {A B} (m : M World A) (f : A -> M World B) : sends P m -> (forall a, sends P (f a)) -> sends P (bind m f).
Proof.
  intros Hm Hf w. destruct (Hm w) as (l & E & Hl). unfold bind.
  destruct (m w) as [w' [a| |]]; cbn in *; [|by exists l..].
  destruct (Hf a w') as (l' & E' & Hl'). exists (l ++ l'). rewrite E', E, <- app_assoc. split; [done|by apply Forall_app].
Qed.

Lemma sends_attempt {A} (m : M World A) : sends P m -> sends P (attempt m).
Proof. intros Hm w. destruct (Hm w) as (l & E & Hl). unfold attempt. destruct (m w) as [w' []]; by exists l. Qed.
End sends.

Lemma sends_impl {A} (P Q : cid -> command -> Prop) (m : M World A) : sends P m -> (forall c x, P c x -> Q c x) -> sends Q m.
Proof. intros Hm H w. destruct (Hm w) as (l & E & Hl). exists l. split; [done|]. eapply Forall_impl; [done|]. auto. Qed.

Create HintDb sends discriminated.
#[export] Hint Resolve sends_ret sends_fail sends_panic sends_gets sends_of_outcome sends_the_conn sends_the_pool
  sends_update_conn sends_update_pool : sends.

Ltac sends :=
  repeat first
    [ progress (auto with sends) | apply sends_bind; [|intros ?] | apply sends_attempt | case_match ].

(** The pipe to a server never breaks. *)
Class Alive (SV : Server) := alive : forall l c m e d, answer l c m <> Broken e d.

Section commands.
Context {CT : ClientText} {SV : Server} {MR : MapRange} {AL : Alive SV}.

Definition at_ (c : cid) (Q : command -> Prop) (c' : cid) (m : command) : Prop := c' = c /\ Q m.

Lemma sends_log (Q : command -> Prop) c m : Q m -> sends (at_ c Q) (modify (fun w => logged w c m)).
Proof. intros H w. exists [(c, m)]. split; [done|]. by constructor. Qed.

Lemma sends_send (Q : command -> Prop) c m : Q m -> sends (at_ c Q) (send c m).
Proof.
  intros H. apply sends_bind; [sends|]. intros d. destruct (negb _); [sends|]. intros w. exists [(c, m)].
  split; [|by constructor]. unfold bind, gets. cbn [modify fst snd].
  destruct (answer (log w) c m) as [r|e [st|]|e|e d'] eqn:E; [done| |done|done|by apply alive in E].
  unfold update_conn, the_conn, bind, modify. cbn. by destruct (conns w !! c).
Qed.

Lemma sends_exec (Q : command -> Prop) c q : Q (ComQuery q) -> sends (at_ c Q) (exec c q).
Proof. intros H. apply sends_bind; [by apply sends_send|]. intros r. sends. Qed.

Lemma sends_exec_ (Q : command -> Prop) c q : Q (ComQuery q) -> sends (at_ c Q) (exec c q ;;* ret tt).
Proof. intros H. apply sends_bind; [by apply sends_exec|]. intros r. sends. Qed.

Definition any (_ : command) : Prop := True.

Lemma sends_conn_Close c : sends (at_ c any) (conn_Close c).
Proof. apply sends_bind; [sends|]. intros d. destruct (conn d); [by apply sends_log|sends]. Qed.

Lemma sends_Close c : sends (at_ c any) (Close c).
Proof.
  apply sends_bind; [sends|]. intros d. apply sends_bind; [|sends]. destruct (conn d); [by apply sends_log|sends].
Qed.

Lemma sends_SetAutoCommit c v : sends (at_ c any) (SetAutoCommit c v).
Proof.
  apply sends_bind; [by apply sends_attempt, sends_exec|]. intros [u|e|q]; [sends| |sends].
  apply sends_bind; [apply sends_conn_Close|sends].
Qed.

Lemma sends_rp_Put P n o : sends P (rp_Put n o).
Proof.
  apply sends_bind; [destruct (is_some o); sends|]. intros _. apply sends_bind; [sends|]. intros p.
  destruct (closed p); [sends|]. case_decide; [sends|]. sends.
Qed.

Lemma sends_Recycle c : sends (at_ c any) (Recycle c).
Proof.
  apply sends_bind; [sends|]. intros d. destruct (dc_closed d); [apply sends_rp_Put|]. apply sends_bind.
  { apply sends_attempt. apply sends_bind; [sends|]. intros d'.
    apply sends_bind; [destruct (IsInTransaction d'); [by apply sends_exec_|sends]|]. intros _.
    apply sends_bind; [sends|]. intros d''. destruct (IsAutoCommit d''); [sends|apply sends_SetAutoCommit]. }
  intros [u|e|q]; [apply sends_rp_Put| |sends]. apply sends_bind; [apply sends_Close|]. intros _. apply sends_rp_Put.
Qed.

Lemma sends_pool_Get P cp n : sends P (pool_Get cp n).
Proof.
  assert (forall c, sends P (connect cp c)) as Hc
    by (intros c; unfold connect; apply sends_bind; [sends|]; intros [st| |]; [by apply sends_quiet|sends..]).
  unfold pool_Get. apply sends_bind; [sends|]. intros p. destruct (resources p) as [|[o u] l]; [sends|].
  apply sends_bind; [sends|]. intros _. apply sends_bind; [|intros r; sends].
  destruct o; [sends|]. apply sends_bind; [sends|]. intros p'. apply sends_bind; [sends|]. intros _.
  apply sends_bind; [apply sends_attempt, Hc|]. intros [| |]; sends.
Qed.

Lemma sends_slave_conn P n role next : sends P (slave_conn n role next).
Proof.
  apply sends_bind; [sends|]. intros [s|]; [|sends]. apply sends_bind; [by apply sends_quiet|]. intros _.
  apply sends_bind; [sends|]. intros cp. apply sends_pool_Get.
Qed.

Lemma sends_GetMasterConn P n : sends P (GetMasterConn n).
Proof. apply sends_bind; [sends|]. intros [s|]; [|sends]. destruct (Master s); [apply sends_pool_Get|sends]. Qed.

Lemma sends_GetConn P n flag u : sends P (GetConn n flag u).
Proof.
  unfold GetConn. destruct (_ =? _).
  - destruct (_ =? _); [apply sends_slave_conn|]. apply sends_bind; [apply sends_attempt, sends_slave_conn|].
    intros [c|e|q]; [sends|apply sends_GetMasterConn|sends].
  - destruct (_ =? _); [apply sends_slave_conn|apply sends_GetMasterConn].
Qed.

Lemma names_text_app s r : names_text s -> names_text (s +:+ r).
Proof. intros [t ->]. by exists (t +:+ r)%string. Qed.

Lemma names_text_key s k : names_text s -> names_text (append_key s k).
Proof. intros H. unfold append_key. by apply names_text_app. Qed.

Lemma set_statement_names_text cs col vs : names_text (set_statement cs col vs).
Proof.
  unfold set_statement. assert (names_text (appendSetCharset "" cs col)) as H by (by eexists).
  revert H. generalize (appendSetCharset "" cs col). intros b Hb.
  assert (names_text (foldl (fun buf '(_, v) => appendSetVariable buf (v_name v) (v_value v)) b (map_range (variables vs)))) as H.
  { revert b Hb. generalize (map_range (variables vs)). intros l. induction l as [|[k v] l IH]; intros b Hb; [done|].
    cbn. apply IH. unfold appendSetVariable. by apply names_text_app, names_text_key. }
  revert H. generalize (foldl (fun buf '(_, v) => appendSetVariable buf (v_name v) (v_value v)) b (map_range (variables vs))).
  clear b Hb. intros b. revert b. generalize (map_range (unused vs)). intros l.
  induction l as [|[k v] l IH]; intros b Hb; [done|]. cbn. apply IH. by apply names_text_app, names_text_key.
Qed.

Lemma names_text_plain s : names_text s -> plain (ComQuery s).
Proof. cbn. auto. Qed.

Lemma sends_initBackendConn c phy cs col vs : sends (at_ c plain) (initBackendConn c phy cs col vs).
Proof.
  apply sends_bind.
  { apply sends_bind; [sends|]. intros d. destruct (negb _); [sends|]. destruct (_ || _); [sends|].
    apply sends_bind; [by apply sends_send|sends]. }
  intros _. apply sends_bind; [unfold SetCharset; sends|]. intros b1.
  apply sends_bind; [unfold SetSessionVariables; sends|]. intros b2.
  destruct (b1 || b2); [|sends]. apply sends_bind; [sends|]. intros d. destruct (Collations !! _); [|sends].
  apply sends_bind; [sends|]. intros _. destruct (String.eqb _ _); [sends|]. apply sends_exec_.
  apply names_text_plain, set_statement_names_text.
Qed.

Lemma sends_run_sqls c sqls : Forall (fun q => plain (ComQuery q)) sqls -> sends (at_ c plain) (run_sqls c sqls).
Proof.
  induction 1 as [|q sqls Hq _ IH]; cbn [run_sqls]; [sends|]. apply sends_bind; [by apply sends_attempt, sends_exec|].
  intros r. apply sends_bind; [done|sends].
Qed.

Lemma sends_run_dbs se c dbs :
  Forall (fun d => Forall (fun q => plain (ComQuery q)) d.2) dbs -> sends (at_ c plain) (run_dbs se c dbs).
Proof.
  induction 1 as [|[d sqls] dbs Hq _ IH]; cbn [run_dbs]; [sends|].
  apply sends_bind; [apply sends_attempt, sends_initBackendConn|]. intros [u|e|q]; [|sends..].
  apply sends_bind; [by apply sends_run_sqls|]. intros rs. apply sends_bind; [done|sends].
Qed.

(** All the statements of a plan leave transactions open. *)
Definition plain_sqls (sqls : gmap string (gmap string (list string))) : Prop :=
  forall n dbs d l q, sqls !! n = Some dbs -> dbs !! d = Some l -> q ∈ l -> plain (ComQuery q).

Context {MRO : MapRangeOk MR}.

Lemma sends_run_slices (C : cid -> Prop) se sqls pcs :
  plain_sqls sqls -> Forall (fun e => C e.2) pcs -> sends (fun c m => C c /\ plain m) (run_slices se sqls pcs).
Proof.
  intros Hp. induction 1 as [|[n c] pcs Hc _ IH]; cbn [run_slices]; [sends|]. apply sends_bind.
  - eapply sends_impl; [apply sends_run_dbs|by intros c' m [-> Hm]].
    apply Forall_forall. intros [d l] H%elem_of_map_range. apply Forall_forall. intros q Hq.
    destruct (sqls !! n) as [dbs|] eqn:E; cbn in H; [by eapply (Hp n dbs d l q)|by rewrite lookup_empty in H].
  - intros rs. apply sends_bind; [done|sends].
Qed.

Lemma sends_recycle_all (C : cid -> Prop) pcs :
  Forall (fun e => C e.2) pcs -> sends (fun c m => C c /\ any m) (recycle_all pcs).
Proof.
  induction 1 as [|[n c] pcs Hc _ IH]; cbn [recycle_all]; [sends|]. apply sends_bind; [|done].
  eapply sends_impl; [apply sends_Recycle|by intros c' m [-> Hm]].
Qed.

Lemma sends_end_all (C : cid -> Prop) op pcs err :
  (forall c, sends (at_ c any) (op c)) -> Forall (fun e => C e.2) pcs -> sends (fun c m => C c /\ any m) (end_all op pcs err).
Proof.
  intros Hop Hpcs. revert err. induction Hpcs as [|[n c] pcs Hc _ IH]; intros err; cbn [end_all]; [sends|].
  assert (forall {A} (m : M World A), sends (at_ c any) m -> sends (fun c m => C c /\ any m) m) as Hi
    by (intros A m Hm; eapply sends_impl; [exact Hm|by intros c' x [-> Hx]]).
  apply sends_bind; [by apply Hi, sends_attempt|]. intros r. apply sends_bind; [apply Hi, sends_Recycle|]. done.
Qed.

Lemma plain_begin : plain (ComQuery "begin").
Proof. left. by left. Qed.

Lemma sends_begin_all (C : cid -> Prop) pcs :
  Forall (fun e => C e.2) pcs -> sends (fun c m => C c /\ plain m) (begin_all pcs).
Proof.
  induction 1 as [|[n c] pcs Hc _ IH]; cbn [begin_all]; [sends|]. apply sends_bind; [|done].
  eapply sends_impl; [apply sends_exec_, plain_begin|by intros c' m [-> Hm]].
Qed.
End commands.

#[export] Instance alive_dials (SV : Server) : Alive SV -> Dials SV.
Proof. intros H l c m e. apply H. Qed.

(** * Sessions *)

Section frames.
Context {CT : ClientText}.

(** Every connection of the transaction is in a transaction of its server. *)
Definition open_tx (s : State) : Prop := forall c, c ∈ own (session s) -> tx_open (log (world s)) c.

(** What was said since was said on connections that are not in [F]. *)
Definition framed (F : gset cid) (s s' : State) : Prop :=
  exists l, log (world s') = log (world s) ++ l /\ Forall (fun e => e.1 ∉ F) l.

Lemma framed_refl F s : framed F s s.
Proof. exists []. by rewrite app_nil_r. Qed.

Lemma framed_trans F s1 s2 s3 : framed F s1 s2 -> framed F s2 s3 -> framed F s1 s3.
Proof.
  intros (l1 & E1 & H1) (l2 & E2 & H2). exists (l1 ++ l2). rewrite E2, E1, <- app_assoc. split; [done|by apply Forall_app].
Qed.

(** The other connections stay in their transactions. *)
Lemma framed_tx_open F s s' c : framed F s s' -> c ∈ F -> tx_open (log (world s)) c -> tx_open (log (world s')) c.
Proof.
  intros (l & -> & H) Hc Ht. apply tx_open_app; [done|]. eapply Forall_impl; [exact H|]. cbn. intros e He <-. done.
Qed.

End frames.

Section sessions.
Context {CT : ClientText} {SN : SliceNames} {SV : Server} {MR : MapRange} {MRO : MapRangeOk MR} {AL : Alive SV}.

Definition spoken {A : Type} (F : gset cid) (m : M State A) : Prop :=
  forall s, sinv F s -> open_tx s -> sinv F (m s).1 /\ open_tx (m s).1 /\ framed F s (m s).1.

Lemma spoken_bind {A B : Type} F (m : M State A) (f : A -> M State B) :
  spoken F m -> (forall a, spoken F (f a)) -> spoken F (bind m f).
Proof.
  intros Hm Hf s Hs Ho. unfold bind. destruct (Hm s Hs Ho) as (H1 & H2 & H3).
  destruct (m s) as [s' [a| |]]; cbn in *; [|done..]. destruct (Hf a s' H1 H2) as (H4 & H5 & H6).
  split_and!; [done|done|by eapply framed_trans].
Qed.
Lemma spoken_same {A : Type} F (m : M State A) : (forall s, (m s).1 = s) -> spoken F m.
Proof. intros H s Hs Ho. rewrite H. split_and!; [done|done|apply framed_refl]. Qed.
Lemma spoken_ret {A : Type} F (a : A) : spoken F (ret a).
Proof. by apply spoken_same. Qed.
Lemma spoken_fail {A : Type} F e : spoken F (fail e : M State A).
Proof. by apply spoken_same. Qed.
Lemma spoken_panic {A : Type} F e : spoken F (panic e : M State A).
Proof. by apply spoken_same. Qed.
Lemma spoken_gets {A : Type} F (f : State -> A) : spoken F (gets f).
Proof. by apply spoken_same. Qed.
Lemma spoken_of_outcome {A : Type} F (o : outcome A) : spoken F (of_outcome o).
Proof. by apply spoken_same. Qed.
Lemma spoken_wrapping {A : Type} F fmt (m : M State A) : spoken F m -> spoken F (wrapping fmt m).
Proof. intros Hm s Hs Ho. unfold wrapping. specialize (Hm s Hs Ho). by destruct (m s). Qed.
Lemma spoken_attempt {A : Type} F (m : M State A) : spoken F m -> spoken F (attempt m).
Proof. intros Hm s Hs Ho. unfold attempt. specialize (Hm s Hs Ho). by destruct (m s) as [? []]. Qed.

(** Nothing is said, and the connections stay. *)
Lemma spoken_kept {A : Type} F (m : M State A) :
  kept F m -> (forall s, log (world (m s).1) = log (world s) /\ txConns (session (m s).1) = txConns (session s)) -> spoken F m.
Proof.
  intros Hk Hm s Hs Ho. specialize (Hk s Hs). destruct (Hm s) as [H1 H2].
  split_and!; [done| |exists []; by rewrite app_nil_r].
  intros c. unfold own. rewrite H1, H2. apply Ho.
Qed.

Lemma session_spoken F f :
  (forall se, txConns (f se) = txConns se /\ status (f se) = status se) -> spoken F (update f).
Proof. intros Hf. apply spoken_kept; [by apply session_kept|]. intros s. split; [done|apply Hf]. Qed.

(** ** The end of a transaction *)

Lemma spoken_cleared {A : Type} F (m : M State A) :
  kept F m -> (forall s, sinv F s -> txConns (session (m s).1) = ∅ /\ framed F s (m s).1) -> spoken F m.
Proof.
  intros Hk Hm s Hs _. specialize (Hk s Hs). destruct (Hm s Hs) as [H1 H2]. split_and!; [done| |done].
  intros c. rewrite (own_empty _ H1). set_solver.
Qed.

Lemma own_Forall s : Forall (fun e => e.2 ∈ own (session s)) (map_range (txConns (session s))).
Proof. apply Forall_forall. intros [n c] H%elem_of_map_range. apply elem_of_own. by exists n. Qed.

Lemma end_framed F s op err :
  sinv F s -> (forall c, sends (at_ c any) (op c)) -> 
  exists l, log (end_all op (map_range (txConns (session s))) err (world s)).1 = log (world s) ++ l /\ Forall (fun e => e.1 ∉ F) l.
Proof.
  intros Hs Hop. destruct (sends_end_all (fun c => c ∈ own (session s)) op _ err Hop (own_Forall s) (world s)) as (l & E & Hl).
  exists l. split; [done|]. eapply Forall_impl; [exact Hl|]. intros [c m] [Hc _] Hf. by apply (si_frame _ _ Hs c).
Qed.

Lemma finish_spoken F op f :
  (forall c, calm c (op c)) -> (forall c, sends (at_ c any) (op c)) -> (forall se, txConns (f se) = txConns se) ->
  spoken F (update f ;;* end_transaction op).
Proof.
  intros Hcalm Hop Hf. apply spoken_cleared; [by apply finish_kept|]. intros s Hs.
  destruct (end_framed F s op None Hs Hop) as (l & E & Hl). destruct (end_all_sinv F s op None Hs Hcalm) as (w & e & E' & _).
  unfold end_transaction, update, modify, bind, gets, onw, on. cbn. rewrite Hf. rewrite E' in *.
  destruct e; cbn; (split; [done|]; by exists l).
Qed.

Lemma end_transaction_spoken F op :
  (forall c, calm c (op c)) -> (forall c, sends (at_ c any) (op c)) -> spoken F (end_transaction op).
Proof.
  intros Hcalm Hop. apply spoken_cleared; [by apply end_transaction_kept|]. intros s Hs.
  destruct (end_framed F s op None Hs Hop) as (l & E & Hl). destruct (end_all_sinv F s op None Hs Hcalm) as (w & e & E' & _).
  unfold end_transaction, update, modify, bind, gets, onw, on. cbn. rewrite E' in *.
  destruct e; cbn; (split; [done|]; by exists l).
Qed.

Lemma commit_spoken F : spoken F commit.
Proof. apply finish_spoken; [apply calm_Commit|intros c; by apply sends_exec_|done]. Qed.
Lemma rollback_spoken F : spoken F rollback.
Proof. apply finish_spoken; [apply calm_Rollback|intros c; by apply sends_exec_|done]. Qed.
Lemma rollbackTo_spoken F n : spoken F (rollbackTo n).
Proof. apply end_transaction_spoken; [intros c; apply calm_RollbackTo|intros c; by apply sends_exec_]. Qed.
Lemma savepoint_spoken F n : spoken F (savepoint n).
Proof. apply end_transaction_spoken; [intros c; apply calm_Savepoint|intros c; by apply sends_exec_]. Qed.

Lemma handleSetAutoCommit_spoken F b : spoken F (handleSetAutoCommit b).
Proof.
  destruct b; [|apply spoken_kept; [apply handleSetAutoCommit_kept|done]].
  apply spoken_cleared; [apply handleSetAutoCommit_kept|]. intros s Hs.
  pose proof (fun c => sends_SetAutoCommit c 1) as Hop. pose proof (fun c => calm_SetAutoCommit c 1) as Hcalm.
  destruct (end_framed F s _ None Hs Hop) as (l & E & Hl). destruct (end_all_sinv F s _ None Hs Hcalm) as (w & e & E' & _).
  unfold handleSetAutoCommit, update, modify, bind, gets, onw, on. cbn. rewrite E' in *.
  destruct e; cbn; (split; [done|]; by exists l).
Qed.

(** Commands on the connections of the transaction that leave it open. *)
Lemma open_plain s w l :
  open_tx s -> log w = log (world s) ++ l -> Forall (fun e => e.1 ∈ own (session s) -> plain e.2) l ->
  forall c, c ∈ own (session s) -> tx_open (log w) c.
Proof.
  intros Ho E Hl c Hc. rewrite E. apply tx_open_app; [by apply Ho|]. eapply Forall_impl; [exact Hl|]. cbn. intros e He <-. auto.
Qed.

Lemma handleBegin_spoken F : spoken F handleBegin.
Proof.
  intros s Hs Ho. split; [by apply handleBegin_kept|].
  destruct (sends_begin_all (fun c => c ∈ own (session s)) _ (own_Forall s) (world s)) as (l & E & Hl).
  unfold handleBegin, bind, gets, onw, on, update, modify. cbn beta iota.
  assert (Forall (fun e => e.1 ∉ F) l) as Hf.
  { eapply Forall_impl; [exact Hl|]. intros [c m] [Hc _] Hf. by apply (si_frame _ _ Hs c). }
  assert (Forall (fun e => e.1 ∈ own (session s) -> plain e.2) l) as Hp by (eapply Forall_impl; [exact Hl|]; by intros e [_ ?]).
  destruct (begin_all _ (world s)) as [w [u| |]]; cbn in E |- *; (split; [|by exists l]); exact (open_plain s w l Ho E Hp).
Qed.

(** ** Getting connections *)

Lemma quiet_log {A} (m : M World A) w : sends (fun _ _ => False) m -> log (m w).1 = log w.
Proof. intros H. destruct (H w) as ([|e l] & E & Hl); [by rewrite app_nil_r in E|]. by apply Forall_cons in Hl as [[] _]. Qed.

(** What a connection that is not of the transaction is told leaves the others alone. *)
Lemma told_framed F s w c l se g :
  log w = log (world s) ++ l -> Forall (fun e => at_ c any e.1 e.2) l -> c ∉ F -> framed F s (mkState w se g).
Proof. intros E Hl Hc. exists l. split; [done|]. eapply Forall_impl; [exact Hl|]. by intros e [-> _]. Qed.

Lemma told_open s w c l :
  open_tx s -> log w = log (world s) ++ l -> Forall (fun e => at_ c any e.1 e.2) l -> c ∉ own (session s) ->
  forall c', c' ∈ own (session s) -> tx_open (log w) c'.
Proof.
  intros Ho E Hl Hc. eapply open_plain; [done|done|]. eapply Forall_impl; [exact Hl|]. intros e [-> _] H. done.
Qed.

(** The command that opens a transaction. *)
Lemma opens_tx c (b : bool) w w1 :
  (if b then Begin c else SetAutoCommit c 0) w = (w1, Ret tt) -> tx_open (log w1) c.
Proof.
  assert (forall q r w0, exec c q w = (w0, Ret r) -> opening (ComQuery q) -> tx_open (log w0) c) as He.
  { intros q r w0 (d & _ & _ & _ & ->)%exec_Ret Hq. cbn [log set_conn logged]. by apply tx_open_snoc. }
  destruct b; [unfold Begin, bind|unfold SetAutoCommit, bind, attempt; cbn [Z.eqb]]; intros H.
  - destruct (exec c "begin" w) as [w0 [r| |]] eqn:E; [|done..]. injection H as <-. eapply He; [done|by left].
  - destruct (exec c "set autocommit = 0" w) as [w0 [r|e|]] eqn:E; [|destruct (conn_Close c w0) as [? []]; done|done].
    injection H as <-. eapply He; [done|by right].
Qed.

Lemma own_insert s n c : own (set_txConns (session s) (<[n := c]> (txConns (session s)))) ⊆ {[c]} ∪ own (session s).
Proof.
  intros x. unfold own. cbn. rewrite elem_of_union, elem_of_singleton, !elem_of_map_img. intros [k Hk].
  apply lookup_insert_Some in Hk as [[_ <-]|[_ Hk]]; [by left|right; by exists k].
Qed.

(** The state that is left, whatever the outcome. *)
Definition heard {A : Type} (F : gset cid) (s : State) (r : State * outcome A) : Prop := open_tx r.1 /\ framed F s r.1.

Lemma told_heard {A : Type} F s w c l (o : outcome A) :
  open_tx s -> log w = log (world s) ++ l -> Forall (fun e => at_ c any e.1 e.2) l -> c ∉ own (session s) ∪ F ->
  heard F s (mkState w (session s) (ProcessGeneralLog s), o).
Proof.
  intros Ho E Hl Hc. split; [exact (told_open s w c l Ho E Hl ltac:(set_solver))|].
  eapply told_framed; [exact E|exact Hl|set_solver].
Qed.

Lemma getTransactionConn_spoken F s n : sinv F s -> open_tx s -> heard F s (getTransactionConn n s).
Proof.
  intros Hs Ho. unfold getTransactionConn, bind at 1, gets. cbn beta.
  destruct (txConns (session s) !! n) as [pc|]; [split; [done|apply framed_refl]|].
  pose proof (GetMasterConn_ok n (world s) _ (si_inv _ _ Hs)) as Hg.
  pose proof (quiet_log (GetMasterConn n) (world s) (sends_GetMasterConn _ n)) as Hq.
  unfold bind, attempt, onw, on, update, modify.
  destruct (GetMasterConn n (world s)) as [w1 [c| |]]; cbn in Hg, Hq |- *;
    [|split; [intros c; cbn; rewrite Hq; apply Ho|exists []; by rewrite app_nil_r]..].
  destruct Hg as [Hc _]. set (op := if isAutoCommit (session s) then Begin c else SetAutoCommit c 0).
  assert (sends (at_ c any) op) as Hop by (unfold op; destruct (isAutoCommit _); [by apply sends_exec_|apply sends_SetAutoCommit]).
  destruct (Hop w1) as (l & E & Hl). rewrite Hq in E. pose proof (opens_tx c (isAutoCommit (session s)) w1) as Htx. fold op in Htx.
  destruct (op w1) as [w2 [u|e|q]]; cbn in E |- *.
  - split; [|eapply told_framed; [done|done|set_solver]]. intros x Hx%own_insert. cbn.
    apply elem_of_union in Hx as [->%elem_of_singleton|Hx]; [destruct u; by apply (Htx w2)|].
    eapply told_open; [done|done|done|set_solver|done].
  - destruct (sends_Close c w2) as (l2 & E2 & Hl2). destruct (Close c w2) as [w3 o3]. cbn in E2.
    assert (exists l', log (match o3 with Ret _ => Recycle c w3 | _ => (w3, o3) end).1 = log (world s) ++ l' /\
      Forall (fun e => at_ c any e.1 e.2) l') as (l' & E' & Hl').
    { rewrite E in E2. destruct o3 as [u| |]; [|exists (l ++ l2); rewrite app_assoc; split; [done|by apply Forall_app]..].
      destruct (sends_Recycle c w3) as (l3 & E3 & Hl3). exists (l ++ l2 ++ l3). rewrite E3, E2, !app_assoc.
      split; [done|]. by rewrite !Forall_app. }
    destruct o3 as [u| |]; cbn in E' |- *.
    1: destruct (Recycle c w3) as [w4 [| |]]; cbn in E' |- *.
    all: exact (told_heard F s _ c l' _ Ho E' Hl' Hc).
  - exact (told_heard F s w2 c l _ Ho E Hl Hc).
Qed.

Lemma getBackendConn_spoken ns F n flag s : sinv F s -> open_tx s -> heard F s (getBackendConn ns n flag s).
Proof.
  intros Hs Ho. unfold getBackendConn, bind at 1, gets. cbn beta.
  destruct (isInTransaction (session s)) eqn:Htx; [by apply getTransactionConn_spoken|].
  unfold bind, of_outcome. destruct (GetUserProperty _ _) as [u| |]; cbn; [|split; [done|apply framed_refl]..].
  pose proof (quiet_log (GetConn n flag (up_OtherProperty u)) (world s) (sends_GetConn _ _ _ _)) as Hq.
  unfold onw, on. destruct (GetConn _ _ _ (world s)) as [w o]. cbn in Hq |- *.
  split; [intros c; cbn; rewrite Hq; apply Ho|exists []; by rewrite app_nil_r].
Qed.

(** ** Statements *)

(** What a statement says on its connection. *)
Definition says {A : Type} (c : cid) (m : M State A) : Prop :=
  forall s, exists l, log (world (m s).1) = log (world s) ++ l /\ Forall (fun e => at_ c plain e.1 e.2) l.

Lemma says_bind {A B : Type} c (m : M State A) (f : A -> M State B) : says c m -> (forall a, says c (f a)) -> says c (bind m f).
Proof.
  intros Hm Hf s. destruct (Hm s) as (l & E & Hl). unfold bind. destruct (m s) as [s' [a| |]]; cbn in *; [|by exists l..].
  destruct (Hf a s') as (l' & E' & Hl'). exists (l ++ l'). rewrite E', E, <- app_assoc. split; [done|by apply Forall_app].
Qed.
Lemma says_same {A : Type} c (m : M State A) : (forall s, (m s).1 = s) -> says c m.
Proof. intros H s. exists []. by rewrite H, app_nil_r. Qed.
Lemma says_onw {A : Type} c (m : M World A) : sends (at_ c plain) m -> says c (onw m).
Proof. intros Hm s. destruct (Hm (world s)) as (l & E & Hl). exists l. unfold onw, on. by destruct (m (world s)). Qed.

Lemma recycle_framed F c s : c ∉ F -> framed F s (recycleBackendConn c s).1 /\ session (recycleBackendConn c s).1 = session s.
Proof.
  intros Hc. unfold recycleBackendConn, bind, gets. cbn beta. destruct (isInTransaction _); [split; [apply framed_refl|done]|].
  destruct (sends_Recycle c (world s)) as (l & E & Hl). unfold onw, on. destruct (Recycle c (world s)) as [w o].
  split; [|done]. by eapply told_framed.
Qed.

Lemma open_empty s : txConns (session s) = ∅ -> open_tx s.
Proof. intros H c. rewrite (own_empty _ H). set_solver. Qed.

Lemma deferred_eq {S A : Type} (m : M S A) (d : M S unit) s : (deferred m d s).1 = (d (m s).1).1.
Proof. unfold deferred. destruct (m s) as [s1 o]. cbn. by destruct (d s1) as [s2 []]. Qed.

Lemma in_tx_of_own F s c : sinv F s -> c ∈ own (session s) -> isInTransaction (session s) = true.
Proof.
  intros Hs Hc. destruct (isInTransaction (session s)) eqn:E; [done|].
  rewrite (own_empty _ (si_tx _ _ Hs E)) in Hc. set_solver.
Qed.

Lemma with_conn_spoken {A : Type} ns F n flag (body : cid -> M State A) :
  (forall c, body_ok c (body c)) -> (forall c, says c (body c)) ->
  spoken F (bind (getBackendConn ns n flag) (fun c => deferred (body c) (recycleBackendConn c))).
Proof.
  intros Hb Hsay s Hs Ho. split; [by apply with_conn_kept|].
  pose proof (getBackendConn_ok ns F s n flag Hs) as Hg. destruct (getBackendConn_spoken ns F n flag s Hs Ho) as [Ho1 Hf1].
  unfold bind. destruct (getBackendConn ns n flag s) as [s1 o]. unfold stmt_got in Hg. cbn [fst snd] in *.
  destruct o as [c| |]; [|done..]. rewrite deferred_eq.
  assert (exists out, sinv out s1 /\ c ∈ own (session s1) ∪ out /\ (c ∉ F) /\
    (c ∈ own (session s1) \/ txConns (session s1) = ∅)) as (out & Hs1 & Hc & HcF & Hown).
  { destruct (isInTransaction (session s)) eqn:Htx.
    - destruct Hg as (H1 & _ & H3). cbn in *. assert (c ∈ own (session s1)) as Hc by (apply elem_of_own; by exists n).
      exists F. split_and!; [done|set_solver| |by left]. intros Hf. by apply (si_frame _ _ H1 c).
    - destruct Hg as [H1 [H2 H3]]. exists ({[c]} ∪ F). split_and!; [done|set_solver|done|right]. rewrite H1. by apply (si_tx _ _ Hs). }
  destruct (Hb c out s1 Hs1 Hc) as [_ Hse]. destruct (Hsay c s1) as (l & E & Hl). destruct (body c s1) as [s2 o2]. cbn in Hse, E. cbn [fst].
  destruct (recycle_framed F c s2 HcF) as [Hf3 Hse3].
  assert (framed F s1 s2) as Hf2.
  { exists l. split; [done|]. eapply Forall_impl; [exact Hl|]. by intros e [-> _]. }
  split; [|by do 2 (eapply framed_trans; [eassumption|])].
  destruct Hown as [Hown|He]; [|apply open_empty; by rewrite Hse3, Hse].
  assert (isInTransaction (session s2) = true) as Htx2 by (rewrite Hse; by eapply in_tx_of_own).
  unfold recycleBackendConn, bind, gets. cbn beta. rewrite Htx2. cbn [ret fst]. intros x Hx. rewrite Hse in Hx.
  apply (open_plain s1 (world s2) l Ho1 E); [|done]. eapply Forall_impl; [exact Hl|]. by intros e [_ ?].
Qed.

Lemma ExecuteSQL_spoken ns F flag sl d sql : plain (ComQuery sql) -> spoken F (ExecuteSQL ns flag sl d sql).
Proof.
  intros Hq. apply with_conn_spoken; intros c.
  - apply body_bind; [apply body_gets|]. intros se. apply body_bind; [apply body_of_outcome|]. intros phy.
    apply body_bind; [apply body_onw, keeps_initBackendConn|]. intros _. apply body_onw, calm_keeps, calm_exec.
  - apply says_bind; [by apply says_same|]. intros se. apply says_bind; [by apply says_same|]. intros phy.
    apply says_bind; [apply says_onw, sends_initBackendConn|]. intros _. by apply says_onw, sends_exec.
Qed.

(** The loop over the slices. *)
Lemma get_conns_framed ns F flag names pcs s :
  sinv F s -> open_tx s -> isInTransaction (session s) = true -> heard F s (get_conns ns flag names pcs s).
Proof.
  revert pcs s. induction names as [|n names IH]; intros pcs s Hs Ho Htx; cbn [get_conns]; [split; [done|apply framed_refl]|].
  pose proof (getBackendConn_ok ns F s n flag Hs) as Hg. unfold stmt_got in Hg. rewrite Htx in Hg.
  destruct (getBackendConn_spoken ns F n flag s Hs Ho) as [Ho1 Hf1]. unfold bind, attempt.
  destruct (getBackendConn ns n flag s) as [s1 o]. destruct Hg as (H1 & H2 & _). cbn in H1, H2, Ho1, Hf1.
  destruct o as [c|e|q]; [|by split..].
  destruct (IH (<[n := c]> pcs) s1 H1 Ho1) as [H3 H4]; [unfold isInTransaction, isAutoCommit in *; by rewrite H2|].
  split; [exact H3|by eapply framed_trans].
Qed.

Lemma get_conns_quiet ns flag names pcs s :
  isInTransaction (session s) = false -> log (world (get_conns ns flag names pcs s).1) = log (world s).
Proof.
  revert pcs s. induction names as [|n names IH]; intros pcs s Htx; cbn [get_conns]; [done|].
  unfold bind at 1, attempt, getBackendConn, bind at 1, gets. cbn beta. rewrite Htx. unfold bind, of_outcome.
  destruct (GetUserProperty _ _) as [u| |]; cbn; [|done..].
  pose proof (quiet_log (GetConn n flag (up_OtherProperty u)) (world s) (sends_GetConn _ _ _ _)) as Hq.
  unfold onw, on. destruct (GetConn _ _ _ (world s)) as [w [c|e|q]]; cbn in Hq |- *; [|done..].
  rewrite IH by done. done.
Qed.

Lemma get_conns_session ns flag names pcs s :
  isInTransaction (session s) = false -> session (get_conns ns flag names pcs s).1 = session s.
Proof.
  revert pcs s. induction names as [|n names IH]; intros pcs s Htx; cbn [get_conns]; [done|].
  unfold bind at 1, attempt, getBackendConn, bind at 1, gets. cbn beta. rewrite Htx. unfold bind, of_outcome.
  destruct (GetUserProperty _ _) as [u| |]; cbn; [|done..].
  unfold onw, on. destruct (GetConn _ _ _ (world s)) as [w [c|e|q]]; cbn; [|done..].
  by rewrite IH.
Qed.

Lemma run_framed (F : gset cid) (pcs : gmap string cid) sqls s :
  plain_sqls sqls -> (forall c, c ∈ (map_img pcs : gset cid) -> c ∉ F) -> 
  exists l, log (world (executeInMultiSlices pcs sqls s).1) = log (world s) ++ l /\
    Forall (fun e => e.1 ∉ F) l /\ Forall (fun e => plain e.2) l.
Proof.
  intros Hp Hc. unfold executeInMultiSlices.
  destruct (negb _); [exists []; by rewrite app_nil_r|]. destruct (_ =? _)%nat; [exists []; by rewrite app_nil_r|].
  unfold bind at 1, gets. cbn beta iota.
  destruct (sends_run_slices (fun c => c ∈ (map_img pcs : gset cid)) (session s) sqls (map_range pcs) Hp) with (w := world s) as (l & E & Hl).
  { apply Forall_forall. intros [n c] H%elem_of_map_range. apply elem_of_map_img. by exists n. }
  exists l. split; [|split; (eapply Forall_impl; [exact Hl|]; intros e [? ?]; auto)].
  unfold bind, of_outcome, onw, on. by destruct (run_slices _ _ _ (world s)) as [w [| |]].
Qed.

Lemma recycles_framed (F : gset cid) (pcs : gmap string cid) s :
  (forall c, c ∈ (map_img pcs : gset cid) -> c ∉ F) -> framed F s (recycleBackendConns pcs s).1.
Proof.
  intros Hc. unfold recycleBackendConns, bind, gets. cbn beta. destruct (isInTransaction _); [apply framed_refl|].
  destruct (sends_recycle_all (fun c => c ∈ (map_img pcs : gset cid)) (map_range pcs)) with (w := world s) as (l & E & Hl).
  { apply Forall_forall. intros [n c] H%elem_of_map_range. apply elem_of_map_img. by exists n. }
  exists l. unfold onw, on. destruct (recycle_all _ (world s)) as [w o]. split; [exact E|].
  eapply Forall_impl; [exact Hl|]. intros e [? _]. auto.
Qed.

Lemma recycles_session (pcs : gmap string cid) s : session (recycleBackendConns pcs s).1 = session s.
Proof.
  unfold recycleBackendConns, bind, gets. cbn beta. destruct (isInTransaction _); [done|].
  unfold onw, on. by destruct (recycle_all _ (world s)).
Qed.

(** The connections the loop got: those of the transaction, or new ones. *)
Lemma getBackendConns_spoken {A : Type} ns F s (sqls : gmap string A) flag :
  sinv F s -> open_tx s -> heard F s (getBackendConns ns sqls flag s).
Proof.
  intros Hs Ho. unfold getBackendConns. destruct (isInTransaction (session s)) eqn:Htx; [by apply get_conns_framed|].
  pose proof (get_conns_quiet ns flag (map_range sqls).*1 ∅ s Htx) as Hq.
  assert (session (get_conns ns flag (map_range sqls).*1 ∅ s).1 = session s) as Hse by (by apply get_conns_session).
  destruct (get_conns _ _ _ _ s) as [s1 o]. cbn in Hq, Hse. split; cbn.
  - intros c. rewrite Hse, Hq. apply Ho.
  - exists []. by rewrite app_nil_r.
Qed.

(** What a statement on many slices says between getting and recycling. *)
Lemma multi_heard F s1 pcs sqls (oe : option error) :
  plain_sqls sqls -> (forall c, c ∈ (map_img pcs : gset cid) -> c ∉ F) -> open_tx s1 ->
  session (executeInMultiSlices pcs sqls s1).1 = session s1 ->
  heard F s1 (match oe with Some e => fail e | None => executeInMultiSlices pcs sqls end s1) /\
  session (match oe with Some e => fail e | None => executeInMultiSlices pcs sqls end s1).1 = session s1.
Proof.
  intros Hp Hc Ho Hse. destruct oe as [e|]; [by split; [split; [|apply framed_refl]|]|]. split; [|done].
  destruct (run_framed F pcs sqls s1 Hp Hc) as (l & E & Hl1 & Hl2).
  destruct (executeInMultiSlices pcs sqls s1) as [s2 o2]. cbn in Hse, E. split; cbn; [|by exists l].
  intros c Hown. rewrite Hse in Hown. apply (open_plain s1 (world s2) l Ho E); [|done].
  eapply Forall_impl; [exact Hl2|]. auto.
Qed.

Lemma ExecuteSQLs_spoken ns F flag sqls : known sqls -> plain_sqls sqls -> spoken F (ExecuteSQLs ns flag sqls).
Proof.
  intros Hk Hp s Hs Ho. split; [by apply ExecuteSQLs_kept|]. enough (heard F s (ExecuteSQLs ns flag sqls s)) by done.
  unfold ExecuteSQLs. destruct (_ =? _)%nat; [split; [done|apply framed_refl]|]. unfold bind.
  pose proof (getBackendConns_ok ns F s sqls flag Hs Hk) as Hg. unfold loop_got in Hg.
  destruct (getBackendConns_spoken ns F s sqls flag Hs Ho) as [Ho1 Hf1].
  destruct (getBackendConns ns sqls flag s) as [s1 [[pcs oe]| |]]; cbn [fst snd] in *; [|by split..].
  assert (exists out, sinv out s1 /\ map_img pcs ⊆ own (session s1) ∪ out /\ (forall c, c ∈ (map_img pcs : gset cid) -> c ∉ F))
    as (out & Hs1 & Hin & HF).
  { destruct (isInTransaction (session s)) eqn:Htx.
    - destruct Hg as (H1 & _ & H3 & _). exists F. split_and!; [done|set_solver|]. intros c Hc Hf. by apply (si_frame _ _ H1 c); [apply H3|].
    - destruct Hg as (H1 & _ & H2 & H3). exists (map_img pcs ∪ F). split_and!; [done|set_solver|set_solver]. }
  destruct (executeInMultiSlices_ok out s1 pcs sqls Hs1 Hin) as [_ Hse].
  destruct (multi_heard F s1 pcs sqls oe Hp HF Ho1 Hse) as [[Ho2 Hf2] Hse2].
  unfold heard. rewrite deferred_eq. destruct (match oe with Some e => fail e | None => _ end s1) as [s2 o2]. cbn [fst] in *.
  pose proof (recycles_session pcs s2) as Hse3. pose proof (recycles_framed F pcs s2 HF) as Hf3.
  split; [|by do 2 (eapply framed_trans; [eassumption|])].
  destruct (isInTransaction (session s2)) eqn:Htx2.
  - unfold recycleBackendConns, bind, gets. cbn beta. by rewrite Htx2.
  - apply open_empty. rewrite Hse3, Hse2. apply (si_tx _ _ Hs1). by rewrite <- Hse2.
Qed.

(** ** Requests *)

Context {FE : FloatE} {HL : HighLetters}.

Lemma spoken_then {A B : Type} F (m : M State A) (b : B) : spoken F m -> spoken F (m ;;* ret b).
Proof. intros H. apply spoken_bind; [done|]. intros _. apply spoken_ret. Qed.

Lemma set_variable_spoken F n v (o : SessionExecutor -> outcome SessionVariables) :
  spoken F (if String.eqb (ToLower v) KeywordDefault
            then update (fun se => set_variables se (Delete (sessionVariables se) n))
            else let* se := gets session in let* vs := of_outcome (o se) in update (fun se => set_variables se vs)).
Proof.
  destruct (String.eqb _ _); [by apply session_spoken|].
  apply spoken_bind; [apply spoken_gets|]. intros se. apply spoken_bind; [apply spoken_of_outcome|]. intros vs. by apply session_spoken.
Qed.

Lemma setIntSessionVariable_spoken F n v : spoken F (setIntSessionVariable n v).
Proof.
  unfold setIntSessionVariable. destruct (String.eqb _ _); [by apply session_spoken|].
  apply spoken_bind; [apply spoken_of_outcome|]. intros z.
  apply spoken_bind; [apply spoken_gets|]. intros se. apply spoken_bind; [apply spoken_of_outcome|]. intros vs. by apply session_spoken.
Qed.

Lemma setGeneralLogVariable_spoken F v : spoken F (setGeneralLogVariable v).
Proof.
  apply spoken_kept; [apply setGeneralLogVariable_kept|]. intros s. unfold setGeneralLogVariable. by destruct (Atoi v).
Qed.

Lemma handleSetVariable_spoken ns F v : spoken F (handleSetVariable ns v).
Proof.
  assert (forall o cs, spoken F (bind (of_outcome o) (fun col => update (fun se => set_charset se cs col)))) as Hcs.
  { intros o cs. apply spoken_bind; [apply spoken_of_outcome|]. intros col. by apply session_spoken. }
  assert (forall n v, spoken F (setStringSessionVariable n v)) as Hstr.
  { intros n t. apply (set_variable_spoken F n t (fun se => Set_ (sessionVariables se) n (GString t))). }
  unfold handleSetVariable. repeat case_match;
    first [apply spoken_fail|apply spoken_ret|by apply session_spoken|apply Hcs|apply handleSetAutoCommit_spoken
          |apply Hstr|apply setIntSessionVariable_spoken|apply setGeneralLogVariable_spoken].
Qed.

Lemma handleSet_spoken ns F vs : spoken F (handleSet ns vs).
Proof. induction vs as [|v vs IH]; [apply spoken_ret|]. apply spoken_bind; [apply handleSetVariable_spoken|done]. Qed.

Lemma handleUseDB_spoken ns F d : spoken F (handleUseDB ns d).
Proof.
  unfold handleUseDB. destruct (String.eqb _ _); [apply spoken_fail|].
  destruct (IsAllowedDB ns d); [by apply session_spoken|apply spoken_fail].
Qed.

Lemma handleShow_spoken ns F sql tp : plain (ComQuery sql) -> spoken F (handleShow ns sql tp).
Proof.
  intros Hp. unfold handleShow. repeat case_match; try apply spoken_ret;
    (apply spoken_bind; [apply spoken_gets|intros ?]); try apply spoken_ret;
    (apply spoken_bind; [by apply spoken_wrapping, ExecuteSQL_spoken|intros ?]);
    (apply spoken_bind; [apply spoken_gets|intros ?]); apply spoken_ret.
Qed.

(** The statements of a plan. *)
Definition plan_plain (p : Plan) : Prop :=
  match p with
  | SelectPlan_ sqls _ _ | InsertPlan_ sqls | ModifyPlan_ sqls => plain_sqls sqls
  | UnshardPlan _ sql _ => plain (ComQuery sql)
  | _ => True
  end.

(** What the parser takes for SHOW and the statements of plans are statements of clients. *)
Class PlainText (parse : string -> outcome statement) (getPlan : string -> string -> outcome (Plan * list string)) := {
  show_plain : forall sql tp, parse sql = Ret (ShowStmt tp) -> plain (ComQuery sql);
  plans_plain : forall d sql p ts, getPlan d sql = Ret (p, ts) -> plan_plain p;
}.

Lemma record_id_spoken F r : spoken F (record_id r).
Proof. unfold record_id. destruct (_ =? _); [apply spoken_ret|by apply session_spoken]. Qed.

Lemma ExecuteIn_spoken ns F flag p : plan_known p -> plan_plain p -> spoken F (ExecuteIn ns flag p).
Proof.
  intros Hk Hp. destruct p as [sqls em mg|sqls|sqls|d sql ins| |r]; cbn [ExecuteIn].
  - destruct (_ =? _)%nat.
    { apply spoken_bind; [apply spoken_of_outcome|]. intros r. apply spoken_ret. }
    apply spoken_bind; [by apply spoken_wrapping, ExecuteSQLs_spoken|]. intros rs.
    apply spoken_bind; [apply spoken_of_outcome|]. intros r. apply spoken_ret.
  - apply spoken_bind; [by apply spoken_wrapping, ExecuteSQLs_spoken|]. intros rs. apply spoken_then, record_id_spoken.
  - destruct (_ =? _)%nat; [apply spoken_ret|]. apply spoken_bind; [by apply spoken_wrapping, ExecuteSQLs_spoken|].
    intros rs. apply spoken_ret.
  - apply spoken_bind; [by apply ExecuteSQL_spoken|]. intros r. apply spoken_then.
    destruct ins; [apply record_id_spoken|apply spoken_ret].
  - apply spoken_bind; [apply spoken_gets|]. intros se. apply spoken_ret.
  - apply spoken_ret.
Qed.

Section requests.
Context (ns : Namespace) (parse : string -> outcome statement).
Context (getPlan : string -> string -> outcome (Plan * list string)) {PL : Plans getPlan} {PT : PlainText parse getPlan}.

Lemma spoken_of {A B : Type} F (o : outcome A) (f : A -> M State B) :
  (forall a, o = Ret a -> spoken F (f a)) -> spoken F (bind (of_outcome o) f).
Proof. intros H s Hs Ho. unfold bind, of_outcome. destruct o as [a| |]; [by apply H|split_and!; [done|done|apply framed_refl]..]. Qed.

Lemma handleQueryWithoutPlan_spoken F sql : spoken F (handleQueryWithoutPlan ns parse sql).
Proof.
  apply spoken_of. intros n Hn%wrap_Ret. destruct n; try apply spoken_then; try apply spoken_fail.
  - apply spoken_bind; [apply handleShow_spoken; by eapply show_plain|]. intros r. apply spoken_ret.
  - apply handleSet_spoken.
  - apply handleBegin_spoken.
  - apply commit_spoken.
  - apply rollback_spoken.
  - apply rollbackTo_spoken.
  - apply savepoint_spoken.
  - apply handleUseDB_spoken.
Qed.

Lemma doQuery_spoken F now sql : spoken F (doQuery ns parse getPlan now sql).
Proof.
  apply spoken_bind; [apply spoken_gets|]. intros se. apply spoken_bind; [apply spoken_of_outcome|]. intros refused.
  destruct refused; [apply spoken_fail|]. destruct (canHandleWithoutPlan _); [apply handleQueryWithoutPlan_spoken|].
  apply spoken_of. intros [p ts] Hp%wrap_Ret.
  apply spoken_bind; [apply spoken_of_outcome|]. intros flag. apply spoken_bind.
  { unfold updateWriteTableCurrentTime. case_match; [by apply session_spoken|apply spoken_ret]. }
  intros _. apply spoken_bind; [apply ExecuteIn_spoken; [by eapply plans_known|by eapply plans_plain]|]. intros r.
  apply spoken_bind; [apply spoken_gets|]. intros se'. destruct r; [apply spoken_ret|apply spoken_panic].
Qed.

Lemma handleFieldList_spoken F n t wc : spoken F (handleFieldList ns n t wc).
Proof.
  apply spoken_bind; [apply spoken_gets|]. intros se. apply spoken_bind; [apply spoken_of_outcome|]. intros flag.
  apply with_conn_spoken; intros c.
  - apply body_bind; [apply body_gets|]. intros se'. apply body_bind; [apply body_of_outcome|]. intros phy.
    apply body_bind; [apply body_onw, keeps_initBackendConn|]. intros _.
    apply body_bind; [apply body_onw, calm_keeps, calm_send|]. intros r. apply body_ret.
  - apply says_bind; [by apply says_same|]. intros se'. apply says_bind; [by apply says_same|]. intros phy.
    apply says_bind; [apply says_onw, sends_initBackendConn|]. intros _.
    apply says_bind; [by apply says_onw, sends_send|]. intros r. by apply says_same.
Qed.

Lemma ExecuteCommand_spoken F r : spoken F (ExecuteCommand ns parse getPlan r).
Proof.
  destruct r as [|now sql|d|n t wc]; cbn [ExecuteCommand]; try apply spoken_then.
  - apply spoken_attempt, rollback_spoken.
  - intros s Hs Ho. unfold handleQuery. pose proof (doQuery_spoken F now (trim_right (Ascii.eqb ";") sql) s Hs Ho) as H.
    by destruct (doQuery _ _ _ now _ s) as [s' o].
  - apply handleUseDB_spoken.
  - apply handleFieldList_spoken.
Qed.

(** * The proxy *)

Lemma serve_tx p i se r :
  sessions p !! i = Some se -> sys_inv p ->
  (forall c, c ∈ all_own (sessions p) -> tx_open (log (p_world p)) c) ->
  forall c, c ∈ all_own (sessions (serve ns parse getPlan p i se r)) ->
    tx_open (log (p_world (serve ns parse getPlan p i se r))) c.
Proof.
  intros Hi Hp Ht. pose proof (sys_session p i se Hi Hp) as Hs.
  assert (open_tx (mkState (p_world p) se (general_log p))) as Ho.
  { intros c Hc. apply Ht. apply elem_of_all_own. by exists i, se. }
  destruct (ExecuteCommand_spoken (others i (sessions p)) r _ Hs Ho) as (_ & Ho' & Hf). unfold serve.
  destruct (ExecuteCommand _ _ _ r _) as [[w se' g] o]. cbn in Ho', Hf |- *.
  intros c (j & b & Hj & Hc)%elem_of_all_own. apply list_lookup_insert_Some in Hj as [(<- & <- & _)|[Hne Hj]]; [by apply Ho'|].
  apply (framed_tx_open _ _ _ c Hf); [apply elem_of_others; by exists j, b|]. apply Ht. apply elem_of_all_own. by exists j, b.
Qed.

End requests.

Section planned.
Context (ns : Namespace) (parse : string -> outcome statement).
Context (planners : (string -> string -> outcome (Plan * list string)) -> Prop) {PL : Planners planners}.
Context {PT : forall g, planners g -> PlainText parse g}.

Lemma reachable_tx p p' :
  rtc (step ns parse planners) p p' -> sys_inv p ->
  (forall c, c ∈ all_own (sessions p) -> tx_open (log (p_world p)) c) ->
  forall c, c ∈ all_own (sessions p') -> tx_open (log (p_world p')) c.
Proof.
  induction 1 as [|p p1 p' Hst _ IH]; [done|]. intros Hp Ht. apply IH; [by eapply step_inv|].
  destruct Hst as [p u d col cs|g p i se r Hg Hi]; [|apply serve_tx; auto]. cbn. intros c (i & b & Hi & Hc)%elem_of_all_own.
  apply lookup_snoc_Some in Hi as [[_ Hi]|[_ <-]]; [apply Ht, elem_of_all_own; by exists i, b|].
  rewrite own_empty in Hc by done. set_solver.
Qed.
End planned.
End sessions.

(** ** The statements of clients *)

(** The statements a plan sends. *)
Definition plan_text (p : Plan) (q : string) : Prop :=
  match p with
  | SelectPlan_ sqls _ _ | InsertPlan_ sqls | ModifyPlan_ sqls =>
      exists n dbs d l, sqls !! n = Some dbs /\ dbs !! d = Some l /\ q ∈ l
  | UnshardPlan _ sql _ => q = sql
  | _ => False
  end.

Section clients.
Context (parse : string -> outcome statement).
Context (planners : (string -> string -> outcome (Plan * list string)) -> Prop).

(** What the clients have said: a SHOW, or the statements a planner made of a query. *)
Definition said : ClientText := fun q =>
  (exists tp, parse q = Ret (ShowStmt tp)) \/
  exists g d sql p ts, planners g /\ g d sql = Ret (p, ts) /\ plan_text p q.

Lemma said_plain g : planners g -> PlainText (CT := said) parse g.
Proof.
  intros Hg. split.
  - intros sql tp H. right. right. left. by exists tp.
  - intros d sql p ts H.
    assert (forall q, plan_text p q -> plain (CT := said) (ComQuery q)) as Hq
      by (intros q Hq; right; right; right; by exists g, d, sql, p, ts).
    destruct p as [sqls em mg|sqls|sqls|d' sql' ins| |r]; cbn; [..|done|done].
    1-3: intros n dbs d' l q Hn Hd Hl; apply Hq; by exists n, dbs, d', l.
    by apply Hq.
Qed.
End clients.

(** * The proxy *)

(** A pipe broke. *)
Definition broken {SV : Server} (l : events) : Prop := met (SV := SV) (fun _ => true) l.

#[export] Instance mended_alive (SV : Server) : Alive (mended (SV := SV) (fun _ => true)).
Proof. intros l c m e d. cbn. by destruct (@answer SV l c m). Qed.

Section proxy.
Context {SN : SliceNames} {SV : Server} {MR : MapRange} {MRO : MapRangeOk MR} {FE : FloatE} {HL : HighLetters}.
Context (ns : Namespace) (parse : string -> outcome statement).
Context (planners : (string -> string -> outcome (Plan * list string)) -> Prop) {PL : Planners planners}.

(** C4: the transaction of a client is a transaction of every server it reaches: until a
    pipe breaks, a connection that belongs to the transaction of a session was sent a
    BEGIN (or left the autocommit mode), and since then nothing was said on it, by
    whichever session, but changes of the database and of the settings, requests for
    fields, the opening of the transaction once more, and statements of clients: what
    parses as SHOW and what a planner made of a query. The proxy itself has neither
    hung up nor committed nor rolled back. *)
Theorem transaction_stays_open w g p i se n c :
  opened_world w -> rtc (step ns parse planners) (mkProxy w [] g) p -> ~ broken (log (p_world p)) ->
  sessions p !! i = Some se -> txConns se !! n = Some c ->
  tx_open (CT := said parse planners) (log (p_world p)) c.
Proof.
  intros Hw Hrun Hb Hi Hn. apply (reachable_better (fun _ => true)) in Hrun; [|done].
  pose proof (opened_inv (SV := mended (SV := SV) (fun _ => true)) w g Hw) as H0.
  apply (reachable_tx (CT := said parse planners) (PT := said_plain parse planners) ns parse planners _ _ Hrun H0);
    [cbn; set_solver|].
  apply elem_of_all_own. exists i, se. split; [done|]. apply elem_of_own. by exists n.
Qed.
End proxy.

(** * Examples *)

Import demo.

Lemma busy_unbroken : ~ broken (log (p_world busy)).
Proof. intros (l1 & c & m & l2 & e & d & _ & _ & [=] & _). Qed.

(** The transaction of the first client on the second slice. *)
Lemma transaction_stays_open_witness :
  tx_open (CT := said demo.parse (eq demo.getPlan)) (log (p_world busy)) ("slice-1/master/b:3306"%string, 0%nat).
Proof.
  assert ((fun a => txConns a !! "slice-1"%string) <$> sessions busy !! 0%nat = Some (Some ("slice-1/master/b:3306"%string, 0%nat)))
    as (se & Hse & Hc)%fmap_Some by (vm_compute; reflexivity).
  apply (transaction_stays_open ns demo.parse (eq demo.getPlan) world0 0 busy 0 se "slice-1" _ opened busy_reachable busy_unbroken Hse).
  by symmetry.
Defined.

(** * A broken pipe *)

(** The statements a server takes as the end of the transaction, those that commit it
    implicitly among them; [SET NAMES] is none of them. *)
Class TxText := {
  ends_tx : string -> bool;
  names_keep : forall r, ends_tx ("SET NAMES '" +:+ r) = false;
}.

Section text.
Context {TT : TxText}.

(** Whether a command begins ([Some true]) or ends the transaction of its connection. *)
Definition tx_command (m : command) : option bool :=
  match m with
  | ComQuery q =>
      if bool_decide (q ∈ ["begin"; "set autocommit = 0"]%string) then Some true
      else if bool_decide (q ∈ ["commit"; "rollback"; "set autocommit = 1"]%string) || ends_tx q then Some false
      else None
  | Hangup => Some false
  | _ => None
  end.

(** Whether a connection is in a transaction after what was sent. *)
Definition in_tx (l : events) (c : cid) : bool :=
  foldl (fun b '(c', m) => if decide (c' = c) then default b (tx_command m) else b) false l.

Lemma in_tx_snoc l c m : in_tx (l ++ [(c, m)]) c = default (in_tx l c) (tx_command m).
Proof. unfold in_tx. rewrite foldl_app. cbn. by rewrite decide_True. Qed.
End text.

(** C37: a pipe that breaks in a transaction loses it without the session noticing:
    the statement fails, but the session stays in the transaction with the connection
    that was dialled again, which is open and in no transaction of its server. *)
Theorem broken_pipe_loses_transaction {TT : TxText} {SV : Server} {MR : MapRange} ns s flag sl dbn phy sql c w1 d e st :
  isInTransaction (session s) = true -> txConns (session s) !! "slice-0"%string = Some c ->
  GetDefaultPhyDB ns dbn = Ret phy ->
  initBackendConn c phy (Session.charset (session s)) (collation (session s)) (sessionVariables (session s)) (world s) = (w1, Ret tt) ->
  conns w1 !! c = Some d -> conn d = true ->
  answer (log w1) c (ComQuery sql) = Broken e (Connected st) ->
  let r := ExecuteSQL ns flag sl dbn sql s in
  r.2 = Err e /\ session r.1 = session s /\ in_tx (log (world r.1)) c = false /\
  exists d', conns (world r.1) !! c = Some d' /\ conn d' = true.
Proof.
  intros Htx Hc Hphy Hinit Hd Hcd Ha. cbv zeta.
  enough (ExecuteSQL ns flag sl dbn sql s = (mkState (set_conn (logged (logged w1 c (ComQuery sql)) c Hangup) c (with_conn d true true st))
    (session s) (ProcessGeneralLog s), Err e)) as ->.
  { cbn [fst snd world session log set_conn logged conns]. split_and!; [done|done| |].
    - by rewrite in_tx_snoc.
    - eexists. by rewrite lookup_insert_eq. }
  unfold ExecuteSQL, bind at 1, getBackendConn, bind at 1, gets. cbn beta. rewrite Htx.
  unfold getTransactionConn, bind at 1, gets. cbn beta. rewrite Hc. cbn [ret].
  unfold deferred, bind at 1, gets. cbn beta. unfold bind at 1, of_outcome. rewrite Hphy.
  unfold bind at 1, onw at 1, on at 1. rewrite Hinit. unfold onw, on. cbn [world session ProcessGeneralLog].
  unfold Execute, exec, send, bind at 1, bind at 1, the_conn at 1. cbn beta. rewrite Hd, Hcd. cbn [negb].
  unfold bind at 1, gets. rewrite Ha. unfold update_conn, bind, modify, the_conn. cbn. rewrite Hd. cbn.
  unfold recycleBackendConn, bind, gets. cbn. rewrite Htx. done.
Qed.

(** Definitions of tables commit implicitly. *)
#[local] Instance definitions_end : TxText.
Proof. refine {| ends_tx := String.prefix "create " |}. reflexivity. Defined.

(** The first client reads in its transaction, and the pipe breaks. *)
#[local] Definition breaking : Server := {|
  answer l c m := match m with
    | ComQuery "select 1"%string => Broken (Errorf "broken pipe") (Connected 2)
    | m => answer l c m
    end;
  accept l c := Connected 2;
|}.

#[local] Definition s_open : State := mkState (p_world busy) (default se0 (sessions busy !! 0%nat)) 0.
#[local] Definition c_open : cid := ("slice-0/master/a:3306"%string, 0%nat).
#[local] Definition w_open : World :=
  (initBackendConn (SV := breaking) c_open "db" "utf8" 33 (sessionVariables (session s_open)) (world s_open)).1.

Lemma broken_pipe_loses_transaction_witness :
  let r := ExecuteSQL (SV := breaking) ns 1 "slice-0" "db" "select 1" s_open in
  r.2 = Err (Errorf "broken pipe") /\ isInTransaction (session r.1) = true /\ in_tx (log (world r.1)) c_open = false.
Proof.
  assert ((fun d => conn d) <$> conns w_open !! c_open = Some true) as (d & Hd & Hc)%fmap_Some by (vm_compute; reflexivity).
  destruct (broken_pipe_loses_transaction (SV := breaking) ns s_open 1 "slice-0" "db" "db" "select 1" c_open w_open d
    (Errorf "broken pipe") 2) as (H1 & H2 & H3 & _); [vm_compute; reflexivity..|done|by symmetry|reflexivity|].
  split_and!; [done| |done]. rewrite H2. vm_compute. reflexivity.
Defined.
