(* ===== verification/Visit.v ===== *)
(** parser/ast (the [Accept] methods): the tables of a statement in the order in
    which a visitor meets them, and the statement with its tables renamed. *)

From Stdlib Require Import Ascii String.
From S2P Require Import Prelude GoStr Format NumKey Shard Models Rule PlanUtil Ast Dml.

(** * What a visitor meets *)

Section tables.
Context {T : Type}.

Definition node_tables (n : node_kind) : list TableName :=
  match n with NNode ts _ => ts | _ => [] end.

Definition option_tables {A} (f : A -> list TableName) (o : option A) : list TableName :=
  match o with Some a => f a | None => [] end.

Fixpoint expr_tables (e : expr T) : list TableName :=
  match e with
  | EColumn _ | EColumnD _ _ _ | EValue _ => []
  | EFunc _ args => flat_map expr_tables args
  | EBinary _ l r => expr_tables l ++ expr_tables r
  | EIn e vs _ sel =>
      expr_tables e ++ flat_map expr_tables vs ++ match sel with Some q => expr_tables q | None => [] end
  | EInD e vs _ _ _ => expr_tables e ++ flat_map expr_tables vs
  | EBetween e a b _ | EBetweenD e a b _ _ => expr_tables e ++ expr_tables a ++ expr_tables b
  | EParen e => expr_tables e
  | EOther n cs => node_tables n ++ flat_map expr_tables cs
  end.

Definition field_tables (f : SelectField T) : list TableName := option_tables expr_tables (sf_Expr f).
Definition item_tables (i : ByItem T) : list TableName := expr_tables (by_Expr i).
Definition limit_tables (l : Limit T) : list TableName :=
  expr_tables (lim_Count l) ++ option_tables expr_tables (lim_Offset l).
Definition assignment_tables (a : Assignment T) : list TableName := expr_tables (as_Expr a).

Fixpoint resultset_tables (r : resultset T) : list TableName :=
  match r with
  | RTableName t | RTableNameD t _ => [t]
  | RSelect s => select_tables s
  | RUnion u => op_tables u
  | RTableSource src _ => resultset_tables src
  | RJoin j => join_tables j
  end
with join_tables (j : join T) : list TableName :=
  match j with
  | mk_join Left Right _ On _ _ _ =>
      match Left with Some l => resultset_tables l | None => [] end
      ++ match Right with Some r => resultset_tables r | None => [] end
      ++ option_tables expr_tables On
  end
with select_tables (s : SelectStmt T) : list TableName :=
  match s with
  | mk_SelectStmt _ _ _ _ _ Fields From Where GroupBy Having WindowSpecs OrderBy limit _ =>
      match From with Some j => join_tables j | None => [] end
      ++ option_tables expr_tables Where
      ++ option_tables (flat_map field_tables) Fields
      ++ option_tables (flat_map item_tables) GroupBy
      ++ option_tables expr_tables Having
      ++ option_tables (flat_map op_tables) WindowSpecs
      ++ option_tables (flat_map item_tables) OrderBy
      ++ option_tables limit_tables limit
  end.

Definition insert_tables (n : InsertStmt T) : list TableName :=
  option_tables resultset_tables (ins_Select n) ++ join_tables (ins_Table n)
  ++ flat_map (flat_map expr_tables) (Lists n)
  ++ flat_map assignment_tables (Setlist n) ++ flat_map assignment_tables (OnDuplicate n).

Definition update_tables (n : UpdateStmt T) : list TableName :=
  option_tables join_tables (upd_TableRefs n) ++ flat_map assignment_tables (upd_List n)
  ++ option_tables expr_tables (upd_Where n) ++ option_tables (flat_map item_tables) (upd_Order n)
  ++ option_tables limit_tables (upd_Limit n).

Definition delete_tables (n : DeleteStmt T) : list TableName :=
  option_tables join_tables (del_TableRefs n) ++ default [] (del_Tables n)
  ++ option_tables expr_tables (del_Where n) ++ option_tables (flat_map item_tables) (del_Order n)
  ++ option_tables limit_tables (del_Limit n).

End tables.

(** * Writing to the tables a visitor met *)

Section rename.
Context {T : Type} (f : TableName -> TableName).

Definition node_rename (n : node_kind) : node_kind :=
  match n with NNode ts splice => NNode (map f ts) splice | n => n end.

Definition opaque_rename (o : opaque) : opaque := mk_opaque (map f (op_tables o)) (op_text o).

Fixpoint expr_rename (e : expr T) : expr T :=
  match e with
  | EColumn _ | EColumnD _ _ _ | EValue _ => e
  | EFunc n args => EFunc n (map expr_rename args)
  | EBinary op l r => EBinary op (expr_rename l) (expr_rename r)
  | EIn e vs nt sel =>
      EIn (expr_rename e) (map expr_rename vs) nt
        match sel with Some q => Some (expr_rename q) | None => None end
  | EInD e vs nt ti m => EInD (expr_rename e) (map expr_rename vs) nt ti m
  | EBetween e a b nt => EBetween (expr_rename e) (expr_rename a) (expr_rename b) nt
  | EBetweenD e a b nt ti => EBetweenD (expr_rename e) (expr_rename a) (expr_rename b) nt ti
  | EParen e => EParen (expr_rename e)
  | EOther n cs => EOther (node_rename n) (map expr_rename cs)
  end.

Definition field_rename (x : SelectField T) : SelectField T :=
  mk_SelectField (WildCard x) (option_map expr_rename (sf_Expr x)) (AsName x).
Definition item_rename (i : ByItem T) : ByItem T := mk_ByItem (expr_rename (by_Expr i)) (by_Desc i).
Definition limit_rename (l : Limit T) : Limit T :=
  mk_Limit (expr_rename (lim_Count l)) (option_map expr_rename (lim_Offset l)).
Definition assignment_rename (a : Assignment T) : Assignment T :=
  mk_Assignment (as_Column a) (expr_rename (as_Expr a)).

Fixpoint resultset_rename (r : resultset T) : resultset T :=
  match r with
  | RTableName t => RTableName (f t)
  | RTableNameD t rule => RTableNameD (f t) rule
  | RSelect s => RSelect (select_rename s)
  | RUnion u => RUnion (opaque_rename u)
  | RTableSource src a => RTableSource (resultset_rename src) a
  | RJoin j => RJoin (join_rename j)
  end
with join_rename (j : join T) : join T :=
  match j with
  | mk_join Left Right Tp On Using nj sj =>
      mk_join match Left with Some l => Some (resultset_rename l) | None => None end
        match Right with Some r => Some (resultset_rename r) | None => None end
        Tp (option_map expr_rename On) Using nj sj
  end
with select_rename (s : SelectStmt T) : SelectStmt T :=
  match s with
  | mk_SelectStmt pr sc st di th Fields From Where GroupBy Having ws OrderBy limit lk =>
      mk_SelectStmt pr sc st di th (option_map (map field_rename) Fields)
        match From with Some j => Some (join_rename j) | None => None end
        (option_map expr_rename Where) (option_map (map item_rename) GroupBy)
        (option_map expr_rename Having) (option_map (map opaque_rename) ws)
        (option_map (map item_rename) OrderBy) (option_map limit_rename limit) lk
  end.

Definition insert_rename (n : InsertStmt T) : InsertStmt T :=
  mk_InsertStmt (IsReplace n) (ins_IgnoreErr n) (join_rename (ins_Table n)) (Columns n)
    (map (map expr_rename) (Lists n)) (map assignment_rename (Setlist n)) (ins_Priority n)
    (map assignment_rename (OnDuplicate n)) (option_map resultset_rename (ins_Select n)) (ListsAssist n).

Definition update_rename (n : UpdateStmt T) : UpdateStmt T :=
  mk_UpdateStmt (option_map join_rename (upd_TableRefs n)) (map assignment_rename (upd_List n))
    (option_map expr_rename (upd_Where n)) (option_map (map item_rename) (upd_Order n))
    (option_map limit_rename (upd_Limit n)) (upd_Priority n) (upd_IgnoreErr n) (upd_TableHints n).

Definition delete_rename (n : DeleteStmt T) : DeleteStmt T :=
  mk_DeleteStmt (option_map join_rename (del_TableRefs n)) (option_map (map f) (del_Tables n))
    (del_BeforeFrom n) (option_map expr_rename (del_Where n)) (option_map (map item_rename) (del_Order n))
    (option_map limit_rename (del_Limit n)) (del_Priority n) (del_IgnoreErr n) (del_Quick n)
    (del_TableHints n).

(** * Every table a visitor meets is renamed, and no other *)

Lemma flat_map_rename {A} (g : A -> A) (t : A -> list TableName) l :
  Forall (fun a => t (g a) = map f (t a)) l -> flat_map t (map g l) = map f (flat_map t l).
Proof. induction 1 as [|a l Ha _ IH]; [done|]. cbn. by rewrite Ha, IH, map_app. Qed.

Lemma flat_map_renamed {A} (g : A -> A) (t : A -> list TableName) l :
  (forall a, t (g a) = map f (t a)) -> flat_map t (map g l) = map f (flat_map t l).
Proof. intros H. apply flat_map_rename, Forall_true, H. Qed.

Lemma option_renamed {A} (g : A -> A) (t : A -> list TableName) o :
  (forall a, t (g a) = map f (t a)) ->
  option_tables t (option_map g o) = map f (option_tables t o).
Proof. intros H. by destruct o; cbn. Qed.

Lemma node_renamed n : node_tables (node_rename n) = map f (node_tables n).
Proof. by destruct n. Qed.

Lemma expr_renamed e : expr_tables (expr_rename e) = map f (expr_tables e).
Proof.
  induction e using expr_induction; cbn [expr_tables expr_rename]; try done.
  - by apply flat_map_rename.
  - by rewrite IHe1, IHe2, map_app.
  - rewrite IHe, flat_map_rename, !map_app by done. destruct sel; cbn in *; by rewrite ?H0.
  - by rewrite IHe, flat_map_rename, map_app.
  - by rewrite IHe1, IHe2, IHe3, !map_app.
  - by rewrite IHe1, IHe2, IHe3, !map_app.
  - by rewrite node_renamed, flat_map_rename, map_app.
Qed.

Lemma field_renamed x : field_tables (field_rename x) = map f (field_tables x).
Proof. apply option_renamed, expr_renamed. Qed.
Lemma item_renamed i : item_tables (item_rename i) = map f (item_tables i).
Proof. apply expr_renamed. Qed.
Lemma items_renamed l : flat_map item_tables (map item_rename l) = map f (flat_map item_tables l).
Proof. apply flat_map_renamed, item_renamed. Qed.
Lemma limit_renamed l : limit_tables (limit_rename l) = map f (limit_tables l).
Proof.
  unfold limit_tables. cbn [limit_rename lim_Count lim_Offset].
  by rewrite expr_renamed, (option_renamed _ _ _ expr_renamed), map_app.
Qed.
Lemma assignments_renamed l :
  flat_map assignment_tables (map assignment_rename l) = map f (flat_map assignment_tables l).
Proof. apply flat_map_renamed. intros a. apply expr_renamed. Qed.

Fixpoint resultset_renamed (r : resultset T) : resultset_tables (resultset_rename r) = map f (resultset_tables r)
with join_renamed (j : join T) : join_tables (join_rename j) = map f (join_tables j)
with select_renamed (s : SelectStmt T) : select_tables (select_rename s) = map f (select_tables s).
Proof.
  - destruct r as [t|t rule|s|u|src a|j]; cbn [resultset_tables resultset_rename];
      [done..|apply select_renamed|done|apply resultset_renamed|apply join_renamed].
  - destruct j as [[l|] [r|] Tp On Us nj sj]; cbn [join_tables join_rename];
      rewrite ?(resultset_renamed l), ?(resultset_renamed r), (option_renamed _ _ _ expr_renamed), ?map_app; done.
  - destruct s as [pr sc st di th fs fr wh gb hv ws ob li lk]; cbn [select_tables select_rename].
    rewrite !(option_renamed _ _ _ expr_renamed), (option_renamed _ _ _ limit_renamed).
    rewrite !(option_renamed (map item_rename) _ _ items_renamed).
    rewrite (option_renamed (map field_rename) (flat_map field_tables)) by
      (intros; apply flat_map_renamed, field_renamed).
    rewrite (option_renamed (map opaque_rename) (flat_map op_tables)) by
      (intros; by apply flat_map_renamed).
    destruct fr as [j|]; [rewrite (join_renamed j)|]; by rewrite ?map_app.
Qed.

Lemma insert_renamed n : insert_tables (insert_rename n) = map f (insert_tables n).
Proof.
  unfold insert_tables. cbn [insert_rename ins_Select ins_Table Lists Setlist OnDuplicate].
  rewrite (option_renamed _ _ _ resultset_renamed), join_renamed, !assignments_renamed.
  rewrite (flat_map_renamed (map expr_rename) (flat_map expr_tables)) by
    (intros; apply flat_map_renamed, expr_renamed).
  by rewrite !map_app.
Qed.

Lemma update_renamed n : update_tables (update_rename n) = map f (update_tables n).
Proof.
  unfold update_tables. cbn [update_rename upd_TableRefs upd_List upd_Where upd_Order upd_Limit].
  rewrite (option_renamed _ _ _ join_renamed), assignments_renamed, (option_renamed _ _ _ expr_renamed),
    (option_renamed _ _ _ limit_renamed), (option_renamed (map item_rename) _ _ items_renamed).
  by rewrite !map_app.
Qed.

Lemma delete_renamed n : delete_tables (delete_rename n) = map f (delete_tables n).
Proof.
  unfold delete_tables. cbn [delete_rename del_TableRefs del_Tables del_Where del_Order del_Limit].
  rewrite (option_renamed _ _ _ join_renamed), (option_renamed _ _ _ expr_renamed),
    (option_renamed _ _ _ limit_renamed), (option_renamed (map item_rename) _ _ items_renamed).
  destruct (del_Tables n); by rewrite !map_app.
Qed.

End rename.
