(* ===== verification/BuildPlan.v ===== *)
(** proxy/plan/plan.go (Checker, BuildPlan, buildShardPlan), plan_unshard.go,
    plan_explain.go and [getPlan] of proxy/server/executor_handle.go: how the plan
    of a parsed statement is chosen, and what the plans send where. *)

From Stdlib Require Import Ascii String.
From S2P Require Import Resultset.
From S2P Require Import Prelude GoStr Format NumKey Shard ShardMycat Models Rule Router PlanUtil Ast Dml.
From S2P Require Import PlanWhere PlanSQL PlanExample PlanRewrite Sequence PlanInsert Merge MergeSort PlanSelect PlanTable PlanModify.
From S2P Require Import Balancer Session Visit.

#[local] Set Warnings "-register-all".

(** * Statements *)

(** A statement other than EXPLAIN; [OtherNode] is one the planner never looks
    into, such as a UNION or SHOW TABLES. *)
Inductive DMLNode {T : Type} :=
| SelectNode (s : SelectStmt T)
| InsertNode (s : InsertStmt T)
| UpdateNode (s : UpdateStmt T)
| DeleteNode (s : DeleteStmt T)
| OtherNode (o : opaque).
Arguments DMLNode T : clear implicits.

Inductive StmtNode {T : Type} :=
| Statement (s : DMLNode T)
| ExplainStmt (Stmt : StmtNode).
Arguments StmtNode T : clear implicits.

Section statements.
Context {T : Type} {FE : FloatE}.

Definition stmt_tables (s : DMLNode T) : list TableName :=
  match s with
  | SelectNode s => select_tables s
  | InsertNode s => insert_tables s
  | UpdateNode s => update_tables s
  | DeleteNode s => delete_tables s
  | OtherNode o => op_tables o
  end.

Definition stmt_rename (f : TableName -> TableName) (s : DMLNode T) : DMLNode T :=
  match s with
  | SelectNode s => SelectNode (select_rename f s)
  | InsertNode s => InsertNode (insert_rename f s)
  | UpdateNode s => UpdateNode (update_rename f s)
  | DeleteNode s => DeleteNode (delete_rename f s)
  | OtherNode o => OtherNode (opaque_rename f o)
  end.

(** A statement that was not rewritten has no decorated node: its text does not
    depend on a route result. *)
Definition stmt_Restore (rf : Z) (s : DMLNode T) : restored :=
  let rr := NewRouteResult "" "" [] in
  match s with
  | SelectNode s => SelectStmt_Restore rf rr 0 s
  | InsertNode s => InsertStmt_Restore rf rr s
  | UpdateNode s => UpdateStmt_Restore rf rr s
  | DeleteNode s => DeleteStmt_Restore rf rr s
  | OtherNode o => opaque_Restore o
  end.

Lemma stmt_renamed f s : stmt_tables (stmt_rename f s) = map f (stmt_tables s).
Proof.
  destruct s; cbn [stmt_tables stmt_rename];
    auto using select_renamed, insert_renamed, update_renamed, delete_renamed.
Qed.

End statements.

(** * Checker *)

(** The nodes to be recycled belong to a memory pool and are left out. *)
Record Checker := mk_Checker {
  ck_db : string;
  hasShardTable : bool;
  dbInvalid : bool;
  tableNames : list TableName;
  writeElapsedTables : list string }.

Definition NewChecker (db : string) : Checker := mk_Checker db false false [] [].

Section checker.
Context {T : Type} (router : Router (T := T)).

Definition isTableNameDatabaseInvalid (c : Checker) (n : TableName) : bool :=
  String.eqb (ck_db c) "" && String.eqb (L_ (tn_Schema n)) "".

(** [db := n.Schema.L; if db == "" { db = s.db }] *)
Definition table_db (db : string) (n : TableName) : string :=
  if String.eqb (L_ (tn_Schema n)) "" then db else L_ (tn_Schema n).

Definition elapsed_name (db : string) (n : TableName) : string :=
  table_db db n +:+ ":" +:+ L_ (tn_Name n).

Definition appendElapsedTables (c : Checker) (n : TableName) : Checker :=
  mk_Checker (ck_db c) (hasShardTable c) (dbInvalid c) (tableNames c)
    (writeElapsedTables c ++ [elapsed_name (ck_db c) n]).

Definition hasShardTableInTableName (c : Checker) (n : TableName) : bool :=
  is_some (GetShardRule router (table_db (ck_db c) n) (L_ (tn_Name n))).

(** [Enter] of a table; a table has no children. *)
Definition Enter (c : Checker) (n : TableName) : Checker :=
  if hasShardTable c then c
  else if isTableNameDatabaseInvalid c n then
    mk_Checker (ck_db c) (hasShardTable c) true (tableNames c) (writeElapsedTables c)
  else
    let c := appendElapsedTables c n in
    if hasShardTableInTableName c n then
      mk_Checker (ck_db c) true (dbInvalid c) (tableNames c) (writeElapsedTables c)
    else mk_Checker (ck_db c) (hasShardTable c) (dbInvalid c) (tableNames c ++ [n]) (writeElapsedTables c).

(** The second result of [Leave]: the walk goes on. *)
Definition Leave (c : Checker) : bool := negb (dbInvalid c) && negb (hasShardTable c).

(** The walk over the tables of a statement: a node that is not left with true
    ends it. *)
Fixpoint Accept (c : Checker) (l : list TableName) : Checker :=
  match l with
  | [] => c
  | n :: l => let c := Enter c n in if Leave c then Accept c l else c
  end.

End checker.

(** * Plans *)

Definition ShardTypeUnshard : string := "unshard".
Definition ShardTypeShard : string := "shard".

(** backend.DefaultSlice *)
Definition DefaultSlice : string := "slice-0".

(** [rewriteUnshardTableName]: what is written to one table. *)
Definition physical_schema (phyDBs : gmap string string) (n : TableName) : TableName :=
  match phyDBs !! O_ (tn_Schema n) with
  | Some phyDB => mk_TableName (mk_CIStr phyDB (ToLower phyDB)) (tn_Name n) (IndexHints n) (PartitionNames n)
  | None => n
  end.

Section build.
Context {T} {TM : TreeMap T} {LZ : LocalZone} {FE : FloatE} {MF : MapFirst} {S : Type} {SQ : Sequence S}.
Context {FT : FloatText} {GS : GoSort} {MR : MapRange} (order : gmap string ResultRow -> list string).

Definition IsSelectLastInsertIDStmt (s : DMLNode T) : outcome bool :=
  match s with
  | SelectNode (mk_SelectStmt _ _ _ _ _ Fields From Where GroupBy Having _ OrderBy limit _) =>
      match Fields with
      | None => Panic "nil pointer dereference"
      | Some [f] =>
          Ret (match From, Where, GroupBy, Having, OrderBy, limit, sf_Expr f with
               | None, None, None, None, None, None, Some (EFunc FnName _) =>
                   String.eqb (L_ FnName) "last_insert_id"
               | _, _, _, _, _, _, _ => false
               end)
      | Some _ => Ret false
      end
  | _ => Ret false
  end.

(** An error of the restoring is dropped, with what was not yet written. *)
Definition generateUnshardingSQL (s : DMLNode T) : outcome string :=
  let r := stmt_Restore EscapeRestoreFlags s in
  match Format.status r with Panic p => Panic p | _ => Ret (text r) end.

Definition is_insert (s : DMLNode T) : bool := match s with InsertNode _ => true | _ => false end.

(** The tables are shared with the statement: writing to them renames those of the
    statement, all of which the checker met. *)
Definition CreateUnshardPlan (s : DMLNode T) (phyDBs : gmap string string) (db : string) : outcome Plan :=
  rsql ← generateUnshardingSQL (stmt_rename (physical_schema phyDBs) s);
  Ret (UnshardPlan db rsql (is_insert s)).

(** parser.NodeToStringWithoutQuote of the field, or its alias. *)
Definition field_name (rr : RouteResult) (f : SelectField T) : outcome string :=
  match WildCard f with
  | Some _ => Ret "*"%string
  | None =>
      match sf_Expr f with
      | None => Panic "nil pointer dereference"
      | Some e =>
          let r := Restore 0 rr e in
          match Format.status r with
          | Panic p => Panic p
          | st => Ret (if negb (String.eqb (CIStr_String (AsName f)) "") then CIStr_String (AsName f)
                       else match st with Ret _ => text r | _ => ""%string end)
          end
      end
  end.

Definition stmt_fields (s : SelectStmt T) : option (list (SelectField T)) :=
  match s with mk_SelectStmt _ _ _ _ _ Fields _ _ _ _ _ _ _ _ => Fields end.

(** The result of a SELECT that is routed to no table. *)
Definition empty_result (p : PlanSelect.SelectPlan_ (T := T)) : outcome Result :=
  match stmt_fields (sp_stmt p) with
  | None => Panic "nil pointer dereference"
  | Some fs =>
      names ← mapM (field_name (si_result (sp_info p))) fs;
      newEmptyResultset (sp_merge p) names
  end.

Definition merged_result (p : SelectPlan) (rs : list Result) : outcome Result :=
  '(r, _) ← MergeSelectResult order p rs; Ret r.

Definition buildShardPlan (s : DMLNode T) (db : string) (router : Router (T := T))
    (seq : SequenceManager S) : outcome (Plan * SequenceManager S) :=
  match s with
  | SelectNode s =>
      p ← HandleSelectStmt (NewSelectPlan db router) s;
      Ret (Session.SelectPlan_ (sp_sqls p) (empty_result p) (merged_result (sp_merge p)), seq)
  | InsertNode s =>
      p ← HandleInsertStmt (NewInsertPlan db router seq s);
      Ret (InsertPlan_ (default ∅ (ip_sqls p)), sequences p)
  | UpdateNode s =>
      p ← HandleUpdatePlan (NewTableAliasStmtInfo db router) s; Ret (ModifyPlan_ (mp_sqls p), seq)
  | DeleteNode s =>
      p ← HandleDeletePlan (NewTableAliasStmtInfo db router) s; Ret (ModifyPlan_ (mp_sqls p), seq)
  | OtherNode _ => Err (Errorf "stmt type does not support shard now")
  end.

(** The rows of EXPLAIN: type, slice, database and statement. *)
Definition explain_rows (shardType : string) (sqls : SQLs) : list (list string) :=
  flat_map (fun '(slice, dbSQLs) =>
    flat_map (fun '(db, tableSQLs) => map (fun sql => [shardType; slice; db; sql]) tableSQLs)
      (map_range dbSQLs)) (map_range sqls).

(** A field that is not set has no name. *)
Definition createExplainResult (shardType : string) (sqls : SQLs) : Result :=
  let rows := explain_rows shardType sqls in
  let fields := match Resultset.BuildResultset [] ["type"; "slice"; "db"; "sql"]%string (map (map GString) rows) with
                | Ret r => Resultset.rs_Fields r | _ => [] end in
  mkResult 0 0 0 (map (fun f => of_bytes (Resultset.Name f)) (omap id fields)) (map (map GString) rows).

Definition explain (phyDBs : gmap string string) (p : Plan) : outcome Plan :=
  match p with
  | Session.SelectPlan_ sqls _ _ | InsertPlan_ sqls | ModifyPlan_ sqls =>
      Ret (ExplainPlan (createExplainResult ShardTypeShard sqls))
  | UnshardPlan db sql _ =>
      let db := default db (phyDBs !! db) in
      Ret (ExplainPlan (createExplainResult ShardTypeUnshard {[DefaultSlice := {[db := [sql]]}]}))
  | SelectLastInsertIDPlan | ExplainPlan _ => Err (Errorf "unsupport plan to explain, type: %T")
  end.

(** The plan with the tables it sets ([SetElapsedTables]); the plan of EXPLAIN and
    of LAST_INSERT_ID() has none. *)
Fixpoint BuildPlan (stmt : StmtNode T) (phyDBs : gmap string string) (db : string)
    (router : Router (T := T)) (seq : SequenceManager S) :
    outcome (Plan * list string * SequenceManager S) :=
  match stmt with
  | ExplainStmt (ExplainStmt _) => Err (Errorf "nested explain")
  | ExplainStmt s =>
      '(p, _, seq) ← wrap "build plan to explain error: %v" (BuildPlan s phyDBs db router seq);
      ep ← explain phyDBs p; Ret (ep, [], seq)
  | Statement s =>
      last ← IsSelectLastInsertIDStmt s;
      if (last : bool) then Ret (SelectLastInsertIDPlan, [], seq) else
      let checker := Accept router (NewChecker db) (stmt_tables s) in
      if dbInvalid checker then Err (Errorf "no database selected") else
      '(p, seq) ← (if hasShardTable checker then buildShardPlan s db router seq
                   else p ← CreateUnshardPlan s phyDBs db; Ret (p, seq));
      Ret (p, writeElapsedTables checker, seq)
  end.

(** executor_handle.go: [Parse] is the grammar's; the sequences are those at the time
    of the call. *)
Definition getPlan (Parse : string -> outcome (StmtNode T)) (router : Router (T := T))
    (seq : SequenceManager S) (phyDBs : gmap string string) (db sql : string) :
    outcome (Plan * list string) :=
  n ← wrap "parse sql error, sql: %s, err: %v" (Parse sql);
  '(p, ts, _) ← wrap "create select plan error: %v" (BuildPlan n phyDBs db router seq);
  Ret (p, ts).

End build.

(** * What the checker finds *)

Section checked.
Context {T : Type} (router : Router (T := T)) (db : string).

(** Neither the table nor the session names a database. *)
Definition no_database (n : TableName) : bool := String.eqb db "" && String.eqb (L_ (tn_Schema n)) "".

Definition sharded (n : TableName) : bool :=
  is_some (GetShardRule router (table_db db n) (L_ (tn_Name n))).

Definition unsharded (n : TableName) : Prop := no_database n = false /\ sharded n = false.

Lemma Accept_from pre l :
  let c := Accept router (mk_Checker db false false pre (map (elapsed_name db) pre)) l in
  (Forall unsharded l /\ c = mk_Checker db false false (pre ++ l) (map (elapsed_name db) (pre ++ l))) \/
  (exists met t rest, l = met ++ t :: rest /\ Forall unsharded met /\
     ((no_database t = true /\
       c = mk_Checker db false true (pre ++ met) (map (elapsed_name db) (pre ++ met))) \/
      (no_database t = false /\ sharded t = true /\
       c = mk_Checker db true false (pre ++ met) (map (elapsed_name db) (pre ++ met ++ [t]))))).
Proof.
  revert pre. induction l as [|n l IH]; intros pre.
  { left. by rewrite app_nil_r. }
  cbn [Accept]. unfold Enter, isTableNameDatabaseInvalid, hasShardTableInTableName, appendElapsedTables.
  cbn [ck_db hasShardTable dbInvalid tableNames writeElapsedTables]. fold (no_database n). fold (sharded n).
  destruct (no_database n) eqn:En.
  { right. exists [], n, l. split; [done|]. split; [done|]. left. by rewrite app_nil_r. }
  destruct (sharded n) eqn:Es; cbn [Leave dbInvalid hasShardTable negb andb].
  { right. exists [], n, l. split; [done|]. split; [done|]. right. rewrite app_nil_r. cbn [app].
    by rewrite map_app. }
  specialize (IH (pre ++ [n])). rewrite map_app, <- !app_assoc in IH. cbn [map app] in IH.
  destruct IH as [[Hl Hc]|(met & t & rest & -> & Hm & H)].
  - left. split; [by constructor|done].
  - right. exists (n :: met), t, rest. split; [done|]. split; [by constructor|]. cbn [app].
    rewrite <- !app_assoc in H. exact H.
Qed.

Lemma Accept_cases l :
  let c := Accept router (NewChecker db) l in
  (Forall unsharded l /\ c = mk_Checker db false false l (map (elapsed_name db) l)) \/
  (exists met t rest, l = met ++ t :: rest /\ Forall unsharded met /\
     ((no_database t = true /\ c = mk_Checker db false true met (map (elapsed_name db) met)) \/
      (no_database t = false /\ sharded t = true /\
       c = mk_Checker db true false met (map (elapsed_name db) (met ++ [t]))))).
Proof. apply (Accept_from []). Qed.

Lemma Accept_unsharded l : Forall unsharded l ->
  Accept router (NewChecker db) l = mk_Checker db false false l (map (elapsed_name db) l).
Proof.
  intros Hl. destruct (Accept_cases l) as [[_ H]|(met & t & rest & -> & _ & H)]; [done|].
  apply Forall_app in Hl as [_ Hl]. apply Forall_cons in Hl as [[H1 H2] _].
  destruct H as [[H _]|(_ & H & _)]; congruence.
Qed.

End checked.

(** * Which plan a statement gets *)

Section chosen.
Context {T} {TM : TreeMap T} {LZ : LocalZone} {FE : FloatE} {MF : MapFirst} {S : Type} {SQ : Sequence S}.
Context {FT : FloatText} {GS : GoSort} {MR : MapRange} (order : gmap string ResultRow -> list string).

Lemma buildShardPlan_sends s db (router : Router (T := T)) (seq seq' : SequenceManager S) p :
  buildShardPlan order s db router seq = Ret (p, seq') ->
  match p with Session.SelectPlan_ _ _ _ | InsertPlan_ _ | ModifyPlan_ _ => True | _ => False end.
Proof. intros H. destruct s; cbn [buildShardPlan] in H; invert_ret; done. Qed.

(** C16: a statement is sent unchanged but for the names of physical databases, to
    the default slice, exactly when no table that occurs in it, in subqueries too,
    is sharded and every one has a database; the tables it is recorded for are all
    those tables. *)
Theorem BuildPlan_unshard s phyDBs db (router : Router (T := T)) (seq seq' : SequenceManager S) d sql ins ts :
  BuildPlan order (Statement s) phyDBs db router seq = Ret (UnshardPlan d sql ins, ts, seq') <->
  (IsSelectLastInsertIDStmt s = Ret false /\ Forall (unsharded router db) (stmt_tables s) /\
   generateUnshardingSQL (stmt_rename (physical_schema phyDBs) s) = Ret sql /\
   d = db /\ ins = is_insert s /\ ts = map (elapsed_name db) (stmt_tables s) /\ seq' = seq).
Proof.
  cbn [BuildPlan]. split.
  - intros H. apply bind_Ret in H as (last & Hl & H). destruct last; [done|].
    destruct (Accept_cases router db (stmt_tables s)) as [[Hu Hc]|(met & t & rest & _ & _ & Hc)].
    + rewrite Hc in H. cbn [dbInvalid hasShardTable writeElapsedTables] in H. unfold CreateUnshardPlan in H.
      invert_ret. by split_and!.
    + destruct Hc as [[_ Hc]|(_ & _ & Hc)]; rewrite Hc in H; cbn [dbInvalid hasShardTable] in H; [done|].
      apply bind_Ret in H as ([p sq] & Hp%buildShardPlan_sends & H). injection H as -> _ _. done.
  - intros (Hl & Hu & Hs & -> & -> & -> & ->). rewrite Hl, Accept_unsharded by done.
    cbn [mbind outcome_bind dbInvalid hasShardTable writeElapsedTables]. unfold CreateUnshardPlan.
    by rewrite Hs.
Qed.

(** The tables recorded for a statement on sharded tables end with the first
    sharded one: those after it are not recorded. *)
Theorem shard_plan_tables s phyDBs db (router : Router (T := T)) (seq seq' : SequenceManager S) p ts met t rest :
  BuildPlan order (Statement s) phyDBs db router seq = Ret (p, ts, seq') ->
  IsSelectLastInsertIDStmt s = Ret false -> stmt_tables s = met ++ t :: rest ->
  Forall (unsharded router db) met -> sharded router db t = true ->
  ts = map (elapsed_name db) (met ++ [t]).
Proof.
  cbn [BuildPlan]. intros H Hl Hs Hm Ht. rewrite Hl in H. cbn [mbind outcome_bind] in H.
  destruct (Accept_cases router db (stmt_tables s)) as [[Hu Hc]|(met' & t' & rest' & E & Hm' & Hc)].
  - rewrite Hs in Hu. apply Forall_app in Hu as [_ Hu]. apply Forall_cons in Hu as [[_ Hu] _]. congruence.
  - destruct Hc as [[_ Hc]|(_ & Ht' & Hc)]; rewrite Hc in H; cbn [dbInvalid hasShardTable writeElapsedTables] in H; [done|].
    apply bind_Ret in H as ([p' sq] & _ & [= _ <- _]). f_equal. rewrite Hs in E. clear -E Hm Hm' Ht Ht'.
    revert met' Hm' E. induction met as [|a met IH]; intros [|b met'] Hm' E; cbn in *.
    + by injection E as -> _.
    + injection E as -> _. apply Forall_cons in Hm' as [[_ H] _]. congruence.
    + injection E as -> _. apply Forall_cons in Hm as [[_ H] _]. congruence.
    + injection E as -> E. apply Forall_cons in Hm as [_ Hm]. apply Forall_cons in Hm' as [_ Hm']. f_equal. by apply IH.
Qed.

(** A SELECT of the function alone is answered by the proxy, whatever the
    arguments of the function. *)
Theorem last_insert_id_arguments_ignored pr sc st di th args name alias lk ws phyDBs db
    (router : Router (T := T)) (seq : SequenceManager S) :
  L_ name = "last_insert_id"%string ->
  BuildPlan order (Statement (SelectNode (mk_SelectStmt pr sc st di th
      (Some [mk_SelectField None (Some (EFunc name args)) alias]) None None None None ws None None lk)))
    phyDBs db router seq = Ret (SelectLastInsertIDPlan, [], seq).
Proof. intros Hn. cbn. by rewrite Hn. Qed.

(** * EXPLAIN *)

Context {MRO : MapRangeOk MR}.

(** The plan sends [sql] to the slice, in the database. *)
Definition plan_sends (phyDBs : gmap string string) (p : Plan) (slice d sql : string) : Prop :=
  match p with
  | Session.SelectPlan_ sqls _ _ | InsertPlan_ sqls | ModifyPlan_ sqls => sql ∈ sqls_at sqls slice d
  | UnshardPlan db q _ => slice = DefaultSlice /\ d = default db (phyDBs !! db) /\ sql = q
  | _ => False
  end.

Lemma elem_of_explain_rows ty sqls ty' slice d sql :
  [ty'; slice; d; sql] ∈ explain_rows ty sqls <-> ty' = ty /\ sql ∈ sqls_at sqls slice d.
Proof.
  unfold explain_rows, sqls_at. rewrite list_elem_of_In, in_flat_map. split.
  - intros ([n m] & Hn%list_elem_of_In%elem_of_map_range & H).
    apply in_flat_map in H as ([d' qs] & Hd%list_elem_of_In%elem_of_map_range & H).
    apply in_map_iff in H as (q & [= <- <- <- <-] & Hq%list_elem_of_In). by rewrite Hn, Hd.
  - intros [-> H]. destruct (sqls !! slice) as [m|] eqn:Hn; [|set_solver].
    destruct (m !! d) as [qs|] eqn:Hd; [|set_solver]. cbn in H.
    exists (slice, m). split; [by apply list_elem_of_In, elem_of_map_range|].
    apply in_flat_map. exists (d, qs). split; [by apply list_elem_of_In, elem_of_map_range|].
    apply in_map_iff. exists sql. split; [done|by apply list_elem_of_In].
Qed.

Lemma explain_shows phyDBs p ep : explain phyDBs p = Ret ep ->
  exists r ty, ep = ExplainPlan r /\ forall row, row ∈ Values r <->
    exists slice d sql, row = map GString [ty; slice; d; sql] /\ plan_sends phyDBs p slice d sql.
Proof.
  assert (forall ty sqls row, row ∈ Values (createExplainResult ty sqls) <->
    exists slice d sql, row = map GString [ty; slice; d; sql] /\ sql ∈ sqls_at sqls slice d) as K.
  { intros ty sqls row. cbn [createExplainResult Values]. rewrite list_elem_of_fmap. split.
    - intros (r & -> & H). pose proof H as Hr. unfold explain_rows in Hr.
      apply list_elem_of_In, in_flat_map in Hr as ([n m] & _ & Hr). apply in_flat_map in Hr as ([d qs] & _ & Hr).
      apply in_map_iff in Hr as (q & <- & _). apply elem_of_explain_rows in H as [_ H]. by eexists _, _, _.
    - intros (slice & d & sql & -> & H). exists [ty; slice; d; sql]. split; [done|]. by apply elem_of_explain_rows. }
  intros H. destruct p; cbn [explain] in H; try discriminate H; injection H as <-;
    eexists _, _; (split; [reflexivity|]); intros row; cbn [plan_sends]; rewrite K; try done.
  set (phy := default db (phyDBs !! db)).
  assert (forall slice d q, q ∈ sqls_at {[DefaultSlice := {[phy := [sql]]}]} slice d <->
    slice = DefaultSlice /\ d = phy /\ q = sql) as Hone.
  { intros slice d q. unfold sqls_at. destruct (decide (slice = DefaultSlice)) as [->|Hs].
    - rewrite lookup_singleton_eq. destruct (decide (d = phy)) as [->|Hd].
      + rewrite lookup_singleton_eq. cbn. rewrite list_elem_of_singleton. naive_solver.
      + rewrite lookup_singleton_ne by done. cbn. set_solver.
    - rewrite lookup_singleton_ne by done. set_solver. }
  split; intros (slice & d & q & -> & H); exists slice, d, q; (split; [done|by apply Hone]).
Qed.


(** EXPLAIN of a statement that is routed to no table: there is no row, and the four
    fields of the result are nil pointers. *)
Lemma explain_nothing ty :
  Values (createExplainResult ty ∅) = [] /\
  Resultset.rs_Fields <$> Resultset.BuildResultset [] ["type"; "slice"; "db"; "sql"]%string (map (map GString) (explain_rows ty ∅)) =
    Ret [None; None; None; None].
Proof.
  assert (map_range (∅ : SQLs) = []) as E.
  { apply Permutation_nil_r. rewrite (MRO _ ∅). by rewrite map_to_list_empty. }
  cbn [createExplainResult Values]. unfold explain_rows. by rewrite E.
Qed.

End chosen.

(** * Examples *)

#[local] Instance no_sequences : Sequence unit := {| GetPKName _ := EmptyString; NextSeq s := (Ret 0, s) |}.
#[local] Existing Instance list_range.
#[local] Existing Instance list_range_ok.
#[local] Existing Instance no_floats.
#[local] Existing Instance isort_GoSort.
#[local] Instance first_of_list : MapFirst := fun A m => head (map_to_list m).

#[local] Abbreviation plan_of s phyDBs :=
  (BuildPlan (fun m => (map_to_list m).*1) s phyDBs "db" example_router (∅ : SequenceManager unit)).

(** The statements of a plan, as lists. *)
Definition listed (sqls : SQLs) : list (string * list (string * list string)) :=
  map (fun x => (x.1, map_to_list x.2)) (map_to_list sqls).

Definition sent (p : outcome (Plan * list string * SequenceManager unit)) :
    option (list (string * list (string * list string)) * list string) :=
  match p with
  | Ret (Session.SelectPlan_ sqls _ _, ts, _) | Ret (InsertPlan_ sqls, ts, _) | Ret (ModifyPlan_ sqls, ts, _) =>
      Some (listed sqls, ts)
  | Ret (UnshardPlan d sql _, ts, _) => Some ([("slice-0", [(d, [sql])])]%string, ts)
  | _ => None
  end.

(** [SELECT 1 FROM t] *)
Definition select_one (t : TableName) : SelectStmt (gmap Z Z) :=
  mk_SelectStmt NoPriority true false false [] (Some [field (int_lit 1)]) (Some (from_table t)) None None None
    None None None SelectLockNone.

(** [EXISTS (SELECT 1 FROM t)], whose subquery the planner does not look into *)
Definition exists_one (t : TableName) : expr (gmap Z Z) :=
  EOther (NExists false) [EOther (NNode [t] (fun ts _ => match ts with
    | [t] => plain "(" +> SelectStmt_Restore EscapeRestoreFlags (NewRouteResult "" "" []) 0 (select_one t) +> plain ")"
    | _ => written ""
    end)) []].

Definition exists_select : SelectStmt (gmap Z Z) :=
  select_from [field (EColumn (column "id"))]
    (Some (EBinary LogicAnd (id_is 7) (exists_one (table_named "tbl_m")))) None.

(** A subquery of a condition keeps the names of sharded tables: the statement
    for a sub table reads a table of a name that only the proxy knows. *)
Theorem subquery_keeps_logical_table :
  sent (plan_of (Statement (SelectNode exists_select)) ∅) =
    Some ([("slice-1", [("db", ["SELECT `id` FROM `tbl_0002` WHERE `id`=7 AND EXISTS (SELECT 1 FROM `tbl_m`)"])])],
          ["db:tbl"])%string.
Proof. vm_compute. reflexivity. Qed.

(** [SELECT db.t.id FROM db.t] *)
Definition qualified_select : SelectStmt (gmap Z Z) :=
  mk_SelectStmt NoPriority true false false []
    (Some [field (EColumn (mk_ColumnName (NewCIStr "db") (NewCIStr "t") (NewCIStr "id")))])
    (Some (from_table (mk_TableName (NewCIStr "db") (NewCIStr "t") [] []))) None None None None None None SelectLockNone.

(** The physical database replaces the schema of a table but not the schema of
    its columns: the statement names a column of a table that is not in its FROM. *)
Theorem column_keeps_logical_database :
  sent (plan_of (Statement (SelectNode qualified_select)) {["db" := "db_phy"]}%string) =
    Some ([("slice-0", [("db", ["SELECT `db`.`t`.`id` FROM `db_phy`.`t`"])])], ["db:t"])%string.
Proof. vm_compute. reflexivity. Qed.

(** The table of the subquery comes after the sharded one and is not recorded. *)
Lemma shard_plan_tables_witness :
  exists p seq', plan_of (Statement (SelectNode exists_select)) ∅ = Ret (p, ["db:tbl"%string], seq') /\
    stmt_tables (SelectNode exists_select) = [table_named "tbl"; table_named "tbl_m"].
Proof.
  assert (match plan_of (Statement (SelectNode exists_select)) ∅ with Ret _ => true | _ => false end = true) as Hr
    by (vm_compute; reflexivity).
  destruct (plan_of (Statement (SelectNode exists_select)) ∅) as [[[p ts] seq']| |] eqn:E; [|discriminate Hr..].
  exists p, seq'. split; [|reflexivity]. do 3 f_equal.
  apply (shard_plan_tables _ _ _ _ _ _ _ _ _ [] (table_named "tbl") [table_named "tbl_m"] E); vm_compute; done.
Defined.

