(* ===== verification/PlanSlices.v ===== *)
(** The plans use the slices of the namespace: the handlers of a statement leave
    the router of the plan alone, the rules of a router that was built from a
    namespace have slices of the namespace, and so have the statements of a plan.
    This discharges what a session asks of its planner. *)

From Stdlib Require Import Ascii String.
From S2P Require Import Prelude GoStr Format NumKey Shard ShardMycat Models Rule Router PlanUtil Ast Dml.
From S2P Require Import PlanWhere PlanSQL PlanRewrite Sequence PlanInsert Merge PlanSelect PlanModify.
From S2P Require Import StateM Pool Balancer Lexer Preview MergeSort Conn Session ConnInv SessionInv Sessions History PlanExample PlanTable Visit BuildPlan.

#[local] Set Warnings "-register-all".

(** * The router of a plan *)

Section routed.
Context {T} {TM : TreeMap T} {LZ : LocalZone} {FE : FloatE} {MF : MapFirst}.
Implicit Types s : StmtInfo T.

(** [s'] plans with the router of [s]. *)
Definition same_router s s' : Prop := si_router s' = si_router s.

#[local] Instance same_router_po : PreOrder same_router.
Proof. split; [by intros s|]. intros a b c. unfold same_router. congruence. Qed.

(** Splits a handler that returned into the calls it made. *)
Ltac calls :=
  repeat progress (cbn beta iota in *; invert_ret; try match goal with
  | H : (match ?x with _ => _ end) = Ret _ |- _ => destruct x eqn:?
  | H : (_, _) = (_, _) |- _ => injection H as H; subst
  end); invert_ret; try done.

Lemma getShardRule_router s db t r s' : getShardRule s db t = Ret (r, s') -> same_router s s'.
Proof. unfold getShardRule. intros H. calls. by destruct (String.eqb _ _). Qed.

Lemma checkStmtRouteResult_router s r s' : checkStmtRouteResult s r = Ret s' -> same_router s s'.
Proof. unfold checkStmtRouteResult. intros H. calls. Qed.

Lemma StmtInfo_Record_router s db t r s' : StmtInfo_RecordShardTable s db t = Ret (r, s') -> same_router s s'.
Proof.
  unfold StmtInfo_RecordShardTable. intros H. apply bind_Ret in H as ([r1 s1] & H1%wrap_Ret & H).
  apply bind_Ret in H as (s2 & H2%wrap_Ret & [= <- <-]).
  etrans; [by eapply getShardRule_router|by eapply checkStmtRouteResult_router].
Qed.

Lemma setTableAlias_router s t a s' : setTableAlias s t a = Ret s' -> same_router s s'.
Proof. unfold setTableAlias. intros H. calls. Qed.

Lemma RecordShardTable_router s db t a r s' : RecordShardTable s db t a = Ret (r, s') -> same_router s s'.
Proof.
  unfold RecordShardTable. intros H. apply bind_Ret in H as ([r1 s1] & H1%wrap_Ret%StmtInfo_Record_router & H).
  calls. etrans; [done|by eapply setTableAlias_router].
Qed.

Lemma decorate_table_router s t a d s' : decorate_table s t a = Ret (d, s') -> same_router s s'.
Proof.
  unfold decorate_table, NeedCreateTableNameDecorator. intros H.
  apply bind_Ret in H as ([r s1] & H1 & H). calls. by eapply RecordShardTable_router.
Qed.

(** ** Subqueries *)

Lemma subquery_column_router s c : same_router s (subquery_column s c).2.
Proof.
  unfold subquery_column. destruct (getShardRule _ _ _) as [[r s']| |] eqn:E; [|done..].
  destruct (String.eqb _ _); by eapply getShardRule_router.
Qed.

Lemma visit_list_router {A} (f : StmtInfo T -> A -> A * StmtInfo T) l :
  (forall s a, same_router s (f s a).2) -> forall s, same_router s (visit_list f s l).2.
Proof.
  intros Hf. induction l as [|a l IH]; intros s; [done|]. cbn [visit_list].
  specialize (Hf s a). destruct (f s a) as [a' s1]. specialize (IH s1).
  destruct (visit_list f s1 l) as [l' s2]. cbn in *. by etrans.
Qed.

Lemma visit_option_router {A} (f : StmtInfo T -> A -> A * StmtInfo T) o :
  (forall s a, same_router s (f s a).2) -> forall s, same_router s (visit_option f s o).2.
Proof.
  intros Hf s. destruct o as [a|]; [|done]. cbn. specialize (Hf s a). by destruct (f s a).
Qed.

Definition visits_same (f : StmtInfo T -> expr T -> expr T * StmtInfo T) (e : expr T) : Prop :=
  forall s, same_router s (f s e).2.

(** The local loop of [subquery_columns] is [visit_list]. *)
Lemma subquery_loop s l :
  (fix go (s : StmtInfo T) (l : list (expr T)) : list (expr T) * StmtInfo T :=
    match l with
    | [] => ([], s)
    | e :: l =>
        let '(e', s1) := subquery_columns s e in
        let '(l', s2) := go s1 l in (e' :: l', s2)
    end) s l = visit_list subquery_columns s l.
Proof.
  revert s. induction l as [|e l IH]; intros s; [done|]. cbn [visit_list].
  destruct (subquery_columns s e) as [e' s1]. by rewrite IH.
Qed.

Lemma visited_list l : Forall (visits_same subquery_columns) l ->
  forall s, same_router s (visit_list subquery_columns s l).2.
Proof.
  induction 1 as [|e l He _ IH]; intros s; [done|]. cbn [visit_list]. specialize (He s).
  destruct (subquery_columns s e) as [e' s1]. specialize (IH s1).
  destruct (visit_list _ s1 l) as [l' s2]. cbn in *. by etrans.
Qed.

(** One visited part after another. *)
Ltac visited :=
  repeat (rewrite ?subquery_loop; match goal with
  | IH : visits_same subquery_columns ?e |- context [subquery_columns ?s ?e] =>
      let H := fresh "Hv" in pose proof (IH s) as H; destruct (subquery_columns s e) as [? ?]; cbn in H
  | IH : Forall _ ?l |- context [visit_list subquery_columns ?s ?l] =>
      let H := fresh "Hv" in pose proof (visited_list l IH s) as H;
      destruct (visit_list subquery_columns s l) as [? ?]; cbn in H
  end); cbn [snd]; unfold same_router in *; congruence.

Lemma subquery_columns_router e : visits_same subquery_columns e.
Proof.
  induction e using expr_induction; intros s0; cbn [subquery_columns]; rewrite ?subquery_loop;
    try done; try by visited.
  - apply subquery_column_router.
  - match goal with H : from_option _ _ ?o |- _ => destruct o; cbn [from_option] in * end; visited.
Qed.

Lemma subquery_accept_router e : visits_same subquery_accept e.
Proof. intros s. destruct e; apply subquery_columns_router. Qed.

Lemma subquery_field_router s f : same_router s (subquery_field s f).2.
Proof.
  unfold subquery_field. pose proof (visit_option_router _ (sf_Expr f) (fun s e => subquery_columns_router e s) s) as H.
  by destruct (visit_option _ _ _).
Qed.

Lemma subquery_item_router s i : same_router s (subquery_item s i).2.
Proof.
  unfold subquery_item. pose proof (subquery_columns_router (by_Expr i) s) as H.
  by destruct (subquery_columns _ _).
Qed.

Lemma rewriteSubqueryTableSource_router s r d s' :
  rewriteSubqueryTableSource s r = Ret (d, s') -> same_router s s'.
Proof. unfold rewriteSubqueryTableSource. intros H. destruct r; try done. by eapply decorate_table_router. Qed.

Lemma handleSubqueryJoin_router j : forall s j' s', handleSubqueryJoin s j = Ret (j', s') -> same_router s s'.
Proof.
  revert j. fix IH 1. intros [Left Right Tp On Us nj sj] s j' s' H. cbn [handleSubqueryJoin] in H.
  apply bind_Ret in H as (u & _ & H). apply bind_Ret in H as ([Left' s1] & H1 & H).
  apply bind_Ret in H as ([Right' s2] & H2 & H).
  pose proof (visit_option_router _ On (fun s e => subquery_columns_router e s) s2) as H3.
  destruct (visit_option _ s2 On) as [On' s3]. injection H as <- <-. cbn in H3.
  etrans; [|exact H3]. trans s1.
  - clear H2; destruct Left as [[| | | |src a|l]|]; try done; calls; [by eapply rewriteSubqueryTableSource_router|by eapply IH].
  - clear H1; destruct Right as [[| | | |src a|l]|]; try done; calls. by eapply rewriteSubqueryTableSource_router.
Qed.

Lemma recovered_Ret {A} fmt (m : outcome A) a : recovered fmt m = Ret a -> m = Ret a.
Proof. unfold recovered. by destruct m. Qed.

(** Names the state after the next visited clause. *)
Ltac next_clause H :=
  match type of H with
  | context [visit_option ?f ?s ?o] =>
      let K := fresh "K" in
      assert (same_router s (visit_option f s o).2) as K;
      [apply visit_option_router; intros; try apply visit_list_router; intros;
       first [apply subquery_accept_router|apply subquery_field_router|apply subquery_item_router|apply subquery_columns_router]
      |destruct (visit_option f s o) as [? ?]; cbn in K]
  end.

Lemma handleSubquerySelectStmt_router s q q' s' :
  handleSubquerySelectStmt s q = Ret (q', s') -> same_router s s'.
Proof.
  unfold handleSubquerySelectStmt. intros H%recovered_Ret.
  destruct q as [pr sc st di th fs fr wh gb hv ws ob li lk]. apply bind_Ret in H as ([fr' s1] & H1%wrap_Ret & H).
  do 5 next_clause H. injection H as <- <-. assert (same_router s s1) as H0.
  { unfold handleSubqueryTableRefs in H1. calls. by eapply handleSubqueryJoin_router. }
  unfold same_router in *. congruence.
Qed.

(** ** FROM *)

Lemma RecordSubqueryTableAlias_router s a r s' : RecordSubqueryTableAlias s a = Ret (r, s') -> same_router s s'.
Proof.
  unfold RecordSubqueryTableAlias. intros H. calls.
  match goal with H : setTableAlias _ _ _ = Ret _ |- _ => exact (setTableAlias_router _ _ _ _ H) end.
Qed.

Lemma rewriteTableSource_router s src a d s' : rewriteTableSource s src a = Ret (d, s') -> same_router s s'.
Proof.
  unfold rewriteTableSource. intros H. destruct src as [t|t rule|q|u|src b|j]; try done.
  - by eapply decorate_table_router.
  - apply bind_Ret in H as ([q' s1] & H1%wrap_Ret%handleSubquerySelectStmt_router & H).
    destruct (negb _); [|by injection H as <- <-].
    apply bind_Ret in H as ([r s2] & H2%wrap_Ret%RecordSubqueryTableAlias_router & [= <- <-]). by etrans.
Qed.

Lemma hinted_router s s' : hinted s s' -> same_router s s'.
Proof. intros H. by apply hinted_result in H as (_ & _ & H & _). Qed.

Lemma rewriteOnCondition_router s e e' s' : rewriteOnCondition s e = Ret (e', s') -> same_router s s'.
Proof.
  unfold rewriteOnCondition. intros H. apply bind_Ret in H as ([[[h r] d] s1] & H1%wrap_Ret & [= <- <-]).
  apply handleComparison_hinted, hinted_router in H1. by destruct h.
Qed.

Lemma handleJoin_router j : forall s j' s', handleJoin s j = Ret (j', s') -> same_router s s'.
Proof.
  revert j. fix IH 1. intros [Left Right Tp On Us nj sj] s j' s' H. cbn [handleJoin] in H.
  apply bind_Ret in H as (u & _ & H). apply bind_Ret in H as ([Left' s1] & H1 & H).
  apply bind_Ret in H as ([Right' s2] & H2 & H). apply bind_Ret in H as ([On' s3] & H3 & [= <- <-]).
  trans s1; [|trans s2].
  - clear H2 H3; destruct Left as [[| | | |src a|l]|]; try done; calls; [by eapply rewriteTableSource_router|by eapply IH].
  - clear H1 H3; destruct Right as [[| | | |src a|l]|]; try done; calls. by eapply rewriteTableSource_router.
  - clear H1 H2; destruct On as [e|]; calls. by eapply rewriteOnCondition_router.
Qed.

Lemma handleTableRefs_router s fr fr' s' : handleTableRefs s fr = Ret (fr', s') -> same_router s s'.
Proof. unfold handleTableRefs. intros H. calls. by eapply handleJoin_router. Qed.

Lemma handleModifyTableRefs_router s fr fr' s' : handleModifyTableRefs s fr = Ret (fr', s') -> same_router s s'.
Proof. unfold handleModifyTableRefs. intros H. calls; by eapply handleJoin_router. Qed.

Lemma handleWhere_router s w w' s' : handleWhere s w = Ret (w', s') -> same_router s s'.
Proof.
  unfold handleWhere. intros H. destruct w as [e|]; [|by calls].
  apply bind_Ret in H as ([[[h r] d] s1] & H1 & H). invert_ret.
  apply handleComparison_hinted, hinted_router in H1. by destruct h; calls.
Qed.

Lemma globalQuery_router s : same_router s (postHandleGlobalTableRouteResultInQuery s).
Proof. unfold postHandleGlobalTableRouteResultInQuery. by repeat case_match. Qed.
Lemma globalModify_router s : same_router s (postHandleGlobalTableRouteResultInModify s).
Proof. unfold postHandleGlobalTableRouteResultInModify. by repeat case_match. Qed.
Lemma hintFunction_router s s' : postHandleHintDatabaseFunction s = Ret s' -> same_router s s'.
Proof. unfold postHandleHintDatabaseFunction. intros H. calls. Qed.

End routed.

(** * The slices of a router's rules *)

Section slices.
Context {T} {TM : TreeMap T}.

(** Every rule a lookup can find has its slices among [names]. *)
Definition slices_in (names : list string) (rt : Router (T := T)) : Prop :=
  forall db t r, GetShardRule rt db t = Some r -> forall n, n ∈ br_slices (base_of r) -> n ∈ names.

Lemma load_rule_slices names cfg (b : BaseRule T) :
  load_rule names cfg = Ret b -> br_slices b = names \/ br_slices b = models.Slices cfg.
Proof.
  unfold load_rule. intros H. apply bind_Ret in H as (b' & Hp & [= <-]).
  destruct (String.eqb _ _); [by left|]. right. by apply parseRule_inv in Hp as (dbs & -> & _).
Qed.

Lemma NewRouter_slices ns (rt : Router (T := T)) :
  NewRouter ns = Ret rt -> slices_in (map models.Slice_Name (models.NSlices ns)) rt.
Proof.
  intros Hn db t r Hr n Hs. pose proof (NewRouter_spec _ _ Hn) as [Ha _].
  unfold GetShardRule in Hr. destruct (split_table db t) as [db' t']. apply Ha in Hr.
  assert (forall cfg b, cfg ∈ models.ShardRules ns ->
    load_rule (map models.Slice_Name (models.NSlices ns)) cfg = Ret b -> n ∈ br_slices (T := T) b ->
    n ∈ map models.Slice_Name (models.NSlices ns)) as K.
  { intros cfg b Hin [->| ->]%load_rule_slices Hb; [done|]. unfold NewRouter in Hn. destruct (negb _); [done|].
    apply bind_Ret in Hn as ([rm linked] & Hl & _). by eapply load_rules_slices. }
  destruct Hr as [cfg b Hin _ _ _ Hb|cfg parent b Hin _ _ _ Hb _]; cbn [base_of linkToRule] in Hs; [by eapply K|].
  inversion Hb as [cfg' b' Hin' _ _ _ Hb' E|]; subst. by eapply K.
Qed.

Definition keys_in (names : list string) (m : SQLs) : Prop := forall n, is_Some (m !! n) -> n ∈ names.

Lemma keys_in_add names m n d q : keys_in names m -> n ∈ names -> keys_in names (sqls_add m n d q).
Proof. intros Hm Hn k. unfold sqls_add. rewrite lookup_insert_is_Some. naive_solver. Qed.

Lemma target_slice (rule : Rule T) i n d : target rule i = Ret (n, d) -> n ∈ br_slices (base_of rule).
Proof.
  unfold target, GetSlice. intros H. apply bind_Ret in H as (n' & Hn & H).
  assert (n' = n) as <- by (destruct (GetDatabaseNameByTableIndex _ _); by simplify_eq).
  apply index_Ret in Hn as [_ Hn]. by apply list_elem_of_lookup_2 in Hn.
Qed.

Lemma sharding_loop_keys names fuel restore result (rt : Router (T := T)) m m' r' :
  slices_in names rt -> keys_in names m ->
  sharding_loop fuel restore result rt m = Ret (m', r') -> keys_in names m'.
Proof.
  intros Hrt. revert result m. induction fuel as [|fuel IH]; intros result m Hm H; cbn [sharding_loop] in H;
    [by injection H as <- _|]. destruct (HasNext result); [|by injection H as <- _].
  apply bind_Ret in H as (sql & _ & H). apply bind_Ret in H as ([i result'] & _ & H).
  destruct (GetShardRule _ _ _) as [rule|] eqn:Hr; [|done].
  apply bind_Ret in H as ([n d] & Ht%target_slice & H).
  eapply IH; [|exact H]. apply keys_in_add; [done|]. by eapply Hrt.
Qed.

Lemma generated_keys names restore result (rt : Router (T := T)) m r' :
  slices_in names rt -> generateShardingSQLs restore result rt = Ret (m, r') -> keys_in names m.
Proof.
  intros Hrt H. unfold generateShardingSQLs in H. apply bind_Ret in H as ([m1 r1] & H & [= <- _]).
  eapply sharding_loop_keys; [done| |exact H]. intros n [x Hx]. by rewrite lookup_empty in Hx.
Qed.

End slices.

(** * The slices of a plan *)

Section plans.
Context {T} {TM : TreeMap T} {LZ : LocalZone} {FE : FloatE} {MF : MapFirst} {S : Type} {SQ : Sequence S}.
Context {FT : FloatText} {GS : GoSort} {MR : MapRange} (order : gmap string ResultRow -> list string).
Context (names : list string) (db : string) (router : Router (T := T)) (Hrt : slices_in names router).

Lemma same_slices (s s' : StmtInfo T) : same_router s s' -> slices_in names (si_router s) -> slices_in names (si_router s').
Proof. by intros ->. Qed.

Lemma HandleSelectStmt_keys s p :
  HandleSelectStmt (NewSelectPlan db router) s = Ret p -> keys_in names (sp_sqls p).
Proof.
  destruct s as [pr sc st di th fs fr wh gb hv ws ob li lk]. cbn [HandleSelectStmt]. intros H.
  apply bind_Ret in H as ([fr' s1] & H1%wrap_Ret%handleTableRefs_router & H).
  apply bind_Ret in H as ([[fs' ms] oc] & _ & H). apply bind_Ret in H as ([[gb' gc] fs1] & _ & H).
  apply bind_Ret in H as ([[ob' oc'] fs2] & _ & H). apply bind_Ret in H as ([[gc' oc2] fs3] & _ & H).
  apply bind_Ret in H as ([wh' s2] & H2%wrap_Ret%handleWhere_router & H).
  apply bind_Ret in H as (hv' & _ & H). apply bind_Ret in H as ([mg li'] & _ & H).
  apply bind_Ret in H as (s3 & H3%wrap_Ret%hintFunction_router & H).
  apply bind_Ret in H as ([m rr] & Hg%wrap_Ret & [= <-]). cbn [sp_sqls].
  eapply generated_keys; [|exact Hg]. pose proof (globalQuery_router s2) as H4.
  unfold same_router in *. cbn in H1. by rewrite H3, H4, H2, H1.
Qed.

Lemma HandleUpdatePlan_keys s p :
  HandleUpdatePlan (NewTableAliasStmtInfo db router) s = Ret p -> keys_in names (mp_sqls p).
Proof.
  unfold HandleUpdatePlan. intros H.
  apply bind_Ret in H as ([refs s1] & H1%wrap_Ret%handleModifyTableRefs_router & H).
  apply bind_Ret in H as (l & _ & H). apply bind_Ret in H as ([wh s2] & H2%wrap_Ret%handleWhere_router & H).
  apply bind_Ret in H as (o & _ & H). apply bind_Ret in H as ([m rr] & Hg%wrap_Ret & [= <-]). cbn [mp_sqls].
  eapply generated_keys; [|exact Hg]. pose proof (globalModify_router s2) as H4.
  unfold same_router in *. cbn in H1. by rewrite H4, H2, H1.
Qed.

Lemma HandleDeletePlan_keys s p :
  HandleDeletePlan (NewTableAliasStmtInfo db router) s = Ret p -> keys_in names (mp_sqls p).
Proof.
  unfold HandleDeletePlan. intros H.
  apply bind_Ret in H as ([refs s1] & H1%wrap_Ret%handleModifyTableRefs_router & H).
  apply bind_Ret in H as ([wh s2] & H2%wrap_Ret%handleWhere_router & H).
  apply bind_Ret in H as (o & _ & H). apply bind_Ret in H as ([m rr] & Hg%wrap_Ret & [= <-]). cbn [mp_sqls].
  eapply generated_keys; [|exact Hg]. pose proof (globalModify_router s2) as H4.
  unfold same_router in *. cbn in H1. by rewrite H4, H2, H1.
Qed.

(** A plan under construction: the router stays, and so far nothing is sent
    elsewhere. *)
Record insert_keys (p : InsertPlan (T := T) (S := S)) : Prop := {
  ik_router : si_router (ip_info p) = router;
  ik_sqls : keys_in names (default ∅ (ip_sqls p)) }.

Lemma insert_global_keys p rule p' : insert_keys p -> insert_global p rule = Ret p' -> insert_keys p'.
Proof.
  intros [H1 H2] H. unfold insert_global in H. apply bind_Ret in H as ([m rr] & Hg%wrap_Ret & [= <-]).
  split; cbn; [done|]. eapply generated_keys; [|exact Hg]. cbn. by rewrite H1.
Qed.

Lemma handleInsertTableRefs_keys p b p' : insert_keys p -> handleInsertTableRefs p = Ret (b, p') -> insert_keys p'.
Proof.
  intros Hp H. unfold handleInsertTableRefs in H. destruct (ins_Table _) as [Left Right Tp On Us nj sj].
  destruct (is_some Right); [done|]. destruct Left as [[| | | |[t|t r|q|u|src' a'|j] a|]|]; try done.
  apply bind_Ret in H as ([rule info] & Hr%wrap_Ret & H). apply bind_Ret in H as (d & _ & H).
  unfold NeedCreateTableNameDecoratorWithoutAlias in Hr. cbn [getTableInfoFromTableName] in Hr.
  apply wrap_Ret, StmtInfo_Record_router in Hr.
  assert (forall st, insert_keys (with_stmt (with_info (with_table p (L_ (tn_Name t))) info) st)) as K.
  { intros st. destruct Hp as [H1 H2]. split; [|done]. cbn. unfold same_router in Hr. cbn in Hr. congruence. }
  destruct (String.eqb _ _).
  - apply bind_Ret in H as (p1 & H1 & [= _ <-]). eapply insert_global_keys; [apply K|exact H1].
  - injection H as _ <-. apply K.
Qed.

Lemma precheck_keys p p' : insert_keys p -> precheckInsertStmt p = Ret p' -> insert_keys p'.
Proof.
  intros [H1 H2] H. unfold precheckInsertStmt in H. repeat (case_match || invert_ret); by split.
Qed.

Lemma sequence_keys p p' : insert_keys p -> handleInsertGlobalSequenceValue p = Ret p' -> insert_keys p'.
Proof.
  intros [H1 H2] H. unfold handleInsertGlobalSequenceValue in H.
  destruct (GetSequence _ _ _); [|by injection H as <-]. destruct (isAssignmentMode p).
  - apply bind_Ret in H as ([l sq] & _ & [= <-]). by split.
  - destruct (_ =? -1); [by injection H as <-|]. apply bind_Ret in H as ([l sq] & _ & [= <-]). by split.
Qed.

Lemma columns_keys p p' : insert_keys p -> handleInsertColumnNames p = Ret p' -> insert_keys p'.
Proof.
  intros [H1 H2] H. unfold handleInsertColumnNames in H. apply bind_Ret in H as (r & _ & H).
  destruct (_ =? -1); [done|]. injection H as <-. by split.
Qed.

Lemma duplicate_keys p p' : insert_keys p -> handleInsertOnDuplicate p = Ret p' -> insert_keys p'.
Proof.
  intros [H1 H2] H. unfold handleInsertOnDuplicate in H. destruct (OnDuplicate _); [by injection H as <-|].
  apply bind_Ret in H as (r & _ & H). destruct (existsb _ _); [done|]. injection H as <-. by split.
Qed.

Lemma values_keys p p' : insert_keys p -> handleInsertValues p = Ret p' -> insert_keys p'.
Proof.
  intros [H1 H2] H. unfold handleInsertValues in H. destruct (isAssignmentMode p).
  - apply bind_Ret in H as (a & _ & H). destruct (as_Expr a); try (injection H as <-; by split).
    apply bind_Ret in H as (r & _ & H). apply bind_Ret in H as (i & _ & [= <-]). by split.
  - apply bind_Ret in H as (m & _ & H). destruct (GetShardIndexes _); [done|]. injection H as <-. by split.
Qed.

Lemma HandleInsertStmt_keys seq s p :
  HandleInsertStmt (NewInsertPlan db router seq s) = Ret p -> keys_in names (default ∅ (ip_sqls p)).
Proof.
  unfold HandleInsertStmt. intros H. apply bind_Ret in H as (p1 & H1 & H).
  apply precheck_keys in H1; [|split; [done|]; cbn; intros n [x Hx]; by rewrite lookup_empty in Hx].
  apply bind_Ret in H as ([fast p2] & H2%wrap_Ret & H). apply (handleInsertTableRefs_keys _ _ _ H1) in H2.
  destruct fast; [injection H as <-; apply H2|].
  apply bind_Ret in H as (p3 & H3%wrap_Ret & H). apply (sequence_keys _ _ H2) in H3.
  apply bind_Ret in H as (p4 & H4%wrap_Ret & H). apply (columns_keys _ _ H3) in H4.
  apply bind_Ret in H as (p5 & H5%wrap_Ret & H). apply (duplicate_keys _ _ H4) in H5.
  apply bind_Ret in H as (p6 & H6%wrap_Ret & H). apply (values_keys _ _ H5) in H6.
  apply bind_Ret in H as ([m rr] & Hg & [= <-]). cbn. eapply generated_keys; [|exact Hg].
  by rewrite (ik_router _ H6).
Qed.

Lemma buildShardPlan_keys s seq p seq' : buildShardPlan order s db router seq = Ret (p, seq') ->
  match p with
  | Session.SelectPlan_ sqls _ _ | InsertPlan_ sqls | ModifyPlan_ sqls => keys_in names sqls
  | _ => True
  end.
Proof.
  intros H. destruct s as [s|s|s|s|o]; cbn [buildShardPlan] in H; [..|done];
    apply bind_Ret in H as (q & Hq & [= <- _]).
  - by apply HandleSelectStmt_keys in Hq.
  - by apply HandleInsertStmt_keys in Hq.
  - by apply HandleUpdatePlan_keys in Hq.
  - by apply HandleDeletePlan_keys in Hq.
Qed.

End plans.

(** * The planner of a namespace *)

Section planner.
Context {T} {TM : TreeMap T} {LZ : LocalZone} {FE : FloatE} {MF : MapFirst} {S : Type} {SQ : Sequence S}.
Context {FT : FloatText} {GS : GoSort} {MR : MapRange} (order : gmap string ResultRow -> list string).
Context (Parse : string -> outcome (StmtNode T)) (phyDBs : gmap string string).

(** The slices of a configuration. *)
Definition config_slices (cfg : models.Namespace) : SliceNames :=
  (list_to_set (map models.Slice_Name (models.NSlices cfg)) : gset string).

(** The slices a plan is sent to. *)
Definition plan_slices (p : Plan) : gset string :=
  match p with
  | Session.SelectPlan_ sqls _ _ | InsertPlan_ sqls | ModifyPlan_ sqls => dom sqls
  | UnshardPlan _ _ _ => {[ "slice-0" ]}%string
  | SelectLastInsertIDPlan | ExplainPlan _ => ∅
  end.

Lemma explain_plan (p q : Plan) : explain phyDBs p = Ret q -> exists r, q = ExplainPlan r.
Proof. intros H. destruct p; cbn in H; try discriminate H; injection H as <-; by eexists. Qed.

Lemma BuildPlan_keys names (rt : Router (T := T)) n d seq p ts seq' :
  slices_in names rt -> BuildPlan order n phyDBs d rt seq = Ret (p, ts, seq') ->
  match p with
  | Session.SelectPlan_ sqls _ _ | InsertPlan_ sqls | ModifyPlan_ sqls => keys_in names sqls
  | _ => True
  end.
Proof.
  intros Hrt H. destruct n as [s|n].
  - cbn [BuildPlan] in H. apply bind_Ret in H as (last & _ & H). destruct last; [by injection H as <- _ _|].
    destruct (dbInvalid _); [done|]. apply bind_Ret in H as ([q sq] & Hq & [= <- _ _]).
    destruct (hasShardTable _); [by eapply buildShardPlan_keys|].
    apply bind_Ret in Hq as (q' & Hq & [= <- _]). by apply bind_Ret in Hq as (sql & _ & [= <-]).
  - destruct n as [s|n]; [|done].
    change (('(p, _, seq) ← wrap "build plan to explain error: %v" (BuildPlan order (Statement s) phyDBs d rt seq);
           ep ← explain phyDBs p; Ret (ep, [], seq)) = Ret (p, ts, seq')) in H.
    apply bind_Ret in H as ([[q ts'] sq] & _ & H). apply bind_Ret in H as (ep & He & [= <- _ _]).
    by apply explain_plan in He as [r ->].
Qed.

Lemma getPlan_known cfg (rt : Router (T := T)) seq d sql p ts :
  NewRouter cfg = Ret rt -> getPlan order Parse rt seq phyDBs d sql = Ret (p, ts) ->
  plan_known (SN := config_slices cfg) p.
Proof.
  intros Hrt%NewRouter_slices H. unfold getPlan in H. apply bind_Ret in H as (n & _ & H).
  apply bind_Ret in H as ([[q ts'] sq] & H%wrap_Ret & [= <- _]). apply (BuildPlan_keys _ _ _ _ _ _ _ _ Hrt) in H.
  destruct q; try done; intros k Hk; apply elem_of_list_to_set, H, Hk.
Qed.

(** The planner in every state of its sequences: what the sessions of a proxy with
    this configuration ask. *)
Definition planners_of (rt : Router (T := T)) (g : string -> string -> outcome (Plan * list string)) : Prop :=
  exists seq : SequenceManager S, g = getPlan order Parse rt seq phyDBs.

#[export] Instance planners_of_known cfg (rt : Router (T := T)) (Hrt : NewRouter cfg = Ret rt) :
  Planners (SN := config_slices cfg) (planners_of rt).
Proof. intros g [seq ->] d sql p ts. by apply getPlan_known. Qed.

(** C12: the planner of a namespace, whatever the statement and whatever its sequences
    have reached, sends nothing to a slice the configuration does not have, except that
    the plan of a statement without sharded tables goes to slice-0 in every
    configuration. *)
Theorem getPlan_slices cfg (rt : Router (T := T)) seq d sql p ts n :
  NewRouter cfg = Ret rt -> getPlan order Parse rt seq phyDBs d sql = Ret (p, ts) -> n ∈ plan_slices p ->
  n ∈ (config_slices cfg : gset string) \/ n = "slice-0"%string /\ exists d' q b, p = UnshardPlan d' q b.
Proof.
  intros Hrt Hp Hn. pose proof (getPlan_known cfg rt seq d sql p ts Hrt Hp) as Hk.
  destruct p as [sqls em mg|sqls|sqls|d' q b| |r]; cbn in Hn, Hk.
  1-3: left; by apply Hk, elem_of_dom.
  - right. split; [set_solver|by eexists _, _, _].
  - set_solver.
  - set_solver.
Qed.

End planner.

(** * Examples *)

#[local] Instance no_sequences : Sequence unit := {| GetPKName _ := EmptyString; NextSeq s := (Ret 0, s) |}.
#[local] Existing Instance list_range.
#[local] Existing Instance list_range_ok.
#[local] Existing Instance no_floats.
#[local] Existing Instance isort_GoSort.
#[local] Instance first_of_list : MapFirst := fun A m => head (map_to_list m).

#[local] Abbreviation Tree := (gmap Z Z).

Definition plan_config : models.Namespace := Router.example_ns "slice-0" [example_shard "tbl" ModRuleType].

Definition plan_router : Router (T := Tree) :=
  match NewRouter plan_config with Ret rt => rt | _ => example_router end.

Lemma plan_router_built : NewRouter plan_config = Ret plan_router.
Proof. vm_compute. reflexivity. Qed.

(** A grammar of two statements. *)
Definition two_statements (sql : string) : outcome (StmtNode Tree) :=
  if String.eqb sql "insert" then Ret (Statement (InsertNode two_rows))
  else if String.eqb sql "select" then Ret (Statement (SelectNode example_select))
  else Err (Errorf "line 1 column 1 near").

Definition plan_of (sql : string) : outcome (Plan * list string) :=
  getPlan (fun m => (map_to_list m).*1) two_statements plan_router (∅ : SequenceManager unit) ∅ "db" sql.

Lemma getPlan_slices_witness :
  exists sqls, plan_of "insert" = Ret (InsertPlan_ sqls, ["db:tbl"%string]) /\
    "slice-1"%string ∈ (config_slices plan_config : gset string) /\
    sqls_at sqls "slice-1" "db" =
      ["INSERT INTO `tbl_0002` (`id`,`name`) VALUES (7,1),(12,3)";
       "INSERT INTO `tbl_0003` (`id`,`name`) VALUES (3,2)"]%string.
Proof.
  destruct (plan_of "insert") as [[p ts]| |] eqn:E; [|by vm_compute in E..].
  pose proof (getPlan_slices _ two_statements ∅ plan_config plan_router (∅ : SequenceManager unit) "db" "insert" p ts "slice-1"
    plan_router_built E) as H.
  vm_compute in E. injection E as <- <-. eexists. split; [reflexivity|]. split; [|vm_compute; reflexivity].
  destruct H as [H|[[=] _]]; [apply elem_of_dom; by eexists|exact H].
Defined.

(** A configuration without slice-0, and a statement without sharded tables. *)
Definition main_config : models.Namespace :=
  models.mk_Namespace "ns" ∅ ∅ "" [example_slice "main"] [] [] "main".

(** It passes the checks, but the statement is planned for slice-0. *)
Example unshard_plan_ignores_configuration :
  models.verifySlices main_config = Ret tt /\
  exists rt p, NewRouter (T := Tree) main_config = Ret rt /\
    getPlan (fun m => (map_to_list m).*1) two_statements rt (∅ : SequenceManager unit) {[ "db" := "db" ]}%string "db" "select" = Ret p /\
    "slice-0"%string ∈ plan_slices p.1 /\ "slice-0"%string ∉ (config_slices main_config : gset string).
Proof.
  split; [vm_compute; reflexivity|]. eexists _, _. split; [vm_compute; reflexivity|]. split; [vm_compute; reflexivity|].
  split; [cbn; set_solver|]. by apply (bool_decide_unpack _); vm_compute.
Qed.

(** The proxy of the example of sessions with this planner: its first client inserts
    in a transaction. *)
Module planned_demo.
Import Sessions.demo.

Definition planned : string -> string -> outcome (Plan * list string) :=
  BuildPlan.getPlan (fun m => (map_to_list m).*1) two_statements plan_router (∅ : SequenceManager unit) ∅.

Fixpoint run_planned (p : Proxy) (l : list (nat * request)) : Proxy :=
  match l with
  | [] => p
  | (i, r) :: l =>
      match sessions p !! i with
      | Some se => run_planned (serve ns parse planned p i se r) l
      | None => run_planned p l
      end
  end.

Lemma opened_planned : opened_world (SN := config_slices plan_config) world0.
Proof.
  assert (config_slices plan_config = names) as -> by (vm_compute; reflexivity). apply opened.
Qed.

Abbreviation planner_step :=
  (step ns parse (planners_of (fun m => (map_to_list m).*1) two_statements ∅ plan_router)).

Lemma run_planned_steps l p : rtc planner_step p (run_planned p l).
Proof.
  revert p. induction l as [|[i r] l IH]; intros p; cbn [run_planned]; [done|].
  destruct (sessions p !! i) as [se|] eqn:E; [|done]. apply (rtc_l _ _ (serve ns parse planned p i se r)); [|apply IH]. apply Serve; [by exists ∅|done].
Qed.

Definition writing : Proxy :=
  run_planned two [(0%nat, ComQuery_ 0 "begin"); (0%nat, ComQuery_ 0 "insert")]%string.

Lemma writing_reachable : rtc planner_step start writing.
Proof.
  eapply rtc_l; [apply (Login _ _ _ _ "u" "db" 33 "utf8")|]. eapply rtc_l; [apply (Login _ _ _ _ "u" "db" 33 "utf8")|].
  apply (run_planned_steps _ two).
Qed.

Lemma writing_all_reached : ~ unreachable (log (p_world writing)).
Proof. intros (l1 & c & m & l2 & e & d & _ & _ & [=] & _). Qed.
End planned_demo.

Import Sessions.demo planned_demo.

